(* ===== verification/_CoqProject ===== *)
-Q . S2P
Prelude.v
Order.v
GoStrings.v
Sha256.v
Trace.v
TraceLaws.v
Messages.v
Bba.v
BbaMicro.v
BbaInv.v
BbaNet.v
BbaTerm.v
Rbc.v
RbcNet.v
RbcLocal.v
Acs.v
AcsLocal.v
AcsNet.v
AcsAgree.v
SlotAcs.v
SlotLaws.v
HoneyBadger.v
HoneyBadgerLaws.v
HoneyBadgerRun.v
HoneyBadgerDemo.v
Merge.v
MergeLaws.v
Kyber.v
Prf.v
PrfLaws.v
Btd.v
BtdLaws.v
BteDemo.v
Batch.v
BatchLaws.v
BatchArrange.v
BatchDecrypt.v
BatchDemo.v
Wire.v
WireLaws.v
Writer.v
WriterLaws.v
NodeState.v
Provider.v
Node.v
NodeSys.v
NodeLaws.v
NodeInv.v
NodeRun.v
NodeAgree.v
NodeDemo.v
Mempool.v
MempoolLaws.v
Targets.v
Corpus.v
Generate.v
CorpusLaws.v
CorpusNode.v
CorpusDemo.v
Config.v
ConfigLaws.v
Dealer.v
DealerLaws.v
CampaignLaws.v
ConfigDemo.v
Regex.v
Deploy.v
Bundle.v
DeployLaws.v
BundleLaws.v
DeployDemo.v
EvalData.v
Artifact.v
ArtifactLaws.v
EvalSuite.v
EvalSuiteLaws.v
EvalSuiteProtocol.v
EvalDrivers.v
EvalDriverLaws.v
EvalDemo.v
