(* ===== verification/Prelude.v ===== *)
(** * BLOC: a verification library

    BLOC is a set of Go programs in which a cluster of operators agrees, slot
    by slot, on encrypted transactions before anyone can read them. A mempool
    service builds inclusion lists, the nodes agree on a common subset of
    lists with HoneyBadgerBFT's asynchronous common subset, merge the agreed
    lists into one ordered set within the block's limits, and only then
    decrypt it in batches with threshold shares. This library models the core
    of that code and proves what makes it correct.

    ** The parts, and the files that model them

    - _The agreement library_, [src/sbc/hbbft]. [Messages] has the message
      types and the outgoing queue ([message_que.go]); [Bba] the binary
      agreement ([bba.go]); [Rbc] the reliable broadcast ([rbc.go]); [Acs] the
      common subset, which owns one broadcast and one agreement per proposer
      ([acs.go]); [SlotAcs] the slot wrapper that encodes batches and turns the
      agreed subset into a slot output ([bloc_slot.go]); [HoneyBadger] the
      general-purpose engine of the upstream library, one common subset per
      epoch, with its buffer ([honey_badger.go], [buffer.go]); [Trace] the trace
      recorder the instances log to ([trace.go], [trace_outbound.go]).
    - _The merge of inclusion lists_, [src/bloc-node/internal/app/inclusion].
      [Merge] has the data of [types.go], the merge rule of [merge.go] and the
      proposal payload of [proto.go].
    - _Batched threshold encryption_, [src/bte/btd-impl-main]. [Kyber] is the
      interface of the group library; [Prf] the puncturable PRF and the
      serialized public parameters ([prf/prf.go]); [Btd] ElGamal and the
      batched scheme ([elgamal/elgamal.go], [be/btd.go]); [Batch] the cluster
      layer: hybrid ciphertexts and their wire format, the arrangement of a
      batch into sub-batches, shares and their combination ([be/cluster.go]).
    - _The node_, [src/bloc-node/internal/app]. [Wire] has the envelopes, their
      protobuf form, frames, lanes, admission and sending
      ([transport_libp2p*.go], [codec.go]); [Writer] the goroutine behind a
      persistent stream ([transport_libp2p_persistent.go]); [NodeState] the slot
      state with its share store and reconstruction claims, [Provider] where
      proposals come from ([provider.go]), [Node] the handlers of [node.go], and
      [NodeSys] the node as a transition system in which goroutines and requests
      interleave at the critical sections. [Config] is the configuration and
      [newNode] ([config.go]); [Dealer] generates clusters and campaign
      identities ([commands.go], [campaign_identity.go]).
    - _Deployments_, in the same package. [Deploy] generates a cluster for the
      hosts of an inventory and binds a configuration to a corpus
      ([ec2_config.go], [corpus_config.go]); [Bundle] freezes a campaign in a
      directory and materializes it on an inventory ([campaign_bundle.go],
      [campaign_materialize.go]), and [Regex] has the patterns both match.
    - _Evaluation_, in the same package. [EvalData] has runs, results and their
      judging, sources of transactions and scenarios ([tx_source.go], parts of
      the [eval*.go] files), and the demo's transactions ([ethdemo/tx.go]);
      [EvalSuite] the campaigns on clusters that are
      restarted when a slot breaks them ([eval_persistent.go]); [EvalDrivers]
      the local, suite and remote evaluators ([eval.go], [eval_suite.go],
      [eval_remote.go]); [Artifact] the file of a suite's traces
      ([acs_trace_artifact.go]).
    - _The mempool service_, [src/mempool-il/internal]. [Mempool] has the store,
      the classifier, the inclusion-list builder, the chain clients and the
      tracker of pending transactions; [Targets] target transactions and mock
      placeholders, with go-ethereum as the class [Ethereum]; [Corpus] the
      encrypted corpus: its manifest, validation, loading and serving;
      [Generate] how it is made.
    - _Shared_: this file; [Order], comparisons and the uniqueness of sorted
      orders; [GoStrings], the string, hexadecimal, decimal and big-endian
      functions of Go's library; [Sha256], the digest.

    A Go method is a function of the receiver's state; one call of an exported
    method of the agreement library runs under the instance's lock or loop and
    is one atomic step. State is a record with the fields of the struct, a map
    a [gmap] or [gset], an integer [Z] with its wrap-around written out, a
    string or byte slice a list of byte values. A call that can panic returns
    [go] (agreement library) or [out] (encryption), where [Err] carries the
    text of the error. The order in which Go ranges over a map, where it
    matters, is an argument; so are random values.

    ** What is proved

    - Binary agreement ([BbaMicro], [BbaInv], [BbaNet], [BbaTerm]). In every
      reachable state of an asynchronous network with Byzantine members, at
      most F of N > 3F, two correct nodes decide alike and decide some correct
      node's input; every call returns. The handlers are decomposed into
      micro-steps over a history of what correct nodes did, and the invariant
      is kept by each micro-step.
    - Reliable broadcast ([RbcNet], [RbcLocal]): agreement, validity and
      uniqueness of the READY root against interfaces for Merkle trees and
      erasure codes; when decoding panics and when it succeeds.
    - Common subset ([AcsLocal], [AcsNet], [AcsAgree]). The calls a node makes
      on the instances of one proposer are a run of the two networks above, so
      their invariants carry over: agreement on the output map, and its
      quality. [SlotLaws]: what the slot makes of that map. [HoneyBadgerLaws]
      and [HoneyBadgerRun]: the engine commits each epoch once and alike on
      correct nodes; what messages of other epochs do to it.
    - Trace ([TraceLaws]): when the transport trace is final; lemmas on
      milestones and on attributed waiting times.
    - Merge ([MergeLaws]): validity, limits and order of the merged set, the
      greedy selection candidate by candidate, independence of map order, sort
      algorithm and list order, the payload round trip.
    - Encryption ([PrfLaws], [BtdLaws], [BatchLaws], [BatchArrange],
      [BatchDecrypt]): parallel and sequential setup agree, the
      public parameters and ciphertexts survive serialization, honest
      ciphertexts verify, a batch decrypts to its messages, the optimised
      decryption computes the same ones, the loop over share subsets
      enumerates each subset once, every acceptable batch is arranged without
      index collisions, and the whole pipeline from [EncryptTx] to
      [CombineShares] returns every transaction at its position. [BteDemo] and
      [BatchDemo] instantiate the interfaces and run the pipeline.
    - Transport ([WireLaws], [WriterLaws]): only authenticated and well-addressed
      envelopes reach a handler; what is sent arrives in order; a persistent
      stream holds whole frames, a send succeeds only when its frame was
      written, and closing the stop channel ends the writer with every taken
      request completed and every stream reset.
    - Node ([NodeLaws], [NodeInv], [NodeRun], [NodeAgree]; run in [NodeDemo]):
      under every interleaving a slot ends once, the share store stays sound and
      bounded, one reconstruction runs at a time within its budget, and correct
      nodes reach the same plan from the agreed subset.
    - Configuration ([ConfigLaws], [DealerLaws], [CampaignLaws]; run in
      [ConfigDemo]): what is read is within the absolute limits; the files of a
      generated cluster start every operator with the share dealt to it, in a
      state the node's invariants are about; a campaign identity is verified
      from its files and accepted by the mempool service.
    - Deployments ([DeployLaws], [BundleLaws]; run in [DeployDemo]): a cluster
      generated for an inventory starts whatever the order of the hosts, and
      the evaluator knows every operator; binding a configuration to a corpus
      keeps its nodes and makes them demand that corpus; a frozen bundle is
      loaded exactly as it was frozen; the cluster materialized from a bundle
      starts with the secrets of the bundle.
    - Evaluation ([EvalSuiteLaws], [EvalSuiteProtocol], [EvalDriverLaws],
      [ArtifactLaws]; run in [EvalDemo]): a campaign ends,
      whatever its nodes and files do, keeps the runs of its plan in order and
      numbers its slots without a gap; its clusters follow an automaton in
      which a broken one is recovered before it is used again; a completed run
      has agreeing results of every node; a suite is valid only when every
      scenario had its runs, and its trace file holds exactly their traces.
    - Mempool ([MempoolLaws], [CorpusLaws], [CorpusNode]; run in [CorpusDemo]):
      the served list is the greedy selection in fee order; the tracker refines
      a map from sender and nonce to the best transaction; a generated corpus is
      loaded back and its identity binds its contents; what the service serves,
      the node accepts.

    ** Fuel

    The handlers of [Bba] call each other through several epochs; they take
    fuel, and [BbaTerm.bba_total] gives an amount that suffices for every
    state. [Acs] and [SlotAcs] pass the fuel on. The loop over share subsets
    takes the binomial coefficient, which [BatchLaws] shows is its exact
    number of rounds. String trimming and template replacement take the length
    of the string, decimal printing the number of binary digits, writing and
    framing the number of bytes: every round consumes at least one. Starting a
    campaign's cluster takes one more than the bound on restarts, as every
    failed round counts towards it; growing a demo transaction one more than
    the length asked for, as every round adds a byte. A schedule of [NodeSys]
    or [Writer], and the polls of an evaluator, are finite lists.

    ** Parameters

    Code that is not in the repository: the Merkle tree and Reed-Solomon
    packages ([Rbc.Encoder]), gob and protobuf encodings, the group library
    with [share.RecoverCommit] and [share.RecoverSecret] ([Kyber]), go-ethereum
    ([Targets.Ethereum]), the keys of libp2p ([Config.Libp2pKeys]), HKDF and
    AES-GCM, JSON and HTTP exchanges, files, their modes and paths, Unicode case
    folding.
    Theorems that need a law of one of them state it as a class or hypothesis,
    and a concrete function satisfies it in a witness.

    ** Not modelled

    - Of the node: Prometheus metrics, byte counters and durations, HTTP
      plumbing and result files; libp2p hosts, dialing and connection
      management.
    - Around the node: the statistics and tables of evaluations, reports, flag
      parsing, child processes and HTTP clients, writing files. The evaluators
      see them as environments that answer in any way.
    - Of the mempool service: JSON-RPC and HTTP exchanges, timing, CSV output
      and the atomic rename of a corpus.
    - The goroutine-based local transport; generated protobuf code. *)

From stdpp Require Export base tactics numbers list gmap sets fin_sets fin_maps strings sorting.
From Stdlib Require Export ZArith Lia Permutation Sorted.

#[global] Open Scope Z_scope.

(** This file: outcomes of calls and their notation, machine integers, and
    quorum lemmas. *)

(** ** Lengths and sizes as Go integers *)

Abbreviation zlen l := (Z.of_nat (length l)).
Abbreviation zsize m := (Z.of_nat (size m)).

(** ** Bytes and Go strings: lists of values in [0, 256) *)

Abbreviation bytes := (list Z).

(** ** Outcomes of a Go call

    A call returns a value, panics (a run-time error such as an index out of
    range), or, in this library only, has not finished within the fuel the
    model was given. *)

Inductive go (A : Type) : Type :=
  | Ret (a : A)
  | Panic
  | NoFuel.
Arguments Ret {A} a.
Arguments Panic {A}.
Arguments NoFuel {A}.

Definition go_bind {A B : Type} (m : go A) (k : A -> go B) : go B :=
  match m with
  | Ret a => k a
  | Panic => Panic
  | NoFuel => NoFuel
  end.

Lemma ret_pair {A B : Type} {a a' : A} {b b' : B} :
  Ret (a, b) = Ret (a', b') -> a = a' /\ b = b'.
Proof. by intros [= -> ->]. Qed.

(** Substitutes the results of a finished call. *)
Ltac ret_subst H := apply ret_pair in H as [<- <-].

Declare Scope go_scope.
Delimit Scope go_scope with go.
Notation "'let!' x ':=' m 'in' k" := (go_bind m (fun x => k))
  (at level 10, x pattern, m at level 100, k at level 200) : go_scope.
#[global] Open Scope go_scope.

(** [for x in l { st = body x st }], stopping at the first panic. *)
Fixpoint go_fold {A S : Type} (body : S -> A -> go S) (l : list A) (st : S) : go S :=
  match l with
  | [] => Ret st
  | x :: l' => let! st' := body st x in go_fold body l' st'
  end.

(** ** Calls that return a value or an error

    The Go idiom [v, err := f(); if err != nil { return ..., err }]. The error
    is kept as its text without the formatted arguments; [Crash] is a run-time
    panic. *)

Inductive out (A : Type) : Type :=
  | Ok (a : A)
  | Err (e : string)
  | Crash.
Arguments Ok {A} a.
Arguments Err {A} e.
Arguments Crash {A}.

Definition out_bind {A B : Type} (m : out A) (k : A -> out B) : out B :=
  match m with
  | Ok a => k a
  | Err e => Err e
  | Crash => Crash
  end.

Notation "'let?' x ':=' m 'in' k" := (out_bind m (fun x => k))
  (at level 10, x pattern, m at level 100, k at level 200) : go_scope.

(** [s[i]] for a slice: a panic out of range. *)
Definition at_index {A : Type} (l : list A) (i : Z) : out A :=
  if i <? 0 then Crash
  else
    match l !! Z.to_nat i with
    | Some x => Ok x
    | None => Crash
    end.

(** [for _, x := range l { y, err := f(x); ...; ys = append(ys, y) }] *)
Fixpoint map_out {A B : Type} (f : A -> out B) (l : list A) : out (list B) :=
  match l with
  | [] => Ok []
  | x :: l' => let? y := f x in let? ys := map_out f l' in Ok (y :: ys)
  end.

(** [for _, x := range l { st, err = body(st, x); ... }] *)
Fixpoint fold_out {A S : Type} (body : S -> A -> out S) (l : list A) (st : S) : out S :=
  match l with
  | [] => Ok st
  | x :: l' => let? st' := body st x in fold_out body l' st'
  end.

Lemma map_out_ok {A B} (f : A -> out B) (g : A -> B) l :
  (forall x, x ∈ l -> f x = Ok (g x)) -> map_out f l = Ok (map g l).
Proof.
  induction l as [|x l IH]; intros H; cbn; [done|].
  rewrite (H x) by left. cbn. rewrite IH by (intros y Hy; apply H; by right). done.
Qed.

Lemma map_out_length {A B} (f : A -> out B) l ys : map_out f l = Ok ys -> length ys = length l.
Proof.
  revert ys. induction l as [|x l IH]; intros ys; cbn; [by intros [= <-]|].
  destruct (f x); cbn; [|done..]. destruct (map_out f l) as [ys'| |]; cbn; [|done..].
  intros [= <-]. cbn. by rewrite (IH ys').
Qed.

Lemma at_index_ok {A} (l : list A) i : 0 <= i < Z.of_nat (length l) -> exists x, at_index l i = Ok x.
Proof.
  intros H. unfold at_index. replace (i <? 0) with false by lia.
  destruct (l !! Z.to_nat i) eqn:E; [eauto|]. apply lookup_ge_None in E. lia.
Qed.

Lemma at_index_nth {A} (l : list A) i d : 0 <= i < zlen l -> at_index l i = Ok (nth (Z.to_nat i) l d).
Proof.
  intros Hi. unfold at_index. replace (i <? 0) with false by lia.
  destruct (l !! Z.to_nat i) as [x|] eqn:E.
  - by rewrite (nth_lookup_Some _ _ d _ E).
  - apply lookup_ge_None in E. lia.
Qed.

Lemma at_index_map {A C} (f : A -> C) (l : list A) i d :
  0 <= i < zlen l -> at_index (map f l) i = Ok (f (nth (Z.to_nat i) l d)).
Proof.
  intros Hi. rewrite (at_index_nth _ _ (f d)) by (rewrite length_map; lia). by rewrite map_nth.
Qed.

(** ** Machine integers *)

Definition u8 (x : Z) : Z := x mod 2 ^ 8.
Definition u32 (x : Z) : Z := x mod 2 ^ 32.
Definition u64 (x : Z) : Z := x mod 2 ^ 64.
(** Two's complement reading of a 64-bit word, the conversion to Go's [int]. *)
Definition i64 (x : Z) : Z := (x + 2 ^ 63) mod 2 ^ 64 - 2 ^ 63.

Lemma u64_small x : 0 <= x < 2 ^ 64 -> u64 x = x.
Proof. intros. by apply Z.mod_small. Qed.

Lemma u32_small x : 0 <= x < 2 ^ 32 -> u32 x = x.
Proof. intros. by apply Z.mod_small. Qed.

Lemma i64_small x : - 2 ^ 63 <= x < 2 ^ 63 -> i64 x = x.
Proof. intros. unfold i64. rewrite Z.mod_small; lia. Qed.

(** Values that fit are unchanged by the conversions. *)
Create HintDb words.
#[export] Hint Rewrite u64_small u32_small i64_small using lia : words.

(** [run H] replaces a call by its outcome and goes on with the next one. *)
Ltac run H := rewrite H; cbn [out_bind].

Lemma u64_range x : 0 <= u64 x < 2 ^ 64.
Proof. by apply Z.mod_pos_bound. Qed.

(** An [int] survives the conversion to [uint64] and back. *)
Lemma i64_u64 x : - 2 ^ 63 <= x < 2 ^ 63 -> i64 (u64 x) = x.
Proof.
  intros Hx. unfold i64, u64. rewrite Zplus_mod_idemp_l. rewrite Z.mod_small; lia.
Qed.

(** Joining a value with another one shifted past it. *)
Lemma lor_shiftl x b s : 0 <= s -> 0 <= x < 2 ^ s -> Z.lor x (Z.shiftl b s) = x + b * 2 ^ s.
Proof.
  intros Hs Hx. rewrite <- Z.shiftl_mul_pow2 by done. symmetry. apply Z.add_nocarry_lor.
  apply Z.bits_inj'. intros n Hn. rewrite Z.land_spec, Z.bits_0.
  destruct (Z.ltb_spec n s).
  - rewrite (Z.shiftl_spec_low b) by done. apply andb_false_r.
  - assert (Z.testbit x n = false) as ->; [|done].
    rewrite <- (Z.mod_small x (2 ^ s)) by done. by apply Z.mod_pow2_bits_high.
Qed.

(** ** Quorums over a finite set of node identifiers *)

Lemma size_union_le (X Y : gset Z) : (size (X ∪ Y) <= size X + size Y)%nat.
Proof.
  rewrite size_union_alt. assert (size (Y ∖ X) <= size Y)%nat; [|lia].
  apply subseteq_size. set_solver.
Qed.

Section Quorums.
Context (nodes byz : gset Z) (F : Z).
Hypothesis byz_small : zsize byz <= F.

Lemma quorum_correct (A : gset Z) :
  F < zsize A -> exists x, x ∈ A /\ x ∉ byz.
Proof.
  intros HA.
  destruct (decide (A ⊆ byz)) as [Hsub|Hnot].
  - apply subseteq_size in Hsub. lia.
  - destruct (set_choose_or_empty (A ∖ byz)) as [[x Hx]|He].
    + exists x. set_solver.
    + exfalso. apply Hnot. set_solver.
Qed.

Lemma quorum_meet (A B : gset Z) :
  A ⊆ nodes -> B ⊆ nodes ->
  zsize nodes + F < zsize A + zsize B ->
  exists x, x ∈ A /\ x ∈ B /\ x ∉ byz.
Proof.
  intros HA HB Hsz.
  destruct (quorum_correct (A ∩ B)) as (x & Hx & Hc).
  - assert (size (A ∪ B) <= size nodes)%nat by (apply subseteq_size; set_solver).
    pose proof (size_union_alt A B).
    pose proof (size_difference_alt B A) as Hd.
    assert (size (B ∖ A) + size (B ∩ A) = size B)%nat as Hsplit.
    { rewrite <- size_union by set_solver. f_equal. apply set_eq. intros y.
      destruct (decide (y ∈ A)); set_solver. }
    assert (size (A ∩ B) = size (B ∩ A))%nat as -> by (f_equal; set_solver).
    lia.
  - exists x. set_solver.
Qed.
End Quorums.
