(* ===== verification/Order.v ===== *)
(** * Three-way comparisons and sorted slices

    Go code sorts with a chain of "if the keys differ, compare them" tests.
    Such a chain is a lexicographic comparison; this file gives the laws of
    comparisons ([CmpLaws]), builds them from smaller ones, and shows that a
    slice whose elements differ in some key has exactly one sorted order, so
    that the unstable [sort.Slice] has one possible result. *)

From S2P Require Import Prelude.

Class CmpLaws {A : Type} (cmp : A -> A -> comparison) : Prop := {
  compare_flip : forall x y, cmp y x = CompOpp (cmp x y);
  notGt_trans : forall x y z, cmp x y <> Gt -> cmp y z <> Gt -> cmp x z <> Gt
}.

#[export] Hint Mode CmpLaws + ! : typeclass_instances.

(** [first] decides, [second] breaks ties. *)
Definition cmpThen {A : Type} (first second : A -> A -> comparison) (x y : A) : comparison :=
  match first x y with
  | Eq => second x y
  | r => r
  end.

Definition cmpOn {A B : Type} (key : A -> B) (cmp : B -> B -> comparison) (x y : A) : comparison :=
  cmp (key x) (key y).

Definition cmpDown {A : Type} (cmp : A -> A -> comparison) (x y : A) : comparison := cmp y x.

#[global] Typeclasses Opaque cmpThen cmpOn cmpDown.

(** Byte strings compare bytewise, a proper prefix first. *)
Fixpoint bytesCmp (a b : bytes) : comparison :=
  match a, b with
  | [], [] => Eq
  | [], _ :: _ => Lt
  | _ :: _, [] => Gt
  | x :: a', y :: b' =>
      match Z.compare x y with
      | Eq => bytesCmp a' b'
      | r => r
      end
  end.

Lemma cmp_eq_opp {A} (cmp : A -> A -> comparison) `{!CmpLaws cmp} x y :
  cmp x y = Eq -> cmp y x = Eq.
Proof. intros H. rewrite (compare_flip (cmp := cmp) x y). by rewrite H. Qed.

Lemma compare_self {A} (cmp : A -> A -> comparison) `{!CmpLaws cmp} x : cmp x x = Eq.
Proof. pose proof (compare_flip (cmp := cmp) x x) as H. by destruct (cmp x x). Qed.

(** Ties propagate: between the two ends of a chain of "not after" that
    closes into a tie, every link is a tie. *)
Lemma cmp_eq_squeeze {A} (cmp : A -> A -> comparison) `{!CmpLaws cmp} x y z :
  cmp x y <> Gt -> cmp y z <> Gt -> cmp x z = Eq -> cmp x y = Eq /\ cmp y z = Eq.
Proof.
  intros Hxy Hyz Hxz.
  assert (cmp z x <> Gt) as Hzx by (rewrite (compare_flip (cmp := cmp) x z), Hxz; done).
  pose proof (notGt_trans (cmp := cmp) y z x Hyz Hzx) as Hyx.
  pose proof (notGt_trans (cmp := cmp) z x y Hzx Hxy) as Hzy.
  rewrite (compare_flip (cmp := cmp) x y) in Hyx. rewrite (compare_flip (cmp := cmp) y z) in Hzy.
  by destruct (cmp x y), (cmp y z).
Qed.

#[global] Instance Z_compare_laws : CmpLaws Z.compare.
Proof.
  split.
  - intros x y. apply Z.compare_antisym.
  - intros x y z. change (x <= y -> y <= z -> x <= z). lia.
Qed.

#[global] Instance cmpDown_laws {A} (cmp : A -> A -> comparison) `{!CmpLaws cmp} :
  CmpLaws (cmpDown cmp).
Proof.
  split; unfold cmpDown.
  - intros x y. apply compare_flip.
  - intros x y z H1 H2. by apply (notGt_trans z y x).
Qed.

#[global] Instance cmpOn_laws {A B} (key : A -> B) cmp `{!CmpLaws cmp} : CmpLaws (cmpOn key cmp).
Proof.
  split; unfold cmpOn.
  - intros x y. apply compare_flip.
  - intros x y z. apply notGt_trans.
Qed.

#[global] Instance cmpThen_laws {A} (c1 c2 : A -> A -> comparison) `{!CmpLaws c1} `{!CmpLaws c2} :
  CmpLaws (cmpThen c1 c2).
Proof.
  split; unfold cmpThen.
  - intros x y. rewrite (compare_flip (cmp := c1) x y), (compare_flip (cmp := c2) x y). by destruct (c1 x y).
  - intros x y z Hxy Hyz.
    assert (c1 x y <> Gt) as H1 by (by destruct (c1 x y)).
    assert (c1 y z <> Gt) as H2 by (by destruct (c1 y z)).
    pose proof (notGt_trans (cmp := c1) x y z H1 H2) as H3.
    destruct (c1 x z) eqn:E; [|done|done].
    destruct (cmp_eq_squeeze c1 x y z H1 H2 E) as [E1 E2].
    rewrite E1 in Hxy. rewrite E2 in Hyz. by apply (notGt_trans x y z).
Qed.

#[global] Instance bytesCmp_laws : CmpLaws bytesCmp.
Proof.
  split.
  - intros x. induction x as [|a x IH]; intros [|b y]; simpl; [done..|].
    rewrite (compare_flip (cmp := Z.compare) a b). destruct (Z.compare a b); simpl; [apply IH|done|done].
  - intros x. induction x as [|a x IH]; intros [|b y] [|c z]; simpl; try done.
    intros H1 H2.
    assert (Z.compare a b <> Gt) as E1 by (by destruct (Z.compare a b)).
    assert (Z.compare b c <> Gt) as E2 by (by destruct (Z.compare b c)).
    pose proof (notGt_trans (cmp := Z.compare) a b c E1 E2) as E3.
    destruct (Z.compare a c) eqn:E; [|done|done].
    destruct (cmp_eq_squeeze Z.compare a b c E1 E2 E) as [F1 F2].
    rewrite F1 in H1. rewrite F2 in H2. by apply (IH y z).
Qed.

Lemma bytesCmp_eq a b : bytesCmp a b = Eq -> a = b.
Proof.
  revert b. induction a as [|x a IH]; intros [|y b]; simpl; [done..|].
  destruct (Z.compare x y) eqn:E; [|done|done].
  apply Z.compare_eq in E as ->. intros ->%IH. done.
Qed.

Lemma cmpThen_eq {A} (c1 c2 : A -> A -> comparison) x y :
  cmpThen c1 c2 x y = Eq -> c1 x y = Eq /\ c2 x y = Eq.
Proof. unfold cmpThen. by destruct (c1 x y). Qed.

(** ** Go's comparison operators, as [less] functions *)

Definition bytesLt (a b : bytes) : bool :=
  match bytesCmp a b with
  | Lt => true
  | _ => false
  end.

Definition ltOf {A : Type} (cmp : A -> A -> comparison) (x y : A) : bool :=
  match cmp x y with
  | Lt => true
  | _ => false
  end.

(** One link of a chain [if a != b { return a < b }; rest]. *)
Lemma link_bytes a b (rest : bool) (c : comparison) :
  rest = (match c with Lt => true | _ => false end) ->
  (if bool_decide (a = b) then rest else bytesLt a b) =
  match (match bytesCmp a b with Eq => c | r => r end) with Lt => true | _ => false end.
Proof.
  intros ->. case_bool_decide as E.
  - subst. by rewrite (compare_self bytesCmp).
  - unfold bytesLt. destruct (bytesCmp a b) eqn:F; [|done|done].
    by apply bytesCmp_eq in F.
Qed.

Lemma link_Z a b (rest : bool) (c : comparison) :
  rest = (match c with Lt => true | _ => false end) ->
  (if a =? b then rest else a <? b) =
  match (match Z.compare a b with Eq => c | r => r end) with Lt => true | _ => false end.
Proof.
  intros ->. destruct (Z.eqb_spec a b) as [->|E].
  - by rewrite Z.compare_refl.
  - unfold Z.ltb. destruct (Z.compare a b) eqn:F; [|done|done].
    by apply Z.compare_eq in F.
Qed.

(** ** Sorting

    [notAfter less x y] is what [sort.Slice] establishes between neighbours:
    the later one is not less than the earlier one. *)

Definition notAfter {A : Type} (less : A -> A -> bool) (x y : A) : Prop := less y x = false.

#[global] Instance notAfter_dec {A} (less : A -> A -> bool) : RelDecision (notAfter less).
Proof. intros x y. unfold notAfter. apply _. Defined.

(** What [sort.Slice] promises: the same elements, in an order where no
    element is less than its predecessor. *)
Definition SortsTo {A : Type} (less : A -> A -> bool) (l l' : list A) : Prop :=
  l' ≡ₚ l /\ Sorted (notAfter less) l'.

Definition sortSlice {A : Type} (less : A -> A -> bool) (l : list A) : list A :=
  merge_sort (notAfter less) l.

Section Sorting.
(** [less] is the code's comparison function, [cmp] the three-way comparison
it decides. *)
Context {A : Type} (cmp : A -> A -> comparison) `{!CmpLaws cmp} (less : A -> A -> bool).
Hypothesis less_cmp : forall x y, less x y = ltOf cmp x y.

Lemma notAfter_cmp x y : notAfter less x y <-> cmp x y <> Gt.
Proof.
  unfold notAfter. rewrite less_cmp. unfold ltOf. rewrite (compare_flip (cmp := cmp) x y). by destruct (cmp x y).
Qed.

Lemma notAfter_total : Total (notAfter less).
Proof.
  intros x y. pose proof (compare_flip (cmp := cmp) x y) as Ho.
  destruct (cmp x y) eqn:E; [left|left|right]; apply notAfter_cmp; by rewrite ?Ho, ?E.
Qed.

Lemma notAfter_trans : Transitive (notAfter less).
Proof.
  intros x y z Hxy%notAfter_cmp Hyz%notAfter_cmp. apply notAfter_cmp. by apply (notGt_trans x y z).
Qed.

Lemma sortSlice_sorts l : SortsTo less l (sortSlice less l).
Proof.
  split; [apply merge_sort_Permutation |].
  apply (@Sorted_merge_sort _ (notAfter less) _ notAfter_total).
Qed.

Lemma sortSlice_Permutation l : sortSlice less l ≡ₚ l.
Proof. exact (proj1 (sortSlice_sorts l)). Qed.

Lemma sorted_strongly l l' : SortsTo less l l' -> StronglySorted (notAfter less) l'.
Proof. intros [_ HS]. by apply (@Sorted_StronglySorted _ _ notAfter_trans). Qed.

Lemma sortSlice_strongly l : StronglySorted (notAfter less) (sortSlice less l).
Proof. exact (sorted_strongly l _ (sortSlice_sorts l)). Qed.

(** Any two sorted orders of the same elements agree, provided no two
different elements tie. *)
Lemma sorted_unique l l1 l2 :
  (forall x y, x ∈ l -> y ∈ l -> cmp x y = Eq -> x = y) ->
  SortsTo less l l1 -> SortsTo less l l2 -> l1 = l2.
Proof.
  intros Htie H1 H2. pose proof (sorted_strongly l l1 H1) as S1. pose proof (sorted_strongly l l2 H2) as S2.
  destruct H1 as [P1 _], H2 as [P2 _].
  apply (StronglySorted_unique_strong (notAfter less)); [|done|done|by rewrite P1, P2].
  intros x y Hx Hy H1%notAfter_cmp H2%notAfter_cmp. rewrite (compare_flip (cmp := cmp) x y) in H2.
  apply Htie; [by rewrite <- P1 | by rewrite <- P2 | by destruct (cmp x y)].
Qed.

Lemma sortSlice_unique l l' :
  (forall x y, x ∈ l -> y ∈ l -> cmp x y = Eq -> x = y) ->
  SortsTo less l l' -> l' = sortSlice less l.
Proof. intros Htie Hs. apply (sorted_unique l); [done..|apply sortSlice_sorts]. Qed.

Lemma sortSlice_perm l l' :
  (forall x y, x ∈ l -> y ∈ l -> cmp x y = Eq -> x = y) ->
  l' ≡ₚ l -> sortSlice less l' = sortSlice less l.
Proof.
  intros Htie Hp. apply sortSlice_unique; [done|].
  destruct (sortSlice_sorts l') as [P S]. split; [by rewrite P | done].
Qed.
End Sorting.

(** Membership and distinctness do not depend on the order. Stated on plain
    lists, so that large terms need no setoid rewriting. *)

Lemma elem_perm {A} (l l' : list A) x : l ≡ₚ l' -> x ∈ l <-> x ∈ l'.
Proof. intros Hp. by rewrite Hp. Qed.

Lemma NoDup_perm {A} (l l' : list A) : l ≡ₚ l' -> NoDup l' -> NoDup l.
Proof. intros Hp. by rewrite Hp. Qed.

Lemma StronglySorted_sublist {A} (R : A -> A -> Prop) (l l' : list A) :
  l `sublist_of` l' -> StronglySorted R l' -> StronglySorted R l.
Proof.
  induction 1 as [|x l l' Hs IH|x l l' Hs IH]; intros HS; [done| |].
  - apply StronglySorted_inv in HS as [HS Hx]. constructor; [auto|].
    rewrite Forall_forall in *. intros y Hy. apply Hx. by apply (elem_of_sublist l).
  - apply StronglySorted_inv in HS as [HS _]. auto.
Qed.

(** ** Ranging over a map *)

(** Go visits every entry of a map once, in any order. *)
Definition rangesOver {A : Type} (order : gmap bytes A -> list A) : Prop :=
  forall m, order m ≡ₚ (map_to_list m).*2.

(** Every value is stored under its own key. *)
Definition keyedBy {K A : Type} `{Countable K} (key : A -> K) (m : gmap K A) : Prop :=
  forall h x, m !! h = Some x -> key x = h.

Lemma range_elem {A} (order : gmap bytes A -> list A) m x :
  rangesOver order -> x ∈ order m <-> exists h, m !! h = Some x.
Proof.
  intros Ho. etransitivity; [apply (elem_perm _ _ _ (Ho m))|]. rewrite list_elem_of_fmap. split.
  - intros ([h x'] & -> & Hin). exists h. by apply elem_of_map_to_list.
  - intros [h Hh]. exists (h, x). split; [done|]. by apply elem_of_map_to_list.
Qed.

Lemma keyedBy_NoDup {K A} `{Countable K} (key : A -> K) (m : gmap K A) :
  keyedBy key m -> NoDup (map key (map_to_list m).*2).
Proof.
  intros Hk.
  assert (map key (map_to_list m).*2 = (map_to_list m).*1) as ->.
  { assert (forall h x, (h, x) ∈ map_to_list m -> key x = h) as Hkey.
    { intros h x Hin. apply Hk. by apply elem_of_map_to_list. }
    induction (map_to_list m) as [|[h x] l IH]; [done|]. cbn. f_equal.
    - apply Hkey. by left.
    - apply IH. intros h' x' Hin. apply Hkey. by right. }
  apply NoDup_fst_map_to_list.
Qed.

Lemma NoDup_map_inj {A B} (f : A -> B) l x y :
  NoDup (map f l) -> x ∈ l -> y ∈ l -> f x = f y -> x = y.
Proof.
  induction l as [|z l IH]; cbn; [intros _ Hx; by apply elem_of_nil in Hx|].
  intros [Hz Hnd]%NoDup_cons Hx Hy Hf.
  assert (forall w, w ∈ l -> f w <> f z) as Hw.
  { intros w Hw E. apply Hz. rewrite <- E. by apply list_elem_of_fmap_2. }
  apply elem_of_cons in Hx as [->|Hx], Hy as [->|Hy]; [done| | |auto].
  - by destruct (Hw y Hy).
  - by destruct (Hw x Hx).
Qed.
