(* ===== verification/GoStrings.v ===== *)
(** * Go strings

    Byte strings and what the code uses of the packages [strings],
    [encoding/hex], [encoding/binary], [strconv]/[math/big] (decimal numerals) and [fmt]. Case
    folding outside ASCII needs the Unicode tables, which are a parameter
    [uni] of [ToLower]. *)

From S2P Require Import Prelude.

Definition str (s : string) : bytes :=
  map (fun a => Z.of_N (Ascii.N_of_ascii a)) (String.list_ascii_of_string s).

(** ** [strings.ToLower], [TrimPrefix], [TrimSpace], [Join] *)

Definition lowerByte (c : Z) : Z := if (65 <=? c) && (c <=? 90) then c + 32 else c.

Definition isASCII (s : bytes) : bool := forallb (fun c => c <? 128) s.

Definition ToLower (uni : bytes -> bytes) (s : bytes) : bytes :=
  if isASCII s then map lowerByte s else uni s.

(** The rest of [s] after [prefix], if [s] starts with it. *)
Fixpoint stripPrefix (prefix s : bytes) : option bytes :=
  match prefix, s with
  | [], _ => Some s
  | p :: prefix', c :: s' => if p =? c then stripPrefix prefix' s' else None
  | _ :: _, [] => None
  end.

Definition TrimPrefix (s prefix : bytes) : bytes := default s (stripPrefix prefix s).

(** The UTF-8 encodings of the characters [unicode.IsSpace] accepts. *)
Definition spaces : list bytes :=
  [[9]; [10]; [11]; [12]; [13]; [32]; [194; 133]; [194; 160]; [225; 154; 128];
   [226; 128; 168]; [226; 128; 169]; [226; 128; 175]; [226; 129; 159]; [227; 128; 128]]
  ++ map (fun i => [226; 128; 128 + Z.of_nat i]) (seq 0 11).

Fixpoint firstSome {A B : Type} (f : A -> option B) (l : list A) : option B :=
  match l with
  | [] => None
  | x :: l' =>
      match f x with
      | Some y => Some y
      | None => firstSome f l'
      end
  end.

Fixpoint trimLeft (seps : list bytes) (fuel : nat) (s : bytes) : bytes :=
  match fuel with
  | O => s
  | S fuel' =>
      match firstSome (fun sp => stripPrefix sp s) seps with
      | Some s' => trimLeft seps fuel' s'
      | None => s
      end
  end.

Definition TrimSpace (s : bytes) : bytes :=
  let s1 := trimLeft spaces (length s) s in
  reverse (trimLeft (map reverse spaces) (length s1) (reverse s1)).

(** [strings.TrimSpace(s) == ""] *)
Definition blank (s : bytes) : bool := bool_decide (TrimSpace s = []).

(** [strings.EqualFold] when one side is hexadecimal text, whose letters fold
  to ASCII letters only. *)
Definition EqualFoldHex (a b : bytes) : bool := bool_decide (map lowerByte a = map lowerByte b).

Fixpoint Join (parts : list bytes) (sep : bytes) : bytes :=
  match parts with
  | [] => []
  | [p] => p
  | p :: parts' => p ++ sep ++ Join parts' sep
  end.

(** ** [encoding/hex] *)

Definition hexDigit (d : Z) : Z := if d <? 10 then 48 + d else 87 + d.

Definition hexEncode (data : bytes) : bytes :=
  concat (map (fun b => [hexDigit (b / 16); hexDigit (b mod 16)]) data).

Definition fromHexChar (c : Z) : option Z :=
  if (48 <=? c) && (c <=? 57) then Some (c - 48)
  else if (97 <=? c) && (c <=? 102) then Some (c - 87)
  else if (65 <=? c) && (c <=? 70) then Some (c - 55)
  else None.

(** [hex.DecodeString]: [None] on an odd length or a byte that is no digit. *)
Fixpoint hexDecode (s : bytes) : option bytes :=
  match s with
  | [] => Some []
  | [_] => None
  | a :: b :: s' =>
      match fromHexChar a, fromHexChar b, hexDecode s' with
      | Some x, Some y, Some rest => Some (16 * x + y :: rest)
      | _, _, _ => None
      end
  end.

(** ** Decimal numerals *)

Definition isDigit (c : Z) : bool := (48 <=? c) && (c <=? 57).

Definition digitsValue (s : bytes) : Z := fold_left (fun acc c => 10 * acc + (c - 48)) s 0.

(** [new(big.Int).SetString(raw, 10)]: an optional sign and at least one
    digit, nothing else. *)
Definition SetString (raw : bytes) : option Z :=
  let '(neg, ds) :=
    match raw with
    | c :: rest => if c =? 45 then (true, rest) else if c =? 43 then (false, rest) else (false, raw)
    | [] => (false, [])
    end in
  if bool_decide (ds = []) then None
  else if forallb isDigit ds then Some (if neg then - digitsValue ds else digitsValue ds)
  else None.

(** Decimal digits of [n], least significant first; [fuel] bounds their
    number. *)
Fixpoint digitsRev (fuel : nat) (n : Z) : bytes :=
  match fuel with
  | O => []
  | S fuel' => if n <? 10 then [48 + n] else (48 + n mod 10) :: digitsRev fuel' (n / 10)
  end.

(** [%d] and [big.Int.String]. A number has at most as many decimal digits
    as binary ones. *)
Definition decimal (n : Z) : bytes :=
  if n <? 0 then 45 :: reverse (digitsRev (S (Z.to_nat (Z.log2 (- n)))) (- n))
  else reverse (digitsRev (S (Z.to_nat (Z.log2 n))) n).

(** [%t] *)
Definition boolText (b : bool) : bytes := if b then str "true" else str "false".

Arguments ToLower : simpl never.
Arguments TrimSpace : simpl never.
Arguments decimal : simpl never.

(** ** [encoding/binary] *)

(** Big-endian bytes of a word of [n] bytes, and back. *)
Fixpoint bigEndian (n : nat) (x : Z) : bytes :=
  match n with
  | O => []
  | S n' => bigEndian n' (Z.shiftr x 8) ++ [Z.land x 255]
  end.

Definition fromBigEndian (bs : bytes) : Z := fold_left (fun acc b => 256 * acc + b) bs 0.

(** A [bytes.Reader] is what is left to read. [io.ReadFull] of [n] bytes: what was read and what is left. *)
Definition readFull (n : nat) (reader : bytes) : out (bytes * bytes) :=
  if (length reader <? n)%nat then Err "unexpected EOF"
  else Ok (take n reader, drop n reader).

Definition readUint (n : nat) (reader : bytes) : out (Z * bytes) :=
  let? (data, rest) := readFull n reader in Ok (fromBigEndian data, rest).

(** ** Lemmas *)

Definition isByte (b : Z) : Prop := 0 <= b < 256.

Lemma hexDigit_back d : 0 <= d < 16 -> fromHexChar (hexDigit d) = Some d.
Proof.
  intros H. unfold hexDigit, fromHexChar.
  destruct (Z.ltb_spec d 10).
  - replace ((48 <=? 48 + d) && (48 + d <=? 57)) with true by lia. f_equal. lia.
  - replace ((48 <=? 87 + d) && (87 + d <=? 57)) with false by lia.
    replace ((97 <=? 87 + d) && (87 + d <=? 102)) with true by lia. f_equal. lia.
Qed.

Lemma hexDigit_lower d : 0 <= d < 16 -> 48 <= hexDigit d <= 57 \/ 97 <= hexDigit d <= 102.
Proof. intros H. unfold hexDigit. destruct (Z.ltb_spec d 10); lia. Qed.

Lemma byte_nibbles b : isByte b -> 0 <= b / 16 < 16 /\ 0 <= b mod 16 < 16.
Proof.
  intros [H1 H2]. split; [|by apply Z.mod_pos_bound].
  split; [by apply Z.div_pos | by apply Z.div_lt_upper_bound].
Qed.

Lemma hexDecode_encode data : Forall isByte data -> hexDecode (hexEncode data) = Some data.
Proof.
  induction 1 as [|b data Hb _ IH]; [done|].
  destruct (byte_nibbles b Hb) as [H1 H2].
  change (hexEncode (b :: data)) with (hexDigit (b / 16) :: hexDigit (b mod 16) :: hexEncode data).
  simpl. rewrite (hexDigit_back _ H1), (hexDigit_back _ H2), IH.
  f_equal. f_equal. rewrite (Z.div_mod b 16) at 3 by done. done.
Qed.

Lemma hexEncode_lower data : Forall isByte data -> map lowerByte (hexEncode data) = hexEncode data.
Proof.
  induction 1 as [|b data Hb _ IH]; [done|].
  destruct (byte_nibbles b Hb) as [H1%hexDigit_lower H2%hexDigit_lower].
  change (hexEncode (b :: data)) with (hexDigit (b / 16) :: hexDigit (b mod 16) :: hexEncode data).
  simpl. rewrite IH. unfold lowerByte.
  replace ((65 <=? hexDigit (b / 16)) && (hexDigit (b / 16) <=? 90)) with false by lia.
  replace ((65 <=? hexDigit (b mod 16)) && (hexDigit (b mod 16) <=? 90)) with false by lia.
  done.
Qed.

Lemma hexEncode_ascii data : Forall isByte data -> isASCII (hexEncode data) = true.
Proof.
  induction 1 as [|b data Hb _ IH]; [done|].
  destruct (byte_nibbles b Hb) as [H1%hexDigit_lower H2%hexDigit_lower].
  change (hexEncode (b :: data)) with (hexDigit (b / 16) :: hexDigit (b mod 16) :: hexEncode data).
  unfold isASCII in *. simpl. rewrite IH.
  replace (hexDigit (b / 16) <? 128) with true by lia.
  by replace (hexDigit (b mod 16) <? 128) with true by lia.
Qed.

Lemma hexEncode_length data : length (hexEncode data) = (2 * length data)%nat.
Proof. unfold hexEncode. induction data as [|b data IH]; simpl; [done|]. rewrite IH. lia. Qed.

Lemma hexEncode_ToLower uni data :
  Forall isByte data -> ToLower uni (hexEncode data) = hexEncode data.
Proof. intros H. unfold ToLower. by rewrite hexEncode_ascii, hexEncode_lower. Qed.

(** A numeral with no "x" in it has no "0x" prefix to lose. *)
Lemma hexEncode_TrimPrefix data :
  Forall isByte data -> TrimPrefix (hexEncode data) (str "0x") = hexEncode data.
Proof.
  intros H. destruct H as [|b data Hb _]; [done|].
  destruct (byte_nibbles b Hb) as [_ H2%hexDigit_lower].
  change (hexEncode (b :: data)) with (hexDigit (b / 16) :: hexDigit (b mod 16) :: hexEncode data).
  unfold TrimPrefix. change (str "0x") with [48; 120]. cbn [stripPrefix].
  replace (120 =? hexDigit (b mod 16)) with false by lia.
  by destruct (48 =? hexDigit (b / 16)).
Qed.

Lemma bigEndian_byte n x : Forall isByte (bigEndian n x).
Proof.
  revert x. induction n as [|n IH]; intros x; simpl; [constructor|].
  apply Forall_app. split; [apply IH|]. constructor; [|constructor].
  unfold isByte. change 255 with (Z.ones 8). rewrite Z.land_ones by done. by apply Z.mod_pos_bound.
Qed.

Lemma bigEndian_length n x : length (bigEndian n x) = n.
Proof. revert x. induction n as [|n IH]; intros x; simpl; [done|]. rewrite length_app, IH. simpl. lia. Qed.

Lemma fromBigEndian_app a b :
  fromBigEndian (a ++ [b]) = 256 * fromBigEndian a + b.
Proof. unfold fromBigEndian. by rewrite fold_left_app. Qed.

Lemma fromBigEndian_bigEndian n x :
  0 <= x < 2 ^ (8 * Z.of_nat n) -> fromBigEndian (bigEndian n x) = x.
Proof.
  revert x. induction n as [|n IH]; intros x Hx; [change (8 * Z.of_nat 0) with 0 in Hx; cbn; lia|].
  change (bigEndian (S n) x) with (bigEndian n (Z.shiftr x 8) ++ [Z.land x 255]).
  rewrite fromBigEndian_app, IH.
  - change 255 with (Z.ones 8). rewrite Z.land_ones, Z.shiftr_div_pow2 by lia.
    change (2 ^ 8) with 256. pose proof (Z.div_mod x 256). lia.
  - rewrite Z.shiftr_div_pow2 by lia. split; [apply Z.div_pos; lia|].
    apply Z.div_lt_upper_bound; [lia|]. rewrite <- Z.pow_add_r by lia.
    replace (8 + 8 * Z.of_nat n) with (8 * Z.of_nat (S n)) by lia. lia.
Qed.

Lemma readFull_app data rest : readFull (length data) (data ++ rest) = Ok (data, rest).
Proof.
  unfold readFull. rewrite length_app.
  replace (length data + length rest <? length data)%nat with false by (symmetry; apply Nat.ltb_ge; lia).
  by rewrite take_app_length, drop_app_length.
Qed.

Lemma readUint_app n x rest :
  0 <= x < 2 ^ (8 * Z.of_nat n) -> readUint n (bigEndian n x ++ rest) = Ok (x, rest).
Proof.
  intros Hx. unfold readUint.
  pose proof (readFull_app (bigEndian n x) rest) as Hr. rewrite bigEndian_length in Hr.
  rewrite Hr. cbn. by rewrite fromBigEndian_bigEndian.
Qed.

Lemma readUint4_app x rest : 0 <= x < 2 ^ 32 -> readUint 4 (bigEndian 4 x ++ rest) = Ok (x, rest).
Proof. exact (readUint_app 4 x rest). Qed.

Lemma readUint8_app x rest : 0 <= x < 2 ^ 64 -> readUint 8 (bigEndian 8 x ++ rest) = Ok (x, rest).
Proof. exact (readUint_app 8 x rest). Qed.

Example trim1 : TrimSpace (str "  12 3	 ") = str "12 3". Proof. reflexivity. Qed.
Example set1 : SetString (str "-0012") = Some (-12). Proof. reflexivity. Qed.
Example set2 : SetString (str "1_2") = None. Proof. reflexivity. Qed.
Example dec1 : decimal 1203450 = str "1203450". Proof. reflexivity. Qed.

(** ** Printing numbers *)

Lemma digitsRev_spec fuel n :
  0 <= n < 2 ^ Z.of_nat fuel ->
  Forall (fun c => isDigit c = true) (digitsRev fuel n) /\ digitsValue (reverse (digitsRev fuel n)) = n.
Proof.
  revert n. induction fuel as [|fuel IH]; intros n Hn.
  - cbn in Hn. cbn. split; [constructor|lia].
  - cbn [digitsRev]. rewrite Nat2Z.inj_succ, Z.pow_succ_r in Hn by lia.
    destruct (Z.ltb_spec n 10) as [Hlt|Hge].
    + split; [|cbn; lia]. repeat constructor. unfold isDigit. lia.
    + pose proof (Z.mod_pos_bound n 10 ltac:(lia)). pose proof (Z.div_mod n 10 ltac:(lia)) as Hdm.
      assert (0 <= n / 10 < 2 ^ Z.of_nat fuel) as Hq.
      { split; [apply Z.div_pos; lia|]. apply Z.div_lt_upper_bound; lia. }
      destruct (IH _ Hq) as [Hd Hv]. split.
      * constructor; [|done]. unfold isDigit. lia.
      * rewrite reverse_cons. unfold digitsValue in *. rewrite fold_left_app, Hv. cbn. lia.
Qed.

Lemma decimal_nonneg n :
  0 <= n -> Forall (fun c => isDigit c = true) (decimal n) /\ digitsValue (decimal n) = n.
Proof.
  intros Hn. unfold decimal. replace (n <? 0) with false by lia.
  destruct (digitsRev_spec (S (Z.to_nat (Z.log2 n))) n) as [Hd Hv].
  { split; [done|]. rewrite Nat2Z.inj_succ, Z2Nat.id by apply Z.log2_nonneg.
    destruct (Z.eq_dec n 0) as [->|]; [done|]. apply Z.log2_spec. lia. }
  split; [|done]. apply Forall_reverse. exact Hd.
Qed.

Lemma decimal_inj m n : 0 <= m -> 0 <= n -> decimal m = decimal n -> m = n.
Proof.
  intros Hm Hn E. rewrite <- (proj2 (decimal_nonneg m Hm)), <- (proj2 (decimal_nonneg n Hn)). by rewrite E.
Qed.

(** A separator that no digit is splits off the number. *)
Lemma decimal_split a b sep m n :
  0 <= m -> 0 <= n -> isDigit sep = false ->
  a ++ sep :: decimal m = b ++ sep :: decimal n -> a = b /\ m = n.
Proof.
  intros Hm Hn Hs E.
  assert (forall n, 0 <= n -> sep ∉ decimal n) as Hno.
  { intros k Hk Hin. destruct (decimal_nonneg k Hk) as [Hd _]. rewrite Forall_forall in Hd.
    rewrite (Hd _ Hin) in Hs. done. }
  apply (f_equal reverse) in E. rewrite !reverse_app, !reverse_cons in E.
  rewrite <- !app_assoc in E. cbn in E.
  assert (forall (x y p q : bytes), sep ∉ x -> sep ∉ y -> x ++ sep :: p = y ++ sep :: q -> x = y /\ p = q) as Hsplit.
  { induction x as [|c x IH]; intros [|d y] p q Hx Hy [= H]; subst; cbn.
    - done.
    - destruct Hy. by left.
    - destruct Hx. by left.
    - destruct (IH y p q) as [-> ->]; [set_solver..|done]. }
  apply Hsplit in E as [E1 E2].
  - split; [by apply (inj reverse)|]. apply decimal_inj; [done..|]. by apply (inj reverse).
  - rewrite elem_of_reverse. by apply Hno.
  - rewrite elem_of_reverse. by apply Hno.
Qed.

(** ** Text without spaces *)

(** Visible ASCII characters: nothing is trimmed next to one. *)
Definition isVisible (c : Z) : Prop := 33 <= c < 127.

Lemma trimLeft_visible (seps : list bytes) fuel s :
  forallb (fun sp => match sp with c :: _ => negb ((33 <=? c) && (c <? 127)) | [] => false end) seps = true ->
  Forall isVisible s -> trimLeft seps fuel s = s.
Proof.
  intros Hseps Hs. destruct fuel as [|fuel]; [done|]. cbn [trimLeft].
  assert (firstSome (fun sp => stripPrefix sp s) seps = None) as ->; [|done].
  induction seps as [|sp seps IH]; [done|]. cbn [forallb firstSome] in *. apply andb_true_iff in Hseps as [Hsp Hseps].
  assert (stripPrefix sp s = None) as ->; [|by apply IH].
  destruct sp as [|c sp]; [done|]. destruct Hs as [|d s Hd _]; [done|]. cbn [stripPrefix]. unfold isVisible in Hd.
  destruct (Z.eqb_spec c d) as [->|]; [|done]. exfalso. revert Hsp. rewrite negb_true_iff. lia.
Qed.

Lemma TrimSpace_visible s : Forall isVisible s -> TrimSpace s = s.
Proof.
  intros Hs. unfold TrimSpace. rewrite (trimLeft_visible spaces) by done.
  rewrite trimLeft_visible; [apply reverse_involutive|done|by apply Forall_reverse].
Qed.

Lemma stripPrefix_app p s : stripPrefix p (p ++ s) = Some s.
Proof. induction p as [|c p IH]; [done|]. cbn [app stripPrefix]. by rewrite Z.eqb_refl. Qed.

Lemma TrimPrefix_app p s : TrimPrefix (p ++ s) p = s.
Proof. unfold TrimPrefix. by rewrite stripPrefix_app. Qed.

Lemma hexEncode_visible data : Forall isByte data -> Forall isVisible (hexEncode data).
Proof.
  induction 1 as [|b data Hb _ IH]; [constructor|].
  change (hexEncode (b :: data)) with (hexDigit (b / 16) :: hexDigit (b mod 16) :: hexEncode data).
  destruct (byte_nibbles b Hb) as [H1%hexDigit_lower H2%hexDigit_lower].
  repeat constructor; unfold isVisible; [lia..|done].
Qed.

Lemma hexEncode_nil data : hexEncode data = [] -> data = [].
Proof. by destruct data. Qed.

Lemma decimal_visible n : 0 <= n -> Forall isVisible (decimal n).
Proof.
  intros [Hd _]%decimal_nonneg. eapply Forall_impl; [exact Hd|]. intros c. unfold isDigit, isVisible. lia.
Qed.

Lemma decimal_nonempty n : decimal n <> [].
Proof.
  assert (forall k, reverse (digitsRev (S k) n) <> []) as H.
  { intros k E%(f_equal length). rewrite length_reverse in E. cbn [digitsRev] in E. by destruct (n <? 10). }
  unfold decimal. destruct (n <? 0); [done|apply H].
Qed.

Lemma SetString_decimal n : 0 <= n -> SetString (decimal n) = Some n.
Proof.
  intros Hn. destruct (decimal_nonneg n Hn) as [Hd Hv]. pose proof (decimal_nonempty n) as Hne.
  unfold SetString. destruct (decimal n) as [|c s]; [done|].
  apply Forall_cons in Hd as Hd'. destruct Hd' as [Hc _]. unfold isDigit in Hc.
  replace (c =? 45) with false by lia. replace (c =? 43) with false by lia.
  rewrite bool_decide_false by done.
  assert (forallb isDigit (c :: s) = true) as ->; [|by rewrite Hv].
  apply forallb_forall. rewrite Forall_forall in Hd. intros x Hx. apply Hd. by apply list_elem_of_In.
Qed.

Lemma ToLower_ascii_lower uni s :
  isASCII s = true -> map lowerByte s = s -> ToLower uni s = s.
Proof. intros H1 H2. unfold ToLower. by rewrite H1, H2. Qed.

(** "0x" and lower-case digits. *)
Lemma hexText_lower uni data :
  Forall isByte data -> ToLower uni (str "0x" ++ hexEncode data) = str "0x" ++ hexEncode data.
Proof.
  intros H. apply ToLower_ascii_lower.
  - cbn. by apply hexEncode_ascii.
  - rewrite map_app, hexEncode_lower by done. done.
Qed.

Lemma hexText_visible data : Forall isByte data -> Forall isVisible (str "0x" ++ hexEncode data).
Proof.
  intros H. apply Forall_app. split; [|by apply hexEncode_visible].
  change (str "0x") with [48; 120]. apply Forall_cons. split; [unfold isVisible; lia|].
  apply Forall_cons. split; [unfold isVisible; lia|constructor].
Qed.
