(* ===== verification/Sha256.v ===== *)
(** * SHA-256

    The digest of the Go package [crypto/sha256] (FIPS 180-4), executable, so
    that content hashes of the code are values of the model and not a
    parameter. *)

From S2P Require Import Prelude GoStrings.

(** The constants of the standard are the first 32 fractional bits of the cube
    roots of the first 64 primes and of the square roots of the first 8. *)
Definition isPrime (n : nat) : bool :=
  forallb (fun d => negb (Nat.eqb (n mod d) 0)) (seq 2 (n - 2)).

Definition primes : list Z := map Z.of_nat (List.filter isPrime (seq 2 310)).

(** Integer cube root below [2^n], bit by bit. *)
Fixpoint cubeRoot (n : nat) (r x : Z) : Z :=
  match n with
  | O => r
  | S n' =>
      let r' := r + 2 ^ Z.of_nat n' in
      cubeRoot n' (if r' * r' * r' <=? x then r' else r) x
  end.

Definition roundConstants : list Z :=
  Eval vm_compute in map (fun p => u32 (cubeRoot 36 0 (p * 2 ^ 96))) primes.

Definition initialState : list Z :=
  Eval vm_compute in map (fun p => u32 (Z.sqrt (p * 2 ^ 64))) (take 8 primes).

Example constants_count : length roundConstants = 64%nat /\ length initialState = 8%nat.
Proof. done. Qed.

Definition rotr (n x : Z) : Z := Z.lor (Z.shiftr x n) (u32 (Z.shiftl x (32 - n))).

Definition smallSigma0 (x : Z) : Z := Z.lxor (Z.lxor (rotr 7 x) (rotr 18 x)) (Z.shiftr x 3).
Definition smallSigma1 (x : Z) : Z := Z.lxor (Z.lxor (rotr 17 x) (rotr 19 x)) (Z.shiftr x 10).
Definition bigSigma0 (x : Z) : Z := Z.lxor (Z.lxor (rotr 2 x) (rotr 13 x)) (rotr 22 x).
Definition bigSigma1 (x : Z) : Z := Z.lxor (Z.lxor (rotr 6 x) (rotr 11 x)) (rotr 25 x).
Definition choose (x y z : Z) : Z := Z.lxor (Z.land x y) (Z.land (Z.lxor x 0xffffffff) z).
Definition majority (x y z : Z) : Z := Z.lxor (Z.lxor (Z.land x y) (Z.land x z)) (Z.land y z).

(** [n] more words of the message schedule; the words so far are in reverse
    order. *)
Fixpoint schedule (n : nat) (ws : list Z) : list Z :=
  match n with
  | O => reverse ws
  | S n' =>
      let w i := nth i ws 0 in
      schedule n' (u32 (smallSigma1 (w 1%nat) + w 6%nat + smallSigma0 (w 14%nat) + w 15%nat) :: ws)
  end.

Definition round (st : list Z) (kw : Z * Z) : list Z :=
  match st with
  | [a; b; c; d; e; f; g; h] =>
      let t1 := u32 (h + bigSigma1 e + choose e f g + fst kw + snd kw) in
      let t2 := u32 (bigSigma0 a + majority a b c) in
      [u32 (t1 + t2); a; b; c; u32 (d + t1); e; f; g]
  | _ => st
  end.

Definition compress (st block : list Z) : list Z :=
  zip_with (fun x y => u32 (x + y)) st
    (fold_left round (zip roundConstants (schedule 48 (reverse block))) st).

Definition padding (len : nat) : bytes :=
  128 :: repeat 0 (Z.to_nat ((55 - Z.of_nat len) mod 64)) ++ bigEndian 8 (u64 (8 * Z.of_nat len)).

Fixpoint words (n : nat) (bs : bytes) : list Z :=
  match n with
  | O => []
  | S n' => fromBigEndian (take 4 bs) :: words n' (drop 4 bs)
  end.

Fixpoint blocks (n : nat) (bs : bytes) (st : list Z) : list Z :=
  match n with
  | O => st
  | S n' => blocks n' (drop 64 bs) (compress st (words 16 (take 64 bs)))
  end.

Definition Sum256 (data : bytes) : bytes :=
  let padded := data ++ padding (length data) in
  concat (map (bigEndian 4) (blocks (length padded / 64) padded initialState)).

(** [hex.EncodeToString(sha256.Sum256(data))] *)
Definition hashHex (data : bytes) : bytes := hexEncode (Sum256 data).

Arguments Sum256 : simpl never.
Arguments hashHex : simpl never.

Example sha_empty :
  hashHex [] = str "e3b0c44298fc1c149afbf4c8996fb92427ae41e4649b934ca495991b7852b855".
Proof. vm_compute. reflexivity. Qed.
Example sha_abc :
  hashHex (str "abc") = str "ba7816bf8f01cfea414140de5dae2223b00361a396177a9cb410ff61f20015ad".
Proof. vm_compute. reflexivity. Qed.
Example sha_two_blocks :
  hashHex (str "abcdbcdecdefdefgefghfghighijhijkijkljklmklmnlmnomnopnopq") =
  str "248d6a61d20638b8e5c026930c3e6039a33ce45964ff2167f6ecedd419db06c1".
Proof. vm_compute. reflexivity. Qed.

Lemma Sum256_byte data : Forall isByte (Sum256 data).
Proof.
  unfold Sum256. apply Forall_concat, Forall_map, Forall_forall. intros x _. apply bigEndian_byte.
Qed.

Lemma fold_round_length kws st : length (fold_left round kws st) = length st.
Proof.
  revert st. induction kws as [|kw kws IH]; intros st; simpl; [done|].
  rewrite IH. by do 9 (destruct st as [|? st]; [done|]).
Qed.

Lemma blocks_length n bs st : length (blocks n bs st) = length st.
Proof.
  revert bs st. induction n as [|n IH]; intros bs st; simpl; [done|].
  rewrite IH. unfold compress. rewrite length_zip_with, fold_round_length. lia.
Qed.

Lemma Sum256_length data : length (Sum256 data) = 32%nat.
Proof.
  unfold Sum256.
  pose proof (blocks_length (length (data ++ padding (length data)) / 64)
    (data ++ padding (length data)) initialState) as H.
  set (st := blocks _ _ _) in *. clearbody st. change (length initialState) with 8%nat in H.
  do 9 (destruct st as [|? st]; [done || (simpl; rewrite !length_app, !bigEndian_length; done)|]).
  done.
Qed.

Lemma hashHex_canonical uni data : TrimPrefix (ToLower uni (hashHex data)) (str "0x") = hashHex data.
Proof.
  unfold hashHex. rewrite hexEncode_ToLower by apply Sum256_byte.
  apply hexEncode_TrimPrefix, Sum256_byte.
Qed.

Lemma hashHex_nonempty data : hashHex data <> [].
Proof.
  intros H. apply (f_equal length) in H. unfold hashHex in H.
  rewrite hexEncode_length, Sum256_length in H. done.
Qed.
