(* ===== verification/Trace.v ===== *)
(** * Trace: the process-local ACS diagnostic recorder

    Models [sbc/hbbft/trace.go] and [sbc/hbbft/trace_outbound.go].  The
    recorder is one mutable object shared by the ACS, its RBC and its BBA
    instances; here it is the record [traceRecorder] and each method is a
    function from the old to the new recorder.  [time.Time] values are
    nanosecond readings; a method that calls [r.now()] takes that one reading
    as an argument.  The protocol models log the calls they make on the
    recorder, in program order, as [trace_call] values; [replay] applies such
    a log. *)

From S2P Require Import Prelude.

(** ** Data *)

Record TracePoint := mkPoint { Recorded : bool; OffsetUS : Z }.

Definition noPoint : TracePoint := mkPoint false 0.

Definition ACSMessageSubtype := string.
Definition ACSMessageProof : ACSMessageSubtype := "proof".
Definition ACSMessageEcho : ACSMessageSubtype := "echo".
Definition ACSMessageReady : ACSMessageSubtype := "ready".
Definition ACSMessageBVAL : ACSMessageSubtype := "bval".
Definition ACSMessageAUX : ACSMessageSubtype := "aux".

Definition acsMessageSubtypes : list string :=
  [ACSMessageProof; ACSMessageEcho; ACSMessageReady; ACSMessageBVAL; ACSMessageAUX].

Definition RBCReadyTriggerEchoQuorum : string := "echo_quorum".
Definition RBCReadyTriggerRelay : string := "ready_relay".

Definition waitForTrueBBAResults : string := "waiting_for_n_minus_f_true_bba_results".
Definition waitForAllBBAResults : string := "waiting_for_all_bba_results".
Definition waitForTruthyRBCOutputs : string := "waiting_for_truthy_rbc_outputs".

Record ACSTransportTrace := mkTransport { Sealed : bool; Finalized : bool }.

Record ACSAggregateTrace := mkAggregate {
  InputStarted : TracePoint; FirstRBCOutput : TracePoint; RBCOutputQuorum : TracePoint;
  FirstTrueBBA : TracePoint; TrueBBAQuorum : TracePoint; FalseInputInjected : TracePoint;
  AllBBADecided : TracePoint; TruthyRBCReady : TracePoint; CoreDecision : TracePoint }.

Record RBCTrace := mkRBCTrace {
  ProofAccepted : TracePoint; EchoSentAt : TracePoint; ReadySentAt : TracePoint;
  ReadyTrigger : string; ReadyTriggerEchoCount : Z; ReadyTriggerReadyCount : Z;
  DecodeEligible : TracePoint; ReconstructionStarted : TracePoint;
  ReconstructionFinished : TracePoint; OutputStoredAt : TracePoint }.

Record BBATrace := mkBBATrace {
  InputAt : TracePoint; InputVal : bool;
  FirstBinValue : TracePoint; FirstBin : bool;
  FirstAux : TracePoint; FirstAuxValue : bool;
  ValidAuxQuorum : TracePoint;
  DecisionAt : TracePoint; DecisionValue : bool;
  DoneAt : TracePoint; MaxEpoch : Z }.

Record ACSWaitTrace := mkWait { TrueBBAQuorumUS : Z; AllBBAUS : Z; TruthyRBCUS : Z }.

Record ACSAdapterTrace := mkAdapter {
  CommonSubsetDecoded : TracePoint; BlockBodyBuilt : TracePoint; NodeOutputReceived : TracePoint }.

Record ACSSendPhaseTrace := mkPhase { PhaseCount : Z; TotalUS : Z; MaxUS : Z }.

(** Durations are nanoseconds; [ObsErr] is whether [Err] is non-nil. *)
Record ACSSendObservation := mkObservation {
  ObsSize : Z; ObsTotal : Z; ObsEncode : Z; ObsQueueWait : Z; ObsStreamOpen : Z;
  ObsWrite : Z; ObsFinalize : Z; ObsReused : bool; ObsErr : bool }.

Record ACSMessageTrace := mkMessageTrace {
  ScheduledCount : Z; TerminalCount : Z; PendingAtDecision : Z;
  InboundCount : Z; InboundBytes : Z; OutboundCount : Z; OutboundBytes : Z;
  SendCount : Z; SendTotalUS : Z; SendMaxUS : Z; SendFailureCount : Z;
  Encode : ACSSendPhaseTrace; QueueWait : ACSSendPhaseTrace; StreamOpen : ACSSendPhaseTrace;
  Write_ : ACSSendPhaseTrace; Finalize : ACSSendPhaseTrace;
  StreamOpenCount : Z; StreamReuseCount : Z }.

Definition noPhase : ACSSendPhaseTrace := mkPhase 0 0 0.
Definition noMessageTrace : ACSMessageTrace :=
  mkMessageTrace 0 0 0 0 0 0 0 0 0 0 0 noPhase noPhase noPhase noPhase noPhase 0 0.
Definition noRBCTrace : RBCTrace :=
  mkRBCTrace noPoint noPoint noPoint "" 0 0 noPoint noPoint noPoint noPoint.
Definition noBBATrace : BBATrace :=
  mkBBATrace noPoint false noPoint false noPoint false noPoint noPoint false noPoint 0.
Definition noAggregate : ACSAggregateTrace :=
  mkAggregate noPoint noPoint noPoint noPoint noPoint noPoint noPoint noPoint noPoint.

Record ACSTrace := mkTrace {
  SchemaVersion : string; Enabled : bool; Transport : ACSTransportTrace;
  Aggregate : ACSAggregateTrace; Wait : ACSWaitTrace; Adapter : ACSAdapterTrace;
  TraceRBC : gmap Z RBCTrace; TraceBBA : gmap Z BBATrace;
  Messages_ : gmap string ACSMessageTrace }.

Definition noTrace : ACSTrace :=
  mkTrace "" false (mkTransport false false) noAggregate (mkWait 0 0 0)
    (mkAdapter noPoint noPoint noPoint) ∅ ∅ ∅.

Inductive aggregateTraceEvent :=
  | traceACSInputStarted | traceACSFirstRBCOutput | traceACSRBCOutputQuorum
  | traceACSFirstTrueBBA | traceACSTrueBBAQuorum | traceACSFalseInputInjected
  | traceACSAllBBADecided | traceACSTruthyRBCReady | traceACSCoreDecision.

Inductive rbcTraceEvent :=
  | traceRBCProofAccepted | traceRBCEchoSent | traceRBCReadySent | traceRBCDecodeEligible
  | traceRBCReconstructionStarted | traceRBCReconstructionFinished | traceRBCOutputStored.

Inductive bbaTraceEvent :=
  | traceBBAInput | traceBBAFirstBinValue | traceBBAFirstAux | traceBBAValidAuxQuorum
  | traceBBADecision | traceBBADone | traceBBAEpoch.

Inductive adapterTraceEvent :=
  | traceCommonSubsetDecoded | traceBlockBodyBuilt | traceNodeOutputReceived.

(** [waitStarted] is [None] when the Go value [IsZero]. *)
Record traceRecorder := mkRecorder {
  enabled : bool; base : Z; started : bool; waitReason : string;
  waitStarted : option Z; trace : ACSTrace }.

Definition newTraceRecorder (nodes : list Z) (enabled_ : bool) : traceRecorder :=
  if negb enabled_ then mkRecorder false 0 false "" None noTrace
  else mkRecorder true 0 false "" None
    (mkTrace "bloc-acs-trace/v3" true (mkTransport false false) noAggregate (mkWait 0 0 0)
       (mkAdapter noPoint noPoint noPoint)
       (list_to_map ((fun id => (id, noRBCTrace)) <$> nodes))
       (list_to_map ((fun id => (id, noBBATrace)) <$> nodes))
       (list_to_map ((fun s => (s, noMessageTrace)) <$> acsMessageSubtypes))).

Definition setTrace (r : traceRecorder) (t : ACSTrace) : traceRecorder :=
  mkRecorder (enabled r) (base r) (started r) (waitReason r) (waitStarted r) t.

Definition setAggregate (r : traceRecorder) (a : ACSAggregateTrace) : traceRecorder :=
  let t := trace r in
  setTrace r (mkTrace (SchemaVersion t) (Enabled t) (Transport t) a (Wait t) (Adapter t)
                      (TraceRBC t) (TraceBBA t) (Messages_ t)).
Definition setAdapter (r : traceRecorder) (a : ACSAdapterTrace) : traceRecorder :=
  let t := trace r in
  setTrace r (mkTrace (SchemaVersion t) (Enabled t) (Transport t) (Aggregate t) (Wait t) a
                      (TraceRBC t) (TraceBBA t) (Messages_ t)).
Definition setRBC (r : traceRecorder) (m : gmap Z RBCTrace) : traceRecorder :=
  let t := trace r in
  setTrace r (mkTrace (SchemaVersion t) (Enabled t) (Transport t) (Aggregate t) (Wait t)
                      (Adapter t) m (TraceBBA t) (Messages_ t)).
Definition setBBA (r : traceRecorder) (m : gmap Z BBATrace) : traceRecorder :=
  let t := trace r in
  setTrace r (mkTrace (SchemaVersion t) (Enabled t) (Transport t) (Aggregate t) (Wait t)
                      (Adapter t) (TraceRBC t) m (Messages_ t)).
Definition setMessages (r : traceRecorder) (m : gmap string ACSMessageTrace) : traceRecorder :=
  let t := trace r in
  setTrace r (mkTrace (SchemaVersion t) (Enabled t) (Transport t) (Aggregate t) (Wait t)
                      (Adapter t) (TraceRBC t) (TraceBBA t) m).
Definition setTransport (r : traceRecorder) (p : ACSTransportTrace) : traceRecorder :=
  let t := trace r in
  setTrace r (mkTrace (SchemaVersion t) (Enabled t) p (Aggregate t) (Wait t)
                      (Adapter t) (TraceRBC t) (TraceBBA t) (Messages_ t)).
Definition setWait (r : traceRecorder) (w : ACSWaitTrace) : traceRecorder :=
  let t := trace r in
  setTrace r (mkTrace (SchemaVersion t) (Enabled t) (Transport t) (Aggregate t) w
                      (Adapter t) (TraceRBC t) (TraceBBA t) (Messages_ t)).

(** ** Time *)

(** [time.Time.Sub] saturates at the [time.Duration] range. *)
Definition timeSub (a b : Z) : Z := Z.max (- 2 ^ 63) (Z.min (2 ^ 63 - 1) (a - b)).
(** [time.Duration.Microseconds] truncates towards zero. *)
Definition microseconds (d : Z) : Z := Z.quot d 1000.

Definition begin (r : traceRecorder) (base_ : Z) : traceRecorder :=
  if negb (enabled r) then r
  else if started r then r
  else mkRecorder (enabled r) base_ true (waitReason r) (waitStarted r) (trace r).

(** Go returns whether it recorded; here [None] is the [false] result. *)
Definition pointLocked (r : traceRecorder) (now : Z) (point : TracePoint) : option TracePoint :=
  if Recorded point || negb (started r) then None
  else let offset := microseconds (timeSub now (base r)) in
       if offset <? 0 then None else Some (mkPoint true offset).

Definition recordPoint (r : traceRecorder) (now : Z) (point : TracePoint) : TracePoint :=
  default point (pointLocked r now point).

(** ** Milestones *)

Definition recordAggregate (r : traceRecorder) (now : Z) (event : aggregateTraceEvent)
  : traceRecorder :=
  if negb (enabled r) then r else
  let a := Aggregate (trace r) in
  let pt := recordPoint r now in
  let '(mkAggregate p1 p2 p3 p4 p5 p6 p7 p8 p9) := a in
  setAggregate r
    match event with
    | traceACSInputStarted => mkAggregate (pt p1) p2 p3 p4 p5 p6 p7 p8 p9
    | traceACSFirstRBCOutput => mkAggregate p1 (pt p2) p3 p4 p5 p6 p7 p8 p9
    | traceACSRBCOutputQuorum => mkAggregate p1 p2 (pt p3) p4 p5 p6 p7 p8 p9
    | traceACSFirstTrueBBA => mkAggregate p1 p2 p3 (pt p4) p5 p6 p7 p8 p9
    | traceACSTrueBBAQuorum => mkAggregate p1 p2 p3 p4 (pt p5) p6 p7 p8 p9
    | traceACSFalseInputInjected => mkAggregate p1 p2 p3 p4 p5 (pt p6) p7 p8 p9
    | traceACSAllBBADecided => mkAggregate p1 p2 p3 p4 p5 p6 (pt p7) p8 p9
    | traceACSTruthyRBCReady => mkAggregate p1 p2 p3 p4 p5 p6 p7 (pt p8) p9
    | traceACSCoreDecision => mkAggregate p1 p2 p3 p4 p5 p6 p7 p8 (pt p9)
    end.

Definition recordRBC (r : traceRecorder) (now : Z) (proposerID : Z) (event : rbcTraceEvent)
  : traceRecorder :=
  if negb (enabled r) then r else
  match TraceRBC (trace r) !! proposerID with
  | None => r
  | Some (mkRBCTrace p1 p2 p3 tr ec rc p4 p5 p6 p7) =>
    let pt := recordPoint r now in
    setRBC r (<[proposerID :=
      match event with
      | traceRBCProofAccepted => mkRBCTrace (pt p1) p2 p3 tr ec rc p4 p5 p6 p7
      | traceRBCEchoSent => mkRBCTrace p1 (pt p2) p3 tr ec rc p4 p5 p6 p7
      | traceRBCReadySent => mkRBCTrace p1 p2 (pt p3) tr ec rc p4 p5 p6 p7
      | traceRBCDecodeEligible => mkRBCTrace p1 p2 p3 tr ec rc (pt p4) p5 p6 p7
      | traceRBCReconstructionStarted => mkRBCTrace p1 p2 p3 tr ec rc p4 (pt p5) p6 p7
      | traceRBCReconstructionFinished => mkRBCTrace p1 p2 p3 tr ec rc p4 p5 (pt p6) p7
      | traceRBCOutputStored => mkRBCTrace p1 p2 p3 tr ec rc p4 p5 p6 (pt p7)
      end]> (TraceRBC (trace r)))
  end.

Definition recordRBCReady (r : traceRecorder) (now : Z) (proposerID : Z) (trigger : string)
  (echoCount readyCount : Z) : traceRecorder :=
  if negb (enabled r) then r else
  match TraceRBC (trace r) !! proposerID with
  | None => r
  | Some (mkRBCTrace p1 p2 p3 tr ec rc p4 p5 p6 p7) =>
    if negb (String.eqb tr "") then r
    else setRBC r (<[proposerID :=
           mkRBCTrace p1 p2 (recordPoint r now p3) trigger echoCount readyCount p4 p5 p6 p7]>
           (TraceRBC (trace r)))
  end.

(** The value that goes with a point is stored only when the point is. *)
Definition recordValued (r : traceRecorder) (now : Z) (point : TracePoint) (old value : bool)
  : TracePoint * bool :=
  match pointLocked r now point with
  | Some p => (p, value)
  | None => (point, old)
  end.

Definition recordBBA (r : traceRecorder) (now : Z) (proposerID : Z) (event : bbaTraceEvent)
  (value : bool) (epoch : Z) : traceRecorder :=
  if negb (enabled r) then r else
  if negb (started r) then r else
  match TraceBBA (trace r) !! proposerID with
  | None => r
  | Some (mkBBATrace pi vi pb vb pa va pq pd vd pdone me0) =>
    let me := if me0 <? epoch then epoch else me0 in
    let pt := recordPoint r now in
    let ptv := recordValued r now in
    setBBA r (<[proposerID :=
      match event with
      | traceBBAInput => let '(p, v) := ptv pi vi value in
                         mkBBATrace p v pb vb pa va pq pd vd pdone me
      | traceBBAFirstBinValue => let '(p, v) := ptv pb vb value in
                                 mkBBATrace pi vi p v pa va pq pd vd pdone me
      | traceBBAFirstAux => let '(p, v) := ptv pa va value in
                            mkBBATrace pi vi pb vb p v pq pd vd pdone me
      | traceBBAValidAuxQuorum => mkBBATrace pi vi pb vb pa va (pt pq) pd vd pdone me
      | traceBBADecision => let '(p, v) := ptv pd vd value in
                            mkBBATrace pi vi pb vb pa va pq p v pdone me
      | traceBBADone => mkBBATrace pi vi pb vb pa va pq pd vd (pt pdone) me
      | traceBBAEpoch => mkBBATrace pi vi pb vb pa va pq pd vd pdone me
      end]> (TraceBBA (trace r)))
  end.

Definition recordAdapter (r : traceRecorder) (now : Z) (event : adapterTraceEvent)
  : traceRecorder :=
  if negb (enabled r) then r else
  let pt := recordPoint r now in
  let '(mkAdapter p1 p2 p3) := Adapter (trace r) in
  setAdapter r
    match event with
    | traceCommonSubsetDecoded => mkAdapter (pt p1) p2 p3
    | traceBlockBodyBuilt => mkAdapter p1 (pt p2) p3
    | traceNodeOutputReceived => mkAdapter p1 p2 (pt p3)
    end.

(** ** Message accounting *)

Definition recordMessageInbound (r : traceRecorder) (subtype : string) (size_ : Z)
  : traceRecorder :=
  if negb (enabled r) then r else
  if negb (started r) then r else
  match Messages_ (trace r) !! subtype with
  | None => r
  | Some e =>
    setMessages r (<[subtype :=
      mkMessageTrace (ScheduledCount e) (TerminalCount e) (PendingAtDecision e)
        (u64 (InboundCount e + 1))
        (if 0 <? size_ then u64 (InboundBytes e + u64 size_) else InboundBytes e)
        (OutboundCount e) (OutboundBytes e) (SendCount e) (SendTotalUS e) (SendMaxUS e)
        (SendFailureCount e) (Encode e) (QueueWait e) (StreamOpen e) (Write_ e) (Finalize e)
        (StreamOpenCount e) (StreamReuseCount e)]> (Messages_ (trace r)))
  end.

Definition recordSendPhase (p : ACSSendPhaseTrace) (duration : Z) : ACSSendPhaseTrace :=
  let durationUS := Z.max 0 (microseconds duration) in
  mkPhase (u64 (PhaseCount p + 1)) (i64 (TotalUS p + durationUS))
          (if MaxUS p <? durationUS then durationUS else MaxUS p).

Definition recordCompletedSend (e : ACSMessageTrace) (o : ACSSendObservation)
  : ACSMessageTrace :=
  if ObsErr o then
    mkMessageTrace (ScheduledCount e) (TerminalCount e) (PendingAtDecision e)
      (InboundCount e) (InboundBytes e) (OutboundCount e) (OutboundBytes e) (SendCount e)
      (SendTotalUS e) (SendMaxUS e) (u64 (SendFailureCount e + 1)) (Encode e) (QueueWait e)
      (StreamOpen e) (Write_ e) (Finalize e) (StreamOpenCount e) (StreamReuseCount e)
  else
    let durationUS := Z.max 0 (microseconds (ObsTotal o)) in
    mkMessageTrace (ScheduledCount e) (TerminalCount e) (PendingAtDecision e)
      (InboundCount e) (InboundBytes e) (u64 (OutboundCount e + 1))
      (if 0 <? ObsSize o then u64 (OutboundBytes e + u64 (ObsSize o)) else OutboundBytes e)
      (u64 (SendCount e + 1)) (i64 (SendTotalUS e + durationUS))
      (if SendMaxUS e <? durationUS then durationUS else SendMaxUS e) (SendFailureCount e)
      (recordSendPhase (Encode e) (ObsEncode o))
      (recordSendPhase (QueueWait e) (ObsQueueWait o))
      (recordSendPhase (StreamOpen e) (ObsStreamOpen o))
      (recordSendPhase (Write_ e) (ObsWrite o))
      (recordSendPhase (Finalize e) (ObsFinalize o))
      (if ObsReused o then StreamOpenCount e else u64 (StreamOpenCount e + 1))
      (if ObsReused o then u64 (StreamReuseCount e + 1) else StreamReuseCount e).

Definition setCounts (e : ACSMessageTrace) (scheduled terminal pending : Z) : ACSMessageTrace :=
  mkMessageTrace scheduled terminal pending
    (InboundCount e) (InboundBytes e) (OutboundCount e) (OutboundBytes e) (SendCount e)
    (SendTotalUS e) (SendMaxUS e) (SendFailureCount e) (Encode e) (QueueWait e)
    (StreamOpen e) (Write_ e) (Finalize e) (StreamOpenCount e) (StreamReuseCount e).

(** A map read of an absent subtype yields the zero entry. *)
Definition messageEntry (r : traceRecorder) (subtype : string) : ACSMessageTrace :=
  default noMessageTrace (Messages_ (trace r) !! subtype).

Definition allMessagesTerminalLocked (r : traceRecorder) : bool :=
  forallb (fun s => TerminalCount (messageEntry r s) =? ScheduledCount (messageEntry r s))
    acsMessageSubtypes.

(** [*ACSSendToken]: the [sync.Once] flag and the captured subtype. *)
Record ACSSendToken := mkToken { once : bool; tokenSubtype : string }.

Definition beginMessageOutbound (r : traceRecorder) (subtype : string)
  : traceRecorder * option ACSSendToken :=
  if negb (enabled r) then (r, None)
  else if Sealed (Transport (trace r)) then (r, None)
  else match Messages_ (trace r) !! subtype with
       | None => (r, None)
       | Some e =>
         (setMessages r (<[subtype := setCounts e (u64 (ScheduledCount e + 1))
                                        (TerminalCount e) (PendingAtDecision e)]>
                          (Messages_ (trace r))),
          Some (mkToken false subtype))
       end.

Definition completeMessageOutbound (r : traceRecorder) (subtype : string)
  (o : ACSSendObservation) : traceRecorder :=
  match Messages_ (trace r) !! subtype with
  | None => r
  | Some e =>
    if ScheduledCount e <=? TerminalCount e then r
    else
      let e1 := setCounts e (ScheduledCount e) (u64 (TerminalCount e + 1))
                  (PendingAtDecision e) in
      let r1 := setMessages r (<[subtype := recordCompletedSend e1 o]> (Messages_ (trace r))) in
      if Sealed (Transport (trace r1)) && allMessagesTerminalLocked r1
      then setTransport r1 (mkTransport (Sealed (Transport (trace r1))) true)
      else r1
  end.

(** [token.Complete]: at most one completion per token. *)
Definition Complete (tok : ACSSendToken) (r : traceRecorder) (o : ACSSendObservation)
  : ACSSendToken * traceRecorder :=
  if once tok then (tok, r)
  else (mkToken true (tokenSubtype tok), completeMessageOutbound r (tokenSubtype tok) o).

Definition recordMessageOutbound (r : traceRecorder) (subtype : string)
  (o : ACSSendObservation) : traceRecorder :=
  match beginMessageOutbound r subtype with
  | (r1, Some token) => (Complete token r1 o).2
  | (r1, None) => r1
  end.

Definition sealEntry (e : ACSMessageTrace) : ACSMessageTrace :=
  setCounts e (ScheduledCount e) (TerminalCount e)
    (u64 (ScheduledCount e - TerminalCount e)).

Definition sealMessageOutbound (r : traceRecorder) : traceRecorder :=
  if negb (enabled r) then r
  else if Sealed (Transport (trace r)) then r
  else
    let m := fold_left (fun m s => <[s := sealEntry (default noMessageTrace (m !! s))]> m)
               acsMessageSubtypes (Messages_ (trace r)) in
    let r1 := setMessages r m in
    setTransport r1 (mkTransport true (allMessagesTerminalLocked r1)).

Definition traceFinalized (r : traceRecorder) : bool :=
  if negb (enabled r) then true else Finalized (Transport (trace r)).

(** ** Wait attribution *)

Definition validTraceWaitReason (reason : string) : bool :=
  String.eqb reason waitForTrueBBAResults || String.eqb reason waitForAllBBAResults
  || String.eqb reason waitForTruthyRBCOutputs.

Definition setWaiting (r : traceRecorder) (reason : string) (at_ : option Z) : traceRecorder :=
  mkRecorder (enabled r) (base r) (started r) reason at_ (trace r).

Definition finishWaitLocked (r : traceRecorder) (now : Z) : traceRecorder :=
  if String.eqb (waitReason r) "" then r
  else
    let durationUS := microseconds (timeSub now (default 0 (waitStarted r))) in
    let w := Wait (trace r) in
    let w' :=
      if String.eqb (waitReason r) waitForTrueBBAResults then
        mkWait (i64 (TrueBBAQuorumUS w + durationUS)) (AllBBAUS w) (TruthyRBCUS w)
      else if String.eqb (waitReason r) waitForAllBBAResults then
        mkWait (TrueBBAQuorumUS w) (i64 (AllBBAUS w + durationUS)) (TruthyRBCUS w)
      else if String.eqb (waitReason r) waitForTruthyRBCOutputs then
        mkWait (TrueBBAQuorumUS w) (AllBBAUS w) (i64 (TruthyRBCUS w + durationUS))
      else w in
    setWaiting (setWait r w') "" None.

Definition transitionWait (r : traceRecorder) (now : Z) (reason : string) : traceRecorder :=
  if negb (enabled r) || negb (validTraceWaitReason reason) then r
  else if negb (started r) || String.eqb (waitReason r) reason then r
  else if (now <? base r) || match waitStarted r with Some s => now <? s | None => false end
       then r
  else setWaiting (finishWaitLocked r now) reason (Some now).

Definition finishWait (r : traceRecorder) (now : Z) : traceRecorder :=
  if negb (enabled r) then r
  else if negb (started r) || String.eqb (waitReason r) "" then r
  else if now <? default 0 (waitStarted r) then r
  else finishWaitLocked r now.

(** The Go code copies every map, so the result is detached; here maps are
    values and the copy is the trace itself. *)
Definition snapshot (r : traceRecorder) : ACSTrace :=
  if negb (enabled r) then noTrace else trace r.

(** ** Call logs *)

Inductive trace_call :=
  | CallAggregate (event : aggregateTraceEvent)
  | CallRBC (proposerID : Z) (event : rbcTraceEvent)
  | CallRBCReady (proposerID : Z) (trigger : string) (echoCount readyCount : Z)
  | CallBBA (proposerID : Z) (event : bbaTraceEvent) (value : bool) (epoch : Z)
  | CallAdapter (event : adapterTraceEvent)
  | CallTransitionWait (reason : string)
  | CallFinishWait.

Definition applyCall (r : traceRecorder) (now : Z) (c : trace_call) : traceRecorder :=
  match c with
  | CallAggregate e => recordAggregate r now e
  | CallRBC p e => recordRBC r now p e
  | CallRBCReady p t ec rc => recordRBCReady r now p t ec rc
  | CallBBA p e v ep => recordBBA r now p e v ep
  | CallAdapter e => recordAdapter r now e
  | CallTransitionWait s => transitionWait r now s
  | CallFinishWait => finishWait r now
  end.

(** Applies a log of calls, each with its clock reading. *)
Definition replay (r : traceRecorder) (log : list (Z * trace_call)) : traceRecorder :=
  fold_left (fun r nc => applyCall r nc.1 nc.2) log r.
