(* ===== verification/TraceLaws.v ===== *)
(** * TraceLaws: what the trace recorder guarantees

    Accounting of the outbound messages ([outbound_finalized_iff]), milestones
    that are written once ([milestones_once]), and wait times that never add up
    to more than the time that passed ([wait_within_elapsed]). *)

From S2P Require Import Prelude Trace.

(** ** Outbound messages *)

(** A recorder and the tokens it handed out. *)
Record sending := mkSending { sn_rec : traceRecorder; sn_toks : list ACSSendToken }.

Inductive send_step (w : sending) : sending -> Prop :=
  | ss_begin s r ot :
      beginMessageOutbound (sn_rec w) s = (r, ot) ->
      send_step w (mkSending r (sn_toks w ++ match ot with Some t => [t] | None => [] end))
  | ss_complete i tok o tok' r :
      sn_toks w !! i = Some tok -> Complete tok (sn_rec w) o = (tok', r) ->
      send_step w (mkSending r (<[i := tok']> (sn_toks w)))
  | ss_seal : send_step w (mkSending (sealMessageOutbound (sn_rec w)) (sn_toks w))
  | ss_start b : send_step w (mkSending (begin (sn_rec w) b) (sn_toks w))
  | ss_inbound s n : send_step w (mkSending (recordMessageInbound (sn_rec w) s n) (sn_toks w))
  | ss_call now c : send_step w (mkSending (applyCall (sn_rec w) now c) (sn_toks w)).

Definition init_sending (nodes : list Z) : sending := mkSending (newTraceRecorder nodes true) [].

(** Tokens of a subtype not completed yet. *)
Definition pending (s : string) (toks : list ACSSendToken) : list ACSSendToken :=
  filter (fun t => once t = false /\ tokenSubtype t = s) toks.
Arguments pending : simpl never.

Record OutInv (w : sending) : Prop := {
  oi_enabled : enabled (sn_rec w) = true;
  oi_keys s e : Messages_ (trace (sn_rec w)) !! s = Some e -> s ∈ acsMessageSubtypes;
  oi_entry s : s ∈ acsMessageSubtypes -> exists e,
    Messages_ (trace (sn_rec w)) !! s = Some e /\ 0 <= TerminalCount e /\
    TerminalCount e + zlen (pending s (sn_toks w)) = ScheduledCount e /\
    ScheduledCount e <= zlen (sn_toks w);
  oi_toks t : t ∈ sn_toks w -> tokenSubtype t ∈ acsMessageSubtypes;
  oi_final : Finalized (Transport (trace (sn_rec w))) =
    Sealed (Transport (trace (sn_rec w))) && forallb once (sn_toks w) }.

(** Recorders that agree on what the accounting looks at. *)
Definition same_out (r r' : traceRecorder) : Prop :=
  enabled r' = enabled r /\ Messages_ (trace r') = Messages_ (trace r) /\
  Transport (trace r') = Transport (trace r).

Lemma same_out_inv r r' toks :
  same_out r r' -> OutInv (mkSending r toks) -> OutInv (mkSending r' toks).
Proof.
  intros (E1 & E2 & E3) []. cbn in *. split; cbn; rewrite ?E1, ?E2, ?E3; done.
Qed.

Lemma finishWaitLocked_same r now : same_out r (finishWaitLocked r now).
Proof. unfold finishWaitLocked. by destruct (String.eqb _ ""). Qed.

Lemma applyCall_same r now c : same_out r (applyCall r now c).
Proof.
  destruct c; cbn;
    unfold recordAggregate, recordRBC, recordRBCReady, recordBBA, recordAdapter, transitionWait,
      finishWait; try (destruct (negb (enabled r)) eqn:?; [done|]).
  - by destruct (Aggregate (trace r)), event.
  - by repeat case_match.
  - by repeat case_match.
  - by repeat case_match.
  - by repeat case_match.
  - cbn [orb]. repeat (case_match; [done|]).
    destruct (finishWaitLocked_same r now) as (? & ? & ?). done.
  - repeat (case_match; [done|]). apply finishWaitLocked_same.
Qed.

Lemma pending_insert s toks i tok :
  toks !! i = Some tok -> once tok = false ->
  zlen (pending s (<[i := mkToken true (tokenSubtype tok)]> toks)) =
  zlen (pending s toks) - (if decide (tokenSubtype tok = s) then 1 else 0).
Proof.
  intros Hi Ho. pose proof (lookup_lt_Some _ _ _ Hi) as Hlt.
  rewrite <- (take_drop_middle toks i tok Hi) at 2.
  rewrite (insert_take_drop toks i) by done. unfold pending.
  rewrite !filter_app, !length_app, !filter_cons. cbn.
  rewrite (decide_False (P := true = false /\ _)) by by intros [].
  destruct (decide (tokenSubtype tok = s)) as [E|E].
  - rewrite decide_True by done. cbn. lia.
  - rewrite decide_False by by intros []. lia.
Qed.

(** Everything sent is accounted for exactly when no token is pending. *)
Lemma all_terminal w :
  OutInv w -> allMessagesTerminalLocked (sn_rec w) = forallb once (sn_toks w).
Proof.
  intros HI. apply eq_true_iff_eq. unfold allMessagesTerminalLocked, messageEntry.
  rewrite !forallb_forall. split.
  - intros H t Ht. destruct (once t) eqn:Eo; [done|exfalso].
    apply list_elem_of_In in Ht. pose proof (oi_toks _ HI t Ht) as Hs.
    destruct (oi_entry _ HI _ Hs) as (e & He & _ & Hp & _).
    specialize (H (tokenSubtype t) (proj1 (list_elem_of_In _ _) Hs)).
    rewrite He in H. cbn in H. apply Z.eqb_eq in H.
    assert (t ∈ pending (tokenSubtype t) (sn_toks w)) as Hin by by apply list_elem_of_filter.
    destruct (pending _ _); [by apply elem_of_nil in Hin|cbn in Hp; lia].
  - intros H s Hs. apply list_elem_of_In in Hs. destruct (oi_entry _ HI s Hs) as (e & -> & _ & Hp & _).
    cbn. apply Z.eqb_eq. destruct (pending s (sn_toks w)) as [|t ts] eqn:E; [cbn in Hp; lia|].
    assert (t ∈ pending s (sn_toks w)) as Hin by (rewrite E; by left).
    apply list_elem_of_filter in Hin as [[Ho _] Hin]. rewrite (H t) in Ho; [done|by apply list_elem_of_In].
Qed.

Lemma begin_inv r toks s r' ot :
  OutInv (mkSending r toks) ->
  zlen (toks ++ match ot with Some t => [t] | None => [] end) < 2 ^ 64 ->
  beginMessageOutbound r s = (r', ot) ->
  OutInv (mkSending r' (toks ++ match ot with Some t => [t] | None => [] end)).
Proof.
  intros HI Hlen. unfold beginMessageOutbound. pose proof HI as [He Hk Hent Ht Hf]. cbn in *.
  rewrite He. cbn [negb].
  destruct (Sealed (Transport (trace r))) eqn:Hseal; [intros [= <- <-]; by rewrite app_nil_r|].
  destruct (Messages_ (trace r) !! s) as [e|] eqn:Hs; intros [= <- <-]; [|by rewrite app_nil_r].
  pose proof (Hk s e Hs) as Hin. rewrite length_app in Hlen. cbn in Hlen.
  split; cbn.
  - done.
  - intros s' e' [[-> _]|[_ Hl]]%lookup_insert_Some; [done|by eapply Hk].
  - intros s' Hs'. unfold pending. rewrite filter_app, !length_app. cbn [length].
    destruct (Hent s' Hs') as (e' & He' & H1 & H2 & H3). unfold pending in H2.
    rewrite filter_cons, filter_nil. cbn [once tokenSubtype].
    destruct (decide (s = s')) as [->|Hne].
    + rewrite Hs in He'. injection He' as <-. eexists. rewrite lookup_insert_eq.
      split; [reflexivity|]. cbn. rewrite decide_True by done. cbn [length].
      rewrite u64_small by lia. lia.
    + exists e'. rewrite lookup_insert_ne by done. rewrite decide_False by by intros [_ ?].
      cbn [length]. split_and!; [done|lia..].
  - intros t [Hin'|Hin']%elem_of_app; [by apply Ht|]. by apply list_elem_of_singleton in Hin' as ->.
  - by rewrite Hseal in *.
Qed.

Lemma recordCompletedSend_counts e o :
  ScheduledCount (recordCompletedSend e o) = ScheduledCount e /\
  TerminalCount (recordCompletedSend e o) = TerminalCount e.
Proof. unfold recordCompletedSend. by destruct (ObsErr o). Qed.

Lemma complete_inv r toks i tok o tok' r' :
  OutInv (mkSending r toks) -> zlen toks < 2 ^ 64 -> toks !! i = Some tok ->
  Complete tok r o = (tok', r') -> OutInv (mkSending r' (<[i := tok']> toks)).
Proof.
  intros HI Hlen Hi. unfold Complete. destruct (once tok) eqn:Ho.
  { intros [= <- <-]. by rewrite list_insert_id. }
  intros [= <- <-]. pose proof HI as [He Hk Hent Ht Hf]. cbn in *.
  pose proof (Ht tok ltac:(by eapply list_elem_of_lookup_2)) as Hs.
  destruct (Hent _ Hs) as (e & Hle & H1 & H2 & H3).
  unfold completeMessageOutbound. rewrite Hle.
  assert (1 <= zlen (pending (tokenSubtype tok) toks)) as Hpend.
  { assert (tok ∈ pending (tokenSubtype tok) toks) as Hin.
    { apply list_elem_of_filter. split; [done|by eapply list_elem_of_lookup_2]. }
    destruct (pending _ _); [by apply elem_of_nil in Hin|cbn; lia]. }
  rewrite (proj2 (Z.leb_gt _ _)) by lia. cbv zeta.
  match goal with |- context [setMessages r ?m] => set (r1 := setMessages r m) end.
  set (toks1 := <[i := _]> toks).
  destruct (recordCompletedSend_counts (setCounts e (ScheduledCount e) (u64 (TerminalCount e + 1))
              (PendingAtDecision e)) o) as [Ec1 Ec2]. cbn in Ec1, Ec2.
  assert (forall t, t ∈ toks1 -> tokenSubtype t ∈ acsMessageSubtypes) as Ht1.
  { intros t [j Hj]%list_elem_of_lookup. unfold toks1 in Hj.
    apply list_lookup_insert_Some in Hj as [(_ & <- & _)|[_ Hj]]; [done|].
    apply Ht. by eapply list_elem_of_lookup_2. }
  assert (forall s e', Messages_ (trace r1) !! s = Some e' -> s ∈ acsMessageSubtypes) as Hk1.
  { cbn. intros s e' [[<- _]|[_ Hl]]%lookup_insert_Some; [done|by eapply Hk]. }
  assert (forall s, s ∈ acsMessageSubtypes -> exists e,
    Messages_ (trace r1) !! s = Some e /\ 0 <= TerminalCount e /\
    TerminalCount e + zlen (pending s toks1) = ScheduledCount e /\
    ScheduledCount e <= zlen toks1) as Hent1.
  { intros s Hs'. unfold toks1. rewrite pending_insert by done. rewrite length_insert. cbn.
    destruct (decide (tokenSubtype tok = s)) as [<-|Hne].
    - eexists. rewrite lookup_insert_eq. split; [reflexivity|]. rewrite Ec1, Ec2, u64_small; lia.
    - rewrite lookup_insert_ne by done. destruct (Hent s Hs') as (e' & ? & ? & ? & ?).
      exists e'. split_and!; [done|lia..]. }
  assert (forall f, f = Sealed (Transport (trace r)) && forallb once toks1 ->
    OutInv (mkSending (setTransport r1 (mkTransport (Sealed (Transport (trace r))) f)) toks1)) as Hmk.
  { intros f ->. by split. }
  assert (allMessagesTerminalLocked r1 = forallb once toks1) as Hall.
  { specialize (Hmk _ eq_refl). apply all_terminal in Hmk. exact Hmk. }
  change (Transport (trace r1)) with (Transport (trace r)).
  destruct (Sealed (Transport (trace r))) eqn:Hseal; cbn [andb]; rewrite ?Hall.
  - destruct (forallb once toks1) eqn:Hfa.
    + by apply (Hmk true).
    + assert (forallb once toks = false) as Hfalse.
      { apply not_true_iff_false. intros Hto. rewrite forallb_forall in Hto.
        rewrite (Hto tok) in Ho; [done|]. apply list_elem_of_In. by eapply list_elem_of_lookup_2. }
      split; try done. cbn. by rewrite Hseal, Hfa, Hf, Hfalse.
  - split; try done. cbn. by rewrite Hseal, Hf.
Qed.

Lemma seal_entries (m : gmap string ACSMessageTrace) (Hm : forall s, s ∈ acsMessageSubtypes -> is_Some (m !! s)) :
  let m' := fold_left (fun m s => <[s := sealEntry (default noMessageTrace (m !! s))]> m)
              acsMessageSubtypes m in
  forall s, m' !! s = (if decide (s ∈ acsMessageSubtypes) then sealEntry <$> m !! s else m !! s).
Proof.
  cbv zeta. intros s.
  assert (forall ss (m0 : gmap string ACSMessageTrace), NoDup ss -> (forall s, s ∈ ss -> is_Some (m0 !! s)) ->
    fold_left (fun m s => <[s := sealEntry (default noMessageTrace (m !! s))]> m) ss m0 !! s =
    if decide (s ∈ ss) then sealEntry <$> m0 !! s else m0 !! s) as Hgen.
  { clear. induction ss as [|x ss IH]; intros m0 Hnd H0; cbn.
    { by rewrite decide_False by apply not_elem_of_nil. }
    apply NoDup_cons in Hnd as [Hx Hnd]. rewrite IH; [|done|].
    2: { intros y Hy. rewrite lookup_insert_ne by by intros ->. apply H0. by right. }
    destruct (decide (s = x)) as [->|Hne].
    - rewrite decide_False by done. rewrite decide_True by by left. rewrite lookup_insert_eq.
      by destruct (H0 x) as [e ->]; [left|].
    - rewrite lookup_insert_ne by done.
      destruct (decide (s ∈ ss)) as [Hin|Hin].
      + by rewrite decide_True by by right.
      + rewrite decide_False; [done|]. by intros [|]%elem_of_cons. }
  apply Hgen; [|done]. apply (bool_decide_eq_true_1 _). vm_compute. reflexivity.
Qed.

Lemma seal_inv r toks :
  OutInv (mkSending r toks) -> OutInv (mkSending (sealMessageOutbound r) toks).
Proof.
  intros HI. unfold sealMessageOutbound. pose proof HI as [He Hk Hent Ht Hf]. cbn in *.
  rewrite He. cbn [negb]. destruct (Sealed (Transport (trace r))) eqn:Hseal; [done|]. cbv zeta.
  match goal with |- context [setMessages r ?m] => set (r1 := setMessages r m) end.
  assert (forall s, Messages_ (trace r1) !! s = if decide (s ∈ acsMessageSubtypes)
    then sealEntry <$> Messages_ (trace r) !! s else Messages_ (trace r) !! s) as Hl.
  { apply seal_entries. intros s Hs. destruct (Hent s Hs) as (e & -> & _). by eexists. }
  assert (forall f, f = forallb once toks ->
    OutInv (mkSending (setTransport r1 (mkTransport true f)) toks)) as Hmk.
  { intros f ->. split; try done.
    - intros s e'. cbn -[r1]. rewrite (Hl s). case_decide; [done|]. by intros ?%Hk.
    - intros s Hs. destruct (Hent s Hs) as (e & He' & H1 & H2 & H3).
      exists (sealEntry e). split; [|by split_and!]. cbn -[r1]. rewrite (Hl s).
      by rewrite decide_True, He' by done. }
  assert (allMessagesTerminalLocked r1 = forallb once toks) as Hall.
  { specialize (Hmk _ eq_refl). apply all_terminal in Hmk. exact Hmk. }
  apply Hmk. exact Hall.
Qed.

Lemma inbound_inv r toks s n :
  OutInv (mkSending r toks) -> OutInv (mkSending (recordMessageInbound r s n) toks).
Proof.
  intros HI. unfold recordMessageInbound. pose proof HI as [He Hk Hent Ht Hf]. cbn in *.
  destruct (negb (enabled r)); [done|]. destruct (negb (started r)); [done|].
  destruct (Messages_ (trace r) !! s) as [e|] eqn:Hs; [|done].
  split; cbn; try done.
  - intros s' e' [[<- _]|[_ Hl]]%lookup_insert_Some; by eapply Hk.
  - intros s' Hs'. destruct (Hent s' Hs') as (e' & He' & H1 & H2 & H3).
    destruct (decide (s = s')) as [->|Hne].
    + rewrite Hs in He'. injection He' as <-. eexists. rewrite lookup_insert_eq.
      split; [reflexivity|]. cbn. done.
    + exists e'. by rewrite lookup_insert_ne.
Qed.

Lemma init_inv nodes : OutInv (init_sending nodes).
Proof.
  split; cbn; try done.
  - intros s e He.
    repeat (apply lookup_insert_Some in He as [[<- _]|[_ He]];
      [apply (bool_decide_eq_true_1 _); reflexivity|]).
    by rewrite lookup_empty in He.
  - intros s Hs. exists noMessageTrace. split; [|done].
    repeat (apply elem_of_cons in Hs as [->|Hs]; [reflexivity|]). by apply elem_of_nil in Hs.
  - by intros t ?%elem_of_nil.
Qed.

Lemma send_step_toks w w' : send_step w w' -> zlen (sn_toks w) <= zlen (sn_toks w').
Proof. destruct 1; cbn; rewrite ?length_app, ?length_insert; lia. Qed.

Lemma send_step_inv w w' :
  send_step w w' -> zlen (sn_toks w') < 2 ^ 64 -> OutInv w -> OutInv w'.
Proof.
  destruct w as [r toks]. intros Hst Hlen HI. destruct Hst; cbn in *.
  - by eapply begin_inv.
  - eapply complete_inv; try done. by rewrite length_insert in Hlen.
  - by apply seal_inv.
  - eapply same_out_inv; [|done]. unfold begin. by repeat case_match.
  - by apply inbound_inv.
  - eapply same_out_inv; [apply applyCall_same|done].
Qed.

(**  Outbound accounting: start from a fresh recorder and begin, complete,
    seal and record in any order, fewer than 2^64 sends in all.  The transport
    trace is final exactly when it was sealed and every token was completed;
    for each subtype the pending sends are those whose token is not completed,
    so a send is never completed twice and never lost. *)
Lemma outbound_finalized_iff (nodes : list Z) (w : sending) :
  rtc send_step (init_sending nodes) w -> zlen (sn_toks w) < 2 ^ 64 ->
  Finalized (Transport (trace (sn_rec w))) =
    Sealed (Transport (trace (sn_rec w))) && forallb once (sn_toks w) /\
  forall s, s ∈ acsMessageSubtypes -> exists e, Messages_ (trace (sn_rec w)) !! s = Some e /\
    ScheduledCount e = TerminalCount e + zlen (pending s (sn_toks w)).
Proof.
  intros Hr Hlen. assert (OutInv w) as HI.
  { revert Hlen. revert w Hr.
    refine (rtc_ind_r (fun w => zlen (sn_toks w) < 2 ^ 64 -> OutInv w) _ _ _).
    - intros _. apply init_inv.
    - intros w w' _ Hst IH Hlen. eapply send_step_inv; [done..|]. apply IH.
      pose proof (send_step_toks _ _ Hst). lia. }
  split; [apply HI|]. intros s Hs. destruct (oi_entry _ HI s Hs) as (e & He & _ & Hp & _).
  exists e. split; [done|lia].
Qed.

Definition do_begin (s : string) (w : sending) : sending :=
  let '(r, ot) := beginMessageOutbound (sn_rec w) s in
  mkSending r (sn_toks w ++ match ot with Some t => [t] | None => [] end).

Definition do_complete (i : nat) (o : ACSSendObservation) (w : sending) : sending :=
  match sn_toks w !! i with
  | Some tok => let '(tok', r) := Complete tok (sn_rec w) o in mkSending r (<[i := tok']> (sn_toks w))
  | None => w
  end.

Lemma do_begin_sound s w : rtc send_step w (do_begin s w).
Proof.
  unfold do_begin. destruct (beginMessageOutbound _ s) as [r ot] eqn:E.
  by apply rtc_once, (ss_begin w s).
Qed.

Lemma do_complete_sound i o w : rtc send_step w (do_complete i o w).
Proof.
  unfold do_complete. destruct (sn_toks w !! i) as [tok|] eqn:Hi; [|apply rtc_refl].
  destruct (Complete tok _ o) as [tok' r] eqn:E. by apply rtc_once, (ss_complete w i tok o).
Qed.

(** Two sends are begun, the transport is sealed, and the second completes
    before the first. *)
Definition demo_sealed : sending :=
  let w := do_begin ACSMessageReady (do_begin ACSMessageEcho (init_sending [0; 1])) in
  mkSending (sealMessageOutbound (sn_rec w)) (sn_toks w).

Definition demo_sending : sending :=
  let obs := mkObservation 100 5000 1000 1000 1000 1000 1000 false false in
  do_complete 0 obs (do_complete 1 obs demo_sealed).

Lemma demo_sending_reachable : rtc send_step (init_sending [0; 1]) demo_sending.
Proof.
  unfold demo_sending, demo_sealed. cbv zeta.
  etransitivity; [|apply do_complete_sound]. etransitivity; [|apply do_complete_sound].
  etransitivity; [|apply rtc_once, ss_seal].
  etransitivity; [|apply do_begin_sound]. apply do_begin_sound.
Qed.

(** ** Milestones *)

(** A milestone with the value stored with it, if it has one. *)
Abbreviation mark := (TracePoint * bool)%type.

Definition plain (p : TracePoint) : mark := (p, false).

Definition aggregateMarks (a : ACSAggregateTrace) : list mark :=
  plain <$> [InputStarted a; FirstRBCOutput a; RBCOutputQuorum a; FirstTrueBBA a; TrueBBAQuorum a;
             FalseInputInjected a; AllBBADecided a; TruthyRBCReady a; CoreDecision a].

Definition adapterMarks (a : ACSAdapterTrace) : list mark :=
  plain <$> [CommonSubsetDecoded a; BlockBodyBuilt a; NodeOutputReceived a].

Definition rbcMarks (e : RBCTrace) : list mark :=
  plain <$> [ProofAccepted e; EchoSentAt e; ReadySentAt e; DecodeEligible e;
             ReconstructionStarted e; ReconstructionFinished e; OutputStoredAt e].

Definition bbaMarks (e : BBATrace) : list mark :=
  [(InputAt e, InputVal e); (FirstBinValue e, FirstBin e); (FirstAux e, FirstAuxValue e);
   plain (ValidAuxQuorum e); (DecisionAt e, DecisionValue e); plain (DoneAt e)].

(** Every milestone of a trace: the run's own, and those of each proposer. *)
Definition marks (t : ACSTrace) (pid : Z) : list mark :=
  aggregateMarks (Aggregate t) ++ adapterMarks (Adapter t) ++
  default [] (rbcMarks <$> TraceRBC t !! pid) ++ default [] (bbaMarks <$> TraceBBA t !! pid).

(** A recorded mark does not change; an unrecorded one may be written. *)
Definition keeps (m m' : mark) : Prop := Recorded m.1 = true -> m' = m.

#[export] Instance keeps_refl : Reflexive keeps.
Proof. by intros m. Qed.

#[export] Instance keeps_trans : Transitive keeps.
Proof. intros m1 m2 m3 H1 H2 Hr. specialize (H1 Hr) as ->. auto. Qed.

Definition keeps_all (l l' : list mark) : Prop := Forall2 keeps l l'.

#[export] Instance keeps_all_refl : Reflexive keeps_all.
Proof. intros l. unfold keeps_all. reflexivity. Qed.

#[export] Instance keeps_all_trans : Transitive keeps_all.
Proof. intros l1 l2 l3. unfold keeps_all. intros. by etransitivity. Qed.

Lemma recordPoint_keeps r now p : keeps (plain p) (plain (recordPoint r now p)).
Proof.
  unfold keeps, recordPoint, pointLocked. cbn. intros ->. done.
Qed.

Lemma recordValued_keeps r now p old v : keeps (p, old) (recordValued r now p old v).
Proof. unfold keeps, recordValued, pointLocked. cbn. by intros ->. Qed.

(** Closes a goal about the marks of one record in which one mark was written. *)
Ltac keeps_marks :=
  cbn; repeat constructor; try reflexivity;
  first [apply recordPoint_keeps | apply recordValued_keeps | idtac].

Lemma aggregate_keeps r now e :
  keeps_all (aggregateMarks (Aggregate (trace r)))
    (aggregateMarks (Aggregate (trace (recordAggregate r now e)))).
Proof.
  unfold recordAggregate. destruct (negb _); [reflexivity|].
  destruct (Aggregate (trace r)), e; keeps_marks.
Qed.

Lemma adapter_keeps r now e :
  keeps_all (adapterMarks (Adapter (trace r))) (adapterMarks (Adapter (trace (recordAdapter r now e)))).
Proof.
  unfold recordAdapter. destruct (negb _); [reflexivity|].
  destruct (Adapter (trace r)), e; keeps_marks.
Qed.

Lemma insert_keeps {A} (f : A -> list mark) (m : gmap Z A) k e e' pid :
  m !! k = Some e -> keeps_all (f e) (f e') ->
  keeps_all (default [] (f <$> m !! pid)) (default [] (f <$> <[k := e']> m !! pid)).
Proof.
  intros He Hk. destruct (decide (pid = k)) as [->|Hne].
  - by rewrite lookup_insert_eq, He.
  - by rewrite lookup_insert_ne.
Qed.

Lemma recordRBC_keeps r now p e pid :
  keeps_all (default [] (rbcMarks <$> TraceRBC (trace r) !! pid))
    (default [] (rbcMarks <$> TraceRBC (trace (recordRBC r now p e)) !! pid)).
Proof.
  unfold recordRBC. destruct (negb _); [reflexivity|].
  destruct (TraceRBC (trace r) !! p) as [x|] eqn:Hx; [|reflexivity]. destruct x. cbn.
  eapply insert_keeps; [exact Hx|]. destruct e; keeps_marks.
Qed.

Lemma recordRBCReady_keeps r now p t ec rc pid :
  keeps_all (default [] (rbcMarks <$> TraceRBC (trace r) !! pid))
    (default [] (rbcMarks <$> TraceRBC (trace (recordRBCReady r now p t ec rc)) !! pid)).
Proof.
  unfold recordRBCReady. destruct (negb _); [reflexivity|].
  destruct (TraceRBC (trace r) !! p) as [x|] eqn:Hx; [|reflexivity]. destruct x.
  destruct (negb _); [reflexivity|]. cbn.
  eapply insert_keeps; [exact Hx|]. keeps_marks.
Qed.

Lemma recordBBA_keeps r now p e v ep pid :
  keeps_all (default [] (bbaMarks <$> TraceBBA (trace r) !! pid))
    (default [] (bbaMarks <$> TraceBBA (trace (recordBBA r now p e v ep)) !! pid)).
Proof.
  unfold recordBBA. destruct (negb _); [reflexivity|]. destruct (negb _); [reflexivity|].
  destruct (TraceBBA (trace r) !! p) as [x|] eqn:Hx; [|reflexivity]. destruct x. cbv zeta.
  cbn [setBBA setTrace trace TraceBBA]. eapply insert_keeps; [exact Hx|].
  destruct e; try (match goal with |- context [recordValued ?r ?n ?q ?o ?w] =>
    pose proof (recordValued_keeps r n q o w) as Hk; destruct (recordValued r n q o w) end);
    cbn; repeat constructor; try reflexivity; try exact Hk; apply recordPoint_keeps.
Qed.

Lemma applyCall_keeps r now c pid : keeps_all (marks (trace r) pid) (marks (trace (applyCall r now c)) pid).
Proof.
  assert (forall r', Aggregate (trace r') = Aggregate (trace r) -> Adapter (trace r') = Adapter (trace r) ->
    TraceRBC (trace r') = TraceRBC (trace r) -> TraceBBA (trace r') = TraceBBA (trace r) ->
    keeps_all (marks (trace r) pid) (marks (trace r') pid)) as Hsame.
  { intros r' E1 E2 E3 E4. unfold marks. by rewrite E1, E2, E3, E4. }
  assert (forall r, Aggregate (trace (finishWaitLocked r now)) = Aggregate (trace r) /\
    Adapter (trace (finishWaitLocked r now)) = Adapter (trace r) /\
    TraceRBC (trace (finishWaitLocked r now)) = TraceRBC (trace r) /\
    TraceBBA (trace (finishWaitLocked r now)) = TraceBBA (trace r)) as Hfin.
  { intros r'. unfold finishWaitLocked. by case_match. }
  unfold marks, keeps_all. destruct c as [e|p e|p t ec rc|p e v ep|e|reason|]; cbn [applyCall].
  - apply Forall2_app; [apply aggregate_keeps|].
    assert (Adapter (trace (recordAggregate r now e)) = Adapter (trace r) /\
      TraceRBC (trace (recordAggregate r now e)) = TraceRBC (trace r) /\
      TraceBBA (trace (recordAggregate r now e)) = TraceBBA (trace r)) as (-> & -> & ->)
      by (unfold recordAggregate; by repeat case_match). reflexivity.
  - assert (Aggregate (trace (recordRBC r now p e)) = Aggregate (trace r) /\
      Adapter (trace (recordRBC r now p e)) = Adapter (trace r) /\
      TraceBBA (trace (recordRBC r now p e)) = TraceBBA (trace r)) as (-> & -> & ->)
      by (unfold recordRBC; by repeat case_match).
    repeat (apply Forall2_app; [reflexivity|]). apply Forall2_app; [apply recordRBC_keeps|reflexivity].
  - assert (Aggregate (trace (recordRBCReady r now p t ec rc)) = Aggregate (trace r) /\
      Adapter (trace (recordRBCReady r now p t ec rc)) = Adapter (trace r) /\
      TraceBBA (trace (recordRBCReady r now p t ec rc)) = TraceBBA (trace r)) as (-> & -> & ->)
      by (unfold recordRBCReady; by repeat case_match).
    do 2 (apply Forall2_app; [reflexivity|]). apply Forall2_app; [apply recordRBCReady_keeps|reflexivity].
  - assert (Aggregate (trace (recordBBA r now p e v ep)) = Aggregate (trace r) /\
      Adapter (trace (recordBBA r now p e v ep)) = Adapter (trace r) /\
      TraceRBC (trace (recordBBA r now p e v ep)) = TraceRBC (trace r)) as (-> & -> & ->)
      by (unfold recordBBA; by repeat case_match).
    do 3 (apply Forall2_app; [reflexivity|]). apply recordBBA_keeps.
  - apply Forall2_app; [|].
    + assert (Aggregate (trace (recordAdapter r now e)) = Aggregate (trace r)) as ->
        by (unfold recordAdapter; by repeat case_match). reflexivity.
    + apply Forall2_app; [apply adapter_keeps|].
      assert (TraceRBC (trace (recordAdapter r now e)) = TraceRBC (trace r) /\
        TraceBBA (trace (recordAdapter r now e)) = TraceBBA (trace r)) as (-> & ->)
        by (unfold recordAdapter; by repeat case_match). reflexivity.
  - unfold transitionWait. repeat (case_match; [reflexivity|]).
    destruct (Hfin r) as (E1 & E2 & E3 & E4). by apply Hsame.
  - unfold finishWait. repeat (case_match; [reflexivity|]).
    destruct (Hfin r) as (E1 & E2 & E3 & E4). by apply Hsame.
Qed.

(**  A milestone is written once: whatever calls follow, at whatever clock
    readings, a recorded milestone keeps its offset and the value stored with
    it, and no milestone appears or disappears. *)
Lemma milestones_once (r : traceRecorder) (log : list (Z * trace_call)) (pid : Z) :
  keeps_all (marks (trace r) pid) (marks (trace (replay r log)) pid).
Proof.
  unfold replay. revert r. induction log as [|[now c] log IH]; intros r; cbn; [reflexivity|].
  etransitivity; [apply applyCall_keeps|apply IH].
Qed.

(** ** Wait times *)

Definition totalWait (w : ACSWaitTrace) : Z := TrueBBAQuorumUS w + AllBBAUS w + TruthyRBCUS w.

(** At clock reading [now], with [b] the base. *)
Record WaitInv (b now : Z) (r : traceRecorder) : Prop := {
  wi_started : started r = true;
  wi_base : base r = b;
  wi_pos : 0 <= TrueBBAQuorumUS (Wait (trace r)) /\ 0 <= AllBBAUS (Wait (trace r)) /\
           0 <= TruthyRBCUS (Wait (trace r));
  wi_sum : match waitStarted r with
           | Some s => b <= s <= now /\ totalWait (Wait (trace r)) <= (s - b) / 1000
           | None => waitReason r = "" /\ totalWait (Wait (trace r)) <= (now - b) / 1000
           end }.

Lemma microseconds_sub b s t :
  b <= s <= t -> t - b < 2 ^ 63 ->
  microseconds (timeSub t s) = (t - s) / 1000.
Proof.
  intros Hs Ht. unfold microseconds, timeSub. rewrite Z.min_r, Z.max_r by lia.
  apply Z.quot_div_nonneg; lia.
Qed.

Lemma div_add_le b s t : b <= s <= t -> (s - b) / 1000 + (t - s) / 1000 <= (t - b) / 1000.
Proof. intros. Z.to_euclidean_division_equations. lia. Qed.

Lemma finish_sum b now t r :
  WaitInv b now r -> now <= t -> b <= now -> t - b < 2 ^ 63 ->
  WaitInv b t (finishWaitLocked r t).
Proof.
  intros [Hst Hb Hpos Hsum] Hnow Hbn Hlt. unfold finishWaitLocked.
  destruct (String.eqb_spec (waitReason r) "") as [E|E].
  - split; try done. destruct (waitStarted r) as [s|]; [by destruct Hsum; split; [lia|]|].
    destruct Hsum as [? Hs]. split; [done|].
    assert ((now - b) / 1000 <= (t - b) / 1000) by (apply Z.div_le_mono; lia). lia.
  - destruct (waitStarted r) as [s|]; [|by destruct Hsum]. destruct Hsum as [Hs Hsum].
    change (default 0 (Some s)) with s.
    rewrite (microseconds_sub b s t) by lia.
    pose proof (div_add_le b s t ltac:(lia)).
    assert (0 <= (t - s) / 1000) by (apply Z.div_pos; lia).
    assert ((t - b) / 1000 < 2 ^ 63) by (apply Z.div_lt_upper_bound; lia).
    unfold totalWait in *.
    destruct (String.eqb (waitReason r) waitForTrueBBAResults);
      [|destruct (String.eqb (waitReason r) waitForAllBBAResults);
        [|destruct (String.eqb (waitReason r) waitForTruthyRBCOutputs)]];
      split; cbn; try done; rewrite ?i64_small by lia; try (split; [done|]); unfold totalWait; cbn;
      rewrite ?i64_small by lia; lia.
Qed.

Lemma setWaiting_inv b now t r reason :
  WaitInv b now (setWaiting r "" None) -> b <= now -> now = t ->
  WaitInv b t (setWaiting r reason (Some t)).
Proof.
  intros [Hst Hb Hpos [_ Hsum]] Hle <-. by split.
Qed.

Lemma WaitInv_later b now t r : WaitInv b now r -> now <= t -> WaitInv b t r.
Proof.
  intros [? ? ? Hsum] Hle. split; try done.
  destruct (waitStarted r) as [s|]; destruct Hsum as [? Hs]; [split; [lia|done]|]. split; [done|].
  assert ((now - b) / 1000 <= (t - b) / 1000) by (apply Z.div_le_mono; lia). lia.
Qed.

Lemma finishWaitLocked_waiting r t :
  String.eqb (waitReason r) "" = false ->
  waitReason (finishWaitLocked r t) = ""%string /\ waitStarted (finishWaitLocked r t) = None.
Proof. intros E. unfold finishWaitLocked. by rewrite E. Qed.

Lemma applyCall_wait b now t r c :
  WaitInv b now r -> b <= now -> now <= t -> t - b < 2 ^ 63 -> WaitInv b t (applyCall r t c).
Proof.
  intros HW Hb Hle Hlt. pose proof (WaitInv_later b now t r HW Hle) as HL.
  assert (forall r', started r' = started r -> base r' = base r -> waitReason r' = waitReason r ->
    waitStarted r' = waitStarted r -> Wait (trace r') = Wait (trace r) -> WaitInv b t r') as Hsame.
  { intros r' E1 E2 E3 E4 E5. destruct HL. split; rewrite ?E1, ?E2, ?E3, ?E4, ?E5; done. }
  destruct c; cbn [applyCall].
  - apply Hsame; unfold recordAggregate; by repeat case_match.
  - apply Hsame; unfold recordRBC; by repeat case_match.
  - apply Hsame; unfold recordRBCReady; by repeat case_match.
  - apply Hsame; unfold recordBBA; by repeat case_match.
  - apply Hsame; unfold recordAdapter; by repeat case_match.
  - unfold transitionWait. repeat (case_match; [done|]).
    pose proof (finish_sum b now t r HW Hle Hb Hlt) as HF.
    apply (setWaiting_inv b t t); [|lia|done].
    destruct (String.eqb (waitReason r) "") eqn:E.
    + apply String.eqb_eq in E. destruct HF as [H1' H2' H3' H4'].
      unfold finishWaitLocked in *. rewrite E in *. cbn in *. split; try done. cbn. split; [done|].
      destruct (waitStarted r) as [s|]; [|by destruct H4'].
      destruct H4' as [Hs Hsum].
      assert ((s - b) / 1000 <= (t - b) / 1000) by (apply Z.div_le_mono; lia). lia.
    + destruct (finishWaitLocked_waiting r t E) as [Er Es].
      destruct HF as [H1' H2' H3' H4']. rewrite Es in H4'. destruct H4' as [_ H4'].
      by split.
  - unfold finishWait. repeat (case_match; [done|]). by apply (finish_sum b now).
Qed.

(**  Attributed wait times never exceed the time that passed: a recorder
    that began at [b] and takes calls at non-decreasing clock readings up to
    [now], less than 2^63 ns after [b], has three non-negative wait times whose
    sum is at most the microseconds from [b] to [now]. *)
Lemma wait_within_elapsed (nodes : list Z) (b now : Z) (log : list (Z * trace_call)) :
  Sorted Z.le (b :: log.*1 ++ [now]) -> now - b < 2 ^ 63 ->
  let w := Wait (trace (replay (begin (newTraceRecorder nodes true) b) log)) in
  0 <= TrueBBAQuorumUS w /\ 0 <= AllBBAUS w /\ 0 <= TruthyRBCUS w /\
  TrueBBAQuorumUS w + AllBBAUS w + TruthyRBCUS w <= (now - b) / 1000.
Proof.
  intros Hs Hlt. cbv zeta.
  assert (WaitInv b now (replay (begin (newTraceRecorder nodes true) b) log)) as [_ _ Hpos Hsum].
  { assert (WaitInv b b (begin (newTraceRecorder nodes true) b)) as HI.
    { split; cbn; try done. split; [done|]. by rewrite Z.sub_diag. }
    unfold replay. revert HI. generalize (begin (newTraceRecorder nodes true) b). intros r HI.
    assert (b <= b) as Hbb by lia. revert Hs HI Hbb. generalize b at 1 3 5. revert r.
    induction log as [|[t c] log IH]; intros r prev Hs HI Hbb; cbn in *.
    - apply (WaitInv_later b prev); [done|]. inversion Hs as [|? ? _ Hhd]. by inversion Hhd.
    - inversion Hs as [|? ? Hs' Hhd]; subst. inversion Hhd; subst.
      assert (t <= now).
      { apply Sorted_StronglySorted in Hs'; [|intros ? ? ?; lia].
        apply StronglySorted_inv in Hs' as [_ Hall]. rewrite Forall_app in Hall.
        destruct Hall as [_ Hall]. by inversion Hall. }
      apply (IH _ t); [done| |lia]. apply (applyCall_wait b prev); [done|lia..]. }
  destruct Hpos as (? & ? & ?). split_and!; try done. unfold totalWait in Hsum.
  destruct (waitStarted _) as [s|]; destruct Hsum as [Hs' Hsum]; [|done].
  assert ((s - b) / 1000 <= (now - b) / 1000) by (apply Z.div_le_mono; lia). lia.
Qed.

