(* ===== verification/Messages.v ===== *)
(** * Messages: configuration, wire messages, errors and the outbound queue

    Models the message and configuration types of [sbc/hbbft]
    ([honey_badger.go], [bba.go], [rbc.go], [acs.go]) and the outbound queue
    of [message_que.go].  A Go [interface{}] payload is an inductive type with
    one constructor per type the handlers switch on, and one for any other. *)

From S2P Require Import Prelude.

Record Config := mkConfig {
  N : Z; F : Z; ID : Z; Nodes : list Z; BatchSize : Z }.

(** [if cfg.F == 0 { cfg.F = (cfg.N - 1) / 3 }]; Go's [/] truncates. *)
Definition defaultF (cfg : Config) : Config :=
  if F cfg =? 0 then mkConfig (N cfg) (Z.quot (N cfg - 1) 3) (ID cfg) (Nodes cfg) (BatchSize cfg)
  else cfg.

(** ** BBA *)

Inductive agreementPayload :=
  | BvalRequest (Value : bool)
  | AuxRequest (Value : bool)
  | OtherAgreement.

Record AgreementMessage := NewAgreementMessage { Epoch : Z; Message : agreementPayload }.

(** ** RBC *)

Record ProofRequest := mkProofRequest {
  RootHash : bytes; Proof : list bytes; Index : Z; Leaves : Z }.

Inductive broadcastPayload :=
  | PProof (p : ProofRequest)
  | PEcho (p : ProofRequest)
  | PReady (RootHash : bytes)
  | OtherBroadcast.

Record BroadcastMessage := mkBroadcast { BPayload : broadcastPayload }.

(** ** ACS *)

Inductive acsPayload :=
  | PAgreement (m : AgreementMessage)
  | PBroadcast (m : BroadcastMessage)
  | OtherACS.

Record ACSMessage := mkACSMessage { ProposerID : Z; Payload : acsPayload }.

(** ** Errors

    One constructor per [fmt.Errorf] or returned library error of the package,
    with the values the message prints. *)

Inductive hberror :=
  | ErrUnknownBBAMessage
  | ErrProofNotFromProposer (senderID proposerID : Z)
  | ErrProofMoreThanOnce (senderID : Z)
  | ErrInvalidProof (senderID : Z)
  | ErrMultipleEchos (senderID id : Z)
  | ErrInvalidEchoProof (senderID id : Z)
  | ErrMultipleReadys (senderID : Z)
  | ErrLocalReadyAdmitted (id : Z)
  | ErrInvalidRBCMessage
  | ErrSplit
  | ErrEncode
  | ErrNoRBCInstance (id : Z)
  | ErrNoBBAInstance (id : Z)
  | ErrProofCount (want got : Z)
  | ErrMultipleBBAResults (id : Z)
  | ErrUnknownACSMessage
  | ErrNilSlotMessage
  | ErrWrongSlot (got want : Z)
  | ErrNilProvider
  | ErrProvider
  | ErrDecodeBatch (proposerID : Z)
  | ErrBuilder
  | ErrPostAgreement.

#[export] Instance hberror_eq_dec : EqDecision hberror.
Proof. solve_decision. Defined.

#[export] Instance agreementPayload_eq_dec : EqDecision agreementPayload.
Proof. solve_decision. Defined.

#[export] Instance AgreementMessage_eq_dec : EqDecision AgreementMessage.
Proof. solve_decision. Defined.

#[export] Instance ProofRequest_eq_dec : EqDecision ProofRequest.
Proof. solve_decision. Defined.

#[export] Instance broadcastPayload_eq_dec : EqDecision broadcastPayload.
Proof. solve_decision. Defined.

#[export] Instance BroadcastMessage_eq_dec : EqDecision BroadcastMessage.
Proof. solve_decision. Defined.

#[export] Instance acsPayload_eq_dec : EqDecision acsPayload.
Proof. solve_decision. Defined.

#[export] Instance ACSMessage_eq_dec : EqDecision ACSMessage.
Proof. solve_decision. Defined.

(** ** The outbound queue *)

Section MessageQue.
Context {P : Type}.

Record MessageTuple := mkTuple { To : Z; TPayload : P }.

Definition messageQue := list MessageTuple.

Definition newMessageQue : messageQue := [].

Definition que_addMessage (q : messageQue) (msg : P) (to : Z) : messageQue :=
  q ++ [mkTuple to msg].

Definition que_addMessages (q : messageQue) (msgs : list MessageTuple) : messageQue :=
  q ++ msgs.

Definition que_len (q : messageQue) : Z := zlen q.

(** Returns the queued messages and leaves the queue empty. *)
Definition que_messages (q : messageQue) : messageQue * messageQue := (q, []).

(** [q.addQue(que)]: drains [que] into [q]; the new values of both. *)
Definition addQue (q que : messageQue) : messageQue * messageQue :=
  let '(msgs, que') := que_messages que in (que_addMessages q msgs, que').
End MessageQue.
Arguments MessageTuple : clear implicits.
Arguments messageQue : clear implicits.

Definition uint64sWithout (s : list Z) (val : Z) : list Z :=
  List.filter (fun x => negb (x =? val)) s.

Lemma elem_of_uint64sWithout s val x : x ∈ uint64sWithout s val <-> x ∈ s /\ x <> val.
Proof.
  unfold uint64sWithout. rewrite !list_elem_of_In, filter_In, negb_true_iff, Z.eqb_neq. done.
Qed.
