(* ===== verification/Bba.v ===== *)
(** * Bba: the binary Byzantine agreement instance

    Models [sbc/hbbft/bba.go].  The Go instance runs one goroutine that takes
    an input or a message at a time, so each exported call is one atomic
    transition of the record [bba].  The internal handlers call each other;
    each is a definition over [self], the handler it calls next, and [exec]
    ties the knot with fuel ([bba_total] gives enough of it).  Calls on the
    shared trace recorder are logged in [b_trace]. *)

From S2P Require Import Prelude Trace Messages.

(** [map[bool]map[uint64]bool]: both inner maps always exist and only ever
    hold [true]. *)
Record bvalSet := mkBvalSet { bvals_false : gset Z; bvals_true : gset Z }.

Definition newBvalSet : bvalSet := mkBvalSet ∅ ∅.

Definition bvals (s : bvalSet) (v : bool) : gset Z :=
  if v then bvals_true s else bvals_false s.

Definition bvals_add (s : bvalSet) (v : bool) (sid : Z) : bvalSet :=
  if v then mkBvalSet (bvals_false s) ({[sid]} ∪ bvals_true s)
  else mkBvalSet ({[sid]} ∪ bvals_false s) (bvals_true s).

Record delayedMessage := mkDelayed { d_sid : Z; d_msg : AgreementMessage }.

Record bba := mkBba {
  b_cfg : Config;
  b_proposerID : Z;
  b_epoch : Z;
  b_binValues : list bool;
  b_sentBvals : list bool;
  b_recvBval : bvalSet;
  b_recvAux : gmap Z bool;
  b_done : bool;
  b_output : option bool;
  b_estimated : option bool;
  b_decision : option bool;
  b_delayed : list delayedMessage;
  b_messages : list AgreementMessage;
  b_msgCount : Z;
  b_trace : list trace_call }.

Definition newBBA (cfg : Config) (proposerID : Z) : bba :=
  mkBba (defaultF cfg) proposerID 0 [] [] newBvalSet ∅ false None None None [] [] 0 [].

(** ** Field updates *)

Definition set_binValues b x := mkBba (b_cfg b) (b_proposerID b) (b_epoch b) x (b_sentBvals b)
  (b_recvBval b) (b_recvAux b) (b_done b) (b_output b) (b_estimated b) (b_decision b)
  (b_delayed b) (b_messages b) (b_msgCount b) (b_trace b).
Definition set_sentBvals b x := mkBba (b_cfg b) (b_proposerID b) (b_epoch b) (b_binValues b) x
  (b_recvBval b) (b_recvAux b) (b_done b) (b_output b) (b_estimated b) (b_decision b)
  (b_delayed b) (b_messages b) (b_msgCount b) (b_trace b).
Definition set_recvBval b x := mkBba (b_cfg b) (b_proposerID b) (b_epoch b) (b_binValues b)
  (b_sentBvals b) x (b_recvAux b) (b_done b) (b_output b) (b_estimated b) (b_decision b)
  (b_delayed b) (b_messages b) (b_msgCount b) (b_trace b).
Definition set_recvAux b x := mkBba (b_cfg b) (b_proposerID b) (b_epoch b) (b_binValues b)
  (b_sentBvals b) (b_recvBval b) x (b_done b) (b_output b) (b_estimated b) (b_decision b)
  (b_delayed b) (b_messages b) (b_msgCount b) (b_trace b).
Definition set_done b x := mkBba (b_cfg b) (b_proposerID b) (b_epoch b) (b_binValues b)
  (b_sentBvals b) (b_recvBval b) (b_recvAux b) x (b_output b) (b_estimated b) (b_decision b)
  (b_delayed b) (b_messages b) (b_msgCount b) (b_trace b).
Definition set_output b x := mkBba (b_cfg b) (b_proposerID b) (b_epoch b) (b_binValues b)
  (b_sentBvals b) (b_recvBval b) (b_recvAux b) (b_done b) x (b_estimated b) (b_decision b)
  (b_delayed b) (b_messages b) (b_msgCount b) (b_trace b).
Definition set_estimated b x := mkBba (b_cfg b) (b_proposerID b) (b_epoch b) (b_binValues b)
  (b_sentBvals b) (b_recvBval b) (b_recvAux b) (b_done b) (b_output b) x (b_decision b)
  (b_delayed b) (b_messages b) (b_msgCount b) (b_trace b).
Definition set_decision b x := mkBba (b_cfg b) (b_proposerID b) (b_epoch b) (b_binValues b)
  (b_sentBvals b) (b_recvBval b) (b_recvAux b) (b_done b) (b_output b) (b_estimated b) x
  (b_delayed b) (b_messages b) (b_msgCount b) (b_trace b).
Definition set_delayed b x := mkBba (b_cfg b) (b_proposerID b) (b_epoch b) (b_binValues b)
  (b_sentBvals b) (b_recvBval b) (b_recvAux b) (b_done b) (b_output b) (b_estimated b)
  (b_decision b) x (b_messages b) (b_msgCount b) (b_trace b).
Definition set_messages b x := mkBba (b_cfg b) (b_proposerID b) (b_epoch b) (b_binValues b)
  (b_sentBvals b) (b_recvBval b) (b_recvAux b) (b_done b) (b_output b) (b_estimated b)
  (b_decision b) (b_delayed b) x (b_msgCount b) (b_trace b).
Definition set_msgCount b x := mkBba (b_cfg b) (b_proposerID b) (b_epoch b) (b_binValues b)
  (b_sentBvals b) (b_recvBval b) (b_recvAux b) (b_done b) (b_output b) (b_estimated b)
  (b_decision b) (b_delayed b) (b_messages b) x (b_trace b).
Definition set_btrace b x := mkBba (b_cfg b) (b_proposerID b) (b_epoch b) (b_binValues b)
  (b_sentBvals b) (b_recvBval b) (b_recvAux b) (b_done b) (b_output b) (b_estimated b)
  (b_decision b) (b_delayed b) (b_messages b) (b_msgCount b) x.

(** [b.trace.recordBBA(b.proposerID, event, val, b.epoch)] *)
Definition recordTrace (b : bba) (event : bbaTraceEvent) (val : bool) (epoch : Z) : bba :=
  set_btrace b (b_trace b ++ [CallBBA (b_proposerID b) event val epoch]).

Definition addMessage (b : bba) (msg : AgreementMessage) : bba :=
  set_messages b (b_messages b ++ [msg]).

(** ** Queries *)

Definition countBvals (b : bba) (ok : bool) : Z := zsize (bvals (b_recvBval b) ok).

Definition countAllBvals (b : bba) : Z := countBvals b false + countBvals b true.

Definition hasSentBval (b : bba) (val : bool) : bool :=
  existsb (fun ok => Bool.eqb ok val) (b_sentBvals b).

(** Whether [val] was admitted: [accepted[val]]. *)
Definition accepted (b : bba) (val : bool) : bool :=
  existsb (fun v => Bool.eqb v val) (b_binValues b).

(** Number of AUX messages with an admitted value, and the admitted values
    they carry, [false] first. *)
Definition countOutputs (b : bba) : Z * list bool :=
  let valid := filter (fun kv => accepted b kv.2 = true) (b_recvAux b) in
  let seen (v : bool) := negb (size (filter (fun kv => kv.2 = v) valid) =? 0)%nat in
  (zsize valid,
   (if seen false then [false] else []) ++ (if seen true then [true] else [])).

Definition AcceptInput (b : bba) : bool :=
  (b_epoch b =? 0) && match b_estimated b with None => true | Some _ => false end.

(** Returns the output, if any, and forgets it. *)
Definition Output (b : bba) : option bool * bba :=
  match b_output b with
  | Some out => (Some out, set_output b None)
  | None => (None, b)
  end.

(** Returns the queued messages and empties the queue. *)
Definition Messages (b : bba) : list AgreementMessage * bba :=
  (b_messages b, set_messages b []).

Record BBAProgress := mkBBAProgress {
  pr_Epoch : Z; pr_BinValues : Z; pr_SentBvals : Z; pr_ReceivedBvals : Z; pr_ReceivedAux : Z;
  pr_DelayedMessages : Z; pr_Done : bool; pr_HasOutput : bool; pr_HasDecision : bool }.

Definition is_some {A} (o : option A) : bool :=
  match o with Some _ => true | None => false end.

Definition progress (b : bba) : BBAProgress :=
  mkBBAProgress (b_epoch b) (zlen (b_binValues b)) (zlen (b_sentBvals b)) (countAllBvals b)
    (zsize (b_recvAux b)) (zlen (b_delayed b)) (b_done b) (is_some (b_output b))
    (is_some (b_decision b)).

(** ** Handlers *)

(** A pending call of one of the mutually recursive handlers. *)
Inductive call :=
  | CBval (senderID : Z) (val : bool)
  | CAux (senderID : Z) (val : bool)
  | CTry
  | CMsg (senderID : Z) (msg : AgreementMessage).

(** A handler returns the new state and its [error]. *)
Abbreviation handler := (call -> bba -> go (bba * option hberror)).

Definition advanceEpoch (b : bba) : bba :=
  let b := set_recvBval (set_recvAux (set_sentBvals (set_binValues b []) []) ∅) newBvalSet in
  let b := mkBba (b_cfg b) (b_proposerID b) (u32 (b_epoch b + 1)) (b_binValues b)
    (b_sentBvals b) (b_recvBval b) (b_recvAux b) (b_done b) (b_output b) (b_estimated b)
    (b_decision b) (b_delayed b) (b_messages b) (b_msgCount b) (b_trace b) in
  recordTrace b traceBBAEpoch false (b_epoch b).

Definition handleBvalRequest (self : handler) (senderID : Z) (val : bool) (b : bba)
  : go (bba * option hberror) :=
  let b := set_recvBval b (bvals_add (b_recvBval b) val senderID) in
  let lenBval := countBvals b val in
  if lenBval =? 2 * F (b_cfg b) + 1 then
    let wasEmptyBinValues := zlen (b_binValues b) =? 0 in
    let b := set_binValues b (b_binValues b ++ [val]) in
    let b := recordTrace b traceBBAFirstBinValue val (b_epoch b) in
    if wasEmptyBinValues then
      let b := addMessage b (NewAgreementMessage (b_epoch b) (AuxRequest val)) in
      let! (b, _) := self (CAux (ID (b_cfg b)) val) b in Ret (b, None)
    else
      let! (b, _) := self CTry b in Ret (b, None)
  else if (lenBval =? F (b_cfg b) + 1) && negb (hasSentBval b val) then
    let b := set_sentBvals b (b_sentBvals b ++ [val]) in
    let b := addMessage b (NewAgreementMessage (b_epoch b) (BvalRequest val)) in
    self (CBval (ID (b_cfg b)) val) b
  else Ret (b, None).

Definition handleAuxRequest (self : handler) (senderID : Z) (val : bool) (b : bba)
  : go (bba * option hberror) :=
  let b := recordTrace b traceBBAFirstAux val (b_epoch b) in
  let b := set_recvAux b (<[senderID := val]> (b_recvAux b)) in
  let! (b, _) := self CTry b in Ret (b, None).

(** The next estimate and, when the coin confirms a sole value, the output:
    the code between [advanceEpoch] and the new epoch's BVAL. *)
Definition nextEstimate (b : bba) (values : list bool) (coin : bool) : bba :=
  match values with
  | [v] =>
    let b := set_estimated b (Some v) in
    match b_decision b with
    | None =>
      if Bool.eqb v coin then
        let b := set_decision (set_output b (Some v)) (Some v) in
        let b := recordTrace b traceBBADecision v (u32 (b_epoch b - 1)) in
        set_msgCount b 0
      else b
    | Some _ => b
    end
  | _ => set_estimated b (Some coin)
  end.

(** [advanceEpoch], the new estimate, and the broadcast of its BVAL. *)
Definition enter_epoch (b : bba) (values : list bool) (coin : bool) : bba :=
  let b := nextEstimate (advanceEpoch b) values coin in
  let estimated := default false (b_estimated b) in
  let b := set_sentBvals b (b_sentBvals b ++ [estimated]) in
  addMessage b (NewAgreementMessage (b_epoch b) (BvalRequest estimated)).

Definition tryOutputAgreement (self : handler) (b : bba) : go (bba * option hberror) :=
  if zlen (b_binValues b) =? 0 then Ret (b, None) else
  let '(lenOutputs, values) := countOutputs b in
  if lenOutputs <? N (b_cfg b) - F (b_cfg b) then Ret (b, None) else
  let b := recordTrace b traceBBAValidAuxQuorum false (b_epoch b) in
  let coin := Z.even (b_epoch b) in
  if b_done b || match b_decision b with Some d => Bool.eqb d coin | None => false end then
    let b := set_done b true in
    Ret (recordTrace b traceBBADone false (b_epoch b), None)
  else
    let b := enter_epoch b values coin in
    let! (b, _) := self (CBval (ID (b_cfg b)) (default false (b_estimated b))) b in
    (* [range b.delayedMessages] reads the slice once, before the loop. *)
    let! b := go_fold (fun b que =>
                 let! (b, _) := self (CMsg (d_sid que) (d_msg que)) b in Ret b)
               (b_delayed b) b in
    Ret (set_delayed b [], None).

Definition handleMessage (self : handler) (senderID : Z) (msg : AgreementMessage) (b : bba)
  : go (bba * option hberror) :=
  if b_done b then Ret (b, None)
  else if Epoch msg <? b_epoch b then Ret (b, None)
  else if b_epoch b <? Epoch msg then
    Ret (set_delayed b (b_delayed b ++ [mkDelayed senderID msg]), None)
  else
    match Message msg with
    | BvalRequest v => self (CBval senderID v) b
    | AuxRequest v => self (CAux senderID v) b
    | OtherAgreement => Ret (b, Some ErrUnknownBBAMessage)
    end.

Fixpoint exec (fuel : nat) (c : call) (b : bba) : go (bba * option hberror) :=
  match fuel with
  | O => NoFuel
  | S k =>
    match c with
    | CBval sid v => handleBvalRequest (exec k) sid v b
    | CAux sid v => handleAuxRequest (exec k) sid v b
    | CTry => tryOutputAgreement (exec k) b
    | CMsg sid m => handleMessage (exec k) sid m b
    end
  end.

(** ** The exported entry points *)

Definition inputValue (fuel : nat) (val : bool) (b : bba) : go (bba * option hberror) :=
  if negb (b_epoch b =? 0) || is_some (b_estimated b) then Ret (b, None)
  else
    let b := recordTrace b traceBBAInput val (b_epoch b) in
    let b := set_estimated b (Some val) in
    let b := set_sentBvals b (b_sentBvals b ++ [val]) in
    let b := addMessage b (NewAgreementMessage (b_epoch b) (BvalRequest val)) in
    exec fuel (CBval (ID (b_cfg b)) val) b.

Definition InputValue := inputValue.

Definition HandleMessage (fuel : nat) (senderID : Z) (msg : AgreementMessage) (b : bba)
  : go (bba * option hberror) :=
  exec fuel (CMsg senderID msg) (set_msgCount b (b_msgCount b + 1)).
