(* ===== verification/BbaMicro.v ===== *)
(** * BbaMicro: the BBA handlers as micro-steps over a global history

    The handlers of [Bba] are decomposed into the elementary state changes
    they perform ([micro]), each of which appends labels to a ghost history of
    what the correct nodes did.  [exec_micros] is the simulation: whatever a
    handler returns is reached by micro-steps.  The agreement and validity
    proofs of [BbaNet] are then by induction on micro-steps only. *)

From S2P Require Import Prelude Trace Messages Bba.

(** What a correct node did: broadcast BVAL or AUX in an epoch, started an
    epoch with an estimate, decided in an epoch. *)
Inductive label :=
  | LBval (e : Z) (v : bool)
  | LAux (e : Z) (v : bool)
  | LStart (e : Z) (v : bool)
  | LDecide (e : Z) (v : bool).

Abbreviation history := (list (Z * label)).

Definition by_node (p : Z) (ls : list label) : history := (fun l => (p, l)) <$> ls.

Definition msg_label (m : AgreementMessage) : option label :=
  match Message m with
  | BvalRequest v => Some (LBval (Epoch m) v)
  | AuxRequest v => Some (LAux (Epoch m) v)
  | OtherAgreement => None
  end.

(** The decision taken when leaving an epoch, as [nextEstimate] takes it. *)
Definition decide_labels (b : bba) (values : list bool) (coin : bool) : list label :=
  match values, b_decision b with
  | [v], None => if Bool.eqb v coin then [LDecide (b_epoch b) v] else []
  | _, _ => []
  end.

Definition next_estimated (values : list bool) (coin : bool) : bool :=
  match values with [v] => v | _ => coin end.

(** Changes that the agreement argument does not look at. *)
Definition quiet (b b' : bba) : Prop :=
  b_cfg b' = b_cfg b /\ b_epoch b' = b_epoch b /\ b_binValues b' = b_binValues b /\
  b_recvBval b' = b_recvBval b /\ b_recvAux b' = b_recvAux b /\
  b_estimated b' = b_estimated b /\ b_decision b' = b_decision b /\
  (b_delayed b' = b_delayed b \/ b_delayed b' = []) /\ b_messages b' = b_messages b /\
  (b_output b' = b_output b \/ b_output b' = None).

Section Micro.
(** [inp p v]: node [p] was given the input [v]. *)
Context (nodes byz : gset Z) (inp : Z -> bool -> Prop).

(** A message a node may receive from [q]: [q] is a member, and if it is
correct it did broadcast the message. *)
Definition admissible (h : history) (q : Z) (m : AgreementMessage) : Prop :=
  q ∈ nodes /\ (q ∉ byz -> exists l, msg_label m = Some l /\ (q, l) ∈ h).

Inductive micro (p : Z) : bba * history -> bba * history -> Prop :=
  | mi_quiet b b' h : quiet b b' -> micro p (b, h) (b', h)
  | mi_input b h v :
  inp p v -> b_epoch b = 0 -> b_estimated b = None ->
  micro p (b, h)
  (addMessage (set_sentBvals (set_estimated b (Some v)) (b_sentBvals b ++ [v]))
     (NewAgreementMessage (b_epoch b) (BvalRequest v)),
   by_node p [LBval 0 v; LStart 0 v] ++ h)
  | mi_recv_bval b h q v :
  admissible h q (NewAgreementMessage (b_epoch b) (BvalRequest v)) ->
  micro p (b, h) (set_recvBval b (bvals_add (b_recvBval b) v q), h)
  | mi_bin_first b h v :
  b_binValues b = [] -> 2 * F (b_cfg b) + 1 <= countBvals b v ->
  micro p (b, h)
  (addMessage (set_binValues b [v]) (NewAgreementMessage (b_epoch b) (AuxRequest v)),
   by_node p [LAux (b_epoch b) v] ++ h)
  | mi_bin_more b h v :
  b_binValues b <> [] -> 2 * F (b_cfg b) + 1 <= countBvals b v ->
  micro p (b, h) (set_binValues b (b_binValues b ++ [v]), h)
  | mi_relay b h v :
  F (b_cfg b) + 1 <= countBvals b v ->
  micro p (b, h)
  (addMessage (set_sentBvals b (b_sentBvals b ++ [v]))
     (NewAgreementMessage (b_epoch b) (BvalRequest v)),
   by_node p [LBval (b_epoch b) v] ++ h)
  | mi_recv_aux b h q v :
  admissible h q (NewAgreementMessage (b_epoch b) (AuxRequest v)) ->
  micro p (b, h) (set_recvAux b (<[q := v]> (b_recvAux b)), h)
  | mi_advance b h n values :
  countOutputs b = (n, values) -> N (b_cfg b) - F (b_cfg b) <= n ->
  let coin := Z.even (b_epoch b) in
  let est := next_estimated values coin in
  let e' := u32 (b_epoch b + 1) in
  micro p (b, h)
  (enter_epoch b values coin,
   by_node p ([LBval e' est; LStart e' est] ++ decide_labels b values coin) ++ h)
  | mi_delay b h q m :
  admissible h q m ->
  micro p (b, h) (set_delayed b (b_delayed b ++ [mkDelayed q m]), h).

Definition micros (p : Z) := rtc (micro p).

(** ** Monotonicity *)

Lemma admissible_mono h h' q m :
  (forall x, x ∈ h -> x ∈ h') -> admissible h q m -> admissible h' q m.
Proof.
  intros Hsub [Hq Hm]. split; [done|]. intros Hb. destruct (Hm Hb) as (l & ? & ?).
  eauto.
Qed.

Lemma micro_history p s s' : micro p s s' -> exists ls, s'.2 = by_node p ls ++ s.2.
Proof. destruct 1; cbn [snd]; try (by exists []); eexists; reflexivity. Qed.

Lemma micros_history p s s' : micros p s s' -> exists ls, s'.2 = by_node p ls ++ s.2.
Proof.
  induction 1 as [s|s1 s2 s3 H12 _ [ls2 IH]]; [by exists []|].
  destruct (micro_history _ _ _ H12) as [ls1 E]. exists (ls2 ++ ls1).
  rewrite IH, E. unfold by_node. by rewrite fmap_app, app_assoc.
Qed.

Lemma micros_mono p s s' x : micros p s s' -> x ∈ s.2 -> x ∈ s'.2.
Proof. intros (ls & ->)%micros_history ?. apply elem_of_app. by right. Qed.

Definition delayed_ok (s : bba * history) : Prop :=
  forall d, d ∈ b_delayed s.1 -> admissible s.2 (d_sid d) (d_msg d).

Lemma nextEstimate_delayed b vs c : b_delayed (nextEstimate b vs c) = b_delayed b.
Proof.
  destruct vs as [|v [|]]; cbn; try done. destruct (b_decision b); cbn; [done|].
  by destruct (Bool.eqb v c).
Qed.

Lemma enter_epoch_delayed b vs c : b_delayed (enter_epoch b vs c) = b_delayed b.
Proof. unfold enter_epoch. cbn. by rewrite nextEstimate_delayed. Qed.

Lemma micro_delayed_ok p s s' : micro p s s' -> delayed_ok s -> delayed_ok s'.
Proof.
  intros Hm Hd d Hin.
  assert (forall x, x ∈ s.2 -> x ∈ s'.2) as Hsub.
  { intros x. apply (micros_mono p). by apply rtc_once. }
  destruct Hm as [b b' h Hq| | | | | | |b h n vs Hc Hn coin est e'|b h q m Ha];
    cbn [fst snd] in *; try (apply (admissible_mono _ _ _ _ Hsub), Hd, Hin).
  - destruct Hq as (_ & _ & _ & _ & _ & _ & _ & [E|E] & _); rewrite E in Hin.
    + by apply Hd.
    + by apply elem_of_nil in Hin.
  - rewrite enter_epoch_delayed in Hin. by apply (admissible_mono _ _ _ _ Hsub), Hd.
  - cbn in Hin. apply elem_of_app in Hin as [Hin|Hin]; [by apply Hd|].
    apply list_elem_of_singleton in Hin as ->. done.
Qed.

Lemma micros_delayed_ok p s s' : micros p s s' -> delayed_ok s -> delayed_ok s'.
Proof. induction 1; eauto using micro_delayed_ok. Qed.

Lemma nextEstimate_cfg b vs c : b_cfg (nextEstimate b vs c) = b_cfg b.
Proof.
  destruct vs as [|v [|]]; cbn; try done. destruct (b_decision b); cbn; [done|].
  by destruct (Bool.eqb v c).
Qed.

Lemma micro_cfg p s s' : micro p s s' -> b_cfg s'.1 = b_cfg s.1.
Proof.
  destruct 1 as [b b' h Hq| | | | | | | |]; cbn; try done; [apply Hq|].
  by rewrite nextEstimate_cfg.
Qed.

Lemma micros_cfg p s s' : micros p s s' -> b_cfg s'.1 = b_cfg s.1.
Proof. induction 1 as [|???? _ IH]; [done|]. rewrite IH. by eapply micro_cfg. Qed.

(** ** The simulation *)

Definition call_ok (h : history) (c : call) (b : bba) : Prop :=
  match c with
  | CBval q v => admissible h q (NewAgreementMessage (b_epoch b) (BvalRequest v))
  | CAux q v => admissible h q (NewAgreementMessage (b_epoch b) (AuxRequest v))
  | CTry => True
  | CMsg q m => admissible h q m
  end.

(** What [exec_micros] says of one handler. *)
Definition simulates (p : Z) (self : handler) : Prop :=
  forall c b h b' err, self c b = Ret (b', err) ->
  ID (b_cfg b) = p -> call_ok h c b -> delayed_ok (b, h) ->
  exists h', micros p (b, h) (b', h').

Lemma own_admissible p h l m :
  p ∈ nodes -> msg_label m = Some l -> (p, l) ∈ h -> admissible h p m.
Proof. intros. split; eauto. Qed.

Lemma micros_step p s1 s2 s3 : micro p s1 s2 -> micros p s2 s3 -> micros p s1 s3.
Proof. apply rtc_l. Qed.

Lemma sim_call p self c b h s0 b' err :
  simulates p self -> self c b = Ret (b', err) -> ID (b_cfg s0.1) = p ->
  micros p s0 (b, h) -> call_ok h c b -> delayed_ok s0 ->
  exists h', micros p (b, h) (b', h') /\ micros p s0 (b', h').
Proof.
  intros Hsim Hr Hid H1 Hc Hd.
  destruct (Hsim _ _ h _ _ Hr) as [h' Hh'].
  - rewrite <- Hid. by rewrite <- (micros_cfg _ _ _ H1).
  - done.
  - by apply (micros_delayed_ok _ _ _ H1).
  - exists h'. split; [done|]. by etransitivity.
Qed.

Lemma sim_fold p self l : forall b h s0 b',
  simulates p self -> ID (b_cfg s0.1) = p -> micros p s0 (b, h) -> delayed_ok s0 ->
  (forall d, d ∈ l -> admissible h (d_sid d) (d_msg d)) ->
  go_fold (fun b que => let! (b, _) := self (CMsg (d_sid que) (d_msg que)) b in Ret b) l b
  = Ret b' ->
  exists h', micros p s0 (b', h').
Proof.
  induction l as [|d l IH]; intros b h s0 b' Hsim Hid H0 Hd Hl Hr; cbn in Hr.
  { simplify_eq. eauto. }
  destruct (self (CMsg (d_sid d) (d_msg d)) b) as [[b1 e1]| |] eqn:E; try done.
  cbn in Hr.
  destruct (sim_call p self (CMsg (d_sid d) (d_msg d)) b h s0 b1 e1) as (h1 & Hb & H1);
    try done; [apply Hl; by left|].
  eapply (IH b1); eauto. intros d' Hd'.
  apply (admissible_mono h); [intros x; by apply (micros_mono _ _ _ _ Hb)|].
  apply Hl. by right.
Qed.

Lemma sim_tail p self c b h s0 b' err :
  simulates p self -> self c b = Ret (b', err) -> micros p s0 (b, h) ->
  ID (b_cfg s0.1) = p -> delayed_ok s0 -> call_ok h c b ->
  exists h', micros p s0 (b', h').
Proof. intros. edestruct sim_call as (h' & _ & ?); eauto. Qed.

Lemma micros_stay p b h : exists h', micros p (b, h) (b, h').
Proof. exists h. apply rtc_refl. Qed.
#[local] Hint Resolve micros_stay : core.

Ltac is_quiet := split_and!; try reflexivity; auto.

Lemma sim_bval p self q v b h b' err :
  simulates p self -> p ∈ nodes -> ID (b_cfg b) = p ->
  admissible h q (NewAgreementMessage (b_epoch b) (BvalRequest v)) ->
  delayed_ok (b, h) -> handleBvalRequest self q v b = Ret (b', err) ->
  exists h', micros p (b, h) (b', h').
Proof.
  intros Hsim Hp Hid Ha Hd Hr. unfold handleBvalRequest in Hr.
  set (b1 := set_recvBval b (bvals_add (b_recvBval b) v q)) in *.
  assert (micros p (b, h) (b1, h)) as H1 by (by apply rtc_once, mi_recv_bval).
  destruct (Z.eqb_spec (countBvals b1 v) (2 * F (b_cfg b1) + 1)) as [Eq|Ne].
  - destruct (Z.eqb_spec (zlen (b_binValues b1)) 0) as [Hemp|Hne].
    + set (b3 := addMessage _ _) in Hr.
      destruct (self _ b3) as [[b4 e4]| |] eqn:E; try done. cbn in Hr. ret_subst Hr.
      assert (b_binValues b1 = []) as Hnil by (destruct (b_binValues b1); [done|cbn in *; lia]).
      assert (micros p (b, h) (b3, by_node p [LAux (b_epoch b) v] ++ h)) as H3.
      { etransitivity; [exact H1|].
        eapply micros_step; [apply (mi_bin_first _ b1 h v Hnil); lia|].
        apply rtc_once, mi_quiet. subst b3. rewrite Hnil. is_quiet. }
      apply (sim_tail _ _ _ _ _ _ _ _ Hsim E H3); [done|done|].
      rewrite <- Hid. cbn. rewrite Hid.
      eapply own_admissible; [done|reflexivity|]. by left.
    + set (b3 := recordTrace _ _ _ _) in Hr.
      destruct (self _ b3) as [[b4 e4]| |] eqn:E; try done. cbn in Hr. ret_subst Hr.
      assert (micros p (b, h) (b3, h)) as H3.
      { etransitivity; [exact H1|].
        eapply micros_step; [apply (mi_bin_more _ b1 h v); [|lia]|].
        - intros Hn. rewrite Hn in Hne. done.
        - apply rtc_once, mi_quiet. is_quiet. }
      by apply (sim_tail _ _ _ _ _ _ _ _ Hsim E H3).
  - destruct ((countBvals b1 v =? F (b_cfg b1) + 1) && negb (hasSentBval b1 v)) eqn:Eb.
    + apply andb_true_iff in Eb as [Eb _]. apply Z.eqb_eq in Eb.
      set (b3 := addMessage _ _) in Hr.
      assert (micros p (b, h) (b3, by_node p [LBval (b_epoch b) v] ++ h)) as H3.
      { etransitivity; [exact H1|]. apply rtc_once.
        apply (mi_relay _ b1 h v). lia. }
      apply (sim_tail _ _ _ _ _ _ _ _ Hsim Hr H3); [done|done|].
      rewrite <- Hid. cbn. rewrite Hid.
      eapply own_admissible; [done|reflexivity|]. by left.
    + ret_subst Hr. eauto.
Qed.

Lemma sim_aux p self q v b h b' err :
  simulates p self -> ID (b_cfg b) = p ->
  admissible h q (NewAgreementMessage (b_epoch b) (AuxRequest v)) ->
  delayed_ok (b, h) -> handleAuxRequest self q v b = Ret (b', err) ->
  exists h', micros p (b, h) (b', h').
Proof.
  intros Hsim Hid Ha Hd Hr. unfold handleAuxRequest in Hr.
  set (b1 := set_recvAux _ _) in Hr.
  destruct (self _ b1) as [[b4 e4]| |] eqn:E; try done. cbn in Hr. ret_subst Hr.
  assert (micros p (b, h) (b1, h)) as H1.
  { eapply micros_step; [by apply mi_recv_aux|]. apply rtc_once, mi_quiet. is_quiet. }
  by apply (sim_tail _ _ _ _ _ _ _ _ Hsim E H1).
Qed.

Lemma next_estimated_spec b vs c :
  b_estimated (nextEstimate b vs c) = Some (next_estimated vs c).
Proof.
  destruct vs as [|v [|]]; cbn; try done. destruct (b_decision b); cbn; [done|].
  by destruct (Bool.eqb v c).
Qed.

Lemma nextEstimate_epoch b vs c : b_epoch (nextEstimate b vs c) = b_epoch b.
Proof.
  destruct vs as [|v [|]]; cbn; try done. destruct (b_decision b); cbn; [done|].
  by destruct (Bool.eqb v c).
Qed.

Lemma sim_try p self b h b' err :
  simulates p self -> p ∈ nodes -> ID (b_cfg b) = p -> delayed_ok (b, h) ->
  tryOutputAgreement self b = Ret (b', err) ->
  exists h', micros p (b, h) (b', h').
Proof.
  intros Hsim Hp Hid Hd Hr. unfold tryOutputAgreement in Hr.
  destruct (Z.eqb_spec (zlen (b_binValues b)) 0) as [|Hne]; [ret_subst Hr; eauto|].
  destruct (countOutputs b) as [n vs] eqn:Hc. cbv beta iota in Hr.
  destruct (Z.ltb_spec n (N (b_cfg b) - F (b_cfg b))); [ret_subst Hr; eauto|].
  set (b1 := recordTrace b _ _ _) in Hr.
  assert (micros p (b, h) (b1, h)) as H1 by (apply rtc_once, mi_quiet; is_quiet).
  destruct (b_done b1 || _).
  { ret_subst Hr. exists h. etransitivity; [exact H1|].
    apply rtc_once, mi_quiet. is_quiet. }
  set (coin := Z.even (b_epoch b1)) in Hr.
  set (b2 := enter_epoch b1 vs coin) in Hr.
  set (est := default false (b_estimated b2)) in Hr.
  destruct (self _ b2) as [[b3 e3]| |] eqn:E; try done. cbn in Hr.
  destruct (go_fold _ (b_delayed b3) b3) as [b4| |] eqn:Ef; try done.
  cbn in Hr. ret_subst Hr.
  assert (exists h2, micros p (b, h) (b2, h2) /\
    (p, LBval (b_epoch b2) est) ∈ h2) as (h2 & H2 & Hin2).
  { eexists. split.
    - etransitivity; [exact H1|]. apply rtc_once. by apply (mi_advance _ b1 h n vs).
    - unfold est, b2, enter_epoch. cbn -[by_node].
      rewrite nextEstimate_epoch, next_estimated_spec. by left. }
  destruct (sim_tail _ _ _ _ _ _ _ _ Hsim E H2) as (h3 & H3); try done.
  { rewrite (micros_cfg _ _ _ H2 : b_cfg b2 = b_cfg b), Hid.
    by apply (own_admissible _ _ (LBval (b_epoch b2) est)). }
  destruct (sim_fold p self (b_delayed b3) b3 h3 (b, h) b4) as (h4 & H4); try done.
  { apply (micros_delayed_ok _ _ _ H3 Hd). }
  exists h4. etransitivity; [exact H4|]. apply rtc_once, mi_quiet. is_quiet.
Qed.

Lemma sim_msg p self q m b h b' err :
  simulates p self -> ID (b_cfg b) = p -> admissible h q m -> delayed_ok (b, h) ->
  handleMessage self q m b = Ret (b', err) ->
  exists h', micros p (b, h) (b', h').
Proof.
  intros Hsim Hid Ha Hd Hr. unfold handleMessage in Hr.
  destruct (b_done b); [ret_subst Hr; eauto|].
  destruct (Z.ltb_spec (Epoch m) (b_epoch b)); [ret_subst Hr; eauto|].
  destruct (Z.ltb_spec (b_epoch b) (Epoch m)).
  { ret_subst Hr. exists h. by apply rtc_once, mi_delay. }
  assert (b_epoch b = Epoch m) as He by lia.
  destruct m as [e []]; cbn in *; subst; try (by ret_subst Hr; eauto).
  - eapply Hsim; eauto.
  - eapply Hsim; eauto.
Qed.

Lemma exec_simulates p fuel : p ∈ nodes -> simulates p (exec fuel).
Proof.
  intros Hp. induction fuel as [|k IH]; intros c b h b' err Hr Hid Hc Hd; [done|].
  destruct c; cbn [exec] in Hr; cbn in Hc.
  - by eapply sim_bval.
  - by eapply sim_aux.
  - by eapply sim_try.
  - by eapply sim_msg.
Qed.

Lemma input_simulates p fuel v b h b' err :
  p ∈ nodes -> inp p v -> ID (b_cfg b) = p -> delayed_ok (b, h) ->
  inputValue fuel v b = Ret (b', err) -> exists h', micros p (b, h) (b', h').
Proof.
  intros Hp Hi Hid Hd Hr. unfold inputValue in Hr.
  destruct (Z.eqb_spec (b_epoch b) 0) as [He|]; [|cbn in Hr; ret_subst Hr; eauto].
  destruct (b_estimated b) eqn:Hest; cbn in Hr; [ret_subst Hr; eauto|].
  set (b1 := addMessage _ _) in Hr.
  assert (micros p (b, h) (b1, by_node p [LBval 0 v; LStart 0 v] ++ h)) as H1.
  { eapply micros_step; [by apply (mi_input p b h v)|]. apply rtc_once, mi_quiet. is_quiet. }
  apply (sim_tail _ _ _ _ _ _ _ _ (exec_simulates p fuel Hp) Hr H1); [done|done|].
  cbn. rewrite Hid, He. eapply own_admissible; [done|reflexivity|]. by left.
Qed.

Lemma message_simulates p fuel q m b h b' err :
  p ∈ nodes -> ID (b_cfg b) = p -> delayed_ok (b, h) -> admissible h q m ->
  HandleMessage fuel q m b = Ret (b', err) -> exists h', micros p (b, h) (b', h').
Proof.
  intros Hp Hid Hd Ha Hr. unfold HandleMessage in Hr.
  assert (micros p (b, h) (set_msgCount b (b_msgCount b + 1), h)) as H1.
  { apply rtc_once, mi_quiet. is_quiet. }
  by apply (sim_tail _ _ _ _ _ _ _ _ (exec_simulates p fuel Hp) Hr H1).
Qed.

(** ** What micro-steps send *)

Lemma nextEstimate_messages b vs c : b_messages (nextEstimate b vs c) = b_messages b.
Proof.
  destruct vs as [|v [|]]; cbn; try done. destruct (b_decision b); cbn; [done|].
  by destruct (Bool.eqb v c).
Qed.

(** [ms] are the messages a node queued while the history grew from [h] to [h']. *)
Definition sent_by (p : Z) (h h' : history) (ms : list AgreementMessage) : Prop :=
  (forall m, m ∈ ms -> exists l, msg_label m = Some l /\ (p, l) ∈ h') /\
  zlen h' <= zlen h + 3 * zlen ms.

Lemma micro_messages p s s' :
  micro p s s' ->
  exists ms, b_messages s'.1 = b_messages s.1 ++ ms /\ sent_by p s.2 s'.2 ms.
Proof.
  assert (forall h, sent_by p h h []) as Hnil.
  { intros h. split; [by intros m ?%elem_of_nil|]. cbn. lia. }
  assert (forall h m l ls, msg_label m = Some l -> (length ls <= 2)%nat ->
    sent_by p h (by_node p (l :: ls) ++ h) [m]) as Hone.
  { intros h m l ls Hm Hls. split.
    - intros m' ->%list_elem_of_singleton. exists l. split; [done|]. by left.
    - rewrite length_app. unfold by_node. rewrite length_fmap. cbn. lia. }
  destruct 1 as [b b' h Hq|b h v Hi He|b h q v|b h v|b h v|b h v|b h q v|b h k vs|b h q m];
    cbn [fst snd].
  1: { destruct Hq as (_ & _ & _ & _ & _ & _ & _ & _ & E & _). exists [].
    rewrite app_nil_r. by split. }
  7: { eexists [_]. split.
    - unfold enter_epoch. cbn -[nextEstimate]. rewrite nextEstimate_messages.
      reflexivity.
    - cbn -[nextEstimate by_node sent_by]. rewrite nextEstimate_epoch, next_estimated_spec.
      apply Hone; [done|]. unfold decide_labels. destruct vs as [|v [|]]; cbn; try lia.
      destruct (b_decision b); cbn; [lia|]. destruct (Bool.eqb _ _); cbn; lia. }
  2,4,6,7: exists []; rewrite app_nil_r; by split.
  all: eexists [_]; split; [reflexivity|]; apply Hone; cbn; [congruence|lia].
Qed.

Lemma micros_messages p s s' :
  micros p s s' ->
  exists ms, b_messages s'.1 = b_messages s.1 ++ ms /\ sent_by p s.2 s'.2 ms.
Proof.
  induction 1 as [s|s1 s2 s3 H12 H23 (ms2 & E2 & Hs2 & Hl2)].
  - exists []. rewrite app_nil_r. split; [done|]. split; [by intros m ?%elem_of_nil|].
    cbn. lia.
  - destruct (micro_messages _ _ _ H12) as (ms1 & E1 & Hs1 & Hl1).
    exists (ms1 ++ ms2). rewrite E2, E1, app_assoc. split; [done|]. split.
    + intros m [Hm|Hm]%elem_of_app; [|by apply Hs2].
      destruct (Hs1 m Hm) as (l & ? & ?). exists l. split; [done|].
      by apply (micros_mono p s2).
    + rewrite length_app. lia.
Qed.
End Micro.
