(* ===== verification/BbaInv.v ===== *)
(** * BbaInv: the invariant behind BBA agreement

    A local invariant per correct node ([Local]) and an invariant of the
    history alone ([Global]): correct nodes send one AUX per epoch, every BVAL
    of a correct node was some correct node's estimate of that epoch, every
    estimate after the first is justified by a quorum, and every decision by a
    quorum and the coin.  Both are preserved by every micro-step. *)

From S2P Require Import Prelude Trace Messages Bba BbaMicro.

Section Invariant.
Context (nodes byz : gset Z) (inp : Z -> bool -> Prop) (n f : Z).
Context (Hnodes : zsize nodes = n) (Hbyz : zsize byz <= f) (Hf : 0 <= f) (Hn : 3 * f < n).

(** ** Facts about a history *)

(** Some correct node broadcast BVAL [v] in epoch [e]. *)
Definition Voted (h : history) (e : Z) (v : bool) : Prop :=
  exists q, q ∉ byz /\ (q, LBval e v) ∈ h.

(** [N - F] nodes whose correct members all broadcast AUX [v] in epoch [e]. *)
Definition Quorum (h : history) (e : Z) (v : bool) : Prop :=
  exists A : gset Z, A ⊆ nodes /\ n - f <= zsize A /\
  forall q, q ∈ A -> q ∉ byz -> (q, LAux e v) ∈ h.

Definition Sole h e v := Voted h e v /\ Quorum h e v.
Definition Mixed h e := Voted h e false /\ Voted h e true.

(** Why a node may start epoch [e] with estimate [v]. *)
Definition start_ok (h : history) (e : Z) (v : bool) : Prop :=
  e = 0 \/ (0 < e /\ (Sole h (e - 1) v \/ (Mixed h (e - 1) /\ v = Z.even (e - 1)))).

Record Global (h : history) : Prop := {
  G_aux : forall p e v w, p ∉ byz -> (p, LAux e v) ∈ h -> (p, LAux e w) ∈ h -> v = w;
  G_bval : forall p e v, p ∉ byz -> (p, LBval e v) ∈ h ->
  exists q, q ∉ byz /\ (q, LStart e v) ∈ h;
  G_start : forall p e v, p ∉ byz -> (p, LStart e v) ∈ h -> start_ok h e v;
  G_input : forall p v, p ∉ byz -> (p, LStart 0 v) ∈ h -> inp p v;
  G_decide : forall p e v, p ∉ byz -> (p, LDecide e v) ∈ h ->
  0 <= e /\ Sole h e v /\ v = Z.even e }.

Record Local (p : Z) (b : bba) (h : history) : Prop := {
  L_n : N (b_cfg b) = n;
  L_f : F (b_cfg b) = f;
  L_id : ID (b_cfg b) = p;
  L_epoch : 0 <= b_epoch b <= zlen h;
  L_bval : forall v q, q ∈ bvals (b_recvBval b) v ->
  q ∈ nodes /\ (q ∉ byz -> (q, LBval (b_epoch b) v) ∈ h);
  L_aux : forall q v, b_recvAux b !! q = Some v ->
  q ∈ nodes /\ (q ∉ byz -> (q, LAux (b_epoch b) v) ∈ h);
  L_bin : forall v, v ∈ b_binValues b -> 2 * f + 1 <= countBvals b v;
  L_noaux : b_binValues b = [] -> forall v, (p, LAux (b_epoch b) v) ∉ h;
  L_future : forall e v, b_epoch b < e -> (p, LAux e v) ∉ h;
  L_dec : forall v, b_decision b = Some v -> exists e, (p, LDecide e v) ∈ h;
  L_out : forall v, b_output b = Some v -> b_decision b = Some v;
  L_delayed : delayed_ok nodes byz (b, h) }.

Lemma elem_of_by_node q l p ls h :
  (q, l) ∈ by_node p ls ++ h <-> (q = p /\ l ∈ ls) \/ (q, l) ∈ h.
Proof.
  unfold by_node. rewrite elem_of_app, list_elem_of_fmap. split; intros [H|H]; eauto.
  - destruct H as (l' & [= -> ->] & ?). eauto.
  - destruct H as [-> ?]. left. eauto.
Qed.

Section Mono.
Context (h h' : history) (Hsub : forall x, x ∈ h -> x ∈ h').

Lemma Voted_mono e v : Voted h e v -> Voted h' e v.
Proof. intros (q & ? & ?). exists q. auto. Qed.

Lemma Quorum_mono e v : Quorum h e v -> Quorum h' e v.
Proof. intros (A & ? & ? & HA). exists A. eauto. Qed.

Lemma Sole_mono e v : Sole h e v -> Sole h' e v.
Proof. intros []. split; [by apply Voted_mono|by apply Quorum_mono]. Qed.

Lemma start_ok_mono e v : start_ok h e v -> start_ok h' e v.
Proof.
  intros [->|(? & [?|[[] ->]])]; [by left|right..]; (split; [done|]).
  - left. by apply Sole_mono.
  - right. split; [|done]. split; by apply Voted_mono.
Qed.
End Mono.

(** New labels keep [Global] when each is justified. *)
Lemma Global_extend p ls h :
  p ∉ byz -> Global h ->
  (forall e v w, LAux e v ∈ ls -> LAux e w ∈ ls \/ (p, LAux e w) ∈ h -> v = w) ->
  (forall e v, LBval e v ∈ ls ->
  exists q, q ∉ byz /\ (q, LStart e v) ∈ by_node p ls ++ h) ->
  (forall e v, LStart e v ∈ ls -> start_ok h e v /\ (e = 0 -> inp p v)) ->
  (forall e v, LDecide e v ∈ ls -> 0 <= e /\ Sole h e v /\ v = Z.even e) ->
  Global (by_node p ls ++ h).
Proof.
  intros Hp [Ga Gb Gs Gi Gd] Haux Hbval Hstart Hdec.
  assert (forall x, x ∈ h -> x ∈ by_node p ls ++ h) as Hsub
    by (intros; apply elem_of_app; by right).
  split; [intros p' e v..| |intros p' e v].
  - intros w Hp' Hv Hw. rewrite elem_of_by_node in Hv, Hw.
    destruct Hv as [[-> Hv]|Hv], Hw as [[Hpp Hw]|Hw]; subst; eauto.
    symmetry. eauto.
  - intros Hp' Hv. rewrite elem_of_by_node in Hv. destruct Hv as [[-> Hv]|Hv]; [eauto|].
    destruct (Gb _ _ _ Hp' Hv) as (q & ? & ?). eauto.
  - intros Hp' Hv. rewrite elem_of_by_node in Hv.
    apply (start_ok_mono h); [done|]. destruct Hv as [[-> Hv]|Hv]; [|by eapply Gs].
    by apply Hstart.
  - intros p' v Hp' Hv. rewrite elem_of_by_node in Hv.
    destruct Hv as [[-> Hv]|Hv]; [by eapply Hstart|by apply Gi].
  - intros Hp' Hv. rewrite elem_of_by_node in Hv.
    assert (0 <= e /\ Sole h e v /\ v = Z.even e) as (? & ? & ?)
      by (destruct Hv as [[-> Hv]|Hv]; eauto).
    split_and!; [done| |done]. by apply (Sole_mono h).
Qed.

(** Labels of others, and labels that are no AUX, keep [Local]. *)
Lemma Local_extend q p b ls h :
  Local q b h -> (q = p -> forall e v, LAux e v ∉ ls) -> Local q b (by_node p ls ++ h).
Proof.
  intros [] Hls.
  assert (forall x, x ∈ h -> x ∈ by_node p ls ++ h) as Hsub
    by (intros; apply elem_of_app; by right).
  split; try done.
  - rewrite length_app. lia.
  - intros v q' Hq. destruct (L_bval0 _ _ Hq). split; auto.
  - intros q' v Hq. destruct (L_aux0 _ _ Hq). split; auto.
  - intros Hb v. rewrite elem_of_by_node. intros [[-> Hin]|Hin].
    + by eapply Hls.
    + by eapply L_noaux0.
  - intros e v He. rewrite elem_of_by_node. intros [[-> Hin]|Hin].
    + by eapply Hls.
    + by eapply L_future0.
  - intros v Hd. destruct (L_dec0 v Hd) as [e ?]. eauto.
  - intros d Hd. apply (admissible_mono _ _ h); [done|]. by apply L_delayed0.
Qed.

(** ** Reading the counters of one node *)

Lemma bvals_voted p b h v :
  Local p b h -> f + 1 <= countBvals b v -> Voted h (b_epoch b) v.
Proof.
  intros HL Hc. unfold countBvals in Hc.
  destruct (quorum_correct byz f Hbyz (bvals (b_recvBval b) v)) as (q & Hq & Hc'); [lia|].
  destruct (L_bval _ _ _ HL _ _ Hq). exists q. auto.
Qed.

Lemma accepted_spec b v : accepted b v = true <-> v ∈ b_binValues b.
Proof.
  unfold accepted. rewrite existsb_exists. setoid_rewrite <- list_elem_of_In.
  split; [intros (x & ? & ->%eqb_prop); done|]. intros. exists v.
  by rewrite Bool.eqb_reflx.
Qed.

Definition validAux (b : bba) : gmap Z bool :=
  filter (fun kv => accepted b kv.2 = true) (b_recvAux b).

Lemma validAux_spec b q v :
  validAux b !! q = Some v <-> b_recvAux b !! q = Some v /\ v ∈ b_binValues b.
Proof. unfold validAux. rewrite map_lookup_filter_Some, <- accepted_spec. done. Qed.

Lemma seen_spec (m : gmap Z bool) v :
  negb (size (filter (fun kv => kv.2 = v) m) =? 0)%nat = true <->
  exists q, m !! q = Some v.
Proof.
  rewrite negb_true_iff, Nat.eqb_neq. split.
  - intros Hs. destruct (map_choose (filter (fun kv => kv.2 = v) m)) as (q & x & Hq).
    { intros E. by rewrite E in Hs. }
    apply map_lookup_filter_Some in Hq as [Hq E]. cbn in E. subst. eauto.
  - intros [q Hq] Hs. apply map_size_empty_iff in Hs.
    assert (filter (fun kv : Z * bool => kv.2 = v) m !! q = Some v) as Hl
      by (by apply map_lookup_filter_Some).
    by rewrite Hs in Hl.
Qed.

Lemma seen_false (m : gmap Z bool) v q w :
  negb (size (filter (fun kv => kv.2 = v) m) =? 0)%nat = false -> m !! q = Some w -> w = negb v.
Proof.
  intros Hs Hq. destruct (decide (w = v)) as [->|Hne].
  - rewrite <- not_true_iff_false in Hs. destruct Hs. apply seen_spec. eauto.
  - by destruct w, v.
Qed.

Lemma quorum_of p b h v :
  Local p b h -> n - f <= zsize (validAux b) ->
  (forall q w, validAux b !! q = Some w -> w = v) ->
  (exists q, validAux b !! q = Some v) -> Sole h (b_epoch b) v.
Proof.
  intros HL Hc Hall [q0 Hq0]. apply validAux_spec in Hq0 as [_ Hbin].
  split.
  - apply (bvals_voted p); [done|]. pose proof (L_bin _ _ _ HL v Hbin). lia.
  - exists (dom (validAux b)). split_and!.
    + intros q (w & [Hq _]%validAux_spec)%elem_of_dom.
      apply (proj1 (L_aux _ _ _ HL q w Hq)).
    + by rewrite size_dom.
    + intros q (w & Hq)%elem_of_dom Hcor. pose proof (Hall _ _ Hq) as ->.
      apply validAux_spec in Hq as [Hq _]. by apply (proj2 (L_aux _ _ _ HL q v Hq)).
Qed.

Lemma voted_seen p b h v :
  Local p b h -> (exists q, validAux b !! q = Some v) -> Voted h (b_epoch b) v.
Proof.
  intros HL (q & (_ & Hbin)%validAux_spec). apply (bvals_voted p); [done|].
  pose proof (L_bin _ _ _ HL v Hbin). lia.
Qed.

Lemma countOutputs_spec p b h k vs :
  Local p b h -> countOutputs b = (k, vs) -> n - f <= k ->
  (exists v, vs = [v] /\ Sole h (b_epoch b) v) \/
  (vs = [false; true] /\ Mixed h (b_epoch b)).
Proof.
  intros HL Hc Hk. unfold countOutputs in Hc. fold (validAux b) in Hc.
  injection Hc as <- <-.
  destruct (negb (size (filter (fun kv => kv.2 = false) (validAux b)) =? 0)%nat) eqn:E0;
    destruct (negb (size (filter (fun kv => kv.2 = true) (validAux b)) =? 0)%nat) eqn:E1;
    cbn [app].
  - right. split; [done|]. split; apply (voted_seen p); auto; by apply seen_spec.
  - left. exists false. split; [done|]. apply (quorum_of p); auto.
    + intros q w Hq. by apply (seen_false _ _ _ _ E1 Hq).
    + by apply seen_spec.
  - left. exists true. split; [done|]. apply (quorum_of p); auto.
    + intros q w Hq. by apply (seen_false _ _ _ _ E0 Hq).
    + by apply seen_spec.
  - exfalso. assert (validAux b = ∅) as He.
    { apply map_empty. intros q. destruct (validAux b !! q) as [w|] eqn:Hq; [|done].
      pose proof (seen_false _ _ _ _ E0 Hq). pose proof (seen_false _ _ _ _ E1 Hq).
      by subst w. }
    rewrite He, map_size_empty in Hk. lia.
Qed.

(** ** Preservation *)

Lemma nextEstimate_frame b vs c :
  let b' := nextEstimate b vs c in
  b_recvBval b' = b_recvBval b /\ b_recvAux b' = b_recvAux b /\
  b_binValues b' = b_binValues b /\ b_epoch b' = b_epoch b.
Proof.
  destruct vs as [|v [|]]; cbn; try done. destruct (b_decision b); cbn; [done|].
  by destruct (Bool.eqb v c).
Qed.

Lemma nextEstimate_decision b vs c :
  b_decision (nextEstimate b vs c) = b_decision b /\
  b_output (nextEstimate b vs c) = b_output b \/
  exists v, vs = [v] /\ b_decision b = None /\ v = c /\
  b_decision (nextEstimate b vs c) = Some v /\ b_output (nextEstimate b vs c) = Some v.
Proof.
  destruct vs as [|v [|]]; cbn; try (by left).
  destruct (b_decision b) eqn:Ed; cbn; [left; by rewrite Ed|].
  destruct (Bool.eqb v c) eqn:Ev; cbn; [|left; by rewrite Ed].
  apply eqb_prop in Ev. right. exists v. done.
Qed.

(** Proves [Local] of a state that differs in fields the goal simplifies away. *)
Ltac keep_local HL :=
  let H := fresh in pose proof HL as H; destruct H; split; cbn; eauto.

(** Cases of membership in an explicit list of labels. *)
Ltac by_labels :=
  repeat match goal with
  | H : _ ∈ _ ++ _ |- _ => apply elem_of_app in H as [H|H]
  | H : _ ∈ _ :: _ |- _ => apply elem_of_cons in H as [H|H]
  | H : _ ∈ [] |- _ => by apply elem_of_nil in H
  end; simplify_eq.

Lemma decide_labels_spec b vs c l :
  l ∈ decide_labels b vs c -> exists v, l = LDecide (b_epoch b) v /\ v = c /\ vs = [v].
Proof.
  unfold decide_labels. intros Hl. destruct vs as [|v [|]]; [by_labels| |by_labels].
  destruct (b_decision b); [by_labels|].
  destruct (Bool.eqb v c) eqn:Ev; [|by_labels]. by_labels. apply eqb_prop in Ev. eauto.
Qed.

Lemma advance_global p b h k vs :
  p ∉ byz -> Local p b h -> Global h -> b_epoch b + 1 < 2 ^ 32 ->
  countOutputs b = (k, vs) -> n - f <= k ->
  let coin := Z.even (b_epoch b) in
  let est := next_estimated vs coin in
  let e' := u32 (b_epoch b + 1) in
  Global (by_node p ([LBval e' est; LStart e' est] ++ decide_labels b vs coin) ++ h).
Proof.
  intros Hp HL HG Hb Hc Hk coin est e'. pose proof (L_epoch _ _ _ HL) as He.
  assert (e' = b_epoch b + 1) as He' by (apply u32_small; lia).
  assert (start_ok h e' est) as Hst.
  { right. split; [lia|]. rewrite He'. replace (b_epoch b + 1 - 1) with (b_epoch b) by lia.
    destruct (countOutputs_spec _ _ _ _ _ HL Hc Hk) as [(v & -> & Hs)|(-> & Hm)].
    - by left.
    - by right. }
  apply Global_extend; try done.
  - intros e v w Hin _. by_labels. by apply decide_labels_spec in Hin as (? & ? & _).
  - intros e v Hin. exists p. split; [done|]. apply elem_of_by_node. left. split; [done|].
    by_labels; [by right; left|]. by apply decide_labels_spec in Hin as (? & ? & _).
  - intros e v Hin. by_labels; [split; [done|lia]|]. by apply decide_labels_spec in Hin as (? & ? & _).
  - intros e v Hin. by_labels. apply decide_labels_spec in Hin as (w & [= -> ->] & Hw & Hvs).
    split_and!; [lia| |done].
    destruct (countOutputs_spec _ _ _ _ _ HL Hc Hk) as [(v' & E & Hs)|(E & _)];
      rewrite Hvs in E; by simplify_eq.
Qed.

Lemma advance_local p b h k vs :
  Local p b h -> b_epoch b + 1 < 2 ^ 32 ->
  countOutputs b = (k, vs) -> n - f <= k ->
  let coin := Z.even (b_epoch b) in
  let est := next_estimated vs coin in
  let e' := u32 (b_epoch b + 1) in
  Local p (enter_epoch b vs coin)
  (by_node p ([LBval e' est; LStart e' est] ++ decide_labels b vs coin) ++ h).
Proof.
  intros HL Hb Hc Hk coin est e'. pose proof (L_epoch _ _ _ HL) as He.
  assert (e' = b_epoch b + 1) as He' by (apply u32_small; lia).
  assert (b_epoch (enter_epoch b vs coin) = e') as Hee.
  { unfold enter_epoch. cbn. by rewrite nextEstimate_epoch. }
  assert (forall e v, LAux e v ∉ [LBval e' est; LStart e' est] ++ decide_labels b vs coin)
    as Hnoaux.
  { intros e v Hin. by_labels. by apply decide_labels_spec in Hin as (? & ? & _). }
  pose proof (Local_extend p p b _ h HL (fun _ => Hnoaux)) as HL'. clear Hnoaux.
  set (ls := [LBval e' est; LStart e' est] ++ decide_labels b vs coin) in *.
  destruct (nextEstimate_frame (advanceEpoch b) vs coin) as (E1 & E2 & E3 & E4).
  split.
  - unfold enter_epoch. cbn. rewrite nextEstimate_cfg. apply HL.
  - unfold enter_epoch. cbn. rewrite nextEstimate_cfg. apply HL.
  - unfold enter_epoch. cbn. rewrite nextEstimate_cfg. apply HL.
  - rewrite Hee, He', length_app. unfold by_node. rewrite length_fmap. cbn. lia.
  - unfold enter_epoch. cbn. rewrite E1. cbn. intros [] q; cbn; set_solver.
  - unfold enter_epoch. cbn. rewrite E2. cbn. intros q v. by rewrite lookup_empty.
  - unfold enter_epoch. cbn. rewrite E3. cbn. intros v Hv. by apply elem_of_nil in Hv.
  - intros _ v. rewrite Hee. apply (L_future _ _ _ HL'). lia.
  - intros e v Hlt. apply (L_future _ _ _ HL'). lia.
  - intros v Hv. unfold enter_epoch in Hv. cbn in Hv.
    destruct (nextEstimate_decision (advanceEpoch b) vs coin)
      as [[Ed _]|(w & -> & Hnone & -> & Hd & _)].
    + rewrite Ed in Hv. by apply (L_dec _ _ _ HL').
    + rewrite Hd in Hv. injection Hv as <-. exists (b_epoch b).
      apply elem_of_by_node. left. split; [done|]. subst ls. apply elem_of_app. right.
      unfold decide_labels. cbn in Hnone. rewrite Hnone, Bool.eqb_reflx. by left.
  - intros v Hv. unfold enter_epoch in *. cbn in *.
    destruct (nextEstimate_decision (advanceEpoch b) vs coin)
      as [[Ed Eo]|(w & -> & Hnone & -> & Hd & Ho)].
    + rewrite Eo in Hv. rewrite Ed. by apply (L_out _ _ _ HL).
    + by rewrite Hd, <- Ho, Hv.
  - intros d Hd. change (d ∈ b_delayed (enter_epoch b vs coin)) in Hd.
    rewrite enter_epoch_delayed in Hd. by apply (L_delayed _ _ _ HL').
Qed.

Lemma countBvals_mono b v w q : countBvals b v <=
  countBvals (set_recvBval b (bvals_add (b_recvBval b) w q)) v.
Proof.
  unfold countBvals. cbn. apply Nat2Z.inj_le, subseteq_size.
  destruct v, w; cbn; set_solver.
Qed.

Lemma elem_of_bvals_add s v w q x :
  x ∈ bvals (bvals_add s w q) v <-> (x = q /\ v = w) \/ x ∈ bvals s v.
Proof. destruct v, w; cbn; set_solver. Qed.

(** A history grown by labels of which none is an AUX. *)
Lemma labels_good p b ls h :
  p ∉ byz -> Local p b h -> Global h ->
  (forall e v, LAux e v ∉ ls) -> (forall e v, LDecide e v ∉ ls) ->
  (forall e v, LBval e v ∈ ls -> exists q, q ∉ byz /\ (q, LStart e v) ∈ by_node p ls ++ h) ->
  (forall e v, LStart e v ∈ ls -> e = 0 /\ inp p v) ->
  Local p b (by_node p ls ++ h) /\ Global (by_node p ls ++ h).
Proof.
  intros Hp HL HG Ha Hd Hb Hs. split; [by apply Local_extend|].
  apply Global_extend; try done.
  - intros e v w Hin. by apply Ha in Hin.
  - intros e v Hin. destruct (Hs _ _ Hin). split; [by left|done].
  - intros e v Hin. by apply Hd in Hin.
Qed.

Lemma micro_quiet_good p b b' h : quiet b b' -> Local p b h -> Local p b' h.
Proof.
  intros (E1 & E2 & E3 & E4 & E5 & E6 & E7 & E8 & E9 & E10) HL.
  pose proof HL as []. split; rewrite ?E1, ?E2, ?E3, ?E4, ?E5, ?E7; try done.
  - intros v Hv. unfold countBvals. rewrite E4. by apply L_bin0.
  - intros v Hv. destruct E10 as [E|E]; rewrite E in Hv; [|done]. by apply L_out0.
  - intros d Hd. cbn in Hd. destruct E8 as [E|E]; rewrite E in Hd.
    + by apply L_delayed0.
    + by apply elem_of_nil in Hd.
Qed.

Lemma micro_bin_first_good p b h v :
  p ∉ byz -> Local p b h -> Global h ->
  b_binValues b = [] -> 2 * F (b_cfg b) + 1 <= countBvals b v ->
  let b' := addMessage (set_binValues b [v])
          (NewAgreementMessage (b_epoch b) (AuxRequest v)) in
  let h' := by_node p [LAux (b_epoch b) v] ++ h in
  Local p b' h' /\ Global h'.
Proof.
  intros Hp HL HG Hbin Hc b' h'. pose proof HL as []. split.
  - split; cbn; try done.
    + lia.
    + intros w x Hx. destruct (L_bval0 _ _ Hx). split; [done|]. right. auto.
    + intros x w Hx. destruct (L_aux0 _ _ Hx). split; [done|]. right. auto.
    + intros w ->%list_elem_of_singleton. by rewrite <- L_f0.
    + intros e w Hlt [[= -> ->]|Hin]%elem_of_cons; [lia|]. by eapply L_future0.
    + intros w Hw. destruct (L_dec0 w Hw) as [e ?]. exists e. by right.
    + intros d Hd. apply (admissible_mono _ _ h); [intros; by right|]. by apply L_delayed0.
  - apply Global_extend; try done.
    + intros e w w' Hin [Hin'|Hin']; by_labels; [done|]. by apply (L_noaux0 Hbin) in Hin'.
    + intros e w Hin. by_labels.
    + intros e w Hin. by_labels.
    + intros e w Hin. by_labels.
Qed.

Lemma micro_recv_good p b h q v :
  Local p b h ->
  (admissible nodes byz h q (NewAgreementMessage (b_epoch b) (BvalRequest v)) ->
  Local p (set_recvBval b (bvals_add (b_recvBval b) v q)) h) /\
  (admissible nodes byz h q (NewAgreementMessage (b_epoch b) (AuxRequest v)) ->
  Local p (set_recvAux b (<[q := v]> (b_recvAux b))) h).
Proof.
  intros HL. split; intros [Hqn Hqc]; keep_local HL.
  - intros w x. rewrite elem_of_bvals_add. intros [[-> ->]|Hx]; [|by apply L_bval0].
    split; [done|]. intros Hb. by destruct (Hqc Hb) as (l & [= <-] & ?).
  - intros w Hw. etransitivity; [by apply L_bin0|]. by apply countBvals_mono.
  - intros x w. destruct (decide (q = x)) as [->|Hne].
    + rewrite lookup_insert_eq. intros [= ->]. split; [done|]. intros Hb.
      by destruct (Hqc Hb) as (l & [= <-] & ?).
    + rewrite lookup_insert_ne by done. by apply L_aux0.
Qed.

Lemma micro_good p s s' :
  p ∉ byz -> micro nodes byz inp p s s' -> zlen s'.2 < 2 ^ 32 ->
  Local p s.1 s.2 -> Global s.2 -> Local p s'.1 s'.2 /\ Global s'.2.
Proof.
  intros Hp Hm. destruct Hm as [b b' h Hq|b h v Hi He Hest|b h q v Ha|b h v Hbin Hc|
    b h v Hbin Hc|b h v Hc|b h q v Ha|b h k vs Hc Hk coin est e'|b h q m Ha];
    cbn [fst snd]; intros Hlen HL HG.
  - split; [by eapply micro_quiet_good|done].
  - destruct (labels_good p b [LBval 0 v; LStart 0 v] h) as [HL' HG']; try done.
    + intros e w Hin. by_labels.
    + intros e w Hin. by_labels.
    + intros e w Hin. exists p. split; [done|]. apply elem_of_by_node. left.
      by_labels. split; [done|]. right. by left.
    + intros e w Hin. by by_labels.
    + split; [|done]. by keep_local HL'.
  - split; [|done]. by apply micro_recv_good.
  - by apply micro_bin_first_good.
  - split; [|done]. keep_local HL.
    + intros w. rewrite elem_of_app. intros [Hw|Hw]; [by apply L_bin0|].
      apply list_elem_of_singleton in Hw as ->. by rewrite <- L_f0.
    + intros E. by apply app_nil in E as [? _].
  - destruct (labels_good p b [LBval (b_epoch b) v] h) as [HL' HG']; try done.
    + intros e w Hin. by_labels.
    + intros e w Hin. by_labels.
    + intros e w Hin. by_labels. rewrite (L_f _ _ _ HL) in Hc.
      destruct (bvals_voted _ _ _ _ HL Hc) as (q & Hq & Hin).
      destruct (G_bval _ HG _ _ _ Hq Hin) as (r & ? & ?). exists r. split; [done|]. by right.
    + intros e w Hin. by_labels.
    + split; [|done]. by keep_local HL'.
  - split; [|done]. by apply micro_recv_good.
  - rewrite (L_n _ _ _ HL), (L_f _ _ _ HL) in Hk.
    assert (b_epoch b + 1 < 2 ^ 32).
    { pose proof (L_epoch _ _ _ HL). rewrite length_app in Hlen. cbn in Hlen. lia. }
    split; [by eapply advance_local|by eapply advance_global].
  - split; [|done]. keep_local HL. intros d [Hd|Hd]%elem_of_app; [by apply L_delayed0|].
    by apply list_elem_of_singleton in Hd as ->.
Qed.

Lemma micros_good p s s' :
  p ∉ byz -> micros nodes byz inp p s s' -> zlen s'.2 < 2 ^ 32 ->
  Local p s.1 s.2 -> Global s.2 -> Local p s'.1 s'.2 /\ Global s'.2.
Proof.
  intros Hp. induction 1 as [s|s1 s2 s3 H12 H23 IH]; [done|].
  intros Hlen HL HG.
  assert (zlen s2.2 <= zlen s3.2) as Hle.
  { destruct (micros_history _ _ _ _ _ _ H23) as [ls ->]. rewrite length_app. lia. }
  destruct (micro_good p s1 s2) as [? ?]; try done; [lia|]. by apply IH.
Qed.
End Invariant.
