(* ===== verification/BbaNet.v ===== *)
(** * BbaNet: agreement and validity of the BBA over a Byzantine network

    A network state is the correct nodes' BBA records, the set of messages
    they have put on the wire, and the inputs they were given.  A step runs
    one exported entry point of [Bba] on one correct node and drains its
    queue; a message is delivered from any member, in any order, any number of
    times, and a faulty member may send anything to anyone. *)

From S2P Require Import Prelude Trace Messages Bba BbaMicro BbaInv.

(** ** Consequences of the global invariant *)

Section Consequences.
Context (nodes byz : gset Z) (inp : Z -> bool -> Prop) (n f : Z).
Context (Hnodes : zsize nodes = n) (Hbyz : zsize byz <= f) (Hf : 0 <= f) (Hn : 3 * f < n).
Context (h : history) (HG : Global nodes byz inp n f h).

Abbreviation Started := (fun e v => exists p, p ∉ byz /\ (p, LStart e v) ∈ h).

Lemma voted_started e v : Voted byz h e v -> Started e v.
Proof. intros (q & Hq & Hin). by apply (G_bval _ _ _ _ _ _ HG _ _ _ Hq Hin). Qed.

Lemma sole_agree e v w :
  Sole nodes byz n f h e v -> Sole nodes byz n f h e w -> v = w.
Proof.
  intros [_ (A & HA & Hsa & Hqa)] [_ (B & HB & Hsb & Hqb)].
  destruct (quorum_meet nodes byz f Hbyz A B HA HB) as (q & ? & ? & Hc); [lia|].
  apply (G_aux _ _ _ _ _ _ HG q e v w); auto.
Qed.

(** Once a value is decided in an epoch, later estimates are that value. *)
Lemma locked (k : nat) e v w :
  Sole nodes byz n f h e v -> v = Z.even e -> 0 <= e ->
  Started (e + 1 + Z.of_nat k) w -> w = v.
Proof.
  intros Hs Hv He. revert w. induction k as [|k IH]; intros w (p & Hp & Hin);
    destruct (G_start _ _ _ _ _ _ HG _ _ _ Hp Hin) as [|(_ & Hok)]; [lia| |lia|].
  - replace (e + 1 + Z.of_nat 0 - 1) with e in Hok by lia.
    destruct Hok as [Hw|[_ Hw]]; [by apply (sole_agree e)|by subst].
  - replace (e + 1 + Z.of_nat (S k) - 1) with (e + 1 + Z.of_nat k) in Hok by lia.
    destruct Hok as [[Hw _]|[[H0 H1] _]].
    + apply IH. by apply voted_started.
    + pose proof (IH false (voted_started _ _ H0)).
      pose proof (IH true (voted_started _ _ H1)). congruence.
Qed.

Lemma decided_agree_le p q e e' v w :
  p ∉ byz -> q ∉ byz -> (p, LDecide e v) ∈ h -> (q, LDecide e' w) ∈ h -> e <= e' -> w = v.
Proof.
  intros Hp Hq Hv Hw Hle.
  destruct (G_decide _ _ _ _ _ _ HG _ _ _ Hp Hv) as (He & Hs & Hc).
  destruct (G_decide _ _ _ _ _ _ HG _ _ _ Hq Hw) as (He' & Hs' & Hc').
  destruct (decide (e = e')) as [->|Hne]; [congruence|].
  apply (locked (Z.to_nat (e' - e - 1)) e v w Hs Hc He).
  replace (e + 1 + Z.of_nat (Z.to_nat (e' - e - 1))) with e' by lia.
  apply voted_started, Hs'.
Qed.

(** Every estimate of every epoch was some correct node's input. *)
Lemma started_input (k : nat) v : Started (Z.of_nat k) v -> exists p, p ∉ byz /\ inp p v.
Proof.
  revert v. induction k as [|k IH]; intros v (p & Hp & Hin).
  - exists p. split; [done|]. by apply (G_input _ _ _ _ _ _ HG).
  - destruct (G_start _ _ _ _ _ _ HG _ _ _ Hp Hin) as [|(_ & Hok)]; [lia|].
    replace (Z.of_nat (S k) - 1) with (Z.of_nat k) in Hok by lia.
    destruct Hok as [[Hv _]|[[H0 H1] _]].
    + apply IH. by apply voted_started.
    + apply IH. destruct v; by apply voted_started.
Qed.

Lemma decided_input p e v :
  p ∉ byz -> (p, LDecide e v) ∈ h -> exists q, q ∉ byz /\ inp q v.
Proof.
  intros Hp Hin. destruct (G_decide _ _ _ _ _ _ HG _ _ _ Hp Hin) as (He & [Hs _] & _).
  apply (started_input (Z.to_nat e)). rewrite Z2Nat.id by done. by apply voted_started.
Qed.
End Consequences.

(** ** The network *)

Record net := mkNet {
  net_nodes : Z -> bba;
  net_soup : list (Z * AgreementMessage);
  net_inputs : list (Z * bool) }.

Definition upd (st : Z -> bba) (p : Z) (b : bba) : Z -> bba :=
  fun q => if decide (q = p) then b else st q.

(** Stores the node a call returned and sends what it queued. *)
Definition commit (s : net) (p : Z) (b : bba) : net :=
  let '(msgs, b') := Messages b in
  mkNet (upd (net_nodes s) p b') (net_soup s ++ ((fun m => (p, m)) <$> msgs)) (net_inputs s).

Definition with_input (s : net) (p : Z) (v : bool) : net :=
  mkNet (net_nodes s) (net_soup s) (net_inputs s ++ [(p, v)]).

Section Network.
Context (nodes byz : gset Z) (cfg : Z -> Config) (pid : Z).

Definition init_net : net := mkNet (fun p => newBBA (cfg p) pid) [] [].

Inductive net_step (s : net) : net -> Prop :=
  | ns_input p v fuel b err :
  p ∈ nodes -> p ∉ byz ->
  InputValue fuel v (net_nodes s p) = Ret (b, err) ->
  net_step s (commit (with_input s p v) p b)
  | ns_deliver p q m fuel b err :
  p ∈ nodes -> p ∉ byz -> q ∈ nodes -> (q ∉ byz -> (q, m) ∈ net_soup s) ->
  HandleMessage fuel q m (net_nodes s p) = Ret (b, err) ->
  net_step s (commit s p b)
  | ns_output p :
  p ∈ nodes -> p ∉ byz ->
  net_step s (commit s p (Output (net_nodes s p)).2).

Definition reachable : net -> Prop := rtc net_step init_net.

(** ** The invariant holds in every reachable state *)

Context (n f : Z).
Context (Hcfg : forall p, N (defaultF (cfg p)) = n /\ F (defaultF (cfg p)) = f /\
                    ID (defaultF (cfg p)) = p).
Context (Hnodes : zsize nodes = n) (Hbyz : zsize byz <= f) (Hf : 0 <= f) (Hn : 3 * f < n).

Definition inputs_of (s : net) : Z -> bool -> Prop := fun p v => (p, v) ∈ net_inputs s.

Record Inv (s : net) (h : history) : Prop := {
  I_len : zlen h <= 3 * zlen (net_soup s);
  I_soup : forall q m, (q, m) ∈ net_soup s -> exists l, msg_label m = Some l /\ (q, l) ∈ h;
  I_drained : forall p, b_messages (net_nodes s p) = [];
  I_global : Global nodes byz (inputs_of s) n f h;
  I_local : forall p, p ∈ nodes -> p ∉ byz -> Local nodes byz n f p (net_nodes s p) h }.

Lemma Global_inputs_mono (i i' : Z -> bool -> Prop) h :
  (forall p v, i p v -> i' p v) -> Global nodes byz i n f h -> Global nodes byz i' n f h.
Proof. intros Hi []. split; eauto. Qed.

Lemma Inv_with_input s h p v : Inv s h -> Inv (with_input s p v) h.
Proof.
  intros []. split; try done. apply (Global_inputs_mono (inputs_of s)); [|done].
  intros q w Hin. apply elem_of_app. by left.
Qed.

Lemma Local_drain p b h :
  Local nodes byz n f p b h -> Local nodes byz n f p (set_messages b []) h.
Proof. intros []. by split. Qed.

(** A call simulated by micro-steps, committed, keeps the invariant. *)
Lemma Inv_commit s h p b h' :
  p ∈ nodes -> p ∉ byz -> Inv s h -> 3 * zlen (net_soup (commit s p b)) < 2 ^ 32 ->
  micros nodes byz (inputs_of s) p (net_nodes s p, h) (b, h') ->
  exists h2, Inv (commit s p b) h2.
Proof.
  intros Hp Hpb HI Hlen Hm. destruct (micros_messages _ _ _ _ _ _ Hm) as (ms & Ems & Hsent & Hl).
  destruct (micros_history _ _ _ _ _ _ Hm) as [ls Els].
  cbn [fst snd] in *. rewrite (I_drained _ _ HI) in Ems. cbn in Ems.
  assert (zlen (net_soup (commit s p b)) = zlen (net_soup s) + zlen ms) as Hsoup.
  { unfold commit. cbn. rewrite length_app, length_fmap, Ems. lia. }
  pose proof (I_len _ _ HI).
  destruct (micros_good nodes byz (inputs_of s) n f Hnodes Hbyz Hf Hn p _ _ Hpb Hm)
    as [HL HG]; cbn [fst snd]; [lia|by apply (I_local _ _ HI)|apply (I_global _ _ HI)|].
  cbn [fst snd] in *. exists h'. split.
  - lia.
  - intros q m. unfold commit. cbn. rewrite elem_of_app. intros [Hin|Hin].
    + destruct (I_soup _ _ HI _ _ Hin) as (l & ? & ?). exists l. split; [done|].
      rewrite Els. apply elem_of_app. by right.
    + apply list_elem_of_fmap in Hin as (m' & [= -> ->] & Hin). rewrite Ems in Hin.
      by apply Hsent.
  - intros q. unfold commit, upd. cbn. case_decide; [done|]. apply (I_drained _ _ HI).
  - done.
  - intros q Hq Hqb. unfold commit, upd. cbn. case_decide as Hd.
    + subst q. by apply Local_drain.
    + rewrite Els. apply Local_extend; [by apply (I_local _ _ HI)|done].
Qed.

Lemma Inv_step s s' :
  net_step s s' -> 3 * zlen (net_soup s') < 2 ^ 32 ->
  (exists h, Inv s h) -> exists h, Inv s' h.
Proof.
  intros Hs Hlen [h HI]. destruct Hs as [p v fuel b err Hp Hb Hr|p q m fuel b err Hp Hb Hq Hqm Hr|
    p Hp Hb].
  - pose proof (Inv_with_input _ _ p v HI) as HI'.
    pose proof (I_local _ _ HI' p Hp Hb) as HL.
    destruct (input_simulates nodes byz (inputs_of (with_input s p v)) p fuel v
      (net_nodes s p) h b err) as [h' Hm]; try done.
    + apply elem_of_app. right. by left.
    + apply HL.
    + apply HL.
    + by eapply Inv_commit.
  - pose proof (I_local _ _ HI p Hp Hb) as HL.
    destruct (message_simulates nodes byz (inputs_of s) p fuel q m
      (net_nodes s p) h b err) as [h' Hm]; try done.
    + apply HL.
    + apply HL.
    + split; [done|]. intros Hqb. by apply (I_soup _ _ HI _ _ (Hqm Hqb)).
    + by eapply Inv_commit.
  - eapply Inv_commit; try done. apply rtc_once, mi_quiet. unfold Output.
    destruct (b_output (net_nodes s p)) eqn:E; split_and!; cbn; auto.
Qed.

Lemma net_step_soup s s' : net_step s s' -> zlen (net_soup s) <= zlen (net_soup s').
Proof. destruct 1; unfold commit; cbn; rewrite length_app; lia. Qed.

Lemma reachable_Inv s :
  reachable s -> 3 * zlen (net_soup s) < 2 ^ 32 -> exists h, Inv s h.
Proof.
  revert s. refine (rtc_ind_r (fun s => 3 * zlen (net_soup s) < 2 ^ 32 -> exists h, Inv s h)
    _ _ _).
  - intros _. exists []. split; try done.
    + intros q m ?%elem_of_nil. done.
    + split; intros; by match goal with H : _ ∈ [] |- _ => apply elem_of_nil in H end.
    + intros p _ _. destruct (Hcfg p) as (E1 & E2 & E3).
      split; cbn; try done; try (intros; by match goal with H : _ ∈ [] |- _ =>
        apply elem_of_nil in H end).
      * intros v q. destruct v; cbn; set_solver.
      * intros _ v ?%elem_of_nil. done.
      * intros e v _ ?%elem_of_nil. done.
      * intros d ?%elem_of_nil. done.
  - intros s s' Hr Hs IH Hlen. apply (Inv_step s); [done..|]. apply IH.
    pose proof (net_step_soup _ _ Hs). lia.
Qed.
Lemma Inv_agree s h p q v w :
  Inv s h -> p ∈ nodes -> p ∉ byz -> q ∈ nodes -> q ∉ byz ->
  b_decision (net_nodes s p) = Some v -> b_decision (net_nodes s q) = Some w -> v = w.
Proof.
  intros [_ _ _ HG HL] Hp Hpb Hq Hqb Hv Hw.
  destruct (L_dec _ _ _ _ _ _ _ (HL p Hp Hpb) v Hv) as [e He].
  destruct (L_dec _ _ _ _ _ _ _ (HL q Hq Hqb) w Hw) as [e' He'].
  destruct (Z.le_ge_cases e e').
  - symmetry. by eapply (decided_agree_le nodes byz _ n f); [..|exact He|exact He'|].
  - by eapply (decided_agree_le nodes byz _ n f); [..|exact He'|exact He|].
Qed.
End Network.

(** ** Running a schedule *)

Inductive action :=
  | AInput (p : Z) (v : bool)
  | ADeliver (p q : Z) (m : AgreementMessage)
  | AOutput (p : Z).

Section Schedule.
Context (nodes byz : gset Z) (cfg : Z -> Config) (pid : Z) (fuel : nat).

Definition correct (p : Z) : bool := bool_decide (p ∈ nodes /\ p ∉ byz).

Definition run_action (s : net) (a : action) : option net :=
  match a with
  | AInput p v =>
      if correct p then
        match InputValue fuel v (net_nodes s p) with
        | Ret (b, _) => Some (commit (with_input s p v) p b)
        | _ => None
        end
      else None
  | ADeliver p q m =>
      if correct p && bool_decide (q ∈ nodes) && bool_decide (q ∈ byz \/ (q, m) ∈ net_soup s)
      then
        match HandleMessage fuel q m (net_nodes s p) with
        | Ret (b, _) => Some (commit s p b)
        | _ => None
        end
      else None
  | AOutput p => if correct p then Some (commit s p (Output (net_nodes s p)).2) else None
  end.

Fixpoint run (s : net) (l : list action) : option net :=
  match l with
  | [] => Some s
  | a :: l => match run_action s a with Some s' => run s' l | None => None end
  end.

Lemma run_action_sound s a s' : run_action s a = Some s' -> net_step nodes byz s s'.
Proof.
  destruct a as [p v|p q m|p]; cbn; unfold correct.
  - case_bool_decide as Hp; [|done]. destruct (InputValue _ _ _) as [[b err]| |] eqn:E; try done.
    intros [= <-]. destruct Hp. by eapply ns_input.
  - case_bool_decide as Hp; [|done]. case_bool_decide as Hq; [|done].
    case_bool_decide as Hm; [|done]. cbn.
    destruct (HandleMessage _ _ _ _) as [[b err]| |] eqn:E; try done.
    intros [= <-]. destruct Hp. eapply ns_deliver; try done. by destruct Hm.
  - case_bool_decide as Hp; [|done]. intros [= <-]. destruct Hp. by apply ns_output.
Qed.

Lemma run_sound l s s' : run s l = Some s' -> rtc (net_step nodes byz) s s'.
Proof.
  revert s. induction l as [|a l IH]; intros s; cbn.
  - intros [= ->]. apply rtc_refl.
  - destruct (run_action s a) as [s1|] eqn:E; [|done]. intros Hr.
    eapply rtc_l; [by eapply run_action_sound|by apply IH].
Qed.
End Schedule.

(** Four operators of which operator 3 is faulty and silent; every correct
    operator inputs [true] and receives everything sent in each round. *)
Module Demo.
Definition ids : list Z := [0; 1; 2; 3].
Definition nodes : gset Z := list_to_set ids.
Definition byz : gset Z := {[3]}.
Definition cfg (p : Z) : Config := mkConfig 4 1 p ids 0.

Definition flood (s : net) : list action :=
  flat_map (fun p => (fun qm => ADeliver p qm.1 qm.2) <$> net_soup s) [0; 1; 2].

Definition round (os : option net) : option net :=
  match os with Some s => run nodes byz 60 s (flood s) | None => None end.

Definition inputs : option net :=
  run nodes byz 60 (init_net cfg 0) ((fun p => AInput p true) <$> [0; 1; 2]).

Definition final : option net := round (round inputs).

Definition decided : net := default (init_net cfg 0) final.

Lemma decided_reachable : reachable nodes byz cfg 0 decided.
Proof.
  assert (exists s, final = Some s) as [s Hs] by (eexists; vm_compute; reflexivity).
  unfold decided. rewrite Hs. cbn. unfold final, round in Hs.
  destruct inputs as [s0|] eqn:E0; [|done].
  destruct (run nodes byz 60 s0 (flood s0)) as [s1|] eqn:E1; [|done].
  unfold reachable. etransitivity; [by eapply run_sound|].
  etransitivity; by eapply run_sound.
Qed.
End Demo.

(** ** The properties *)

(** C4.  BBA agreement: in every reachable state of a network with [3F < N]
    in which fewer than 2^32/3 messages were sent (so that no [uint32] epoch
    wraps), any two correct nodes that decided decided the same value, whatever
    the faulty nodes sent and in whatever order messages arrived. *)
Theorem bba_agreement (nodes byz : gset Z) (cfg : Z -> Config) (pid n f : Z) (s : net)
  (Hcfg : forall p, N (defaultF (cfg p)) = n /\ F (defaultF (cfg p)) = f /\
                    ID (defaultF (cfg p)) = p)
  (Hnodes : zsize nodes = n) (Hbyz : zsize byz <= f) (Hn : 3 * f < n)
  (Hreach : reachable nodes byz cfg pid s) (Hlen : 3 * zlen (net_soup s) < 2 ^ 32)
  (p q : Z) (v w : bool) :
  p ∈ nodes -> p ∉ byz -> q ∈ nodes -> q ∉ byz ->
  b_decision (net_nodes s p) = Some v -> b_decision (net_nodes s q) = Some w -> v = w.
Proof.
  intros Hp Hpb Hq Hqb Hv Hw.
  destruct (reachable_Inv nodes byz cfg pid n f Hcfg Hnodes Hbyz ltac:(lia) Hn s Hreach Hlen)
    as [h HI].
  by eapply (Inv_agree nodes byz n f Hnodes Hbyz Hn s h p q).
Qed.

(** C5.  BBA validity: a value decided by a correct node was the input of some
    correct node, so faulty nodes alone cannot make the correct ones decide. *)
Theorem bba_validity (nodes byz : gset Z) (cfg : Z -> Config) (pid n f : Z) (s : net)
  (Hcfg : forall p, N (defaultF (cfg p)) = n /\ F (defaultF (cfg p)) = f /\
                    ID (defaultF (cfg p)) = p)
  (Hnodes : zsize nodes = n) (Hbyz : zsize byz <= f) (Hn : 3 * f < n)
  (Hreach : reachable nodes byz cfg pid s) (Hlen : 3 * zlen (net_soup s) < 2 ^ 32)
  (p : Z) (v : bool) :
  p ∈ nodes -> p ∉ byz -> b_decision (net_nodes s p) = Some v ->
  exists q, q ∉ byz /\ (q, v) ∈ net_inputs s.
Proof.
  intros Hp Hpb Hv.
  destruct (reachable_Inv nodes byz cfg pid n f Hcfg Hnodes Hbyz ltac:(lia) Hn s Hreach Hlen)
    as [h [_ _ _ HG HL]].
  destruct (L_dec _ _ _ _ _ _ _ (HL p Hp Hpb) v Hv) as [e He].
  by apply (decided_input nodes byz _ n f h HG p e v Hpb).
Qed.

Lemma bba_agreement_witness :
  b_decision (net_nodes Demo.decided 0) = Some true /\
  b_decision (net_nodes Demo.decided 1) = Some true /\ true = true.
Proof.
  assert (b_decision (net_nodes Demo.decided 0) = Some true) as H0 by (vm_compute; reflexivity).
  assert (b_decision (net_nodes Demo.decided 1) = Some true) as H1 by (vm_compute; reflexivity).
  split; [exact H0|]. split; [exact H1|].
  apply (bba_agreement Demo.nodes Demo.byz Demo.cfg 0 4 1 Demo.decided) with (p := 0) (q := 1);
    try exact H0; try exact H1; try exact Demo.decided_reachable;
    try (vm_compute; congruence); try (apply bool_decide_unpack; vm_compute; exact I).
  intros p. split; [|split]; reflexivity.
Defined.

Lemma bba_validity_witness :
  b_decision (net_nodes Demo.decided 0) = Some true /\
  exists q, q ∉ Demo.byz /\ (q, true) ∈ net_inputs Demo.decided.
Proof.
  assert (b_decision (net_nodes Demo.decided 0) = Some true) as H0 by (vm_compute; reflexivity).
  split; [exact H0|].
  apply (bba_validity Demo.nodes Demo.byz Demo.cfg 0 4 1 Demo.decided) with (p := 0);
    try exact H0; try exact Demo.decided_reachable;
    try (vm_compute; congruence); try (apply bool_decide_unpack; vm_compute; exact I).
  intros p. split; [|split]; reflexivity.
Defined.
