(* ===== verification/BbaTerm.v ===== *)
(** * BbaTerm: every BBA call returns

    The BBA handlers call each other and may run through several epochs in one
    call, replaying delayed messages.  With at least two AUX senders required
    ([N - F >= 2]) an epoch can only be left with the help of a message queued
    for it, so a call returns after at most one epoch per distinct queued
    epoch; [bba_total] gives the fuel. *)

From S2P Require Import Prelude Trace Messages Bba.

Section Termination.
(** The epochs that can be left: the current one and those of queued messages. *)
Context (S0 : gset Z).

Definition level (b : bba) : nat := size (filter (fun x => b_epoch b <= x) S0).

Record OK (b : bba) : Prop := {
  ok_f : 0 <= F (b_cfg b);
  ok_n : 2 <= N (b_cfg b) - F (b_cfg b);
  ok_epoch : 0 <= b_epoch b;
  ok_wrap : b_epoch b + Z.of_nat (level b) < 2 ^ 32;
  ok_delayed : forall d, d ∈ b_delayed b -> Epoch (d_msg d) ∈ S0 }.

Definition Post (b b' : bba) : Prop :=
  OK b' /\ b_epoch b <= b_epoch b' /\ (level b' <= level b)%nat.

Definition Terminates (fuel : nat) (c : call) (b : bba) : Prop :=
  exists b' err, exec fuel c b = Ret (b', err) /\ Post b b'.

(** States that agree on what [OK] and [level] look at. *)
Definition same_frame (b b' : bba) : Prop :=
  b_cfg b' = b_cfg b /\ b_epoch b' = b_epoch b /\ b_delayed b' = b_delayed b.

Lemma same_frame_post b b1 b' : same_frame b b1 -> Post b1 b' -> Post b b'.
Proof. intros (E1 & E2 & E3) (? & ? & ?). unfold Post, level in *. rewrite <- E2. done. Qed.

Lemma same_frame_OK b b1 : same_frame b b1 -> OK b -> OK b1.
Proof.
  intros (E1 & E2 & E3) []. split; unfold level in *; rewrite ?E1, ?E2, ?E3; done.
Qed.

Lemma Post_refl b : OK b -> Post b b.
Proof. by split. Qed.

Lemma Post_trans b1 b2 b3 : Post b1 b2 -> Post b2 b3 -> Post b1 b3.
Proof. intros (? & ? & ?) (? & ? & ?). split_and!; [done|lia|lia]. Qed.

Lemma level_advance b b' :
  b_epoch b ∈ S0 -> b_epoch b' = b_epoch b + 1 -> level b = S (level b').
Proof.
  intros Hin He. unfold level. rewrite He.
  assert (filter (fun x => b_epoch b <= x) S0 =
    {[b_epoch b]} ∪ filter (fun x => b_epoch b + 1 <= x) S0) as ->.
  { apply set_eq. intros x. rewrite elem_of_union, elem_of_singleton, !elem_of_filter.
    split; [|intros [->|[? ?]]; [done|split; [lia|done]]].
    intros [Hle Hx]. destruct (decide (x = b_epoch b)); [by left|right].
    split; [lia|done]. }
  rewrite size_union, size_singleton; [done|].
  apply disjoint_singleton_l. rewrite elem_of_filter. lia.
Qed.

Lemma level_pos b : b_epoch b ∈ S0 -> (1 <= level b)%nat.
Proof.
  intros Hin. assert (b_epoch b ∈ filter (fun x => b_epoch b <= x) S0) as Hf
    by (by apply elem_of_filter).
  unfold level. destruct (size _) eqn:E; [|lia].
  apply size_empty_iff in E. set_solver.
Qed.

Lemma nextEstimate_same b vs c : same_frame b (nextEstimate b vs c).
Proof.
  destruct vs as [|v [|]]; cbn; try done. destruct (b_decision b); cbn; [done|].
  by destruct (Bool.eqb v c).
Qed.

Lemma enter_epoch_frame b vs c :
  b_cfg (enter_epoch b vs c) = b_cfg b /\
  b_epoch (enter_epoch b vs c) = u32 (b_epoch b + 1) /\
  b_delayed (enter_epoch b vs c) = b_delayed b.
Proof.
  destruct (nextEstimate_same (advanceEpoch b) vs c) as (E1 & E2 & E3).
  unfold enter_epoch. cbn -[nextEstimate]. by rewrite E1, E2, E3.
Qed.

(** A message of another epoch is dropped or queued. *)
Lemma msg_other_epoch fuel sid m b :
  OK b -> Epoch m ∈ S0 -> Epoch m <> b_epoch b ->
  exists b' err, exec (S fuel) (CMsg sid m) b = Ret (b', err) /\ Post b b' /\
             b_epoch b' = b_epoch b.
Proof.
  intros HO Hm Hne. cbn. unfold handleMessage. pose proof HO as [].
  assert (exists b' err, @Ret (bba * option hberror) (b, None) = Ret (b', err) /\ Post b b' /\
        b_epoch b' = b_epoch b) as Hsame by (eexists _, _; split_and!; done).
  destruct (b_done b); [done|].
  destruct (Z.ltb_spec (Epoch m) (b_epoch b)); [done|].
  destruct (Z.ltb_spec (b_epoch b) (Epoch m)); [|lia].
  eexists _, None. split; [reflexivity|]. split; [|done]. split_and!; try done.
  split; cbn; try done. intros d [Hd|Hd]%elem_of_app; [by apply ok_delayed0|].
  by apply list_elem_of_singleton in Hd as ->.
Qed.

(** One AUX is no quorum. *)
Lemma try_one_aux fuel b q v :
  OK b -> b_recvAux b = {[q := v]} ->
  exec (S fuel) CTry b = Ret (b, None).
Proof.
  intros [] Ha. cbn. unfold tryOutputAgreement. destruct (zlen (b_binValues b) =? 0); [done|].
  destruct (countOutputs b) as [k vs] eqn:Hc. cbv beta iota.
  destruct (Z.ltb_spec k (N (b_cfg b) - F (b_cfg b))); [done|exfalso].
  unfold countOutputs in Hc. injection Hc as <- _. rewrite Ha in H.
  assert (size (filter (fun kv : Z * bool => accepted b kv.2 = true) ({[q := v]} : gmap Z bool)) <= 1)%nat.
  { rewrite <- (map_size_singleton (M:=gmap Z) q v). apply map_subseteq_size, map_filter_subseteq. }
  lia.
Qed.

(** ** One handler at a time *)

(** Fuel for a call of each kind at an epoch of the given level. *)
Definition fuel_try (k : nat) : nat := 5 * k + 5.

Definition TryOk (k : nat) : Prop :=
  forall b fuel, OK b -> b_epoch b ∈ S0 -> (level b <= k)%nat -> (fuel_try k <= fuel)%nat ->
  Terminates fuel CTry b.

Ltac use_call H :=
  let b' := fresh "b'" in let err := fresh "err" in let E := fresh "E" in
  let HP := fresh "HP" in
  destruct H as (b' & err & E & HP); rewrite E; cbn; eexists _, _; split;
  [reflexivity|eapply same_frame_post; [|exact HP]; done].

Lemma aux_total k b q v fuel :
  TryOk k -> OK b -> b_epoch b ∈ S0 -> (level b <= k)%nat -> (fuel_try k + 1 <= fuel)%nat ->
  Terminates fuel (CAux q v) b.
Proof.
  intros HT HO Hin Hk Hfuel. destruct fuel as [|fuel]; [lia|]. unfold Terminates. cbn.
  unfold handleAuxRequest.
  set (b1 := set_recvAux _ _).
  assert (Terminates fuel CTry b1) as Ht.
  { apply HT; try done; [|lia]. by apply (same_frame_OK b). }
  use_call Ht.
Qed.

(** A BVAL of a value this node already relayed. *)
Lemma bval_total_sent k b q v fuel :
  TryOk k -> OK b -> b_epoch b ∈ S0 -> (level b <= k)%nat -> (fuel_try k + 2 <= fuel)%nat ->
  hasSentBval b v = true -> Terminates fuel (CBval q v) b.
Proof.
  intros HT HO Hin Hk Hfuel Hsent. destruct fuel as [|fuel]; [lia|]. unfold Terminates. cbn.
  unfold handleBvalRequest.
  set (b1 := set_recvBval _ _).
  assert (hasSentBval b1 v = true) as -> by done. rewrite andb_false_r.
  destruct (_ =? _).
  - destruct (_ =? _).
    + match goal with |- context [exec fuel ?c ?b2] =>
        assert (Terminates fuel c b2) as Ht end.
      { apply (aux_total k); try done; [|lia]. by apply (same_frame_OK b). }
      use_call Ht.
    + match goal with |- context [exec fuel ?c ?b2] =>
        assert (Terminates fuel c b2) as Ht end.
      { apply HT; try done; [|lia]. by apply (same_frame_OK b). }
      use_call Ht.
  - eexists _, _. split; [reflexivity|].
    eapply same_frame_post; [|apply Post_refl; by apply (same_frame_OK b)]. done.
Qed.

Lemma bval_total k b q v fuel :
  TryOk k -> OK b -> b_epoch b ∈ S0 -> (level b <= k)%nat -> (fuel_try k + 3 <= fuel)%nat ->
  Terminates fuel (CBval q v) b.
Proof.
  intros HT HO Hin Hk Hfuel.
  destruct (hasSentBval b v) eqn:Hs; [apply (bval_total_sent k); try done; lia|].
  destruct fuel as [|fuel]; [lia|]. unfold Terminates. cbn. unfold handleBvalRequest.
  set (b1 := set_recvBval _ _).
  assert (hasSentBval b1 v = false) as -> by done. rewrite andb_true_r. cbv zeta.
  destruct (_ =? 2 * _ + 1).
  - destruct (_ =? _).
    + match goal with |- context [exec fuel ?c ?b2] =>
        assert (Terminates fuel c b2) as Ht end.
      { apply (aux_total k); try done; [|lia]. by apply (same_frame_OK b). }
      use_call Ht.
    + match goal with |- context [exec fuel ?c ?b2] =>
        assert (Terminates fuel c b2) as Ht end.
      { apply HT; try done; [|lia]. by apply (same_frame_OK b). }
      use_call Ht.
  - destruct (_ =? _).
    + match goal with |- context [exec fuel ?c ?b2] =>
        assert (Terminates fuel c b2) as Ht end.
      { apply (bval_total_sent k); try done; [by apply (same_frame_OK b)|lia|].
        unfold hasSentBval. cbn. rewrite existsb_app. cbn.
        by rewrite Bool.eqb_reflx, !orb_true_r. }
      destruct Ht as (b' & err & E & HP). exists b', err. split; [done|].
      eapply same_frame_post; [|exact HP]. done.
    + eexists _, _. split; [reflexivity|].
      eapply same_frame_post; [|apply Post_refl; by apply (same_frame_OK b)]. done.
Qed.

Lemma msg_total k b q m fuel :
  TryOk k -> OK b -> (b_epoch b ∈ S0 -> (level b <= k)%nat) -> Epoch m ∈ S0 ->
  (fuel_try k + 4 <= fuel)%nat -> Terminates fuel (CMsg q m) b.
Proof.
  intros HT HO Hk Hm Hfuel. destruct fuel as [|fuel]; [lia|].
  destruct (decide (Epoch m = b_epoch b)) as [He|Hne].
  - unfold Terminates. cbn. unfold handleMessage. rewrite He in *.
    assert (exists b' err, @Ret (bba * option hberror) (b, None) = Ret (b', err) /\ Post b b')
      as Hsame by (eexists _, _; split; done).
    destruct (b_done b); [done|]. rewrite Z.ltb_irrefl.
    destruct (Message m) as [v|v|].
    + apply (bval_total k); try done; [by apply Hk|lia].
    + apply (aux_total k); try done; [by apply Hk|lia].
    + eexists _, _. by split.
  - destruct (msg_other_epoch fuel q m b) as (b' & err & E & HP & _); try done.
    by exists b', err.
Qed.

(** The BVAL a node sends itself on entering an epoch cannot complete it. *)
Lemma own_bval b q v fuel :
  OK b -> b_binValues b = [] -> b_recvAux b = ∅ -> b_recvBval b = newBvalSet ->
  (3 <= fuel)%nat ->
  exists b' err, exec fuel (CBval q v) b = Ret (b', err) /\ Post b b' /\
             b_epoch b' = b_epoch b.
Proof.
  intros HO Hbin Haux Hbv Hfuel. destruct fuel as [|[|[|fuel]]]; try lia.
  cbn [exec]. unfold handleBvalRequest at 1.
  set (b1 := set_recvBval _ _).
  assert (countBvals b1 v = 1) as ->.
  { unfold countBvals, b1, zsize. cbn. rewrite Hbv. destruct v; cbn; by rewrite union_empty_r_L, size_singleton. }
  pose proof (ok_f _ HO). cbv zeta.
  destruct (Z.eqb_spec 1 (2 * F (b_cfg b1) + 1)) as [HF|HF].
  - assert (zlen (b_binValues b1) =? 0 = true) as -> by (cbn; by rewrite Hbin).
    unfold handleAuxRequest at 1. cbv zeta.
    match goal with |- context [tryOutputAgreement _ ?b2] =>
      change (tryOutputAgreement (exec fuel) b2) with (exec (S fuel) CTry b2);
      rewrite (try_one_aux fuel b2 (ID (b_cfg b)) v) end.
    + eexists _, _. split; [reflexivity|]. split; [|done].
      eapply same_frame_post; [|apply Post_refl; by apply (same_frame_OK b)]. done.
    + by apply (same_frame_OK b).
    + cbn. by rewrite Haux.
  - assert ((1 =? F (b_cfg b1) + 1) = false) as ->
      by (apply Z.eqb_neq; change (b_cfg b1) with (b_cfg b) in *; lia).
    eexists _, _. split; [reflexivity|]. split; [|done].
    eapply same_frame_post; [|apply Post_refl; by apply (same_frame_OK b)]. done.
Qed.

Lemma replay_total k fuel ds b :
  TryOk k -> OK b -> (level b <= k)%nat -> (forall d, d ∈ ds -> Epoch (d_msg d) ∈ S0) ->
  (fuel_try k + 4 <= fuel)%nat ->
  exists b', go_fold (fun b que =>
           let! (b, _) := exec fuel (CMsg (d_sid que) (d_msg que)) b in Ret b) ds b
         = Ret b' /\ Post b b'.
Proof.
  intros HT HO Hk Hds Hfuel. revert b HO Hk. induction ds as [|d ds IH]; intros b HO Hk; cbn.
  { eexists. split; [done|by apply Post_refl]. }
  destruct (msg_total k b (d_sid d) (d_msg d) fuel) as (b1 & err & -> & HP); try done.
  { apply Hds. by left. }
  cbn. destruct IH with b1 as (b' & E & HP'); [..|exists b'; split; [done|by eapply Post_trans]].
  - intros d' Hd'. apply Hds. by right.
  - apply HP.
  - destruct HP as (_ & _ & ?). lia.
Qed.

Lemma enter_epoch_OK b vs c :
  OK b -> b_epoch b ∈ S0 ->
  OK (enter_epoch b vs c) /\ b_epoch (enter_epoch b vs c) = b_epoch b + 1.
Proof.
  intros HO Hin. destruct (enter_epoch_frame b vs c) as (E1 & E2 & E3).
  pose proof (level_pos b Hin) as Hl. destruct HO as [? ? ? Hw ?].
  assert (b_epoch (enter_epoch b vs c) = b_epoch b + 1) as E
    by (rewrite E2; unfold u32; rewrite Z.mod_small; lia).
  split; [|done]. pose proof (level_advance b (enter_epoch b vs c) Hin E).
  split; rewrite ?E1, ?E3; try done; rewrite E; lia.
Qed.

Lemma enter_epoch_fresh b vs c :
  b_binValues (enter_epoch b vs c) = [] /\ b_recvAux (enter_epoch b vs c) = ∅ /\
  b_recvBval (enter_epoch b vs c) = newBvalSet.
Proof.
  unfold enter_epoch, nextEstimate. destruct vs as [|v [|]]; try done. cbn.
  destruct (b_decision b); try done. cbn. by destruct (Bool.eqb v c).
Qed.

(** Entering the next epoch, the own BVAL and the replay of the queue. *)
Lemma advance_total k b vs c fuel :
  TryOk k -> OK b -> b_epoch b ∈ S0 -> (level b <= S k)%nat -> (fuel_try k + 4 <= fuel)%nat ->
  exists b3 err b4,
  exec fuel (CBval (ID (b_cfg (enter_epoch b vs c)))
  (default false (b_estimated (enter_epoch b vs c)))) (enter_epoch b vs c) = Ret (b3, err) /\
  go_fold (fun b que =>
           let! (b, _) := exec fuel (CMsg (d_sid que) (d_msg que)) b in Ret b)
  (b_delayed b3) b3 = Ret b4 /\
  Post b (set_delayed b4 []).
Proof.
  intros HT HO Hin Hk Hfuel. destruct (enter_epoch_OK b vs c HO Hin) as [HO2 He2].
  pose proof (level_advance b _ Hin He2) as Hl.
  destruct (enter_epoch_fresh b vs c) as (? & ? & ?).
  generalize dependent (enter_epoch b vs c). intros b2 HO2 He2 Hl ? ? ?.
  destruct (own_bval b2 (ID (b_cfg b2)) (default false (b_estimated b2)) fuel)
    as (b3 & err & E3 & HP3 & He3); try done; [unfold fuel_try in Hfuel; lia|].
  pose proof HP3 as (HO3 & _ & Hl3).
  destruct (replay_total k fuel (b_delayed b3) b3) as (b4 & E4 & HP4); try done; try lia.
  { apply HO3. }
  exists b3, err, b4. split_and!; try done.
  destruct (Post_trans _ _ _ HP3 HP4) as (HO4 & Hle4 & Hl4).
  split_and!; [|cbn; lia|unfold level in *; cbn; lia].
  destruct HO4. split; try done. intros d Hd. by apply elem_of_nil in Hd.
Qed.

Lemma try_total k : TryOk k.
Proof.
  induction k as [|k IH]; intros b fuel HO Hin Hk Hfuel.
  { pose proof (level_pos b Hin). lia. }
  unfold fuel_try in Hfuel. destruct fuel as [|fuel]; [lia|]. unfold Terminates. cbn [exec].
  unfold tryOutputAgreement.
  assert (exists b' err, @Ret (bba * option hberror) (b, None) = Ret (b', err) /\ Post b b')
    as Hsame by (exists b, None; split; [reflexivity|by apply Post_refl]).
  destruct (_ =? 0); [exact Hsame|]. destruct (countOutputs b) as [n vs]. cbv beta iota.
  destruct (_ <? _); [exact Hsame|]. cbv zeta.
  assert (same_frame b (recordTrace b traceBBAValidAuxQuorum false (b_epoch b))) as Hs1 by done.
  generalize dependent (recordTrace b traceBBAValidAuxQuorum false (b_epoch b)). intros b1 Hs1.
  pose proof (same_frame_OK _ _ Hs1 HO) as HO1.
  destruct (_ || _).
  { eexists _, _. split; [reflexivity|]. eapply same_frame_post; [exact Hs1|].
    eapply same_frame_post; [|apply Post_refl, (same_frame_OK b1); [|exact HO1]]; done. }
  destruct (advance_total k b1 vs (Z.even (b_epoch b1)) fuel) as (b3 & err & b4 & E3 & E4 & HP);
    try done; [|unfold level in *|unfold fuel_try; lia|].
  { by destruct Hs1 as (_ & -> & _). }
  { by destruct Hs1 as (_ & -> & _). }
  rewrite E3. cbn [go_bind]. rewrite E4. cbn [go_bind]. eexists _, _. split; [reflexivity|].
  by eapply same_frame_post.
Qed.
End Termination.

(** ** The exported calls *)

Definition epochs_of (b : bba) : gset Z :=
  list_to_set ((fun d => Epoch (d_msg d)) <$> b_delayed b).

Lemma level_bound (e : Z) (b b0 : bba) :
  b_delayed b = b_delayed b0 ->
  (level ({[e]} ∪ epochs_of b0) b <= S (length (b_delayed b)))%nat.
Proof.
  intros ->. unfold level. etransitivity; [apply subseteq_size; intros x Hx; by apply elem_of_filter in Hx as [_ Hx]|].
  etransitivity; [apply size_union_le|]. rewrite size_singleton.
  unfold epochs_of. set (l := _ <$> _).
  assert (length (b_delayed b0) = length l) as -> by (unfold l; by rewrite length_fmap).
  clearbody l. induction l as [|x l IH]; cbn; [by rewrite size_empty|].
  etransitivity; [apply le_n_S, size_union_le|]. rewrite size_singleton. lia.
Qed.

Lemma epochs_of_elem b d : d ∈ b_delayed b -> Epoch (d_msg d) ∈ epochs_of b.
Proof. intros Hd. apply elem_of_list_to_set, list_elem_of_fmap. by exists d. Qed.

(** The fuel a call on [b] needs. *)
Definition call_fuel (b : bba) : nat := fuel_try (S (length (b_delayed b))) + 4.

Section Epochs.
(** A handler either stays in its epoch or leaves the queue empty. *)
Lemma exec_epoch_or_drop fuel c b b' err :
  exec fuel c b = Ret (b', err) -> b_epoch b' = b_epoch b \/ b_delayed b' = [].
Proof.
  revert c b b' err. induction fuel as [|fuel IH]; intros c b b' err; [done|].
  destruct c as [q v|q v| |q m]; cbn [exec].
  - unfold handleBvalRequest. cbv zeta.
    destruct (_ =? 2 * _ + 1); [destruct (_ =? 0)|destruct (_ && _)].
    + destruct (exec fuel (CAux _ _) _) as [[b1 e]| |] eqn:E; try done.
      intros [<- <-]%ret_pair. by apply IH in E.
    + destruct (exec fuel CTry _) as [[b1 e]| |] eqn:E; try done.
      intros [<- <-]%ret_pair. by apply IH in E.
    + intros E. by apply IH in E.
    + intros [<- <-]%ret_pair. by left.
  - unfold handleAuxRequest. cbv zeta.
    destruct (exec fuel CTry _) as [[b1 e]| |] eqn:E; try done.
    intros [<- <-]%ret_pair. by apply IH in E.
  - unfold tryOutputAgreement. destruct (_ =? 0); [intros [<- <-]%ret_pair; by left|].
    destruct (countOutputs b) as [n vs]. cbv beta iota zeta.
    destruct (_ <? _); [intros [<- <-]%ret_pair; by left|].
    destruct (_ || _); [intros [<- <-]%ret_pair; by left|].
    destruct (exec fuel (CBval _ _) _) as [[b1 e]| |]; try done. cbn [go_bind].
    destruct (go_fold _ _ _) as [b2| |]; try done. cbn [go_bind].
    intros [<- <-]%ret_pair. by right.
  - unfold handleMessage. destruct (b_done b); [intros [<- <-]%ret_pair; by left|].
    destruct (_ <? _); [intros [<- <-]%ret_pair; by left|].
    destruct (_ <? _); [intros [<- <-]%ret_pair; by left|].
    destruct (Message m); try (intros E; by apply IH in E).
    intros [<- <-]%ret_pair; by left.
Qed.
End Epochs.

(** C31.  Calls return: in a cluster in which one AUX is no quorum, handling a
    message and taking an input both return a state and an error value, however
    many epochs the call runs through; the epoch never decreases. *)
Theorem bba_total fuel q m v b :
  0 <= F (b_cfg b) -> 2 <= N (b_cfg b) - F (b_cfg b) ->
  0 <= b_epoch b -> b_epoch b + zlen (b_delayed b) + 1 < 2 ^ 32 ->
  (call_fuel b <= fuel)%nat ->
  (exists b' err, HandleMessage fuel q m b = Ret (b', err) /\ b_epoch b <= b_epoch b') /\
  (exists b' err, inputValue fuel v b = Ret (b', err) /\ b_epoch b <= b_epoch b').
Proof.
  intros HF HN He Hw Hfuel. unfold call_fuel, fuel_try in Hfuel.
  split.
  - set (b1 := set_msgCount b (b_msgCount b + 1)).
    pose proof (level_bound (Epoch m) b1 b1 eq_refl) as Hl.
    destruct (msg_total ({[Epoch m]} ∪ epochs_of b1) (S (length (b_delayed b))) b1 q m fuel)
      as (b' & err & E & HP).
    + apply try_total.
    + split; try done; [change (b_epoch b1) with (b_epoch b);
        change (b_delayed b1) with (b_delayed b) in Hl; lia|].
      intros d Hd. apply elem_of_union_r. by apply epochs_of_elem.
    + intros _. exact Hl.
    + set_solver.
    + unfold fuel_try. lia.
    + exists b', err. split; [exact E|apply HP].
  - unfold inputValue. destruct (_ || _); [exists b, None; split; [done|lia]|]. cbv zeta.
    match goal with |- context [exec fuel ?c ?b0] => set (b1 := b0) end.
    pose proof (level_bound (b_epoch b) b1 b1 eq_refl) as Hl.
    destruct (bval_total ({[b_epoch b]} ∪ epochs_of b1) (S (length (b_delayed b))) b1
      (ID (b_cfg b1)) v fuel) as (b' & err & E & HP).
    + apply try_total.
    + split; try done; [change (b_epoch b1) with (b_epoch b);
        change (b_delayed b1) with (b_delayed b) in Hl; lia|].
      intros d Hd. apply elem_of_union_r. by apply epochs_of_elem.
    + change (b_epoch b1) with (b_epoch b). set_solver.
    + exact Hl.
    + unfold fuel_try. lia.
    + exists b', err. split; [exact E|apply HP].
Qed.

Definition demo_config : Config := mkConfig 4 0 0 [0; 1; 2; 3] 0.

Lemma bba_total_witness :
  exists b' err, HandleMessage 14 2 (NewAgreementMessage 0 (BvalRequest true)) (newBBA demo_config 0)
    = Ret (b', err).
Proof.
  destruct (bba_total 14 2 (NewAgreementMessage 0 (BvalRequest true)) true (newBBA demo_config 0))
    as [(b' & err & E & _) _]; [vm_compute; congruence..|vm_compute; lia|].
  by exists b', err.
Defined.

(**  What a change of epoch does to the queue: when handling a message moves
    the instance to another epoch, the queue of delayed messages is empty
    afterwards, so messages of later epochs that the replay queued again, and
    those queued while it replayed, are lost. *)
Lemma advance_drops_delayed fuel q m b b' err :
  HandleMessage fuel q m b = Ret (b', err) -> b_epoch b' <> b_epoch b -> b_delayed b' = [].
Proof.
  intros E Hne. apply exec_epoch_or_drop in E as [E|E]; [|done].
  by rewrite E in Hne.
Qed.

(** A BVAL of epoch 2 is queued at epoch 0; the AUX that completes epoch 0
    drops it. *)
Definition drop_demo : go (bba * option hberror) :=
  let late := NewAgreementMessage 2 (BvalRequest true) in
  let bv := NewAgreementMessage 0 (BvalRequest true) in
  let aux := NewAgreementMessage 0 (AuxRequest true) in
  let! b := go_fold (fun b qm => let! (b, _) := HandleMessage 30 qm.1 qm.2 b in Ret b)
    [(1, late); (1, bv); (2, bv); (1, aux)] (newBBA demo_config 0) in
  Ret (b, None).

Definition drop_last : AgreementMessage := NewAgreementMessage 0 (AuxRequest true).

Definition state_of (r : go (bba * option hberror)) : bba :=
  match r with Ret (b, _) => b | _ => newBBA demo_config 0 end.

