(* ===== verification/Rbc.v ===== *)
(** * Rbc: the erasure-coded reliable broadcast instance

    Models [sbc/hbbft/rbc.go].  Like the BBA instance, the Go instance runs
    one goroutine that takes an input or a message at a time, so each exported
    call is one transition of the record [rbc].  The Merkle tree
    (NebulousLabs/merkletree) and the Reed-Solomon code (klauspost/reedsolomon)
    are third-party packages: their calls are parameters.  The iteration order
    of a Go map is the argument [range], a function that permutes. *)

From S2P Require Import Prelude Trace Messages Bba.

(** A [reedsolomon.Encoder]; [None] is an error.  A missing shard is an empty
    slice. *)
Record Encoder := mkEncoder {
  Split : bytes -> option (list bytes);
  Encode : list bytes -> option (list bytes);
  Reconstruct : list bytes -> option (list bytes) }.

(** [sort.Sort(prfs)]: the order of [proofs.Less]. *)
Definition Less_eq (p q : ProofRequest) : Prop := Index p <= Index q.

#[export] Instance Less_eq_dec : RelDecision Less_eq.
Proof. intros p q. apply Z.le_dec. Defined.

#[export] Instance Less_eq_total : Total Less_eq.
Proof. intros p q. unfold Less_eq. lia. Qed.

#[export] Instance Less_eq_trans : Transitive Less_eq.
Proof. intros p q r. unfold Less_eq. lia. Qed.

Record rbc := mkRBC {
  r_cfg : Config;
  r_proposerID : Z;
  r_enc : Encoder;
  r_recvReadys : gmap Z bytes;
  r_recvEchos : gmap Z ProofRequest;
  r_numParityShards : Z;
  r_numDataShards : Z;
  r_messages : list BroadcastMessage;
  r_echoSent : bool;
  r_readySent : bool;
  r_outputDecoded : bool;
  r_output : option bytes;
  r_trace : list trace_call }.

(** ** Field updates *)

Definition set_recvReadys r x := mkRBC (r_cfg r) (r_proposerID r) (r_enc r) x (r_recvEchos r)
  (r_numParityShards r) (r_numDataShards r) (r_messages r) (r_echoSent r) (r_readySent r)
  (r_outputDecoded r) (r_output r) (r_trace r).
Definition set_recvEchos r x := mkRBC (r_cfg r) (r_proposerID r) (r_enc r) (r_recvReadys r) x
  (r_numParityShards r) (r_numDataShards r) (r_messages r) (r_echoSent r) (r_readySent r)
  (r_outputDecoded r) (r_output r) (r_trace r).
Definition set_rmessages r x := mkRBC (r_cfg r) (r_proposerID r) (r_enc r) (r_recvReadys r)
  (r_recvEchos r) (r_numParityShards r) (r_numDataShards r) x (r_echoSent r) (r_readySent r)
  (r_outputDecoded r) (r_output r) (r_trace r).
Definition set_echoSent r x := mkRBC (r_cfg r) (r_proposerID r) (r_enc r) (r_recvReadys r)
  (r_recvEchos r) (r_numParityShards r) (r_numDataShards r) (r_messages r) x (r_readySent r)
  (r_outputDecoded r) (r_output r) (r_trace r).
Definition set_readySent r x := mkRBC (r_cfg r) (r_proposerID r) (r_enc r) (r_recvReadys r)
  (r_recvEchos r) (r_numParityShards r) (r_numDataShards r) (r_messages r) (r_echoSent r) x
  (r_outputDecoded r) (r_output r) (r_trace r).
Definition set_routput r out decoded := mkRBC (r_cfg r) (r_proposerID r) (r_enc r)
  (r_recvReadys r) (r_recvEchos r) (r_numParityShards r) (r_numDataShards r) (r_messages r)
  (r_echoSent r) (r_readySent r) decoded out (r_trace r).
Definition set_rtrace r x := mkRBC (r_cfg r) (r_proposerID r) (r_enc r) (r_recvReadys r)
  (r_recvEchos r) (r_numParityShards r) (r_numDataShards r) (r_messages r) (r_echoSent r)
  (r_readySent r) (r_outputDecoded r) (r_output r) x.

(** [r.trace.recordRBC(r.proposerID, event)] *)
Definition rbcTrace (r : rbc) (event : rbcTraceEvent) : rbc :=
  set_rtrace r (r_trace r ++ [CallRBC (r_proposerID r) event]).

(** [r.messages = append(r.messages, msg)] *)
Definition rbc_queue (r : rbc) (msg : BroadcastMessage) : rbc :=
  set_rmessages r (r_messages r ++ [msg]).

(** ** Queries *)

(** Number of received echos with the given root. *)
Definition countEchos (r : rbc) (hash : bytes) : Z :=
  zsize (filter (fun kv : Z * ProofRequest => RootHash kv.2 = hash) (r_recvEchos r)).

Definition countReadys (r : rbc) (hash : bytes) : Z :=
  zsize (filter (fun kv : Z * bytes => kv.2 = hash) (r_recvReadys r)).

Record RBCProgress := mkRBCProgress {
  rp_Echos : Z; rp_Readys : Z; rp_EchoSent : bool; rp_ReadySent : bool;
  rp_OutputDecoded : bool; rp_OutputStored : bool }.

Definition rbc_progress (r : rbc) : RBCProgress :=
  mkRBCProgress (zsize (r_recvEchos r)) (zsize (r_recvReadys r)) (r_echoSent r) (r_readySent r)
    (r_outputDecoded r) (is_some (r_output r)).

(** Returns the output, if any, and forgets it. *)
Definition rbc_Output (r : rbc) : option bytes * rbc :=
  match r_output r with
  | Some out => (Some out, set_routput r None (r_outputDecoded r))
  | None => (None, r)
  end.

Definition rbc_Messages (r : rbc) : list BroadcastMessage * rbc :=
  (r_messages r, set_rmessages r []).

Section Rbc.
(** [reedsolomon.New(dataShards, parityShards)]. *)
Context (rs_New : Z -> Z -> option Encoder).
(** [Prove] of a tree with [SetIndex(i)] into which the leaves were pushed:
root, proof set, proof index and number of leaves. *)
Context (Prove : list bytes -> Z -> bytes * list bytes * Z * Z).
Context (VerifyProof : bytes -> list bytes -> Z -> Z -> bool).

Definition newRBC (cfg : Config) (proposerID : Z) : go rbc :=
  let cfg := defaultF cfg in
  let parityShards := 2 * F cfg in
  let dataShards := N cfg - parityShards in
  match rs_New dataShards parityShards with
  | None => Panic
  | Some enc =>
      Ret (mkRBC cfg proposerID enc ∅ ∅ parityShards dataShards [] false false false None [])
  end.

Definition validateProof (req : ProofRequest) : bool :=
  VerifyProof (RootHash req) (Proof req) (u64 (Index req)) (u64 (Leaves req)).

(** The request for leaf [i] of the tree over [shards]. *)
Definition proofRequest (shards : list bytes) (i : nat) : ProofRequest :=
  let '(root, proof, proofIndex, n) := Prove shards (Z.of_nat i) in
  mkProofRequest root proof (i64 proofIndex) (i64 n).

Definition makeProofRequests (shards : list bytes) : list ProofRequest :=
  proofRequest shards <$> seq 0 (length shards).

Definition makeBroadcastMessages (shards : list bytes) : list BroadcastMessage :=
  (fun i => mkBroadcast (PProof (proofRequest shards i))) <$> seq 0 (length shards).

Definition makeShards (enc : Encoder) (data : bytes) : list bytes + hberror :=
  match Split enc data with
  | None => inr ErrSplit
  | Some shards =>
      match Encode enc shards with
      | None => inr ErrEncode
      | Some shards => inl shards
      end
  end.

(** [shards[p.Index] = p.Proof[0]] *)
Definition placeShard (shards : list bytes) (p : ProofRequest) : go (list bytes) :=
  if (0 <=? Index p) && (Index p <? zlen shards) then
  match Proof p with
  | d :: _ => Ret (<[Z.to_nat (Index p) := d]> shards)
  | [] => Panic
  end
  else Panic.

Section Range.
(** The order in which [range] visits the entries of a map. *)
Context (range : list ProofRequest -> list ProofRequest).

Definition tryDecodeValue (hash : bytes) (r : rbc) : go (rbc * option hberror) :=
  if r_outputDecoded r || (countReadys r hash <=? 2 * F (r_cfg r)) ||
  (countEchos r hash <=? F (r_cfg r))
  then Ret (r, None) else
  let r := rbcTrace r traceRBCDecodeEligible in
  let prfs := filter (fun p => RootHash p = hash)
  (range ((map_to_list (r_recvEchos r)).*2)) in
  let prfs := merge_sort Less_eq prfs in
  let shards := replicate (Z.to_nat (r_numParityShards r + r_numDataShards r)) [] in
  let! shards := go_fold placeShard prfs shards in
  let r := rbcTrace r traceRBCReconstructionStarted in
  match Reconstruct (r_enc r) shards with
  | None => Ret (r, None)
  | Some shards =>
      match makeProofRequests shards with
      | [] => Ret (r, None)
      | p0 :: _ =>
          if bool_decide (RootHash p0 = hash) then
            let r := rbcTrace r traceRBCReconstructionFinished in
          let value := mjoin (take (Z.to_nat (r_numDataShards r)) shards) in
          (* [append] of nothing leaves [value] nil, which is no output *)
          let out := if bool_decide (value = []) then None else Some value in
          let r := set_routput r out true in
          Ret (rbcTrace r traceRBCOutputStored, None)
          else Ret (r, None)
      end
  end.

Definition emitReady (root : bytes) (trigger : string) (r : rbc) : go (rbc * option hberror) :=
  if r_readySent r then tryDecodeValue root r else
  match r_recvReadys r !! ID (r_cfg r) with
  | Some _ => Ret (r, Some (ErrLocalReadyAdmitted (ID (r_cfg r))))
  | None =>
      let echoCount := countEchos r root in
      let readyCount := countReadys r root in
      let r := set_recvReadys r (<[ID (r_cfg r) := root]> (r_recvReadys r)) in
      let r := set_readySent r true in
      let r := set_rtrace r (r_trace r ++
        [CallRBCReady (r_proposerID r) trigger echoCount readyCount]) in
      tryDecodeValue root (rbc_queue r (mkBroadcast (PReady root)))
  end.

Definition handleEchoRequest (senderID : Z) (req : ProofRequest) (r : rbc)
  : go (rbc * option hberror) :=
  match r_recvEchos r !! senderID with
  | Some _ => Ret (r, Some (ErrMultipleEchos senderID (ID (r_cfg r))))
  | None =>
      if negb (validateProof req) then
        Ret (r, Some (ErrInvalidEchoProof senderID (ID (r_cfg r))))
      else
      let r := set_recvEchos r (<[senderID := req]> (r_recvEchos r)) in
      if r_readySent r || (countEchos r (RootHash req) <? N (r_cfg r) - F (r_cfg r))
      then tryDecodeValue (RootHash req) r
      else emitReady (RootHash req) RBCReadyTriggerEchoQuorum r
  end.

Definition handleReadyRequest (senderID : Z) (root : bytes) (r : rbc)
  : go (rbc * option hberror) :=
  match r_recvReadys r !! senderID with
  | Some _ => Ret (r, Some (ErrMultipleReadys senderID))
  | None =>
      let r := set_recvReadys r (<[senderID := root]> (r_recvReadys r)) in
      if (countReadys r root =? F (r_cfg r) + 1) && negb (r_readySent r)
      then emitReady root RBCReadyTriggerRelay r
      else tryDecodeValue root r
  end.

Definition handleProofRequest (senderID : Z) (req : ProofRequest) (r : rbc)
  : go (rbc * option hberror) :=
  if negb (senderID =? r_proposerID r) then
  Ret (r, Some (ErrProofNotFromProposer senderID (r_proposerID r)))
  else if r_echoSent r then Ret (r, Some (ErrProofMoreThanOnce senderID))
  else if negb (validateProof req) then Ret (r, Some (ErrInvalidProof senderID))
  else
  let r := rbcTrace r traceRBCProofAccepted in
  let r := set_echoSent r true in
  let r := rbcTrace r traceRBCEchoSent in
  let r := rbc_queue r (mkBroadcast (PEcho req)) in
  handleEchoRequest (ID (r_cfg r)) req r.

Definition rbc_handleMessage (senderID : Z) (msg : BroadcastMessage) (r : rbc)
  : go (rbc * option hberror) :=
  match BPayload msg with
  | PProof p => handleProofRequest senderID p r
  | PEcho p => handleEchoRequest senderID p r
  | PReady root => handleReadyRequest senderID root r
  | OtherBroadcast => Ret (r, Some ErrInvalidRBCMessage)
  end.

(** Returns the requests for the other nodes. *)
Definition rbc_inputValue (data : bytes) (r : rbc)
  : go (rbc * (list BroadcastMessage * option hberror)) :=
  match makeShards (r_enc r) data with
  | inr err => Ret (r, ([], Some err))
  | inl shards =>
      match makeBroadcastMessages shards with
      | [] => Panic
      | m :: reqs =>
          match BPayload m with
          | PProof proof =>
              let! (r, err) := handleProofRequest (ID (r_cfg r)) proof r in
              match err with
              | Some e => Ret (r, ([], Some e))
              | None => Ret (r, (reqs, None))
              end
          | _ => Panic
          end
      end
  end.
End Range.
End Rbc.
