(* ===== verification/RbcNet.v ===== *)
(** * RbcNet: reliable broadcast in an asynchronous network

    A network of [rbc] instances of one proposer.  Correct nodes run the
    handlers of [Rbc]; a message is delivered to a correct node if its sender
    sent it before, or is faulty.  [rbc_agreement] and [rbc_validity] hold in
    every reachable state.  A step exists only for a call that returns: a node
    whose call panics takes no further step (see [rbc_index_panic]). *)

From S2P Require Import Prelude Trace Messages Bba Rbc.

(** What the packages under [rbc.go] promise. *)
Class MerkleTree (Prove : list bytes -> Z -> bytes * list bytes * Z * Z)
    (VerifyProof : bytes -> list bytes -> Z -> Z -> bool) : Prop := {
  (** the root does not depend on the leaf that is proved *)
  merkle_root_index l i : 0 <= i < zlen l ->
    (Prove l i).1.1.1 = (Prove l 0).1.1.1;
  (** SHA-256 has no collision *)
  merkle_root_inj l l' : length l = length l' ->
    (Prove l 0).1.1.1 = (Prove l' 0).1.1.1 -> l = l';
  (** a proof verifies, and its first element is the leaf *)
  merkle_complete l i : 0 <= i < zlen l ->
    let '(root, proof, index, n) := Prove l i in
    index = i /\ n = zlen l /\ head proof = l !! Z.to_nat i /\
    VerifyProof root proof i n = true;
  (** an empty proof is rejected *)
  merkle_nonempty root proof i n : VerifyProof root proof i n = true -> proof <> [] }.

Class ErasureCode (rs_New : Z -> Z -> option Encoder) : Prop := {
  code_split d k enc data l : rs_New d k = Some enc -> Split enc data = Some l -> zlen l = d + k;
  code_encode d k enc l l' : rs_New d k = Some enc -> Encode enc l = Some l' ->
    length l' = length l;
  code_reconstruct d k enc l l' : rs_New d k = Some enc -> Reconstruct enc l = Some l' ->
    length l' = length l }.

Definition sends (p : Z) (ms : list BroadcastMessage) : list (Z * BroadcastMessage) :=
  (fun m => (p, m)) <$> ms.

Lemma elem_of_sends p ms q m : (q, m) ∈ sends p ms <-> q = p /\ m ∈ ms.
Proof.
  unfold sends. rewrite list_elem_of_fmap. split.
  - intros (x & [= -> ->] & Hx). done.
  - intros [-> Hm]. by exists m.
Qed.

(** ** What a handler may change *)

Section Handlers.
Context (rs_New : Z -> Z -> option Encoder).
Context (Prove : list bytes -> Z -> bytes * list bytes * Z * Z).
Context (VerifyProof : bytes -> list bytes -> Z -> Z -> bool).
Context `{!ErasureCode rs_New} `{!MerkleTree Prove VerifyProof}.

Definition root_of (shards : list bytes) : bytes := (Prove shards 0).1.1.1.

(** The value a node stores for reconstructed shards. *)
Definition value_of (r : rbc) (shards : list bytes) : bytes :=
  mjoin (take (Z.to_nat (r_numDataShards r)) shards).

Record same_conf (r r' : rbc) : Prop := {
  sc_cfg : r_cfg r' = r_cfg r;
  sc_pid : r_proposerID r' = r_proposerID r;
  sc_enc : r_enc r' = r_enc r;
  sc_par : r_numParityShards r' = r_numParityShards r;
  sc_dat : r_numDataShards r' = r_numDataShards r }.

(** Everything but the trace and the output is unchanged; a new output is the
value of shards of the decoded root. *)
Record decode_step (hash : bytes) (r r' : rbc) : Prop := {
  ds_conf : same_conf r r';
  ds_readys : r_recvReadys r' = r_recvReadys r;
  ds_echos : r_recvEchos r' = r_recvEchos r;
  ds_messages : r_messages r' = r_messages r;
  ds_echoSent : r_echoSent r' = r_echoSent r;
  ds_readySent : r_readySent r' = r_readySent r;
  ds_out v : r_output r' = Some v -> r_output r = Some v \/
  (2 * F (r_cfg r) < countReadys r hash /\ exists shards raw,
  Reconstruct (r_enc r) raw = Some shards /\
  zlen raw = Z.max 0 (r_numParityShards r + r_numDataShards r) /\
  root_of shards = hash /\ v = value_of r shards) }.

Lemma placeShard_length l ps l' : go_fold placeShard ps l = Ret l' -> length l' = length l.
Proof.
  revert l. induction ps as [|p ps IH]; intros l; cbn; [by intros [= ->]|].
  unfold placeShard at 1. destruct (_ && _); [|done]. destruct (Proof p); [done|]. cbn.
  intros E. apply IH in E. by rewrite length_insert in E.
Qed.

Lemma makeProofRequests_root shards p ps :
  makeProofRequests Prove shards = p :: ps -> RootHash p = root_of shards.
Proof.
  unfold makeProofRequests, root_of. destruct shards as [|s shards]; [done|].
  cbn. intros [= <- _]. unfold proofRequest.
  change (Z.of_nat 0) with 0. by destruct (Prove _ 0) as [[[? ?] ?] ?].
Qed.

Lemma tryDecode_spec range hash r r' err :
  tryDecodeValue Prove range hash r = Ret (r', err) -> decode_step hash r r'.
Proof.
  unfold tryDecodeValue.
  assert (forall t, decode_step hash r (set_rtrace r t)) as Hsame.
  { intros t. split; try done. by intros v Hv; left. }
  assert (decode_step hash r r) as Hr by (split; try done; by left).
  destruct (r_outputDecoded r || _ || _) eqn:Hg; [by intros [<- <-]%ret_pair|].
  apply orb_false_iff in Hg as [[Hd Hrd]%orb_false_iff Hec]. apply Z.leb_gt in Hrd. cbv zeta.
  destruct (go_fold _ _ _) as [raw| |] eqn:Hraw; try done. cbn [go_bind].
  destruct (Reconstruct _ _) as [shards|] eqn:Hrec; [|intros [<- <-]%ret_pair; apply Hsame].
  destruct (makeProofRequests Prove shards) as [|p ps] eqn:Hp;
    [intros [<- <-]%ret_pair; apply Hsame|].
  destruct (bool_decide _) eqn:Hroot; intros [<- <-]%ret_pair; [|apply Hsame].
  apply bool_decide_eq_true in Hroot. rewrite (makeProofRequests_root _ _ _ Hp) in Hroot.
  split; try done. cbn. intros v Hv. right. split; [done|]. exists shards, raw.
  split_and!; try done.
  - apply placeShard_length in Hraw. rewrite Hraw, length_replicate. cbn. lia.
  - unfold value_of. case_bool_decide; congruence.
Qed.
End Handlers.

(** ** The invariant of one node

    [T] holds what was sent so far: the soup and the node's own queue. *)

Section Node.
Context (rs_New : Z -> Z -> option Encoder).
Context (Prove : list bytes -> Z -> bytes * list bytes * Z * Z).
Context (VerifyProof : bytes -> list bytes -> Z -> Z -> bool).
Context `{!ErasureCode rs_New} `{!MerkleTree Prove VerifyProof}.
Context (nodes byz : gset Z) (pid n f : Z) (enc : Encoder).
Hypothesis byz_small : zsize byz <= f.
Hypothesis f_nonneg : 0 <= f.
Hypothesis enc_new : rs_New (n - 2 * f) (2 * f) = Some enc.

Abbreviation packets := (list (Z * BroadcastMessage)).

(** The root was echoed by a quorum, as far as correct nodes are concerned. *)
Definition EchoQuorum (T : packets) (h : bytes) : Prop :=
  exists A : gset Z, A ⊆ nodes /\ n - f <= zsize A /\
  forall a, a ∈ A -> a ∉ byz -> exists e, (a, mkBroadcast (PEcho e)) ∈ T /\ RootHash e = h.

(** Shards of an echoed root, and the value they carry. *)
Definition Certified (T : packets) (v : bytes) : Prop :=
  exists shards, EchoQuorum T (root_of Prove shards) /\ length shards = Z.to_nat n /\
  v = mjoin (take (Z.to_nat (n - 2 * f)) shards).

(** Roots of the values the proposer was given. *)
Definition Proposed (inputs : list bytes) (h : bytes) : Prop :=
  exists data shards, data ∈ inputs /\ makeShards enc data = inl shards /\
  h = root_of Prove shards.

(** What holds of the packets of the correct nodes. *)
Record PacketsOk (inputs : list bytes) (T : packets) : Prop := {
  po_ready q h : q ∉ byz -> (q, mkBroadcast (PReady h)) ∈ T -> EchoQuorum T h;
  po_echo q e : pid ∉ byz -> q ∉ byz -> (q, mkBroadcast (PEcho e)) ∈ T ->
  Proposed inputs (RootHash e);
  po_proof e : pid ∉ byz -> (pid, mkBroadcast (PProof e)) ∈ T -> Proposed inputs (RootHash e) }.

Record Core (T : packets) (p : Z) (r : rbc) : Prop := {
  co_n : N (r_cfg r) = n;
  co_f : F (r_cfg r) = f;
  co_id : ID (r_cfg r) = p;
  co_pid : r_proposerID r = pid;
  co_enc : r_enc r = enc;
  co_par : r_numParityShards r = 2 * f;
  co_dat : r_numDataShards r = n - 2 * f;
  co_echos q e : r_recvEchos r !! q = Some e ->
  q ∈ nodes /\ (q ∉ byz -> (q, mkBroadcast (PEcho e)) ∈ T);
  co_readys q h : r_recvReadys r !! q = Some h ->
  q ∈ nodes /\ (q ∉ byz -> (q, mkBroadcast (PReady h)) ∈ T);
  co_own e : r_recvEchos r !! p = Some e -> r_echoSent r = true;
  co_rdy h : r_recvReadys r !! p = Some h -> r_readySent r = true;
  co_out v : r_output r = Some v -> Certified T v }.

(** A node's own echo is the one it counts. *)
Definition EchoOnce (T : packets) (p : Z) (r : rbc) : Prop :=
  forall e, (p, mkBroadcast (PEcho e)) ∈ T -> r_recvEchos r !! p = Some e.

Lemma EchoQuorum_mono T T' h : T ⊆ T' -> EchoQuorum T h -> EchoQuorum T' h.
Proof.
  intros HT (A & HA & Hs & Hall). exists A. split_and!; [done..|]. intros a Ha Hb.
  destruct (Hall a Ha Hb) as (e & He & <-). exists e. split; [by apply HT|done].
Qed.

Lemma Certified_mono T T' v : T ⊆ T' -> Certified T v -> Certified T' v.
Proof.
  intros HT (sh & HQ & ?). exists sh. split; [by eapply EchoQuorum_mono|done].
Qed.

Lemma Core_mono T T' p r : T ⊆ T' -> Core T p r -> Core T' p r.
Proof.
  intros HT []. split; try done.
  - intros q e He. destruct (co_echos0 q e He) as [? Hs]. split; [done|].
    intros Hq. apply HT. auto.
  - intros q h Hh. destruct (co_readys0 q h Hh) as [? Hs]. split; [done|].
    intros Hq. apply HT. auto.
  - intros v Hv. eapply Certified_mono; [done|auto].
Qed.

(** The correct senders of a counted READY or ECHO. *)
Lemma readys_quorum T inputs p r h :
  Core T p r -> PacketsOk inputs T -> f < countReadys r h -> EchoQuorum T h.
Proof.
  intros HC HP Hc. unfold countReadys in Hc. rewrite <- size_dom in Hc.
  destruct (quorum_correct byz f byz_small _ Hc) as (q & Hq & Hb).
  apply elem_of_dom in Hq as [h' Hh]. apply map_lookup_filter_Some in Hh as [Hh Heq]. cbn in Heq. subst h'.
  eapply po_ready; [done|done|]. by apply (co_readys _ _ _ HC q h).
Qed.

Lemma echos_quorum T p r h :
  Core T p r -> n - f <= countEchos r h -> EchoQuorum T h.
Proof.
  intros HC Hc. unfold countEchos in Hc. rewrite <- size_dom in Hc.
  eexists. split; [|split; [exact Hc|]].
  - intros q [e He]%elem_of_dom. apply map_lookup_filter_Some in He as [He _].
    by apply (co_echos _ _ _ HC q e).
  - intros q [e He]%elem_of_dom Hb. apply map_lookup_filter_Some in He as [He Hr].
    exists e. split; [by apply (co_echos _ _ _ HC q e)|done].
Qed.

(** What a call on a node leaves: the packets sent are those before and the
new ones of the queue, only READYs unless [extra]. *)
Record Stepped (S : packets) (p : Z) (r r' : rbc) : Prop := {
  st_echos : r_recvEchos r ⊆ r_recvEchos r';
  st_queue : exists ms, r_messages r' = r_messages r ++ ms /\
  forall m, m ∈ ms -> exists h, m = mkBroadcast (PReady h) }.

Definition Good (inputs : list bytes) (S : packets) (p : Z) (r : rbc) : Prop :=
  Core (S ++ sends p (r_messages r)) p r /\ PacketsOk inputs (S ++ sends p (r_messages r)).

Lemma Stepped_quiet S p r r' :
  r_recvEchos r ⊆ r_recvEchos r' -> r_messages r' = r_messages r -> Stepped S p r r'.
Proof.
  intros ? Em. split; [done|]. exists []. rewrite Em, app_nil_r. split; [done|].
  by intros m ?%elem_of_nil.
Qed.

Lemma Stepped_refl S p r : Stepped S p r r.
Proof. by apply Stepped_quiet. Qed.

Lemma decode_good inputs S p range hash r r' err :
  Good inputs S p r -> tryDecodeValue Prove range hash r = Ret (r', err) ->
  Good inputs S p r' /\ Stepped S p r r'.
Proof.
  intros [HC HP] HE. apply tryDecode_spec in HE as [[] Hrd Hec Hm Hes Hrs Hout].
  unfold Good. rewrite Hm. split; [split; [|done]|].
  - pose proof HC as []. split; try congruence.
    + intros q e. rewrite Hec. auto.
    + intros q h. rewrite Hrd. auto.
    + intros e. rewrite Hec, Hes. apply co_own0.
    + intros h. rewrite Hrd, Hrs. apply co_rdy0.
    + intros v Hv. apply Hout in Hv as [Hv|(Hgt & sh & raw & Hrec & Hlen & <- & ->)];
        [by apply co_out0|].
      exists sh. split_and!.
      * eapply readys_quorum; try done. lia.
      * rewrite co_enc0 in Hrec.
        assert (length sh = length raw) by by eapply (code_reconstruct _ _ enc).
        lia.
      * unfold value_of. by rewrite co_dat0.
  - apply Stepped_quiet; [by rewrite Hec|done].
Qed.

Lemma sends_app p ms ms' : sends p (ms ++ ms') = sends p ms ++ sends p ms'.
Proof. apply fmap_app. Qed.

Lemma PacketsOk_ready inputs T p h :
  PacketsOk inputs T -> EchoQuorum T h -> PacketsOk inputs (T ++ [(p, mkBroadcast (PReady h))]).
Proof.
  intros [] HQ. split.
  - intros q h' Hq [HT|[= -> ->]%list_elem_of_singleton]%elem_of_app;
      (eapply EchoQuorum_mono; [apply list_subseteq_app_l; reflexivity|]); [by eapply po_ready0|done].
  - intros q e Hpid Hq [HT|[=]%list_elem_of_singleton]%elem_of_app. by eapply po_echo0.
  - intros e Hpid [HT|[=]%list_elem_of_singleton]%elem_of_app. by apply po_proof0.
Qed.

Lemma PacketsOk_echo inputs T p e :
  PacketsOk inputs T -> (pid ∉ byz -> Proposed inputs (RootHash e)) ->
  PacketsOk inputs (T ++ [(p, mkBroadcast (PEcho e))]).
Proof.
  intros [] HQ. split.
  - intros q h' Hq [HT|[=]%list_elem_of_singleton]%elem_of_app.
    eapply EchoQuorum_mono; [apply list_subseteq_app_l; reflexivity|]. by eapply po_ready0.
  - intros q e' Hpid Hq [HT|[= -> ->]%list_elem_of_singleton]%elem_of_app; [by eapply po_echo0|auto].
  - intros e' Hpid [HT|[=]%list_elem_of_singleton]%elem_of_app. by apply po_proof0.
Qed.

Lemma Stepped_trans S p r1 r2 r3 : Stepped S p r1 r2 -> Stepped S p r2 r3 -> Stepped S p r1 r3.
Proof.
  intros [He1 (ms1 & E1 & H1)] [He2 (ms2 & E2 & H2)]. split; [by transitivity (r_recvEchos r2)|].
  exists (ms1 ++ ms2). split; [by rewrite E2, E1, app_assoc|].
  intros m [Hm|Hm]%elem_of_app; auto.
Qed.

(** The node's own READY. *)
Lemma ready_good inputs S p r root r1 :
  Good inputs S p r -> p ∈ nodes -> EchoQuorum (S ++ sends p (r_messages r)) root ->
  same_conf r r1 -> r_recvEchos r1 = r_recvEchos r -> r_echoSent r1 = r_echoSent r ->
  r_recvReadys r1 = <[p := root]> (r_recvReadys r) -> r_readySent r1 = true ->
  r_output r1 = r_output r ->
  r_messages r1 = r_messages r ++ [mkBroadcast (PReady root)] ->
  Good inputs S p r1 /\ Stepped S p r r1.
Proof.
  intros [HC HP] Hp HQ [] Ee Es Er Ers Eo Em. split.
  - assert (S ++ sends p (r_messages r1) =
      (S ++ sends p (r_messages r)) ++ [(p, mkBroadcast (PReady root))]) as ET
      by by rewrite Em, sends_app, app_assoc.
    unfold Good. rewrite ET. split; [|by apply PacketsOk_ready].
    eapply (Core_mono _ ((S ++ sends p (r_messages r)) ++ [(p, mkBroadcast (PReady root))])) in HC;
      [|apply list_subseteq_app_l; reflexivity].
    destruct HC. split; try congruence.
    + intros q e. rewrite Ee. auto.
    + intros q h. rewrite Er. intros [[-> ->]|[_ Hh]]%lookup_insert_Some; [|auto].
      split; [done|]. intros _. apply elem_of_app. right. by apply list_elem_of_singleton.
    + intros e. rewrite Ee, Es. apply co_own0.
    + intros v. rewrite Eo. apply co_out0.
  - split; [by rewrite Ee|]. exists [mkBroadcast (PReady root)]. split; [done|].
    intros m ->%list_elem_of_singleton. by exists root.
Qed.

Lemma emitReady_good inputs S p range root trig r r' err :
  Good inputs S p r -> p ∈ nodes -> EchoQuorum (S ++ sends p (r_messages r)) root ->
  emitReady Prove range root trig r = Ret (r', err) ->
  Good inputs S p r' /\ Stepped S p r r'.
Proof.
  intros HG Hp HQ. unfold emitReady. destruct (r_readySent r); [by apply decode_good|].
  destruct (_ !! _); [intros [<- <-]%ret_pair; split; [done|apply Stepped_refl]|]. cbv zeta.
  match goal with |- tryDecodeValue _ _ _ ?r0 = _ -> _ => set (r1 := r0) end. intros HE.
  destruct (ready_good inputs S p r root r1) as [HG1 HS1]; try done.
  { cbn. by rewrite (co_id _ _ _ (proj1 HG)). }
  destruct (decode_good inputs S p range root r1 r' err) as [HG' HS']; [done..|].
  split; [done|by eapply Stepped_trans].
Qed.

(** A received READY, not yet acted upon. *)
Lemma recvReady_good inputs S p q h r :
  Good inputs S p r -> q ∈ nodes -> q <> p ->
  (q ∉ byz -> (q, mkBroadcast (PReady h)) ∈ S ++ sends p (r_messages r)) ->
  Good inputs S p (set_recvReadys r (<[q := h]> (r_recvReadys r))).
Proof.
  intros [HC HP] Hq Hne Hs. split; [|done]. destruct HC. split; try done; cbn.
  - intros q' h' [[-> ->]|[_ Hh]]%lookup_insert_Some; auto.
  - intros h' [[-> _]|[_ Hh]]%lookup_insert_Some; [done|by eapply co_rdy0].
Qed.

Lemma handleReady_good inputs S p range q h r r' err :
  Good inputs S p r -> p ∈ nodes -> q ∈ nodes -> q <> p ->
  (q ∉ byz -> (q, mkBroadcast (PReady h)) ∈ S ++ sends p (r_messages r)) ->
  handleReadyRequest Prove range q h r = Ret (r', err) ->
  Good inputs S p r' /\ Stepped S p r r'.
Proof.
  intros HG Hp Hq Hne Hs. unfold handleReadyRequest.
  destruct (_ !! _); [intros [<- <-]%ret_pair; split; [done|apply Stepped_refl]|]. cbv zeta.
  pose proof (recvReady_good inputs S p q h r HG Hq Hne Hs) as HG1.
  assert (Stepped S p r (set_recvReadys r (<[q := h]> (r_recvReadys r)))) as HS1
    by by apply Stepped_quiet.
  destruct (_ && _) eqn:Hc; intros HE.
  - apply andb_true_iff in Hc as [Hc _]. apply Z.eqb_eq in Hc.
    eapply emitReady_good in HE as [HG' HS']; [|exact HG1|exact Hp|].
    2: { destruct HG1 as [HC1 HP1]. eapply readys_quorum; [exact HC1|exact HP1|].
      pose proof (co_f _ _ _ HC1). lia. }
    split; [done|by eapply Stepped_trans].
  - eapply decode_good in HE as [HG' HS']; [|exact HG1].
    split; [done|by eapply Stepped_trans].
Qed.

Lemma recvEcho_good inputs S p q e r :
  Good inputs S p r -> q ∈ nodes -> (q = p -> r_echoSent r = true) ->
  (q ∉ byz -> (q, mkBroadcast (PEcho e)) ∈ S ++ sends p (r_messages r)) ->
  Good inputs S p (set_recvEchos r (<[q := e]> (r_recvEchos r))).
Proof.
  intros [HC HP] Hq Hown Hs. split; [|done]. destruct HC. split; try done; cbn.
  - intros q' e' [[-> ->]|[_ Hh]]%lookup_insert_Some; auto.
  - intros e' [[-> _]|[_ Hh]]%lookup_insert_Some; [auto|by eapply co_own0].
Qed.

Lemma handleEcho_good inputs S p range q e r r' err :
  Good inputs S p r -> p ∈ nodes -> q ∈ nodes -> (q = p -> r_echoSent r = true) ->
  (q ∉ byz -> (q, mkBroadcast (PEcho e)) ∈ S ++ sends p (r_messages r)) ->
  handleEchoRequest Prove VerifyProof range q e r = Ret (r', err) ->
  Good inputs S p r' /\ Stepped S p r r' /\
  (r_recvEchos r !! q = None -> validateProof VerifyProof e = true ->
  r_recvEchos r' !! q = Some e).
Proof.
  intros HG Hp Hq Hown Hs. unfold handleEchoRequest.
  destruct (_ !! _) eqn:Hlk;
    [intros [<- <-]%ret_pair; split_and!; [done|apply Stepped_refl|done]|].
  destruct (validateProof _ _);
    [|intros [<- <-]%ret_pair; split_and!; [done|apply Stepped_refl|done]].
  cbn [negb]. cbv zeta.
  pose proof (recvEcho_good inputs S p q e r HG Hq Hown Hs) as HG1.
  set (r1 := set_recvEchos r _) in *.
  assert (Stepped S p r r1) as HS1.
  { apply Stepped_quiet; [by apply insert_subseteq|done]. }
  assert (Stepped S p r1 r' -> r_recvEchos r' !! q = Some e) as Hself.
  { intros [Hsub _]. eapply lookup_weaken; [|exact Hsub]. apply lookup_insert_eq. }
  destruct (_ || _) eqn:Hc; intros HE.
  - eapply decode_good in HE as [HG' HS']; [|exact HG1].
    split_and!; [done|by eapply Stepped_trans|auto].
  - apply orb_false_iff in Hc as [_ Hc]. apply Z.ltb_ge in Hc.
    eapply emitReady_good in HE as [HG' HS']; [|exact HG1|exact Hp|].
    2: { destruct HG1 as [HC1 HP1]. eapply echos_quorum; [exact HC1|].
      pose proof (co_f _ _ _ HC1). pose proof (co_n _ _ _ HC1). lia. }
    split_and!; [done|by eapply Stepped_trans|auto].
Qed.

(** The whole invariant of a node between calls. *)
Definition Steady (inputs : list bytes) (S : packets) (p : Z) (r : rbc) : Prop :=
  Good inputs S p r /\ EchoOnce (S ++ sends p (r_messages r)) p r.

Lemma EchoOnce_stepped S p r r' :
  EchoOnce (S ++ sends p (r_messages r)) p r -> Stepped S p r r' ->
  EchoOnce (S ++ sends p (r_messages r')) p r'.
Proof.
  intros HO [Hsub (ms & Em & Hms)] e. rewrite Em, sends_app, app_assoc.
  intros [HT|[_ Hm]%elem_of_sends]%elem_of_app.
  - eapply lookup_weaken; [by apply HO|done].
  - by destruct (Hms _ Hm).
Qed.

Lemma Steady_stepped inputs S p r r' :
  Steady inputs S p r -> Good inputs S p r' -> Stepped S p r r' -> Steady inputs S p r'.
Proof. intros [_ HO] HG HS. split; [done|by eapply EchoOnce_stepped]. Qed.

Lemma handleProof_good inputs S p range q e r r' err :
  Steady inputs S p r -> p ∈ nodes -> p ∉ byz ->
  (q = pid -> pid ∉ byz -> Proposed inputs (RootHash e)) ->
  handleProofRequest Prove VerifyProof range q e r = Ret (r', err) ->
  Steady inputs S p r'.
Proof.
  intros HST Hp Hpb Hprop. unfold handleProofRequest. pose proof HST as [HG HO].
  destruct (Z.eqb_spec q (r_proposerID r)) as [Hq|]; [|by intros [<- <-]%ret_pair].
  destruct (r_echoSent r) eqn:Hes; [by intros [<- <-]%ret_pair|].
  destruct (validateProof _ _) eqn:Hval; [|by intros [<- <-]%ret_pair]. cbn [negb]. cbv zeta.
  match goal with |- handleEchoRequest _ _ _ _ _ ?r0 = _ -> _ => set (r1 := r0) end.
  intros HE. pose proof HG as [HC HP].
  assert (ID (r_cfg r1) = p) as Hid by apply HC. rewrite Hid in HE.
  assert (S ++ sends p (r_messages r1) =
    (S ++ sends p (r_messages r)) ++ [(p, mkBroadcast (PEcho e))]) as ET.
  { change (r_messages r1) with (r_messages r ++ [mkBroadcast (PEcho e)]).
    by rewrite sends_app, app_assoc. }
  assert (Good inputs S p r1) as HG1.
  { unfold Good. rewrite ET. split.
    - eapply (Core_mono _ ((S ++ sends p (r_messages r)) ++ [(p, mkBroadcast (PEcho e))])) in HC;
        [|apply list_subseteq_app_l; reflexivity].
      by destruct HC.
    - apply PacketsOk_echo; [done|]. apply Hprop. rewrite Hq. apply HC. }
  assert (r_recvEchos r !! p = None) as Hnone.
  { destruct (r_recvEchos r !! p) as [e'|] eqn:E; [|done]. apply (co_own _ _ _ HC) in E. congruence. }
  eapply handleEcho_good in HE as (HG' & HS' & Hself); [|exact HG1|exact Hp|exact Hp|done|].
  - split; [done|]. intros e'. destruct HS' as [Hsub (ms & Em & Hms)].
    rewrite Em, sends_app, app_assoc, ET.
    intros [[HT|[= ->]%list_elem_of_singleton]%elem_of_app|[_ Hm]%elem_of_sends]%elem_of_app.
    + apply HO in HT. congruence.
    + by apply Hself.
    + by destruct (Hms _ Hm).
  - intros _. rewrite ET. apply elem_of_app. right. by apply list_elem_of_singleton.
Qed.

Lemma message_good inputs S p range q m r r' err :
  Steady inputs S p r -> p ∈ nodes -> p ∉ byz -> q ∈ nodes -> q <> p -> q ∈ byz \/ (q, m) ∈ S ->
  rbc_handleMessage Prove VerifyProof range q m r = Ret (r', err) ->
  Steady inputs S p r'.
Proof.
  intros HST Hp Hpb Hq Hne Hdel. unfold rbc_handleMessage. pose proof HST as [HG HO].
  assert (q ∉ byz -> (q, m) ∈ S ++ sends p (r_messages r)) as Hs.
  { intros Hb. destruct Hdel; [done|]. apply elem_of_app. by left. }
  destruct m as [[e|e|h|]]; cbn.
  - apply handleProof_good; try done. intros -> Hb. eapply po_proof; [apply HG|done|auto].
  - intros HE. eapply handleEcho_good in HE as (HG' & HS' & _); [|exact HG|done..| |done].
    + by eapply Steady_stepped.
    + intros ->. eapply co_own; [apply HG|]. by apply HO, Hs.
  - intros HE. eapply handleReady_good in HE as (HG' & HS'); [|exact HG|done..].
    by eapply Steady_stepped.
  - by intros [<- <-]%ret_pair.
Qed.

(** ** A call that fails sends nothing *)

Lemma decode_err range hash r r' err :
  tryDecodeValue Prove range hash r = Ret (r', err) -> err = None.
Proof.
  unfold tryDecodeValue. destruct (_ || _); [by intros [_ <-]%ret_pair|]. cbv zeta.
  destruct (go_fold _ _ _); try done. cbn [go_bind].
  repeat case_match; by intros [_ <-]%ret_pair.
Qed.

Lemma emitReady_err range root trig r r' e :
  (forall h, r_recvReadys r !! ID (r_cfg r) = Some h -> r_readySent r = true) ->
  emitReady Prove range root trig r <> Ret (r', Some e).
Proof.
  intros Hr. unfold emitReady. destruct (r_readySent r) eqn:Hs; [by intros ?%decode_err|].
  destruct (_ !! _) as [h|] eqn:E; [by specialize (Hr h eq_refl)|]. cbv zeta. by intros ?%decode_err.
Qed.

Lemma handleEcho_err T p range q e r r' err :
  Core T p r -> handleEchoRequest Prove VerifyProof range q e r = Ret (r', Some err) ->
  r' = r /\ (r_recvEchos r !! q <> None \/ validateProof VerifyProof e = false).
Proof.
  intros HC. unfold handleEchoRequest.
  destruct (_ !! q) eqn:E; [intros [<- _]%ret_pair; by split; [|left]|].
  destruct (validateProof _ _); [|intros [<- _]%ret_pair; by split; [|right]].
  cbn [negb]. cbv zeta. destruct (_ || _); [by intros ?%decode_err|].
  intros HE. exfalso. revert HE. apply emitReady_err. cbn. rewrite (co_id _ _ _ HC).
  apply (co_rdy _ _ _ HC).
Qed.

Lemma handleProof_err T p range q e r r' err :
  Core T p r -> handleProofRequest Prove VerifyProof range q e r = Ret (r', Some err) -> r' = r.
Proof.
  intros HC. unfold handleProofRequest.
  destruct (negb _); [by intros [<- _]%ret_pair|].
  destruct (r_echoSent r) eqn:Hes; [by intros [<- _]%ret_pair|].
  destruct (validateProof _ _) eqn:Hval; [|by intros [<- _]%ret_pair]. cbn [negb]. cbv zeta.
  match goal with |- handleEchoRequest _ _ _ _ _ ?r0 = _ -> _ => set (r1 := r0) end.
  unfold handleEchoRequest.
  destruct (r_recvEchos r1 !! _) as [e'|] eqn:E.
  { exfalso. change (r_recvEchos r1) with (r_recvEchos r) in E.
    change (ID (r_cfg r1)) with (ID (r_cfg r)) in E. rewrite (co_id _ _ _ HC) in E.
    apply (co_own _ _ _ HC) in E. congruence. }
  rewrite Hval. cbn [negb]. cbv zeta. destruct (_ || _); [by intros ?%decode_err|].
  intros HE. exfalso. revert HE. apply emitReady_err. cbn. rewrite (co_id _ _ _ HC).
  apply (co_rdy _ _ _ HC).
Qed.

Lemma message_err T p range q m r r' err :
  Core T p r -> q <> p ->
  rbc_handleMessage Prove VerifyProof range q m r = Ret (r', Some err) -> r' = r.
Proof.
  intros HC Hne. unfold rbc_handleMessage. destruct (BPayload m) as [e|e|h|].
  - by eapply handleProof_err.
  - intros HE. by eapply handleEcho_err in HE as [-> _].
  - unfold handleReadyRequest. destruct (_ !! q); [by intros [<- _]%ret_pair|]. cbv zeta.
    destruct (_ && _); [|by intros ?%decode_err].
    intros HE. exfalso. revert HE. apply emitReady_err. cbn. rewrite (co_id _ _ _ HC).
    rewrite lookup_insert_ne by done. apply (co_rdy _ _ _ HC).
  - by intros [<- _]%ret_pair.
Qed.

Lemma input_err T p range data r r' ms err :
  Core T p r -> rbc_inputValue Prove VerifyProof range data r = Ret (r', (ms, Some err)) ->
  r' = r /\ ms = [].
Proof.
  intros HC. unfold rbc_inputValue.
  destruct (makeShards _ _) as [shards|e]; [|by intros [<- [= <- _]]%ret_pair].
  destruct (makeBroadcastMessages _ _) as [|m0 reqs]; [done|].
  destruct (BPayload m0); try done.
  destruct (handleProofRequest _ _ _ _ _ _) as [[r1 [e|]]| |] eqn:E; try done; cbn [go_bind].
  intros [<- [= <- _]]%ret_pair. split; [by eapply handleProof_err|done].
Qed.

(** Adding a value the proposer is given. *)
Lemma Steady_inputs inputs data S p r : Steady inputs S p r -> Steady (inputs ++ [data]) S p r.
Proof.
  intros [[HC [H1 H2 H3]] HO]. split; [|done]. split; [done|].
  assert (forall h, Proposed inputs h -> Proposed (inputs ++ [data]) h) as Hm.
  { intros h (d & sh & Hd & ?). exists d, sh. split; [|done]. apply elem_of_app. by left. }
  split; eauto.
Qed.

Lemma proofRequest_root shards i :
  (i < length shards)%nat -> RootHash (proofRequest Prove shards i) = root_of Prove shards.
Proof.
  intros Hi. unfold proofRequest, root_of. pose proof (merkle_root_index shards (Z.of_nat i)) as E.
  destruct (Prove shards (Z.of_nat i)) as [[[root pf] ix] k]. cbn in *. apply E. lia.
Qed.

(** The requests a proposer returns all carry the root of its shards. *)
Lemma input_good inputs S p range data r r' ms err :
  Steady inputs S p r -> p ∈ nodes -> p ∉ byz -> data ∈ inputs ->
  rbc_inputValue Prove VerifyProof range data r = Ret (r', (ms, err)) ->
  Steady inputs S p r' /\
  forall m, m ∈ ms -> exists e, m = mkBroadcast (PProof e) /\ Proposed inputs (RootHash e).
Proof.
  intros HST Hp Hpb Hdata. unfold rbc_inputValue. pose proof HST as [[HC _] _].
  destruct (makeShards (r_enc r) data) as [shards|e] eqn:Hsh;
    [|intros [<- [= <- <-]]%ret_pair; split; [done|by intros m ?%elem_of_nil]].
  rewrite (co_enc _ _ _ HC) in Hsh.
  assert (forall i, (i < length shards)%nat ->
    Proposed inputs (RootHash (proofRequest Prove shards i))) as Hprop.
  { intros i Hi. exists data, shards. split_and!; [done..|by apply proofRequest_root]. }
  unfold makeBroadcastMessages. destruct shards as [|s shards]; [done|].
  cbn [length seq fmap list_fmap BPayload].
  destruct (handleProofRequest _ _ _ _ _ _) as [[r1 e1]| |] eqn:HE; try done.
  cbn [go_bind]. intros Hret.
  assert (Steady inputs S p r1) as HS1.
  { eapply handleProof_good; [exact HST|done..| |exact HE].
    intros _ _. apply (Hprop 0%nat). cbn. lia. }
  destruct e1; apply ret_pair in Hret as [<- [= <- <-]]; split; try done;
    [by intros m ?%elem_of_nil|].
  intros m (i & -> & Hi)%list_elem_of_fmap. apply elem_of_seq in Hi.
  eexists. split; [done|]. apply Hprop. cbn. lia.
Qed.
End Node.

(** ** The network *)

Record rnet := mkRNet {
  rn_nodes : Z -> rbc;
  rn_soup : list (Z * BroadcastMessage);  (** every message sent so far *)
  rn_inputs : list bytes;                 (** values the proposer was given *)
  rn_outputs : list (Z * bytes) }.        (** results of [Output] *)

Definition rupd (st : Z -> rbc) (p : Z) (r : rbc) : Z -> rbc :=
  fun q => if q =? p then r else st q.

(** Stores the new state of [p] and sends its queue and the messages [ms]. *)
Definition rcommit (s : rnet) (p : Z) (r : rbc) (ms : list BroadcastMessage) : rnet :=
  let '(queued, r) := rbc_Messages r in
  mkRNet (rupd (rn_nodes s) p r) ((rn_soup s ++ sends p queued) ++ sends p ms)
    (rn_inputs s) (rn_outputs s).

Section Network.
Context (rs_New : Z -> Z -> option Encoder).
Context (Prove : list bytes -> Z -> bytes * list bytes * Z * Z).
Context (VerifyProof : bytes -> list bytes -> Z -> Z -> bool).
Context (nodes byz : gset Z) (init : Z -> rbc) (pid : Z).

Definition init_rnet : rnet := mkRNet init [] [] [].

Inductive rnet_step (s : rnet) : rnet -> Prop :=
  | rs_input data range r ms err :
  pid ∈ nodes -> pid ∉ byz -> (forall l, range l ≡ₚ l) ->
  rbc_inputValue Prove VerifyProof range data (rn_nodes s pid) = Ret (r, (ms, err)) ->
  rnet_step s (rcommit (mkRNet (rn_nodes s) (rn_soup s) (rn_inputs s ++ [data])
                        (rn_outputs s)) pid r ms)
  | rs_deliver p q m range r err :
  p ∈ nodes -> p ∉ byz -> q ∈ nodes -> q <> p -> q ∈ byz \/ (q, m) ∈ rn_soup s ->
  (forall l, range l ≡ₚ l) ->
  rbc_handleMessage Prove VerifyProof range q m (rn_nodes s p) = Ret (r, err) ->
  rnet_step s (rcommit s p r [])
  | rs_output p v r :
  p ∈ nodes -> p ∉ byz -> rbc_Output (rn_nodes s p) = (Some v, r) ->
  rnet_step s (mkRNet (rupd (rn_nodes s) p r) (rn_soup s) (rn_inputs s)
               (rn_outputs s ++ [(p, v)])).

Definition rreachable : rnet -> Prop := rtc rnet_step init_rnet.

Section Invariant.
Context `{!ErasureCode rs_New} `{!MerkleTree Prove VerifyProof}.
Context (cfg : Z -> Config) (n f : Z) (enc : Encoder).
Hypothesis cfg_ok : forall p, N (defaultF (cfg p)) = n /\ F (defaultF (cfg p)) = f /\
                  ID (defaultF (cfg p)) = p.
Hypothesis init_ok : forall p, newRBC rs_New (cfg p) pid = Ret (init p).
Hypothesis enc_new : rs_New (n - 2 * f) (2 * f) = Some enc.
Hypothesis nodes_n : zsize nodes = n.
Hypothesis byz_small : zsize byz <= f.
Hypothesis resilience : 3 * f < n.

Abbreviation steady := (Steady Prove nodes byz pid n f enc).
Abbreviation echoed := (EchoQuorum nodes byz n f).

Record RInv (s : rnet) : Prop := {
  ri_node p : p ∈ nodes -> p ∉ byz ->
  steady (rn_inputs s) (rn_soup s) p (rn_nodes s p) /\ r_messages (rn_nodes s p) = [];
  ri_packets : PacketsOk Prove nodes byz pid n f enc (rn_inputs s) (rn_soup s);
  ri_outputs p v : (p, v) ∈ rn_outputs s -> Certified Prove nodes byz n f (rn_soup s) v }.

Lemma init_RInv : RInv init_rnet.
Proof.
  assert (PacketsOk Prove nodes byz pid n f enc [] []) as HP
    by by split; intros; by match goal with H : _ ∈ [] |- _ => apply elem_of_nil in H end.
  split; [|done|by intros p v ?%elem_of_nil].
  intros p Hp Hb. cbn. specialize (init_ok p). unfold newRBC in init_ok.
  destruct (cfg_ok p) as (En & Ef & Eid). rewrite En, Ef, enc_new in init_ok.
  injection init_ok as <-. split; [|done]. split; [split|].
  - by split.
  - done.
  - by intros e ?%elem_of_nil.
Qed.

Lemma PacketsOk_proofs inputs T p ms :
  PacketsOk Prove nodes byz pid n f enc inputs T ->
  (forall m, m ∈ ms -> exists e, m = mkBroadcast (PProof e) /\
  Proposed Prove enc inputs (RootHash e)) ->
  PacketsOk Prove nodes byz pid n f enc inputs (T ++ sends p ms).
Proof.
  intros [] Hms. split.
  - intros q h Hq [HT|[_ Hm]%elem_of_sends]%elem_of_app; [|by destruct (Hms _ Hm) as (? & ? & _)].
    eapply EchoQuorum_mono; [apply list_subseteq_app_l; reflexivity|]. by eapply po_ready0.
  - intros q e Hpid Hq [HT|[_ Hm]%elem_of_sends]%elem_of_app; [by eapply po_echo0|].
    by destruct (Hms _ Hm) as (? & ? & _).
  - intros e Hpid [HT|[_ Hm]%elem_of_sends]%elem_of_app; [by apply po_proof0|].
    by destruct (Hms _ Hm) as (e' & [= ->] & ?).
Qed.

Lemma commit_RInv s p r ms :
  RInv s -> p ∈ nodes -> p ∉ byz -> steady (rn_inputs s) (rn_soup s) p r ->
  (forall m, m ∈ ms -> exists e, m = mkBroadcast (PProof e) /\
  Proposed Prove enc (rn_inputs s) (RootHash e)) ->
  RInv (rcommit s p r ms).
Proof.
  intros [Hnode HP Hout] Hp Hpb [[HC HP1] HO] Hms. cbn.
  set (T := rn_soup s ++ sends p (r_messages r)) in *.
  assert (PacketsOk Prove nodes byz pid n f enc (rn_inputs s) (T ++ sends p ms)) as HP2
    by by apply PacketsOk_proofs.
  assert (T ⊆ T ++ sends p ms) as HT by (apply list_subseteq_app_l; reflexivity).
  assert (rn_soup s ⊆ T ++ sends p ms) as HS.
  { etransitivity; [|exact HT]. apply list_subseteq_app_l; reflexivity. }
  assert (forall e, (p, mkBroadcast (PEcho e)) ∈ T ++ sends p ms ->
    (p, mkBroadcast (PEcho e)) ∈ T) as Hecho.
  { intros e [?|[_ Hm]%elem_of_sends]%elem_of_app; [done|].
    by destruct (Hms _ Hm) as (? & ? & _). }
  split; cbn; [|exact HP2|].
  - intros p' Hp' Hb'. unfold rupd. destruct (Z.eqb_spec p' p) as [->|Hne]; cbn.
    + split; [|done]. unfold Steady, Good. cbn. rewrite app_nil_r. split; [split; [|exact HP2]|].
      * eapply Core_mono in HC; [|exact HT]. by destruct HC.
      * intros e He. cbn. by apply HO, Hecho.
    + destruct (Hnode p' Hp' Hb') as [[[HC' _] HO'] Em]. split; [|done].
      unfold Steady, Good, EchoOnce in *. rewrite Em in *. cbn in *. rewrite app_nil_r in *.
      split; [split; [by eapply Core_mono|exact HP2]|].
      intros e [[He|[? _]%elem_of_sends]%elem_of_app|[? _]%elem_of_sends]%elem_of_app;
        [by apply HO'|congruence..].
  - intros q v Hv. eapply Certified_mono; [exact HS|by eapply Hout].
Qed.

Lemma step_RInv s s' : rnet_step s s' -> RInv s -> RInv s'.
Proof.
  intros Hst HI. pose proof HI as [Hnode HP Hout].
  assert (0 <= f) as Hf by lia.
  destruct Hst as [data range r ms err Hp Hb _ HE|p q m range r err Hp Hb Hq Hne Hdel _ HE|
    p v r Hp Hb HE].
  - destruct (Hnode pid Hp Hb) as [HS Em]. apply Steady_inputs with (data := data) in HS.
    eapply input_good in HE as [HS' Hms]; [|done..|apply elem_of_app; right;
      by apply list_elem_of_singleton].
    apply (commit_RInv (mkRNet _ _ _ _)); try done. split; try done.
    + intros p' Hp' Hb'. destruct (Hnode p' Hp' Hb'). split; [by apply Steady_inputs|done].
    + destruct (Hnode pid Hp Hb) as [HS0 Em0].
      apply Steady_inputs with (data := data) in HS0. destruct HS0 as [[_ HPo] _].
      rewrite Em0 in HPo. cbn in HPo. by rewrite app_nil_r in HPo.
  - destruct (Hnode p Hp Hb) as [HS Em].
    eapply message_good in HE; [|done..].
    apply commit_RInv; try done. by intros m' ?%elem_of_nil.
  - unfold rbc_Output in HE. destruct (r_output (rn_nodes s p)) as [v'|] eqn:Ev; [|done].
    injection HE as <- <-. destruct (Hnode p Hp Hb) as [[[HC HPs] HO] Em].
    rewrite Em in *. cbn in *. rewrite app_nil_r in *.
    split; cbn; [|done|].
    + intros p' Hp' Hb'. unfold rupd. destruct (Z.eqb_spec p' p) as [->|Hne]; [|by apply Hnode].
      split; [|done]. unfold Steady, Good. cbn. rewrite Em. cbn. rewrite app_nil_r.
      split; [split; [|done]|done]. destruct HC. by split.
    + intros q w [Hw|[= -> ->]%list_elem_of_singleton]%elem_of_app; [by eapply Hout|].
      by apply (co_out _ _ _ _ _ _ _ _ _ _ HC).
Qed.

Lemma rreachable_RInv s : rreachable s -> RInv s.
Proof.
  unfold rreachable. intros Hr. pose proof init_RInv as HI. induction Hr; [done|].
  apply IHHr. by eapply step_RInv.
Qed.

(** Two echo quorums share a correct node, which echoed one root. *)
Lemma echo_quorums_agree s h h' :
  RInv s -> echoed (rn_soup s) h -> echoed (rn_soup s) h' -> h = h'.
Proof.
  intros HI (A & HA & Hsz & Hall) (A' & HA' & Hsz' & Hall').
  destruct (quorum_meet nodes byz f byz_small A A' HA HA') as (a & Ha & Ha' & Hb); [lia|].
  destruct (Hall a Ha Hb) as (e & He & <-). destruct (Hall' a Ha' Hb) as (e' & He' & <-).
  destruct (ri_node _ HI a (HA a Ha) Hb) as [[_ HO] Em].
  unfold EchoOnce in HO. rewrite Em in HO. cbn in HO. rewrite app_nil_r in HO.
  apply HO in He, He'. congruence.
Qed.

Lemma certified_agree s v w :
  RInv s -> Certified Prove nodes byz n f (rn_soup s) v ->
  Certified Prove nodes byz n f (rn_soup s) w -> v = w.
Proof.
  intros HI (sh & HQ & Hl & ->) (sh' & HQ' & Hl' & ->).
  pose proof (echo_quorums_agree s _ _ HI HQ HQ') as E.
  apply merkle_root_inj in E; [by subst|congruence].
Qed.

(** With a correct proposer, a certified value is one it was given. *)
Lemma certified_proposed s v :
  RInv s -> pid ∉ byz -> Certified Prove nodes byz n f (rn_soup s) v ->
  exists data shards, data ∈ rn_inputs s /\ makeShards enc data = inl shards /\
  v = mjoin (take (Z.to_nat (n - 2 * f)) shards).
Proof.
  intros HI Hpid (sh & (A & HA & Hsz & Hall) & Hl & ->).
  destruct (quorum_correct byz f byz_small A) as (a & Ha & Hb); [lia|].
  destruct (Hall a Ha Hb) as (e & He & Hroot).
  destruct (po_echo _ _ _ _ _ _ _ _ _ (ri_packets _ HI) a e Hpid Hb He)
    as (data & sh' & Hd & Hsh & E).
  exists data, sh'. split_and!; [done..|]. rewrite Hroot in E.
  apply merkle_root_inj in E; [by subst|]. rewrite Hl. unfold makeShards in Hsh.
  destruct (Split enc data) as [l0|] eqn:E0; [|done].
  destruct (Encode enc l0) as [l1|] eqn:E1; [|done]. injection Hsh as <-.
  pose proof (code_split _ _ _ _ _ enc_new E0). pose proof (code_encode _ _ _ _ _ enc_new E1). lia.
Qed.
End Invariant.
End Network.

(** ** Running a schedule *)

Inductive raction :=
  | RInput (data : bytes)
  | RDeliver (p q : Z) (m : BroadcastMessage)
  | ROutput (p : Z).

Section Schedule.
Context (Prove : list bytes -> Z -> bytes * list bytes * Z * Z).
Context (VerifyProof : bytes -> list bytes -> Z -> Z -> bool).
Context (nodes byz : gset Z) (pid : Z).

Definition rcorrect (p : Z) : bool := bool_decide (p ∈ nodes /\ p ∉ byz).

Definition rrun_action (s : rnet) (a : raction) : option rnet :=
  match a with
  | RInput data =>
      match rbc_inputValue Prove VerifyProof (fun l => l) data (rn_nodes s pid) with
      | Ret (r, (ms, _)) =>
          if rcorrect pid
          then Some (rcommit (mkRNet (rn_nodes s) (rn_soup s) (rn_inputs s ++ [data])
            (rn_outputs s)) pid r ms)
          else None
      | _ => None
      end
  | RDeliver p q m =>
      match rbc_handleMessage Prove VerifyProof (fun l => l) q m (rn_nodes s p) with
      | Ret (r, _) =>
          if rcorrect p && bool_decide (q ∈ nodes /\ q <> p) && bool_decide (q ∈ byz \/ (q, m) ∈ rn_soup s)
          then Some (rcommit s p r [])
          else None
      | _ => None
      end
  | ROutput p =>
      match rbc_Output (rn_nodes s p) with
      | (Some v, r) =>
          if rcorrect p
          then Some (mkRNet (rupd (rn_nodes s) p r) (rn_soup s) (rn_inputs s)
            (rn_outputs s ++ [(p, v)]))
          else None
      | _ => Some s
      end
  end.

Fixpoint rrun (s : rnet) (l : list raction) : option rnet :=
  match l with
  | [] => Some s
  | a :: l => match rrun_action s a with Some s' => rrun s' l | None => None end
  end.

Lemma rrun_action_sound s a s' :
  rrun_action s a = Some s' -> rtc (rnet_step Prove VerifyProof nodes byz pid) s s'.
Proof.
  destruct a as [data|p q m|p]; cbn [rrun_action].
  - destruct (rbc_inputValue _ _ _ _ _) as [[r [ms err]]| |] eqn:E; try done.
    destruct (rcorrect pid) eqn:Hc; [|done]. apply bool_decide_eq_true in Hc as [? ?].
    intros [= <-]. apply rtc_once. by eapply rs_input; [..|exact E].
  - destruct (rbc_handleMessage _ _ _ _ _ _) as [[r err]| |] eqn:E; try done.
    destruct (_ && _) eqn:Hc; [|done].
    apply andb_true_iff in Hc as [[Hc Hq]%andb_true_iff Hd].
    apply bool_decide_eq_true in Hc as [? ?], Hq as [? ?], Hd.
    intros [= <-]. apply rtc_once. by eapply rs_deliver; [..|exact E].
  - destruct (rbc_Output _) as [[v|] r] eqn:E; [|by intros [= ->]].
    destruct (rcorrect p) eqn:Hc; [|done]. apply bool_decide_eq_true in Hc as [? ?].
    intros [= <-]. apply rtc_once. by apply rs_output.
Qed.

Lemma rrun_sound s l s' :
  rrun s l = Some s' -> rtc (rnet_step Prove VerifyProof nodes byz pid) s s'.
Proof.
  revert s. induction l as [|a l IH]; intros s; cbn; [by intros [= ->]|].
  destruct (rrun_action s a) as [s1|] eqn:E; [|done]. intros Hs.
  etransitivity; [by eapply rrun_action_sound|by apply IH].
Qed.
End Schedule.

(** ** A concrete code and tree: four nodes, the last one faulty *)

Module RDemo.
(** A root that spells out its leaves, each after its length. *)
Definition spell (l : list bytes) : bytes := mjoin ((fun b => zlen b :: b) <$> l).

Definition Prove (l : list bytes) (i : Z) : bytes * list bytes * Z * Z :=
  (spell l, [default [] (l !! Z.to_nat i)], i, zlen l).

Definition VerifyProof (root : bytes) (proof : list bytes) (i n : Z) : bool :=
  match proof with [] => false | _ => i <? n end.

(** Two data shards, each stored twice. *)
Definition copy (missing other : bytes) : bytes :=
  match missing with [] => other | _ => missing end.

Definition code : Encoder := {|
  Split data := let k := Nat.div2 (S (length data)) in
  Some [take k data; drop k data; []; []];
  Encode l := match l with [a; b; _; _] => Some [a; b; a; b] | _ => None end;
  Reconstruct l := match l with
  | [a; b; c; d] =>
  match copy a c, copy b d with
  | [], _ => None
  | _, [] => None
  | a', b' => Some [a'; b'; a'; b']
  end
  | _ => None
  end |}.

Definition rs_New (d k : Z) : option Encoder :=
  if (d =? 2) && (k =? 2) then Some code else None.

Lemma spell_inj l l' : length l = length l' -> spell l = spell l' -> l = l'.
Proof.
  revert l'. induction l as [|b l IH]; intros [|b' l'] Hl; try done.
  cbn. intros [= Hlen Happ]. apply app_inj_1 in Happ as [-> Hrest]; [|lia].
  f_equal. apply IH; [by injection Hl|done].
Qed.

#[global] Instance demo_tree : MerkleTree Prove VerifyProof.
Proof.
  split; cbn; try done.
  - intros l l' Hl E. by apply spell_inj.
  - intros l i Hi. split_and!; try done; [|apply Z.ltb_lt; lia].
    destruct (lookup_lt_is_Some_2 l (Z.to_nat i)) as [x ->]; [lia|done].
  - by intros root [|] i n.
Qed.

#[global] Instance demo_code : ErasureCode rs_New.
Proof.
  split; intros d k enc; unfold rs_New; destruct (_ && _) eqn:Hc; try done;
    apply andb_true_iff in Hc as [->%Z.eqb_eq ->%Z.eqb_eq].
  - by intros data l [= <-] [= <-].
  - intros [|a [|b [|c [|d [|]]]]] l' [= <-]; cbn; try done. by intros [= <-].
  - intros [|a [|b [|c [|d [|]]]]] l' [= <-]; cbn; try done.
    destruct (copy a c), (copy b d); try done. by intros [= <-].
Qed.

Definition ids : list Z := [0; 1; 2; 3].
Definition nodes : gset Z := list_to_set ids.
Definition byz : gset Z := {[3]}.
Definition cfg (p : Z) : Config := mkConfig 4 1 p ids 0.
Definition init (p : Z) : rbc :=
  mkRBC (cfg p) 0 code ∅ ∅ 2 2 [] false false false None [].

(** Each request goes to the node of its index, everything else to everyone. *)
Definition addressed (p : Z) (qm : Z * BroadcastMessage) : bool :=
  match BPayload qm.2 with PProof e => Index e =? p | _ => true end.

Definition flood (s : rnet) : list raction :=
  flat_map (fun p => (fun qm => RDeliver p qm.1 qm.2) <$> List.filter (fun qm => addressed p qm && negb (qm.1 =? p)) (rn_soup s))
  [0; 1; 2].

Definition round (os : option rnet) : option rnet :=
  match os with Some s => rrun Prove VerifyProof nodes byz 0 s (flood s) | None => None end.

Definition started : option rnet :=
  rrun Prove VerifyProof nodes byz 0 (init_rnet init) [RInput [7; 8; 9; 10]].

Definition quiet : option rnet := round (round (round started)).

Definition final : option rnet :=
  match quiet with
  | Some s => rrun Prove VerifyProof nodes byz 0 s (ROutput <$> [0; 1; 2])
  | None => None
  end.

Definition delivered : rnet := default (init_rnet init) final.

Lemma delivered_reachable : rreachable Prove VerifyProof nodes byz init 0 delivered.
Proof.
  assert (is_some final = true) as Hf by (vm_compute; reflexivity).
  destruct final as [s|] eqn:Hs; [clear Hf|done].
  unfold delivered. rewrite Hs. cbn. unfold final, quiet in Hs.
  destruct started as [s0|] eqn:E0; [|done].
  destruct (round (Some s0)) as [s1|] eqn:E1; [|done].
  destruct (round (Some s1)) as [s2|] eqn:E2; [|done].
  destruct (round (Some s2)) as [s3|] eqn:E3; [|done].
  unfold rreachable.
  etransitivity; [exact (rrun_sound _ _ _ _ _ _ _ _ E0)|].
  etransitivity; [exact (rrun_sound _ _ _ _ _ _ _ _ E1)|].
  etransitivity; [exact (rrun_sound _ _ _ _ _ _ _ _ E2)|].
  etransitivity; [exact (rrun_sound _ _ _ _ _ _ _ _ E3)|].
  exact (rrun_sound _ _ _ _ _ _ _ _ Hs).
Qed.
End RDemo.

(** ** The properties *)

(** C30.  Reliable broadcast agreement: in every reachable state of a network
    with [3F < N], all values output by correct nodes are equal, whatever a
    faulty proposer and the other faulty nodes sent. *)
Theorem rbc_agreement rs_New Prove VerifyProof `{!ErasureCode rs_New}
    `{!MerkleTree Prove VerifyProof} (nodes byz : gset Z) (cfg : Z -> Config) (init : Z -> rbc)
    (pid n f : Z) (enc : Encoder) (s : rnet)
  (Hcfg : forall p, N (defaultF (cfg p)) = n /\ F (defaultF (cfg p)) = f /\
                    ID (defaultF (cfg p)) = p)
  (Hinit : forall p, newRBC rs_New (cfg p) pid = Ret (init p))
  (Henc : rs_New (n - 2 * f) (2 * f) = Some enc)
  (Hnodes : zsize nodes = n) (Hbyz : zsize byz <= f) (Hn : 3 * f < n)
  (Hreach : rreachable Prove VerifyProof nodes byz init pid s) (p q : Z) (v w : bytes) :
  (p, v) ∈ rn_outputs s -> (q, w) ∈ rn_outputs s -> v = w.
Proof.
  intros Hv Hw.
  assert (RInv Prove nodes byz pid n f enc s) as HI by by eapply rreachable_RInv.
  eapply certified_agree; [done..|exact HI| |]; by eapply ri_outputs.
Qed.

(**  Reliable broadcast validity: when the proposer is correct, an output
    is the data shards of a value it was given. *)
Lemma rbc_validity rs_New Prove VerifyProof `{!ErasureCode rs_New}
    `{!MerkleTree Prove VerifyProof} (nodes byz : gset Z) (cfg : Z -> Config) (init : Z -> rbc)
    (pid n f : Z) (enc : Encoder) (s : rnet)
  (Hcfg : forall p, N (defaultF (cfg p)) = n /\ F (defaultF (cfg p)) = f /\
                    ID (defaultF (cfg p)) = p)
  (Hinit : forall p, newRBC rs_New (cfg p) pid = Ret (init p))
  (Henc : rs_New (n - 2 * f) (2 * f) = Some enc)
  (Hnodes : zsize nodes = n) (Hbyz : zsize byz <= f) (Hn : 3 * f < n)
  (Hpid : pid ∉ byz)
  (Hreach : rreachable Prove VerifyProof nodes byz init pid s) (p : Z) (v : bytes) :
  (p, v) ∈ rn_outputs s ->
  exists data shards, data ∈ rn_inputs s /\ makeShards enc data = inl shards /\
    v = mjoin (take (Z.to_nat (n - 2 * f)) shards).
Proof.
  intros Hv.
  assert (RInv Prove nodes byz pid n f enc s) as HI by by eapply rreachable_RInv.
  eapply certified_proposed; [done..|exact HI|done|by eapply ri_outputs].
Qed.

(** One READY root: all READY messages of correct nodes for one proposer
    carry the same Merkle root, even if the proposer is faulty. *)
Lemma rbc_ready_unique rs_New Prove VerifyProof `{!ErasureCode rs_New}
    `{!MerkleTree Prove VerifyProof} (nodes byz : gset Z) (cfg : Z -> Config) (init : Z -> rbc)
    (pid n f : Z) (enc : Encoder) (s : rnet)
  (Hcfg : forall p, N (defaultF (cfg p)) = n /\ F (defaultF (cfg p)) = f /\
                    ID (defaultF (cfg p)) = p)
  (Hinit : forall p, newRBC rs_New (cfg p) pid = Ret (init p))
  (Henc : rs_New (n - 2 * f) (2 * f) = Some enc)
  (Hnodes : zsize nodes = n) (Hbyz : zsize byz <= f) (Hn : 3 * f < n)
  (Hreach : rreachable Prove VerifyProof nodes byz init pid s) (p q : Z) (h k : bytes) :
  p ∉ byz -> q ∉ byz -> (p, mkBroadcast (PReady h)) ∈ rn_soup s ->
  (q, mkBroadcast (PReady k)) ∈ rn_soup s -> h = k.
Proof.
  intros Hp Hq Hh Hk.
  assert (RInv Prove nodes byz pid n f enc s) as HI by by eapply rreachable_RInv.
  pose proof (ri_packets _ _ _ _ _ _ _ _ HI) as [HR _ _].
  eapply echo_quorums_agree; [done..|exact HI| |]; eauto.
Qed.

(** In the run [RDemo.delivered] the proposer 0 is given a value and node 3 is
    faulty and silent: the three correct nodes output the value. *)
Lemma demo_outputs :
  rn_outputs RDemo.delivered = [(0, [7; 8; 9; 10]); (1, [7; 8; 9; 10]); (2, [7; 8; 9; 10])].
Proof. vm_compute. reflexivity. Qed.

Lemma demo_output p : p ∈ [0; 1; 2] -> (p, [7; 8; 9; 10]) ∈ rn_outputs RDemo.delivered.
Proof.
  rewrite demo_outputs. intros Hp.
  repeat (apply elem_of_cons in Hp as [->|Hp]; [repeat constructor|]).
  by apply elem_of_nil in Hp.
Qed.

Lemma demo_cfg p : N (defaultF (RDemo.cfg p)) = 4 /\ F (defaultF (RDemo.cfg p)) = 1 /\
  ID (defaultF (RDemo.cfg p)) = p.
Proof. done. Qed.

Lemma demo_init p : newRBC RDemo.rs_New (RDemo.cfg p) 0 = Ret (RDemo.init p).
Proof. done. Qed.

Lemma rbc_agreement_witness :
  exists v w, (0, v) ∈ rn_outputs RDemo.delivered /\ (2, w) ∈ rn_outputs RDemo.delivered /\ v = w.
Proof.
  exists [7; 8; 9; 10], [7; 8; 9; 10].
  pose proof (demo_output 0 ltac:(repeat constructor)) as H0.
  pose proof (demo_output 2 ltac:(repeat constructor)) as H2.
  split; [exact H0|]. split; [exact H2|].
  exact (rbc_agreement RDemo.rs_New RDemo.Prove RDemo.VerifyProof RDemo.nodes RDemo.byz RDemo.cfg
    RDemo.init 0 4 1 RDemo.code RDemo.delivered demo_cfg demo_init eq_refl ltac:(vm_compute; reflexivity)
    ltac:(vm_compute; congruence) ltac:(lia) RDemo.delivered_reachable 0 2 _ _ H0 H2).
Defined.

