(* ===== verification/RbcLocal.v ===== *)
(** * RbcLocal: what one broadcast instance does with its inputs

    When a decode panics ([rbc_decode_panics_iff]) and when it succeeds
    ([rbc_decode_complete]). *)

From S2P Require Import Prelude Trace Messages Bba Rbc RbcNet.

(** The guard of [tryDecodeValue]. *)
Definition decodable (r : rbc) (hash : bytes) : bool :=
  negb (r_outputDecoded r) && (2 * F (r_cfg r) <? countReadys r hash) &&
  (F (r_cfg r) <? countEchos r hash).

(** The echo can be placed among [n] shards: [shards[p.Index] = p.Proof[0]]
    does not panic. *)
Definition placeable (n : Z) (e : ProofRequest) : bool :=
  (0 <=? Index e) && (Index e <? n) && negb (bool_decide (Proof e = [])).

Definition shardCount (r : rbc) : Z := Z.max 0 (r_numParityShards r + r_numDataShards r).

Lemma decodable_spec r hash :
  (r_outputDecoded r || (countReadys r hash <=? 2 * F (r_cfg r)) ||
   (countEchos r hash <=? F (r_cfg r))) = negb (decodable r hash).
Proof.
  unfold decodable. rewrite !negb_andb, negb_involutive. by rewrite !Z.leb_antisym.
Qed.

Lemma placeShard_spec l p :
  (placeable (zlen l) p = true /\
   exists d rest, Proof p = d :: rest /\ placeShard l p = Ret (<[Z.to_nat (Index p) := d]> l)) \/
  (placeable (zlen l) p = false /\ placeShard l p = Panic).
Proof.
  unfold placeShard, placeable. destruct (_ && (_ <? _)); cbn [andb]; [|by right].
  destruct (Proof p) as [|d rest]; [by right|left]. split; [done|]. by exists d, rest.
Qed.

Lemma placeShards_panic ps l :
  if forallb (placeable (zlen l)) ps
  then exists l', go_fold placeShard ps l = Ret l' /\ length l' = length l
  else go_fold placeShard ps l = Panic.
Proof.
  revert l. induction ps as [|p ps IH]; intros l; cbn; [by exists l|].
  destruct (placeShard_spec l p) as [(-> & d & rest & _ & ->)|[-> ->]]; [|done]. cbn.
  specialize (IH (<[Z.to_nat (Index p) := d]> l)). rewrite length_insert in IH. exact IH.
Qed.

Lemma forallb_perm {A} (P : A -> bool) l l' : l ≡ₚ l' -> forallb P l = forallb P l'.
Proof.
  intros Hp. apply eq_true_iff_eq. rewrite !forallb_forall.
  split; intros H x Hx; apply H; [by rewrite Hp|by rewrite <- Hp].
Qed.

(** The proofs of the decoded root, in the order they are placed. *)
Definition placed (range : list ProofRequest -> list ProofRequest) (hash : bytes) (r : rbc)
  : list ProofRequest :=
  merge_sort Less_eq (filter (fun p => RootHash p = hash)
                        (range ((map_to_list (r_recvEchos r)).*2))).

Lemma elem_of_placed range hash r e :
  (forall l, range l ≡ₚ l) ->
  e ∈ placed range hash r <-> RootHash e = hash /\ exists q, r_recvEchos r !! q = Some e.
Proof.
  intros Hr. unfold placed. rewrite merge_sort_Permutation, list_elem_of_filter, Hr.
  rewrite list_elem_of_fmap. split.
  - intros (Hh & [q e'] & -> & He). apply elem_of_map_to_list in He. split; [done|by exists q].
  - intros (Hh & q & He). split; [done|]. exists (q, e). by rewrite elem_of_map_to_list.
Qed.

(** C32.  When decoding panics: exactly when the quorums for the root are there,
    nothing was decoded yet, and some echo of that root, from any sender, has
    an index outside the shards or an empty proof.  Nothing in [rbc.go]
    compares the index with the number of nodes. *)
Theorem rbc_decode_panics_iff Prove range hash r
    (Hrange : forall l, range l ≡ₚ l) :
  tryDecodeValue Prove range hash r = Panic <->
  decodable r hash = true /\ exists q e, r_recvEchos r !! q = Some e /\ RootHash e = hash /\
    placeable (shardCount r) e = false.
Proof.
  unfold tryDecodeValue. rewrite decodable_spec. destruct (decodable r hash); cbn [negb].
  2: { split; [done|by intros [? _]]. }
  change (merge_sort Less_eq _) with (placed range hash r). cbv zeta.
  set (l := replicate _ _). pose proof (placeShards_panic (placed range hash r) l) as HP.
  assert (zlen l = shardCount r) as El by (unfold l; rewrite length_replicate; unfold shardCount; cbn; lia).
  rewrite El in HP. destruct (forallb _ _) eqn:Hall.
  - destruct HP as (l' & -> & _). cbn [go_bind]. split.
    + repeat case_match; done.
    + intros (_ & q & e & He & Hh & Hp). rewrite forallb_forall in Hall.
      rewrite Hall in Hp; [done|]. apply list_elem_of_In, elem_of_placed; eauto.
  - rewrite HP. cbn [go_bind]. split; [|done]. intros _. split; [done|].
    apply not_true_iff_false in Hall. rewrite forallb_forall in Hall.
    destruct (decide (Exists (fun e => placeable (shardCount r) e = false) (placed range hash r)))
      as [Hex|Hno].
    + apply Exists_exists in Hex as (e & He & Hp). apply elem_of_placed in He as (Hh & q & Hq);
        [|done]. by exists q, e.
    + exfalso. apply Hall. intros e He. apply not_false_iff_true. intros Hp. apply Hno.
      apply Exists_exists. exists e. by rewrite list_elem_of_In.
Qed.

(** Node 1 got its request from the proposer 0 and an echo of the same root
    with index 7 from the faulty node 3, and READYs of the root. *)
Definition evil_shards : list bytes := [[7; 8]; [9; 10]; [7; 8]; [9; 10]].

Definition evil_root : bytes := RDemo.spell evil_shards.

Definition evil_echo : ProofRequest := mkProofRequest evil_root [[1]] 7 8.

Definition evil_run : go (rbc * option hberror) :=
  go_fold (fun rs qm => rbc_handleMessage RDemo.Prove RDemo.VerifyProof (fun l => l) qm.1 qm.2 rs.1)
    [(0, mkBroadcast (PProof (proofRequest RDemo.Prove evil_shards 1)));
     (3, mkBroadcast (PEcho evil_echo)); (0, mkBroadcast (PReady evil_root))] (RDemo.init 1, None).

Definition evil_state : rbc :=
  match evil_run with
  | Ret (r, _) => set_recvReadys r (<[1 := evil_root]> (<[2 := evil_root]> (r_recvReadys r)))
  | _ => RDemo.init 1
  end.

Lemma rbc_decode_panics_iff_witness :
  tryDecodeValue RDemo.Prove (fun l => l) evil_root evil_state = Panic /\
  match evil_run with
  | Ret (r, _) => rbc_handleMessage RDemo.Prove RDemo.VerifyProof (fun l => l) 2
                    (mkBroadcast (PReady evil_root)) r = Panic
  | _ => False
  end.
Proof.
  split; [|vm_compute; reflexivity].
  apply (rbc_decode_panics_iff RDemo.Prove (fun l => l) evil_root evil_state (fun l => ltac:(reflexivity))).
  split; [vm_compute; reflexivity|]. exists 3, evil_echo.
  split; [vm_compute; reflexivity|]. split; vm_compute; reflexivity.
Defined.

(** ** Decoding succeeds *)

(** Any [d] shards of an encoding determine it; the others may be missing. *)
Definition present (l : list bytes) : list bytes :=
  filter (fun s => s <> []) l.

Class MdsCode (rs_New : Z -> Z -> option Encoder) : Prop :=
  mds_reconstruct d k enc data shards l :
    rs_New d k = Some enc -> makeShards enc data = inl shards ->
    length l = length shards ->
    (forall i s, l !! i = Some s -> s = [] \/ shards !! i = Some s) ->
    d <= zlen (present l) -> Reconstruct enc l = Some shards.

(** A set of positions that satisfy [P] is no larger than the filtered list. *)
Lemma positions_filter {A} (P : A -> Prop) `{!forall x, Decision (P x)} (l : list A) (X : gset Z) :
  (forall x, x ∈ X -> 0 <= x /\ exists a, l !! Z.to_nat x = Some a /\ P a) ->
  (size X <= length (filter P l))%nat.
Proof.
  revert X. induction l as [|a l IH] using rev_ind; intros X HX.
  - assert (X = ∅) as ->; [|by rewrite size_empty]. apply set_eq. intros x. split; [|set_solver].
    intros Hx. destruct (HX x Hx) as (_ & a & Ha & _). by rewrite lookup_nil in Ha.
  - set (k := Z.of_nat (length l)).
    assert (size (X ∖ {[k]}) <= length (filter P l))%nat as HI.
    { apply IH. intros x Hx. apply elem_of_difference in Hx as [Hx Hne].
      destruct (HX x Hx) as (H0 & b & Hb & HP). split; [done|]. exists b. split; [|done].
      rewrite lookup_app_l in Hb; [done|]. apply lookup_lt_Some in Hb.
      rewrite length_app in Hb. cbn in Hb. set_solver by lia. }
    rewrite filter_app, length_app.
    destruct (decide (k ∈ X)) as [Hk|Hk].
    + destruct (HX k Hk) as (_ & b & Hb & HP). unfold k in Hb. rewrite Nat2Z.id in Hb.
      rewrite lookup_app_r, Nat.sub_diag in Hb by lia. injection Hb as ->.
      rewrite (filter_cons_True P) by done. cbn [length].
      rewrite size_difference, size_singleton in HI by set_solver. lia.
    + replace (X ∖ {[k]}) with X in HI; [lia|]. apply set_eq. set_solver.
Qed.

Section Complete.
Context (Prove : list bytes -> Z -> bytes * list bytes * Z * Z).
Context (VerifyProof : bytes -> list bytes -> Z -> Z -> bool).
Context `{!MerkleTree Prove VerifyProof}.
Context (shards : list bytes).
Hypothesis small : zlen shards < 2 ^ 63.

Definition honest (p : ProofRequest) : Prop :=
  exists i, (i < length shards)%nat /\ p = proofRequest Prove shards i.

Lemma honest_spec p : honest p -> exists i d rest,
  Index p = Z.of_nat i /\ shards !! i = Some d /\ Proof p = d :: rest.
Proof.
  intros (i & Hi & ->). unfold proofRequest.
  pose proof (merkle_complete shards (Z.of_nat i) ltac:(lia)) as HM.
  destruct (Prove shards (Z.of_nat i)) as [[[root pf] ix] m]. destruct HM as (-> & -> & Hh & _).
  rewrite Nat2Z.id in Hh. destruct (lookup_lt_is_Some_2 shards i Hi) as [d Hd].
  rewrite Hd in Hh. destruct pf as [|d' rest]; [done|]. injection Hh as ->.
  exists i, d, rest. split; [|done]. cbn. apply i64_small. lia.
Qed.

(** Placing honest proofs copies their shards. *)
Lemma place_honest ps l :
  Forall honest ps -> length l = length shards ->
  exists l', go_fold placeShard ps l = Ret l' /\ length l' = length shards /\
  (forall p, p ∈ ps -> exists i d, Index p = Z.of_nat i /\ l' !! i = Some d /\ shards !! i = Some d) /\
  (forall i s, l' !! i = Some s -> l !! i = Some s \/ shards !! i = Some s).
Proof.
  intros Hps. revert l. induction Hps as [|p ps Hp Hps IH]; intros l Hl.
  { exists l. split_and!; [done..|by intros p ?%elem_of_nil|auto]. }
  destruct (honest_spec p Hp) as (i & d & rest & Hi & Hd & HP).
  assert (i < length shards)%nat as Hlt by by eapply lookup_lt_Some.
  cbn. unfold placeShard at 1. rewrite HP, Hi, Nat2Z.id.
  rewrite (proj2 (Z.leb_le _ _)), (proj2 (Z.ltb_lt _ _)) by lia. cbn [andb go_bind].
  destruct (IH (<[i := d]> l)) as (l' & -> & Hlen & Hin & Hout); [by rewrite length_insert|].
  exists l'. split_and!; [done|done| |].
  - intros p' [->|Hp']%elem_of_cons; [|by apply Hin]. exists i, d. split_and!; [done| |done].
    destruct (lookup_lt_is_Some_2 l' i) as [s Hs]; [lia|].
    destruct (Hout i s Hs) as [E|E]; [|congruence].
    rewrite list_lookup_insert_eq in E by lia. congruence.
  - intros j s Hs. destruct (Hout j s Hs) as [E|E]; [|by right].
    apply list_lookup_insert_Some in E as [(-> & -> & _)|[_ E]]; auto.
Qed.
End Complete.

Lemma shards_length rs_New `{!ErasureCode rs_New} d k enc data shards :
  rs_New d k = Some enc -> makeShards enc data = inl shards -> zlen shards = d + k.
Proof.
  intros Henc. unfold makeShards. destruct (Split enc data) as [l0|] eqn:E0; [|done].
  destruct (Encode enc l0) as [l1|] eqn:E1; [|done]. intros [= <-].
  rewrite <- (code_split _ _ _ _ _ Henc E0). f_equal. by eapply code_encode.
Qed.

(** The indexes of the echos of a root. *)
Definition echoIndexes (r : rbc) (hash : bytes) : gset Z :=
  list_to_set (Index <$> placed (fun l => l) hash r).

(**  When decoding succeeds: if the quorums for the root of the shards of
    some data are there, every echo of the root is a request the proposer made
    of them, and the echos cover as many indexes as there are data shards,
    then the call stores exactly the data shards as the output. *)
Lemma rbc_decode_complete rs_New Prove VerifyProof `{!ErasureCode rs_New} `{!MdsCode rs_New}
    `{!MerkleTree Prove VerifyProof} range r data shards
  (Hrange : forall l, range l ≡ₚ l)
  (Henc : rs_New (r_numDataShards r) (r_numParityShards r) = Some (r_enc r))
  (Hpos : 0 < r_numDataShards r) (Hpar : 0 <= r_numParityShards r)
  (Hmake : makeShards (r_enc r) data = inl shards)
  (Hne : forall s, s ∈ shards -> s <> []) (Hsmall : zlen shards < 2 ^ 63)
  (Hdec : decodable r (root_of Prove shards) = true)
  (Hechos : forall q e, r_recvEchos r !! q = Some e -> RootHash e = root_of Prove shards ->
    honest Prove shards e)
  (Hcover : r_numDataShards r <= zsize (echoIndexes r (root_of Prove shards))) :
  exists r', tryDecodeValue Prove range (root_of Prove shards) r = Ret (r', None) /\
    r_outputDecoded r' = true /\
    r_output r' = Some (mjoin (take (Z.to_nat (r_numDataShards r)) shards)).
Proof.
  assert (zlen shards = r_numDataShards r + r_numParityShards r) as Hlen by by eapply shards_length.
  unfold tryDecodeValue. rewrite decodable_spec, Hdec. cbn [negb]. cbv zeta.
  change (merge_sort Less_eq _) with (placed range (root_of Prove shards) r).
  destruct (place_honest Prove VerifyProof shards Hsmall (placed range (root_of Prove shards) r)
    (replicate (Z.to_nat (r_numParityShards r + r_numDataShards r)) []))
    as (l & E & Hl & Hin & Hout).
  { apply Forall_forall. intros e (He & q & Hq)%elem_of_placed; [|done]. by eapply Hechos. }
  { rewrite length_replicate. lia. }
  cbn [r_numParityShards r_numDataShards rbcTrace set_rtrace r_enc]. rewrite E. cbn [go_bind].
  change (r_enc (rbcTrace _ _)) with (r_enc r).
  rewrite (mds_reconstruct _ _ _ data shards l Henc Hmake Hl).
  - destruct shards as [|s0 shards']; [cbn in Hlen; lia|].
    destruct (makeProofRequests Prove (s0 :: shards')) as [|p ps] eqn:Hp; [done|].
    apply makeProofRequests_root in Hp. rewrite bool_decide_true by done.
    eexists. split; [reflexivity|]. split; [done|]. cbn.
    assert (0 < Z.to_nat (r_numDataShards r))%nat as Hd by lia.
    destruct (Z.to_nat (r_numDataShards r)) as [|d]; [lia|]. cbn.
    destruct s0 as [|x s0]; [by destruct (Hne []); [left|]|done].
  - intros i s Hs. destruct (Hout i s Hs) as [Hr|]; [|by right].
    apply lookup_replicate in Hr as [-> _]. by left.
  - etransitivity; [exact Hcover|]. apply Nat2Z.inj_le, positions_filter.
    intros x Hx. unfold echoIndexes in Hx. apply elem_of_list_to_set, list_elem_of_fmap in Hx.
    destruct Hx as (e & -> & He).
    assert (e ∈ placed range (root_of Prove shards) r) as He'.
    { apply elem_of_placed; [done|]. by apply elem_of_placed in He. }
    destruct (Hin e He') as (i & d & -> & Hd & Hs). split; [lia|]. rewrite Nat2Z.id.
    exists d. split; [done|]. apply Hne. by eapply list_elem_of_lookup_2.
Qed.

(** One data shard and two copies of it. *)
Definition mirror : Encoder := {|
  Split data := match data with [] => None | _ => Some [data; []; []] end;
  Encode l := match l with [a; _; _] => Some [a; a; a] | _ => None end;
  Reconstruct l := match l with
    | [_; _; _] => match present l with s :: _ => Some [s; s; s] | [] => None end
    | _ => None
    end |}.

Definition mirror_New (d k : Z) : option Encoder :=
  if (d =? 1) && (k =? 2) then Some mirror else None.

Lemma mirror_New_inv d k enc : mirror_New d k = Some enc -> d = 1 /\ k = 2 /\ enc = mirror.
Proof.
  unfold mirror_New. destruct (_ && _) eqn:Hc; [|done].
  apply andb_true_iff in Hc as [->%Z.eqb_eq ->%Z.eqb_eq]. by intros [= <-].
Qed.

#[global] Instance mirror_code : ErasureCode mirror_New.
Proof.
  split; intros d k enc; cbn.
  - intros data l (-> & -> & ->)%mirror_New_inv. destruct data; [done|]. by intros [= <-].
  - intros l l' (-> & -> & ->)%mirror_New_inv. cbn.
    destruct l as [|a [|b [|c [|]]]]; try done. by intros [= <-].
  - intros l l' (-> & -> & ->)%mirror_New_inv. cbn.
    destruct l as [|a [|b [|c [|]]]]; try done. case_match; try done. by intros [= <-].
Qed.

#[global] Instance mirror_mds : MdsCode mirror_New.
Proof.
  intros d k enc data shards l (-> & -> & ->)%mirror_New_inv Hm Hl Hin Hp.
  unfold makeShards in Hm. cbn in Hm. destruct data as [|x data]; [done|]. injection Hm as <-.
  destruct l as [|a [|b [|c [|]]]]; try done. cbn [Reconstruct mirror].
  destruct (present [a; b; c]) as [|s ss] eqn:E; [cbn in Hp; lia|].
  assert (s ∈ [a; b; c] /\ s <> []) as [Hs Hne].
  { assert (s ∈ present [a; b; c]) as Hs by (rewrite E; by left).
    apply list_elem_of_filter in Hs as [Hne Hs]. by split. }
  apply list_elem_of_lookup in Hs as [i Hi]. destruct (Hin i s Hi) as [|Hs]; [done|].
  destruct i as [|[|[|i]]]; cbn in Hs; try done; by injection Hs as <-.
Qed.

(** Node 1 of three holds its own echo and that of node 2, and three READYs. *)
Definition mirror_shards : list bytes := [[5; 6]; [5; 6]; [5; 6]].

Definition mirror_state : rbc :=
  let root := root_of RDemo.Prove mirror_shards in
  mkRBC (mkConfig 3 1 1 [0; 1; 2] 0) 0 mirror
    (<[0 := root]> (<[1 := root]> (<[2 := root]> ∅)))
    (<[1 := proofRequest RDemo.Prove mirror_shards 1]>
       (<[2 := proofRequest RDemo.Prove mirror_shards 2]> ∅)) 2 1 [] true true false None [].

