(* ===== verification/Acs.v ===== *)
(** * Acs: the asynchronous common subset

    Models [sbc/hbbft/acs.go].  One [acs] runs a broadcast and a binary
    agreement instance per node and routes messages to them.  All instances
    share one trace recorder: the calls an instance logs while it handles a
    call are appended to [a_trace] in the order they happen.  [range] orders
    the entries of [recvEchos], [order] the keys of [bbaInstances]. *)

From S2P Require Import Prelude Trace Messages Bba Rbc.

Record acs := mkAcs {
  a_cfg : Config;
  a_rbc : gmap Z rbc;
  a_bba : gmap Z bba;
  a_rbcResults : gmap Z bytes;
  a_bbaResults : gmap Z bool;
  a_output : option (gmap Z bytes);
  a_que : messageQue ACSMessage;
  a_decided : bool;
  a_trace : list trace_call }.

(** ** Field updates *)

Definition set_rbc a x := mkAcs (a_cfg a) x (a_bba a) (a_rbcResults a) (a_bbaResults a)
  (a_output a) (a_que a) (a_decided a) (a_trace a).
Definition set_bba a x := mkAcs (a_cfg a) (a_rbc a) x (a_rbcResults a) (a_bbaResults a)
  (a_output a) (a_que a) (a_decided a) (a_trace a).
Definition set_rbcResults a x := mkAcs (a_cfg a) (a_rbc a) (a_bba a) x (a_bbaResults a)
  (a_output a) (a_que a) (a_decided a) (a_trace a).
Definition set_bbaResults a x := mkAcs (a_cfg a) (a_rbc a) (a_bba a) (a_rbcResults a) x
  (a_output a) (a_que a) (a_decided a) (a_trace a).
Definition set_aoutput a out decided := mkAcs (a_cfg a) (a_rbc a) (a_bba a) (a_rbcResults a)
  (a_bbaResults a) out (a_que a) decided (a_trace a).
Definition set_que a x := mkAcs (a_cfg a) (a_rbc a) (a_bba a) (a_rbcResults a) (a_bbaResults a)
  (a_output a) x (a_decided a) (a_trace a).
Definition set_atrace a x := mkAcs (a_cfg a) (a_rbc a) (a_bba a) (a_rbcResults a)
  (a_bbaResults a) (a_output a) (a_que a) (a_decided a) x.

Definition acsTrace (a : acs) (c : trace_call) : acs := set_atrace a (a_trace a ++ [c]).

(** Stores an instance and logs the calls it made since it was [old]. *)
Definition put_rbc (a : acs) (id : Z) (old r : rbc) : acs :=
  set_atrace (set_rbc a (<[id := r]> (a_rbc a)))
    (a_trace a ++ drop (length (r_trace old)) (r_trace r)).

Definition put_bba (a : acs) (id : Z) (old b : bba) : acs :=
  set_atrace (set_bba a (<[id := b]> (a_bba a)))
    (a_trace a ++ drop (length (b_trace old)) (b_trace b)).

(** ** Queries *)

Definition countTruthyAgreements (a : acs) : Z :=
  zsize (filter (fun kv : Z * bool => kv.2 = true) (a_bbaResults a)).

(** Whether every truthy agreement has its broadcast value. *)
Definition truthyReady (a : acs) : bool :=
  forallb (fun kv => negb kv.2 || is_some (a_rbcResults a !! kv.1)) (map_to_list (a_bbaResults a)).

Definition waitingReason (a : acs) : string :=
  if a_decided a then ""
  else if countTruthyAgreements a <? N (a_cfg a) - F (a_cfg a) then waitForTrueBBAResults
  else if zsize (a_bbaResults a) <? N (a_cfg a) then waitForAllBBAResults
  else if truthyReady a then "ready_to_complete" else waitForTruthyRBCOutputs.

Definition recordTraceState (a : acs) : acs :=
  let quorum := N (a_cfg a) - F (a_cfg a) in
  let truthy := countTruthyAgreements a in
  let a := if 0 <? zsize (a_rbcResults a)
           then acsTrace a (CallAggregate traceACSFirstRBCOutput) else a in
  let a := if quorum <=? zsize (a_rbcResults a)
           then acsTrace a (CallAggregate traceACSRBCOutputQuorum) else a in
  let a := if 0 <? truthy then acsTrace a (CallAggregate traceACSFirstTrueBBA) else a in
  let a := if quorum <=? truthy then acsTrace a (CallAggregate traceACSTrueBBAQuorum) else a in
  let a := if zsize (a_bbaResults a) =? N (a_cfg a)
           then acsTrace a (CallAggregate traceACSAllBBADecided) else a in
  if (truthy <? quorum) || (zsize (a_bbaResults a) <? N (a_cfg a)) then a
  else if truthyReady a then acsTrace a (CallAggregate traceACSTruthyRBCReady) else a.

(** Queues the payload for every other node. *)
Definition addACSMessage (a : acs) (from : Z) (payload : acsPayload) : acs :=
  fold_left (fun a id => set_que a (que_addMessage (a_que a) (mkACSMessage from payload) id))
    (uint64sWithout (Nodes (a_cfg a)) (ID (a_cfg a))) a.

(** [for _, msg := range msgs { a.addMessage(from, msg) }] *)
Definition addACSMessages (a : acs) (from : Z) (payloads : list acsPayload) : acs :=
  fold_left (fun a p => addACSMessage a from p) payloads a.

#[export] Instance Zle_dec : RelDecision Z.le := Z_le_dec.

Definition sortedIDs (l : list Z) : list Z := merge_sort Z.le l.

Definition truthyIDs (results : gmap Z bool) : list Z :=
  sortedIDs ((map_to_list (filter (fun kv : Z * bool => kv.2 = true) results)).*1).

(** The broadcast values of the given ids, or [None] when one is missing. *)
Fixpoint collectResults (ids : list Z) (rbcResults acc : gmap Z bytes) : option (gmap Z bytes) :=
  match ids with
  | [] => Some acc
  | id :: ids =>
    match rbcResults !! id with
    | None => None
    | Some val => collectResults ids rbcResults (<[id := val]> acc)
    end
  end.

Definition tryCompleteAgreement (a : acs) : acs :=
  let a := recordTraceState a in
  let a := acsTrace a (CallTransitionWait (waitingReason a)) in
  if a_decided a || (countTruthyAgreements a <? N (a_cfg a) - F (a_cfg a)) then a
  else if zsize (a_bbaResults a) <? N (a_cfg a) then a
  else
    match collectResults (truthyIDs (a_bbaResults a)) (a_rbcResults a) ∅ with
    | None => a
    | Some bcResults =>
      let a := set_aoutput a (Some bcResults) true in
      let a := acsTrace a (CallAggregate traceACSCoreDecision) in
      acsTrace a CallFinishWait
    end.

(** Returns the output, if any, and forgets it. *)
Definition acs_Output (a : acs) : option (gmap Z bytes) * acs :=
  match a_output a with
  | Some out => (Some out, set_aoutput a None (a_decided a))
  | None => (None, a)
  end.

Definition Done (a : acs) : bool :=
  forallb (fun kv => b_done kv.2) (map_to_list (a_bba a)) && (que_len (a_que a) =? 0).

Record ACSProgress := mkACSProgress {
  ap_Decided : bool; ap_QueuedMessages : Z; ap_RBCOutputs : Z; ap_RBCOutputIDs : list Z;
  ap_BBAResultCount : Z; ap_BBAResults : gmap Z bool; ap_TruthyBBAResults : Z;
  ap_TruthyBBAProposerIDs : list Z; ap_WaitingReason : string;
  ap_RBC : gmap Z RBCProgress; ap_BBA : gmap Z BBAProgress }.

Definition acs_progress (a : acs) : ACSProgress :=
  mkACSProgress (a_decided a) (que_len (a_que a)) (zsize (a_rbcResults a))
    (sortedIDs ((map_to_list (a_rbcResults a)).*1))
    (zsize (a_bbaResults a)) (a_bbaResults a) (countTruthyAgreements a)
    (truthyIDs (a_bbaResults a)) (waitingReason a)
    (map_imap (fun id r =>
       let p := rbc_progress r in
       Some (if is_some (a_rbcResults a !! id)
             then mkRBCProgress (rp_Echos p) (rp_Readys p) (rp_EchoSent p) (rp_ReadySent p)
                    (rp_OutputDecoded p) true
             else p)) (a_rbc a))
    (progress <$> a_bba a).

(** ** Operations *)

Section Acs.
Context (rs_New : Z -> Z -> option Encoder).
Context (Prove : list bytes -> Z -> bytes * list bytes * Z * Z).
Context (VerifyProof : bytes -> list bytes -> Z -> Z -> bool).

Definition newACS (cfg : Config) : go acs :=
  let cfg := defaultF cfg in
  let! (rbcs, bbas) :=
  go_fold (fun (m : gmap Z rbc * gmap Z bba) id =>
           let! r := newRBC rs_New cfg id in
           Ret (<[id := r]> m.1, <[id := newBBA cfg id]> m.2)) (Nodes cfg) (∅, ∅) in
  Ret (mkAcs cfg rbcs bbas ∅ ∅ None newMessageQue false []).

Section Calls.
Context (range : list ProofRequest -> list ProofRequest) (order : list Z -> list Z) (fuel : nat).

(** [false] for the instances of [ids] without input yet. *)
Fixpoint injectFalse (ids : list Z) (falseInputRecorded : bool) (a : acs)
  : go (acs * option hberror) :=
  match ids with
  | [] => Ret (a, None)
  | id :: ids =>
      match a_bba a !! id with
      | None => injectFalse ids falseInputRecorded a
      | Some b =>
          if AcceptInput b then
            let a := if falseInputRecorded then a
            else acsTrace a (CallAggregate traceACSFalseInputInjected) in
          let! (b1, err) := InputValue fuel false b in
          let a := put_bba a id b b1 in
          match err with
          | Some e => Ret (a, Some e)
          | None =>
              let '(msgs, b2) := Messages b1 in
              let a := addACSMessages (put_bba a id b1 b2) id (PAgreement <$> msgs) in
              match Output b2 with
              | (Some v, b3) =>
                  let a := put_bba a id b2 b3 in
                  let a := set_bbaResults a (<[id := v]> (a_bbaResults a)) in
                  injectFalse ids true (recordTraceState a)
              | (None, _) => injectFalse ids true a
              end
          end
            else injectFalse ids falseInputRecorded a
      end
  end.

Definition processAgreement (pid : Z) (f : bba -> go (bba * option hberror)) (a : acs)
  : go (acs * option hberror) :=
  match a_bba a !! pid with
  | None => Ret (a, Some (ErrNoBBAInstance pid))
  | Some b =>
      if b_done b then Ret (a, None) else
      let! (b1, err) := f b in
      let a := put_bba a pid b b1 in
      match err with
      | Some e => Ret (a, Some e)
      | None =>
          let '(msgs, b2) := Messages b1 in
          let a := addACSMessages (put_bba a pid b1 b2) pid (PAgreement <$> msgs) in
          match Output b2 with
          | (None, _) => Ret (a, None)
          | (Some v, b3) =>
              let a := put_bba a pid b2 b3 in
              match a_bbaResults a !! pid with
              | Some _ => Ret (a, Some (ErrMultipleBBAResults pid))
              | None =>
                  let a := set_bbaResults a (<[pid := v]> (a_bbaResults a)) in
                  let a := recordTraceState a in
                  let! (a, err) :=
                    if v && (countTruthyAgreements a =? N (a_cfg a) - F (a_cfg a))
                    then injectFalse (order ((map_to_list (a_bba a)).*1)) false a
                    else Ret (a, None) in
                  match err with
                  | Some e => Ret (a, Some e)
                  | None => Ret (tryCompleteAgreement a, None)
                  end
              end
          end
      end
  end.

(** The closure that inputs [true] when the instance still takes an input. *)
Definition inputTrue (b : bba) : go (bba * option hberror) :=
  if AcceptInput b then InputValue fuel true b else Ret (b, None).

Definition processBroadcast (pid : Z) (f : rbc -> go (rbc * option hberror)) (a : acs)
  : go (acs * option hberror) :=
  match a_rbc a !! pid with
  | None => Ret (a, Some (ErrNoRBCInstance pid))
  | Some r =>
      let! (r1, err) := f r in
      let a := put_rbc a pid r r1 in
      match err with
      | Some e => Ret (a, Some e)
      | None =>
          let '(msgs, r2) := rbc_Messages r1 in
          let a := addACSMessages (put_rbc a pid r1 r2) pid (PBroadcast <$> msgs) in
          match rbc_Output r2 with
          | (None, _) => Ret (a, None)
          | (Some output, r3) =>
              let a := put_rbc a pid r2 r3 in
              let a := set_rbcResults a (<[pid := output]> (a_rbcResults a)) in
              let a := recordTraceState a in
              let! (a, err) := processAgreement pid inputTrue a in
              match err with
              | Some e => Ret (a, Some e)
              | None => Ret (tryCompleteAgreement a, None)
              end
          end
      end
  end.

Definition handleAgreement (sid pid : Z) (msg : AgreementMessage) : acs -> go (acs * option hberror) :=
  processAgreement pid (HandleMessage fuel sid msg).

Definition handleBroadcast (sid pid : Z) (msg : BroadcastMessage) : acs -> go (acs * option hberror) :=
  processBroadcast pid (rbc_handleMessage Prove VerifyProof range sid msg).

Definition acs_handleMessage (senderID : Z) (msg : ACSMessage) (a : acs)
  : go (acs * option hberror) :=
  match Payload msg with
  | PAgreement t => handleAgreement senderID (ProposerID msg) t a
  | PBroadcast t => handleBroadcast senderID (ProposerID msg) t a
  | OtherACS => Ret (a, Some ErrUnknownACSMessage)
  end.

(** [for i, id := range ids { a.messageQue.addMessage(&ACSMessage{a.ID, reqs[i]}, id) }] *)
Fixpoint addRequests (ids : list Z) (reqs : list BroadcastMessage) (a : acs) : go acs :=
  match ids with
  | [] => Ret a
  | id :: ids =>
      match reqs with
      | [] => Panic
      | req :: reqs =>
          addRequests ids reqs
          (set_que a (que_addMessage (a_que a) (mkACSMessage (ID (a_cfg a)) (PBroadcast req)) id))
      end
  end.

Definition acs_inputValue (data : bytes) (a : acs) : go (acs * option hberror) :=
  let a := acsTrace a (CallAggregate traceACSInputStarted) in
  let a := acsTrace a (CallTransitionWait waitForTrueBBAResults) in
  let id := ID (a_cfg a) in
  match a_rbc a !! id with
  | None => Ret (a, Some (ErrNoRBCInstance id))
  | Some r =>
      let! (r1, res) := rbc_inputValue Prove VerifyProof range data r in
      let a := put_rbc a id r r1 in
      match res with
      | (_, Some e) => Ret (a, Some e)
      | (reqs, None) =>
          if negb (zlen reqs =? N (a_cfg a) - 1)
          then Ret (a, Some (ErrProofCount (N (a_cfg a)) (zlen reqs)))
          else
          let! a := addRequests (uint64sWithout (Nodes (a_cfg a)) id) reqs a in
          let '(msgs, r2) := rbc_Messages r1 in
          let a := addACSMessages (put_rbc a id r1 r2) id (PBroadcast <$> msgs) in
          match rbc_Output r2 with
          | (None, _) => Ret (a, None)
          | (Some output, r3) =>
              let a := put_rbc a id r2 r3 in
              let a := set_rbcResults a (<[id := output]> (a_rbcResults a)) in
              let a := recordTraceState a in
              (* the error of [processAgreement] is dropped *)
              let! (a, _) := processAgreement id inputTrue a in
              Ret (a, None)
          end
      end
  end.
End Calls.
End Acs.
