(* ===== verification/AcsLocal.v ===== *)
(** * AcsLocal: what a common-subset instance does with its own state

    Facts about the pieces of [Acs]: the queue, the collected results, the
    completion check, and the binary agreement calls it makes. *)

From S2P Require Import Prelude Trace Messages Bba Rbc Acs.

(** ** Binary agreement calls *)

(** A pending output is the decision. *)
Definition OutputIsDecision (b : bba) : Prop :=
  forall v, b_output b = Some v -> b_decision b = Some v.

(** [OutputIsDecision] is kept and a decision is final. *)
Definition decides (b b' : bba) : Prop :=
  (OutputIsDecision b -> OutputIsDecision b') /\
  forall v, b_decision b = Some v -> b_decision b' = Some v.

Lemma decides_frame b b' :
  b_output b' = b_output b -> b_decision b' = b_decision b -> decides b b'.
Proof. intros Eo Ed. unfold decides, OutputIsDecision. by rewrite Eo, Ed. Qed.

Lemma decides_trans b1 b2 b3 : decides b1 b2 -> decides b2 b3 -> decides b1 b3.
Proof. intros [? ?] [? ?]. split; auto. Qed.

Lemma enter_epoch_decides b vs c : decides b (enter_epoch b vs c).
Proof.
  unfold enter_epoch, nextEstimate. destruct vs as [|v [|]]; try by apply decides_frame. cbn.
  destruct (b_decision b) eqn:Hd; [by apply decides_frame|]. cbn.
  destruct (Bool.eqb v c); [|by apply decides_frame].
  split; [|intros w; congruence]. intros _ w. cbn. done.
Qed.

Lemma exec_decides fuel c b b' err : exec fuel c b = Ret (b', err) -> decides b b'.
Proof.
  revert c b b' err. induction fuel as [|fuel IH]; intros c b b' err; [done|].
  assert (forall b1 b2 c e, b_output b2 = b_output b1 -> b_decision b2 = b_decision b1 ->
    exec fuel c b2 = Ret (b', e) -> decides b1 b') as Hcall.
  { intros b1 b2 c1 e Eo Ed E. eapply decides_trans; [by apply decides_frame|by eapply IH]. }
  destruct c as [q v|q v| |q m]; cbn [exec].
  - unfold handleBvalRequest. cbv zeta.
    destruct (_ =? 2 * _ + 1); [destruct (_ =? 0)|destruct (_ && _)].
    + destruct (exec fuel (CAux _ _) _) as [[b1 e]| |] eqn:E; try done.
      intros [<- <-]%ret_pair. by eapply Hcall in E.
    + destruct (exec fuel CTry _) as [[b1 e]| |] eqn:E; try done.
      intros [<- <-]%ret_pair. by eapply Hcall in E.
    + intros E. by eapply Hcall in E.
    + intros [<- <-]%ret_pair. by apply decides_frame.
  - unfold handleAuxRequest. cbv zeta.
    destruct (exec fuel CTry _) as [[b1 e]| |] eqn:E; try done.
    intros [<- <-]%ret_pair. by eapply Hcall in E.
  - unfold tryOutputAgreement.
    destruct (_ =? 0); [intros [<- <-]%ret_pair; by apply decides_frame|].
    destruct (countOutputs b) as [k vs]. cbv beta iota zeta.
    destruct (_ <? _); [intros [<- <-]%ret_pair; by apply decides_frame|].
    destruct (_ || _); [intros [<- <-]%ret_pair; by apply decides_frame|].
    match goal with |- context [enter_epoch ?b0 ?v0 ?c0] =>
      pose proof (enter_epoch_decides b0 v0 c0) as H0; revert H0;
      generalize (enter_epoch b0 v0 c0) end.
    intros b1 H1. destruct (exec fuel (CBval _ _) b1) as [[b2 e]| |] eqn:E1; try done.
    apply IH in E1. cbn [go_bind].
    assert (forall ds b3 b4, go_fold (fun b que =>
        let! (b, _) := exec fuel (CMsg (d_sid que) (d_msg que)) b in Ret b) ds b3 = Ret b4 ->
      decides b3 b4) as Hfold.
    { induction ds as [|d ds IHd]; intros b3 b4; cbn; [intros [= <-]; by apply decides_frame|].
      destruct (exec fuel _ b3) as [[b5 e5]| |] eqn:E5; try done. cbn. intros Hr.
      eapply decides_trans; [by eapply IH|by eapply IHd]. }
    destruct (go_fold _ _ _) as [b3| |] eqn:E2; try done. cbn [go_bind].
    intros [<- <-]%ret_pair. apply Hfold in E2.
    eapply decides_trans; [by apply decides_frame|].
    eapply decides_trans; [exact H1|]. eapply decides_trans; [exact E1|].
    eapply decides_trans; [exact E2|]. by apply decides_frame.
  - unfold handleMessage. destruct (b_done b); [intros [<- <-]%ret_pair; by apply decides_frame|].
    destruct (_ <? _); [intros [<- <-]%ret_pair; by apply decides_frame|].
    destruct (_ <? _); [intros [<- <-]%ret_pair; by apply decides_frame|].
    destruct (Message m); try (intros E; by apply IH in E).
    intros [<- <-]%ret_pair; by apply decides_frame.
Qed.

Lemma InputValue_decides fuel v b b' err : InputValue fuel v b = Ret (b', err) -> decides b b'.
Proof.
  unfold InputValue, inputValue. destruct (_ || _); [intros [<- _]%ret_pair; by apply decides_frame|].
  cbv zeta. intros E. eapply decides_trans; [|by eapply exec_decides]. by apply decides_frame.
Qed.

Lemma HandleMessage_decides fuel q m b b' err :
  HandleMessage fuel q m b = Ret (b', err) -> decides b b'.
Proof.
  intros E. eapply decides_trans; [|by eapply exec_decides]. by apply decides_frame.
Qed.

(** Only an unknown message is an error, and it changes nothing. *)
Lemma exec_err fuel c b b' e :
  exec fuel c b = Ret (b', Some e) -> b' = b /\ e = ErrUnknownBBAMessage /\
    exists q m, c = CMsg q m.
Proof.
  revert c b b' e. induction fuel as [|fuel IH]; intros c b b' e; [done|].
  destruct c as [q v|q v| |q m]; cbn [exec].
  - unfold handleBvalRequest. cbv zeta.
    destruct (_ =? 2 * _ + 1); [destruct (_ =? 0)|destruct (_ && _)].
    + destruct (exec fuel (CAux _ _) _) as [[b1 e1]| |]; try done.
    + destruct (exec fuel CTry _) as [[b1 e1]| |]; try done.
    + intros (_ & _ & q' & m & [=])%IH.
    + done.
  - unfold handleAuxRequest. cbv zeta. by destruct (exec fuel CTry _) as [[b1 e1]| |].
  - unfold tryOutputAgreement. destruct (_ =? 0); [done|].
    destruct (countOutputs b) as [k vs]. cbv beta iota zeta.
    destruct (_ <? _); [done|]. destruct (_ || _); [done|].
    destruct (exec fuel (CBval _ _) _) as [[b1 e1]| |]; try done. cbn [go_bind].
    by destruct (go_fold _ _ _).
  - unfold handleMessage. destruct (b_done b); [done|].
    destruct (_ <? _); [done|]. destruct (_ <? _); [done|].
    destruct (Message m); try (intros (_ & _ & q' & m' & [=])%IH).
    intros [<- [= <-]]%ret_pair. split_and!; [done..|by exists q, m].
Qed.

Lemma InputValue_err fuel v b b' e : InputValue fuel v b <> Ret (b', Some e).
Proof.
  unfold InputValue, inputValue. destruct (_ || _); [done|]. cbv zeta.
  by intros (_ & _ & q' & m & [=])%exec_err.
Qed.

Lemma HandleMessage_err fuel q m b b' e :
  HandleMessage fuel q m b = Ret (b', Some e) -> b' = set_msgCount b (b_msgCount b + 1).
Proof. by intros [-> _]%exec_err. Qed.

(** ** The queue *)

Definition others (cfg : Config) : list Z := uint64sWithout (Nodes cfg) (ID cfg).

Definition queued (cfg : Config) (from : Z) (ps : list acsPayload) : messageQue ACSMessage :=
  ps ≫= (fun p => (fun id => mkTuple id (mkACSMessage from p)) <$> others cfg).
Arguments queued : simpl never.

Lemma addACSMessage_spec a from p :
  addACSMessage a from p = set_que a (a_que a ++ queued (a_cfg a) from [p]).
Proof.
  unfold addACSMessage, queued, others. cbn. rewrite app_nil_r.
  generalize (uint64sWithout (Nodes (a_cfg a)) (ID (a_cfg a))). intros ids. revert a.
  induction ids as [|id ids IH]; intros a; cbn; [rewrite app_nil_r; by destruct a|].
  rewrite IH. cbn. unfold que_addMessage. by rewrite <- app_assoc.
Qed.

Lemma addACSMessages_spec a from ps :
  addACSMessages a from ps = set_que a (a_que a ++ queued (a_cfg a) from ps).
Proof.
  unfold addACSMessages. revert a. induction ps as [|p ps IH]; intros a; cbn.
  { rewrite app_nil_r. by destruct a. }
  rewrite IH, addACSMessage_spec. cbn. rewrite <- app_assoc. do 2 f_equal.
  unfold queued. cbn. by rewrite app_nil_r.
Qed.

Lemma elem_of_queued cfg from ps to m :
  mkTuple to m ∈ queued cfg from ps <->
  to ∈ others cfg /\ ProposerID m = from /\ Payload m ∈ ps.
Proof.
  unfold queued. rewrite list_elem_of_bind. split.
  - intros (p & Hin & Hp). apply list_elem_of_fmap in Hin as (id & [= -> ->] & Hid). done.
  - intros (Hto & <- & Hp). exists (Payload m). split; [|done]. apply list_elem_of_fmap.
    exists to. split; [by destruct m|done].
Qed.

Lemma queued_length cfg from ps :
  length (queued cfg from ps) = (length ps * length (others cfg))%nat.
Proof.
  unfold queued. induction ps as [|p ps IH]; cbn; [done|].
  by rewrite length_app, length_fmap, IH.
Qed.

(** ** Results *)

Lemma recordTraceState_spec a : exists t, recordTraceState a = set_atrace a t.
Proof.
  unfold recordTraceState. destruct a as [cfg rs bs rr br o q d t].
  repeat case_match; eexists; reflexivity.
Qed.

Lemma elem_of_truthyIDs res id : id ∈ truthyIDs res <-> res !! id = Some true.
Proof.
  unfold truthyIDs, sortedIDs. rewrite merge_sort_Permutation, list_elem_of_fmap. split.
  - intros ([k v] & -> & Hk). apply elem_of_map_to_list, map_lookup_filter_Some in Hk as [Hk Hv].
    cbn in *. by subst.
  - intros Hid. exists (id, true). split; [done|].
    by apply elem_of_map_to_list, map_lookup_filter_Some.
Qed.

Lemma truthyIDs_NoDup res : NoDup (truthyIDs res).
Proof.
  unfold truthyIDs, sortedIDs. rewrite merge_sort_Permutation. apply NoDup_fst_map_to_list.
Qed.

Lemma truthyIDs_length a : zlen (truthyIDs (a_bbaResults a)) = countTruthyAgreements a.
Proof.
  unfold truthyIDs, sortedIDs, countTruthyAgreements. rewrite merge_sort_Permutation, length_fmap.
  by rewrite length_map_to_list.
Qed.

Lemma collectResults_lookup ids R acc m :
  collectResults ids R acc = Some m ->
  forall id, m !! id = if decide (id ∈ ids) then R !! id else acc !! id.
Proof.
  revert acc. induction ids as [|i ids IH]; intros acc; cbn.
  { intros [= <-] id. by rewrite decide_False by apply not_elem_of_nil. }
  destruct (R !! i) as [v|] eqn:E; [|done]. intros Hm id. rewrite (IH _ Hm id).
  destruct (decide (id = i)) as [->|Hne].
  - rewrite (decide_True (P := i ∈ i :: ids)) by by left.
    rewrite lookup_insert_eq, E. by destruct (decide _).
  - rewrite lookup_insert_ne by done.
    destruct (decide (id ∈ ids)) as [Hin|Hin].
    + by rewrite decide_True by by right.
    + rewrite decide_False; [done|]. by intros [|]%elem_of_cons.
Qed.

Lemma collectResults_some ids R acc m :
  collectResults ids R acc = Some m -> forall id, id ∈ ids -> is_Some (R !! id).
Proof.
  revert acc. induction ids as [|i ids IH]; intros acc; cbn; [intros _ id; by intros ?%elem_of_nil|].
  destruct (R !! i) as [v|] eqn:E; [|done]. intros Hm id [->|Hin]%elem_of_cons; [by eexists|eauto].
Qed.

Lemma collectResults_none ids R acc :
  collectResults ids R acc = None -> exists id, id ∈ ids /\ R !! id = None.
Proof.
  revert acc. induction ids as [|i ids IH]; intros acc; cbn; [done|].
  destruct (R !! i) as [v|] eqn:E.
  - intros (id & Hid & Hn)%IH. exists id. split; [by right|done].
  - intros _. exists i. split; [by left|done].
Qed.

(** What the completion check yields. *)
Record Completed (a : acs) (m : gmap Z bytes) : Prop := {
  cm_size : N (a_cfg a) - F (a_cfg a) <= zsize m;
  cm_all : N (a_cfg a) <= zsize (a_bbaResults a);
  cm_lookup id v : m !! id = Some v <->
    a_bbaResults a !! id = Some true /\ a_rbcResults a !! id = Some v;
  cm_ready id : a_bbaResults a !! id = Some true -> is_Some (a_rbcResults a !! id) }.

Lemma collect_Completed a m :
  N (a_cfg a) - F (a_cfg a) <= countTruthyAgreements a ->
  N (a_cfg a) <= zsize (a_bbaResults a) ->
  collectResults (truthyIDs (a_bbaResults a)) (a_rbcResults a) ∅ = Some m ->
  Completed a m.
Proof.
  intros Hc Ha Hm. pose proof (collectResults_lookup _ _ _ _ Hm) as HL.
  pose proof (collectResults_some _ _ _ _ Hm) as HS.
  assert (dom m = list_to_set (truthyIDs (a_bbaResults a))) as Hdom.
  { apply set_eq. intros id. rewrite elem_of_dom, HL, elem_of_list_to_set.
    destruct (decide _) as [Hin|Hin]; [by split; [|auto]|].
    rewrite lookup_empty. split; [by intros [? ?]|done]. }
  split.
  - rewrite <- size_dom, Hdom, size_list_to_set by apply truthyIDs_NoDup.
    by rewrite truthyIDs_length.
  - done.
  - intros id v. rewrite HL. destruct (decide _) as [Hin|Hin]; rewrite elem_of_truthyIDs in Hin.
    + split; [done|by intros [_ ?]].
    + rewrite lookup_empty. split; [done|by intros [? _]].
  - intros id Hid. by apply HS, elem_of_truthyIDs.
Qed.

(** [tryCompleteAgreement] changes the trace, and the output when the result
    is complete for the first time. *)
Lemma tryComplete_spec a :
  (exists t, tryCompleteAgreement a = set_atrace a t) \/
  (exists t m, tryCompleteAgreement a = set_atrace (set_aoutput a (Some m) true) t /\
     a_decided a = false /\ Completed a m).
Proof.
  unfold tryCompleteAgreement. destruct (recordTraceState_spec a) as [t ->]. cbv zeta.
  destruct (a_decided _ || _) eqn:Hd; [left; by eexists|].
  apply orb_false_iff in Hd as [Hd Hc]. apply Z.ltb_ge in Hc.
  destruct (_ <? _) eqn:Ha; [left; by eexists|]. apply Z.ltb_ge in Ha.
  destruct (collectResults _ _ _) as [m|] eqn:Hm; [|left; by eexists].
  right. eexists _, m. split; [reflexivity|]. split; [done|]. by apply collect_Completed.
Qed.

(** Every result is in and every truthy one has its value. *)
Definition complete (a : acs) : bool :=
  (N (a_cfg a) - F (a_cfg a) <=? countTruthyAgreements a) &&
  (N (a_cfg a) <=? zsize (a_bbaResults a)) && truthyReady a.

Lemma truthyReady_spec a :
  truthyReady a = true <->
  forall id, a_bbaResults a !! id = Some true -> is_Some (a_rbcResults a !! id).
Proof.
  unfold truthyReady. rewrite forallb_forall. split.
  - intros H id Hid. specialize (H (id, true)). cbn in H.
    destruct (a_rbcResults a !! id); [by eexists|]. exfalso.
    enough (false = true) by done. apply H, list_elem_of_In. by apply elem_of_map_to_list.
  - intros H [id v] Hin. apply list_elem_of_In, elem_of_map_to_list in Hin. cbn.
    destruct v; [|done]. destruct (H id Hin) as [w ->]. done.
Qed.

Lemma collectResults_ready a :
  truthyReady a = true <->
  exists m, collectResults (truthyIDs (a_bbaResults a)) (a_rbcResults a) ∅ = Some m.
Proof.
  rewrite truthyReady_spec. split.
  - intros H. destruct (collectResults _ _ _) as [m|] eqn:E; [by exists m|exfalso].
    apply collectResults_none in E as (id & Hid & Hn). apply elem_of_truthyIDs in Hid.
    destruct (H id Hid). congruence.
  - intros [m Hm] id Hid. eapply collectResults_some; [exact Hm|]. by apply elem_of_truthyIDs.
Qed.

Lemma complete_frame a t : complete (set_atrace a t) = complete a.
Proof. done. Qed.

(**  The completion check: [tryCompleteAgreement] decides exactly when all
    results are in, at least [N - F] are truthy and every truthy one has its
    broadcast value; then, and only then, it stores the map of the truthy
    proposers' values.  It never waits with everything ready. *)
Lemma tryComplete_iff (a : acs) :
  let a' := tryCompleteAgreement a in
  a_decided a' = a_decided a || complete a /\
  (a_decided a || negb (complete a) = true -> a_output a' = a_output a) /\
  (a_decided a = false -> complete a = true ->
     exists m, a_output a' = Some m /\
       forall id v, m !! id = Some v <->
         a_bbaResults a !! id = Some true /\ a_rbcResults a !! id = Some v) /\
  waitingReason a' <> "ready_to_complete"%string.
Proof.
  cbv zeta. unfold tryCompleteAgreement. destruct (recordTraceState_spec a) as [t ->].
  cbv zeta. set (a1 := acsTrace _ _).
  assert (waitingReason a1 = waitingReason a) as Ew by done.
  assert (a_decided a1 = a_decided a /\ a_output a1 = a_output a) as [Ed Eo] by done.
  change (countTruthyAgreements a1) with (countTruthyAgreements a).
  change (a_cfg a1) with (a_cfg a). change (a_bbaResults a1) with (a_bbaResults a).
  change (a_rbcResults a1) with (a_rbcResults a). rewrite Ed.
  unfold waitingReason in Ew.
  destruct (a_decided a) eqn:Hd; cbn [orb].
  { split_and!; try done. unfold waitingReason. by rewrite Ed. }
  unfold complete. rewrite !Z.leb_antisym.
  destruct (countTruthyAgreements a <? _) eqn:Hc; cbn [negb andb].
  { split_and!; try done. unfold waitingReason. by rewrite Ew. }
  destruct (zsize (a_bbaResults a) <? _) eqn:Hall; cbn [negb andb].
  { split_and!; try done. unfold waitingReason. by rewrite Ew. }
  pose proof (collectResults_ready a) as HR. destruct (truthyReady a) eqn:Htr.
  - destruct (proj1 HR eq_refl) as [m Hm]. rewrite Hm. cbn.
    split_and!; try done. intros _ _. exists m. split; [done|].
    apply Z.ltb_ge in Hc, Hall. by apply (collect_Completed a m).
  - destruct (collectResults _ _ _) as [m|] eqn:Hm.
    { exfalso. enough (false = true) by done. apply HR. by exists m. }
    split_and!; try done. unfold waitingReason. by rewrite Ew.
Qed.
