(* ===== verification/AcsNet.v ===== *)
(** * AcsNet: the common subset in an asynchronous network

    A network of [acs] instances.  The calls a node makes on the instances of
    one proposer are a run of the networks of [BbaNet] and [RbcNet], so the
    invariants of those networks carry over ([AcsAgree] draws the conclusions). *)

From S2P Require Import Prelude Trace Messages Bba BbaMicro BbaInv BbaNet Rbc RbcNet Acs AcsLocal.

Lemma defaultF_idem cfg : defaultF (defaultF cfg) = defaultF cfg.
Proof.
  unfold defaultF. destruct (Z.eqb_spec (F cfg) 0) as [E|E]; cbn.
  - destruct (_ =? 0) eqn:E'; [|done]. apply Z.eqb_eq in E'. by rewrite E'.
  - by rewrite (proj2 (Z.eqb_neq _ _) E).
Qed.

(** ** One node and one proposer *)

Section Proposer.
Context (rs_New : Z -> Z -> option Encoder).
Context (Prove : list bytes -> Z -> bytes * list bytes * Z * Z).
Context (VerifyProof : bytes -> list bytes -> Z -> Z -> bool).
Context `{!ErasureCode rs_New} `{!MerkleTree Prove VerifyProof}.
Context (nodes byz : gset Z) (cfg : Z -> Config) (n f : Z) (enc : Encoder).
Hypothesis cfg_ok : forall p, N (defaultF (cfg p)) = n /\ F (defaultF (cfg p)) = f /\
                        ID (defaultF (cfg p)) = p.
Hypothesis cfg_nodes : forall p x, x ∈ Nodes (cfg p) <-> x ∈ nodes.
Hypothesis enc_new : rs_New (n - 2 * f) (2 * f) = Some enc.
Hypothesis nodes_n : zsize nodes = n.
Hypothesis byz_small : zsize byz <= f.
Hypothesis resilience : 3 * f < n.
Hypothesis several : 2 <= n.
(** The proposer whose instances are observed. *)
Context (pid : Z).
(** What the nodes were given to propose. *)
Context (given : list (Z * bytes)).

Definition rinit (p : Z) : rbc :=
  mkRBC (defaultF (cfg p)) pid enc ∅ ∅ (2 * f) (n - 2 * f) [] false false false None [].

Lemma rinit_ok p : newRBC rs_New (cfg p) pid = Ret (rinit p).
Proof.
  destruct (cfg_ok p) as (En & Ef & _). unfold newRBC, rinit. cbv zeta.
  by rewrite En, Ef, enc_new.
Qed.

Abbreviation bstep := (net_step nodes byz).
Abbreviation rstep := (rnet_step Prove VerifyProof nodes byz pid).
Abbreviation rreach := (rreachable Prove VerifyProof nodes byz rinit pid).

(** What an output of [p] says of this proposer. *)
Definition Reported (p : Z) (m : gmap Z bytes) (s : net) (r : rnet) : Prop :=
  (exists v, m !! pid = Some v /\ b_decision (net_nodes s p) = Some true /\
  (p, v) ∈ rn_outputs r) \/
  (m !! pid = None /\ b_decision (net_nodes s p) = Some false).

(** The instances of the proposer at [p] are those of the two networks. *)
Record Sim (p : Z) (a : acs) (s : net) (r : rnet) : Prop := {
  sm_cfg : a_cfg a = defaultF (cfg p);
  sm_bba : a_bba a !! pid = Some (net_nodes s p);
  sm_rbc : a_rbc a !! pid = Some (rn_nodes r p);
  sm_keys id b : a_bba a !! id = Some b -> id ∈ nodes;
  sm_bq : b_messages (net_nodes s p) = [];
  sm_rq : r_messages (rn_nodes r p) = [];
  sm_od : OutputIsDecision (net_nodes s p);
  sm_bres v : a_bbaResults a !! pid = Some v -> b_decision (net_nodes s p) = Some v;
  sm_rres v : a_rbcResults a !! pid = Some v -> (p, v) ∈ rn_outputs r;
  sm_dom : dom (a_bbaResults a) ⊆ nodes;
  sm_out m : a_output a = Some m -> Reported p m s r /\ n - f <= zsize m /\ dom m ⊆ nodes;
  sm_bsent to m : mkTuple to (mkACSMessage pid (PAgreement m)) ∈ a_que a -> (p, m) ∈ net_soup s;
  sm_rsent to m : mkTuple to (mkACSMessage pid (PBroadcast m)) ∈ a_que a -> (p, m) ∈ rn_soup r }.

(** Steps of [p] in both networks. *)
Record Evolve (p : Z) (s : net) (r : rnet) (s' : net) (r' : rnet) : Prop := {
  ev_b : rtc bstep s s';
  ev_r : rtc rstep r r';
  ev_bother q : q <> p -> net_nodes s' q = net_nodes s q;
  ev_rother q : q <> p -> rn_nodes r' q = rn_nodes r q;
  ev_bsoup : net_soup s ⊆ net_soup s';
  ev_rsoup : rn_soup r ⊆ rn_soup r';
  ev_routs : rn_outputs r ⊆ rn_outputs r';
  ev_dec v : b_decision (net_nodes s p) = Some v -> b_decision (net_nodes s' p) = Some v;
  ev_inp d : d ∈ rn_inputs r' -> d ∈ rn_inputs r \/ (pid, d) ∈ given }.

Lemma Evolve_refl p s r : Evolve p s r s r.
Proof. split; try done. by left. Qed.

Lemma Evolve_trans p s1 r1 s2 r2 s3 r3 :
  Evolve p s1 r1 s2 r2 -> Evolve p s2 r2 s3 r3 -> Evolve p s1 r1 s3 r3.
Proof.
  intros [A1 A2 A3 A4 A5 A6 A7 A8 A9] [B1 B2 B3 B4 B5 B6 B7 B8 B9]. split.
  - by etransitivity.
  - by etransitivity.
  - intros q Hq. rewrite B3 by done. auto.
  - intros q Hq. rewrite B4 by done. auto.
  - by etransitivity.
  - by etransitivity.
  - by etransitivity.
  - auto.
  - intros d [Hd|]%B9; [|by right]. by apply A9.
Qed.

(** The call that turned [a] into [a'] is a run of the networks; the queue
grows at least as much as the soup of the agreement. *)
Definition Follow (p : Z) (a : acs) (s : net) (r : rnet) (a' : acs) : Prop :=
  exists s' r', Evolve p s r s' r' /\ Sim p a' s' r' /\
  zlen (net_soup s') + zlen (a_que a) <= zlen (net_soup s) + zlen (a_que a').

Lemma Follow_refl p a s r : Sim p a s r -> Follow p a s r a.
Proof. intros HS. exists s, r. split; [apply Evolve_refl|]. split; [done|lia]. Qed.

Lemma Follow_trans p a1 s r a2 a3 :
  Follow p a1 s r a2 -> (forall s2 r2, rtc rstep r r2 -> Sim p a2 s2 r2 -> Follow p a2 s2 r2 a3) ->
  Follow p a1 s r a3.
Proof.
  intros (s2 & r2 & HE & HS & Hl) H2.
  destruct (H2 s2 r2 (ev_r _ _ _ _ _ HE) HS) as (s3 & r3 & HE3 & HS3 & Hl3).
  exists s3, r3. split; [by eapply Evolve_trans|]. split; [done|lia].
Qed.

(** Calls that leave alone what [Sim] looks at. *)
Lemma Sim_trace p a s r t : Sim p a s r -> Sim p (set_atrace a t) s r.
Proof. intros []. by split. Qed.

Lemma Sim_record p a s r : Sim p a s r -> Sim p (recordTraceState a) s r.
Proof. destruct (recordTraceState_spec a) as [t ->]. apply Sim_trace. Qed.

Lemma record_que a : a_que (recordTraceState a) = a_que a.
Proof. by destruct (recordTraceState_spec a) as [t ->]. Qed.

Lemma complete_que a : a_que (tryCompleteAgreement a) = a_que a.
Proof. by destruct (tryComplete_spec a) as [[t ->]|(t & m & -> & _)]. Qed.

Lemma Sim_complete p a s r : pid ∈ nodes -> Sim p a s r -> Sim p (tryCompleteAgreement a) s r.
Proof.
  intros Hpid HS. destruct (tryComplete_spec a) as [[t ->]|(t & m & -> & Hd & HC)];
    [by apply Sim_trace|]. apply Sim_trace. pose proof HS as HS'. destruct HS. split; try done.
  cbn. intros m' [= <-]. destruct HC as [H1 H2 H3 H4].
  destruct (cfg_ok p) as (En & Ef & _). rewrite sm_cfg0 in H1, H2. rewrite En, ?Ef in *.
  split_and!; [|done|].
  - assert (pid ∈ dom (a_bbaResults a)) as [v Hv]%elem_of_dom.
    { rewrite <- size_dom in H2.
      assert (dom (a_bbaResults a) = nodes) as ->; [|done].
      apply leibniz_equiv, set_subseteq_size_equiv; [done|lia]. }
    destruct v.
    + left. destruct (H4 pid Hv) as [w Hw]. exists w. split; [by apply H3|]. auto.
    + right. split; [|auto]. destruct (m !! pid) as [w|] eqn:E; [|done].
      apply H3 in E as [E _]. congruence.
  - intros id [v Hv]%elem_of_dom. apply H3 in Hv as [Hv _]. apply sm_dom0, elem_of_dom. by eexists.
Qed.

(** ** Calls on an agreement instance *)

Lemma others_nonempty p : (1 <= length (others (defaultF (cfg p))))%nat.
Proof.
  assert (exists q, q ∈ nodes /\ q <> p) as (q & Hq & Hne).
  { destruct (decide (nodes ⊆ {[p]})) as [Hsub|Hnot].
    - apply subseteq_size in Hsub. rewrite size_singleton in Hsub. lia.
    - destruct (set_choose_or_empty (nodes ∖ {[p]})) as [[q Hq]|He].
      + apply elem_of_difference in Hq as [Hq Hne]. rewrite elem_of_singleton in Hne. by exists q.
      + exfalso. by apply Hnot, empty_difference_subseteq. }
  assert (q ∈ others (defaultF (cfg p))) as Hin.
  { unfold others. apply elem_of_uint64sWithout. destruct (cfg_ok p) as (_ & _ & ->).
    split; [|done]. apply (cfg_nodes p) in Hq. unfold defaultF. by destruct (_ =? 0). }
  destruct (others _); [by apply elem_of_nil in Hin|cbn; lia].
Qed.

(** What [processAgreement] does with the state a call on [id] returned: it
stores it and queues its messages. *)
Definition stored (a : acs) (id : Z) (b b1 : bba) : acs :=
  addACSMessages (put_bba (put_bba a id b b1) id b1 (Messages b1).2) id
  (PAgreement <$> (Messages b1).1).

(** The call is a step of the agreement network. *)
Definition BCall (p : Z) (s : net) (b1 : bba) : Prop :=
  exists inputs, bstep s (commit (mkNet (net_nodes s) (net_soup s) inputs) p b1).

Lemma stored_follow p a s r id b b1 :
  p ∈ nodes -> Sim p a s r -> a_bba a !! id = Some b -> decides b b1 ->
  (id = pid -> BCall p s b1) -> Follow p a s r (stored a id b b1).
Proof.
  intros Hp HS Hb Hd Hcall. unfold stored. rewrite addACSMessages_spec. cbn.
  pose proof HS as HS'. destruct HS'. rewrite sm_cfg0.
  assert (id ∈ nodes) as Hid by by eapply sm_keys0.
  destruct (decide (id = pid)) as [->|Hne].
  - rewrite sm_bba0 in Hb. injection Hb as <-. destruct (Hcall eq_refl) as [inputs Hst].
    exists (commit (mkNet (net_nodes s) (net_soup s) inputs) p b1), r. split; [|split].
    + split; cbn; try done; [by apply rtc_once| | | |by left].
      * intros q Hq. unfold upd. by rewrite decide_False.
      * apply list_subseteq_app_l. reflexivity.
      * intros v. unfold upd. rewrite decide_True by done. apply Hd.
    + assert (upd (net_nodes s) p (set_messages b1 []) p = set_messages b1 []) as Eu
        by by unfold upd; rewrite decide_True.
      split; cbn; rewrite ?Eu; try done.
      * by rewrite insert_insert_eq, lookup_insert_eq.
      * intros id b' [[-> _]|[_ [[-> _]|[_ Hb']]%lookup_insert_Some]]%lookup_insert_Some;
          [done..|by eapply sm_keys0].
      * apply Hd, sm_od0.
      * intros v Hv. apply Hd. auto.
      * intros m Hm. destruct (sm_out0 m Hm) as (HR & ? & ?). split_and!; [|done..].
        unfold Reported. cbn. rewrite Eu. cbn.
        destruct HR as [(v & ? & Hv & ?)|(? & Hv)]; apply Hd in Hv; [left; by exists v|by right].
      * intros to m [Hm|Hm]%elem_of_app; apply elem_of_app; [left; eauto|right].
        apply elem_of_queued in Hm as (_ & _ & Hm). apply list_elem_of_fmap in Hm as (m' & [= <-] & Hm).
        apply list_elem_of_fmap. by exists m.
      * intros to m [Hm|Hm]%elem_of_app; [eauto|].
        apply elem_of_queued in Hm as (_ & _ & Hm). by apply list_elem_of_fmap in Hm as (m' & [=] & _).
    + cbn [commit net_soup set_que a_que put_bba set_atrace set_bba Messages fst snd].
      rewrite !length_app, queued_length, !length_fmap.
      pose proof (others_nonempty p). nia.
  - exists s, r. split; [apply Evolve_refl|]. split.
    + split; cbn; try done.
      * by rewrite !lookup_insert_ne by done.
      * intros id' b' [[-> _]|[_ [[-> _]|[_ Hb']]%lookup_insert_Some]]%lookup_insert_Some;
          [done..|by eapply sm_keys0].
      * intros to m [Hm|Hm]%elem_of_app; [eauto|]. by apply elem_of_queued in Hm as (_ & ? & _).
      * intros to m [Hm|Hm]%elem_of_app; [eauto|]. by apply elem_of_queued in Hm as (_ & ? & _).
    + cbn. rewrite length_app. lia.
Qed.

Lemma set_messages_id b : b_messages b = [] -> set_messages b [] = b.
Proof. destruct b. cbn. by intros ->. Qed.

(** Taking the output of an agreement. *)
Lemma taken_follow p a s r id b v b' :
  p ∈ nodes -> p ∉ byz -> Sim p a s r -> a_bba a !! id = Some b -> Output b = (Some v, b') ->
  Follow p a s r (put_bba a id b b') /\
  Follow p a s r (set_bbaResults (put_bba a id b b') (<[id := v]> (a_bbaResults a))).
Proof.
  intros Hp Hpb HS Hb HO. pose proof HS as HS'. destruct HS'.
  assert (id ∈ nodes) as Hid by by eapply sm_keys0.
  assert (dom (<[id := v]> (a_bbaResults a)) ⊆ nodes) as Hdom.
  { rewrite dom_insert. by apply union_least; [apply singleton_subseteq_l|]. }
  unfold Output in HO. destruct (b_output b) as [v'|] eqn:Eo; [|done].
  injection HO as -> <-.
  destruct (decide (id = pid)) as [->|Hne].
  - rewrite sm_bba0 in Hb. injection Hb as <-.
    set (b' := set_output (net_nodes s p) None).
    assert ((Output (net_nodes s p)).2 = b') as Eb by by unfold Output; rewrite Eo.
    set (s' := commit s p b').
    assert (net_nodes s' p = b') as Es.
    { unfold s', commit. cbn. unfold upd. rewrite decide_True by done. by apply set_messages_id. }
    assert (net_soup s' = net_soup s) as Esoup.
    { unfold s', commit. cbn. by rewrite sm_bq0, app_nil_r. }
    assert (bstep s s') as Hst by (unfold s'; rewrite <- Eb; by apply ns_output).
    assert (forall q, q <> p -> net_nodes s' q = net_nodes s q) as Hother.
    { intros q Hq. unfold s', commit, upd. cbn. by rewrite decide_False. }
    clearbody s'.
    assert (Evolve p s r s' r) as HE.
    { split; try done; rewrite ?Es, ?Esoup; try done; [by apply rtc_once|by left]. }
    assert (Sim p (put_bba a pid (net_nodes s p) b') s' r) as HS1.
    { split; cbn; rewrite ?Es, ?Esoup; try done.
      - by rewrite lookup_insert_eq.
      - intros id b0 [[-> _]|[_ Hb']]%lookup_insert_Some; [done|by eapply sm_keys0].
      - intros m Hm. unfold Reported. rewrite Es. by apply sm_out0. }
    split; exists s', r; (split; [done|]); (split; [|rewrite Esoup; cbn; lia]); [done|].
    destruct HS1. split; try done. cbn. rewrite Es. intros w.
    rewrite lookup_insert_eq. intros [= <-]. by apply sm_od0.
  - assert (Sim p (put_bba a id b (set_output b None)) s r) as HS1.
    { split; cbn; try done.
      - by rewrite lookup_insert_ne by done.
      - intros id' b0 [[-> _]|[_ Hb']]%lookup_insert_Some; [done|by eapply sm_keys0]. }
    split; apply (Follow_refl p) in HS1 as HF; [done|].
    exists s, r. split; [apply Evolve_refl|]. split; [|cbn; lia].
    destruct HS1. split; try done. cbn. intros w. rewrite lookup_insert_ne by done. auto.
Qed.

(** ** The handlers of the common subset *)

Lemma stored_lookup a id b b1 : a_bba (stored a id b b1) !! id = Some (Messages b1).2.
Proof. unfold stored. rewrite addACSMessages_spec. cbn. by rewrite lookup_insert_eq. Qed.

Lemma input_call p a s r id v fuel b b1 err :
  p ∈ nodes -> p ∉ byz -> Sim p a s r -> a_bba a !! id = Some b ->
  InputValue fuel v b = Ret (b1, err) -> id = pid -> BCall p s b1.
Proof.
  intros Hp Hpb HS Hb HE ->. rewrite (sm_bba _ _ _ _ HS) in Hb. injection Hb as <-.
  exists (net_inputs s ++ [(p, v)]). by eapply (ns_input nodes byz s p v).
Qed.

Lemma injectFalse_follow fuel ids : forall rec p a s r a' err,
  p ∈ nodes -> p ∉ byz -> Sim p a s r -> injectFalse fuel ids rec a = Ret (a', err) ->
  Follow p a s r a' /\ err = None.
Proof.
  induction ids as [|id ids IH]; intros rec p a s r a' err Hp Hpb HS; cbn.
  { intros [<- <-]%ret_pair. split; [by apply Follow_refl|done]. }
  destruct (a_bba a !! id) as [b|] eqn:Hb; [|by apply IH].
  destruct (AcceptInput b); [|by apply IH].
  set (a0 := if rec then a else _).
  assert (Sim p a0 s r) as HS0 by (unfold a0; destruct rec; [done|by apply Sim_trace]).
  assert (a_bba a0 !! id = Some b) as Hb0 by by unfold a0; destruct rec.
  assert (a_que a0 = a_que a) as Hq0 by by unfold a0; destruct rec.
  destruct (InputValue fuel false b) as [[b1 [e|]]| |] eqn:HE; try done;
    [by apply InputValue_err in HE|]. cbn [go_bind].
  change (addACSMessages _ id _) with (stored a0 id b b1).
  pose proof (stored_follow p a0 s r id b b1 Hp HS0 Hb0 (InputValue_decides _ _ _ _ _ HE)
    (input_call _ _ _ _ _ _ _ _ _ _ Hp Hpb HS0 Hb0 HE)) as HF.
  assert (Follow p a s r (stored a0 id b b1)) as HF0.
  { destruct HF as (s' & r' & ? & ? & ?). exists s', r'. rewrite <- Hq0. done. }
  cbn [Messages fst snd].
  destruct (Output _) as [[v|] b3] eqn:HO; intros Hrest.
  - assert (err = None) as He.
    { destruct HF0 as (s1 & r1 & _ & HS1 & _).
      destruct (taken_follow p _ s1 r1 id _ v b3 Hp Hpb HS1 (stored_lookup _ _ _ _) HO)
        as [_ (s2 & r2 & _ & HS2 & _)].
      by eapply (IH true p _ s2 r2) in Hrest as [_ He]; [| | |apply Sim_record]. }
    split; [|done]. eapply Follow_trans; [exact HF0|]. intros s1 r1 _ HS1.
    destruct (taken_follow p _ s1 r1 id _ v b3 Hp Hpb HS1 (stored_lookup _ _ _ _) HO) as [_ HF2].
    eapply Follow_trans; [exact HF2|]. intros s2 r2 _ HS2.
    eapply (IH true p _ s2 r2) in Hrest as [(s3 & r3 & ? & ? & Hl) _]; [|done|done|by apply Sim_record].
    exists s3, r3. by rewrite record_que in Hl.
  - assert (err = None) as He.
    { destruct HF0 as (s1 & r1 & _ & HS1 & _). by eapply (IH true p _ s1 r1) in Hrest as [_ He]. }
    split; [|done]. eapply Follow_trans; [exact HF0|]. intros s1 r1 _ HS1.
    by eapply (IH true p _ s1 r1) in Hrest as [? _].
Qed.

(** The state a failed call, or a call that did nothing, returned. *)
Lemma put_follow p a s r id b b1 :
  p ∈ nodes -> Sim p a s r -> a_bba a !! id = Some b -> decides b b1 ->
  (id = pid -> b_messages b1 = [] /\ (BCall p s b1 \/ b1 = b)) ->
  Follow p a s r (put_bba a id b b1).
Proof.
  intros Hp HS Hb Hd Hcall. pose proof HS as HS'. destruct HS'.
  assert (id ∈ nodes) as Hid by by eapply sm_keys0.
  destruct (decide (id = pid)) as [->|Hne].
  - destruct (Hcall eq_refl) as [Hm [HB| ->]].
    + destruct (stored_follow p a s r pid b b1) as (s' & r' & HE & HS1 & Hl); try done.
      exists s', r'. split; [done|]. unfold stored in HS1, Hl.
      rewrite addACSMessages_spec in HS1, Hl. cbn in HS1, Hl. rewrite Hm in HS1, Hl.
      unfold queued in HS1, Hl. cbn in HS1, Hl. rewrite app_nil_r in HS1, Hl.
      split; [|cbn; lia]. rewrite set_messages_id in HS1 by done.
      destruct HS1. split; try done. cbn in *. by rewrite insert_insert_eq in sm_bba1.
      intros id b' Hb'. eapply (sm_keys1 id b'). cbn. by rewrite insert_insert_eq.
    + rewrite sm_bba0 in Hb. injection Hb as <-. exists s, r. split; [apply Evolve_refl|].
      split; [|cbn; lia]. split; try done; cbn; [by rewrite lookup_insert_eq|].
      intros id b' [[-> _]|[_ Hb']]%lookup_insert_Some; [done|by eapply sm_keys0].
  - exists s, r. split; [apply Evolve_refl|]. split; [|cbn; lia].
    split; try done; cbn; [by rewrite lookup_insert_ne|].
    intros id' b' [[-> _]|[_ Hb']]%lookup_insert_Some; [done|by eapply sm_keys0].
Qed.

Lemma stored_same_follow p a s r id b :
  p ∈ nodes -> Sim p a s r -> a_bba a !! id = Some b -> id = pid -> Follow p a s r (stored a id b b).
Proof.
  intros Hp HS Hb ->. pose proof (sm_bba _ _ _ _ HS) as Hb'. rewrite Hb' in Hb. injection Hb as <-.
  destruct (put_follow p a s r pid (net_nodes s p) (net_nodes s p)) as (s' & r' & HE & HS1 & Hl);
    [done|done|done|by apply decides_frame|by split; [apply HS|right]|].
  exists s', r'. split; [done|]. unfold stored. rewrite addACSMessages_spec. cbn.
  rewrite (sm_bq _ _ _ _ HS). unfold queued. cbn. rewrite app_nil_r, set_messages_id by apply HS.
  split; [|done]. destruct HS1. split; try done; cbn in *; by rewrite insert_insert_eq.
Qed.

(** The calls [processAgreement] is made with. *)
Definition AgreementCall (p : Z) (s : net) (id : Z) (f : bba -> go (bba * option hberror)) : Prop :=
  forall b b1 err, f b = Ret (b1, err) ->
  decides b b1 /\ (err <> None -> b_messages b1 = b_messages b) /\
  (id = pid -> b = net_nodes s p -> BCall p s b1 \/ b1 = b).

Lemma processAgreement_follow order fuel p id g a s r a' err :
  pid ∈ nodes -> p ∈ nodes -> p ∉ byz -> Sim p a s r -> AgreementCall p s id g ->
  processAgreement order fuel id g a = Ret (a', err) -> Follow p a s r a'.
Proof.
  intros Hpid Hp Hpb HS Hg. unfold processAgreement.
  destruct (a_bba a !! id) as [b|] eqn:Hb; [|intros [<- _]%ret_pair; by apply Follow_refl].
  destruct (b_done b); [intros [<- _]%ret_pair; by apply Follow_refl|].
  destruct (g b) as [[b1 e1]| |] eqn:HE; try done. cbn [go_bind].
  destruct (Hg b b1 e1 HE) as (Hd & Hm & Hcall).
  assert (id = pid -> BCall p s b1 \/ b1 = b) as Hcall'.
  { intros ->. apply Hcall; [done|]. pose proof (sm_bba _ _ _ _ HS). congruence. }
  destruct e1 as [e1|].
  { intros [<- _]%ret_pair. apply put_follow; try done. intros ->. split; [|by apply Hcall'].
    rewrite Hm by done. pose proof (sm_bba _ _ _ _ HS). pose proof (sm_bq _ _ _ _ HS). congruence. }
  cbn [Messages].
  change (addACSMessages _ id _) with (stored a id b b1).
  assert (Follow p a s r (stored a id b b1)) as HF.
  { destruct (decide (id = pid)) as [E|Hne].
    - destruct (Hcall' E) as [HB| ->]; [by apply stored_follow|by apply stored_same_follow].
    - by apply stored_follow. }
  cbn [Messages fst snd]. destruct (Output _) as [[v|] b3] eqn:HO.
  2: { intros [<- _]%ret_pair. exact HF. }
  intros Hrest. eapply Follow_trans; [exact HF|]. intros s1 r1 _ HS1.
  destruct (taken_follow p _ s1 r1 id _ v b3 Hp Hpb HS1 (stored_lookup _ _ _ _) HO) as [HF1 HF2].
  destruct (a_bbaResults _ !! id); [by apply ret_pair in Hrest as [<- _]|].
  eapply Follow_trans; [exact HF2|]. intros s2 r2 _ HS2. apply Sim_record in HS2.
  revert Hrest.
  match goal with |- context [recordTraceState ?a0] =>
    assert (Sim p (recordTraceState a0) s2 r2) as HS2' by exact HS2;
    pose proof (record_que a0) as Hq; revert HS2' Hq; generalize (recordTraceState a0) end.
  clear HS2. intros a2 HS2 Hq Hrest.
  assert (Follow p a2 s2 r2 a') as HF3.
  { destruct (v && _).
    - destruct (injectFalse _ _ _ _) as [[a3 e3]| |] eqn:HI; try done. cbn [go_bind] in Hrest.
      eapply injectFalse_follow in HI as [HF3 ->]; [|done|done|exact HS2].
      apply ret_pair in Hrest as [<- _]. eapply Follow_trans; [exact HF3|]. intros s3 r3 _ HS3.
      exists s3, r3. split; [apply Evolve_refl|]. split; [by apply Sim_complete|].
      rewrite complete_que. lia.
    - cbn [go_bind] in Hrest. apply ret_pair in Hrest as [<- _].
      exists s2, r2. split; [apply Evolve_refl|]. split; [by apply Sim_complete|].
      rewrite complete_que. lia. }
  destruct HF3 as (s3 & r3 & HE3 & HS3 & Hl). exists s3, r3. rewrite Hq in Hl.
  split; [exact HE3|]. split; [exact HS3|exact Hl].
Qed.

Lemma inputTrue_call fuel p s id : p ∈ nodes -> p ∉ byz -> AgreementCall p s id (inputTrue fuel).
Proof.
  intros Hp Hpb b b1 err. unfold inputTrue. destruct (AcceptInput b).
  - intros HE. split; [by eapply InputValue_decides|]. split.
    + destruct err; [by apply InputValue_err in HE|done].
    + intros _ ->. left. exists (net_inputs s ++ [(p, true)]). by eapply (ns_input nodes byz s p true).
  - intros [<- <-]%ret_pair. split; [by apply decides_frame|]. split; [done|by right].
Qed.

Lemma message_call fuel p s id q m :
  p ∈ nodes -> p ∉ byz -> q ∈ nodes -> (id = pid -> q ∉ byz -> (q, m) ∈ net_soup s) ->
  AgreementCall p s id (HandleMessage fuel q m).
Proof.
  intros Hp Hpb Hq Hs b b1 err HE. split; [by eapply HandleMessage_decides|]. split.
  - destruct err; [by apply HandleMessage_err in HE as ->|done].
  - intros -> ->. left. exists (net_inputs s). destruct s. by eapply ns_deliver; [..|exact HE]; auto.
Qed.

(** ** Calls on a broadcast instance *)

Definition RCall (p : Z) (r : rnet) (r1 : rbc) (ms : list BroadcastMessage) : Prop :=
  exists inputs, (forall d, d ∈ inputs -> d ∈ rn_inputs r \/ (pid, d) ∈ given) /\
  rstep r (rcommit (mkRNet (rn_nodes r) (rn_soup r) inputs (rn_outputs r)) p r1 ms).

(** [a'] is [a] after a call on the broadcast [id] that returned [r1] and the
requests [ms], once the messages were queued. *)
Record Sent (a : acs) (id : Z) (r1 : rbc) (ms : list BroadcastMessage) (a' : acs) : Prop := {
  se_cfg : a_cfg a' = a_cfg a;
  se_bba : a_bba a' = a_bba a;
  se_rbc : a_rbc a' = <[id := set_rmessages r1 []]> (a_rbc a);
  se_rres : a_rbcResults a' = a_rbcResults a;
  se_bres : a_bbaResults a' = a_bbaResults a;
  se_out : a_output a' = a_output a;
  se_que : exists xs, a_que a' = a_que a ++ xs /\
  forall to m, mkTuple to m ∈ xs ->
  exists b, m = mkACSMessage id (PBroadcast b) /\ (b ∈ r_messages r1 \/ b ∈ ms) }.

Lemma Sent_follow p a s r id r1 ms a' :
  p ∈ nodes -> Sim p a s r -> Sent a id r1 ms a' -> (id = pid -> RCall p r r1 ms) ->
  Follow p a s r a'.
Proof.
  intros Hp HS [E1 E2 E3 E4 E5 E6 (xs & E7 & Hxs)] Hcall.
  destruct HS. destruct (decide (id = pid)) as [->|Hne].
  - destruct (Hcall eq_refl) as (inputs & Hin & Hst).
    set (r' := rcommit _ _ _ _) in Hst.
    assert (rn_nodes r' p = set_rmessages r1 []) as En.
    { unfold r'. cbn. unfold rupd. by rewrite Z.eqb_refl. }
    assert (forall q, q <> p -> rn_nodes r' q = rn_nodes r q) as Hother.
    { intros q Hq. unfold r'. cbn. unfold rupd. by rewrite (proj2 (Z.eqb_neq q p) Hq). }
    assert (rn_soup r' = (rn_soup r ++ sends p (r_messages r1)) ++ sends p ms) as Es by done.
    assert (rn_outputs r' = rn_outputs r) as Eo by done.
    assert (rn_inputs r' = inputs) as Ei by done.
    clearbody r'. exists s, r'. split; [|split; [|rewrite E7, length_app; lia]].
    + split; rewrite ?Eo, ?Ei; try done; [by apply rtc_once|].
      rewrite Es, <- app_assoc. apply list_subseteq_app_l. reflexivity.
    + split; rewrite ?E1, ?E2, ?E3, ?E4, ?E5, ?E6, ?En, ?Eo; try done.
      * by rewrite lookup_insert_eq.
      * intros m Hm. unfold Reported. rewrite Eo. by apply sm_out0.
      * intros to m. rewrite E7. intros [Hm|Hm]%elem_of_app; [eauto|].
        by destruct (Hxs _ _ Hm) as (b & [=] & _).
      * intros to m. rewrite E7, Es. intros [Hm|Hm]%elem_of_app.
        { rewrite <- app_assoc. apply elem_of_app. left. eauto. }
        destruct (Hxs _ _ Hm) as (b & [= <-] & Hb). rewrite !elem_of_app, !elem_of_sends.
        destruct Hb; [left; right|right]; done.
  - exists s, r. split; [apply Evolve_refl|]. split; [|rewrite E7, length_app; lia].
    split; rewrite ?E1, ?E2, ?E3, ?E4, ?E5, ?E6; try done.
    + by rewrite lookup_insert_ne by done.
    + intros to m. rewrite E7. intros [Hm|Hm]%elem_of_app; [eauto|].
      by destruct (Hxs _ _ Hm) as (b & [=] & _).
    + intros to m. rewrite E7. intros [Hm|Hm]%elem_of_app; [eauto|].
      by destruct (Hxs _ _ Hm) as (b & [=] & _).
Qed.

Lemma set_rmessages_id r : r_messages r = [] -> set_rmessages r [] = r.
Proof. destruct r. cbn. by intros ->. Qed.

(** Taking the output of a broadcast. *)
Lemma rtaken_follow p a s r id r0 v r1 :
  p ∈ nodes -> p ∉ byz -> Sim p a s r -> a_rbc a !! id = Some r0 -> rbc_Output r0 = (Some v, r1) ->
  Follow p a s r (set_rbcResults (put_rbc a id r0 r1) (<[id := v]> (a_rbcResults a))).
Proof.
  intros Hp Hpb HS Hr HO. pose proof HS as HS'. destruct HS'.
  destruct (decide (id = pid)) as [->|Hne].
  - rewrite sm_rbc0 in Hr. injection Hr as <-.
    set (r' := mkRNet (rupd (rn_nodes r) p r1) (rn_soup r) (rn_inputs r)
      (rn_outputs r ++ [(p, v)])).
    assert (rstep r r') as Hst by by apply rs_output.
    assert (rn_nodes r' p = r1) as En by by unfold r'; cbn; unfold rupd; rewrite Z.eqb_refl.
    assert (forall q, q <> p -> rn_nodes r' q = rn_nodes r q) as Hother.
    { intros q Hq. unfold r'. cbn. unfold rupd. by rewrite (proj2 (Z.eqb_neq q p) Hq). }
    assert (rn_outputs r ⊆ rn_outputs r') as Hout by (apply list_subseteq_app_l; reflexivity).
    assert ((p, v) ∈ rn_outputs r') as Hv.
    { apply elem_of_app. right. by apply list_elem_of_singleton. }
    assert (rn_soup r' = rn_soup r) as Es by done.
    assert (rn_inputs r' = rn_inputs r) as Ei by done.
    clearbody r'. exists s, r'. split; [|split; [|cbn; lia]].
    + split; rewrite ?Es, ?Ei; try done; [by apply rtc_once|by left].
    + unfold rbc_Output in HO. destruct (r_output _); [|done]. injection HO as -> <-.
      split; cbn; rewrite ?En, ?Es; try done.
      * by rewrite lookup_insert_eq.
      * intros w. rewrite lookup_insert_eq. intros [= <-]. done.
      * intros m Hm. destruct (sm_out0 m Hm) as [[(w & ? & ? & ?)|?] ?]; (split; [|done]);
          [left; exists w; split_and!; auto|by right].
  - exists s, r. split; [apply Evolve_refl|]. split; [|cbn; lia].
    split; cbn; try done; [by rewrite lookup_insert_ne|].
    intros w. rewrite lookup_insert_ne by done. auto.
Qed.

(** A failed call stores the unchanged instance. *)
Lemma put_rbc_follow p a s r id r0 :
  Sim p a s r -> a_rbc a !! id = Some r0 -> Follow p a s r (put_rbc a id r0 r0).
Proof.
  intros HS Hr. exists s, r. split; [apply Evolve_refl|]. split; [|cbn; lia].
  destruct HS. split; cbn; try done. by rewrite insert_id.
Qed.

Lemma Sim_core p a s r : p ∈ nodes -> p ∉ byz -> rreach r -> Sim p a s r ->
  exists T, Core Prove nodes byz pid n f enc T p (rn_nodes r p).
Proof.
  intros Hp Hpb Hr HS.
  destruct (ri_node _ _ _ _ _ _ _ _ (rreachable_RInv rs_New Prove VerifyProof nodes byz rinit pid
    cfg n f enc cfg_ok rinit_ok enc_new byz_small r Hr) p Hp Hpb) as [[[HC _] _] _].
  by eexists.
Qed.

Lemma rtc_rreach r r' : rreach r -> rtc rstep r r' -> rreach r'.
Proof. intros Hr Hs. unfold rreachable in *. by etransitivity. Qed.

(** A call on a broadcast that changes nothing when it fails. *)
Definition BroadcastCall (p : Z) (r : rnet) (id : Z) (g : rbc -> go (rbc * option hberror)) : Prop :=
  forall r0 r1 err, g r0 = Ret (r1, err) -> id = pid -> r0 = rn_nodes r p ->
  (err <> None -> r1 = r0) /\ RCall p r r1 [].

Lemma processBroadcast_follow order fuel p id g a s r a' err :
  pid ∈ nodes -> p ∈ nodes -> p ∉ byz -> Sim p a s r -> BroadcastCall p r id g ->
  processBroadcast order fuel id g a = Ret (a', err) -> Follow p a s r a'.
Proof.
  intros Hpid Hp Hpb HS Hg. unfold processBroadcast.
  destruct (a_rbc a !! id) as [r0|] eqn:Hr0; [|intros [<- _]%ret_pair; by apply Follow_refl].
  destruct (g r0) as [[r1 e1]| |] eqn:HE; try done. cbn [go_bind].
  assert (id = pid -> (e1 <> None -> r1 = r0) /\ RCall p r r1 []) as Hcall.
  { intros ->. eapply Hg; try done. pose proof (sm_rbc _ _ _ _ HS). congruence. }
  destruct e1 as [e1|].
  { intros [<- _]%ret_pair. destruct (decide (id = pid)) as [E|Hne].
    - destruct (Hcall E) as [Hsame _]. rewrite Hsame by done. by apply put_rbc_follow.
    - exists s, r. split; [apply Evolve_refl|]. split; [|cbn; lia].
      destruct HS. split; cbn; try done. by rewrite lookup_insert_ne. }
  cbn [rbc_Messages]. set (a1 := addACSMessages _ _ _).
  assert (Sent a id r1 [] a1) as HSent.
  { unfold a1. rewrite addACSMessages_spec. split; cbn; try done; [by rewrite insert_insert_eq|].
    eexists. split; [done|]. intros to m (_ & Hid & Hm)%elem_of_queued.
    apply list_elem_of_fmap in Hm as (b & Hb & Hin). exists b. split; [|by left].
    destruct m. cbn in *. by subst. }
  assert (Follow p a s r a1) as HF.
  { eapply Sent_follow; [done|done|exact HSent|]. intros E. by apply Hcall. }
  assert (a_rbc a1 !! id = Some (set_rmessages r1 [])) as Hr1.
  { rewrite (se_rbc _ _ _ _ _ HSent). by rewrite lookup_insert_eq. }
  clearbody a1. destruct (rbc_Output _) as [[v|] r3] eqn:HO;
    [|intros [<- _]%ret_pair; exact HF].
  intros Hrest. eapply Follow_trans; [exact HF|]. intros s1 r1' _ HS1.
  eapply Follow_trans; [by eapply (rtaken_follow p a1 s1 r1' id _ v r3)|]. intros s2 r2 _ HS2.
  apply Sim_record in HS2. revert Hrest.
  match goal with |- context [recordTraceState ?a0] =>
    assert (Sim p (recordTraceState a0) s2 r2) as HS2' by exact HS2;
    pose proof (record_que a0) as Hq; revert HS2' Hq; generalize (recordTraceState a0) end.
  clear HS2. intros a2 HS2 Hq Hrest.
  destruct (processAgreement _ _ _ _ a2) as [[a3 e3]| |] eqn:HPA; try done. cbn [go_bind] in Hrest.
  eapply processAgreement_follow in HPA as (s3 & r3' & HE3 & HS3 & Hl); [|done..|exact HS2|by apply inputTrue_call].
  exists s3, r3'. rewrite Hq in Hl. split; [exact HE3|].
  destruct e3; apply ret_pair in Hrest as [<- _]; (split; [|]); try done; [by apply Sim_complete|].
  rewrite complete_que. exact Hl.
Qed.

(** ** Handling a message *)

(** The message may be delivered in both networks. *)
Definition Deliverable (q : Z) (m : ACSMessage) (s : net) (r : rnet) : Prop :=
  q ∉ byz -> ProposerID m = pid ->
  match Payload m with
  | PAgreement t => (q, t) ∈ net_soup s
  | PBroadcast t => (q, t) ∈ rn_soup r
  | OtherACS => True
  end.

Lemma broadcast_call range p q id m a s r :
  (forall l, range l ≡ₚ l) ->
  p ∈ nodes -> p ∉ byz -> q ∈ nodes -> q <> p -> rreach r -> Sim p a s r ->
  (q ∉ byz -> id = pid -> (q, m) ∈ rn_soup r) ->
  BroadcastCall p r id (rbc_handleMessage Prove VerifyProof range q m).
Proof.
  intros Hrange Hp Hpb Hq Hne Hr HS Hs r0 r1 err HE -> ->. split.
  - intros He. destruct err as [e|]; [|done].
    destruct (Sim_core p a s r Hp Hpb Hr HS) as [T HC]. by eapply message_err in HE.
  - exists (rn_inputs r). split; [by left|]. destruct r.
    eapply rs_deliver; try done. destruct (decide (q ∈ byz)); [by left|right]. by apply Hs.
Qed.

Lemma handleMessage_follow range order fuel p q m a s r a' err :
  (forall l, range l ≡ₚ l) -> pid ∈ nodes ->
  p ∈ nodes -> p ∉ byz -> q ∈ nodes -> q <> p -> rreach r -> Sim p a s r ->
  Deliverable q m s r ->
  acs_handleMessage Prove VerifyProof range order fuel q m a = Ret (a', err) ->
  Follow p a s r a'.
Proof.
  intros Hrange Hpid Hp Hpb Hq Hne Hr HS HD. unfold acs_handleMessage, Deliverable in *.
  destruct (Payload m) as [t|t|].
  - apply processAgreement_follow; try done. apply message_call; try done. intros ? ?. by apply HD.
  - apply processBroadcast_follow; try done. by eapply broadcast_call.
  - intros [<- _]%ret_pair. by apply Follow_refl.
Qed.

(** ** Proposing a value *)

Lemma addRequests_spec ids reqs a a' :
  addRequests ids reqs a = Ret a' ->
  exists xs, a' = set_que a (a_que a ++ xs) /\
  forall to m, mkTuple to m ∈ xs ->
  exists b, m = mkACSMessage (ID (a_cfg a)) (PBroadcast b) /\ b ∈ reqs.
Proof.
  revert reqs a. induction ids as [|i ids IH]; intros [|req reqs] a; cbn; try done.
  - intros [= <-]. exists []. rewrite app_nil_r. split; [by destruct a|]. by intros to m ?%elem_of_nil.
  - intros [= <-]. exists []. rewrite app_nil_r. split; [by destruct a|]. by intros to m ?%elem_of_nil.
  - intros (xs & -> & Hxs)%IH. cbn in *.
    exists (mkTuple i (mkACSMessage (ID (a_cfg a)) (PBroadcast req)) :: xs).
    unfold que_addMessage. rewrite <- app_assoc. split; [done|].
    intros to m [[= -> ->]|Hm]%elem_of_cons; [exists req; split; [done|by left]|].
    destruct (Hxs _ _ Hm) as (b & ? & ?). exists b. split; [done|by right].
Qed.

Lemma input_count range data r0 r1 reqs :
  r_enc r0 = enc -> rbc_inputValue Prove VerifyProof range data r0 = Ret (r1, (reqs, None)) ->
  zlen reqs = n - 1.
Proof.
  intros He. unfold rbc_inputValue. destruct (makeShards _ _) as [shards|] eqn:Hs; [|done].
  rewrite He in Hs.
  assert (zlen shards = n) as Hlen.
  { unfold makeShards in Hs. destruct (Split enc data) as [l0|] eqn:E0; [|done].
    destruct (Encode enc l0) as [l1|] eqn:E1; [|done]. injection Hs as <-.
    pose proof (code_split _ _ _ _ _ enc_new E0). pose proof (code_encode _ _ _ _ _ enc_new E1). lia. }
  assert (length (makeBroadcastMessages Prove shards) = length shards) as Hm.
  { unfold makeBroadcastMessages. by rewrite length_fmap, length_seq. }
  destruct (makeBroadcastMessages _ _) as [|m0 ms]; [done|]. cbn in Hm.
  destruct (BPayload m0); try done.
  destruct (handleProofRequest _ _ _ _ _ _) as [[r2 [e|]]| |]; try done. cbn [go_bind].
  intros [_ [= <-]]%ret_pair. lia.
Qed.

Lemma input_rcall range data p r r0 r1 reqs err :
  (forall l, range l ≡ₚ l) -> p ∈ nodes -> p ∉ byz -> (p, data) ∈ given ->
  rbc_inputValue Prove VerifyProof range data r0 = Ret (r1, (reqs, err)) ->
  p = pid -> r0 = rn_nodes r p -> RCall p r r1 reqs.
Proof.
  intros Hrange Hp Hpb Hgiven HE -> ->. exists (rn_inputs r ++ [data]). split.
  - intros d [Hd| ->%list_elem_of_singleton]%elem_of_app; [by left|by right].
  - destruct r. by eapply (rs_input Prove VerifyProof nodes byz pid (mkRNet _ _ _ _)).
Qed.

Lemma inputValue_follow range order fuel p data a s r a' err :
  (forall l, range l ≡ₚ l) -> pid ∈ nodes ->
  p ∈ nodes -> p ∉ byz -> rreach r -> Sim p a s r -> (p, data) ∈ given ->
  acs_inputValue Prove VerifyProof range order fuel data a = Ret (a', err) ->
  Follow p a s r a'.
Proof.
  intros Hrange Hpid Hp Hpb Hr HS Hgiven. unfold acs_inputValue. cbv zeta.
  set (a0 := acsTrace (acsTrace a _) _).
  assert (Sim p a0 s r) as HS0 by by apply Sim_trace, Sim_trace.
  assert (ID (a_cfg a0) = p) as ->.
  { change (a_cfg a0) with (a_cfg a). rewrite (sm_cfg _ _ _ _ HS). by apply cfg_ok. }
  assert (Follow p a0 s r a' -> Follow p a s r a') as Hgo by done.
  intros HI. apply Hgo. clear Hgo HS. clearbody a0. clear a. rename a0 into a, HS0 into HS.
  destruct (a_rbc a !! p) as [r0|] eqn:Hr0; [|apply ret_pair in HI as [<- _]; by apply Follow_refl].
  destruct (rbc_inputValue _ _ _ data r0) as [[r1 [reqs e1]]| |] eqn:HE; try done.
  cbn [go_bind] in HI.
  assert (p = pid -> r0 = rn_nodes r p) as Heq.
  { intros ->. pose proof (sm_rbc _ _ _ _ HS). congruence. }
  assert (forall b, p <> pid -> Follow p a s r (put_rbc a p r0 b)) as Hother.
  { intros b Hne. exists s, r. split; [apply Evolve_refl|]. split; [|cbn; lia].
    destruct HS. split; cbn; try done. by rewrite lookup_insert_ne. }
  destruct e1 as [e1|].
  { apply ret_pair in HI as [<- _]. destruct (decide (p = pid)) as [E|Hne]; [|by apply Hother].
    destruct (Sim_core p a s r Hp Hpb Hr HS) as [T HC]. rewrite (Heq E) in *.
    eapply input_err in HE as [-> _]; [|exact HC]. by apply put_rbc_follow. }
  assert (p = pid -> zlen reqs = n - 1) as Hcount.
  { intros E. eapply input_count; [|exact HE].
    destruct (Sim_core p a s r Hp Hpb Hr HS) as [T HC]. rewrite (Heq E). apply HC. }
  pose proof (fun E => input_rcall _ _ _ r _ _ _ _ Hrange Hp Hpb Hgiven HE E (Heq E)) as Hcall.
  destruct (negb _) eqn:Hlen.
  { apply ret_pair in HI as [<- _]. destruct (decide (p = pid)) as [E|Hne]; [|by apply Hother].
    exfalso. apply negb_true_iff, Z.eqb_neq in Hlen. apply Hlen. rewrite (Hcount E).
    change (a_cfg (put_rbc _ _ _ _)) with (a_cfg a). rewrite (sm_cfg _ _ _ _ HS).
    by destruct (cfg_ok p) as (-> & _). }
  destruct (addRequests _ _ _) as [a1| |] eqn:HA; try done. cbn [go_bind rbc_Messages] in HI.
  apply addRequests_spec in HA as (xs & -> & Hxs).
  revert HI. set (a2 := addACSMessages _ _ _). intros HI.
  assert (ID (a_cfg a) = p) as Hida.
  { rewrite (sm_cfg _ _ _ _ HS). by apply cfg_ok. }
  assert (Sent a p r1 reqs a2) as HSent.
  { unfold a2. rewrite addACSMessages_spec. split; cbn; try done; [by rewrite insert_insert_eq|].
    exists (xs ++ queued (a_cfg a) p (PBroadcast <$> r_messages r1)).
    split; [by rewrite app_assoc|]. intros to m [Hm|(_ & Hid & Hm)%elem_of_queued]%elem_of_app.
    - destruct (Hxs to m Hm) as (b & -> & Hb). exists b. cbn. rewrite Hida. split; [done|by right].
    - apply list_elem_of_fmap in Hm as (b & Hb & Hin). exists b. split; [|by left].
      destruct m. cbn in *. by subst. }
  assert (Follow p a s r a2) as HF by by eapply Sent_follow.
  assert (a_rbc a2 !! p = Some (set_rmessages r1 [])) as Hr1.
  { rewrite (se_rbc _ _ _ _ _ HSent). by rewrite lookup_insert_eq. }
  clearbody a2. destruct (rbc_Output _) as [[v|] r3] eqn:HO;
    [|apply ret_pair in HI as [<- _]; exact HF].
  eapply Follow_trans; [exact HF|]. intros s1 r1' _ HS1.
  eapply Follow_trans; [by eapply (rtaken_follow p a2 s1 r1' p _ v r3)|]. intros s2 r2 _ HS2.
  apply Sim_record in HS2. revert HI.
  match goal with |- context [recordTraceState ?a0] =>
    assert (Sim p (recordTraceState a0) s2 r2) as HS2' by exact HS2;
    pose proof (record_que a0) as Hq; revert HS2' Hq; generalize (recordTraceState a0) end.
  clear HS2. intros a3 HS2 Hq HI.
  destruct (processAgreement _ _ _ _ a3) as [[a4 e3]| |] eqn:HPA; try done. cbn [go_bind] in HI.
  eapply processAgreement_follow in HPA as (s3 & r3' & HE3 & HS3 & Hl); [|done..|exact HS2|by apply inputTrue_call].
  apply ret_pair in HI as [<- _]. exists s3, r3'. rewrite Hq in Hl.
  split; [exact HE3|]. split; [exact HS3|exact Hl].
Qed.
End Proposer.
