(* ===== verification/AcsAgree.v ===== *)
(** * AcsAgree: agreement and quality of the common subset

    The network of [acs] instances and its invariant: for each proposer there
    are reachable networks of [BbaNet] and [RbcNet] whose nodes are the
    instances of that proposer ([PInv]). *)

From S2P Require Import Prelude Trace Messages Bba BbaMicro BbaInv BbaNet Rbc RbcNet Acs AcsLocal AcsNet.

Record anet := mkANet {
  an_nodes : Z -> acs;
  an_soup : list (Z * MessageTuple ACSMessage);  (** every message sent so far *)
  an_inputs : list (Z * bytes);                  (** values nodes were given *)
  an_outputs : list (Z * gmap Z bytes) }.        (** results of [Output] *)

Definition aupd (st : Z -> acs) (p : Z) (a : acs) : Z -> acs :=
  fun q => if q =? p then a else st q.

(** Stores the new state of [p] and sends its queue. *)
Definition acommit (st : anet) (p : Z) (a : acs) : anet :=
  let '(msgs, que) := que_messages (a_que a) in
  mkANet (aupd (an_nodes st) p (set_que a que)) (an_soup st ++ fmap (M := list) (fun t => (p, t)) msgs)
    (an_inputs st) (an_outputs st).

Definition with_proposal (st : anet) (p : Z) (data : bytes) : anet :=
  mkANet (an_nodes st) (an_soup st) (an_inputs st ++ [(p, data)]) (an_outputs st).

Section Network.
Context (rs_New : Z -> Z -> option Encoder).
Context (Prove : list bytes -> Z -> bytes * list bytes * Z * Z).
Context (VerifyProof : bytes -> list bytes -> Z -> Z -> bool).
Context (nodes byz : gset Z) (init : Z -> acs).

Definition init_anet : anet := mkANet init [] [] [].

Inductive anet_step (st : anet) : anet -> Prop :=
  | as_input p data range order fuel a err :
  p ∈ nodes -> p ∉ byz -> (forall l, range l ≡ₚ l) -> (forall l, order l ≡ₚ l) ->
  acs_inputValue Prove VerifyProof range order fuel data (an_nodes st p) = Ret (a, err) ->
  anet_step st (acommit (with_proposal st p data) p a)
  | as_deliver p q m range order fuel a err :
  p ∈ nodes -> p ∉ byz -> q ∈ nodes -> q <> p ->
  (q ∉ byz -> (q, mkTuple p m) ∈ an_soup st) ->
  (forall l, range l ≡ₚ l) -> (forall l, order l ≡ₚ l) ->
  acs_handleMessage Prove VerifyProof range order fuel q m (an_nodes st p) = Ret (a, err) ->
  anet_step st (acommit st p a)
  | as_output p m a :
  p ∈ nodes -> p ∉ byz -> acs_Output (an_nodes st p) = (Some m, a) ->
  anet_step st (mkANet (aupd (an_nodes st) p a) (an_soup st) (an_inputs st)
                (an_outputs st ++ [(p, m)])).

Definition areachable : anet -> Prop := rtc anet_step init_anet.

Section Invariant.
Context `{!ErasureCode rs_New} `{!MerkleTree Prove VerifyProof}.
Context (cfg : Z -> Config) (n f : Z) (enc : Encoder).
Hypothesis cfg_ok : forall p, N (defaultF (cfg p)) = n /\ F (defaultF (cfg p)) = f /\
                  ID (defaultF (cfg p)) = p.
Hypothesis cfg_nodes : forall p x, x ∈ Nodes (cfg p) <-> x ∈ nodes.
Hypothesis init_ok : forall p, newACS rs_New (cfg p) = Ret (init p).
Hypothesis enc_new : rs_New (n - 2 * f) (2 * f) = Some enc.
Hypothesis nodes_n : zsize nodes = n.
Hypothesis byz_small : zsize byz <= f.
Hypothesis resilience : 3 * f < n.
Hypothesis several : 2 <= n.

Abbreviation rreach pid := (rreachable Prove VerifyProof nodes byz (rinit cfg n f enc pid) pid).
Abbreviation sim := (Sim nodes cfg n f).
Abbreviation evolve := (Evolve Prove VerifyProof nodes byz).
Abbreviation follow := (Follow Prove VerifyProof nodes byz cfg n f).

(** The networks [s] and [r] show what [st] does for the proposer [pid]. *)
Record Shows (pid : Z) (st : anet) (s : net) (r : rnet) : Prop := {
  sh_b : reachable nodes byz cfg pid s;
  sh_r : rreach pid r;
  sh_sim p : p ∈ nodes -> p ∉ byz -> sim pid p (an_nodes st p) s r /\ a_que (an_nodes st p) = [];
  sh_bsoup q to m : q ∉ byz ->
  (q, mkTuple to (mkACSMessage pid (PAgreement m))) ∈ an_soup st -> (q, m) ∈ net_soup s;
  sh_rsoup q to m : q ∉ byz ->
  (q, mkTuple to (mkACSMessage pid (PBroadcast m))) ∈ an_soup st -> (q, m) ∈ rn_soup r;
  sh_len : zlen (net_soup s) <= zlen (an_soup st);
  sh_out p m : (p, m) ∈ an_outputs st ->
  p ∈ nodes /\ p ∉ byz /\ Reported pid p m s r /\ n - f <= zsize m /\ dom m ⊆ nodes;
  sh_inp d : d ∈ rn_inputs r -> (pid, d) ∈ an_inputs st }.

Definition PInv (pid : Z) (st : anet) : Prop := exists s r, Shows pid st s r.

Lemma Reported_evolve pid given p q m s r s' r' :
  evolve pid given p s r s' r' -> Reported pid q m s r -> Reported pid q m s' r'.
Proof.
  intros HE HR. assert (forall v, b_decision (net_nodes s q) = Some v ->
    b_decision (net_nodes s' q) = Some v) as Hd.
  { intros v Hv. destruct (decide (q = p)) as [->|Hne]; [by eapply ev_dec|].
    by rewrite (ev_bother _ _ _ _ _ _ _ _ _ _ _ HE q Hne). }
  destruct HR as [(v & ? & ? & ?)|(? & ?)]; [left; exists v|right]; split_and!; auto.
  by eapply ev_routs.
Qed.

Lemma Sim_evolve pid given p q a s r s' r' :
  evolve pid given p s r s' r' -> q <> p -> sim pid q a s r -> sim pid q a s' r'.
Proof.
  intros HE Hne HS. pose proof (Reported_evolve pid given p q) as HR.
  pose proof (ev_bother _ _ _ _ _ _ _ _ _ _ _ HE q Hne) as Eb.
  pose proof (ev_rother _ _ _ _ _ _ _ _ _ _ _ HE q Hne) as Er.
  pose proof (ev_bsoup _ _ _ _ _ _ _ _ _ _ _ HE) as Hb.
  pose proof (ev_rsoup _ _ _ _ _ _ _ _ _ _ _ HE) as Hr.
  pose proof (ev_routs _ _ _ _ _ _ _ _ _ _ _ HE) as Ho.
  destruct HS. split; rewrite ?Eb, ?Er; try done.
  - intros v Hv. by apply Ho, sm_rres.
  - intros m Hm. destruct (sm_out m Hm) as (HRep & ? & ?). split_and!; [|done..]. by eapply HR.
  - intros to m Hm. eapply Hb, sm_bsent, Hm.
  - intros to m Hm. eapply Hr, sm_rsent, Hm.
Qed.

Lemma commit_PInv pid st ins p a' s r :
  Shows pid st s r -> p ∈ nodes -> p ∉ byz ->
  (forall x, x ∈ an_inputs st -> x ∈ ins) ->
  follow pid ins p (an_nodes st p) s r a' ->
  PInv pid (acommit (mkANet (an_nodes st) (an_soup st) ins (an_outputs st)) p a').
Proof.
  intros HSh Hp Hpb Hins (s' & r' & HE & HS & Hl). exists s', r'.
  destruct HSh as [H1 H2 H3 H4 H5 H6 H7 H8]. destruct (H3 p Hp Hpb) as [_ Hq]. rewrite Hq in Hl.
  cbn in Hl. split; cbn.
  - unfold reachable in *. etransitivity; [exact H1|by eapply ev_b].
  - unfold rreachable in *. etransitivity; [exact H2|by eapply ev_r].
  - intros q Hqn Hqb. unfold aupd. destruct (Z.eqb_spec q p) as [->|Hne].
    + split; [|done]. destruct HS. split; try done; cbn; by intros to m ?%elem_of_nil.
    + destruct (H3 q Hqn Hqb) as [HSq ?]. split; [by eapply Sim_evolve|done].
  - intros q to m Hqb [Hm|Hm]%elem_of_app.
    + by eapply ev_bsoup, H4.
    + apply list_elem_of_fmap in Hm as (t & [= -> <-] & Hm). by eapply sm_bsent.
  - intros q to m Hqb [Hm|Hm]%elem_of_app.
    + by eapply ev_rsoup, H5.
    + apply list_elem_of_fmap in Hm as (t & [= -> <-] & Hm). by eapply sm_rsent.
  - rewrite length_app, length_fmap. lia.
  - intros q m Hm. destruct (H7 q m Hm) as (? & ? & ? & ? & ?). split_and!; try done.
    by eapply Reported_evolve.
  - intros d Hd. eapply ev_inp in Hd as [Hd|Hd]; [|done|exact HE]. by apply Hins, H8.
Qed.

Lemma step_PInv pid st st' : pid ∈ nodes -> anet_step st st' -> PInv pid st -> PInv pid st'.
Proof.
  intros Hpid Hst (s & r & HSh). pose proof HSh as [H1 H2 H3 H4 H5 H6 H7 H8].
  destruct Hst as [p data range order fuel a err Hp Hb Hrange _ HE|
    p q m range order fuel a err Hp Hb Hq Hne Hdel Hrange _ HE|p m a Hp Hb HO].
  - destruct (H3 p Hp Hb) as [HS _].
    apply (commit_PInv pid st (an_inputs st ++ [(p, data)]) p a s r); try done.
    + intros x Hx. apply elem_of_app. by left.
    + eapply inputValue_follow; try done. apply elem_of_app. right. by apply list_elem_of_singleton.
  - destruct (H3 p Hp Hb) as [HS _].
    destruct st. apply (commit_PInv pid (mkANet _ _ _ _) _ p a s r HSh); try done.
    eapply handleMessage_follow; try done. intros Hqb <-.
    destruct m as [id [t|t|]]; cbn in *; [by eapply H4, Hdel|by eapply H5, Hdel|done].
  - exists s, r. destruct (H3 p Hp Hb) as [HS Hque].
    unfold acs_Output in HO. destruct (a_output (an_nodes st p)) as [m'|] eqn:Eo; [|done].
    injection HO as <- <-. split; cbn; try done.
    + intros q Hq Hqb. unfold aupd. destruct (Z.eqb_spec q p) as [->|]; [|by apply H3].
      split; [|done]. destruct HS. by split.
    + intros q w [Hw|[= -> ->]%list_elem_of_singleton]%elem_of_app; [by apply H7|].
      destruct (sm_out _ _ _ _ _ _ _ _ _ HS m' Eo) as (? & ? & ?). done.
Qed.

Lemma newACS_spec p a :
  newACS rs_New (cfg p) = Ret a ->
  a_cfg a = defaultF (cfg p) /\ a_rbcResults a = ∅ /\ a_bbaResults a = ∅ /\ a_output a = None /\
  a_que a = [] /\
  forall id, (id ∈ nodes -> exists r, newRBC rs_New (cfg p) id = Ret r /\ a_rbc a !! id = Some r /\
      a_bba a !! id = Some (newBBA (cfg p) id)) /\
   (id ∉ nodes -> a_bba a !! id = None).
Proof.
  unfold newACS. set (fold := go_fold _). intros HE.
  destruct (fold _ _) as [[rs bs]| |] eqn:Hf; try done. cbn in HE. injection HE as <-. cbn.
  do 5 (split; [done|]). unfold fold in Hf.
  assert (forall l (m m' : gmap Z rbc * gmap Z bba),
    go_fold (fun (m : gmap Z rbc * gmap Z bba) id =>
    let! r := newRBC rs_New (defaultF (cfg p)) id in
    Ret (<[id := r]> m.1, <[id := newBBA (defaultF (cfg p)) id]> m.2)) l m = Ret m' ->
    forall id, (id ∈ l -> exists r, newRBC rs_New (defaultF (cfg p)) id = Ret r /\
    m'.1 !! id = Some r /\ m'.2 !! id = Some (newBBA (defaultF (cfg p)) id)) /\
    (id ∉ l -> m'.1 !! id = m.1 !! id /\ m'.2 !! id = m.2 !! id)) as Hgen.
  { clear. induction l as [|i l IH]; intros m m'; cbn.
    { intros [= <-] id. split; [by intros ?%elem_of_nil|done]. }
    destruct (newRBC _ _ i) as [r| |] eqn:Hr; try done. cbn. intros Hl id.
    destruct (IH _ _ Hl id) as [IH1 IH2]. split.
    - intros [->|Hin]%elem_of_cons; [|by apply IH1].
      destruct (decide (i ∈ l)) as [Hin|Hin]; [by apply IH1|].
      destruct (IH2 Hin) as [-> ->]. cbn. rewrite !lookup_insert_eq. by exists r.
    - intros Hnot. rewrite not_elem_of_cons in Hnot. destruct Hnot as [Hne Hnot].
      destruct (IH2 Hnot) as [-> ->]. cbn. by rewrite !lookup_insert_ne by done. }
  intros id. destruct (Hgen _ _ _ Hf id) as [Hg1 Hg2].
  assert (id ∈ Nodes (defaultF (cfg p)) <-> id ∈ nodes) as Hid.
  { rewrite <- (cfg_nodes p). unfold defaultF. by destruct (_ =? 0). }
  split.
  - intros Hin. destruct Hg1 as (r & Hr & ? & Hb); [by apply Hid|]. exists r.
    unfold newRBC, newBBA in *. rewrite defaultF_idem in *. done.
  - intros Hnot. apply Hg2. by rewrite Hid.
Qed.

Lemma init_PInv pid : pid ∈ nodes -> PInv pid init_anet.
Proof.
  intros Hpid. exists (init_net cfg pid), (init_rnet (rinit cfg n f enc pid)).
  split; cbn; try done; try (intros; by match goal with H : _ ∈ [] |- _ => apply elem_of_nil in H end); try apply rtc_refl.
  intros p Hp Hb. destruct (newACS_spec p (init p) (init_ok p)) as (E1 & E2 & E3 & E4 & E5 & Hid).
  destruct (Hid pid) as [Hin _]. destruct (Hin Hpid) as (r & Hr & Hrl & Hbl). split; [|done].
  split; rewrite ?E1, ?E2, ?E3, ?E4, ?E5; cbn; try done.
  - rewrite Hrl. f_equal. rewrite (rinit_ok rs_New cfg n f enc cfg_ok enc_new pid p) in Hr. congruence.
  - intros id b Hb'. destruct (decide (id ∈ nodes)) as [|Hnot]; [done|].
    destruct (Hid id) as [_ Hn]. by rewrite Hn in Hb'.
  - by intros to m ?%elem_of_nil.
  - by intros to m ?%elem_of_nil.
Qed.

Lemma areachable_PInv pid st : pid ∈ nodes -> areachable st -> PInv pid st.
Proof.
  unfold areachable. intros Hpid Hr. pose proof (init_PInv pid Hpid) as HI.
  induction Hr; [done|]. apply IHHr. by eapply step_PInv.
Qed.
End Invariant.
End Network.

(** ** The properties *)

(** Any two outputs of correct nodes are equal. *)
Lemma outputs_agree rs_New Prove VerifyProof `{!ErasureCode rs_New}
    `{!MerkleTree Prove VerifyProof} (nodes byz : gset Z) (cfg : Z -> Config) (init : Z -> acs)
    (n f : Z) (enc : Encoder) (st : anet)
  (Hcfg : forall p, N (defaultF (cfg p)) = n /\ F (defaultF (cfg p)) = f /\
                    ID (defaultF (cfg p)) = p)
  (Hids : forall p x, x ∈ Nodes (cfg p) <-> x ∈ nodes)
  (Hinit : forall p, newACS rs_New (cfg p) = Ret (init p))
  (Henc : rs_New (n - 2 * f) (2 * f) = Some enc)
  (Hnodes : zsize nodes = n) (Hbyz : zsize byz <= f) (Hn : 3 * f < n) (Htwo : 2 <= n)
  (Hreach : areachable Prove VerifyProof nodes byz init st)
  (Hlen : 3 * zlen (an_soup st) < 2 ^ 32) (p q : Z) (m m' : gmap Z bytes) :
  (p, m) ∈ an_outputs st -> (q, m') ∈ an_outputs st -> m = m'.
Proof.
  intros Hp Hq.
  assert (forall pid, pid ∈ nodes -> PInv Prove VerifyProof nodes byz cfg n f enc pid st) as HP
    by by intros pid Hpid; eapply areachable_PInv.
  assert (forall pid, pid ∈ nodes -> m !! pid = m' !! pid) as Hin.
  { intros pid Hpid. destruct (HP pid Hpid) as (s & r & HS).
    destruct (sh_out _ _ _ _ _ _ _ _ _ _ _ _ HS p m Hp) as (Hpn & Hpb & HRp & _ & _).
    destruct (sh_out _ _ _ _ _ _ _ _ _ _ _ _ HS q m' Hq) as (Hqn & Hqb & HRq & _ & _).
    destruct (reachable_Inv nodes byz cfg pid n f Hcfg Hnodes Hbyz ltac:(lia) Hn s) as [h HI].
    { by eapply sh_b. }
    { pose proof (sh_len _ _ _ _ _ _ _ _ _ _ _ _ HS). lia. }
    pose proof (Inv_agree nodes byz n f Hnodes Hbyz Hn s h p q) as Hag.
    assert (RInv Prove nodes byz pid n f enc r) as HR.
    { eapply rreachable_RInv; try done; [|by eapply sh_r].
      intros x. by apply rinit_ok. }
    destruct HRp as [(v & -> & Hdp & Hvp)|[-> Hdp]], HRq as [(w & -> & Hdq & Hvq)|[-> Hdq]];
      try done; try by (specialize (Hag _ _ HI Hpn Hpb Hqn Hqb Hdp Hdq)).
    f_equal. eapply (certified_agree Prove VerifyProof nodes byz pid n f enc); [done..|exact HR| |];
      by eapply ri_outputs. }
  apply map_eq. intros pid. destruct (decide (pid ∈ nodes)) as [|Hnot]; [by apply Hin|].
  destruct (set_choose_or_empty nodes) as [[x Hx]|He].
  2: { rewrite He in Hnodes. rewrite size_empty in Hnodes. lia. }
  destruct (HP x Hx) as (s & r & HS).
  destruct (sh_out _ _ _ _ _ _ _ _ _ _ _ _ HS p m Hp) as (_ & _ & _ & _ & Hdm).
  destruct (sh_out _ _ _ _ _ _ _ _ _ _ _ _ HS q m' Hq) as (_ & _ & _ & _ & Hdm').
  rewrite (not_elem_of_dom_1 m pid), (not_elem_of_dom_1 m' pid); [done|by intros ?%Hdm'|by intros ?%Hdm].
Qed.

(** C1.  Common subset agreement: in every reachable state of a network of at
    least two nodes with [3F < N] in which fewer than 2^32/3 messages were sent,
    any two correct nodes that output a map of proposals output the same map. *)
Theorem acs_agreement rs_New Prove VerifyProof `{!ErasureCode rs_New}
    `{!MerkleTree Prove VerifyProof} (nodes byz : gset Z) (cfg : Z -> Config) (init : Z -> acs)
    (n f : Z) (enc : Encoder) (st : anet)
  (Hcfg : forall p, N (defaultF (cfg p)) = n /\ F (defaultF (cfg p)) = f /\
                    ID (defaultF (cfg p)) = p)
  (Hids : forall p x, x ∈ Nodes (cfg p) <-> x ∈ nodes)
  (Hinit : forall p, newACS rs_New (cfg p) = Ret (init p))
  (Henc : rs_New (n - 2 * f) (2 * f) = Some enc)
  (Hnodes : zsize nodes = n) (Hbyz : zsize byz <= f) (Hn : 3 * f < n) (Htwo : 2 <= n)
  (Hreach : areachable Prove VerifyProof nodes byz init st)
  (Hlen : 3 * zlen (an_soup st) < 2 ^ 32) (p q : Z) (m m' : gmap Z bytes) :
  (p, m) ∈ an_outputs st -> (q, m') ∈ an_outputs st -> m = m'.
Proof. by eapply outputs_agree. Qed.

Lemma output_quality rs_New Prove VerifyProof `{!ErasureCode rs_New}
    `{!MerkleTree Prove VerifyProof} (nodes byz : gset Z) (cfg : Z -> Config) (init : Z -> acs)
    (n f : Z) (enc : Encoder) (st : anet)
  (Hcfg : forall p, N (defaultF (cfg p)) = n /\ F (defaultF (cfg p)) = f /\
                    ID (defaultF (cfg p)) = p)
  (Hids : forall p x, x ∈ Nodes (cfg p) <-> x ∈ nodes)
  (Hinit : forall p, newACS rs_New (cfg p) = Ret (init p))
  (Henc : rs_New (n - 2 * f) (2 * f) = Some enc)
  (Hnodes : zsize nodes = n) (Hbyz : zsize byz <= f) (Hn : 3 * f < n) (Htwo : 2 <= n)
  (Hreach : areachable Prove VerifyProof nodes byz init st) (p : Z) (m : gmap Z bytes) :
  (p, m) ∈ an_outputs st ->
  n - f <= zsize m /\ dom m ⊆ nodes /\
  forall pid v, m !! pid = Some v -> pid ∉ byz ->
    exists data shards, (pid, data) ∈ an_inputs st /\ makeShards enc data = inl shards /\
      v = mjoin (take (Z.to_nat (n - 2 * f)) shards).
Proof.
  intros Hm.
  assert (forall pid, pid ∈ nodes -> PInv Prove VerifyProof nodes byz cfg n f enc pid st) as HP
    by by intros pid Hpid; eapply areachable_PInv.
  assert (n - f <= zsize m /\ dom m ⊆ nodes) as [Hsz Hdom].
  { destruct (set_choose_or_empty nodes) as [[x Hx]|He].
    2: { rewrite He in Hnodes. rewrite size_empty in Hnodes. lia. }
    destruct (HP x Hx) as (s & r & HS).
    by destruct (sh_out _ _ _ _ _ _ _ _ _ _ _ _ HS p m Hm) as (_ & _ & _ & ? & ?). }
  split_and!; [done..|]. intros pid v Hv Hpid.
  assert (pid ∈ nodes) as Hpn by (apply Hdom, elem_of_dom; by eexists).
  destruct (HP pid Hpn) as (s & r & HS).
  destruct (sh_out _ _ _ _ _ _ _ _ _ _ _ _ HS p m Hm) as (_ & _ & HR & _).
  assert ((p, v) ∈ rn_outputs r) as Hout.
  { destruct HR as [(w & Hw & _ & ?)|[Hw _]]; congruence. }
  assert (RInv Prove nodes byz pid n f enc r) as HRI.
  { eapply rreachable_RInv; try done; [|by eapply sh_r]. intros x. by apply rinit_ok. }
  destruct (certified_proposed rs_New Prove VerifyProof nodes byz pid n f enc Henc Hnodes Hbyz Hn r v)
    as (data & shards & Hd & ? & ?); try done; [by eapply ri_outputs|].
  exists data, shards. split; [|done]. by eapply sh_inp.
Qed.

(** C2.  Common subset quality: an output of a correct node holds at least
    [N - F] proposals, only of nodes, and the entry of a correct proposer is the
    data shards of a value that proposer was given. *)
Theorem acs_quality rs_New Prove VerifyProof `{!ErasureCode rs_New}
    `{!MerkleTree Prove VerifyProof} (nodes byz : gset Z) (cfg : Z -> Config) (init : Z -> acs)
    (n f : Z) (enc : Encoder) (st : anet)
  (Hcfg : forall p, N (defaultF (cfg p)) = n /\ F (defaultF (cfg p)) = f /\
                    ID (defaultF (cfg p)) = p)
  (Hids : forall p x, x ∈ Nodes (cfg p) <-> x ∈ nodes)
  (Hinit : forall p, newACS rs_New (cfg p) = Ret (init p))
  (Henc : rs_New (n - 2 * f) (2 * f) = Some enc)
  (Hnodes : zsize nodes = n) (Hbyz : zsize byz <= f) (Hn : 3 * f < n) (Htwo : 2 <= n)
  (Hreach : areachable Prove VerifyProof nodes byz init st) (p : Z) (m : gmap Z bytes) :
  (p, m) ∈ an_outputs st ->
  n - f <= zsize m /\ dom m ⊆ nodes /\
  forall pid v, m !! pid = Some v -> pid ∉ byz ->
    exists data shards, (pid, data) ∈ an_inputs st /\ makeShards enc data = inl shards /\
      v = mjoin (take (Z.to_nat (n - 2 * f)) shards).
Proof. by eapply output_quality. Qed.

(** ** Running the network

    [drive] delivers every message once, in the order sent. *)

Section Schedule.
Context (Prove : list bytes -> Z -> bytes * list bytes * Z * Z).
Context (VerifyProof : bytes -> list bytes -> Z -> Z -> bool).
Context (nodes byz : gset Z) (fuel : nat).

Abbreviation step := (anet_step Prove VerifyProof nodes byz).

Definition acorrect (p : Z) : bool := bool_decide (p ∈ nodes /\ p ∉ byz).

Definition propose (p : Z) (data : bytes) (st : anet) : option anet :=
  match acs_inputValue Prove VerifyProof (fun l => l) (fun l => l) fuel data (an_nodes st p) with
  | Ret (a, _) => if acorrect p then Some (acommit (with_proposal st p data) p a) else None
  | _ => None
  end.

Definition deliver (q : Z) (t : MessageTuple ACSMessage) (st : anet) : option anet :=
  if acorrect (To t) && bool_decide (q ∈ nodes /\ q <> To t) then
  match acs_handleMessage Prove VerifyProof (fun l => l) (fun l => l) fuel q (TPayload t)
        (an_nodes st (To t)) with
  | Ret (a, _) => Some (acommit st (To t) a)
  | _ => None
  end
  else Some st.

Definition collect_output (p : Z) (st : anet) : option anet :=
  match acs_Output (an_nodes st p) with
  | (Some m, a) =>
      if acorrect p
      then Some (mkANet (aupd (an_nodes st) p a) (an_soup st) (an_inputs st) (an_outputs st ++ [(p, m)]))
      else None
  | _ => Some st
  end.

Fixpoint drive (k : nat) (i : nat) (st : anet) : option anet :=
  match k with
  | O => Some st
  | S k =>
      match an_soup st !! i with
      | None => Some st
      | Some (q, t) =>
          match deliver q t st with Some st' => drive k (S i) st' | None => None end
      end
  end.

Lemma propose_sound p data st st' : propose p data st = Some st' -> rtc step st st'.
Proof.
  unfold propose. destruct (acs_inputValue _ _ _ _ _ _ _) as [[a err]| |] eqn:E; try done.
  unfold acorrect. case_bool_decide as Hc; [|done]. destruct Hc. intros [= <-].
  apply rtc_once. by eapply as_input; [..|exact E].
Qed.

Lemma deliver_sound q t st st' :
  (q, t) ∈ an_soup st -> deliver q t st = Some st' -> rtc step st st'.
Proof.
  intros Hin. unfold deliver, acorrect. case_bool_decide as Hc; [|by intros [= ->]].
  case_bool_decide as Hq; [|by intros [= ->]]. cbn [andb]. destruct Hc, Hq.
  destruct (acs_handleMessage _ _ _ _ _ _ _ _) as [[a err]| |] eqn:E; try done.
  intros [= <-]. apply rtc_once. eapply as_deliver; [..|exact E]; try done.
  intros _. by destruct t.
Qed.

Lemma collect_sound p st st' : collect_output p st = Some st' -> rtc step st st'.
Proof.
  unfold collect_output. destruct (acs_Output _) as [[m|] a] eqn:E; [|by intros [= ->]].
  unfold acorrect. case_bool_decide as Hc; [|done]. destruct Hc. intros [= <-].
  apply rtc_once. by apply as_output.
Qed.

Lemma drive_sound k i st st' : drive k i st = Some st' -> rtc step st st'.
Proof.
  revert i st. induction k as [|k IH]; intros i st; cbn; [by intros [= ->]|].
  destruct (an_soup st !! i) as [[q t]|] eqn:Hi; [|by intros [= ->]].
  destruct (deliver q t st) as [st1|] eqn:E; [|done]. intros Hd.
  etransitivity; [|by eapply IH]. eapply deliver_sound; [|exact E].
  by eapply list_elem_of_lookup_2.
Qed.
End Schedule.

Definition chain (l : list (anet -> option anet)) (st : anet) : option anet :=
  fold_left (fun os g => match os with Some st => g st | None => None end) l (Some st).

Lemma chain_sound (R : anet -> anet -> Prop) l st st' :
  Forall (fun g => forall st st', g st = Some st' -> rtc R st st') l ->
  chain l st = Some st' -> rtc R st st'.
Proof.
  unfold chain. intros Hl. revert st. induction Hl as [|g l Hg Hl IH]; intros st; cbn.
  { intros [= ->]. apply rtc_refl. }
  destruct (g st) as [st1|] eqn:E.
  - intros Hc. etransitivity; [by eapply Hg|by apply IH].
  - assert (fold_left (fun os g => match os with Some st => g st | None => None end) l None
      = @None anet) as -> by (clear; by induction l). done.
Qed.

(** Four operators of which operator 3 is faulty and silent; the others propose. *)
Module ADemo.
Definition init (p : Z) : acs :=
  match newACS RDemo.rs_New (RDemo.cfg p) with
  | Ret a => a
  | _ => mkAcs (RDemo.cfg p) ∅ ∅ ∅ ∅ None [] false []
  end.

Definition script : list (anet -> option anet) :=
  ((fun p => propose RDemo.Prove RDemo.VerifyProof RDemo.nodes RDemo.byz 60 p [p; 10 + p])
  <$> [0; 1; 2]) ++
  drive RDemo.Prove RDemo.VerifyProof RDemo.nodes RDemo.byz 60 1000 0 ::
  (collect_output RDemo.nodes RDemo.byz <$> [0; 1; 2]).

Definition final : option anet := chain script (init_anet init).

Definition agreed : anet := default (init_anet init) final.

Definition block : gmap Z bytes := list_to_map [(0, [0; 10]); (1, [1; 11]); (2, [2; 12])].

Lemma agreed_reachable :
  areachable RDemo.Prove RDemo.VerifyProof RDemo.nodes RDemo.byz init agreed.
Proof.
  assert (is_some final = true) as Hf by (vm_compute; reflexivity).
  unfold agreed. destruct final as [st|] eqn:Hs; [clear Hf|done]. cbn.
  eapply chain_sound; [|exact Hs]. unfold script. apply Forall_app. split; [|constructor].
  - apply Forall_fmap, Forall_forall. intros p _ st0 st1. apply propose_sound.
  - intros st0 st1. apply drive_sound.
  - apply Forall_fmap, Forall_forall. intros p _ st0 st1. apply collect_sound.
Qed.

Lemma agreed_outputs : an_outputs agreed = [(0, block); (1, block); (2, block)].
Proof. vm_compute. reflexivity. Qed.

Lemma agreed_short : (3 * zlen (an_soup agreed) <? 2 ^ 32) = true.
Proof. vm_compute. reflexivity. Qed.

Lemma agreed_ids p x : x ∈ Nodes (RDemo.cfg p) <-> x ∈ RDemo.nodes.
Proof. unfold RDemo.nodes. by rewrite elem_of_list_to_set. Qed.

Lemma agreed_init p : newACS RDemo.rs_New (RDemo.cfg p) = Ret (init p).
Proof. reflexivity. Qed.
End ADemo.

Lemma acs_agreement_witness :
  exists m m', (0, m) ∈ an_outputs ADemo.agreed /\ (2, m') ∈ an_outputs ADemo.agreed /\ m = m'.
Proof.
  exists ADemo.block, ADemo.block.
  assert ((0, ADemo.block) ∈ an_outputs ADemo.agreed) as H0
    by (rewrite ADemo.agreed_outputs; repeat constructor).
  assert ((2, ADemo.block) ∈ an_outputs ADemo.agreed) as H2
    by (rewrite ADemo.agreed_outputs; repeat constructor).
  split; [exact H0|]. split; [exact H2|].
  exact (acs_agreement RDemo.rs_New RDemo.Prove RDemo.VerifyProof RDemo.nodes RDemo.byz RDemo.cfg
    ADemo.init 4 1 RDemo.code ADemo.agreed demo_cfg ADemo.agreed_ids ADemo.agreed_init eq_refl
    ltac:(vm_compute; reflexivity) ltac:(vm_compute; congruence) ltac:(lia) ltac:(lia)
    ADemo.agreed_reachable (proj1 (Z.ltb_lt _ _) ADemo.agreed_short) 0 2 _ _ H0 H2).
Defined.

Lemma acs_quality_witness :
  (1, ADemo.block) ∈ an_outputs ADemo.agreed /\ 3 <= zsize ADemo.block /\
  exists data shards, (2, data) ∈ an_inputs ADemo.agreed /\
    makeShards RDemo.code data = inl shards /\ [2; 12] = mjoin (take 2 shards).
Proof.
  assert ((1, ADemo.block) ∈ an_outputs ADemo.agreed) as H1
    by (rewrite ADemo.agreed_outputs; repeat constructor).
  destruct (acs_quality RDemo.rs_New RDemo.Prove RDemo.VerifyProof RDemo.nodes RDemo.byz RDemo.cfg
    ADemo.init 4 1 RDemo.code ADemo.agreed demo_cfg ADemo.agreed_ids ADemo.agreed_init eq_refl
    ltac:(vm_compute; reflexivity) ltac:(vm_compute; congruence) ltac:(lia) ltac:(lia)
    ADemo.agreed_reachable 1 ADemo.block H1) as (Hs & _ & Hv).
  split; [exact H1|]. split; [exact Hs|].
  apply (Hv 2); [reflexivity|]. apply (bool_decide_eq_true_1 _). reflexivity.
Defined.
