(* ===== verification/SlotAcs.v ===== *)
(** * SlotAcs: the single-slot adapter on top of the common subset

    Models [sbc/hbbft/bloc_slot.go].  The gob encoding of the standard library
    and the callbacks of the caller (block builder, post-agreement hook,
    candidate provider) are parameters; [None] is their error.  The recorder
    shared with the common subset is the log [a_trace], so the snapshot stored
    in an output is the log up to that moment. *)

From S2P Require Import Prelude Trace Messages Bba Rbc RbcNet Acs AcsLocal.

Record SlotMessage := mkSlotMessage { sm_Slot : Z; sm_Payload : option ACSMessage }.

Record AcceptedBatch := mkAccepted { ab_ProposerID : Z; ab_Batch : bytes }.

Record SlotBlockBody := mkBody { bb_Slot : Z; bb_Batches : list AcceptedBatch }.

(** [so_Trace] is the log of which [ACSTrace] is the snapshot. *)
Record SlotOutput {D : Type} := mkSlotOutput {
  so_Slot : Z; so_CommonSubset : gmap Z bytes; so_OrderedBatches : list AcceptedBatch;
  so_BlockBody : bytes; so_DecryptionResult : option D; so_Trace : list trace_call }.
Arguments SlotOutput : clear implicits.

Record SlotProgress := mkSlotProgress { sp_Slot : Z; sp_ACS : ACSProgress }.

Section Slot.
Context {D : Type}.
Context (rs_New : Z -> Z -> option Encoder).
Context (Prove : list bytes -> Z -> bytes * list bytes * Z * Z).
Context (VerifyProof : bytes -> list bytes -> Z -> Z -> bool).
(** [gob] of a byte slice, and of a block body. *)
Context (gobEncode : bytes -> bytes) (gobDecode : bytes -> option bytes).
Context (gobBody : SlotBlockBody -> option bytes).

Abbreviation BlockBuilder := (Z -> list AcceptedBatch -> option bytes).
Abbreviation PostAgreementHook := (SlotOutput D -> option D).

Record SlotACS := mkSlotACS {
  sl_slot : Z;
  sl_acs : acs;
  sl_blockBuilder : option BlockBuilder;
  sl_postAgreement : option PostAgreementHook;
  sl_output : option (SlotOutput D) }.

Definition set_slacs (s : SlotACS) (a : acs) : SlotACS :=
  mkSlotACS (sl_slot s) a (sl_blockBuilder s) (sl_postAgreement s) (sl_output s).

Definition set_sloutput (s : SlotACS) (o : option (SlotOutput D)) : SlotACS :=
  mkSlotACS (sl_slot s) (sl_acs s) (sl_blockBuilder s) (sl_postAgreement s) o.

Definition NewSlotACS (cfg : Config) (slot : Z) (builder : option BlockBuilder)
  (hook : option PostAgreementHook) : go SlotACS :=
  let! a := newACS rs_New cfg in
  Ret (mkSlotACS slot a builder hook None).

Definition encodeCandidateBatch (batch : bytes) : bytes := gobEncode batch.

Definition decodeCandidateBatch (batch : bytes) : option bytes := gobDecode batch.

(** The proposers are visited in the order [ids]; the first failure is returned. *)
Fixpoint decodeEntries (ids : list Z) (subset acc : gmap Z bytes) : gmap Z bytes + hberror :=
  match ids with
  | [] => inl acc
  | id :: ids =>
      match subset !! id with
      | None => decodeEntries ids subset acc
      | Some batch =>
          match decodeCandidateBatch batch with
          | None => inr (ErrDecodeBatch id)
          | Some plainBatch => decodeEntries ids subset (<[id := plainBatch]> acc)
          end
      end
  end.

Definition decodeCommonSubset (order : list Z -> list Z) (subset : gmap Z bytes)
  : gmap Z bytes + hberror :=
  decodeEntries (order ((map_to_list subset).*1)) subset ∅.

(** A read of an absent id is nil; here every id is present. *)
Definition orderedBatches (subset : gmap Z bytes) : list AcceptedBatch :=
  (fun id => mkAccepted id (default [] (subset !! id))) <$>
  sortedIDs ((map_to_list subset).*1).

Definition EncodeSlotBlockBody (slot : Z) (batches : list AcceptedBatch) : option bytes :=
  gobBody (mkBody slot batches).

Section Calls.
Context (range : list ProofRequest -> list ProofRequest) (order : list Z -> list Z) (fuel : nat).

Definition maybeBuildOutput (s : SlotACS) : SlotACS * option hberror :=
  match sl_output s with
  | Some _ => (s, None)
  | None =>
      let '(subset, a) := acs_Output (sl_acs s) in
      let s := set_slacs s a in
      let subset := default ∅ subset in
      if (size subset =? 0)%nat then (s, None) else
      match decodeCommonSubset order subset with
      | inr err => (s, Some err)
      | inl decodedSubset =>
          let s := set_slacs s (acsTrace (sl_acs s) (CallAdapter traceCommonSubsetDecoded)) in
          let ordered := orderedBatches decodedSubset in
          let builder := default EncodeSlotBlockBody (sl_blockBuilder s) in
          match builder (sl_slot s) ordered with
          | None => (s, Some ErrBuilder)
          | Some blockBody =>
              let s := set_slacs s (acsTrace (sl_acs s) (CallAdapter traceBlockBodyBuilt)) in
              let output := mkSlotOutput D (sl_slot s) decodedSubset ordered blockBody None
              (a_trace (sl_acs s)) in
              match sl_postAgreement s with
              | None => (set_sloutput s (Some output), None)
              | Some hook =>
                  match hook output with
                  | None => (s, Some ErrPostAgreement)
                  | Some result =>
                      (set_sloutput s (Some (mkSlotOutput D (sl_slot s) decodedSubset ordered blockBody
                        (Some result) (a_trace (sl_acs s)))), None)
                  end
              end
          end
      end
  end.

Definition InputBatch (batch : bytes) (s : SlotACS) : go (SlotACS * option hberror) :=
  let encodedBatch := encodeCandidateBatch batch in
  let! (a, err) := acs_inputValue Prove VerifyProof range order fuel encodedBatch (sl_acs s) in
  let s := set_slacs s a in
  match err with
  | Some e => Ret (s, Some e)
  | None => Ret (maybeBuildOutput s)
  end.

(** [provider] is [None] when nil; it returns [None] on an error. *)
Definition InputFromProvider (provider : option (Z -> option bytes)) (s : SlotACS)
  : go (SlotACS * option hberror) :=
  match provider with
  | None => Ret (s, Some ErrNilProvider)
  | Some p =>
      match p (sl_slot s) with
      | None => Ret (s, Some ErrProvider)
      | Some batch => InputBatch batch s
      end
  end.

(** A nil message is [None]. *)
Definition slot_HandleMessage (senderID : Z) (msg : option SlotMessage) (s : SlotACS)
  : go (SlotACS * option hberror) :=
  match msg with
  | Some (mkSlotMessage slot (Some payload)) =>
      if negb (slot =? sl_slot s) then Ret (s, Some (ErrWrongSlot slot (sl_slot s)))
      else
      let! (a, err) := acs_handleMessage Prove VerifyProof range order fuel senderID payload (sl_acs s) in
      let s := set_slacs s a in
      match err with
      | Some e => Ret (s, Some e)
      | None => Ret (maybeBuildOutput s)
      end
  | _ => Ret (s, Some ErrNilSlotMessage)
  end.
End Calls.

(** Returns the queued messages, tagged with the slot, and empties the queue. *)
Definition slot_Messages (s : SlotACS) : list (MessageTuple SlotMessage) * SlotACS :=
  let '(msgs, que) := que_messages (a_que (sl_acs s)) in
  (fmap (M := list) (fun t => mkTuple (To t) (mkSlotMessage (sl_slot s) (Some (TPayload t)))) msgs,
  set_slacs s (set_que (sl_acs s) que)).

Definition slot_Progress (s : SlotACS) : SlotProgress :=
  mkSlotProgress (sl_slot s) (acs_progress (sl_acs s)).

(** Returns the slot result once. *)
Definition slot_Output (s : SlotACS) : option (SlotOutput D) * SlotACS :=
  match sl_output s with
  | None => (None, s)
  | Some out => (Some out, set_sloutput s None)
  end.

Definition Slot (s : SlotACS) : Z := sl_slot s.

Definition MarkNodeOutputReceived (s : SlotACS) : SlotACS :=
  set_slacs s (acsTrace (sl_acs s) (CallAdapter traceNodeOutputReceived)).
End Slot.
