(* ===== verification/SlotLaws.v ===== *)
(** * SlotLaws: what the slot adapter outputs, and when it never will

    [slot_output_spec]: the output is a function of the agreed map, the slot and
    the builder.  [slot_bad_batch_final]: one undecodable batch in the agreed
    map costs the slot its output for good. *)

From S2P Require Import Prelude Trace Messages Bba Rbc RbcNet Acs AcsLocal AcsNet AcsAgree SlotAcs.

(** ** Sorted identifiers *)

Lemma sortedIDs_Permutation l : sortedIDs l ≡ₚ l.
Proof. apply merge_sort_Permutation. Qed.

Lemma sortedIDs_strict l : NoDup l -> StronglySorted Z.lt (sortedIDs l).
Proof.
  intros Hnd. assert (NoDup (sortedIDs l)) as Hnd' by by rewrite sortedIDs_Permutation.
  assert (StronglySorted Z.le (sortedIDs l)) as Hs.
  { apply (StronglySorted_merge_sort Z.le). }
  revert Hnd' Hs. generalize (sortedIDs l). clear. intros l Hnd Hs.
  induction Hs as [|x l Hs IH Hall]; [constructor|]. apply NoDup_cons in Hnd as [Hx Hnd].
  constructor; [by apply IH|]. rewrite Forall_forall in Hall |- *. intros y Hy.
  specialize (Hall y Hy). destruct (decide (x = y)) as [->|]; [done|lia].
Qed.

(** ** Decoding *)

Section Decode.
Context (gobDecode : bytes -> option bytes).

Abbreviation decoded m := (omap gobDecode (m : gmap Z bytes)).

Lemma decodeEntries_spec ids subset acc :
  match decodeEntries gobDecode ids subset acc with
  | inl d => (forall id v, id ∈ ids -> subset !! id = Some v -> is_Some (gobDecode v)) /\
         forall id, d !! id = if decide (id ∈ ids /\ is_Some (subset !! id))
                              then subset !! id ≫= gobDecode else acc !! id
  | inr err => exists id v, id ∈ ids /\ subset !! id = Some v /\ gobDecode v = None /\
             err = ErrDecodeBatch id
  end.
Proof.
  revert acc. induction ids as [|i ids IH]; intros acc; cbn.
  { split; [by intros id v ?%elem_of_nil|]. intros id.
    rewrite decide_False; [done|]. by intros [?%elem_of_nil _]. }
  destruct (subset !! i) as [v|] eqn:Hi.
  - unfold decodeCandidateBatch. destruct (gobDecode v) as [b|] eqn:Hb.
    + specialize (IH (<[i := b]> acc)). destruct (decodeEntries _ _ _ _) as [d|err].
      * destruct IH as [H1 H2]. split.
        { intros id w [->|Hin]%elem_of_cons Hw; [|eauto]. rewrite Hi in Hw.
          injection Hw as <-. by eexists. }
        intros id. rewrite H2. destruct (decide (id = i)) as [->|Hne].
        { rewrite (decide_True (P := i ∈ i :: ids /\ _)) by by split; [left|eexists].
          rewrite Hi. cbn. rewrite Hb, lookup_insert_eq. by destruct (decide _). }
        rewrite lookup_insert_ne by done.
        destruct (decide (id ∈ ids /\ _)) as [[Hin Hs]|Hno].
        { by rewrite decide_True by by split; [right|]. }
        rewrite decide_False; [done|]. intros [[|Hin]%elem_of_cons Hs]; [done|]. by apply Hno.
      * destruct IH as (id & w & ? & ? & ? & ?). exists id, w. split_and!; try done. by right.
    + exists i, v. split_and!; try done. by left.
  - specialize (IH acc). destruct (decodeEntries _ _ _ _) as [d|err].
    + destruct IH as [H1 H2]. split.
      { intros id w [->|Hin]%elem_of_cons Hw; [congruence|eauto]. }
      intros id. rewrite H2.
      destruct (decide (id ∈ ids /\ _)) as [[Hin Hs]|Hno].
      { by rewrite decide_True by by split; [right|]. }
      rewrite decide_False; [done|]. intros [[->|Hin]%elem_of_cons Hs]; [|by apply Hno].
      rewrite Hi in Hs. by destruct Hs.
    + destruct IH as (id & w & ? & ? & ? & ?). exists id, w. split_and!; try done. by right.
Qed.

(** Decoding yields the decoded map, whatever the iteration order. *)
Lemma decodeCommonSubset_spec order m :
  (forall l, order l ≡ₚ l) ->
  match decodeCommonSubset gobDecode order m with
  | inl d => (forall id v, m !! id = Some v -> is_Some (gobDecode v)) /\ d = decoded m
  | inr err => exists id v, m !! id = Some v /\ gobDecode v = None /\ err = ErrDecodeBatch id
  end.
Proof.
  intros Ho. unfold decodeCommonSubset.
  pose proof (decodeEntries_spec (order ((map_to_list m).*1)) m ∅) as HD.
  assert (forall id, id ∈ order ((map_to_list m).*1) <-> is_Some (m !! id)) as Hin.
  { intros id. rewrite Ho, list_elem_of_fmap. split.
    - intros ([k v] & -> & Hk). apply elem_of_map_to_list in Hk. by eexists.
    - intros [v Hv]. exists (id, v). split; [done|]. by apply elem_of_map_to_list. }
  destruct (decodeEntries _ _ _ _) as [d|err].
  - destruct HD as [H1 H2]. split.
    + intros id v Hv. apply (H1 id v); [apply Hin; by eexists|done].
    + apply map_eq. intros id. rewrite H2, lookup_omap.
      destruct (decide _) as [_|Hno]; [done|]. rewrite lookup_empty.
      destruct (m !! id) as [v|] eqn:E; [|done]. exfalso. apply Hno.
      split; [apply Hin; by eexists|by eexists].
  - destruct HD as (id & v & _ & ? & ? & ?). by exists id, v.
Qed.
End Decode.

Lemma orderedBatches_sorted m : StronglySorted Z.lt (ab_ProposerID <$> orderedBatches m).
Proof.
  unfold orderedBatches. rewrite <- list_fmap_compose.
  change (ab_ProposerID ∘ _) with (fun x : Z => x). rewrite list_fmap_id.
  apply sortedIDs_strict, NoDup_fst_map_to_list.
Qed.

Lemma elem_of_orderedBatches m id b :
  mkAccepted id b ∈ orderedBatches m <-> m !! id = Some b.
Proof.
  unfold orderedBatches. rewrite list_elem_of_fmap. split.
  - intros (i & [= -> ->] & Hi). rewrite sortedIDs_Permutation, list_elem_of_fmap in Hi.
    destruct Hi as ([k v] & -> & Hk). apply elem_of_map_to_list in Hk. cbn. by rewrite Hk.
  - intros Hm. exists id. rewrite Hm. split; [done|].
    rewrite sortedIDs_Permutation, list_elem_of_fmap. exists (id, b). split; [done|].
    by apply elem_of_map_to_list.
Qed.

(** ** A decided common subset has one output *)

(** [a'] is as decided as [a], with the output it has. *)
Definition settled (a a' : acs) : Prop :=
  a_decided a = true -> a_decided a' = true /\ a_output a' = a_output a.

Lemma settled_trans a1 a2 a3 : settled a1 a2 -> settled a2 a3 -> settled a1 a3.
Proof. intros H1 H2 Hd. destruct (H1 Hd) as [Hd2 <-]. auto. Qed.

Lemma settled_frame a a' : a_decided a' = a_decided a -> a_output a' = a_output a -> settled a a'.
Proof. intros E1 E2 Hd. by rewrite E1, E2. Qed.

Lemma settled_record a : settled a (recordTraceState a).
Proof. destruct (recordTraceState_spec a) as [t ->]. by apply settled_frame. Qed.

Lemma settled_complete a : settled a (tryCompleteAgreement a).
Proof.
  intros Hd. destruct (tryComplete_spec a) as [[t ->]|(t & m & _ & Hn & _)]; [done|congruence].
Qed.

Lemma settled_messages a id ps : settled a (addACSMessages a id ps).
Proof. rewrite addACSMessages_spec. by apply settled_frame. Qed.

Lemma injectFalse_settled fuel ids rec a a' err :
  injectFalse fuel ids rec a = Ret (a', err) -> settled a a'.
Proof.
  revert rec a. induction ids as [|id ids IH]; intros rec a; cbn.
  { intros [<- _]%ret_pair. by apply settled_frame. }
  destruct (a_bba a !! id) as [b|]; [|apply IH]. destruct (AcceptInput b); [|apply IH].
  set (a0 := if rec then a else _).
  assert (settled a a0) as H0 by (unfold a0; destruct rec; by apply settled_frame).
  clearbody a0. destruct (InputValue fuel false b) as [[b1 [e|]]| |]; try done; cbn [go_bind].
  { intros [<- _]%ret_pair. eapply settled_trans; [exact H0|]. by apply settled_frame. }
  cbn [Messages].
  match goal with |- context [addACSMessages ?a1 ?i ?ps] =>
    assert (settled a0 (addACSMessages a1 i ps)) as H1
      by (eapply settled_trans; [|apply settled_messages]; by apply settled_frame);
    revert H1; generalize (addACSMessages a1 i ps) end.
  intros a1 H1. destruct (Output _) as [[v|] b3]; intros HI%IH.
  - do 2 (eapply settled_trans; [eassumption|]). eapply settled_trans; [|exact HI].
    eapply settled_trans; [|apply settled_record]. by apply settled_frame.
  - do 2 (eapply settled_trans; [eassumption|]). exact HI.
Qed.

Lemma processAgreement_settled order fuel pid g a a' err :
  processAgreement order fuel pid g a = Ret (a', err) -> settled a a'.
Proof.
  unfold processAgreement. destruct (a_bba a !! pid) as [b|];
    [|intros [<- _]%ret_pair; by apply settled_frame].
  destruct (b_done b); [intros [<- _]%ret_pair; by apply settled_frame|].
  destruct (g b) as [[b1 [e|]]| |]; try done; cbn [go_bind].
  { intros [<- _]%ret_pair. by apply settled_frame. }
  cbn [Messages].
  match goal with |- context [addACSMessages ?a1 ?i ?ps] =>
    assert (settled a (addACSMessages a1 i ps)) as H1
      by (eapply settled_trans; [|apply settled_messages]; by apply settled_frame);
    revert H1; generalize (addACSMessages a1 i ps) end.
  intros a1 H1. destruct (Output _) as [[v|] b3]; [|by intros [<- _]%ret_pair].
  destruct (a_bbaResults _ !! pid).
  { intros [<- _]%ret_pair. eapply settled_trans; [exact H1|]. by apply settled_frame. }
  match goal with |- context [recordTraceState ?a0] =>
    assert (settled a (recordTraceState a0)) as H2
      by (eapply settled_trans; [exact H1|]; eapply settled_trans; [|apply settled_record];
          by apply settled_frame);
    revert H2; generalize (recordTraceState a0) end.
  intros a2 H2. destruct (v && _).
  - destruct (injectFalse _ _ _ _) as [[a3 [e|]]| |] eqn:E; try done; cbn [go_bind];
      apply injectFalse_settled in E; intros [<- _]%ret_pair.
    + by eapply settled_trans.
    + eapply settled_trans; [exact H2|]. eapply settled_trans; [exact E|apply settled_complete].
  - cbn [go_bind]. intros [<- _]%ret_pair. eapply settled_trans; [exact H2|apply settled_complete].
Qed.

Lemma processBroadcast_settled order fuel pid g a a' err :
  processBroadcast order fuel pid g a = Ret (a', err) -> settled a a'.
Proof.
  unfold processBroadcast. destruct (a_rbc a !! pid) as [r|];
    [|intros [<- _]%ret_pair; by apply settled_frame].
  destruct (g r) as [[r1 [e|]]| |]; try done; cbn [go_bind].
  { intros [<- _]%ret_pair. by apply settled_frame. }
  cbn [rbc_Messages].
  match goal with |- context [addACSMessages ?a1 ?i ?ps] =>
    assert (settled a (addACSMessages a1 i ps)) as H1
      by (eapply settled_trans; [|apply settled_messages]; by apply settled_frame);
    revert H1; generalize (addACSMessages a1 i ps) end.
  intros a1 H1. destruct (rbc_Output _) as [[v|] r3]; [|by intros [<- _]%ret_pair].
  match goal with |- context [recordTraceState ?a0] =>
    assert (settled a (recordTraceState a0)) as H2
      by (eapply settled_trans; [exact H1|]; eapply settled_trans; [|apply settled_record];
          by apply settled_frame);
    revert H2; generalize (recordTraceState a0) end.
  intros a2 H2. destruct (processAgreement _ _ _ _ a2) as [[a3 [e|]]| |] eqn:E; try done;
    cbn [go_bind]; apply processAgreement_settled in E; intros [<- _]%ret_pair.
  - by eapply settled_trans.
  - eapply settled_trans; [exact H2|]. eapply settled_trans; [exact E|apply settled_complete].
Qed.

Lemma handleMessage_settled Prove VerifyProof range order fuel q m a a' err :
  acs_handleMessage Prove VerifyProof range order fuel q m a = Ret (a', err) -> settled a a'.
Proof.
  unfold acs_handleMessage. destruct (Payload m).
  - apply processAgreement_settled.
  - apply processBroadcast_settled.
  - intros [<- _]%ret_pair. by apply settled_frame.
Qed.

Lemma addRequests_settled ids reqs a a' : addRequests ids reqs a = Ret a' -> settled a a'.
Proof.
  revert reqs a. induction ids as [|i ids IH]; intros [|req reqs] a; cbn; try done.
  - intros [= <-]. by apply settled_frame.
  - intros [= <-]. by apply settled_frame.
  - intros HE%IH. eapply settled_trans; [|exact HE]. by apply settled_frame.
Qed.

Lemma inputValue_settled Prove VerifyProof range order fuel data a a' err :
  acs_inputValue Prove VerifyProof range order fuel data a = Ret (a', err) -> settled a a'.
Proof.
  unfold acs_inputValue. cbv zeta. set (a0 := acsTrace (acsTrace a _) _).
  assert (settled a a0) as H0 by by apply settled_frame. clearbody a0. intros HE.
  eapply settled_trans; [exact H0|]. revert HE. clear H0.
  destruct (a_rbc a0 !! _) as [r|]; [|intros [<- _]%ret_pair; by apply settled_frame].
  destruct (rbc_inputValue _ _ _ data r) as [[r1 [reqs [e|]]]| |]; try done; cbn [go_bind].
  { intros [<- _]%ret_pair. by apply settled_frame. }
  destruct (negb _); [intros [<- _]%ret_pair; by apply settled_frame|].
  destruct (addRequests _ _ _) as [a1| |] eqn:EA; try done. cbn [go_bind rbc_Messages].
  assert (settled a0 a1) as H1.
  { apply addRequests_settled in EA. eapply settled_trans; [|exact EA]. by apply settled_frame. }
  match goal with |- context [addACSMessages ?a2 ?i ?ps] =>
    assert (settled a0 (addACSMessages a2 i ps)) as H2
      by (eapply settled_trans; [exact H1|]; eapply settled_trans; [|apply settled_messages];
          by apply settled_frame);
    revert H2; generalize (addACSMessages a2 i ps) end.
  intros a2 H2. destruct (rbc_Output _) as [[v|] r3]; [|by intros [<- _]%ret_pair].
  match goal with |- context [recordTraceState ?a3] =>
    assert (settled a0 (recordTraceState a3)) as H3
      by (eapply settled_trans; [exact H2|]; eapply settled_trans; [|apply settled_record];
          by apply settled_frame);
    revert H3; generalize (recordTraceState a3) end.
  intros a3 H3. destruct (processAgreement _ _ _ _ a3) as [[a4 e]| |] eqn:E; try done. cbn [go_bind].
  apply processAgreement_settled in E. intros [<- _]%ret_pair. by eapply settled_trans.
Qed.

(** ** The output *)

(** C33.  The slot output: when the common subset yields a non-empty map whose
    batches all decode, and the builder and the hook succeed, the adapter
    stores an output that is read once.  Its subset is the decoded map, its
    batches are those of the map in strictly increasing order of proposer, and
    its block body is what the builder makes of them; none of this depends on
    the node or on the order in which the map is visited. *)
Theorem slot_output_spec {D} gobDecode gobBody order (s : SlotACS (D := D)) m body
  (Horder : forall l, order l ≡ₚ l)
  (Hnone : sl_output s = None) (Hacs : a_output (sl_acs s) = Some m) (Hne : m <> ∅)
  (Hdec : forall id v, m !! id = Some v -> is_Some (gobDecode v))
  (Hbody : default (EncodeSlotBlockBody gobBody) (sl_blockBuilder s) (sl_slot s)
             (orderedBatches (omap gobDecode m)) = Some body)
  (Hhook : match sl_postAgreement s with Some h => forall o, is_Some (h o) | None => True end) :
  let '(s', err) := maybeBuildOutput gobDecode gobBody order s in
  err = None /\
  exists out, (slot_Output s').1 = Some out /\ (slot_Output (slot_Output s').2).1 = None /\
    so_Slot out = sl_slot s /\ so_CommonSubset out = omap gobDecode m /\
    so_OrderedBatches out = orderedBatches (omap gobDecode m) /\ so_BlockBody out = body /\
    StronglySorted Z.lt (ab_ProposerID <$> so_OrderedBatches out) /\
    forall id b, mkAccepted id b ∈ so_OrderedBatches out <->
      exists v, m !! id = Some v /\ gobDecode v = Some b.
Proof.
  unfold maybeBuildOutput. rewrite Hnone. unfold acs_Output. rewrite Hacs.
  change (default ∅ (Some m)) with m.
  assert ((size m =? 0)%nat = false) as ->.
  { apply Nat.eqb_neq. intros E. apply Hne. by apply map_size_empty_iff. }
  pose proof (decodeCommonSubset_spec gobDecode order m Horder) as HD.
  destruct (decodeCommonSubset _ _ _) as [d|err].
  2: { destruct HD as (id & v & Hv & Hd & _). destruct (Hdec id v Hv). congruence. }
  destruct HD as [_ ->]. cbv zeta. cbn [sl_blockBuilder set_slacs sl_slot sl_postAgreement].
  rewrite Hbody.
  assert (forall id b, mkAccepted id b ∈ orderedBatches (omap gobDecode m) <->
    exists v, m !! id = Some v /\ gobDecode v = Some b) as Hel.
  { intros id b. rewrite elem_of_orderedBatches, lookup_omap, bind_Some. done. }
  pose proof (orderedBatches_sorted (omap gobDecode m)).
  destruct (sl_postAgreement s) as [h|]; cbn.
  - match goal with |- context [h ?o] => destruct (Hhook o) as [res ->] end.
    split; [done|]. eexists. split_and!; try reflexivity; done.
  - split; [done|]. eexists. split_and!; try reflexivity; done.
Qed.

(** Any call the owner of the slot can make. *)
Inductive slot_call {D} Prove VerifyProof gobEncode gobDecode gobBody (s : SlotACS (D := D))
    : SlotACS (D := D) -> Prop :=
  | sc_input range order fuel batch s' err :
      InputBatch Prove VerifyProof gobEncode gobDecode gobBody range order fuel batch s = Ret (s', err) ->
      slot_call Prove VerifyProof gobEncode gobDecode gobBody s s'
  | sc_message range order fuel q msg s' err :
      slot_HandleMessage Prove VerifyProof gobDecode gobBody range order fuel q msg s = Ret (s', err) ->
      slot_call Prove VerifyProof gobEncode gobDecode gobBody s s'
  | sc_messages : slot_call Prove VerifyProof gobEncode gobDecode gobBody s (slot_Messages s).2
  | sc_output : slot_call Prove VerifyProof gobEncode gobDecode gobBody s (slot_Output s).2
  | sc_mark : slot_call Prove VerifyProof gobEncode gobDecode gobBody s (MarkNodeOutputReceived s).

(** Decided, with the output taken from the common subset and none stored. *)
Definition Spent {D} (s : SlotACS (D := D)) : Prop :=
  sl_output s = None /\ a_decided (sl_acs s) = true /\ a_output (sl_acs s) = None.

Lemma Spent_build {D} gobDecode gobBody order (s : SlotACS (D := D)) :
  Spent s -> Spent (maybeBuildOutput gobDecode gobBody order s).1.
Proof.
  intros (H1 & H2 & H3). unfold maybeBuildOutput. rewrite H1. unfold acs_Output. rewrite H3. cbn.
  by split_and!.
Qed.

Lemma Spent_settled {D} (s : SlotACS (D := D)) a :
  Spent s -> settled (sl_acs s) a -> Spent (set_slacs s a).
Proof. intros (H1 & H2 & H3) HS. destruct (HS H2). split_and!; cbn; congruence. Qed.

Lemma Spent_call {D} Prove VerifyProof gobEncode gobDecode gobBody (s s' : SlotACS (D := D)) :
  slot_call Prove VerifyProof gobEncode gobDecode gobBody s s' -> Spent s -> Spent s'.
Proof.
  intros Hc HS. destruct Hc as [range order fuel batch s' err HE|range order fuel q msg s' err HE| | |].
  - unfold InputBatch in HE.
    destruct (acs_inputValue _ _ _ _ _ _ _) as [[a e]| |] eqn:E; try done. cbn [go_bind] in HE.
    apply inputValue_settled in E. pose proof (Spent_settled s a HS E) as HS1.
    destruct e; [by apply ret_pair in HE as [<- _]|].
    injection HE as HE. pose proof (Spent_build gobDecode gobBody order _ HS1) as HB.
    by rewrite HE in HB.
  - unfold slot_HandleMessage in HE. destruct msg as [[slot [payload|]]|];
      try by apply ret_pair in HE as [<- _].
    destruct (negb _); [by apply ret_pair in HE as [<- _]|].
    destruct (acs_handleMessage _ _ _ _ _ _ _ _) as [[a e]| |] eqn:E; try done. cbn [go_bind] in HE.
    apply handleMessage_settled in E. pose proof (Spent_settled s a HS E) as HS1.
    destruct e; [by apply ret_pair in HE as [<- _]|].
    injection HE as HE. pose proof (Spent_build gobDecode gobBody order _ HS1) as HB.
    by rewrite HE in HB.
  - by destruct HS as (? & ? & ?).
  - destruct HS as (H1 & ? & ?). unfold slot_Output. by rewrite H1.
  - by destruct HS as (? & ? & ?).
Qed.

(** C34.  One undecodable batch costs the slot its output: when the agreed map
    holds a batch that does not decode, the call that takes it from the common
    subset reports the batch and drops the map, and no sequence of further
    calls ever gives the slot an output. *)
Theorem slot_bad_batch_final {D} Prove VerifyProof gobEncode gobDecode gobBody order
    (s : SlotACS (D := D)) m
  (Horder : forall l, order l ≡ₚ l)
  (Hnone : sl_output s = None) (Hacs : a_output (sl_acs s) = Some m)
  (Hdecided : a_decided (sl_acs s) = true)
  (Hbad : exists id v, m !! id = Some v /\ gobDecode v = None) :
  let '(s', err) := maybeBuildOutput gobDecode gobBody order s in
  (exists id v, err = Some (ErrDecodeBatch id) /\ m !! id = Some v /\ gobDecode v = None) /\
  forall s2, rtc (slot_call Prove VerifyProof gobEncode gobDecode gobBody) s' s2 ->
    (slot_Output s2).1 = None.
Proof.
  unfold maybeBuildOutput. rewrite Hnone. unfold acs_Output. rewrite Hacs.
  change (default ∅ (Some m)) with m.
  destruct Hbad as (id & v & Hv & Hd).
  assert ((size m =? 0)%nat = false) as ->.
  { apply Nat.eqb_neq. intros E. apply map_size_empty_iff in E. subst. by rewrite lookup_empty in Hv. }
  pose proof (decodeCommonSubset_spec gobDecode order m Horder) as HD.
  destruct (decodeCommonSubset _ _ _) as [d|err].
  { destruct HD as [HD _]. destruct (HD id v Hv). congruence. }
  destruct HD as (id' & v' & ? & ? & ->). split; [by exists id', v'|].
  intros s2 Hr. assert (Spent s2) as (H1 & _ & _); [|unfold slot_Output; by rewrite H1].
  assert (Spent (set_slacs s (set_aoutput (sl_acs s) None (a_decided (sl_acs s))))) as HS
    by by split_and!.
  clear -Hr HS. induction Hr; [done|]. apply IHHr. by eapply Spent_call.
Qed.

(** ** Concrete slots *)

(** A length byte before the data; what follows the data is ignored. *)
Definition toyEncode (b : bytes) : bytes := zlen b :: b.

Definition toyDecode (b : bytes) : option bytes :=
  match b with
  | n :: rest => if (0 <=? n) && (n <=? zlen rest) then Some (take (Z.to_nat n) rest) else None
  | [] => None
  end.

Definition toyBody (b : SlotBlockBody) : option bytes :=
  Some (bb_Slot b :: mjoin ((fun a => ab_ProposerID a :: ab_Batch a) <$> bb_Batches b)).

Definition toySlot (m : gmap Z bytes) : SlotACS (D := unit) :=
  mkSlotACS 9 (set_aoutput (ADemo.init 0) (Some m) true) None None None.

Definition good_map : gmap Z bytes := list_to_map [(2, [1; 9; 0]); (0, [2; 7; 8; 0])].

Definition bad_map : gmap Z bytes := list_to_map [(2, [5; 9; 0]); (0, [2; 7; 8; 0])].

Lemma slot_output_spec_witness :
  exists out, (slot_Output (maybeBuildOutput toyDecode toyBody (fun l => l) (toySlot good_map)).1).1
              = Some out /\ so_BlockBody out = [9; 0; 7; 8; 2; 9].
Proof.
  assert (forall id v, good_map !! id = Some v -> is_Some (toyDecode v)) as Hdec.
  { intros id v Hv. apply elem_of_list_to_map_2 in Hv.
    repeat (apply elem_of_cons in Hv as [[= -> ->]|Hv]; [by eexists|]). by apply elem_of_nil in Hv. }
  pose proof (slot_output_spec toyDecode toyBody (fun l => l) (toySlot good_map) good_map
    [9; 0; 7; 8; 2; 9] (fun l => ltac:(reflexivity)) eq_refl eq_refl ltac:(done) Hdec
    ltac:(vm_compute; reflexivity) I) as H.
  destruct (maybeBuildOutput _ _ _ _) as [s' err]. destruct H as (_ & out & H1 & _ & _ & _ & _ & H2 & _).
  by exists out.
Defined.

Lemma slot_bad_batch_final_witness :
  (slot_Output (maybeBuildOutput toyDecode toyBody (fun l => l) (toySlot bad_map)).1).1 = None.
Proof.
  pose proof (slot_bad_batch_final RDemo.Prove RDemo.VerifyProof toyEncode toyDecode toyBody
    (fun l => l) (toySlot bad_map) bad_map (fun l => ltac:(reflexivity)) eq_refl eq_refl eq_refl
    ltac:(exists 2, [5; 9; 0]; by split)) as H.
  destruct (maybeBuildOutput _ _ _ _) as [s' err]. destruct H as [_ H]. apply H. apply rtc_refl.
Defined.

(** ** End to end *)

(** What the codec and the code promise: decoding ignores zeros after an
    encoding, and the data shards are the data padded with zeros. *)
Class PaddedCodec (gobEncode : bytes -> bytes) (gobDecode : bytes -> option bytes) : Prop :=
  gob_roundtrip b zs : Forall (fun x => x = 0) zs -> gobDecode (gobEncode b ++ zs) = Some b.

Class SystematicCode (rs_New : Z -> Z -> option Encoder) : Prop :=
  code_systematic d k enc data shards :
    rs_New d k = Some enc -> makeShards enc data = inl shards ->
    exists zs, Forall (fun x => x = 0) zs /\ mjoin (take (Z.to_nat d) shards) = data ++ zs.

(**  A correct operator's batch arrives intact: if everything a correct
    operator proposed was the encoding of a batch, the entry it has in any
    output of the common subset decodes to one of those batches. *)
Lemma slot_delivers_batch rs_New Prove VerifyProof gobEncode gobDecode
    `{!ErasureCode rs_New} `{!SystematicCode rs_New} `{!MerkleTree Prove VerifyProof}
    `{!PaddedCodec gobEncode gobDecode}
    (nodes byz : gset Z) (cfg : Z -> Config) (init : Z -> acs) (n f : Z) (enc : Encoder) (st : anet)
  (Hcfg : forall p, N (defaultF (cfg p)) = n /\ F (defaultF (cfg p)) = f /\
                    ID (defaultF (cfg p)) = p)
  (Hids : forall p x, x ∈ Nodes (cfg p) <-> x ∈ nodes)
  (Hinit : forall p, newACS rs_New (cfg p) = Ret (init p))
  (Henc : rs_New (n - 2 * f) (2 * f) = Some enc)
  (Hnodes : zsize nodes = n) (Hbyz : zsize byz <= f) (Hn : 3 * f < n) (Htwo : 2 <= n)
  (Hreach : areachable Prove VerifyProof nodes byz init st) (p pid : Z) (m : gmap Z bytes) (v : bytes)
  (Hpid : pid ∉ byz)
  (Hbatches : forall d, (pid, d) ∈ an_inputs st -> exists b, d = encodeCandidateBatch gobEncode b) :
  (p, m) ∈ an_outputs st -> m !! pid = Some v ->
  exists b, (pid, encodeCandidateBatch gobEncode b) ∈ an_inputs st /\
    decodeCandidateBatch gobDecode v = Some b.
Proof.
  intros Hm Hv.
  destruct (output_quality rs_New Prove VerifyProof nodes byz cfg init n f enc st Hcfg Hids Hinit
    Henc Hnodes Hbyz Hn Htwo Hreach p m Hm) as (_ & _ & Hq).
  destruct (Hq pid v Hv Hpid) as (data & shards & Hd & Hs & ->).
  destruct (Hbatches data Hd) as [b ->]. exists b. split; [done|].
  destruct (code_systematic _ _ _ _ _ Henc Hs) as (zs & Hz & ->). by apply gob_roundtrip.
Qed.

#[global] Instance toy_codec : PaddedCodec toyEncode toyDecode.
Proof.
  intros b zs _. unfold toyEncode, toyDecode. cbn.
  rewrite (proj2 (Z.leb_le 0 _)), (proj2 (Z.leb_le _ (zlen (b ++ zs)))) by (rewrite ?length_app; lia).
  cbn. by rewrite Nat2Z.id, take_app_length.
Qed.

#[global] Instance toy_systematic : SystematicCode RDemo.rs_New.
Proof.
  intros d k enc data shards. unfold RDemo.rs_New. destruct (_ && _) eqn:Hc; [|done].
  apply andb_true_iff in Hc as [->%Z.eqb_eq ->%Z.eqb_eq]. intros [= <-].
  unfold makeShards. cbn. intros [= <-]. exists []. split; [done|].
  change (Z.to_nat 2) with 2%nat. cbn. by rewrite app_nil_r, app_nil_r, take_drop.
Qed.

