(* ===== verification/HoneyBadger.v ===== *)
(** * HoneyBadger: the epochs of the upstream engine and its buffer

    Models [sbc/hbbft/honey_badger.go] and [buffer.go]: an engine that runs one
    common subset per epoch, commits the transactions it agrees on, and
    proposes a sample of its buffer for the next epoch. The transaction type
    with its [Hash] and the gob encoding of a slice of transactions are
    parameters. What one call draws and the orders in which it ranges over
    maps are a [choice]. A call of [propose] on an empty buffer sleeps and
    tries again; it is [Sleeping] until a later retry finds a transaction. *)

From S2P Require Import Prelude Trace Messages Bba Rbc Acs.

Record HBMessage := mkHBMessage { hm_Epoch : Z; hm_Payload : ACSMessage }.

(** The errors a call returns: those of the common subset and of gob. *)
Inductive hb_error :=
  | FromACS (e : hberror)
  | GobEncodeError
  | GobDecodeError.

Inductive hb_result :=
  | Returned (err : option hb_error)
  | Sleeping.

(** [rand.Intn(n)] with the value [draw] of the generator. *)
Definition Intn (draw n : Z) : go Z := if n <=? 0 then Panic else Ret (draw mod n).

Definition go_index {A : Type} (l : list A) (i : Z) : go A :=
  if i <? 0 then Panic else match l !! Z.to_nat i with Some x => Ret x | None => Panic end.

(** [l[:hi]] for [hi] at most the length of [l]. *)
Definition go_take {A : Type} (l : list A) (hi : Z) : go (list A) :=
  if hi <? 0 then Panic else Ret (take (Z.to_nat hi) l).

Section HoneyBadger.
Context {T : Type} (Hash : T -> bytes).

(** ** The buffer of transactions *)

Definition newBuffer : list T := [].

Definition push (b : list T) (tx : T) : list T := b ++ [tx].

(** [for _, tx := range data { m[string(tx.Hash())] = tx }] *)
Definition byHash (data : list T) (m : gmap bytes T) : gmap bytes T :=
  fold_left (fun m tx => <[Hash tx := tx]> m) data m.

Definition buffer_delete (range : list (bytes * T) -> list (bytes * T)) (b txx : list T) : list T :=
  let temp := byHash b ∅ in
  let temp := fold_left (fun m tx => delete (Hash tx) m) txx temp in
  (range (map_to_list temp)).*2.

Definition buffer_len (b : list T) : Z := zlen b.

(** The method: [n] rounds, or none on a buffer of at most one transaction. *)
Fixpoint buffer_sample (draws : list Z) (b : list T) (m : Z) : go (list T) :=
  match draws with
  | [] => Ret []
  | draw :: draws =>
      if buffer_len b <=? 1 then Ret []
      else
        let m := if buffer_len b <? m then buffer_len b - 1 else m in
        let! index := Intn draw m in
        let! tx := go_index b index in
        let! txx := buffer_sample draws b m in
        Ret (tx :: txx)
  end.

(** The function: one draw for each of the [n] rounds. *)
Fixpoint sample (draws : list Z) (txx : list T) : go (list T) :=
  match draws with
  | [] => Ret []
  | draw :: draws =>
      let! i := Intn draw (zlen txx) in
      let! tx := go_index txx i in
      let! s := sample draws txx in
      Ret (tx :: s)
  end.

(** ** The engine *)

Record HoneyBadger := mkHB {
  hb_cfg : Config;
  hb_acs : gmap Z acs;
  hb_txBuffer : list T;
  hb_epoch : Z;
  hb_outputs : gmap Z (list T);
  hb_que : messageQue HBMessage;
  hb_msgCount : Z }.

Definition set_hbacs h x := mkHB (hb_cfg h) x (hb_txBuffer h) (hb_epoch h) (hb_outputs h)
  (hb_que h) (hb_msgCount h).
Definition set_txBuffer h x := mkHB (hb_cfg h) (hb_acs h) x (hb_epoch h) (hb_outputs h)
  (hb_que h) (hb_msgCount h).
Definition set_outputs h x := mkHB (hb_cfg h) (hb_acs h) (hb_txBuffer h) (hb_epoch h) x
  (hb_que h) (hb_msgCount h).
Definition set_hbque h x := mkHB (hb_cfg h) (hb_acs h) (hb_txBuffer h) (hb_epoch h) (hb_outputs h)
  x (hb_msgCount h).
Definition set_hbcount h x := mkHB (hb_cfg h) (hb_acs h) (hb_txBuffer h) (hb_epoch h)
  (hb_outputs h) (hb_que h) x.

(** What one call draws, and how it ranges over maps. *)
Record choice := mkChoice {
  c_echos : list ProofRequest -> list ProofRequest;
  c_bbas : list Z -> list Z;
  c_outputs : list (Z * bytes) -> list (Z * bytes);
  c_batch : list (bytes * T) -> list (bytes * T);
  c_buffer : list (bytes * T) -> list (bytes * T);
  c_draws : nat -> Z }.

Definition NewHoneyBadger (cfg : Config) : HoneyBadger :=
  mkHB cfg ∅ newBuffer 0 ∅ newMessageQue 0.

Definition hb_Messages (h : HoneyBadger) : list (MessageTuple HBMessage) * HoneyBadger :=
  let '(msgs, q) := que_messages (hb_que h) in (msgs, set_hbque h q).

Definition AddTransaction (h : HoneyBadger) (tx : T) : HoneyBadger :=
  set_txBuffer h (push (hb_txBuffer h) tx).

Definition LenMempool (h : HoneyBadger) : Z := buffer_len (hb_txBuffer h).

(** Returns the committed transactions and forgets them. *)
Definition hb_Outputs (h : HoneyBadger) : gmap Z (list T) * HoneyBadger :=
  (hb_outputs h, set_outputs h ∅).

(** The messages are labelled with the engine's epoch. *)
Definition hb_addMessages (h : HoneyBadger) (msgs : list (MessageTuple ACSMessage)) : HoneyBadger :=
  fold_left (fun h msg =>
    set_hbque h (que_addMessage (hb_que h) (mkHBMessage (hb_epoch h) (TPayload msg)) (To msg))) msgs h.

(** Queues what the instance of the epoch has to send. *)
Definition hb_forward (h : HoneyBadger) (epoch : Z) (a : acs) : HoneyBadger :=
  let '(msgs, q) := que_messages (a_que a) in
  hb_addMessages (set_hbacs h (<[epoch := set_que a q]> (hb_acs h))) msgs.

(** An instance is kept when its epoch is at least [hb.epoch-1], a [uint64]. *)
Definition removeOldEpochs (h : HoneyBadger) : HoneyBadger :=
  set_hbacs h (filter (fun kv : Z * acs => u64 (hb_epoch h - 1) <= kv.1) (hb_acs h)).

(** The number of transactions the proposal is drawn from. The conversions
    through [float64] are exact: the minimum is at most the buffer's length. *)
Definition proposalWindow (h : HoneyBadger) : Z :=
  let batchSize := if BatchSize (hb_cfg h) =? 0 then zlen (Nodes (hb_cfg h)) * 2 * 20
                   else BatchSize (hb_cfg h) in
  Z.min batchSize (buffer_len (hb_txBuffer h)).

(** The transactions of all entries by hash, or [None] when one does not
    decode; entries are visited in the order of the list. *)
Fixpoint gatherTxs (gobDecode : bytes -> option (list T)) (entries : list (Z * bytes))
  (txMap : gmap bytes T) : option (gmap bytes T) :=
  match entries with
  | [] => Some txMap
  | (_, output) :: entries =>
      match gobDecode output with
      | None => None
      | Some txx => gatherTxs gobDecode entries (byHash txx txMap)
      end
  end.

Section Calls.
Context (rs_New : Z -> Z -> option Encoder).
Context (Prove : list bytes -> Z -> bytes * list bytes * Z * Z).
Context (VerifyProof : bytes -> list bytes -> Z -> Z -> bool).
Context (gobEncode : list T -> option bytes) (gobDecode : bytes -> option (list T)).
Context (fuel : nat) (ch : choice).

Definition getOrNewACSInstance (h : HoneyBadger) (epoch : Z) : go (acs * HoneyBadger) :=
  match hb_acs h !! epoch with
  | Some a => Ret (a, h)
  | None => let! a := newACS rs_New (hb_cfg h) in Ret (a, set_hbacs h (<[epoch := a]> (hb_acs h)))
  end.

Definition hb_propose (h : HoneyBadger) : go (HoneyBadger * hb_result) :=
  if buffer_len (hb_txBuffer h) =? 0 then Ret (h, Sleeping)
  else if zlen (Nodes (hb_cfg h)) =? 0 then Panic
  else
    let batchSize := proposalWindow h in
    let n := Z.max 1 (Z.quot batchSize (zlen (Nodes (hb_cfg h)))) in
    let! window := go_take (hb_txBuffer h) batchSize in
    let! batch := sample (c_draws ch <$> seq 0 (Z.to_nat n)) window in
    match gobEncode batch with
    | None => Ret (h, Returned (Some GobEncodeError))
    | Some buf =>
        let! (a, h) := getOrNewACSInstance h (hb_epoch h) in
        let! (a1, err) := acs_inputValue Prove VerifyProof (c_echos ch) (c_bbas ch) fuel buf a in
        let h1 := set_hbacs h (<[hb_epoch h := a1]> (hb_acs h)) in
        match err with
        | Some e => Ret (h1, Returned (Some (FromACS e)))
        | None => Ret (hb_forward h1 (hb_epoch h) a1, Returned None)
        end
    end.

Definition hb_Start (h : HoneyBadger) : go (HoneyBadger * hb_result) := hb_propose h.

(** The engine after it commits the transactions gathered from an output. *)
Definition commitEpoch (h : HoneyBadger) (txMap : gmap bytes T) : HoneyBadger :=
  let txBatch := (c_batch ch (map_to_list txMap)).*2 in
  mkHB (hb_cfg h) (hb_acs h) (buffer_delete (c_buffer ch) (hb_txBuffer h) txBatch)
    (u64 (hb_epoch h + 1)) (<[hb_epoch h := txBatch]> (hb_outputs h)) (hb_que h) 0.

Definition maybeProcessOutput (h : HoneyBadger) : go (HoneyBadger * hb_result) :=
  match hb_acs h !! hb_epoch h with
  | None => Ret (h, Returned None)
  | Some a =>
      let '(outputs, a) := acs_Output a in
      let h := set_hbacs h (<[hb_epoch h := a]> (hb_acs h)) in
      let outputs := default ∅ outputs in
      if (size outputs =? 0)%nat then Ret (h, Returned None)
      else
        match gatherTxs gobDecode (c_outputs ch (map_to_list outputs)) ∅ with
        | None => Ret (h, Returned (Some GobDecodeError))
        | Some txMap => hb_propose (commitEpoch h txMap)
        end
  end.

Definition hb_HandleMessage (sid epoch : Z) (msg : ACSMessage) (h : HoneyBadger)
  : go (HoneyBadger * hb_result) :=
  let h := set_hbcount h (hb_msgCount h + 1) in
  if negb (is_some (hb_acs h !! epoch)) && (epoch <? hb_epoch h)
  then Ret (h, Returned None)
  else
    let! (a, h) := getOrNewACSInstance h epoch in
    let! (a1, err) :=
      acs_handleMessage Prove VerifyProof (c_echos ch) (c_bbas ch) fuel sid msg a in
    let h1 := set_hbacs h (<[epoch := a1]> (hb_acs h)) in
    match err with
    | Some e => Ret (h1, Returned (Some (FromACS e)))
    | None =>
        let h2 := hb_forward h1 epoch a1 in
        if hb_epoch h2 =? epoch then maybeProcessOutput h2
        else Ret (removeOldEpochs h2, Returned None)
    end.
End Calls.
End HoneyBadger.
Arguments HoneyBadger : clear implicits.
Arguments choice : clear implicits.
