(* ===== verification/HoneyBadgerRun.v ===== *)
(** * HoneyBadgerRun: the engine's calls and its runs *)

From S2P Require Import Prelude Trace Messages Bba BbaMicro BbaInv BbaNet Rbc RbcNet Acs AcsLocal AcsNet AcsAgree SlotLaws HoneyBadger HoneyBadgerLaws.

Section Engine.
Context {T : Type} (Hash : T -> bytes).
Context (rs_New : Z -> Z -> option Encoder).
Context (Prove : list bytes -> Z -> bytes * list bytes * Z * Z).
Context (VerifyProof : bytes -> list bytes -> Z -> Z -> bool).
Context (gobEncode : list T -> option bytes) (gobDecode : bytes -> option (list T)).

Abbreviation hashes l := (Hash <$> (l : list T)).
Abbreviation propose := (hb_propose rs_New Prove VerifyProof gobEncode).
Abbreviation process := (maybeProcessOutput Hash rs_New Prove VerifyProof gobEncode gobDecode).
Abbreviation handle := (hb_HandleMessage Hash rs_New Prove VerifyProof gobEncode gobDecode).

(** The orders of a choice list what they are given. *)
Record choice_ok (ch : choice T) : Prop := {
  co_outputs : forall l, c_outputs ch l ≡ₚ l;
  co_batch : forall l, c_batch ch l ≡ₚ l;
  co_buffer : forall l, c_buffer ch l ≡ₚ l }.

(** The label a message of a common subset gets in the given epoch. *)
Definition labelled (epoch : Z) (t : MessageTuple ACSMessage) : MessageTuple HBMessage :=
  mkTuple (To t) (mkHBMessage epoch (TPayload t)).

(** [h'] differs from [h] in its instances, queue and counter only. *)
Record same_books (h h' : HoneyBadger T) : Prop := {
  sb_cfg : hb_cfg h' = hb_cfg h;
  sb_buffer : hb_txBuffer h' = hb_txBuffer h;
  sb_epoch : hb_epoch h' = hb_epoch h;
  sb_outputs : hb_outputs h' = hb_outputs h }.

Lemma same_books_trans h1 h2 h3 : same_books h1 h2 -> same_books h2 h3 -> same_books h1 h3.
Proof. intros [????] [????]. split; congruence. Qed.

Lemma hb_addMessages_spec (h : HoneyBadger T) msgs :
  hb_addMessages h msgs = set_hbque h (hb_que h ++ (labelled (hb_epoch h) <$> msgs)).
Proof.
  unfold hb_addMessages. revert h. induction msgs as [|t msgs IH]; intros h; cbn.
  { rewrite app_nil_r. by destruct h. }
  rewrite IH. cbn. unfold que_addMessage, labelled. by rewrite <- app_assoc.
Qed.

Lemma hb_forward_spec (h : HoneyBadger T) e a :
  hb_forward h e a = set_hbque (set_hbacs h (<[e := set_que a []]> (hb_acs h)))
    (hb_que h ++ (labelled (hb_epoch h) <$> a_que a)).
Proof. unfold hb_forward. cbn. by rewrite hb_addMessages_spec. Qed.

Lemma getOrNew_spec (h : HoneyBadger T) e a h' :
  getOrNewACSInstance rs_New h e = Ret (a, h') ->
  (hb_acs h !! e = Some a \/ hb_acs h !! e = None /\ newACS rs_New (hb_cfg h) = Ret a) /\
  h' = set_hbacs h (<[e := a]> (hb_acs h)).
Proof.
  unfold getOrNewACSInstance. destruct (hb_acs h !! e) as [a0|] eqn:E.
  - intros [<- <-]%ret_pair. split; [by left|]. rewrite insert_id by done. by destruct h.
  - destruct (newACS rs_New (hb_cfg h)) as [a0| |] eqn:En; try done. cbn.
    intros [<- <-]%ret_pair. split; [by right|done].
Qed.

Ltac books := by split.

(** [propose] changes only the instance of the current epoch, which was given
    an input, and queues messages of that epoch. *)
Lemma propose_spec fuel ch h h' r : propose fuel ch h = Ret (h', r) ->
  same_books h h' /\
  (h' = h \/ exists buf a a1 err,
     (hb_acs h !! hb_epoch h = Some a \/
      hb_acs h !! hb_epoch h = None /\ newACS rs_New (hb_cfg h) = Ret a) /\
     acs_inputValue Prove VerifyProof (c_echos ch) (c_bbas ch) fuel buf a = Ret (a1, err) /\
     exists q, hb_acs h' = <[hb_epoch h := set_que a1 q]> (hb_acs h)).
Proof.
  unfold hb_propose. destruct (_ =? 0); [intros [<- _]%ret_pair; split; [books|by left]|].
  destruct (_ =? 0); [done|]. cbv zeta.
  destruct (go_take _ _) as [w| |]; try done. cbn [go_bind].
  destruct (sample _ _) as [batch| |]; try done. cbn [go_bind].
  destruct (gobEncode batch) as [buf|]; [|intros [<- _]%ret_pair; split; [books|by left]].
  destruct (getOrNewACSInstance _ _ _) as [[a h0]| |] eqn:EG; try done. cbn [go_bind].
  apply getOrNew_spec in EG as [Ha ->]. cbn [hb_epoch set_hbacs hb_acs].
  destruct (acs_inputValue _ _ _ _ _ _ _) as [[a1 err]| |] eqn:EI; try done. cbn [go_bind].
  rewrite insert_insert_eq. destruct err as [e|].
  - intros [<- _]%ret_pair. split; [books|]. right. exists buf, a, a1, (Some e).
    split; [done|]. split; [done|]. exists (a_que a1). cbn. by destruct a1.
  - rewrite hb_forward_spec. intros [<- _]%ret_pair. split; [books|]. right.
    exists buf, a, a1, None. split; [done|]. split; [done|]. exists []. cbn. by rewrite insert_insert_eq.
Qed.

(** ** One commit *)

(** The transactions an output map holds. *)
Definition Holds (m : gmap Z bytes) (tx : T) : Prop :=
  exists id v txx, m !! id = Some v /\ gobDecode v = Some txx /\ tx ∈ txx.

Lemma gather_map range (m : gmap Z bytes) t : (forall l, range l ≡ₚ l) ->
  gatherTxs Hash gobDecode (range (map_to_list m)) ∅ = Some t ->
  Keyed Hash t /\ (forall k, k ∈ dom t <-> exists tx, Holds m tx /\ Hash tx = k) /\
  forall k tx, t !! k = Some tx -> Holds m tx.
Proof.
  intros Hr (Hk & Hd & Hs)%gather_some. split; [apply Hk, Keyed_empty|].
  assert (forall id v, (id, v) ∈ range (map_to_list m) <-> m !! id = Some v) as Hin.
  { intros id v. by rewrite (Hr (map_to_list m)), elem_of_map_to_list. }
  split.
  - intros k. rewrite Hd, dom_empty. split.
    + intros [?%elem_of_empty|(id & v & txx & Hv%Hin & ? & (tx & -> & ?)%list_elem_of_fmap)]; [done|].
      exists tx. split; [by exists id, v, txx|done].
    + intros (tx & (id & v & txx & Hv%Hin & ? & ?) & <-). right. exists id, v, txx.
      split_and!; [done..|]. by apply list_elem_of_fmap_2.
  - intros k tx [Hn|(id & v & txx & Hv%Hin & ? & ?)]%Hs; [by rewrite lookup_empty in Hn|].
    by exists id, v, txx.
Qed.

Lemma gather_map_none range (m : gmap Z bytes) : (forall l, range l ≡ₚ l) ->
  gatherTxs Hash gobDecode (range (map_to_list m)) ∅ = None <->
  exists id v, m !! id = Some v /\ gobDecode v = None.
Proof.
  intros Hr. rewrite gather_none. split; intros (id & v & Hin & Hv); exists id, v.
  - by rewrite (Hr (map_to_list m)), elem_of_map_to_list in Hin.
  - by rewrite (Hr (map_to_list m)), elem_of_map_to_list.
Qed.

(** The batch a map of transactions is committed as. *)
Definition batchOf (ch : choice T) (t : gmap bytes T) : list T := (c_batch ch (map_to_list t)).*2.

(** What the books of the engine look like after a commit of [m]. *)
Record Commits (h h' : HoneyBadger T) (m : gmap Z bytes) (batch : list T) : Prop := {
  cm_nodup : NoDup (hashes batch);
  cm_sound : forall tx, tx ∈ batch -> Holds m tx;
  cm_complete : forall tx, Holds m tx -> Hash tx ∈ hashes batch;
  cm_output : hb_outputs h' = <[hb_epoch h := batch]> (hb_outputs h);
  cm_epoch : hb_epoch h' = u64 (hb_epoch h + 1);
  cm_kept : forall k, k ∈ hashes (hb_txBuffer h') <-> k ∈ hashes (hb_txBuffer h) /\ k ∉ hashes batch;
  cm_from : forall tx, tx ∈ hb_txBuffer h' -> tx ∈ hb_txBuffer h;
  cm_distinct : NoDup (hashes (hb_txBuffer h')) }.

Lemma commit_books ch h m t (Hch : choice_ok ch) :
  gatherTxs Hash gobDecode (c_outputs ch (map_to_list m)) ∅ = Some t ->
  Commits h (commitEpoch Hash ch h t) m (batchOf ch t).
Proof.
  intros (Hk & Hd & Hs)%gather_map; [|apply Hch]. pose proof (co_batch ch Hch) as Hb.
  destruct (buffer_delete_spec Hash (c_buffer ch) (hb_txBuffer h) (batchOf ch t)) as (H1 & H2 & H3);
    [apply Hch|].
  split; try done.
  - by apply listed_NoDup.
  - intros tx Htx%(listed_elem Hash); [|done..]. by eapply Hs.
  - intros tx Htx. apply listed_hash; [done..|]. apply Hd. by exists tx.
Qed.

(** The three ways [maybeProcessOutput] ends. *)
Lemma process_cases fuel ch h h' r (Hch : choice_ok ch) :
  process fuel ch h = Ret (h', r) ->
  (same_books h h' /\
   (hb_acs h' = hb_acs h \/ exists a, hb_acs h !! hb_epoch h = Some a /\
      hb_acs h' = <[hb_epoch h := set_aoutput a None (a_decided a)]> (hb_acs h))) \/
  exists a m t, hb_acs h !! hb_epoch h = Some a /\ a_output a = Some m /\
    gatherTxs Hash gobDecode (c_outputs ch (map_to_list m)) ∅ = Some t /\
    propose fuel ch (commitEpoch Hash ch
      (set_hbacs h (<[hb_epoch h := set_aoutput a None (a_decided a)]> (hb_acs h))) t) = Ret (h', r).
Proof.
  unfold maybeProcessOutput. destruct (hb_acs h !! hb_epoch h) as [a|] eqn:Ea.
  2: { intros [<- _]%ret_pair. left. split; [books|by left]. }
  unfold acs_Output. destruct (a_output a) as [m|] eqn:Em.
  - change (default ∅ (Some m)) with m. destruct (_ =? 0)%nat.
    { intros [<- _]%ret_pair. left. split; [books|]. right. by exists a. }
    destruct (gatherTxs _ _ _ _) as [t|] eqn:Et.
    + intros HE. right. by exists a, m, t.
    + intros [<- _]%ret_pair. left. split; [books|]. right. by exists a.
  - change (default ∅ None) with (∅ : gmap Z bytes). cbn -[insert].
    intros [<- _]%ret_pair. left. split; [books|]. left. cbn. by rewrite insert_id.
Qed.

(** ** Calls and books *)

Lemma Commits_books h0 h h1 h2 m batch :
  same_books h0 h -> same_books h1 h2 -> Commits h h1 m batch -> Commits h0 h2 m batch.
Proof.
  intros [? Eb Ee Eo] [? Eb' Ee' Eo'] [? ? ? Ho He Hk Hf Hd].
  split; rewrite ?Eb', ?Ee', ?Eo', <- ?Eb, <- ?Ee, <- ?Eo; done.
Qed.

(** A call keeps the books or commits the current epoch. *)
Definition Progress (h h' : HoneyBadger T) : Prop :=
  same_books h h' \/ exists m batch, Commits h h' m batch.

Lemma Progress_books h0 h h' : same_books h0 h -> Progress h h' -> Progress h0 h'.
Proof.
  intros H0 [H1|(m & batch & HC)]; [left; by eapply same_books_trans|].
  right. exists m, batch. by eapply Commits_books; [exact H0|books|].
Qed.

Lemma process_progress fuel ch h h' r : choice_ok ch -> process fuel ch h = Ret (h', r) -> Progress h h'.
Proof.
  intros Hch [[Hb _]|(a & m & t & _ & _ & Et & [HP _]%propose_spec)]%process_cases; [by left| |done].
  right. exists m, (batchOf ch t). eapply Commits_books; [|exact HP|by apply commit_books]. books.
Qed.

(** Handling a message, past the check for old epochs. *)
Lemma handle_cases fuel ch sid epoch msg h h' r : handle fuel ch sid epoch msg h = Ret (h', r) ->
  (h' = set_hbcount h (hb_msgCount h + 1) /\ hb_acs h !! epoch = None /\ epoch < hb_epoch h) \/
  exists a a1 err,
    (hb_acs h !! epoch = Some a \/ hb_acs h !! epoch = None /\ newACS rs_New (hb_cfg h) = Ret a) /\
    acs_handleMessage Prove VerifyProof (c_echos ch) (c_bbas ch) fuel sid msg a = Ret (a1, err) /\
    exists h2, same_books h h2 /\
      match err with
      | Some e => hb_acs h2 = <[epoch := a1]> (hb_acs h) /\ hb_que h2 = hb_que h /\
                  h' = h2 /\ r = Returned (Some (FromACS e))
      | None => hb_acs h2 = <[epoch := set_que a1 []]> (hb_acs h) /\
                hb_que h2 = hb_que h ++ (labelled (hb_epoch h) <$> a_que a1) /\
                if hb_epoch h =? epoch then process fuel ch h2 = Ret (h', r)
                else h' = removeOldEpochs h2 /\ r = Returned None
      end.
Proof.
  unfold hb_HandleMessage. cbn [hb_acs hb_epoch set_hbcount].
  destruct (negb _ && _) eqn:Hold.
  { intros [<- _]%ret_pair. left. apply andb_true_iff in Hold as [Hn%negb_true_iff ?%Z.ltb_lt].
    split_and!; [done| |done]. by destruct (hb_acs h !! epoch). }
  destruct (getOrNewACSInstance _ _ _) as [[a h0]| |] eqn:EG; try done. cbn [go_bind].
  apply getOrNew_spec in EG as [Ha ->].
  destruct (acs_handleMessage _ _ _ _ _ _ _ _) as [[a1 err]| |] eqn:EH; try done. cbn [go_bind].
  cbn [hb_acs set_hbacs set_hbcount]. rewrite insert_insert_eq. destruct err as [e|].
  - intros [<- <-]%ret_pair. right. exists a, a1, (Some e). split; [done|]. split; [done|].
    eexists. split; [|split; [|split; [|done]]]; [books|done..].
  - rewrite hb_forward_spec. cbn [hb_epoch set_hbque set_hbacs hb_acs set_hbcount hb_que].
    rewrite insert_insert_eq. intros HE. right. exists a, a1, None. split; [done|]. split; [done|].
    eexists. split; [|split; [|split]].
    4: { destruct (hb_epoch h =? epoch); [exact HE|]. by apply ret_pair in HE as [<- <-]. }
    + books.
    + done.
    + done.
Qed.

Lemma handle_progress fuel ch sid epoch msg h h' r :
  choice_ok ch -> handle fuel ch sid epoch msg h = Ret (h', r) -> Progress h h'.
Proof.
  intros Hch [[-> _]|(a & a1 & err & _ & _ & h2 & Hb & HE)]%handle_cases; [left; books|].
  destruct err as [e|].
  - destruct HE as (_ & _ & -> & _). by left.
  - destruct HE as (_ & _ & HE). destruct (_ =? _).
    + eapply Progress_books; [exact Hb|]. by eapply process_progress.
    + destruct HE as [-> _]. left. eapply same_books_trans; [exact Hb|]. books.
Qed.

(** ** Runs

    One goroutine drives the engine: it handles messages and starts it, and
    while a proposal sleeps it only retries. Transactions arrive and outputs
    and messages are taken at any time. *)

Record run := mkRun {
  er_hb : HoneyBadger T;
  er_busy : bool;
  er_taken : list (gmap Z (list T)) }.

Definition sleeping (r : hb_result) : bool := match r with Sleeping => true | _ => false end.

Inductive engine_step (s : run) : run -> Prop :=
  | es_add tx : engine_step s (mkRun (AddTransaction (er_hb s) tx) (er_busy s) (er_taken s))
  | es_handle fuel ch sid epoch msg h r :
      er_busy s = false -> choice_ok ch ->
      handle fuel ch sid epoch msg (er_hb s) = Ret (h, r) ->
      engine_step s (mkRun h (sleeping r) (er_taken s))
  | es_start fuel ch h r :
      er_busy s = false -> choice_ok ch ->
      hb_Start rs_New Prove VerifyProof gobEncode fuel ch (er_hb s) = Ret (h, r) ->
      engine_step s (mkRun h (sleeping r) (er_taken s))
  | es_retry fuel ch h r :
      er_busy s = true -> choice_ok ch -> propose fuel ch (er_hb s) = Ret (h, r) ->
      engine_step s (mkRun h (sleeping r) (er_taken s))
  | es_messages msgs h :
      hb_Messages (er_hb s) = (msgs, h) -> engine_step s (mkRun h (er_busy s) (er_taken s))
  | es_outputs out h :
      hb_Outputs (er_hb s) = (out, h) -> engine_step s (mkRun h (er_busy s) (er_taken s ++ [out])).

Definition engine_start (cfg : Config) : run := mkRun (NewHoneyBadger cfg) false [].

(** All commits so far, those taken by [Outputs] first. *)
Definition commits (s : run) : list (Z * list T) :=
  (er_taken s ≫= map_to_list) ++ map_to_list (hb_outputs (er_hb s)).

(** Each epoch before the current one is committed exactly once. *)
Record Booked (n : Z) (s : run) : Prop := {
  bk_epoch : 0 <= hb_epoch (er_hb s) <= n;
  bk_once : (commits s).*1 ≡ₚ seqZ 0 (hb_epoch (er_hb s));
  bk_distinct : forall e batch, (e, batch) ∈ commits s -> NoDup (hashes batch) }.

Lemma commits_taken s out h busy : hb_Outputs (er_hb s) = (out, h) ->
  commits (mkRun h busy (er_taken s ++ [out])) = commits s.
Proof.
  intros [= <- <-]. unfold commits. cbn. rewrite bind_app, map_to_list_empty, app_nil_r. cbn.
  by rewrite app_nil_r.
Qed.

Lemma Booked_same n s h busy : same_books (er_hb s) h -> Booked n s ->
  Booked (n + 1) (mkRun h busy (er_taken s)).
Proof.
  intros [_ _ Ee Eo] [He Ho Hd].
  assert (commits (mkRun h busy (er_taken s)) = commits s) as Ec.
  { unfold commits. cbn. by rewrite Eo. }
  split; cbn [er_hb]; rewrite ?Ec, ?Ee; [lia|done..].
Qed.

Lemma Booked_commit n s h busy m batch : n + 1 < 2 ^ 64 -> Commits (er_hb s) h m batch ->
  Booked n s -> Booked (n + 1) (mkRun h busy (er_taken s)).
Proof.
  intros Hn HC [He Ho Hd]. destruct HC as [HN _ _ Eo Ee _ _ _].
  rewrite u64_small in Ee by lia.
  assert (hb_outputs (er_hb s) !! hb_epoch (er_hb s) = None) as Hnone.
  { destruct (_ !! _) as [b|] eqn:E; [|done]. exfalso.
    assert (hb_epoch (er_hb s) ∈ (commits s).*1) as Hin.
    2: { rewrite Ho in Hin. apply elem_of_seqZ in Hin. lia. }
    apply list_elem_of_fmap. exists (hb_epoch (er_hb s), b). split; [done|].
    apply elem_of_app. right. by apply elem_of_map_to_list. }
  assert (commits (mkRun h busy (er_taken s)) ≡ₚ (hb_epoch (er_hb s), batch) :: commits s) as Ec.
  { unfold commits. cbn [er_hb er_taken]. rewrite Eo, map_to_list_insert by done.
    by rewrite Permutation_middle. }
  split; cbn [er_hb]; rewrite ?Ee; [lia| |].
  - rewrite Ec. cbn. rewrite Ho, seqZ_app by lia. rewrite Z.add_0_l.
    change (seqZ (hb_epoch (er_hb s)) 1) with [0 + hb_epoch (er_hb s)].
    rewrite Z.add_0_l. by rewrite Permutation_app_comm.
  - intros e b Hin. rewrite Ec in Hin. apply elem_of_cons in Hin as [[= -> ->]|Hin]; [done|].
    by eapply Hd.
Qed.

Lemma Booked_step n s s' : n + 1 < 2 ^ 64 -> engine_step s s' -> Booked n s -> Booked (n + 1) s'.
Proof.
  intros Hn Hs HB. destruct Hs.
  - destruct HB as [He Ho Hd]. split; [cbn; lia|done..].
  - destruct (handle_progress _ _ _ _ _ _ _ _ H0 H1) as [?|(m & batch & ?)];
      [by apply Booked_same|by eapply Booked_commit].
  - apply propose_spec in H1 as [? _]. by apply Booked_same.
  - apply propose_spec in H1 as [? _]. by apply Booked_same.
  - injection H as _ <-. apply Booked_same; [books|done].
  - pose proof (commits_taken s out h (er_busy s) H) as Ec. destruct HB as [He Ho Hd].
    assert (hb_epoch h = hb_epoch (er_hb s)) as Ee by by injection H as _ <-.
    split; cbn [er_hb]; rewrite ?Ec, ?Ee; [lia|done..].
Qed.

Lemma Booked_start cfg : Booked 0 (engine_start cfg).
Proof.
  split; [cbn; lia| |]; unfold commits; cbn; rewrite map_to_list_empty; [done|].
  by intros e b ?%elem_of_nil.
Qed.

Lemma Booked_run k n s s' : Z.of_nat k + n < 2 ^ 64 -> nsteps engine_step k s s' ->
  Booked n s -> Booked (Z.of_nat k + n) s'.
Proof.
  intros Hk Hr. revert n Hk. induction Hr as [s|k s1 s2 s3 H1 H2 IH]; intros n Hk HB; [done|].
  apply (Booked_step n) in H1; [|lia|done].
  replace (Z.of_nat (S k) + n) with (Z.of_nat k + (n + 1)) by lia. apply IH; [lia|done].
Qed.

(** ** A spent epoch *)

(** The common subset of the current epoch has decided and was read. *)
Definition Stalled (e : Z) (h : HoneyBadger T) : Prop :=
  hb_epoch h = e /\ exists a, hb_acs h !! e = Some a /\ a_decided a = true /\ a_output a = None.

Lemma Stalled_instance e h h' a : hb_epoch h = e -> same_books h h' ->
  hb_acs h' !! e = Some a -> a_decided a = true -> a_output a = None -> Stalled e h'.
Proof. intros <- [_ _ Ee _] Ha Hd Ho. split; [done|]. by exists a. Qed.

Lemma Stalled_propose fuel ch e h h' r :
  propose fuel ch h = Ret (h', r) -> Stalled e h -> Stalled e h' /\ same_books h h'.
Proof.
  intros [Hb [->|(buf & a0 & a1 & err & Ha & HI & q & Eq)]]%propose_spec HS; [done|].
  destruct HS as [He (a & Hea & Hd & Ho)]. split; [|done].
  destruct Ha as [Ha|[Ha _]]; [|congruence]. rewrite He, Hea in Ha. injection Ha as <-.
  apply inputValue_settled in HI. destruct (HI Hd) as [Hd1 Ho1].
  eapply (Stalled_instance e h h' (set_que a1 q)); [done..| |done|cbn; congruence].
  by rewrite Eq, He, lookup_insert_eq.
Qed.

Lemma Stalled_process fuel ch e h h' r : choice_ok ch ->
  process fuel ch h = Ret (h', r) -> Stalled e h -> Stalled e h' /\ same_books h h'.
Proof.
  intros Hch HE HS. pose proof HS as [He (a & Hea & Hd & Ho)].
  apply process_cases in HE as [[Hb Eq]|(a0 & m & t & Ha0 & Hm & _)]; [| |done].
  - split; [|done]. destruct Eq as [Eq|(a0 & Ha0 & Eq)].
    + eapply Stalled_instance; [done..| | |]; [by rewrite Eq|done..].
    + rewrite He, Hea in Ha0. injection Ha0 as <-.
      eapply (Stalled_instance e h h' (set_aoutput a None true)); [done..| |done|done].
      by rewrite Eq, He, lookup_insert_eq, Hd.
  - rewrite He, Hea in Ha0. congruence.
Qed.

Lemma Stalled_handle fuel ch sid epoch msg e h h' r : choice_ok ch -> 1 <= e < 2 ^ 64 ->
  handle fuel ch sid epoch msg h = Ret (h', r) -> Stalled e h -> Stalled e h' /\ same_books h h'.
Proof.
  intros Hch Hrange HE HS. pose proof HS as [He (a & Hea & Hd & Ho)].
  apply handle_cases in HE as [[-> _]|(a0 & a1 & err & Ha0 & HH & h2 & Hb & HE)].
  { split; [|books]. split; [done|]. by exists a. }
  apply handleMessage_settled in HH.
  assert (forall h3 q, hb_acs h3 = <[epoch := set_que a1 q]> (hb_acs h) -> same_books h h3 ->
    Stalled e h3) as Hnew.
  { intros h3 q Eq Hb3. destruct (decide (epoch = e)) as [->|Hne].
    - destruct Ha0 as [Ha0|[Ha0 _]]; [|congruence]. rewrite Hea in Ha0. injection Ha0 as <-.
      destruct (HH Hd) as [Hd1 Ho1].
      eapply (Stalled_instance e h h3 (set_que a1 q)); [done..| |done|cbn; congruence].
      by rewrite Eq, lookup_insert_eq.
    - eapply (Stalled_instance e h h3 a); [done..| |done|done]. by rewrite Eq, lookup_insert_ne. }
  destruct err as [err|].
  - destruct HE as (Eq & _ & -> & _). split; [|done]. eapply (Hnew h2 (a_que a1)); [|done].
    rewrite Eq. by destruct a1.
  - destruct HE as (Eq & _ & HE). specialize (Hnew h2 [] Eq Hb).
    destruct (_ =? _).
    + apply (Stalled_process _ _ e) in HE as [? ?]; [|done..].
      split; [done|]. by eapply same_books_trans.
    + destruct HE as [-> _]. split; [|eapply same_books_trans; [exact Hb|books]].
      destruct Hnew as [He2 (a2 & Ha2 & ? & ?)]. split; [done|]. exists a2. split; [|done].
      apply map_lookup_filter_Some. split; [done|]. cbn. rewrite He2, u64_small by lia. lia.
Qed.

Lemma Stalled_step e s s' : 1 <= e < 2 ^ 64 -> engine_step s s' -> Stalled e (er_hb s) ->
  Stalled e (er_hb s') /\ commits s' = commits s.
Proof.
  intros He Hs HS.
  assert (forall h busy, same_books (er_hb s) h -> commits (mkRun h busy (er_taken s)) = commits s) as Hc.
  { intros h busy [_ _ _ Eo]. unfold commits. cbn. by rewrite Eo. }
  destruct Hs.
  - done.
  - destruct (Stalled_handle _ _ _ _ _ _ _ _ _ H0 He H1 HS). auto.
  - destruct (Stalled_propose _ _ _ _ _ _ H1 HS). auto.
  - destruct (Stalled_propose _ _ _ _ _ _ H1 HS). auto.
  - injection H as _ <-. split; [done|]. apply Hc. books.
  - split; [|by apply commits_taken]. by injection H as _ <-.
Qed.
End Engine.

(** ** The properties *)

(** C39.  Every epoch is committed once: after any run of fewer than 2^64 steps
    of a new engine, in which messages of any sender and epoch, transactions,
    retries and readers come in any order, the batches in the engine and those
    already taken by [Outputs] are one for each epoch before the current one,
    and no batch holds two transactions with the same hash. *)
Theorem hb_commits_once {T} (Hash : T -> bytes) rs_New Prove VerifyProof gobEncode gobDecode
    (cfg : Config) (k : nat) (s : run)
  (Hk : Z.of_nat k < 2 ^ 64)
  (Hrun : nsteps (engine_step Hash rs_New Prove VerifyProof gobEncode gobDecode) k
            (engine_start cfg) s) :
  (commits s).*1 ≡ₚ seqZ 0 (hb_epoch (er_hb s)) /\
  forall e batch, (e, batch) ∈ commits s -> NoDup (Hash <$> batch).
Proof.
  destruct (Booked_run Hash rs_New Prove VerifyProof gobEncode gobDecode k 0 _ _ ltac:(lia) Hrun
    (Booked_start Hash cfg)) as [_ ? ?]. done.
Qed.

(** What a commit does: when the common subset of the current epoch has an
    output whose entries all decode, the engine commits a batch with one
    transaction for each hash the entries hold, all of them taken from the
    entries, keeps in its buffer one transaction for each other hash, moves to
    the next epoch, and goes on to propose for it. *)
Lemma hb_commit_spec {T} (Hash : T -> bytes) rs_New Prove VerifyProof gobEncode gobDecode fuel
    (ch : choice T) (h : HoneyBadger T) (a : acs) (m : gmap Z bytes)
  (Hch : choice_ok ch) (Hacs : hb_acs h !! hb_epoch h = Some a) (Hout : a_output a = Some m)
  (Hne : m <> ∅) (Hdec : forall id v, m !! id = Some v -> is_Some (gobDecode v)) :
  exists h1 batch,
    Commits Hash gobDecode h h1 m batch /\ hb_msgCount h1 = 0 /\ hb_que h1 = hb_que h /\
    maybeProcessOutput Hash rs_New Prove VerifyProof gobEncode gobDecode fuel ch h
    = hb_propose rs_New Prove VerifyProof gobEncode fuel ch h1.
Proof.
  unfold maybeProcessOutput. rewrite Hacs. unfold acs_Output. rewrite Hout.
  change (default ∅ (Some m)) with m.
  replace (size m =? 0)%nat with false.
  2: { symmetry. apply Nat.eqb_neq. by rewrite map_size_empty_iff. }
  destruct (gatherTxs _ _ _ _) as [t|] eqn:Et.
  2: { apply gather_map_none in Et as (id & v & Hv & Hn); [|apply Hch].
       destruct (Hdec id v Hv). congruence. }
  set (h0 := set_hbacs h (<[hb_epoch h := set_aoutput a None (a_decided a)]> (hb_acs h))).
  exists (commitEpoch Hash ch h0 t), (batchOf ch t). split; [|done].
  eapply (Commits_books _ _ h h0); [by split|by split|by apply commit_books].
Qed.

(** One proposer can stop the engine: when an entry of the agreed output
    does not decode, the call reports the error after the output was taken,
    and from the second epoch on no sequence of further calls commits another
    epoch. *)
Lemma hb_bad_output_stalls {T} (Hash : T -> bytes) rs_New Prove VerifyProof gobEncode gobDecode
    fuel (ch : choice T) (h : HoneyBadger T) (a : acs) (m : gmap Z bytes) taken
  (Hch : choice_ok ch) (Hepoch : 1 <= hb_epoch h < 2 ^ 64)
  (Hacs : hb_acs h !! hb_epoch h = Some a) (Hout : a_output a = Some m)
  (Hdecided : a_decided a = true)
  (Hbad : exists id v, m !! id = Some v /\ gobDecode v = None) :
  exists h1,
    maybeProcessOutput Hash rs_New Prove VerifyProof gobEncode gobDecode fuel ch h
    = Ret (h1, Returned (Some GobDecodeError)) /\
    forall s, rtc (engine_step Hash rs_New Prove VerifyProof gobEncode gobDecode)
                (mkRun h1 false taken) s ->
      hb_epoch (er_hb s) = hb_epoch h /\ commits s = commits (mkRun h1 false taken).
Proof.
  unfold maybeProcessOutput. rewrite Hacs. unfold acs_Output. rewrite Hout.
  change (default ∅ (Some m)) with m.
  replace (size m =? 0)%nat with false.
  2: { symmetry. apply Nat.eqb_neq. rewrite map_size_empty_iff. intros ->.
       destruct Hbad as (id & v & Hv & _). by rewrite lookup_empty in Hv. }
  rewrite (proj2 (gather_map_none Hash gobDecode _ m (co_outputs ch Hch)) Hbad).
  set (h1 := set_hbacs h (<[hb_epoch h := set_aoutput a None (a_decided a)]> (hb_acs h))).
  exists h1. split; [done|].
  assert (Stalled (hb_epoch h) h1) as HS.
  { split; [done|]. cbn. rewrite lookup_insert_eq. by eexists. }
  intros s Hr. enough (Stalled (hb_epoch h) (er_hb s) /\ commits s = commits (mkRun h1 false taken))
    as [[? _] ?] by done.
  revert Hr. apply (rtc_ind_r (fun s => Stalled (hb_epoch h) (er_hb s) /\ commits s = _)); [done|].
  intros s1 s2 _ Hs [HS1 <-]. by eapply Stalled_step.
Qed.

(** C40.  A message of another epoch: the replies of that epoch's common subset
    are queued with the label of the engine's own epoch. Afterwards an engine
    in its first epoch has no common subset of an epoch before 2^64-1, not even
    that of its current epoch; in a later epoch those of the current and of
    other later epochs are as they were. *)
Theorem hb_other_epoch {T} (Hash : T -> bytes) rs_New Prove VerifyProof gobEncode gobDecode fuel
    (ch : choice T) sid epoch msg (h h' : HoneyBadger T)
  (Hother : hb_epoch h <> epoch)
  (Hret : hb_HandleMessage Hash rs_New Prove VerifyProof gobEncode gobDecode fuel ch sid epoch msg h
          = Ret (h', Returned None)) :
  hb_epoch h' = hb_epoch h /\ hb_outputs h' = hb_outputs h /\
  ((hb_acs h !! epoch = None /\ epoch < hb_epoch h /\ hb_acs h' = hb_acs h /\ hb_que h' = hb_que h) \/
   exists a a1,
     (hb_acs h !! epoch = Some a \/
      hb_acs h !! epoch = None /\ newACS rs_New (hb_cfg h) = Ret a) /\
     acs_handleMessage Prove VerifyProof (c_echos ch) (c_bbas ch) fuel sid msg a = Ret (a1, None) /\
     hb_que h' = hb_que h ++ (labelled (hb_epoch h) <$> a_que a1) /\
     (hb_epoch h = 0 -> forall e, e < 2 ^ 64 - 1 -> hb_acs h' !! e = None) /\
     (1 <= hb_epoch h < 2 ^ 64 -> forall e, hb_epoch h <= e -> e <> epoch ->
        hb_acs h' !! e = hb_acs h !! e)).
Proof.
  apply handle_cases in Hret as [(-> & Hn & Hold)|(a & a1 & err & Ha & HH & h2 & Hb & HE)].
  { split_and!; [done..|]. by left. }
  destruct err as [e|]; [by destruct HE as (_ & _ & _ & ?)|].
  destruct HE as (Eq & Equeue & HE). replace (hb_epoch h =? epoch) with false in HE by lia.
  destruct HE as [-> _]. destruct Hb as [_ _ Ee Eo]. split_and!; [done..|]. right.
  exists a, a1. split_and!; [done..| |].
  - intros H0 e He. cbn. apply map_lookup_filter_None_2. right. intros x _. cbn.
    rewrite Ee, H0. change (u64 (0 - 1)) with (2 ^ 64 - 1). lia.
  - intros Hr e He Hne. cbn. rewrite Eq.
    destruct (hb_acs h !! e) as [x|] eqn:Ex.
    + apply map_lookup_filter_Some. rewrite lookup_insert_ne by done. split; [done|]. cbn.
      rewrite Ee, u64_small by lia. lia.
    + apply map_lookup_filter_None_2. left. by rewrite lookup_insert_ne.
Qed.

