(* ===== verification/HoneyBadgerDemo.v ===== *)
(** * HoneyBadgerDemo: concrete engines

    Transactions are integers hashed to themselves; a batch is encoded after
    its length. A cluster of one node runs through its first epoch. *)

From S2P Require Import Prelude Trace Messages Bba BbaMicro BbaInv BbaNet Rbc RbcNet Acs AcsLocal AcsNet AcsAgree SlotLaws HoneyBadger HoneyBadgerLaws HoneyBadgerRun.

Module HBDemo.
Definition Hash (tx : Z) : bytes := [tx].
Definition gobEncode (txx : list Z) : option bytes := Some (toyEncode txx).

(** One data shard and no parity. *)
Definition whole : Encoder :=
  {| Split data := Some [data]; Encode l := Some l; Reconstruct l := Some l |}.
Definition rs_New (d k : Z) : option Encoder := if (d =? 1) && (k =? 0) then Some whole else None.

Definition ch : choice Z :=
  mkChoice (fun l => l) (fun l => l) (fun l => l) (fun l => l) (fun l => l) (fun i => Z.of_nat i).

Lemma ch_ok : choice_ok ch.
Proof. by split. Qed.

Abbreviation propose := (hb_propose rs_New RDemo.Prove RDemo.VerifyProof gobEncode 60 ch).
Abbreviation process :=
  (maybeProcessOutput Hash rs_New RDemo.Prove RDemo.VerifyProof gobEncode toyDecode 60 ch).
Abbreviation handle :=
  (hb_HandleMessage Hash rs_New RDemo.Prove RDemo.VerifyProof gobEncode toyDecode 60 ch).
Abbreviation step := (engine_step Hash rs_New RDemo.Prove RDemo.VerifyProof gobEncode toyDecode).

Definition empty_acs : acs := mkAcs (mkConfig 1 0 0 [0] 0) ∅ ∅ ∅ ∅ None [] false [].

Definition state_of (r : go (HoneyBadger Z * hb_result)) : HoneyBadger Z :=
  match r with Ret (h, _) => h | _ => NewHoneyBadger (mkConfig 0 0 0 [] 0) end.
Definition result_of (r : go (HoneyBadger Z * hb_result)) : hb_result :=
  match r with Ret (_, r) => r | _ => Sleeping end.

Definition cfg : Config := mkConfig 1 0 0 [0] 0.
Definition msg : ACSMessage := mkACSMessage 0 (PAgreement (NewAgreementMessage 0 (BvalRequest true))).

Definition filled : HoneyBadger Z := AddTransaction (AddTransaction (NewHoneyBadger cfg) 7) 8.
Definition proposed : HoneyBadger Z := state_of (propose filled).
Definition committed : HoneyBadger Z := state_of (handle 0 0 msg proposed).
Definition current (h : HoneyBadger Z) : acs := default empty_acs (hb_acs h !! hb_epoch h).

(** A call that returns, as its state and its result. *)
Lemma ret_parts r : (match r with Ret _ => true | _ => false end) = true ->
  r = Ret (state_of r, result_of r).
Proof. by destruct r as [[]| |]. Qed.

Lemma filled_proposes : propose filled = Ret (proposed, Returned None).
Proof.
  assert (result_of (propose filled) = Returned None) as <- by (vm_compute; reflexivity).
  apply ret_parts. vm_compute. reflexivity.
Qed.

Lemma proposed_commits : handle 0 0 msg proposed = Ret (committed, Sleeping).
Proof.
  assert (result_of (handle 0 0 msg proposed) = Sleeping) as <- by (vm_compute; reflexivity).
  apply ret_parts. vm_compute. reflexivity.
Qed.

(** Two transactions, a proposal, the message that ends the epoch, and a reader. *)
Definition read : run :=
  mkRun (set_outputs committed ∅) true [hb_outputs committed].

Lemma epoch_runs : nsteps step 5 (engine_start cfg) read.
Proof.
  eapply nsteps_l; [apply (es_add _ _ _ _ _ _ _ 7)|].
  eapply nsteps_l; [apply (es_add _ _ _ _ _ _ _ 8)|].
  eapply nsteps_l; [apply (es_start _ _ _ _ _ _ _ 60 ch); [done|apply ch_ok|apply filled_proposes]|].
  eapply nsteps_l.
  { apply (es_handle _ _ _ _ _ _ _ 60 ch 0 0 msg); [done|apply ch_ok|apply proposed_commits]. }
  eapply nsteps_l; [by apply (es_outputs _ _ _ _ _ _ _ (hb_outputs committed))|]. apply nsteps_O.
Qed.

Lemma proposed_output : a_output (current proposed) = Some {[0 := [2; 7; 8]]}.
Proof. vm_compute. reflexivity. Qed.

(** An engine in its second epoch, whose common subset agreed on an entry that
    does not decode. *)
Definition poisoned : HoneyBadger Z :=
  mkHB cfg {[1 := set_aoutput empty_acs (Some {[0 := [5; 9]]}) true]} [7] 1 ∅ [] 0.

(** ** Four nodes *)

Abbreviation propose4 := (hb_propose RDemo.rs_New RDemo.Prove RDemo.VerifyProof gobEncode 60 ch).

Definition started (p : Z) : HoneyBadger Z :=
  state_of (propose4 (AddTransaction (NewHoneyBadger (RDemo.cfg p)) (20 + p))).

(** What node 1 sends node 0 first: its proposal. *)
Definition proposal : ACSMessage :=
  match List.filter (fun t => To t =? 0) (hb_que (started 1)) with
  | t :: _ => hm_Payload (TPayload t)
  | [] => mkACSMessage 0 OtherACS
  end.

(** Node 0 receives it for epoch 3 while it is in epoch 0. *)
Definition early : go (HoneyBadger Z * hb_result) :=
  hb_HandleMessage Hash RDemo.rs_New RDemo.Prove RDemo.VerifyProof gobEncode toyDecode 60 ch 1 3
    proposal (started 0).

Definition rev_ch : choice Z :=
  mkChoice (fun l => l) (fun l => l) (fun l => reverse l) (fun l => reverse l) (fun l => l)
    (fun _ => 0).

Lemma rev_ok : choice_ok rev_ch.
Proof. split; intros l; cbn; [apply reverse_Permutation..|done]. Qed.

Definition gathered (c : choice Z) : gmap bytes Z :=
  default ∅ (gatherTxs Hash Some (c_outputs c (map_to_list ADemo.block)) ∅).

Lemma gathered_some c : choice_ok c ->
  gatherTxs Hash Some (c_outputs c (map_to_list ADemo.block)) ∅ = Some (gathered c).
Proof.
  intros Hc. unfold gathered. destruct (gatherTxs _ _ _ _) eqn:E; [done|].
  apply gather_map_none in E as (id & v & _ & [=]). apply Hc.
Qed.
End HBDemo.

Lemma hb_commits_once_witness :
  (commits HBDemo.read).*1 ≡ₚ seqZ 0 1 /\ er_taken HBDemo.read = [{[0 := [7; 8]]}] /\
  forall e batch, (e, batch) ∈ commits HBDemo.read -> NoDup (HBDemo.Hash <$> batch).
Proof.
  destruct (hb_commits_once HBDemo.Hash HBDemo.rs_New RDemo.Prove RDemo.VerifyProof
    HBDemo.gobEncode toyDecode HBDemo.cfg 5 HBDemo.read ltac:(lia) HBDemo.epoch_runs) as [H1 H2].
  split; [exact H1|]. split; [vm_compute; reflexivity|exact H2].
Defined.

Lemma first_epoch_commits :
  exists h1 batch,
    Commits HBDemo.Hash toyDecode HBDemo.proposed h1 {[0 := [2; 7; 8]]} batch /\
    hb_epoch h1 = 1 /\ hb_txBuffer HBDemo.committed = [].
Proof.
  destruct (hb_commit_spec HBDemo.Hash HBDemo.rs_New RDemo.Prove RDemo.VerifyProof
    HBDemo.gobEncode toyDecode 60 HBDemo.ch HBDemo.proposed (HBDemo.current HBDemo.proposed)
    {[0 := [2; 7; 8]]} HBDemo.ch_ok ltac:(vm_compute; reflexivity) HBDemo.proposed_output
    ltac:(by apply insert_non_empty)
    ltac:(by intros id v [<- <-]%lookup_singleton_Some; eexists)) as (h1 & batch & HC & _ & _ & _).
  exists h1, batch. split; [exact HC|]. split; [|vm_compute; reflexivity].
  rewrite (cm_epoch _ _ _ _ _ _ HC). vm_compute. reflexivity.
Defined.

Lemma poisoned_stalls :
  exists h1,
    HBDemo.process HBDemo.poisoned = Ret (h1, Returned (Some GobDecodeError)) /\
    forall s, rtc HBDemo.step (mkRun h1 false []) s -> hb_epoch (er_hb s) = 1.
Proof.
  destruct (hb_bad_output_stalls HBDemo.Hash HBDemo.rs_New RDemo.Prove RDemo.VerifyProof
    HBDemo.gobEncode toyDecode 60 HBDemo.ch HBDemo.poisoned
    (set_aoutput HBDemo.empty_acs (Some {[0 := [5; 9]]}) true) {[0 := [5; 9]]} [] HBDemo.ch_ok
    ltac:(cbn; lia) eq_refl eq_refl eq_refl ltac:(exists 0, [5; 9]; by split)) as (h1 & HE & HR).
  exists h1. split; [exact HE|]. intros s Hs. apply (HR s Hs).
Defined.

(** Node 0 loses the common subset it takes part in, and echoes the proposal of
    epoch 3 in epoch 0. *)
Lemma hb_other_epoch_witness :
  is_some (hb_acs (HBDemo.started 0) !! 0) = true /\
  hb_acs (HBDemo.state_of HBDemo.early) !! 0 = None /\
  exists t, last (hb_que (HBDemo.state_of HBDemo.early)) = Some t /\ hm_Epoch (TPayload t) = 0.
Proof.
  split; [vm_compute; reflexivity|].
  destruct (hb_other_epoch HBDemo.Hash RDemo.rs_New RDemo.Prove RDemo.VerifyProof HBDemo.gobEncode
    toyDecode 60 HBDemo.ch 1 3 HBDemo.proposal (HBDemo.started 0) (HBDemo.state_of HBDemo.early)
    ltac:(vm_compute; discriminate) ltac:(vm_compute; reflexivity))
    as (_ & _ & [(_ & H & _)|(a & a1 & _ & _ & _ & H0 & _)]).
  - exfalso. revert H. vm_compute. discriminate.
  - split; [apply H0; vm_compute; reflexivity|]. eexists. split; vm_compute; reflexivity.
Defined.

