(* ===== verification/Merge.v ===== *)
(** * Inclusion lists: merge of the agreed proposals

    [src/bloc-node/internal/app/inclusion/]: the data of [types.go], the merge
    rule of [merge.go] and the proposal payload of [proto.go].

    Parameters: [uni], case folding outside ASCII; [json_*], the bytes of
    [encoding/json] for the three canonical structs; [order], the order in
    which Go ranges over a map; [proto_Marshal] and [proto_Unmarshal] of the
    generated bindings. [sort.Slice] is any order of the elements that its
    comparison allows ([Order.SortsTo]); the executable definitions use merge
    sort, and [MergeLaws] shows the order is unique. *)

From S2P Require Import Prelude Order GoStrings Sha256.

(** ** types.go *)

Record EncryptedPlaceholder := mkPlaceholder {
  Hash : bytes;
  Ciphertext : bytes;
  Gas : Z;
  EffectiveFeePerGasWei : bytes;
  From : bytes;
  Nonce : Z;
  Kind : bytes
}.

Record InclusionList := mkList {
  list_Slot : Z;
  OperatorID : Z;
  Items : list EncryptedPlaceholder;
  list_Hash : bytes
}.

Record AgreedInclusionSet := mkAgreed {
  agreed_Slot : Z;
  Lists : list InclusionList;
  agreed_Hash : bytes;
  TotalItems : Z
}.

Record MergedEncryptedSet := mkMerged {
  merged_Slot : Z;
  merged_Items : list EncryptedPlaceholder;
  merged_Hash : bytes;
  SelectedGas : Z;
  SkippedItems : Z
}.

Record BlockspaceConfig := mkBlockspace {
  MaxDecryptedGas : Z;
  MaxDecryptedTxs : Z;
  DefaultTxGas : Z
}.

(** ** merge.go *)

Record mergeCandidate := mkCandidate {
  item : EncryptedPlaceholder;
  fee : Z
}.

Definition EffectiveMaxDecryptedTxs (blockspace : BlockspaceConfig) (bmax : Z) : Z :=
  if bmax <=? 0 then 0
  else if (MaxDecryptedTxs blockspace <=? 0) || (bmax <? MaxDecryptedTxs blockspace) then bmax
  else MaxDecryptedTxs blockspace.

Definition parseBigInt (raw : bytes) : option Z :=
  let raw := TrimSpace raw in
  let raw := if bool_decide (raw = []) then str "0" else raw in
  match SetString raw with
  | Some out => if out <? 0 then None else Some out
  | None => None
  end.

(** The hash as the code compares it: lower case, without "0x". *)
Definition claimedHash (uni : bytes -> bytes) (h : bytes) : bytes :=
  TrimPrefix (ToLower uni h) (str "0x").

Definition normalizePlaceholder (uni : bytes -> bytes) (it : EncryptedPlaceholder)
  : option (EncryptedPlaceholder * Z) :=
  if bool_decide (Ciphertext it = []) || (Gas it =? 0) then None
  else
    match parseBigInt (EffectiveFeePerGasWei it) with
    | None => None
    | Some fee =>
        let computedHash := hashHex (Ciphertext it) in
        let hash := if bool_decide (Hash it = []) then computedHash else Hash it in
        let normalizedHash := claimedHash uni hash in
        if bool_decide (normalizedHash = computedHash) then
          Some (mkPlaceholder normalizedHash (Ciphertext it) (Gas it)
                  (if bool_decide (EffectiveFeePerGasWei it = []) then str "0"
                   else EffectiveFeePerGasWei it)
                  (ToLower uni (From it)) (Nonce it)
                  (if bool_decide (Kind it = []) then str "placeholder" else Kind it), fee)
        else None
    end.

Definition placeholdersEqual (left right : EncryptedPlaceholder) : bool :=
  bool_decide (Hash left = Hash right) &&
  bool_decide (Ciphertext left = Ciphertext right) &&
  (Gas left =? Gas right) &&
  bool_decide (EffectiveFeePerGasWei left = EffectiveFeePerGasWei right) &&
  bool_decide (From left = From right) &&
  (Nonce left =? Nonce right) &&
  bool_decide (Kind left = Kind right).

(** The two local maps of [Merge]. *)
Record mergeState := mkMergeState {
  unique : gmap bytes mergeCandidate;
  validated : gmap bytes EncryptedPlaceholder
}.

(** The body of the loop over the items. *)
Definition mergeItem (uni : bytes -> bytes) (st : mergeState) (it : EncryptedPlaceholder) : mergeState :=
  let claimed := claimedHash uni (Hash it) in
  let known :=
    match validated st !! claimed with
    | Some prior => negb (bool_decide (claimed = [])) && placeholdersEqual prior it
    | None => false
    end in
  if known then st
  else
    match normalizePlaceholder uni it with
    | None => st
    | Some (normalized, fee) =>
        match unique st !! Hash normalized with
        | Some _ => st
        | None =>
            mkMergeState (<[Hash normalized := mkCandidate normalized fee]> (unique st))
                         (<[Hash normalized := it]> (validated st))
        end
    end.

Definition mergeCollect (uni : bytes -> bytes) (lists : list InclusionList) : mergeState :=
  fold_left (fun st l => fold_left (mergeItem uni) (Items l) st) lists (mkMergeState ∅ ∅).

(** The comparison of [sortCandidates]. *)
Definition candidateLess (x y : mergeCandidate) : bool :=
  let cmp := fee x ?= fee y in
  if bool_decide (cmp = Eq) then
    let left := item x in
    let right := item y in
    if bool_decide (From left = From right) then
      if Nonce left =? Nonce right then bytesLt (Hash left) (Hash right)
      else Nonce left <? Nonce right
    else bytesLt (From left) (From right)
  else bool_decide (cmp = Gt).

Definition sortCandidates (candidates : list mergeCandidate) : list mergeCandidate :=
  sortSlice candidateLess candidates.

(** The selection loop; the two last arguments are [selected] and
    [selectedGas]. *)
Fixpoint selectItems (maxGas maxTxs : Z) (candidates : list mergeCandidate)
    (selected : list EncryptedPlaceholder) (selectedGas : Z) : list EncryptedPlaceholder * Z :=
  match candidates with
  | [] => (selected, selectedGas)
  | c :: rest =>
      if maxTxs <=? zlen selected then (selected, selectedGas)
      else if (0 <? maxGas) && (u64 (maxGas - selectedGas) <? Gas (item c)) then
        selectItems maxGas maxTxs rest selected selectedGas
      else selectItems maxGas maxTxs rest (selected ++ [item c]) (u64 (selectedGas + Gas (item c)))
  end.

Definition EncryptedHashes (items : list EncryptedPlaceholder) : list bytes := map Hash items.

Section MergeRule.
Context (uni : bytes -> bytes).
(** [json.Marshal] of the canonical structs of [HashInclusionList],
[NewAgreedSet] and [hashMergedSet]. *)
Context (json_list : Z -> Z -> list EncryptedPlaceholder -> bytes)
    (json_agreed : Z -> list InclusionList -> bytes)
    (json_merged : Z -> list EncryptedPlaceholder -> Z -> bytes).

Definition HashInclusionList (l : InclusionList) : bytes :=
  hashHex (json_list (list_Slot l) (OperatorID l) (Items l)).

Definition setListHash (l : InclusionList) : InclusionList :=
  mkList (list_Slot l) (OperatorID l) (Items l) (HashInclusionList l).

Definition listLess (x y : InclusionList) : bool :=
  if bool_decide (list_Hash x = list_Hash y) then OperatorID x <? OperatorID y
  else bytesLt (list_Hash x) (list_Hash y).

Definition NewAgreedSet (slot : Z) (lists : list InclusionList) : AgreedInclusionSet :=
  let canonicalLists := sortSlice listLess (map setListHash lists) in
  let total := fold_left (fun acc l => acc + zlen (Items l)) canonicalLists 0 in
  mkAgreed slot canonicalLists (hashHex (json_agreed slot canonicalLists)) total.

Definition hashMergedSet (slot : Z) (items : list EncryptedPlaceholder) (gas : Z) : bytes :=
  hashHex (json_merged slot items gas).

(** [order] is the iteration order over the map [unique]. *)
Definition Merge (order : gmap bytes mergeCandidate -> list mergeCandidate)
  (slot : Z) (lists : list InclusionList) (blockspace : BlockspaceConfig) (bmax : Z)
  : MergedEncryptedSet :=
  let candidates := sortCandidates (order (unique (mergeCollect uni lists))) in
  let maxTxs := EffectiveMaxDecryptedTxs blockspace bmax in
  let '(selected, selectedGas) := selectItems (MaxDecryptedGas blockspace) maxTxs candidates [] 0 in
  mkMerged slot selected (hashMergedSet slot selected selectedGas) selectedGas
         (zlen candidates - zlen selected).
End MergeRule.

(** ** proto.go *)

(** The generated messages; an item of the repeated field is a pointer. *)
Record pbPlaceholder := mkPbPlaceholder {
  pb_Hash : bytes;
  pb_Ciphertext : bytes;
  pb_Gas : Z;
  pb_Fee : bytes;
  pb_From : bytes;
  pb_Nonce : Z;
  pb_Kind : bytes
}.

Record pbInclusionList := mkPbList {
  pb_Slot : Z;
  pb_OperatorId : Z;
  pb_Items : list (option pbPlaceholder)
}.

Inductive listError :=
  | ErrMarshal
  | ErrUnmarshal
  | ErrUnexpectedEOF
  | ErrEmptyCiphertext.

Definition toProtoEncryptedPlaceholder (it : EncryptedPlaceholder) : pbPlaceholder :=
  mkPbPlaceholder (Hash it) (Ciphertext it) (Gas it) (EffectiveFeePerGasWei it) (From it)
                  (Nonce it) (Kind it).

Definition fromProtoEncryptedPlaceholder (m : option pbPlaceholder)
  : listError + EncryptedPlaceholder :=
  match m with
  | None => inl ErrEmptyCiphertext
  | Some it =>
      if bool_decide (pb_Ciphertext it = []) then inl ErrEmptyCiphertext
      else inr (mkPlaceholder (pb_Hash it) (pb_Ciphertext it) (pb_Gas it) (pb_Fee it) (pb_From it)
                              (pb_Nonce it) (pb_Kind it))
  end.

Fixpoint decodeItems (ms : list (option pbPlaceholder)) (acc : list EncryptedPlaceholder)
  : listError + list EncryptedPlaceholder :=
  match ms with
  | [] => inr acc
  | m :: rest =>
      match fromProtoEncryptedPlaceholder m with
      | inl e => inl e
      | inr it => decodeItems rest (acc ++ [it])
      end
  end.

Section Payload.
(** [proto.Marshal] fails on a string that is not UTF-8. *)
Context (proto_Marshal : pbInclusionList -> option bytes)
    (proto_Unmarshal : bytes -> option pbInclusionList).

Definition EncodeList (l : InclusionList) : listError + bytes :=
  match proto_Marshal (mkPbList (list_Slot l) (OperatorID l)
        (map (fun it => Some (toProtoEncryptedPlaceholder it)) (Items l))) with
  | Some data => inr data
  | None => inl ErrMarshal
  end.

Definition DecodeList (data : bytes) : listError + InclusionList :=
  match proto_Unmarshal data with
  | None => inl ErrUnmarshal
  | Some msg =>
    if pb_Slot msg =? 0 then inl ErrUnexpectedEOF
    else
      match decodeItems (pb_Items msg) [] with
      | inl e => inl e
      | inr items => inr (mkList (pb_Slot msg) (pb_OperatorId msg) items [])
      end
  end.
End Payload.
