(* ===== verification/MergeLaws.v ===== *)
(** * Inclusion lists: what the merge guarantees

    The two maps of [Merge] compute "the first valid item of each hash"
    ([collect_spec]); the comparison is a total order on distinct hashes, so
    neither the map's iteration order nor the sorting algorithm shows in the
    result; the selection loop is greedy within the limits. *)

From S2P Require Import Prelude Order GoStrings Sha256 Merge.

(** ** The comparisons *)

Definition candidateCmp : mergeCandidate -> mergeCandidate -> comparison :=
  cmpThen (cmpOn fee (cmpDown Z.compare))
    (cmpThen (cmpOn (fun c => From (item c)) bytesCmp)
      (cmpThen (cmpOn (fun c => Nonce (item c)) Z.compare)
        (cmpOn (fun c => Hash (item c)) bytesCmp))).

Lemma candidateLess_cmp x y : candidateLess x y = ltOf candidateCmp x y.
Proof.
  unfold candidateLess, candidateCmp, ltOf, cmpThen, cmpOn, cmpDown.
  rewrite (Z.compare_antisym (fee x) (fee y)).
  destruct (fee x ?= fee y) eqn:E; cbn [CompOpp]; [|done..].
  rewrite bool_decide_true by done.
  apply link_bytes, link_Z. done.
Qed.

Definition listCmp : InclusionList -> InclusionList -> comparison :=
  cmpThen (cmpOn list_Hash bytesCmp) (cmpOn OperatorID Z.compare).

Lemma listLess_cmp x y : listLess x y = ltOf listCmp x y.
Proof. unfold listLess, listCmp, ltOf, cmpThen, cmpOn. by apply link_bytes. Qed.

Lemma candidateCmp_eq x y : candidateCmp x y = Eq -> Hash (item x) = Hash (item y).
Proof.
  unfold candidateCmp. intros (_ & (_ & (_ & H)%cmpThen_eq)%cmpThen_eq)%cmpThen_eq.
  by apply bytesCmp_eq.
Qed.

Lemma listCmp_eq x y : listCmp x y = Eq -> OperatorID x = OperatorID y.
Proof. unfold listCmp. intros (_ & H)%cmpThen_eq. by apply Z.compare_eq. Qed.

(** ** Collecting the candidates *)

Section Collect.
Context (uni : bytes -> bytes).

(** What a valid item contributes. *)
Definition candidateOf (it : EncryptedPlaceholder) : option mergeCandidate :=
  match normalizePlaceholder uni it with
  | Some (normalized, fee) => Some (mkCandidate normalized fee)
  | None => None
  end.

Definition candidateFor (h : bytes) (it : EncryptedPlaceholder) : option mergeCandidate :=
  match candidateOf it with
  | Some c => if bool_decide (Hash (item c) = h) then Some c else None
  | None => None
  end.

(** The first valid item with hash [h]. *)
Definition firstFor (h : bytes) (its : list EncryptedPlaceholder) : option mergeCandidate :=
  firstSome (candidateFor h) its.

Definition validItem (it : EncryptedPlaceholder) : Prop :=
  Ciphertext it <> [] /\ Gas it <> 0 /\ Hash it = hashHex (Ciphertext it).

Lemma candidateOf_valid it c :
  candidateOf it = Some c -> validItem (item c) /\ 0 <= fee c /\ Gas (item c) = Gas it.
Proof.
  unfold candidateOf, normalizePlaceholder.
  case_bool_decide as Hc; [done|].
  destruct (Z.eqb_spec (Gas it) 0) as [|Hg]; [done|]. cbn [orb].
  unfold parseBigInt. destruct (SetString _) as [z|]; [|done].
  destruct (Z.ltb_spec z 0) as [|Hz]; [done|].
  case_bool_decide as Hn; [|done]. intros [= <-]. unfold validItem. cbn. repeat split; try done.
Qed.

Lemma firstSome_app {A B} (f : A -> option B) l1 l2 :
  firstSome f (l1 ++ l2) =
  match firstSome f l1 with
  | Some y => Some y
  | None => firstSome f l2
  end.
Proof. induction l1 as [|x l1 IH]; simpl; [done|]. by destruct (f x). Qed.

Lemma firstSome_Some {A B} (f : A -> option B) l y :
  firstSome f l = Some y -> exists x, x ∈ l /\ f x = Some y.
Proof.
  induction l as [|x l IH]; simpl; [done|]. destruct (f x) eqn:E.
  - intros [= ->]. exists x. split; [by left|done].
  - intros (x' & H1 & H2)%IH. exists x'. split; [by right|done].
Qed.

Lemma firstSome_is_Some {A B} (f : A -> option B) l x y :
  x ∈ l -> f x = Some y -> is_Some (firstSome f l).
Proof.
  induction 1 as [x l|x z l _ IH]; simpl; intros Hf; [by rewrite Hf|].
  destruct (f z); [done|auto].
Qed.

Lemma candidateFor_Some h it c :
  candidateFor h it = Some c <-> candidateOf it = Some c /\ Hash (item c) = h.
Proof.
  unfold candidateFor. destruct (candidateOf it) as [c'|]; [|naive_solver].
  case_bool_decide; naive_solver.
Qed.

(** Every item remembered as validated is the one its hash was taken from. *)
Definition collectInv (st : mergeState) : Prop :=
  forall h it, validated st !! h = Some it ->
  exists c, unique st !! h = Some c /\ candidateOf it = Some c /\ Hash (item c) = h.

Lemma placeholdersEqual_eq x y : placeholdersEqual x y = true -> x = y.
Proof.
  unfold placeholdersEqual. intros H.
  repeat (apply andb_true_iff in H as [H ?]).
  repeat match goal with
    | E : bool_decide _ = true |- _ => apply bool_decide_eq_true_1 in E
    | E : (_ =? _) = true |- _ => apply Z.eqb_eq in E
    end.
  destruct x, y. cbn in *. by subst.
Qed.

(** One item: the "already validated" path makes no difference. *)
Lemma mergeItem_spec st it :
  collectInv st ->
  collectInv (mergeItem uni st it) /\
  unique (mergeItem uni st it) =
  match candidateOf it with
  | None => unique st
  | Some c =>
      match unique st !! Hash (item c) with
      | Some _ => unique st
      | None => <[Hash (item c) := c]> (unique st)
      end
  end.
Proof.
  intros Hinv. unfold mergeItem.
  set (known := match validated st !! _ with Some _ => _ | None => _ end).
  destruct known eqn:Hk.
  - split; [done|]. subst known.
    destruct (validated st !! claimedHash uni (Hash it)) as [prior|] eqn:Hv; [|done].
    apply andb_true_iff in Hk as [_ ->%placeholdersEqual_eq].
    destruct (Hinv _ _ Hv) as (c & Hu & -> & ->). by rewrite Hu.
  - clear Hk known.
    destruct (normalizePlaceholder uni it) as [[n f]|] eqn:Hn; unfold candidateOf at 1; rewrite Hn; [|done]. cbn [item].
    destruct (unique st !! Hash n) eqn:Hu; [done|]. split; [|done].
    intros h it'. cbn. intros [[<- <-]|[Hne Hv]]%lookup_insert_Some.
    + exists (mkCandidate n f). rewrite lookup_insert_eq. unfold candidateOf. by rewrite Hn.
    + destruct (Hinv _ _ Hv) as (c & Hc & ?). exists c. by rewrite lookup_insert_ne.
Qed.

Lemma mergeItems_spec its st :
  collectInv st ->
  collectInv (fold_left (mergeItem uni) its st) /\
  forall h, unique (fold_left (mergeItem uni) its st) !! h =
  match unique st !! h with
  | Some c => Some c
  | None => firstFor h its
  end.
Proof.
  revert st. induction its as [|it its IH]; intros st Hinv; cbn [fold_left].
  - split; [done|]. intros h. by destruct (unique st !! h).
  - destruct (mergeItem_spec st it Hinv) as [Hinv' Hu].
    destruct (IH _ Hinv') as [Hinv'' Hspec]. split; [done|]. intros h.
    rewrite Hspec, Hu. unfold firstFor. cbn [firstSome]. unfold candidateFor at 2.
    destruct (candidateOf it) as [c|]; [|done].
    case_bool_decide as Hh.
    + subst h. destruct (unique st !! Hash (item c)) eqn:E; [by rewrite E|].
      by rewrite lookup_insert_eq.
    + destruct (unique st !! Hash (item c)) eqn:E; [done|]. by rewrite lookup_insert_ne.
Qed.

Definition allItems (lists : list InclusionList) : list EncryptedPlaceholder :=
  concat (map Items lists).

Lemma mergeCollect_flat lists st :
  collectInv st ->
  fold_left (fun st l => fold_left (mergeItem uni) (Items l) st) lists st =
  fold_left (mergeItem uni) (allItems lists) st.
Proof.
  revert st. induction lists as [|l lists IH]; intros st Hst; [done|].
  unfold allItems. cbn. rewrite fold_left_app. apply IH. by apply mergeItems_spec.
Qed.

Lemma collect_spec lists h :
  unique (mergeCollect uni lists) !! h = firstFor h (allItems lists).
Proof.
  assert (collectInv (mkMergeState ∅ ∅)) as H0.
  { intros h' it Hv. cbn in Hv. by rewrite lookup_empty in Hv. }
  unfold mergeCollect. rewrite (mergeCollect_flat lists _ H0).
  rewrite (proj2 (mergeItems_spec _ _ H0)). cbn. by rewrite lookup_empty.
Qed.

Lemma collect_from lists h c :
  unique (mergeCollect uni lists) !! h = Some c ->
  Hash (item c) = h /\ exists it, it ∈ allItems lists /\ candidateOf it = Some c.
Proof.
  rewrite collect_spec. intros (it & Hin & [Hc Hh]%candidateFor_Some)%firstSome_Some. eauto.
Qed.

End Collect.

(** ** Ranging over the map and sorting *)

(** Every candidate is stored under its own hash. *)
Abbreviation keyed := (keyedBy (fun c => Hash (item c))).

Lemma sortCandidates_perm l : sortCandidates l ≡ₚ l.
Proof. exact (sortSlice_Permutation _ _ candidateLess_cmp l). Qed.

Section Sorted.
Context (order : gmap bytes mergeCandidate -> list mergeCandidate).
Hypothesis Horder : rangesOver order.
Context (m : gmap bytes mergeCandidate).
Hypothesis Hkeyed : keyed m.

Lemma range_hashes : NoDup (map (fun c => Hash (item c)) (order m)).
Proof.
  apply (NoDup_perm _ _ (Permutation_map _ (Horder m))). by apply keyedBy_NoDup.
Qed.

Lemma range_no_ties x y : x ∈ order m -> y ∈ order m -> candidateCmp x y = Eq -> x = y.
Proof.
  intros Hx Hy E%candidateCmp_eq. by apply (NoDup_map_inj _ _ x y range_hashes).
Qed.

Lemma sorted_hashes : NoDup (map (fun c => Hash (item c)) (sortCandidates (order m))).
Proof.
  apply (NoDup_perm _ _ (Permutation_map _ (sortCandidates_perm (order m)))).
  apply range_hashes.
Qed.

Lemma sorted_elem c : c ∈ sortCandidates (order m) <-> exists h, m !! h = Some c.
Proof.
  etransitivity; [|apply (range_elem order m c Horder)].
  apply elem_perm, sortCandidates_perm.
Qed.

Lemma sorted_is_unique l : SortsTo candidateLess (order m) l -> l = sortCandidates (order m).
Proof. exact (sortSlice_unique _ _ candidateLess_cmp _ _ range_no_ties). Qed.
End Sorted.

Lemma sorted_order_irrelevant order order' m :
  rangesOver order -> rangesOver order' -> keyed m ->
  sortCandidates (order m) = sortCandidates (order' m).
Proof.
  intros Ho Ho' Hk. apply (sortSlice_perm _ _ candidateLess_cmp).
  - by apply range_no_ties.
  - etransitivity; [apply Ho|]. symmetry. apply Ho'.
Qed.

(** ** The selection loop *)

Fixpoint gasSum (its : list EncryptedPlaceholder) : Z :=
  match its with
  | [] => 0
  | it :: its' => Gas it + gasSum its'
  end.

Lemma gasSum_app l1 l2 : gasSum (l1 ++ l2) = gasSum l1 + gasSum l2.
Proof. induction l1 as [|x l1 IH]; cbn; [done|]. rewrite IH. lia. Qed.

(** Gas values as Go's [uint64] holds them. *)
Definition gasOk (its : list EncryptedPlaceholder) : Prop := Forall (fun it => 0 <= Gas it < 2 ^ 64) its.

Lemma gasSum_nonneg its : gasOk its -> 0 <= gasSum its.
Proof. induction 1 as [|it its H _ IH]; cbn; lia. Qed.

Section Select.
Context (maxGas maxTxs : Z).
Hypothesis Hmax : 0 < maxGas < 2 ^ 64.

(** The state of the loop: the gas counter is the exact sum and fits. *)
Definition selState (st : list EncryptedPlaceholder * Z) : Prop :=
  st.2 = gasSum st.1 /\ 0 <= st.2 <= maxGas.

(** The decision on one candidate. *)
Definition fits (sel : list EncryptedPlaceholder) (c : mergeCandidate) : bool :=
  (zlen sel <? maxTxs) && (gasSum sel + Gas (item c) <=? maxGas).

(** The selection as a fold without early exit: each candidate is taken when
it fits after the ones taken so far. *)
Definition greedy (cands : list mergeCandidate) (sel : list EncryptedPlaceholder) :=
  fold_left (fun sel c => if fits sel c then sel ++ [item c] else sel) cands sel.

Lemma greedy_cons c cands sel :
  greedy (c :: cands) sel = greedy cands (if fits sel c then sel ++ [item c] else sel).
Proof. done. Qed.

Lemma greedy_full cands sel : maxTxs <= zlen sel -> greedy cands sel = sel.
Proof.
  intros H. induction cands as [|c cands IH]; [done|].
  rewrite greedy_cons. unfold fits. replace (zlen sel <? maxTxs) with false by lia. apply IH.
Qed.

Lemma selectItems_greedy cands sel gas :
  Forall (fun c => 0 <= Gas (item c) < 2 ^ 64) cands -> selState (sel, gas) ->
  selectItems maxGas maxTxs cands sel gas = (greedy cands sel, gasSum (greedy cands sel)) /\
  0 <= gasSum (greedy cands sel) <= maxGas.
Proof.
  intros Hc. revert sel gas. induction Hc as [|c cands Hg _ IH]; intros sel gas [Hgas Hle]; cbn in Hgas, Hle.
  - cbn. subst. done.
  - cbn [selectItems]. destruct (Z.leb_spec maxTxs (zlen sel)) as [Hfull|Hroom].
    { rewrite greedy_full by done. subst. done. }
    replace (0 <? maxGas) with true by lia. cbn [andb].
    rewrite u64_small by lia. rewrite greedy_cons. unfold fits.
    replace (zlen sel <? maxTxs) with true by lia. rewrite <- Hgas.
    destruct (Z.ltb_spec (maxGas - gas) (Gas (item c))) as [Hno|Hyes].
    + replace (gas + Gas (item c) <=? maxGas) with false by lia. cbn [andb]. by apply IH.
    + replace (gas + Gas (item c) <=? maxGas) with true by lia. cbn [andb].
      rewrite u64_small by lia. apply IH. split; cbn; [|lia].
      rewrite gasSum_app. cbn. lia.
Qed.

Lemma greedy_app cands1 cands2 sel : greedy (cands1 ++ cands2) sel = greedy cands2 (greedy cands1 sel).
Proof. apply fold_left_app. Qed.

Lemma greedy_grows cands sel :
  exists taken, greedy cands sel = sel ++ map item taken /\ taken `sublist_of` cands.
Proof.
  revert sel. induction cands as [|c cands IH]; intros sel.
  - exists []. split; [by rewrite app_nil_r|constructor].
  - rewrite greedy_cons. destruct (fits sel c).
    + destruct (IH (sel ++ [item c])) as (t & Ht & Hs). exists (c :: t). split.
      * rewrite Ht. by rewrite <- app_assoc.
      * by apply sublist_skip.
    + destruct (IH sel) as (t & Ht & Hs). exists t. split; [done|]. by apply sublist_cons.
Qed.
End Select.

(** With no gas limit the loop takes a prefix. *)
Lemma selectItems_unlimited maxTxs cands sel gas :
  exists gas', selectItems 0 maxTxs cands sel gas =
    (sel ++ map item (take (Z.to_nat (maxTxs - zlen sel)) cands), gas').
Proof.
  revert sel gas. induction cands as [|c cands IH]; intros sel gas; cbn [selectItems].
  - exists gas. by rewrite take_nil, app_nil_r.
  - destruct (Z.leb_spec maxTxs (zlen sel)) as [Hfull|Hroom].
    + exists gas. replace (Z.to_nat (maxTxs - zlen sel)) with 0%nat by lia. by rewrite app_nil_r.
    + destruct (IH (sel ++ [item c]) (u64 (gas + Gas (item c)))) as [g Hg].
      exists g. replace (0 <? 0) with false by done. cbn [andb]. rewrite Hg, length_app.
      replace (Z.to_nat (maxTxs - zlen sel))
        with (S (Z.to_nat (maxTxs - Z.of_nat (length sel + length [item c])))) by (cbn [length]; lia).
      cbn [take map]. by rewrite <- app_assoc.
Qed.

(** ** The merge *)

Section MergeTheorems.
Context (uni : bytes -> bytes) (json_merged : Z -> list EncryptedPlaceholder -> Z -> bytes).
Context (order : gmap bytes mergeCandidate -> list mergeCandidate).
Hypothesis Horder : rangesOver order.

Lemma collect_keyed lists : keyed (unique (mergeCollect uni lists)).
Proof. intros h c H. by apply (collect_from uni lists h c). Qed.

(** The distinct valid candidates in selection order. *)
Definition candidates (lists : list InclusionList) : list mergeCandidate :=
  sortCandidates (order (unique (mergeCollect uni lists))).

Lemma candidates_valid lists c :
  c ∈ candidates lists ->
  validItem (item c) /\ 0 <= fee c /\ exists it, it ∈ allItems lists /\ candidateOf uni it = Some c.
Proof.
  intros (h & (_ & it & Hin & Hc)%collect_from)%(sorted_elem order Horder).
  destruct (candidateOf_valid uni it c Hc) as (H1 & H2 & _). eauto.
Qed.

(** Items as Go's [uint64] holds their gas. *)
Definition listsOk (lists : list InclusionList) : Prop := gasOk (allItems lists).

Lemma candidates_gas lists :
  listsOk lists -> Forall (fun c => 0 <= Gas (item c) < 2 ^ 64) (candidates lists).
Proof.
  intros Hok. apply Forall_forall. intros c (_ & _ & it & Hin & Hc)%candidates_valid.
  destruct (candidateOf_valid uni it c Hc) as (_ & _ & ->).
  unfold listsOk, gasOk in Hok. rewrite Forall_forall in Hok. by apply Hok.
Qed.

Lemma Merge_items slot lists bs bmax :
  merged_Items (Merge uni json_merged order slot lists bs bmax) =
  fst (selectItems (MaxDecryptedGas bs) (EffectiveMaxDecryptedTxs bs bmax) (candidates lists) [] 0).
Proof. unfold Merge. fold (candidates lists). by destruct (selectItems _ _ _ _ _). Qed.

Lemma Merge_gas slot lists bs bmax :
  SelectedGas (Merge uni json_merged order slot lists bs bmax) =
  snd (selectItems (MaxDecryptedGas bs) (EffectiveMaxDecryptedTxs bs bmax) (candidates lists) [] 0).
Proof. unfold Merge. fold (candidates lists). by destruct (selectItems _ _ _ _ _). Qed.

Lemma Merge_skipped slot lists bs bmax :
  SkippedItems (Merge uni json_merged order slot lists bs bmax) =
  zlen (candidates lists) - zlen (merged_Items (Merge uni json_merged order slot lists bs bmax)).
Proof. unfold Merge. fold (candidates lists). by destruct (selectItems _ _ _ _ _). Qed.

(** The selected items are a sublist of the candidates, at most [maxTxs]. *)
Lemma selectItems_sublist maxGas maxTxs cands sel gas :
  exists taken, fst (selectItems maxGas maxTxs cands sel gas) = sel ++ map item taken /\
  taken `sublist_of` cands /\ (zlen sel <= maxTxs -> zlen sel + zlen taken <= maxTxs).
Proof.
  revert sel gas. induction cands as [|c cands IH]; intros sel gas; cbn [selectItems].
  - exists []. rewrite app_nil_r. cbn. split_and!; [done|constructor|lia].
  - destruct (Z.leb_spec maxTxs (zlen sel)).
    { exists []. rewrite app_nil_r. cbn. split_and!; [done|apply sublist_nil_l|lia]. }
    destruct ((0 <? maxGas) && _).
    + destruct (IH sel gas) as (t & -> & Hs & Hl). exists t. split_and!; [done|by apply sublist_cons|done].
    + destruct (IH (sel ++ [item c]) (u64 (gas + Gas (item c)))) as (t & -> & Hs & Hl).
      exists (c :: t). rewrite length_app in Hl. cbn [length] in *.
      split_and!; [by rewrite <- app_assoc|by apply sublist_skip|lia].
Qed.

Lemma Merge_sublist slot lists bs bmax :
  exists taken, merged_Items (Merge uni json_merged order slot lists bs bmax) = map item taken /\
  taken `sublist_of` candidates lists /\ zlen taken <= EffectiveMaxDecryptedTxs bs bmax.
Proof.
  rewrite Merge_items.
  destruct (selectItems_sublist (MaxDecryptedGas bs) (EffectiveMaxDecryptedTxs bs bmax)
    (candidates lists) [] 0) as (t & -> & Hs & Hl).
  exists t. split_and!; [done|done|]. cbn in Hl. apply Hl.
  unfold EffectiveMaxDecryptedTxs. repeat case_match; lia.
Qed.

(** C35. Every merged item is valid and comes from some list; no two merged
items share a hash; the items appear in the order of [sortCandidates]
(fee descending, then sender, nonce and hash); there are at most
[EffectiveMaxDecryptedTxs] of them, and [SkippedItems] counts the other
distinct valid items. *)
Theorem merge_sound slot lists bs bmax :
  let out := Merge uni json_merged order slot lists bs bmax in
  (forall it, it ∈ merged_Items out ->
   validItem it /\
   exists it' f, it' ∈ allItems lists /\ normalizePlaceholder uni it' = Some (it, f)) /\
  NoDup (EncryptedHashes (merged_Items out)) /\
  (exists cs, merged_Items out = map item cs /\ StronglySorted (notAfter candidateLess) cs) /\
  0 <= zlen (merged_Items out) <= EffectiveMaxDecryptedTxs bs bmax /\
  0 <= SkippedItems out.
Proof.
  intros out. subst out. rewrite Merge_skipped.
  destruct (Merge_sublist slot lists bs bmax) as (taken & -> & Hsub & Hlen).
  split_and!.
  - intros it (c & -> & Hc)%list_elem_of_fmap.
    assert (c ∈ candidates lists) as Hc' by (by eapply elem_of_sublist).
    apply candidates_valid in Hc' as (Hv & _ & it' & Hin & Hof).
    split; [done|]. exists it', (fee c). split; [done|].
    unfold candidateOf in Hof. destruct (normalizePlaceholder uni it') as [[n f]|]; [|done].
    by injection Hof as <-.
  - unfold EncryptedHashes. rewrite map_map.
    eapply sublist_NoDup; [apply (sorted_hashes order Horder _ (collect_keyed lists))|].
    by apply (fmap_sublist (fun c => Hash (item c))).
  - exists taken. split; [done|].
    eapply StronglySorted_sublist; [exact Hsub|].
    exact (sortSlice_strongly _ _ candidateLess_cmp _).
  - lia.
  - by rewrite length_map.
  - apply sublist_length in Hsub. rewrite length_map. lia.
Qed.

(** What the selection did with one candidate, in terms of the items selected
from the candidates before it. *)
Lemma greedy_split maxGas maxTxs pre c post :
  exists before after,
  greedy maxGas maxTxs (pre ++ c :: post) [] =
    before ++ (if fits maxGas maxTxs before c then [item c] else []) ++ after /\
  (forall it, it ∈ before -> it ∈ map item pre) /\
  (forall it, it ∈ after -> it ∈ map item post).
Proof.
  destruct (greedy_grows maxGas maxTxs pre []) as (tb & Htb & Hsb).
  rewrite greedy_app, greedy_cons. cbn [app] in Htb. rewrite Htb.
  destruct (greedy_grows maxGas maxTxs post
    (if fits maxGas maxTxs (map item tb) c then map item tb ++ [item c] else map item tb)) as (ta & Hta & Hsa).
  exists (map item tb), (map item ta). rewrite Hta. split_and!.
  - destruct (fits _ _ _ _); [by rewrite <- app_assoc|done].
  - intros it (x & -> & Hx)%list_elem_of_fmap. apply list_elem_of_fmap_2. by apply (elem_of_sublist tb).
  - intros it (x & -> & Hx)%list_elem_of_fmap. apply list_elem_of_fmap_2. by apply (elem_of_sublist ta).
Qed.

(** C36. Under a gas limit the reported gas is the exact sum of the selected
items' gas and within the limit, and the selection is greedy: a candidate
is selected exactly when, after the items selected from the candidates
before it, there is room for one more transaction and for its gas. *)
Theorem merge_greedy slot lists bs bmax :
  listsOk lists -> 0 < MaxDecryptedGas bs < 2 ^ 64 ->
  let out := Merge uni json_merged order slot lists bs bmax in
  SelectedGas out = gasSum (merged_Items out) /\
  0 <= SelectedGas out <= MaxDecryptedGas bs /\
  forall pre c post, candidates lists = pre ++ c :: post ->
  exists before after,
    merged_Items out =
      before ++
      (if (zlen before <? EffectiveMaxDecryptedTxs bs bmax) &&
          (gasSum before + Gas (item c) <=? MaxDecryptedGas bs)
       then [item c] else []) ++ after /\
    (forall it, it ∈ before -> it ∈ map item pre) /\
    (forall it, it ∈ after -> it ∈ map item post).
Proof.
  intros Hok Hgas out. subst out. rewrite Merge_items, Merge_gas.
  destruct (selectItems_greedy _ (EffectiveMaxDecryptedTxs bs bmax) Hgas (candidates lists) [] 0
    (candidates_gas lists Hok)) as [-> Hb]; [split; cbn; lia|].
  cbn [fst snd]. split_and!; [done|lia|lia|].
  intros pre c post ->. apply greedy_split.
Qed.

(** Without a gas limit the selection is the first
[EffectiveMaxDecryptedTxs] candidates. *)
Lemma merge_unlimited slot lists bs bmax :
  MaxDecryptedGas bs = 0 ->
  merged_Items (Merge uni json_merged order slot lists bs bmax) =
  take (Z.to_nat (EffectiveMaxDecryptedTxs bs bmax)) (map item (candidates lists)).
Proof.
  intros H0. rewrite Merge_items, H0.
  destruct (selectItems_unlimited (EffectiveMaxDecryptedTxs bs bmax) (candidates lists) [] 0) as [g ->].
  cbn [fst app length]. rewrite Z.sub_0_r. by rewrite firstn_map.
Qed.

(** The candidates are, hash by hash, the first valid item in list order:
the path for items already validated changes nothing, and no valid hash is
lost. *)
Lemma candidates_first lists c :
  c ∈ candidates lists <-> firstFor uni (Hash (item c)) (allItems lists) = Some c.
Proof.
  unfold candidates. rewrite (sorted_elem order Horder). split.
  - intros [h Hh]. destruct (collect_from uni lists h c Hh) as [<- _]. by rewrite <- collect_spec.
  - intros H. exists (Hash (item c)). by rewrite collect_spec.
Qed.
End MergeTheorems.

(** ** Independence of orders *)

Lemma firstSome_perm {A B} (f : A -> option B) l l' :
  l ≡ₚ l' ->
  (forall x y a b, x ∈ l -> y ∈ l -> f x = Some a -> f y = Some b -> a = b) ->
  firstSome f l = firstSome f l'.
Proof.
  intros Hp Hsame.
  destruct (firstSome f l) as [a|] eqn:E1, (firstSome f l') as [b|] eqn:E2; [| | |done].
  - apply firstSome_Some in E1 as (x & Hx & Hfx), E2 as (y & Hy & Hfy). f_equal.
    apply (Hsame x y); try done. by apply (elem_perm _ _ _ Hp).
  - apply firstSome_Some in E1 as (x & Hx & Hfx).
    apply (elem_perm _ _ _ Hp) in Hx. destruct (firstSome_is_Some f l' x a Hx Hfx). congruence.
  - apply firstSome_Some in E2 as (x & Hx & Hfx).
    apply (elem_perm _ _ _ Hp) in Hx. destruct (firstSome_is_Some f l x b Hx Hfx). congruence.
Qed.

(** Items that claim the same ciphertext agree on its metadata. *)
Definition consistent (uni : bytes -> bytes) (its : list EncryptedPlaceholder) : Prop :=
  forall x y a b, x ∈ its -> y ∈ its ->
    candidateOf uni x = Some a -> candidateOf uni y = Some b ->
    Hash (item a) = Hash (item b) -> a = b.

Section Independence.
Context (uni : bytes -> bytes) (json_merged : Z -> list EncryptedPlaceholder -> Z -> bytes).
Context (order order' : gmap bytes mergeCandidate -> list mergeCandidate).
Hypothesis Horder : rangesOver order.
Hypothesis Horder' : rangesOver order'.

Lemma ranges_agree lists :
  sortCandidates (order (unique (mergeCollect uni lists))) = sortCandidates (order' (unique (mergeCollect uni lists))).
Proof. apply sorted_order_irrelevant; [done..|apply collect_keyed]. Qed.

Lemma merge_any_range slot lists bs bmax :
  Merge uni json_merged order slot lists bs bmax = Merge uni json_merged order' slot lists bs bmax.
Proof. unfold Merge. by rewrite ranges_agree. Qed.

(** C37. The merged set does not depend on the order in which Go ranges over
the map of candidates, nor on the sorting algorithm: every order of the
candidates that [sort.Slice] may produce is the same list. *)
Theorem merge_deterministic slot lists bs bmax :
  Merge uni json_merged order slot lists bs bmax = Merge uni json_merged order' slot lists bs bmax /\
  forall sorted, SortsTo candidateLess (order (unique (mergeCollect uni lists))) sorted ->
  sorted = candidates uni order' lists.
Proof.
  split.
  - apply merge_any_range.
  - intros sorted Hs. unfold candidates. rewrite <- ranges_agree.
    by apply (sorted_is_unique order Horder _ (collect_keyed uni lists)).
Qed.

(** When items with the same ciphertext carry the same metadata, the
merged set does not depend on the order of the lists or of the items in
them, so nodes that see the accepted batches in different orders agree. *)
Lemma merge_list_order slot lists lists' bs bmax :
  allItems lists ≡ₚ allItems lists' -> consistent uni (allItems lists) ->
  Merge uni json_merged order slot lists bs bmax = Merge uni json_merged order' slot lists' bs bmax.
Proof.
  intros Hp Hc.
  assert (unique (mergeCollect uni lists) = unique (mergeCollect uni lists')) as Hu.
  { apply map_eq. intros h. rewrite !collect_spec. apply firstSome_perm; [done|].
    intros x y a b Hx Hy [Ha Hha]%candidateFor_Some [Hb Hhb]%candidateFor_Some.
    apply (Hc x y); congruence. }
  unfold Merge. rewrite Hu.
  by rewrite (sorted_order_irrelevant order order' _ Horder Horder' (collect_keyed uni lists')).
Qed.
End Independence.

Section Agreed.
Context (json_list : Z -> Z -> list EncryptedPlaceholder -> bytes)
    (json_agreed : Z -> list InclusionList -> bytes).

Lemma sumItems_perm (l l' : list InclusionList) a :
  l ≡ₚ l' -> fold_left (fun acc x => acc + zlen (Items x)) l a =
           fold_left (fun acc x => acc + zlen (Items x)) l' a.
Proof. intros Hp. revert a. induction Hp; intros a; cbn; [done|done|f_equal; lia|congruence]. Qed.

(** The agreed set does not depend on the order in which a node exposes
the accepted batches, when they come from different operators; its lists
are the given ones with recomputed hashes, and [TotalItems] counts their
items. *)
Lemma newAgreedSet_canonical slot lists lists' :
  NoDup (map OperatorID lists) -> lists' ≡ₚ lists ->
  NewAgreedSet json_list json_agreed slot lists' = NewAgreedSet json_list json_agreed slot lists /\
  Lists (NewAgreedSet json_list json_agreed slot lists) ≡ₚ map (setListHash json_list) lists /\
  TotalItems (NewAgreedSet json_list json_agreed slot lists) = zlen (allItems lists).
Proof.
  intros Hnd Hp. set (ls := map (setListHash json_list) lists).
  assert (NoDup (map OperatorID ls)) as Hnd' by (unfold ls; by rewrite map_map).
  assert (forall x y, x ∈ ls -> y ∈ ls -> listCmp x y = Eq -> x = y) as Htie.
  { intros x y Hx Hy E%listCmp_eq. by apply (NoDup_map_inj OperatorID ls x y Hnd'). }
  split_and!.
  - unfold NewAgreedSet. fold ls.
    by rewrite (sortSlice_perm listCmp listLess listLess_cmp ls _ Htie (Permutation_map _ Hp)).
  - cbn. exact (sortSlice_Permutation listCmp listLess listLess_cmp ls).
  - cbn. rewrite (sumItems_perm _ _ _ (sortSlice_Permutation listCmp listLess listLess_cmp ls)).
    unfold ls, allItems. clear. change (zlen (concat (map Items lists))) with (0 + zlen (concat (map Items lists))).
    generalize 0. induction lists as [|l lists IH]; intros a; cbn; [lia|].
    rewrite IH, length_app. lia.
Qed.
End Agreed.

Section PayloadRoundTrip.
Context (proto_Marshal : pbInclusionList -> option bytes)
    (proto_Unmarshal : bytes -> option pbInclusionList).
(** What the protobuf library documents: unmarshalling inverts marshalling. *)
Hypothesis proto_inverse : forall m data, proto_Marshal m = Some data -> proto_Unmarshal data = Some m.

Lemma decodeItems_encoded its acc :
  decodeItems (map (fun it => Some (toProtoEncryptedPlaceholder it)) its) acc =
  if existsb (fun it => bool_decide (Ciphertext it = [])) its then inl ErrEmptyCiphertext
  else inr (acc ++ its).
Proof.
  revert acc. induction its as [|it its IH]; intros acc; cbn; [by rewrite app_nil_r|].
  case_bool_decide; cbn; [done|]. rewrite IH.
  destruct (existsb _ its); [done|]. by rewrite <- app_assoc; destruct it.
Qed.

(** Decoding an encoded proposal gives back its slot, operator and items
(the hash field is recomputed later, so it comes back empty), except that
slot 0 and an item without ciphertext are refused. *)
Lemma list_roundtrip l data :
  EncodeList proto_Marshal l = inr data ->
  DecodeList proto_Unmarshal data =
  if list_Slot l =? 0 then inl ErrUnexpectedEOF
  else if existsb (fun it => bool_decide (Ciphertext it = [])) (Items l) then inl ErrEmptyCiphertext
  else inr (mkList (list_Slot l) (OperatorID l) (Items l) []).
Proof.
  unfold EncodeList. destruct (proto_Marshal _) as [d|] eqn:Hm; [|done]. intros [= ->].
  unfold DecodeList. rewrite (proto_inverse _ _ Hm). cbn [pb_Slot pb_Items pb_OperatorId].
  destruct (list_Slot l =? 0); [done|]. rewrite decodeItems_encoded.
  by destruct (existsb _ _).
Qed.
End PayloadRoundTrip.

(** ** Witnesses: two operators, three ciphertexts, one proposed twice *)

Module MergeDemo.
Definition item1 : EncryptedPlaceholder :=
  mkPlaceholder [] (str "ciphertext a") 21000 (str "30") (str "0xAB") 1 [].
Definition item2 : EncryptedPlaceholder :=
  mkPlaceholder [] (str "ciphertext b") 50000 (str " 70 ") (str "0xcd") 0 (str "placeholder").
Definition item3 : EncryptedPlaceholder :=
  mkPlaceholder (str "0xff") (str "ciphertext c") 9 (str "1") [] 0 [].
Definition item4 : EncryptedPlaceholder :=
  mkPlaceholder [] (str "ciphertext d") 40000 [] (str "0xef") 2 [].
Definition lists : list InclusionList :=
  [mkList 7 1 [item1; item2; item3] []; mkList 7 2 [item2; item4] []].
Definition blockspace : BlockspaceConfig := mkBlockspace 75000 0 0.
Definition order (m : gmap bytes mergeCandidate) : list mergeCandidate := (map_to_list m).*2.
Definition order' (m : gmap bytes mergeCandidate) : list mergeCandidate := reverse (map_to_list m).*2.
Definition jm (slot : Z) (items : list EncryptedPlaceholder) (gas : Z) : bytes := concat (map Hash items).
Definition out : MergedEncryptedSet := Merge id jm order 7 lists blockspace 10.

(** The forged hash is dropped, the highest fee comes first, and the item
that does not fit in the gas limit is skipped. *)
Example out_items : map Nonce (merged_Items out) = [0; 1] /\ SelectedGas out = 71000 /\ SkippedItems out = 1.
Proof. vm_compute. repeat split. Qed.

Lemma order_ok : rangesOver order.
Proof. intros m. done. Qed.

Lemma order'_ok : rangesOver order'.
Proof. intros m. apply reverse_Permutation. Qed.

Lemma gas_ok : listsOk lists.
Proof. repeat constructor; cbn; lia. Qed.
End MergeDemo.

Lemma merge_sound_witness :
  (forall it, it ∈ merged_Items MergeDemo.out -> validItem it) /\
  NoDup (EncryptedHashes (merged_Items MergeDemo.out)).
Proof.
  destruct (merge_sound id MergeDemo.jm MergeDemo.order MergeDemo.order_ok 7 MergeDemo.lists
    MergeDemo.blockspace 10) as (H1 & H2 & _).
  split; [intros it Hin; exact (proj1 (H1 it Hin)) | exact H2].
Defined.

Lemma merge_greedy_witness :
  listsOk MergeDemo.lists /\ 0 < MaxDecryptedGas MergeDemo.blockspace < 2 ^ 64 /\
  SelectedGas MergeDemo.out = gasSum (merged_Items MergeDemo.out).
Proof.
  split; [exact MergeDemo.gas_ok|]. split; [cbn; lia|].
  apply (merge_greedy id MergeDemo.jm MergeDemo.order MergeDemo.order_ok 7 MergeDemo.lists
    MergeDemo.blockspace 10); [exact MergeDemo.gas_ok | cbn; lia].
Defined.

Lemma merge_deterministic_witness :
  Merge id MergeDemo.jm MergeDemo.order 7 MergeDemo.lists MergeDemo.blockspace 10 =
  Merge id MergeDemo.jm MergeDemo.order' 7 MergeDemo.lists MergeDemo.blockspace 10.
Proof.
  apply (merge_deterministic id MergeDemo.jm MergeDemo.order MergeDemo.order'
    MergeDemo.order_ok MergeDemo.order'_ok).
Defined.

#[global] Instance placeholder_eq_dec : EqDecision EncryptedPlaceholder.
Proof. solve_decision. Defined.

#[global] Instance candidate_eq_dec : EqDecision mergeCandidate.
Proof. solve_decision. Defined.

(** [consistent] as a test. *)
Definition consistentb (uni : bytes -> bytes) (its : list EncryptedPlaceholder) : bool :=
  let cs := omap (candidateOf uni) its in
  forallb (fun a => forallb (fun b =>
    negb (bool_decide (Hash (item a) = Hash (item b))) || bool_decide (a = b)) cs) cs.

Lemma consistentb_sound uni its : consistentb uni its = true -> consistent uni its.
Proof.
  unfold consistentb. rewrite forallb_forall. intros H x y a b Hx Hy Ha Hb Hh.
  assert (forall it c, it ∈ its -> candidateOf uni it = Some c -> In c (omap (candidateOf uni) its)) as Hin.
  { intros it c Hit Hc. apply list_elem_of_In, list_elem_of_omap. eauto. }
  specialize (H a (Hin x a Hx Ha)). rewrite forallb_forall in H. specialize (H b (Hin y b Hy Hb)).
  rewrite bool_decide_true in H by done. cbn in H. by apply bool_decide_eq_true_1 in H.
Qed.

Lemma demo_consistent : consistent id (allItems MergeDemo.lists).
Proof. apply consistentb_sound. vm_compute. reflexivity. Qed.

#[global] Instance pbInclusionList_eq_dec : EqDecision pbInclusionList.
Proof.
  assert (EqDecision pbPlaceholder) by solve_decision. solve_decision.
Defined.

Definition demoMessage : pbInclusionList :=
  mkPbList 7 1 [Some (toProtoEncryptedPlaceholder MergeDemo.item1)].

Definition demoMarshal (m : pbInclusionList) : option bytes :=
  if bool_decide (m = demoMessage) then Some (str "wire") else None.

Lemma demo_inverse m data : demoMarshal m = Some data -> Some demoMessage = Some m.
Proof. unfold demoMarshal. case_bool_decide; [by subst|done]. Qed.

