(* ===== verification/Kyber.v ===== *)
(** * The interface of the group library

    The encryption code of [src/bte/btd-impl-main] works over a pairing suite
    of [go.dedis.ch/kyber], which is not part of the repository. [Suite] is
    the part of that interface the code calls, [SuiteLaws] what the library
    documents: a scalar field, groups that are modules over it, a bilinear
    pairing, and encodings that can be read back. [recover_law] says what
    [share.RecoverCommit] documents: interpolation of a shared secret in the
    exponent. Every theorem about the encryption is proved against this
    interface; [BteDemo.QcSuite] is a concrete suite that satisfies it. *)

From S2P Require Import Prelude GoStrings.
From Stdlib Require Import Field.

Record Group (F : Type) := mkGroup {
  Point : Type;
  Null : Point;
  Base : Point;
  Add : Point -> Point -> Point;
  Sub : Point -> Point -> Point;
  Mul : F -> Point -> Point;
  Equal : Point -> Point -> bool;
  MarshalPoint : Point -> out bytes;
  UnmarshalPoint : bytes -> out Point
}.
Arguments Point {F} g.
Arguments Null {F g}.
Arguments Base {F g}.
Arguments Add {F g} P Q : rename.
Arguments Sub {F g} P Q : rename.
Arguments Mul {F g} s P : rename.
Arguments Equal {F g} P Q : rename.
Arguments MarshalPoint {F g} P : rename.
Arguments UnmarshalPoint {F} g data : rename.

Class Suite := {
  Scalar : Type;
  sZero : Scalar;
  sOne : Scalar;
  sAdd : Scalar -> Scalar -> Scalar;
  sMul : Scalar -> Scalar -> Scalar;
  sSub : Scalar -> Scalar -> Scalar;
  sNeg : Scalar -> Scalar;
  sDiv : Scalar -> Scalar -> Scalar;
  sInv : Scalar -> Scalar;
  SetBytes : bytes -> Scalar;
  MarshalScalar : Scalar -> out bytes;
  UnmarshalScalar : bytes -> out Scalar;
  G1 : Group Scalar;
  G2 : Group Scalar;
  GT : Group Scalar;
  Pair : Point G1 -> Point G2 -> Point GT
}.

Class GroupLaws {F : Type} (zero one : F) (add mul : F -> F -> F) (neg : F -> F) (G : Group F) : Prop := {
  add_comm : forall P Q : Point G, Add P Q = Add Q P;
  add_assoc : forall P Q R : Point G, Add P (Add Q R) = Add (Add P Q) R;
  add_null : forall P : Point G, Add Null P = P;
  sub_neg : forall P Q : Point G, Sub P Q = Add P (Mul (neg one) Q);
  mul_zero : forall P : Point G, Mul zero P = Null;
  mul_one : forall P : Point G, Mul one P = P;
  mul_add : forall s t (P : Point G), Mul (add s t) P = Add (Mul s P) (Mul t P);
  mul_Add : forall s (P Q : Point G), Mul s (Add P Q) = Add (Mul s P) (Mul s Q);
  mul_mul : forall s t (P : Point G), Mul s (Mul t P) = Mul (mul s t) P;
  equal_refl : forall P : Point G, Equal P P = true
}.

Abbreviation suite_laws G := (GroupLaws sZero sOne sAdd sMul sNeg G).

Class SuiteLaws `{Suite} : Prop := {
  scalar_field : field_theory sZero sOne sAdd sMul sSub sNeg sDiv sInv eq;
  G1_laws :: suite_laws G1;
  G2_laws :: suite_laws G2;
  GT_laws :: suite_laws GT;
  pair_bilinear : forall s t (P : Point G1) (Q : Point G2),
    Pair (Mul s P) (Mul t Q) = Mul (sMul s t) (Pair P Q)
}.

(** Encodings that the library can read back, below the length limits of the
    code that frames them. *)
Class GroupEncoding {F : Type} (G : Group F) (limit : Z) : Prop := {
  marshal_ok : forall P : Point G, exists data,
    MarshalPoint P = Ok data /\ UnmarshalPoint G data = Ok P /\ zlen data <= limit
}.

(** ** Shamir sharing (package [share]) *)

Record PriShare `{Suite} := mkPriShare {
  pri_I : Z;
  pri_V : Scalar
}.

Record PubShare `{Suite} := mkPubShare {
  pub_I : Z;
  pub_V : Point G1
}.

Arguments mkPriShare {_}.
Arguments pri_I {_}.
Arguments pri_V {_}.
Arguments mkPubShare {_}.
Arguments pub_I {_}.
Arguments pub_V {_}.

(** A polynomial by its coefficients, constant term first. *)
Fixpoint polyEval `{Suite} (coeffs : list Scalar) (x : Scalar) : Scalar :=
  match coeffs with
  | [] => sZero
  | c :: rest => sAdd c (sMul x (polyEval rest x))
  end.

(** The [i]-th participant holds the value at [i + 1]. *)
Fixpoint sOfNat `{Suite} (n : nat) : Scalar :=
  match n with
  | O => sZero
  | S n' => sAdd sOne (sOfNat n')
  end.

Definition shareOf `{Suite} (coeffs : list Scalar) (i : Z) : PriShare :=
  mkPriShare i (polyEval coeffs (sOfNat (S (Z.to_nat i)))).

(** [RecoverCommit(g, shares, t, n)] on [k] shares of a polynomial of degree
    below [k], taken at different participants, returns the commitment to its
    constant term. *)
Definition recover_law `{Suite} (RecoverCommit : list PubShare -> Z -> Z -> out (Point G1))
    (t n : Z) (k : nat) : Prop :=
  forall coeffs B ids,
    length coeffs = k -> length ids = k -> NoDup ids -> Forall (fun i => 0 <= i) ids ->
    RecoverCommit (map (fun i => mkPubShare i (Mul (pri_V (shareOf coeffs i)) B)) ids) t n =
    Ok (Mul (polyEval coeffs sZero) B).

(** ** Lemmas on modules *)

Section Module_laws.
Context `{SL : SuiteLaws} (G : Group Scalar) `{GL : !suite_laws G}.

Add Field scalars : scalar_field.

Lemma add_null_r (P : Point G) : Add P Null = P.
Proof. by rewrite add_comm, add_null. Qed.

Lemma one_mul (s : Scalar) : sMul sOne s = s.
Proof. ring. Qed.

Lemma sub_self_mul s (P Q : Point G) : Sub (Add P (Mul s Q)) (Mul s Q) = P.
Proof.
  rewrite sub_neg, mul_mul, <- add_assoc, <- mul_add.
  replace (sAdd s (sMul (sNeg sOne) s)) with sZero by ring.
  by rewrite mul_zero, add_null_r.
Qed.

(** A list of points summed from the left, as the loops of the code do. *)
Definition sumPoints (ps : list (Point G)) : Point G := fold_left Add ps Null.

Definition sumScalars (ss : list Scalar) : Scalar := fold_left sAdd ss sZero.

Lemma fold_mul_gen ss (s : Scalar) (P : Point G) :
  fold_left Add (map (fun x => Mul x P) ss) (Mul s P) = Mul (fold_left sAdd ss s) P.
Proof. revert s. induction ss as [|x ss IH]; intros s; cbn; [done|]. by rewrite <- mul_add, IH. Qed.

Lemma sumPoints_mul ss (P : Point G) :
  sumPoints (map (fun x => Mul x P) ss) = Mul (sumScalars ss) P.
Proof. unfold sumPoints, sumScalars. by rewrite <- (mul_zero P), fold_mul_gen. Qed.

Lemma fold_add_shift ss s t : fold_left sAdd ss (sAdd s t) = sAdd s (fold_left sAdd ss t).
Proof.
  revert t. induction ss as [|x ss IH]; intros t; cbn; [done|].
  rewrite <- IH. f_equal. ring.
Qed.

Lemma sumScalars_cons s ss : sumScalars (s :: ss) = sAdd s (sumScalars ss).
Proof. unfold sumScalars. cbn. rewrite <- fold_add_shift. f_equal. ring. Qed.

Lemma sumScalars_mul_r t ss : sumScalars (map (fun s => sMul s t) ss) = sMul (sumScalars ss) t.
Proof.
  induction ss as [|s ss IH]; cbn [map]; [unfold sumScalars; cbn; ring|].
  rewrite !sumScalars_cons, IH. ring.
Qed.
End Module_laws.
