(* ===== verification/Prf.v ===== *)
(** * The puncturable PRF and its public parameters

    [src/bte/btd-impl-main/prf/prf.go]. The scalars the setup samples are
    arguments; the group library is the interface of [Kyber]. The setup keeps
    [xi], [zi] (the trapdoors), the public points derived from them and the
    table of cross points [(z_i / x_j) G2]. *)

From S2P Require Import Prelude GoStrings Sha256 Kyber.

Definition publicCRSMagic : bytes := str "BLOCPRF" ++ [0].
Definition publicCRSVersion : Z := 1.
Definition maxCRSPointBytes : Z := 2 ^ 20.

(** The number of goroutines of the parallel setup. *)
Definition PAR : Z := 16.

Section PRF.
Context `{Suite}.

Record PRF := mkPRF {
  xi : list Scalar;
  zi : list Scalar;
  g2zi : list (Point G2);
  gTzi : list (Point GT);
  G1xi : list (Point G1);
  g2zixj : gmap (Z * Z) (Point G2);
  prf_B : Z
}.

Definition GTBase : Point GT := Pair Base Base.

(** The entry of the cross table at row [i], column [j]. *)
Definition crossPoint (xs zs : list Scalar) (ij : Z * Z) : Point G2 :=
  Mul (sDiv (nth (Z.to_nat ij.1) zs sZero) (nth (Z.to_nat ij.2) xs sZero)) Base.

Definition rowMajor (start stop B : Z) : list (Z * Z) :=
  concat (map (fun i => map (fun j => (i, j)) (seqZ 0 B)) (seqZ start (stop - start))).

Definition insertAll (f : Z * Z -> Point G2) (keys : list (Z * Z)) (m : gmap (Z * Z) (Point G2))
  : gmap (Z * Z) (Point G2) :=
  fold_left (fun m k => <[k := f k]> m) keys m.

(** The buffers of the goroutines, in order; the last one takes the remainder
  of the division. *)
Definition parallelKeys (B : Z) : list (Z * Z) :=
  concat (map (fun p =>
    rowMajor (p * (B / PAR)) (if p =? PAR - 1 then B else (p + 1) * (B / PAR)) B) (seqZ 0 PAR)).

(** [xs] and [zs] are the scalars picked for [xi] and [zi]. *)
Definition PRFSetup (B : Z) (parallel : bool) (xs zs : list Scalar) : PRF :=
  mkPRF xs zs
    (map (fun z => Mul z Base) zs)
    (map (fun z => Mul z GTBase) zs)
    (map (fun x => Mul x Base) xs)
    (insertAll (crossPoint xs zs) (if parallel then parallelKeys B else rowMajor 0 B B) ∅)
    B.

Definition scalarFromSeed (seed domain : bytes) (i : Z) : Scalar :=
  SetBytes (Sum256 (str "bte-prf-seed-v1" ++ seed ++ domain ++ bigEndian 8 (u64 i))).

Definition PRFSetupFromSeed (B : Z) (seed : bytes) : PRF :=
  PRFSetup B false (map (scalarFromSeed seed (str "xi")) (seqZ 0 B))
                   (map (scalarFromSeed seed (str "zi")) (seqZ 0 B)).

(** ** Serialization of the public part *)

Definition writeCRSBytes (buf encoded : bytes) : out bytes :=
  if maxCRSPointBytes <? zlen encoded then Err "public CRS field is too large"
  else Ok (buf ++ bigEndian 4 (u32 (zlen encoded)) ++ encoded).

Definition writeCRSPoint {G : Group Scalar} (buf : bytes) (point : Point G) : out bytes :=
  let? encoded := MarshalPoint point in writeCRSBytes buf encoded.

Definition MarshalPublicBinary (f : PRF) (suiteID : bytes) : out bytes :=
  if prf_B f <=? 0 then Err "invalid PRF setup"
  else
    let buf := publicCRSMagic ++ bigEndian 4 publicCRSVersion in
    let? buf := writeCRSBytes buf suiteID in
    let buf := buf ++ bigEndian 4 (u32 (prf_B f)) in
    let? buf := fold_out writeCRSPoint (G1xi f) buf in
    let? buf := fold_out writeCRSPoint (g2zi f) buf in
    fold_out (fun buf ij =>
      match g2zixj f !! ij with
      | None => Err "missing public CRS point"
      | Some point => writeCRSPoint buf point
      end) (rowMajor 0 (prf_B f) (prf_B f)) buf.

Definition readCRSBytes (reader : bytes) : out (bytes * bytes) :=
  let? (size, reader) := readUint 4 reader in
  if (maxCRSPointBytes <? size) || (zlen reader <? size) then Err "invalid public CRS field length"
  else readFull (Z.to_nat size) reader.

Definition readCRSPoint (G : Group Scalar) (reader : bytes) : out (Point G * bytes) :=
  let? (encoded, reader) := readCRSBytes reader in
  let? point := UnmarshalPoint G encoded in
  Ok (point, reader).

(** [n] points in a row. *)
Fixpoint readCRSPoints (G : Group Scalar) (n : nat) (reader : bytes) : out (list (Point G) * bytes) :=
  match n with
  | O => Ok ([], reader)
  | S n' =>
      let? (point, reader) := readCRSPoint G reader in
      let? (points, reader) := readCRSPoints G n' reader in
      Ok (point :: points, reader)
  end.

Fixpoint readCross (keys : list (Z * Z)) (m : gmap (Z * Z) (Point G2)) (reader : bytes)
  : out (gmap (Z * Z) (Point G2) * bytes) :=
  match keys with
  | [] => Ok (m, reader)
  | k :: keys' =>
      let? (point, reader) := readCRSPoint G2 reader in
      readCross keys' (<[k := point]> m) reader
  end.

Definition PRFSetupFromPublic (expectedSuiteID : bytes) (expectedB : Z) (encoded : bytes) : out PRF :=
  let? (magic, reader) := readFull (length publicCRSMagic) encoded in
  if negb (bool_decide (magic = publicCRSMagic)) then Err "invalid public CRS magic"
  else
    let? (version, reader) := readUint 4 reader in
    if negb (version =? publicCRSVersion) then Err "unsupported public CRS version"
    else
      let? (suiteID, reader) := readCRSBytes reader in
      if negb (bool_decide (suiteID = expectedSuiteID)) then Err "public CRS suite does not match"
      else
        let? (domain, reader) := readUint 4 reader in
        if (expectedB <=? 0) || (2 ^ 32 - 1 <? expectedB) || negb (domain =? u32 expectedB) then
          Err "public CRS domain does not match"
        else
          let? (g1s, reader) := readCRSPoints G1 (Z.to_nat expectedB) reader in
          let? (g2s, reader) := readCRSPoints G2 (Z.to_nat expectedB) reader in
          let? (cross, reader) := readCross (rowMajor 0 expectedB expectedB) ∅ reader in
          if 0 <? zlen reader then Err "trailing public CRS bytes"
          else Ok (mkPRF [] [] g2s (map (fun p => Pair Base p) g2s) g1s cross expectedB).

(** ** Evaluation *)

Definition inDomain (f : PRF) (i : Z) : bool := (0 <=? i) && (i <? prf_B f).

Definition SumKeys (k : list Scalar) : Scalar := fold_left sAdd k sZero.

Definition Puncture (f : PRF) (k : Scalar) (i : Z) : out (Point G1) :=
  if negb (inDomain f i) then Err "puncturing index out of domain"
  else let? g := at_index (G1xi f) i in Ok (Mul k g).

Definition prf_Eval (f : PRF) (k : Scalar) (i : Z) : out (Point GT) :=
  if negb (inDomain f i) then Err "evaluation index out of domain"
  else let? g := at_index (gTzi f) i in Ok (Mul k g).

(** A missing key of the Go map reads as a nil point, on which the pairing
  panics. *)
Definition PEval (f : PRF) (kp : Point G1) (pi i : Z) : out (Point GT) :=
  if negb (inDomain f i) then Err "punctured evaluation index out of domain"
  else if negb (inDomain f pi) then Err "punctured index out of domain for peval"
  else if pi =? i then Err "punctured index cannot be the same as the evaluation index"
  else
    match g2zixj f !! (i, pi) with
    | Some crselem => Ok (Pair kp crselem)
    | None => Crash
    end.

Definition ExpEval (f : PRF) (K : Point G1) (i : Z) : out (Point GT) :=
  if negb (inDomain f i) then Err "exponential evaluation index out of domain"
  else let? g := at_index (g2zi f) i in Ok (Pair K g).
End PRF.
Arguments mkPRF {_}.
Arguments xi {_}.
Arguments zi {_}.
Arguments g2zi {_}.
Arguments gTzi {_}.
Arguments G1xi {_}.
Arguments g2zixj {_}.
Arguments prf_B {_}.
