(* ===== verification/PrfLaws.v ===== *)
(** * The PRF: setup, serialization and evaluation

    The parallel setup computes the same table as the sequential one; the
    public parameters survive serialization; and the three ways of evaluating
    the PRF are related as the decryption of a batch needs. *)

From S2P Require Import Prelude GoStrings Sha256 Kyber Prf.
From Stdlib Require Import Field.

(** ** Key sets of the cross table *)

Lemma elem_rowMajor start stop B i j :
  (i, j) ∈ rowMajor start stop B <-> start <= i < stop /\ 0 <= j < B.
Proof.
  unfold rowMajor. rewrite list_elem_of_In, in_concat. split.
  - intros (l & Hl & Hin). apply in_map_iff in Hl as (i' & <- & Hi).
    apply in_map_iff in Hin as (j' & [= -> ->] & Hj).
    apply list_elem_of_In, elem_of_seqZ in Hi, Hj. lia.
  - intros [Hi Hj]. exists (map (fun j => (i, j)) (seqZ 0 B)). split.
    + apply in_map_iff. exists i. split; [done|]. apply list_elem_of_In, elem_of_seqZ. lia.
    + apply in_map_iff. exists j. split; [done|]. apply list_elem_of_In, elem_of_seqZ. lia.
Qed.

(** The goroutine whose range holds row [i]. *)
Lemma owner_of_row B i :
  0 <= i < B ->
  exists p, 0 <= p < PAR /\ p * (B / PAR) <= i < (if p =? PAR - 1 then B else (p + 1) * (B / PAR)).
Proof.
  intros Hi. unfold PAR. set (q := B / 16).
  assert (0 <= q) as Hq by (apply Z.div_pos; lia).
  destruct (Z.lt_ge_cases i (15 * q)) as [Hlt|Hge].
  - assert (0 < q) by lia. exists (i / q).
    assert (0 <= i / q < 15) as Hp.
    { split; [apply Z.div_pos; lia|]. apply Z.div_lt_upper_bound; lia. }
    replace (i / q =? 16 - 1) with false by lia.
    pose proof (Z.div_mod i q ltac:(lia)). pose proof (Z.mod_pos_bound i q ltac:(lia)).
    cbn match. split; [lia|]. split; nia.
  - exists 15. replace (15 =? 16 - 1) with true by done. cbn match. lia.
Qed.

Lemma elem_parallelKeys B i j :
  0 <= B -> (i, j) ∈ parallelKeys B <-> 0 <= i < B /\ 0 <= j < B.
Proof.
  intros HB. unfold parallelKeys. rewrite list_elem_of_In, in_concat. split.
  - intros (l & Hl & Hin). apply in_map_iff in Hl as (p & <- & Hp).
    apply list_elem_of_In, elem_of_seqZ in Hp. apply list_elem_of_In, elem_rowMajor in Hin as [Hi Hj].
    assert (0 <= B / PAR) by (apply Z.div_pos; unfold PAR; lia).
    split; [|done]. split; [nia|]. destruct (Z.eqb_spec p (PAR - 1)); [lia|].
    unfold PAR in *. assert (16 * (B / 16) <= B) by (apply Z.mul_div_le; lia). nia.
  - intros [Hi Hj]. destruct (owner_of_row B i Hi) as (p & Hp & Hr).
    eexists. split.
    + apply in_map_iff. exists p. split; [done|]. apply list_elem_of_In, elem_of_seqZ. lia.
    + apply list_elem_of_In, elem_rowMajor. done.
Qed.

Section Table.
Context `{Suite}.

Lemma insertAll_lookup f keys m k :
  insertAll f keys m !! k = if bool_decide (k ∈ keys) then Some (f k) else m !! k.
Proof.
  unfold insertAll. revert m. induction keys as [|k' keys IH]; intros m; cbn [fold_left].
  - by rewrite bool_decide_false by apply not_elem_of_nil.
  - rewrite IH. destruct (decide (k ∈ keys)) as [Hin|Hnot].
    + rewrite !bool_decide_true by (rewrite ?elem_of_cons; auto). done.
    + rewrite (bool_decide_false (k ∈ keys)) by done.
      destruct (decide (k' = k)) as [->|Hne].
      * rewrite lookup_insert_eq, bool_decide_true by (rewrite elem_of_cons; auto). done.
      * rewrite lookup_insert_ne, bool_decide_false by (rewrite ?elem_of_cons; naive_solver). done.
Qed.

(** Two key lists with the same members give the same table. *)
Lemma insertAll_same f keys keys' :
  (forall k, k ∈ keys <-> k ∈ keys') -> insertAll f keys ∅ = insertAll f keys' ∅.
Proof.
  intros Hk. apply map_eq. intros k. rewrite !insertAll_lookup, !lookup_empty.
  destruct (decide (k ∈ keys)) as [Hin|Hnot].
  - rewrite !bool_decide_true by (done || by apply Hk). done.
  - rewrite !bool_decide_false by (done || by rewrite <- Hk). done.
Qed.

(** The parallel setup, with its sixteen goroutines and their buffers
  merged in order, produces the setup of the sequential loops, for every
  domain size, also when it is smaller than or not a multiple of sixteen. *)
Lemma setup_parallel_sequential B xs zs :
  0 <= B -> PRFSetup B true xs zs = PRFSetup B false xs zs.
Proof.
  intros HB. unfold PRFSetup. f_equal. apply insertAll_same.
  intros [i j]. by rewrite elem_parallelKeys, elem_rowMajor.
Qed.

(** What the setup guarantees about its slices and its table. *)
Lemma setup_lookup B par xs zs i j :
  0 <= i < B -> 0 <= j < B ->
  g2zixj (PRFSetup B par xs zs) !! (i, j) = Some (crossPoint xs zs (i, j)).
Proof.
  intros Hi Hj. cbn [g2zixj PRFSetup]. rewrite insertAll_lookup, bool_decide_true; [done|].
  destruct par; [apply elem_parallelKeys|apply elem_rowMajor]; lia.
Qed.

End Table.

(** ** Evaluation *)

Section Evaluation.
Context `{SL : SuiteLaws}.
Add Field scalars : scalar_field.

Context (B : Z) (par : bool) (xs zs : list Scalar).
Hypothesis Hxs : zlen xs = B.
Hypothesis Hzs : zlen zs = B.
Hypothesis Hx0 : Forall (fun x => x <> sZero) xs.

Abbreviation setup := (PRFSetup B par xs zs).
Abbreviation z_ i := (nth (Z.to_nat i) zs sZero).
Abbreviation x_ i := (nth (Z.to_nat i) xs sZero).

Lemma inDomain_true i : 0 <= i < B -> inDomain setup i = true.
Proof. intros Hi. unfold inDomain. cbn [prf_B PRFSetup]. lia. Qed.

Lemma x_nonzero i : 0 <= i < B -> x_ i <> sZero.
Proof.
  intros Hi. rewrite Forall_forall in Hx0. apply Hx0.
  apply list_elem_of_In, nth_In. lia.
Qed.

Lemma Puncture_setup k i : 0 <= i < B -> Puncture setup k i = Ok (Mul k (Mul (x_ i) Base)).
Proof.
  intros Hi. unfold Puncture. rewrite inDomain_true by done. cbn [negb G1xi PRFSetup].
  by rewrite (at_index_map _ _ _ sZero) by lia.
Qed.

Lemma Eval_setup k i : 0 <= i < B -> prf_Eval setup k i = Ok (Mul (sMul k (z_ i)) GTBase).
Proof.
  intros Hi. unfold prf_Eval. rewrite inDomain_true by done. cbn [negb gTzi PRFSetup].
  rewrite (at_index_map _ _ _ sZero) by lia. cbn. by rewrite mul_mul.
Qed.

Lemma ExpEval_setup k i : 0 <= i < B -> ExpEval setup (Mul k Base) i = Ok (Mul (sMul k (z_ i)) GTBase).
Proof.
  intros Hi. unfold ExpEval. rewrite inDomain_true by done. cbn [negb g2zi PRFSetup].
  rewrite (at_index_map _ _ _ sZero) by lia. cbn. by rewrite pair_bilinear.
Qed.

(** A key punctured at [pi] still evaluates everywhere else. *)
Lemma PEval_setup k pi i :
  0 <= i < B -> 0 <= pi < B -> pi <> i ->
  PEval setup (Mul k (Mul (x_ pi) Base)) pi i = Ok (Mul (sMul k (z_ i)) GTBase).
Proof.
  intros Hi Hpi Hne. unfold PEval. rewrite !inDomain_true by done. cbn [negb].
  replace (pi =? i) with false by lia. rewrite setup_lookup by done.
  unfold crossPoint. cbn [fst snd]. rewrite mul_mul, pair_bilinear. f_equal. f_equal.
  pose proof (x_nonzero pi Hpi). by field.
Qed.

(** Puncturable evaluation: inside the domain the direct evaluation, the
  evaluation from the commitment to the key, and the evaluation from a key
  punctured at any other index agree; the punctured key does not evaluate at
  its own index, and nothing evaluates outside the domain. *)
Lemma prf_evaluations_agree k i :
  (0 <= i < B ->
   ExpEval setup (Mul k Base) i = prf_Eval setup k i /\
   forall pi kp, 0 <= pi < B -> Puncture setup k pi = Ok kp ->
     PEval setup kp pi i =
       if pi =? i then Err "punctured index cannot be the same as the evaluation index"
       else prf_Eval setup k i) /\
  (~ 0 <= i < B -> forall K kp pi,
     prf_Eval setup k i = Err "evaluation index out of domain" /\
     ExpEval setup K i = Err "exponential evaluation index out of domain" /\
     PEval setup kp pi i = Err "punctured evaluation index out of domain").
Proof.
  split.
  - intros Hi. rewrite Eval_setup, ExpEval_setup by done. split; [done|].
    intros pi kp Hpi. rewrite Puncture_setup by done. intros [= <-].
    destruct (Z.eqb_spec pi i) as [->|Hne]; [|by apply PEval_setup].
    unfold PEval. rewrite inDomain_true by done. cbn [negb]. by rewrite Z.eqb_refl.
  - intros Hi K kp pi.
    assert (inDomain setup i = false) as Hd by (unfold inDomain; cbn [prf_B PRFSetup]; lia).
    unfold prf_Eval, ExpEval, PEval. by rewrite Hd.
Qed.
End Evaluation.

(** ** Serialization *)

Section Serialization.
Context `{SL : SuiteLaws}.
Hypothesis G1_encoding : GroupEncoding G1 maxCRSPointBytes.
Hypothesis G2_encoding : GroupEncoding G2 maxCRSPointBytes.

Definition framed (data : bytes) : bytes := bigEndian 4 (zlen data) ++ data.

Lemma writeCRSBytes_ok buf data :
  zlen data <= maxCRSPointBytes -> writeCRSBytes buf data = Ok (buf ++ framed data).
Proof.
  intros Hl. unfold writeCRSBytes, framed. replace (maxCRSPointBytes <? zlen data) with false by lia.
  rewrite u32_small; [done|]. unfold maxCRSPointBytes in Hl. lia.
Qed.

Lemma readCRSBytes_framed data rest :
  zlen data <= maxCRSPointBytes -> readCRSBytes (framed data ++ rest) = Ok (data, rest).
Proof.
  intros Hl. unfold readCRSBytes, framed. rewrite <- app_assoc.
  unfold maxCRSPointBytes in *. rewrite readUint4_app by lia. cbn [out_bind].
  replace (2 ^ 20 <? zlen data) with false by lia. rewrite length_app.
  replace (Z.of_nat (length data + length rest) <? zlen data) with false by (symmetry; apply Z.ltb_ge; lia).
  cbn [orb]. rewrite Nat2Z.id. apply readFull_app.
Qed.

Lemma writeCRSPoint_read (G : Group Scalar) (GE : GroupEncoding G maxCRSPointBytes) (P : Point G) :
  exists body, (forall buf, writeCRSPoint buf P = Ok (buf ++ body)) /\
    forall rest, readCRSPoint G (body ++ rest) = Ok (P, rest).
Proof.
  destruct (marshal_ok P) as (data & Hm & Hu & Hl). exists (framed data). split.
  - intros buf. unfold writeCRSPoint. rewrite Hm. cbn. by apply writeCRSBytes_ok.
  - intros rest. unfold readCRSPoint. rewrite readCRSBytes_framed by done. cbn. by rewrite Hu.
Qed.

Lemma writeCRSPoints_read (G : Group Scalar) (GE : GroupEncoding G maxCRSPointBytes) (ps : list (Point G)) :
  exists body, (forall buf, fold_out writeCRSPoint ps buf = Ok (buf ++ body)) /\
    forall rest, readCRSPoints G (length ps) (body ++ rest) = Ok (ps, rest).
Proof.
  induction ps as [|P ps (body2 & Hw2 & Hr2)].
  - exists []. split; [intros buf; cbn; by rewrite app_nil_r|done].
  - destruct (writeCRSPoint_read G GE P) as (body1 & Hw1 & Hr1). exists (body1 ++ body2). split.
    + intros buf. cbn [fold_out]. rewrite Hw1. cbn. by rewrite Hw2, app_assoc.
    + intros rest. cbn [length readCRSPoints]. rewrite <- app_assoc, Hr1. cbn. by rewrite Hr2.
Qed.

Lemma writeCross_read (m : gmap (Z * Z) (Point G2)) g keys :
  (forall k, k ∈ keys -> m !! k = Some (g k)) ->
  exists body,
    (forall buf, fold_out (fun buf ij =>
       match m !! ij with
       | None => Err "missing public CRS point"
       | Some point => writeCRSPoint buf point
       end) keys buf = Ok (buf ++ body)) /\
    forall m0 rest, readCross keys m0 (body ++ rest) = Ok (insertAll g keys m0, rest).
Proof.
  induction keys as [|k keys IH]; intros Hk.
  - exists []. split; [intros buf; cbn; by rewrite app_nil_r|done].
  - destruct IH as (body2 & Hw2 & Hr2); [intros k' Hin; apply Hk; by right|].
    destruct (writeCRSPoint_read G2 G2_encoding (g k)) as (body1 & Hw1 & Hr1).
    exists (body1 ++ body2). split.
    + intros buf. cbn [fold_out]. rewrite (Hk k) by left. rewrite Hw1. cbn [out_bind].
      by rewrite Hw2, app_assoc.
    + intros m0 rest. cbn [readCross]. rewrite <- app_assoc, Hr1. cbn [out_bind]. by rewrite Hr2.
Qed.

(** The setup without its trapdoors. *)
Definition publicPart (f : PRF) : PRF :=
  mkPRF [] [] (g2zi f) (gTzi f) (G1xi f) (g2zixj f) (prf_B f).

(** Public parameters round trip: what the trusted setup serializes, with
  the same suite and domain expected on the other side, is read back as the
  setup without its secret scalars, the target-group table recomputed by the
  pairing included. *)
Lemma crs_roundtrip B par xs zs suiteID :
  0 < B < 2 ^ 32 -> zlen xs = B -> zlen zs = B -> zlen suiteID <= maxCRSPointBytes ->
  exists encoded,
    MarshalPublicBinary (PRFSetup B par xs zs) suiteID = Ok encoded /\
    PRFSetupFromPublic suiteID B encoded = Ok (publicPart (PRFSetup B par xs zs)).
Proof.
  intros HB Hxs Hzs Hs. set (f := PRFSetup B par xs zs).
  destruct (writeCRSPoints_read G1 G1_encoding (G1xi f)) as (b1 & Hw1 & Hr1).
  destruct (writeCRSPoints_read G2 G2_encoding (g2zi f)) as (b2 & Hw2 & Hr2).
  destruct (writeCross_read (g2zixj f) (crossPoint xs zs) (rowMajor 0 B B)) as (b3 & Hw3 & Hr3).
  { intros [i j] [Hi Hj]%elem_rowMajor. by apply setup_lookup. }
  exists (publicCRSMagic ++ bigEndian 4 publicCRSVersion ++ framed suiteID ++ bigEndian 4 B ++ b1 ++ b2 ++ b3).
  assert (u32 B = B) as HuB by (apply u32_small; lia).
  split.
  - unfold MarshalPublicBinary. change (prf_B f) with B. replace (B <=? 0) with false by lia.
    rewrite writeCRSBytes_ok by done. cbn [out_bind]. rewrite HuB, Hw1. cbn [out_bind].
    rewrite Hw2. cbn [out_bind]. rewrite Hw3. by rewrite <- !app_assoc.
  - unfold PRFSetupFromPublic. rewrite readFull_app. cbn [out_bind].
    rewrite bool_decide_true by done. cbn [negb].
    rewrite readUint4_app by (unfold publicCRSVersion; lia). cbn [out_bind].
    rewrite Z.eqb_refl. cbn [negb]. rewrite readCRSBytes_framed by done. cbn [out_bind].
    rewrite bool_decide_true by done. cbn [negb]. rewrite readUint4_app by lia. cbn [out_bind].
    rewrite HuB, Z.eqb_refl. replace ((B <=? 0) || (2 ^ 32 - 1 <? B)) with false by lia. cbn [orb negb].
    assert (Z.to_nat B = length (G1xi f)) as HB1 by (cbn [f G1xi PRFSetup]; unfold f; cbn; rewrite length_map; lia).
    assert (Z.to_nat B = length (g2zi f)) as HB2 by (unfold f; cbn; rewrite length_map; lia).
    rewrite HB1 at 1. rewrite Hr1. cbn [out_bind]. rewrite HB2 at 1. rewrite Hr2. cbn [out_bind].
    rewrite <- (app_nil_r b3), Hr3. cbn [out_bind length]. unfold publicPart. f_equal. f_equal.
    + unfold f. cbn. rewrite map_map. apply map_ext. intros z.
      rewrite <- (mul_one (G := G1) Base) at 1. rewrite pair_bilinear. unfold GTBase. f_equal. by apply one_mul.
    + unfold f. cbn [g2zixj PRFSetup]. apply insertAll_same. intros [i j]. rewrite elem_rowMajor.
      destruct par; [rewrite elem_parallelKeys by lia|rewrite elem_rowMajor]; done.
Qed.
End Serialization.
