(* ===== verification/Btd.v ===== *)
(** * Batched threshold encryption

    [src/bte/btd-impl-main/elgamal/elgamal.go] and [be/btd.go]: threshold
    ElGamal, and the encryption whose ciphertexts are decrypted in batches with
    one ElGamal decryption. The scalars the code picks at random are
    arguments; [share.RecoverCommit] and the suite's hash are parameters. In
    [BatchDecOpt] and [BatchCombineOpt] the floating-point expressions are
    computed on integers: for a number of ciphertexts below 2^40 the logarithm
    rounds up to [Z.log2_up], and halving is exact. *)

From S2P Require Import Prelude GoStrings Kyber Prf.

Section BTD.
Context `{Suite}.
Context (RecoverCommit : list PubShare -> Z -> Z -> out (Point G1)).
Context (Hash : bytes -> bytes).

(** ** elgamal.go *)

Record egCT := mkEgCT {
  eg_A : Point G1;
  eg_B : Point G1
}.

Record ElGamal := mkElGamal {
  PK : Point G1;
  Shares : list PriShare;
  eg_n : Z;
  eg_t : Z
}.

Definition NullEGct : egCT := mkEgCT Null Null.

Definition AddCT (a b : egCT) : egCT := mkEgCT (Add (eg_A a) (eg_A b)) (Add (eg_B a) (eg_B b)).

Definition eg_Sum (c : list egCT) : egCT := fold_left AddCT c NullEGct.

(** [coeffs] is the random polynomial of [share.NewPriPoly]; its constant term
  is the picked master key. *)
Definition eg_KeyGen (n t : Z) (coeffs : list Scalar) : ElGamal :=
  mkElGamal (Mul (polyEval coeffs sZero) Base) (map (shareOf coeffs) (seqZ 0 n)) n t.

(** [u] is the picked ephemeral key. *)
Definition eg_Enc (u : Scalar) (pk m : Point G1) : egCT := mkEgCT (Mul u Base) (Add (Mul u pk) m).

Definition PDecWithShare (c : egCT) (s : PriShare) : PubShare :=
  mkPubShare (pri_I s) (Mul (pri_V s) (eg_A c)).

Definition PDec (e : ElGamal) (c : egCT) (i : Z) : out PubShare :=
  let? s := at_index (Shares e) i in Ok (PDecWithShare c s).

Definition Combine (e : ElGamal) (c : egCT) (shares : list PubShare) : out (Point G1) :=
  let? shared := RecoverCommit shares (eg_t e) (eg_n e) in Ok (Sub (eg_B c) shared).

Definition eg_Dec (sk : Scalar) (c : egCT) : Point G1 := Sub (eg_B c) (Mul sk (eg_A c)).

(** ** btd.go *)

Record Proof_ := mkProof {
  Ap : Point G1;
  Bp : Point G1;
  Yp : Point G1;
  KHat : Scalar;
  UHat : Scalar
}.

Record CT := mkCT {
  ct_I : Z;
  Gamma : Point GT;
  Kp : Point G1;
  ct_C : egCT;
  Pi : Proof_
}.

Record BTD := mkBTD {
  btd_prf : PRF;
  btd_eg : ElGamal;
  btd_B : Z;
  btd_T : Z;
  btd_N : Z
}.

(** The challenge of the proof; it does not read [Pi]. *)
Definition SHash (b : BTD) (pk : Point G1) (i : Z) (gamma : Point GT) (kp : Point G1) (c : egCT)
    (ap bp yp : Point G1) : out Scalar :=
  let? pkBytes := MarshalPoint pk in
  let? g := at_index (G1xi (btd_prf b)) i in
  let? gBytes := MarshalPoint g in
  let? apBytes := MarshalPoint ap in
  let? bpBytes := MarshalPoint bp in
  let? ypBytes := MarshalPoint yp in
  let? gammaBytes := MarshalPoint gamma in
  let? kpBytes := MarshalPoint kp in
  let? aBytes := MarshalPoint (eg_A c) in
  let? bBytes := MarshalPoint (eg_B c) in
  Ok (SetBytes (Hash (str "bte-capsule-v2:B=" ++ decimal (btd_B b) ++ pkBytes ++ gBytes ++ apBytes ++
    bpBytes ++ ypBytes ++ decimal i ++ gammaBytes ++ kpBytes ++ aBytes ++ bBytes))).

Definition VerifyCT (b : BTD) (ct : CT) : out bool :=
  if (ct_I ct <? 0) || (btd_B b <=? ct_I ct) then Err "ciphertext index out of domain"
  else
    let pi := Pi ct in
    let pk := PK (btd_eg b) in
    let? h := SHash b pk (ct_I ct) (Gamma ct) (Kp ct) (ct_C ct) (Ap pi) (Bp pi) (Yp pi) in
    let al := Mul (UHat pi) Base in
    let ar := Add (Ap pi) (Mul h (eg_A (ct_C ct))) in
    if negb (Equal al ar) then Ok false
    else
      let bl := Add (Mul (UHat pi) pk) (Mul (KHat pi) Base) in
      let br := Add (Bp pi) (Mul h (eg_B (ct_C ct))) in
      if negb (Equal bl br) then Ok false
      else
        let? g := at_index (G1xi (btd_prf b)) (ct_I ct) in
        let yl := Mul (KHat pi) g in
        let yr := Add (Yp pi) (Mul h (Kp ct)) in
        if negb (Equal yl yr) then Ok false else Ok true.

Definition NewBTD (setup : PRF) (B : Z) : BTD := mkBTD setup (mkElGamal Null [] 0 0) B 0 0.

Definition NewBTDFromSeed (B : Z) (seed : bytes) : BTD := NewBTD (PRFSetupFromSeed B seed) B.

Definition NewBTDFromPublicCRS (suiteID : bytes) (B : Z) (encoded : bytes) : out BTD :=
  let? setup := PRFSetupFromPublic suiteID B encoded in Ok (NewBTD setup B).

Definition KeyGen (b : BTD) (n t : Z) (coeffs : list Scalar) : BTD :=
  mkBTD (btd_prf b) (eg_KeyGen n t coeffs) (btd_B b) t n.

(** The values [Enc] picks: PRF key, ElGamal key, and the two nonces of the
  proof. *)
Record coins := mkCoins {
  r_k : Scalar;
  r_u : Scalar;
  r_uN : Scalar;
  r_kN : Scalar
}.

Definition Enc (b : BTD) (r : coins) (pk : Point G1) (i : Z) (m : Point GT) : out CT :=
  let k := r_k r in
  let? kp := Puncture (btd_prf b) k i in
  let K := Mul k Base in
  let egct := eg_Enc (r_u r) pk K in
  let? pad := prf_Eval (btd_prf b) k i in
  let gamma := Add pad m in
  let ap := Mul (r_uN r) Base in
  let bp := Add (Mul (r_uN r) (PK (btd_eg b))) (Mul (r_kN r) Base) in
  let? g := at_index (G1xi (btd_prf b)) i in
  let yp := Mul (r_kN r) g in
  let? h := SHash b pk i gamma kp egct ap bp yp in
  let uHat := sAdd (r_uN r) (sMul (r_u r) h) in
  let kHat := sAdd (r_kN r) (sMul k h) in
  Ok (mkCT i gamma kp egct (mkProof ap bp yp kHat uHat)).

(** The map [seen] of the loop is its set of keys. *)
Fixpoint distinctFrom (seen : list Z) (indices : list Z) : bool :=
  match indices with
  | [] => true
  | i :: rest => if bool_decide (i ∈ seen) then false else distinctFrom (i :: seen) rest
  end.

Definition validateDistinctIndices (cts : list CT) : out unit :=
  if distinctFrom [] (map ct_I cts) then Ok tt else Err "duplicate ciphertext index in batch".

Definition SumEGCt (b : BTD) (cts : list CT) (verify : bool) : out egCT :=
  fold_out (fun sum ct =>
    if verify then
      let? ok := VerifyCT b ct in
      if negb ok then Err "proof failed" else Ok (AddCT sum (ct_C ct))
    else Ok (AddCT sum (ct_C ct))) cts NullEGct.

Definition BatchDecWithShare (b : BTD) (cts : list CT) (sk : PriShare) (verify : bool) : out PubShare :=
  if btd_B b <? zlen cts then Err "too many ciphertexts for the given crs"
  else
    let? _ := validateDistinctIndices cts in
    let? C := SumEGCt b cts verify in
    Ok (PDecWithShare C sk).

Definition BatchDec (b : BTD) (cts : list CT) (i : Z) (verify : bool) : out PubShare :=
  if btd_B b <? zlen cts then Err "too many ciphertexts for the given crs"
  else
    let? _ := validateDistinctIndices cts in
    let? C := SumEGCt b cts verify in
    PDec (btd_eg b) C i.

(** The inner loop: the punctured evaluations of all other ciphertexts, with
  the running count of pairings. *)
Definition sumOthers (b : BTD) (cts : list CT) (i : Z) (count : Z) : out (Point GT * Z) :=
  fold_out (fun st ctj =>
    let '(sum, count) := st in
    if ct_I ctj =? i then Ok (sum, count)
    else
      let? peval := PEval (btd_prf b) (Kp ctj) (ct_I ctj) i in
      Ok (Add sum peval, count + 1)) cts (Null, count).

Definition BatchCombineMessages (b : BTD) (cts : list CT) (d : list PubShare) (verify : bool)
  : out (list (Point GT) * Z) :=
  if btd_B b <? zlen cts then Err "too many ciphertexts for the given crs"
  else
    let? _ := validateDistinctIndices cts in
    let? C := SumEGCt b cts verify in
    let? K := Combine (btd_eg b) C d in
    fold_out (fun st ct =>
      let '(msgs, count) := st in
      let? prfKi := ExpEval (btd_prf b) K (ct_I ct) in
      let? (sum, count) := sumOthers b cts (ct_I ct) (count + 1) in
      Ok (msgs ++ [Sub (Add (Gamma ct) sum) prfKi], count)) cts ([], 0).

Definition BatchCombine (b : BTD) (cts : list CT) (d : list PubShare) (verify : bool) : out Z :=
  let? (_, count) := BatchCombineMessages b cts d verify in Ok count.
(** ** The optimised decryption

    One share for the whole batch and one for each of its suffixes that leave
    out a half, three quarters, and so on: a ciphertext is then decrypted with
    the key of the block it is in, the keys of the following ciphertexts
    replaced by the key of the next suffix. *)

(** [int(math.Ceil(math.Log2(float64(L))))]; the logarithm of 0 is negative
    infinity, and making a slice of that length panics. *)
Definition lgOf (L : Z) : out Z := if L =? 0 then Crash else Ok (Z.log2_up L).

(** [int(math.Floor(float64(L) * (x - 1.0) / x))] for [x := math.Pow(2, l)] *)
Definition suffixStart (L l : Z) : Z := L * (2 ^ l - 1) / 2 ^ l.

Definition verifyAll (b : BTD) (cts : list CT) : out unit :=
  fold_out (fun _ ct =>
    let? ok := VerifyCT b ct in
    if negb ok then Err "proof failed" else Ok tt) cts tt.

Definition BatchDecOpt (b : BTD) (cts : list CT) (i : Z) (verify : bool) : out (list PubShare) :=
  let L := zlen cts in
  if btd_B b <? L then Err "too many ciphertexts for the given crs"
  else
    let? _ := if verify then verifyAll b cts else Ok tt in
    let? lgL := lgOf L in
    map_out (fun l => BatchDec b (drop (Z.to_nat (suffixStart L l)) cts) i false) (seqZ 0 lgL).

(** The keys of the suffixes, [ShareKs] holding one list per participant. *)
Definition suffixKeys (b : BTD) (cts : list CT) (ShareKs : list (list PubShare)) (verify : bool) (lgL : Z)
  : out (list (Point G1)) :=
  map_out (fun l =>
    let? shares := map_out (fun s => at_index s l) ShareKs in
    let? C := SumEGCt b (drop (Z.to_nat (suffixStart (zlen cts) l)) cts) verify in
    Combine (btd_eg b) C shares) (seqZ 0 lgL).

(** The ciphertexts before the current one, in its block. *)
Definition sumBefore (b : BTD) (cts : list CT) (i : Z) (sum : Point GT) (count : Z)
  : out (Point GT * Z) :=
  fold_out (fun st ctj =>
    let '(sum, count) := st in
    let? peval := PEval (btd_prf b) (Kp ctj) (ct_I ctj) i in
    Ok (Add sum peval, count + 1)) cts (sum, count).

(** The ciphertexts after it, from position [j], up to the next suffix. *)
Fixpoint sumAfter (b : BTD) (Ks : list (Point G1)) (KsIdx nextStart i : Z) (cts : list CT) (j : Z)
    (sum : Point GT) (count : Z) : out (Point GT * Z) :=
  match cts with
  | [] => Ok (sum, count)
  | ctj :: rest =>
      if (KsIdx <? zlen Ks) && (j =? nextStart) then
        let? K := at_index Ks KsIdx in
        let? eval := ExpEval (btd_prf b) K i in
        Ok (Add sum eval, count + 1)
      else
        let? eval := PEval (btd_prf b) (Kp ctj) (ct_I ctj) i in
        sumAfter b Ks KsIdx nextStart i rest (j + 1) (Add sum eval) (count + 1)
  end.

(** The loop's variables, and the messages it computes and drops. *)
Record optState := mkOptState {
  o_KsIdx : Z;
  o_oldStart : Z;
  o_msgs : list (Point GT);
  o_count : Z
}.

Definition optStep (b : BTD) (cts : list CT) (Ks : list (Point G1)) (st : optState) (p : Z * CT)
  : out optState :=
  let '(idx, ct) := p in
  let L := zlen cts in
  let count := o_count st + 1 in
  let nextStart := suffixStart L (o_KsIdx st) in
  let '(KsIdx, oldStart, nextStart) :=
    if (nextStart <=? idx) && (o_KsIdx st + 1 <? zlen Ks)
    then (o_KsIdx st + 1, nextStart, suffixStart L (o_KsIdx st + 1))
    else (o_KsIdx st, o_oldStart st, nextStart) in
  let? K := at_index Ks (KsIdx - 1) in
  let? prfKi := ExpEval (btd_prf b) K (ct_I ct) in
  let? (sum, count) :=
    if oldStart <? idx
    then sumBefore b (take (Z.to_nat (idx - oldStart)) (drop (Z.to_nat oldStart) cts)) (ct_I ct) Null count
    else Ok (Null, count) in
  let? (sum, count) :=
    sumAfter b Ks KsIdx nextStart (ct_I ct) (drop (Z.to_nat (idx + 1)) cts) (idx + 1) sum count in
  Ok (mkOptState KsIdx oldStart (o_msgs st ++ [Sub (Add (Gamma ct) sum) prfKi]) count).

Definition optLoop (b : BTD) (cts : list CT) (ShareKs : list (list PubShare)) (verify : bool)
  : out optState :=
  let L := zlen cts in
  if btd_B b <? L then Err "too many ciphertexts for the given crs"
  else
    let? lgL := lgOf L in
    let? Ks := suffixKeys b cts ShareKs verify lgL in
    fold_out (optStep b cts Ks) (zip (seqZ 0 L) cts) (mkOptState 1 0 [] 0).

Definition BatchCombineOpt (b : BTD) (cts : list CT) (ShareKs : list (list PubShare)) (verify : bool)
  : out Z :=
  let? st := optLoop b cts ShareKs verify in Ok (o_count st).
End BTD.
Arguments mkEgCT {_}.
Arguments eg_A {_}.
Arguments eg_B {_}.
Arguments mkElGamal {_}.
Arguments PK {_}.
Arguments Shares {_}.
Arguments eg_n {_}.
Arguments eg_t {_}.
Arguments mkProof {_}.
Arguments Ap {_}.
Arguments Bp {_}.
Arguments Yp {_}.
Arguments KHat {_}.
Arguments UHat {_}.
Arguments mkCT {_}.
Arguments ct_I {_}.
Arguments Gamma {_}.
Arguments Kp {_}.
Arguments ct_C {_}.
Arguments Pi {_}.
Arguments mkBTD {_}.
Arguments btd_prf {_}.
Arguments btd_eg {_}.
Arguments btd_B {_}.
Arguments btd_T {_}.
Arguments btd_N {_}.
Arguments mkCoins {_}.
Arguments r_k {_}.
Arguments r_u {_}.
Arguments r_uN {_}.
Arguments r_kN {_}.
Arguments mkOptState {_}.
Arguments o_KsIdx {_}.
Arguments o_oldStart {_}.
Arguments o_msgs {_}.
Arguments o_count {_}.
