(* ===== verification/BtdLaws.v ===== *)
(** * Batched threshold encryption: correctness

    An honest ciphertext passes its proof check, and a batch of honest
    ciphertexts with different indices is decrypted to the encrypted messages
    by any threshold of honest shares. The optimised decryption computes the
    same messages: what a block adds for the ciphertexts before and after the
    current one is the sum of their keys, wherever its loop stops. *)

From S2P Require Import Prelude Order GoStrings Kyber Prf PrfLaws Btd.
From Stdlib Require Import Field.

(** ** Distinct indices *)

Lemma distinctFrom_spec seen l :
  distinctFrom seen l = true <-> NoDup l /\ forall x, x ∈ l -> x ∉ seen.
Proof.
  revert seen. induction l as [|i l IH]; intros seen; cbn [distinctFrom].
  - split; [intros _; split; [constructor|]; intros x Hx; by apply elem_of_nil in Hx|done].
  - case_bool_decide as Hi.
    + split; [done|]. intros [_ H]. destruct (H i); [by left|done].
    + rewrite IH, NoDup_cons. split.
      * intros [Hnd H]. split_and!; [|done|].
        -- intros Hin. apply (H i Hin). by left.
        -- intros x [->|Hx]%elem_of_cons; [done|]. intros Hs. apply (H x Hx). by right.
      * intros [[Hni Hnd] H]. split; [done|]. intros x Hx [->|Hs]%elem_of_cons; [done|].
        apply (H x); [by right|done].
Qed.

(** Different numbers in [0, B) are at most [B]. *)
Lemma NoDup_range_length (l : list Z) B :
  NoDup l -> Forall (fun i => 0 <= i < B) l -> zlen l <= Z.max 0 B.
Proof.
  intros Hnd Hr. rewrite Forall_forall in Hr.
  assert (l ⊆+ seqZ 0 B) as Hsub.
  { apply NoDup_submseteq; [done|]. intros x Hx. apply elem_of_seqZ. specialize (Hr x Hx). lia. }
  apply submseteq_length in Hsub. rewrite length_seqZ in Hsub. lia.
Qed.

Section Correctness.
Context `{SL : SuiteLaws}.
Context (RecoverCommit : list PubShare -> Z -> Z -> out (Point G1)) (Hash : bytes -> bytes).
Context (limit1 limitT : Z).
Hypothesis G1_encoding : GroupEncoding G1 limit1.
Hypothesis GT_encoding : GroupEncoding GT limitT.

Add Field scalars : scalar_field.

(** The public parameters come from the trusted setup; the key is the
  commitment to a shared polynomial. *)
Context (B : Z) (par : bool) (xs zs : list Scalar) (coeffs : list Scalar) (b : BTD).
Hypothesis Hxs : zlen xs = B.
Hypothesis Hzs : zlen zs = B.
Hypothesis Hx0 : Forall (fun x => x <> sZero) xs.
Hypothesis Hprf : btd_prf b = PRFSetup B par xs zs.
Hypothesis HB : btd_B b = B.
Hypothesis Hpk : PK (btd_eg b) = Mul (polyEval coeffs sZero) Base.

Abbreviation z_ i := (nth (Z.to_nat i) zs sZero).
Abbreviation x_ i := (nth (Z.to_nat i) xs sZero).
Abbreviation pk := (PK (btd_eg b)).

Lemma SHash_ok i gamma kp c ap bp yp :
  0 <= i < B -> exists h, SHash Hash b pk i gamma kp c ap bp yp = Ok h.
Proof.
  intros Hi. unfold SHash.
  assert (forall P : Point G1, exists data, MarshalPoint P = Ok data) as H1.
  { intros P. destruct (marshal_ok P) as (d & Hd & _). eauto. }
  assert (exists data, MarshalPoint gamma = Ok data) as [dg ->].
  { destruct (marshal_ok gamma) as (d & Hd & _). eauto. }
  rewrite Hprf. cbn [G1xi PRFSetup]. rewrite (at_index_map _ _ _ sZero) by lia.
  repeat match goal with
    | |- context [out_bind (MarshalPoint ?P) _] => destruct (H1 P) as [? ->]; cbn [out_bind]
    | |- context [out_bind (Ok _) _] => cbn [out_bind]
    end.
  eexists. reflexivity.
Qed.

Lemma add_swap {G} `{GL : !suite_laws G} (P Q R T : Point G) :
  Add (Add P Q) (Add R T) = Add (Add P R) (Add Q T).
Proof. rewrite <- !add_assoc. f_equal. by rewrite !add_assoc, (add_comm Q R). Qed.

(** One equation of the proof: response against nonce plus challenge times
  secret. *)
Lemma response {G} `{GL : !suite_laws G} n s h (P : Point G) :
  Mul (sAdd n (sMul s h)) P = Add (Mul n P) (Mul h (Mul s P)).
Proof. rewrite mul_add, mul_mul. do 2 f_equal. ring. Qed.

(** What an honest ciphertext holds. *)
Record honest (r : coins) (i : Z) (m : Point GT) (ct : CT) : Prop := {
  honest_index : ct_I ct = i;
  honest_gamma : Gamma ct = Add (Mul (sMul (r_k r) (z_ i)) GTBase) m;
  honest_key : Kp ct = Mul (r_k r) (Mul (x_ i) Base);
  honest_eg : ct_C ct = mkEgCT (Mul (r_u r) Base) (Add (Mul (r_u r) pk) (Mul (r_k r) Base));
  honest_verifies : VerifyCT Hash b ct = Ok true
}.

Lemma Enc_honest r i m :
  0 <= i < B -> exists ct, Enc Hash b r pk i m = Ok ct /\ honest r i m ct.
Proof.
  intros Hi. unfold Enc. rewrite Hprf.
  rewrite Puncture_setup, Eval_setup by done. cbn [out_bind].
  cbn [G1xi PRFSetup]. rewrite (at_index_map _ _ _ sZero) by lia. cbn [out_bind].
  destruct (SHash_ok i (Add (Mul (sMul (r_k r) (z_ i)) GTBase) m) (Mul (r_k r) (Mul (x_ i) Base))
    (eg_Enc (r_u r) pk (Mul (r_k r) Base)) (Mul (r_uN r) Base)
    (Add (Mul (r_uN r) pk) (Mul (r_kN r) Base)) (Mul (r_kN r) (Mul (x_ i) Base)) Hi) as [h Hh].
  rewrite Hh. cbn [out_bind]. eexists. split; [reflexivity|].
  split; [done..|]. unfold VerifyCT. cbn [ct_I Gamma Kp ct_C Pi Ap Bp Yp KHat UHat].
  rewrite HB. replace ((i <? 0) || (B <=? i)) with false by lia. rewrite Hh. cbn [out_bind].
  unfold eg_Enc. cbn [eg_A eg_B].
  rewrite response, equal_refl. cbn [negb].
  rewrite !response, mul_Add, add_swap, equal_refl. cbn [negb].
  rewrite Hprf. cbn [G1xi PRFSetup]. rewrite (at_index_map _ _ _ sZero) by lia. cbn [out_bind].
  by rewrite response, equal_refl.
Qed.

(** Completeness of the ciphertext proof: what [Enc] produces under the
  cluster's key, for any index of the domain, is accepted by [VerifyCT]. *)
Lemma encryption_verifies r i m :
  0 <= i < B -> exists ct, Enc Hash b r pk i m = Ok ct /\ VerifyCT Hash b ct = Ok true.
Proof.
  intros Hi. destruct (Enc_honest r i m Hi) as (ct & He & Hh). eauto using honest_verifies.
Qed.

(** ** A batch *)

Record plain := mkPlain {
  p_index : Z;
  p_msg : Point GT;
  p_coins : coins
}.

Definition isHonest (p : plain) (ct : CT) : Prop := honest (p_coins p) (p_index p) (p_msg p) ct.

Definition keySum (ps : list plain) : Scalar := sumScalars (map (fun p => r_k (p_coins p)) ps).
Definition uSum (ps : list plain) : Scalar := sumScalars (map (fun p => r_u (p_coins p)) ps).

Lemma honest_indices ps cts : Forall2 isHonest ps cts -> map ct_I cts = map p_index ps.
Proof. induction 1 as [|p ct ps cts Hh _ IH]; cbn; [done|]. f_equal; [apply Hh|done]. Qed.

Lemma sAdd_assoc (s t r : Scalar) : sAdd (sAdd s t) r = sAdd s (sAdd t r).
Proof. ring. Qed.

Lemma sAdd_zero (s : Scalar) : sAdd sZero s = s.
Proof. ring. Qed.

Lemma add_none (s : Scalar) : sAdd s (sumScalars []) = s.
Proof. unfold sumScalars. cbn. ring. Qed.

Lemma SumEGCt_gen ps cts s t :
  Forall2 isHonest ps cts ->
  fold_out (fun sum ct =>
    let? ok := VerifyCT Hash b ct in
    if negb ok then Err "proof failed" else Ok (AddCT sum (ct_C ct))) cts
    (mkEgCT (Mul s Base) (Add (Mul s pk) (Mul t Base))) =
  Ok (mkEgCT (Mul (sAdd s (uSum ps)) Base)
             (Add (Mul (sAdd s (uSum ps)) pk) (Mul (sAdd t (keySum ps)) Base))).
Proof.
  intros Hall. revert s t. unfold uSum, keySum.
  induction Hall as [|p ct ps cts Hh _ IH]; intros s t; cbn [fold_out map].
  - by rewrite !add_none.
  - rewrite (honest_verifies _ _ _ _ Hh), (honest_eg _ _ _ _ Hh). cbn [out_bind negb].
    unfold AddCT. cbn [eg_A eg_B]. rewrite add_swap, <- !mul_add, IH, !sumScalars_cons. by rewrite !sAdd_assoc.
Qed.

Lemma SumEGCt_honest ps cts :
  Forall2 isHonest ps cts ->
  SumEGCt Hash b cts true =
  Ok (mkEgCT (Mul (uSum ps) Base) (Add (Mul (uSum ps) pk) (Mul (keySum ps) Base))).
Proof.
  intros Hall. unfold SumEGCt, NullEGct.
  replace (mkEgCT Null Null) with (mkEgCT (Mul sZero Base) (Add (Mul sZero pk) (Mul sZero Base)))
    by (rewrite !mul_zero, add_null; done).
  rewrite (SumEGCt_gen ps cts sZero sZero Hall). by rewrite !sAdd_zero.
Qed.

Definition others (i : Z) (ps : list plain) : list plain :=
  List.filter (fun p => negb (p_index p =? i)) ps.

Lemma sumOthers_gen ps cts i s count :
  0 <= i < B -> Forall (fun p => 0 <= p_index p < B) ps -> Forall2 isHonest ps cts ->
  fold_out (fun st ctj =>
    let '(sum, count) := st in
    if ct_I ctj =? i then Ok (sum, count)
    else
      let? peval := PEval (btd_prf b) (Kp ctj) (ct_I ctj) i in
      Ok (Add sum peval, count + 1)) cts (Mul (sMul s (z_ i)) GTBase, count) =
  Ok (Mul (sMul (sAdd s (keySum (others i ps))) (z_ i)) GTBase, count + zlen (others i ps)).
Proof.
  intros Hi Hr Hall. revert s count. unfold keySum, others.
  induction Hall as [|p ct ps cts Hh _ IH]; intros s count; cbn [fold_out List.filter map].
  - rewrite add_none. f_equal. f_equal. cbn. lia.
  - apply Forall_cons in Hr as [Hp Hr]. rewrite (honest_index _ _ _ _ Hh).
    destruct (Z.eqb_spec (p_index p) i) as [E|Hne]; cbn [negb].
    + cbn [out_bind]. rewrite IH by done. done.
    + assert (PEval (btd_prf b) (Kp ct) (p_index p) i = Ok (Mul (sMul (r_k (p_coins p)) (z_ i)) GTBase)) as ->
        by (rewrite Hprf, (honest_key _ _ _ _ Hh); by apply PEval_setup).
      cbn [out_bind]. rewrite <- mul_add.
      replace (sAdd (sMul s (z_ i)) (sMul (r_k (p_coins p)) (z_ i)))
        with (sMul (sAdd s (r_k (p_coins p))) (z_ i)) by ring.
      rewrite IH by done. cbn [map length]. rewrite sumScalars_cons, sAdd_assoc. f_equal. f_equal. lia.
Qed.

Lemma sumOthers_spec ps cts i count :
  0 <= i < B -> Forall (fun p => 0 <= p_index p < B) ps -> Forall2 isHonest ps cts ->
  sumOthers b cts i count =
  Ok (Mul (sMul (keySum (others i ps)) (z_ i)) GTBase, count + zlen (others i ps)).
Proof.
  intros Hi Hr Hall. unfold sumOthers.
  replace (@Null _ GT) with (Mul (sMul sZero (z_ i)) GTBase)
    by (replace (sMul sZero (z_ i)) with sZero by ring; apply mul_zero).
  by rewrite (sumOthers_gen ps cts i sZero count Hi Hr Hall), sAdd_zero.
Qed.

Lemma others_absent i ps : i ∉ map p_index ps -> others i ps = ps.
Proof.
  unfold others. induction ps as [|p ps IH]; cbn; [done|].
  rewrite not_elem_of_cons. intros [Hne Hni]. replace (p_index p =? i) with false by lia. cbn.
  by rewrite IH.
Qed.

(** All keys are the own key and the others' keys. *)
Lemma keySum_split ps p :
  NoDup (map p_index ps) -> p ∈ ps ->
  keySum ps = sAdd (r_k (p_coins p)) (keySum (others (p_index p) ps)) /\
  zlen ps = 1 + zlen (others (p_index p) ps).
Proof.
  unfold keySum. induction ps as [|q ps IH]; cbn [map]; [intros _ H'; by apply elem_of_nil in H'|].
  intros [Hq Hnd]%NoDup_cons [->|Hp]%elem_of_cons.
  - unfold others. cbn [List.filter]. rewrite Z.eqb_refl. cbn [negb].
    fold (others (p_index q) ps). rewrite (others_absent _ _ Hq). split; [apply sumScalars_cons|cbn; lia].
  - assert (p_index q <> p_index p) as Hne.
    { intros E. apply Hq. rewrite E. by apply list_elem_of_fmap_2. }
    destruct (IH Hnd Hp) as [IH1 IH2]. unfold others. cbn [List.filter].
    replace (p_index q =? p_index p) with false by lia. cbn [negb map].
    fold (others (p_index p) ps). rewrite !sumScalars_cons, IH1. split; [ring|cbn [length]; lia].
Qed.

Lemma unpad k s z m :
  Sub (Add (Add (Mul (sMul k z) GTBase) m) (Mul (sMul s z) GTBase)) (Mul (sMul (sAdd k s) z) GTBase) = m.
Proof.
  rewrite (add_comm (Mul (sMul k z) GTBase) m), <- add_assoc, <- mul_add.
  replace (sAdd (sMul k z) (sMul s z)) with (sMul (sAdd k s) z) by ring.
  apply sub_self_mul; apply _.
Qed.

(** The loop over the ciphertexts, at any point of the batch. *)
Lemma combine_loop all allCts ps cts msgs count :
  NoDup (map p_index all) -> Forall (fun p => 0 <= p_index p < B) all -> Forall2 isHonest all allCts ->
  ps ⊆ all -> Forall2 isHonest ps cts ->
  fold_out (fun st ct =>
    let '(msgs, count) := st in
    let? prfKi := ExpEval (btd_prf b) (Mul (keySum all) Base) (ct_I ct) in
    let? (sum, count) := sumOthers b allCts (ct_I ct) (count + 1) in
    Ok (msgs ++ [Sub (Add (Gamma ct) sum) prfKi], count)) cts (msgs, count) =
  Ok (msgs ++ map p_msg ps, count + zlen ps * zlen all).
Proof.
  intros Hnd Hr Hall Hsub Hps. revert msgs count.
  induction Hps as [|p ct ps cts Hh _ IH]; intros msgs count; cbn [fold_out map].
  - rewrite app_nil_r. f_equal. f_equal. cbn. lia.
  - assert (p ∈ all) as Hin by (apply Hsub; by left).
    assert (0 <= p_index p < B) as Hi by (rewrite Forall_forall in Hr; by apply Hr).
    destruct (keySum_split all p Hnd Hin) as [Hk Hl].
    assert (ExpEval (btd_prf b) (Mul (keySum all) Base) (p_index p) =
      Ok (Mul (sMul (keySum all) (z_ (p_index p))) GTBase)) as Hexp
      by (rewrite Hprf; by apply ExpEval_setup).
    rewrite (honest_index _ _ _ _ Hh), Hexp. cbn [out_bind].
    rewrite (sumOthers_spec all allCts) by done. cbn [out_bind].
    rewrite (honest_gamma _ _ _ _ Hh). rewrite Hk at 1. rewrite unpad.
    rewrite IH by (intros x Hx; apply Hsub; by right).
    rewrite <- app_assoc. cbn [app length]. f_equal. f_equal. lia.
Qed.

Lemma batch_guards ps cts :
  NoDup (map p_index ps) -> Forall (fun p => 0 <= p_index p < B) ps -> Forall2 isHonest ps cts ->
  (btd_B b <? zlen cts) = false /\ validateDistinctIndices cts = Ok tt.
Proof.
  intros Hnd Hr Hall. split.
  - rewrite HB. apply Z.ltb_ge. rewrite <- (Forall2_length _ _ _ Hall).
    rewrite <- (length_map p_index ps).
    assert (0 <= B) by (rewrite <- Hxs; lia).
    etransitivity; [apply (NoDup_range_length (map p_index ps) B Hnd)|lia].
    apply Forall_map. done.
  - unfold validateDistinctIndices. rewrite (honest_indices _ _ Hall).
    replace (distinctFrom [] (map p_index ps)) with true; [done|]. symmetry. apply distinctFrom_spec.
    split; [done|]. intros x _. apply not_elem_of_nil.
Qed.

(** The share an honest participant makes for an honest batch. *)
Definition honestShareOf (ps : list plain) (i : Z) : PubShare :=
  mkPubShare i (Mul (pri_V (shareOf coeffs i)) (Mul (uSum ps) Base)).

Lemma share_of_batch ps cts i :
  NoDup (map p_index ps) -> Forall (fun p => 0 <= p_index p < B) ps -> Forall2 isHonest ps cts ->
  BatchDecWithShare Hash b cts (shareOf coeffs i) true = Ok (honestShareOf ps i).
Proof.
  intros Hnd Hr Hall. destruct (batch_guards ps cts Hnd Hr Hall) as [Hlen Hdist].
  unfold BatchDecWithShare. rewrite Hlen, Hdist. cbn [out_bind].
  by rewrite (SumEGCt_honest ps cts Hall).
Qed.

(** Any threshold of honest shares opens the sum of the ElGamal ciphertexts. *)
Lemma combine_key k ids ps :
  recover_law RecoverCommit (eg_t (btd_eg b)) (eg_n (btd_eg b)) k ->
  length coeffs = k -> length ids = k -> NoDup ids -> Forall (fun i => 0 <= i) ids ->
  Combine RecoverCommit (btd_eg b)
    (mkEgCT (Mul (uSum ps) Base) (Add (Mul (uSum ps) pk) (Mul (keySum ps) Base)))
    (map (honestShareOf ps) ids) = Ok (Mul (keySum ps) Base).
Proof.
  intros Hrec Hc Hk Hids Hids0.
  unfold Combine, honestShareOf. rewrite Hrec by done. cbn [out_bind eg_B].
  rewrite Hpk, mul_mul, (add_comm _ (Mul (keySum ps) Base)), mul_mul.
  replace (sMul (uSum ps) (polyEval coeffs sZero)) with (sMul (polyEval coeffs sZero) (uSum ps)) by ring.
  by rewrite (sub_self_mul G1).
Qed.

Lemma combine_batch k ids ps cts :
  recover_law RecoverCommit (eg_t (btd_eg b)) (eg_n (btd_eg b)) k ->
  length coeffs = k -> length ids = k -> NoDup ids -> Forall (fun i => 0 <= i) ids ->
  NoDup (map p_index ps) -> Forall (fun p => 0 <= p_index p < B) ps -> Forall2 isHonest ps cts ->
  BatchCombineMessages RecoverCommit Hash b cts (map (honestShareOf ps) ids) true =
  Ok (map p_msg ps, zlen ps * zlen ps).
Proof.
  intros Hrec Hc Hk Hids Hids0 Hnd Hr Hall.
  destruct (batch_guards ps cts Hnd Hr Hall) as [Hlen Hdist].
  unfold BatchCombineMessages. rewrite Hlen, Hdist. cbn [out_bind].
  rewrite (SumEGCt_honest ps cts Hall). cbn [out_bind].
  rewrite (combine_key k) by done. cbn [out_bind].
  by rewrite (combine_loop ps cts ps cts [] 0 Hnd Hr Hall).
Qed.

Lemma Enc_all ps :
  Forall (fun p => 0 <= p_index p < B) ps ->
  exists cts, map_out (fun p => Enc Hash b (p_coins p) pk (p_index p) (p_msg p)) ps = Ok cts /\
    Forall2 isHonest ps cts.
Proof.
  induction 1 as [|p ps Hp _ (cts & Hcts & Hall)]; [by exists []|].
  destruct (Enc_honest (p_coins p) (p_index p) (p_msg p) Hp) as (ct & He & Hh).
  exists (ct :: cts). cbn. rewrite He. cbn. rewrite Hcts. split; [done|by constructor].
Qed.

(** ** The optimised decryption *)

Lemma SumEGCt_any ps cts verify :
  Forall2 isHonest ps cts -> SumEGCt Hash b cts verify = SumEGCt Hash b cts true.
Proof.
  intros Hall. destruct verify; [done|]. unfold SumEGCt. generalize NullEGct.
  induction Hall as [|p ct ps cts Hh _ IH]; intros sum; cbn [fold_out]; [done|].
  rewrite (honest_verifies _ _ _ _ Hh). cbn [out_bind negb]. apply IH.
Qed.

Lemma verifyAll_honest ps cts : Forall2 isHonest ps cts -> verifyAll Hash b cts = Ok tt.
Proof.
  unfold verifyAll. induction 1 as [|p ct ps cts Hh _ IH]; cbn [fold_out]; [done|].
  rewrite (honest_verifies _ _ _ _ Hh). cbn [out_bind negb]. apply IH.
Qed.

Lemma keySum_app ps qs : keySum (ps ++ qs) = sAdd (keySum ps) (keySum qs).
Proof.
  unfold keySum. induction ps as [|p ps IH]; cbn [app map]; [by rewrite sAdd_zero|].
  by rewrite !sumScalars_cons, IH, sAdd_assoc.
Qed.

Lemma keySum_cons p ps : keySum (p :: ps) = sAdd (r_k (p_coins p)) (keySum ps).
Proof. unfold keySum. cbn [map]. apply sumScalars_cons. Qed.

(** A punctured evaluation added to a sum of evaluations. *)
Lemma PEval_honest p ct i s :
  isHonest p ct -> 0 <= i < B -> 0 <= p_index p < B -> p_index p <> i ->
  exists e, PEval (btd_prf b) (Kp ct) (ct_I ct) i = Ok e /\
    Add (Mul (sMul s (z_ i)) GTBase) e = Mul (sMul (sAdd s (r_k (p_coins p))) (z_ i)) GTBase.
Proof.
  intros Hh Hi Hp Hne. rewrite (honest_index _ _ _ _ Hh), (honest_key _ _ _ _ Hh), Hprf.
  eexists. split; [by apply PEval_setup|]. rewrite <- mul_add. f_equal. ring.
Qed.

Lemma sumBefore_honest ps cts i s count :
  Forall2 isHonest ps cts -> 0 <= i < B -> Forall (fun p => 0 <= p_index p < B /\ p_index p <> i) ps ->
  sumBefore b cts i (Mul (sMul s (z_ i)) GTBase) count =
  Ok (Mul (sMul (sAdd s (keySum ps)) (z_ i)) GTBase, count + zlen ps).
Proof.
  intros Hall Hi. unfold sumBefore. revert s count.
  induction Hall as [|p ct ps cts Hh _ IH]; intros s count Hr; cbn [fold_out].
  - rewrite add_none. do 2 f_equal. cbn. lia.
  - apply Forall_cons in Hr as [[Hp Hne] Hr].
    destruct (PEval_honest p ct i s Hh Hi Hp Hne) as (e & -> & He). cbn [out_bind].
    rewrite He, IH by done. rewrite keySum_cons, sAdd_assoc. do 2 f_equal. cbn [length]. lia.
Qed.

(** Whether the loop ends at the next suffix or runs to the end, it has added
  the evaluations of all the ciphertexts that follow. *)
Lemma sumAfter_honest all Ks KsIdx next i ps cts j s count :
  Forall2 isHonest ps cts -> 0 <= i < B -> Forall (fun p => 0 <= p_index p < B /\ p_index p <> i) ps ->
  ps = drop (Z.to_nat j) all -> 0 <= j ->
  (KsIdx < zlen Ks -> at_index Ks KsIdx = Ok (Mul (keySum (drop (Z.to_nat next) all)) Base)) ->
  exists count', sumAfter b Ks KsIdx next i cts j (Mul (sMul s (z_ i)) GTBase) count =
    Ok (Mul (sMul (sAdd s (keySum ps)) (z_ i)) GTBase, count') /\ count' <= count + zlen ps.
Proof.
  intros Hall Hi Hr Hps Hj HK. revert j s count Hr Hps Hj.
  induction Hall as [|p ct ps cts Hh _ IH]; intros j s count Hr Hps Hj; cbn [sumAfter].
  - rewrite add_none. eexists. split; [done|]. cbn. lia.
  - destruct ((KsIdx <? zlen Ks) && (j =? next)) eqn:Hstop.
    + apply andb_true_iff in Hstop as [H1%Z.ltb_lt H2%Z.eqb_eq]. subst next.
      rewrite (HK H1), <- Hps. cbn [out_bind]. rewrite Hprf, ExpEval_setup by done. cbn [out_bind].
      rewrite <- mul_add. eexists. split; [do 3 f_equal; ring|]. cbn [length]. lia.
    + apply Forall_cons in Hr as [[Hp Hne] Hr].
      destruct (PEval_honest p ct i s Hh Hi Hp Hne) as (e & -> & He). cbn [out_bind]. rewrite He.
      destruct (IH (j + 1) (sAdd s (r_k (p_coins p))) (count + 1) Hr) as (c' & Hc & Hle); [|lia|].
      { replace (Z.to_nat (j + 1)) with (S (Z.to_nat j)) by lia.
        by rewrite <- Nat.add_1_r, <- drop_drop, <- Hps. }
      exists c'. rewrite Hc, keySum_cons, sAdd_assoc. split; [done|]. cbn [length]. lia.
Qed.
(** The block of position [idx], which starts at [old]: what comes before it
  and what comes after it have other indices. *)
Lemma block_split ps idx old p :
  NoDup (map p_index ps) -> Forall (fun p => 0 <= p_index p < B) ps -> ps !! idx = Some p ->
  (old <= idx)%nat ->
  let before := take (idx - old) (drop old ps) in
  let after := drop (S idx) ps in
  let apart := Forall (fun q => 0 <= p_index q < B /\ p_index q <> p_index p) in
  drop old ps = before ++ p :: after /\ apart before /\ apart after /\
  zlen before + zlen after < zlen ps.
Proof.
  intros Hnd Hr Hp Hle before after apart.
  assert (drop old ps = before ++ p :: after) as Hsplit.
  { unfold before, after. rewrite <- (drop_S _ _ _ Hp).
    replace (drop idx ps) with (drop (idx - old) (drop old ps)) by (rewrite drop_drop; f_equal; lia).
    by rewrite take_drop. }
  rewrite <- (take_drop old ps), Hsplit in Hnd, Hr. rewrite !map_app in Hnd. cbn [map] in Hnd.
  apply NoDup_app in Hnd as (_ & _ & [Hnd Hdis]%NoDup_app).
  apply Forall_app in Hr as [_ [Hb [_ Ha]%Forall_cons]%Forall_app].
  destruct Hdis as [Hdis [Hp' _]%NoDup_cons]. split_and!; [done| | |].
  - apply Forall_forall. intros q Hq. rewrite Forall_forall in Hb. split; [by apply Hb|].
    intros E. apply (Hdis (p_index q)); [by apply list_elem_of_fmap_2|]. rewrite E. by left.
  - apply Forall_forall. intros q Hq. rewrite Forall_forall in Ha. split; [by apply Ha|].
    intros E. apply Hp'. rewrite <- E. by apply list_elem_of_fmap_2.
  - assert (length (drop old ps) <= length ps)%nat as Hl by (rewrite length_drop; lia).
    rewrite Hsplit, length_app in Hl. cbn [length] in Hl. lia.
Qed.

(** The ciphertexts of the block before position [idx]. *)
Lemma block_before ps cts idx old i count :
  Forall2 isHonest ps cts -> 0 <= i < B -> 0 <= old <= idx ->
  let before := take (Z.to_nat idx - Z.to_nat old) (drop (Z.to_nat old) ps) in
  Forall (fun q => 0 <= p_index q < B /\ p_index q <> i) before ->
  (if old <? idx
   then sumBefore b (take (Z.to_nat (idx - old)) (drop (Z.to_nat old) cts)) i Null count
   else Ok (Null, count)) =
  Ok (Mul (sMul (keySum before) (z_ i)) GTBase, count + zlen before).
Proof.
  intros Hall Hi Hold before Hb.
  assert (@Null _ GT = Mul (sMul sZero (z_ i)) GTBase) as ->
    by (replace (sMul sZero (z_ i)) with sZero by ring; by rewrite mul_zero).
  destruct (Z.ltb_spec old idx).
  - rewrite Z2Nat.inj_sub by lia.
    rewrite (sumBefore_honest before) by (try done; by apply Forall2_take, Forall2_drop).
    by rewrite sAdd_zero.
  - unfold before. replace (Z.to_nat idx - Z.to_nat old)%nat with 0%nat by lia. cbn [take length].
    by rewrite Z.add_0_r.
Qed.

Lemma suffixStart_nonneg L l : 0 <= L -> 0 <= l -> 0 <= suffixStart L l.
Proof.
  intros HL Hl. unfold suffixStart. assert (0 < 2 ^ l) by (apply Z.pow_pos_nonneg; lia).
  apply Z.div_pos; [nia|done].
Qed.

(** The key of each suffix is the commitment to the sum of its keys. *)
Definition suffixKey (ps : list plain) (l : Z) : Point G1 :=
  Mul (keySum (drop (Z.to_nat (suffixStart (zlen ps) l)) ps)) Base.

Lemma at_index_seqZ {A} (f : Z -> A) n l : 0 <= l < n -> at_index (map f (seqZ 0 n)) l = Ok (f l).
Proof.
  intros Hl. unfold at_index. replace (l <? 0) with false by lia.
  rewrite list_lookup_fmap, lookup_seqZ_lt by lia. cbn. do 2 f_equal. lia.
Qed.

(** The loop's variables before position [idx]: the block in use starts at or
  before [idx]. *)
Record OptInv (ps : list plain) (lgL idx : Z) (st : optState) : Prop := {
  opt_idx : 1 <= o_KsIdx st <= lgL;
  opt_old : o_oldStart st = suffixStart (zlen ps) (o_KsIdx st - 1);
  opt_le : o_oldStart st <= idx
}.

Lemma optStep_honest ps cts lgL idx p ct st :
  NoDup (map p_index ps) -> Forall (fun p => 0 <= p_index p < B) ps -> Forall2 isHonest ps cts ->
  0 <= idx -> ps !! Z.to_nat idx = Some p -> isHonest p ct -> OptInv ps lgL idx st ->
  exists st', optStep b cts (map (suffixKey ps) (seqZ 0 lgL)) st (idx, ct) = Ok st' /\
    OptInv ps lgL (idx + 1) st' /\ o_msgs st' = o_msgs st ++ [p_msg p] /\
    o_count st' <= o_count st + zlen ps.
Proof.
  intros Hnd Hr Hall Hidx Hp Hh [Hk Hold Hle].
  assert (0 <= p_index p < B) as Hi by (rewrite Forall_lookup in Hr; by eapply Hr).
  unfold optStep. rewrite length_map, length_seqZ, Z2Nat.id by lia.
  rewrite <- (Forall2_length _ _ _ Hall).
  set (L := zlen ps) in *. set (z := z_ (p_index p)) in *.
  match goal with |- context [let '(_, _) := ?t in _] => assert (exists k old,
    t = (k, old, suffixStart L k) /\ 1 <= k <= lgL /\ old = suffixStart L (k - 1) /\ old <= idx)
    as (k & old & -> & Hk' & Hold' & Hle') end.
  { destruct ((suffixStart L (o_KsIdx st) <=? idx) && (o_KsIdx st + 1 <? lgL)) eqn:E;
      [|by exists (o_KsIdx st), (o_oldStart st)].
    exists (o_KsIdx st + 1), (suffixStart L (o_KsIdx st)). rewrite Z.add_simpl_r.
    split_and!; [done|lia|lia|done|lia]. }
  assert (0 <= old) as Hold0 by (subst old; apply suffixStart_nonneg; lia).
  destruct (block_split ps (Z.to_nat idx) (Z.to_nat old) p) as (Hsplit & Hb & Ha & Hlen); [done..|lia|].
  rewrite at_index_seqZ by lia. cbn [out_bind].
  assert (suffixKey ps (k - 1) = Mul (keySum (drop (Z.to_nat old) ps)) Base) as ->
    by (unfold suffixKey; fold L; by rewrite <- Hold').
  rewrite Hprf, (honest_index _ _ _ _ Hh), ExpEval_setup by done. cbn [out_bind].
  set (before := take _ (drop _ ps)) in *.
  set (after := drop (S _) ps) in *.
  rewrite (block_before ps cts) by done. fold before z.
  cbn [out_bind].
  destruct (sumAfter_honest ps (map (suffixKey ps) (seqZ 0 lgL)) k (suffixStart L k) (p_index p) after
    (drop (Z.to_nat (idx + 1)) cts) (idx + 1) (keySum before) (o_count st + 1 + zlen before))
    as (count & Hafter & Hcount); [|done..| |lia| |].
  { unfold after. replace (Z.to_nat (idx + 1)) with (S (Z.to_nat idx)) by lia. by apply Forall2_drop. }
  { unfold after. by replace (Z.to_nat (idx + 1)) with (S (Z.to_nat idx)) by lia. }
  { intros Hlt. rewrite length_map, length_seqZ in Hlt. rewrite at_index_seqZ by lia. done. }
  fold z in Hafter. rewrite Hafter. cbn [out_bind].
  eexists. split; [reflexivity|]. cbn [o_KsIdx o_oldStart o_msgs o_count]. split_and!.
  - split; cbn [o_KsIdx o_oldStart]; [done|done|lia].
  - do 2 f_equal. rewrite (honest_gamma _ _ _ _ Hh), Hsplit, keySum_app, keySum_cons. fold z.
    replace (sAdd (keySum before) (sAdd (r_k (p_coins p)) (keySum after)))
      with (sAdd (r_k (p_coins p)) (sAdd (keySum before) (keySum after))) by ring.
    apply unpad.
  - lia.
Qed.
Lemma optLoop_fold ps cts lgL idx tl tlc st :
  NoDup (map p_index ps) -> Forall (fun p => 0 <= p_index p < B) ps -> Forall2 isHonest ps cts ->
  0 <= idx -> tl = drop (Z.to_nat idx) ps -> Forall2 isHonest tl tlc -> OptInv ps lgL idx st ->
  exists st', fold_out (optStep b cts (map (suffixKey ps) (seqZ 0 lgL))) (zip (seqZ idx (zlen tl)) tlc) st = Ok st' /\
    o_msgs st' = o_msgs st ++ map p_msg tl /\ o_count st' <= o_count st + zlen tl * zlen ps.
Proof.
  intros Hnd Hr Hall Hidx Htl Hps. revert idx st Hidx Htl.
  induction Hps as [|p ct tl tlc Hh Hps IH]; intros idx st Hidx Htl Hst.
  - exists st. cbn [map]. rewrite app_nil_r. split_and!; [done|done|]. cbn [length]. lia.
  - assert (ps !! Z.to_nat idx = Some p) as Hp.
    { rewrite <- (Nat.add_0_r (Z.to_nat idx)), <- lookup_drop, <- Htl. done. }
    destruct (optStep_honest ps cts lgL idx p ct st) as (st1 & Hs1 & Hinv & Hm1 & Hc1); [done..|].
    destruct (IH (idx + 1) st1) as (st2 & Hs2 & Hm2 & Hc2); [lia| |done|].
    { replace (Z.to_nat (idx + 1)) with (Z.to_nat idx + 1)%nat by lia.
      by rewrite <- drop_drop, <- Htl. }
    exists st2. cbn [length map]. rewrite (seqZ_cons idx) by lia. cbn [zip zip_with fold_out].
    rewrite Hs1. cbn [out_bind].
    replace (Z.pred (Z.of_nat (S (length tl)))) with (zlen tl) by lia.
    change (Z.succ idx) with (idx + 1). rewrite Hs2, Hm2, Hm1, <- app_assoc. split_and!; [done..|lia].
Qed.

Lemma NoDup_drop_map n ps : NoDup (map p_index ps) -> NoDup (map p_index (drop n ps)).
Proof. rewrite <- (take_drop n ps) at 1. rewrite map_app. by intros (_ & _ & ?)%NoDup_app. Qed.

(** What a participant holds after [KeyGen]. *)
Lemma share_opt n ps cts i lgL :
  Shares (btd_eg b) = map (shareOf coeffs) (seqZ 0 n) -> 0 <= i < n ->
  NoDup (map p_index ps) -> Forall (fun p => 0 <= p_index p < B) ps -> Forall2 isHonest ps cts ->
  lgOf (zlen ps) = Ok lgL ->
  BatchDecOpt Hash b cts i true =
  Ok (map (fun l => honestShareOf (drop (Z.to_nat (suffixStart (zlen ps) l)) ps) i) (seqZ 0 lgL)).
Proof.
  intros Hsh Hi Hnd Hr Hall Hlg. destruct (batch_guards ps cts Hnd Hr Hall) as [Hlen _].
  unfold BatchDecOpt. rewrite Hlen, (verifyAll_honest ps cts Hall). cbn [out_bind].
  rewrite <- (Forall2_length _ _ _ Hall), Hlg. cbn [out_bind]. apply map_out_ok. intros l _.
  set (d := Z.to_nat _).
  assert (Forall2 isHonest (drop d ps) (drop d cts)) as Hd by by apply Forall2_drop.
  destruct (batch_guards (drop d ps) (drop d cts)) as [Hlen' Hdist];
    [by apply NoDup_drop_map|by apply Forall_drop|done|].
  unfold BatchDec. rewrite Hlen', Hdist. cbn [out_bind].
  rewrite (SumEGCt_any (drop d ps)), (SumEGCt_honest (drop d ps)) by done. cbn [out_bind].
  unfold PDec. by rewrite Hsh, at_index_seqZ by done.
Qed.

Lemma suffixKeys_honest k ids ps cts lgL verify :
  recover_law RecoverCommit (eg_t (btd_eg b)) (eg_n (btd_eg b)) k ->
  length coeffs = k -> length ids = k -> NoDup ids -> Forall (fun i => 0 <= i) ids ->
  Forall2 isHonest ps cts ->
  suffixKeys RecoverCommit Hash b cts
    (map (fun i => map (fun l => honestShareOf (drop (Z.to_nat (suffixStart (zlen ps) l)) ps) i) (seqZ 0 lgL)) ids)
    verify lgL = Ok (map (suffixKey ps) (seqZ 0 lgL)).
Proof.
  intros Hrec Hc Hk Hids Hids0 Hall. unfold suffixKeys. apply map_out_ok. intros l Hl%elem_of_seqZ.
  rewrite <- (Forall2_length _ _ _ Hall). set (d := Z.to_nat (suffixStart (zlen ps) l)).
  assert (map_out (fun s => at_index s l) (map (fun i => map (fun l =>
      honestShareOf (drop (Z.to_nat (suffixStart (zlen ps) l)) ps) i) (seqZ 0 lgL)) ids) =
    Ok (map (honestShareOf (drop d ps)) ids)) as ->.
  { clear Hk Hids Hids0. induction ids as [|i ids IH]; cbn [map map_out]; [done|].
    rewrite at_index_seqZ by lia. cbn [out_bind]. rewrite IH. done. }
  cbn [out_bind]. rewrite (SumEGCt_any (drop d ps)), (SumEGCt_honest (drop d ps)) by by apply Forall2_drop.
  cbn [out_bind]. by rewrite (combine_key k) by done.
Qed.

(** A batch of one ciphertext has no suffix, and the loop indexes the empty
  list of keys. *)
Lemma optimised_single_panics ct shares verify :
  1 <= btd_B b -> BatchCombineOpt RecoverCommit Hash b [ct] shares verify = Crash.
Proof.
  intros H1. unfold BatchCombineOpt, optLoop. cbn [length].
  by destruct (Z.ltb_spec (btd_B b) (Z.of_nat 1)); [lia|].
Qed.

End Correctness.
