(* ===== verification/BteDemo.v ===== *)
(** * A concrete suite

    The rational numbers as scalars and as all three groups, with
    multiplication as pairing: a suite that satisfies every law the theorems
    on the encryption assume, used for their witnesses. It hides nothing, and
    is not meant to. *)

From S2P Require Import Prelude Order GoStrings Sha256 Kyber Prf PrfLaws Btd BtdLaws.
From Stdlib Require Import QArith Qcanon Field.
#[global] Open Scope Z_scope.

Definition QcMarshal (x : Qc) : out bytes := Ok [Qnum (this x); Zpos (Qden (this x))].

Definition QcUnmarshal (data : bytes) : out Qc :=
  match data with
  | [n; d] => Ok (Q2Qc (Qmake n (Z.to_pos d)))
  | _ => Err "bad point"
  end.

Definition QcGroup : Group Qc :=
  mkGroup Qc Qc (Q2Qc 0) (Q2Qc 1) Qcplus Qcminus Qcmult
    (fun x y => if Qc_eq_dec x y then true else false) QcMarshal QcUnmarshal.

#[global] Instance QcSuite : Suite := {|
    Scalar := Qc;
    sZero := Q2Qc 0;
    sOne := Q2Qc 1;
    sAdd := Qcplus;
    sMul := Qcmult;
    sSub := Qcminus;
    sNeg := Qcopp;
    sDiv := Qcdiv;
    sInv := Qcinv;
    SetBytes := fun data => Q2Qc (inject_Z (fromBigEndian data));
    MarshalScalar := QcMarshal;
    UnmarshalScalar := QcUnmarshal;
    G1 := QcGroup;
    G2 := QcGroup;
    GT := QcGroup;
    Pair := Qcmult
  |}.

Lemma QcGroup_laws : GroupLaws (Q2Qc 0) (Q2Qc 1) Qcplus Qcmult Qcopp QcGroup.
Proof.
  split; cbn; intros; try ring.
  by destruct (Qc_eq_dec P P).
Qed.

#[global] Instance QcSuite_laws : SuiteLaws.
Proof.
  split; [exact Qcft|exact QcGroup_laws|exact QcGroup_laws|exact QcGroup_laws|].
  intros s t P Q. cbn. ring.
Qed.

Lemma Qc_canonical (x : Qc) : Q2Qc (Qmake (Qnum (this x)) (Qden (this x))) = x.
Proof. apply Qc_is_canon. destruct x as [[n d] Hc]. cbn. apply Qred_correct. Qed.

Lemma Qc_encoding limit : 2 <= limit -> GroupEncoding QcGroup limit.
Proof.
  intros Hl. split. intros P. exists [Qnum (this P); Zpos (Qden (this P))].
  split_and!; [done| |cbn; lia]. cbn. f_equal. apply Qc_canonical.
Qed.

(** Recovery from exactly two shares. *)
Definition recoverTwo (shares : list PubShare) (t n : Z) : out (Point G1) :=
  match shares with
  | [s1; s2] =>
      let x1 := sOfNat (S (Z.to_nat (pub_I s1))) in
      let x2 := sOfNat (S (Z.to_nat (pub_I s2))) in
      Ok (Qcdiv (Qcminus (Qcmult x2 (pub_V s1)) (Qcmult x1 (pub_V s2))) (Qcminus x2 x1))
  | _ => Err "not enough good public shares to reconstruct secret commitment"
  end.

Lemma sOfNat_Qc n : sOfNat n = Q2Qc (inject_Z (Z.of_nat n)).
Proof.
  induction n as [|n IH]; [done|].
  change (sOfNat (S n)) with (Qcplus (Q2Qc 1) (sOfNat n)). rewrite IH.
  apply Qc_is_canon. cbn [this Qcplus Q2Qc]. rewrite !Qred_correct.
  rewrite Nat2Z.inj_succ. unfold Z.succ. rewrite inject_Z_plus, Qplus_comm. reflexivity.
Qed.

Lemma sOfNat_inj n m : sOfNat n = sOfNat m -> n = m.
Proof.
  rewrite !sOfNat_Qc. intros E. apply (f_equal this) in E. cbn [this Q2Qc] in E.
  assert (inject_Z (Z.of_nat n) == inject_Z (Z.of_nat m))%Q as Eq
    by (rewrite <- (Qred_correct (inject_Z (Z.of_nat n))), E; apply Qred_correct).
  apply Nat2Z.inj. by apply inject_Z_injective.
Qed.

Lemma recoverTwo_law t n : recover_law recoverTwo t n 2.
Proof.
  intros coeffs P ids Hc Hi Hnd Hpos.
  destruct coeffs as [|c0 [|c1 [|]]]; try done. destruct ids as [|i [|j [|]]]; try done.
  apply NoDup_cons in Hnd as [Hij _]. rewrite list_elem_of_singleton in Hij.
  apply Forall_cons in Hpos as [Hi0 Hpos]. apply Forall_cons in Hpos as [Hj0 _].
  assert (sOfNat (S (Z.to_nat j)) <> sOfNat (S (Z.to_nat i))) as Hne.
  { intros E%sOfNat_inj. apply Hij. lia. }
  unfold recoverTwo. cbn [map pub_I pub_V shareOf pri_V polyEval].
  set (x := sOfNat (S (Z.to_nat i))) in *. set (y := sOfNat (S (Z.to_nat j))) in *.
  clearbody x y. f_equal. cbn in x, y, c0, c1, P, Hne |- *. field.
  intros E. apply Hne. rewrite <- (Qcplus_0_l x), <- E. ring.
Qed.

(** ** Witnesses *)

Module BteDemo.
Definition q (z : Z) : @Scalar QcSuite := Q2Qc (inject_Z z).
Definition xs : list (@Scalar QcSuite) := [q 1; q 2; q 3].
Definition zs : list (@Scalar QcSuite) := [q 4; q 5; q 6].
Definition coeffs : list (@Scalar QcSuite) := [q 7; q 3].
Definition cluster : BTD := KeyGen (NewBTD (PRFSetup 3 true xs zs) 3) 4 2 coeffs.
Definition Hash (data : bytes) : bytes := take 3 data.
Definition plains : list plain :=
  [mkPlain 0 (q 100) (mkCoins (q 2) (q 3) (q 4) (q 5)); mkPlain 2 (q 200) (mkCoins (q 6) (q 7) (q 8) (q 9))].

Lemma xs_nonzero : Forall (fun x => x <> sZero) xs.
Proof. repeat constructor; intros E; vm_compute in E; discriminate E. Qed.

(** The pipeline of the code, run: encrypt, make the shares of participants 0
  and 3, combine. *)
Definition run : out (list (Point GT) * Z) :=
  let? cts := map_out (fun p => Enc Hash cluster (p_coins p) (PK (btd_eg cluster)) (p_index p) (p_msg p)) plains in
  let? shares := map_out (fun i => BatchDecWithShare Hash cluster cts (shareOf coeffs i) true) [0; 3] in
  BatchCombineMessages recoverTwo Hash cluster cts shares true.

Example run_result :
  match run with
  | Ok (msgs, count) => map (fun m : Qc => this m) msgs = [inject_Z 100; inject_Z 200] /\ count = 4
  | _ => False
  end.
Proof. vm_compute. split; reflexivity. Qed.

Definition plains3 : list plain := plains ++ [mkPlain 1 (q 300) (mkCoins (q 1) (q 2) (q 9) (q 3))].

(** The optimised pipeline, with the shares of participants 1 and 2: eight
  pairings where the plain one needs nine. *)
Definition run_opt : out optState :=
  let? cts := map_out (fun p => Enc Hash cluster (p_coins p) (PK (btd_eg cluster)) (p_index p) (p_msg p)) plains3 in
  let? shares := map_out (fun i => BatchDecOpt Hash cluster cts i true) [1; 2] in
  optLoop recoverTwo Hash cluster cts shares true.

Example run_opt_result :
  match run_opt with
  | Ok st => map (fun m : Qc => this m) (o_msgs st) = [inject_Z 100; inject_Z 200; inject_Z 300] /\
      o_count st = 8
  | _ => False
  end.
Proof. vm_compute. split; reflexivity. Qed.
End BteDemo.


