(* ===== verification/Batch.v ===== *)
(** * The cluster layer of the batched encryption

    [src/bte/btd-impl-main/be/cluster.go]: hybrid ciphertexts, their wire
    format, the arrangement of a batch into sub-batches without repeated
    indices, decryption shares, and their combination with bounded recovery
    from invalid shares.

    Parameters: the group library ([Kyber]), the suite's hash, HKDF ([hkdf])
    and AES-GCM ([aead_Seal], [aead_Open]). The random nonce and scalars are
    arguments. [math.Ceil(2 * math.Sqrt(float64(n)))] is computed on integers
    ([ceilTwoSqrt]); the two agree for batch sizes below 2^50. *)

From S2P Require Import Prelude Order GoStrings Sha256 Kyber Prf Btd.

Definition LibraryVersion : bytes := str "bte-tx-v2".
Definition defaultSuiteID : bytes := str "BLS12-381-kilic".
Definition hybridKeyDomain : bytes := str "bloc-hybrid-key-v2".
Definition hybridAADDomain : bytes := str "bloc-hybrid-aad-v2".
Definition batchIDDomain : bytes := str "bloc-batch-v2".
Definition aeadNonceSize : Z := 12.
Definition aeadTagSize : Z := 16.
Definition defaultMaxCombineAttemptsPerSubBatch : Z := 256.

(** The least integer not below [2 * sqrt n]. *)
Definition ceilTwoSqrt (n : Z) : Z :=
  let s := Z.sqrt (4 * n) in if s * s =? 4 * n then s else s + 1.

(** [l[i] = x] for a slice. *)
Definition set_index {A : Type} (l : list A) (i : Z) (x : A) : out (list A) :=
  if (i <? 0) || (zlen l <=? i) then Crash else Ok (<[Z.to_nat i := x]> l).

(** ** [forEachShareCombination]

    Indices are natural numbers. The callback threads a state and says whether
    to stop. *)

(** The scan from position [i - 1] down for an index below its maximum. *)
Fixpoint scanDown (n k : nat) (indices : list nat) (i : nat) : option nat :=
  match i with
  | O => None
  | S i' => if Nat.eqb (nth i' indices 0%nat) (i' + n - k) then scanDown n k indices i' else Some i'
  end.

(** Increment the index found and let the later ones follow it. *)
Definition nextCombination (n k : nat) (indices : list nat) : option (list nat) :=
  match scanDown n k indices k with
  | None => None
  | Some i => Some (take i indices ++ seq (S (nth i indices 0%nat)) (k - i))
  end.

Fixpoint combinationLoop {S : Type} (fuel : nat) (fn : S -> list nat -> out (S * bool)) (n k : nat)
    (indices : list nat) (st : S) : out S :=
  match fuel with
  | O => Crash
  | Datatypes.S fuel' =>
      let? (st, stop) := fn st indices in
      if stop then Ok st
      else
        match nextCombination n k indices with
        | None => Ok st
        | Some indices' => combinationLoop fuel' fn n k indices' st
        end
  end.

Fixpoint binomial (n k : nat) : nat :=
  match k, n with
  | O, _ => 1
  | S _, O => 0
  | S k', S n' => binomial n' k' + binomial n' k
  end.

(** There are [binomial n k] combinations, the fuel of the loop. *)
Definition forEachShareCombination {S : Type} (n k : Z) (fn : S -> list nat -> out (S * bool)) (st : S) : out S :=
  if (k <=? 0) || (n <? k) then Ok st
  else
    combinationLoop (binomial (Z.to_nat n) (Z.to_nat k)) fn (Z.to_nat n) (Z.to_nat k)
      (seq 0 (Z.to_nat k)) st.

Section Cluster.
Context `{Suite}.
Context (RecoverCommit : list PubShare -> Z -> Z -> out (Point G1)).
Context (Hash : bytes -> bytes) (uni : bytes -> bytes).
Context (hkdf : bytes -> bytes -> bytes).
Context (aead_Seal : bytes -> bytes -> bytes -> bytes -> bytes).
Context (aead_Open : bytes -> bytes -> bytes -> bytes -> out bytes).

Record Ciphertext := mkCiphertext {
  Capsule : CT;
  EncryptedTx : bytes
}.

Record SecretShare := mkSecretShare {
  sk_OperatorID : Z;
  sk_Share : PriShare
}.

(** The share pointer may be nil. *)
Record DecryptionShare := mkDecryptionShare {
  d_OperatorID : Z;
  d_BatchID : bytes;
  d_SubBatchID : Z;
  d_Share : option PubShare
}.

Record BatchItem := mkBatchItem {
  OriginalPosition : Z;
  bi_Ciphertext : Ciphertext
}.

Record BatchPlan := mkBatchPlan {
  plan_BatchID : bytes;
  Alpha : Z;
  SubBatches : list (list BatchItem)
}.

Record DecodedBatch := mkDecodedBatch {
  ciphertexts : list Ciphertext;
  decoded_batchID : bytes
}.

Record PlaintextResult := mkPlaintextResult {
  Plaintext : bytes;
  res_Err : option string
}.

(** [AttemptLimitsBySubBatch] may be nil. *)
Record CombineOptions := mkCombineOptions {
  MaxAttemptsPerSubBatch : Z;
  AttemptLimitsBySubBatch : option (list Z)
}.

Record ClusterBTE := mkCluster {
  BMax : Z;
  Params_N : Z;
  cl_PK : Point G1;
  cl_Shares : list SecretShare;
  cl_btd : BTD
}.

Definition setPK (b : BTD) (pk : Point G1) : BTD :=
  mkBTD (btd_prf b) (mkElGamal pk (Shares (btd_eg b)) (eg_n (btd_eg b)) (eg_t (btd_eg b)))
        (btd_B b) (btd_T b) (btd_N b).

Definition setThreshold (b : BTD) (n t : Z) : BTD :=
  mkBTD (btd_prf b) (btd_eg b) (btd_B b) t n.

Definition NewClusterBTE (b : BTD) (pk : Point G1) (shares : list PriShare) : ClusterBTE :=
  mkCluster (btd_B b) (btd_B b) pk (map (fun s => mkSecretShare (pri_I s) s) shares) (setPK b pk).

Definition NewClusterBTEFromShares (b : BTD) (pk : Point G1) (shares : list (option PriShare)) (n t : Z)
  : out ClusterBTE :=
  if (n <=? 0) || (t <=? 0) || (n <? t) then Err "invalid threshold configuration"
  else if zlen shares <? t then Err "not enough shares for the threshold"
  else
    let? st := fold_out (fun st secret =>
      let '(seen, kept) := st in
      match secret with
      | None => Err "invalid or duplicate private share"
      | Some s =>
          if (n <=? pri_I s) || bool_decide (pri_I s ∈ seen) then Err "invalid or duplicate private share"
          else Ok (pri_I s :: seen, kept ++ [s])
      end) shares ([], []) in
    Ok (NewClusterBTE (setThreshold b n t) pk st.2).

Definition NewNode (b : BTD) (pk : Point G1) (sk : SecretShare) (n t : Z) : ClusterBTE :=
  mkCluster (btd_B b) (btd_B b) pk [sk] (setThreshold (setPK b pk) n t).

(** The public key pointer may be nil. *)
Definition PublicConfigID (bMax : Z) (crsSHA256 : bytes) (pk : option (Point G1)) : out bytes :=
  if bMax <=? 0 then Err "BMax must be positive"
  else
    let normalizedCRS := ToLower uni (TrimSpace crsSHA256) in
    if negb (zlen normalizedCRS =? 64) then Err "CRS SHA-256 must contain 64 hex characters"
    else
      match hexDecode normalizedCRS with
      | None => Err "decode CRS SHA-256"
      | Some _ =>
          match pk with
          | None => Err "public key is required"
          | Some pk =>
              let? encodedPK := MarshalPoint pk in
              let field value := bigEndian 8 (u64 (zlen value)) ++ value in
              Ok (hashHex (field (str "bloc-bte-public-config-v1") ++ field defaultSuiteID ++
                bigEndian 8 (u64 bMax) ++ field normalizedCRS ++ field encodedPK))
          end
      end.

(** ** Wire format *)

Definition writeBytes (buf data : bytes) : bytes := buf ++ bigEndian 8 (u64 (zlen data)) ++ data.

Definition readBytes (reader : bytes) : out (bytes * bytes) :=
  let? (size, reader) := readUint 8 reader in
  if zlen reader <? size then Err "encoded size exceeds remaining bytes"
  else readFull (Z.to_nat size) reader.

Definition writePoint {G : Group Scalar} (buf : bytes) (point : Point G) : out bytes :=
  let? encoded := MarshalPoint point in Ok (writeBytes buf encoded).

Definition writeScalar (buf : bytes) (s : Scalar) : out bytes :=
  let? encoded := MarshalScalar s in Ok (writeBytes buf encoded).

Definition readPoint (G : Group Scalar) (reader : bytes) : out (Point G * bytes) :=
  let? (encoded, reader) := readBytes reader in
  let? point := UnmarshalPoint G encoded in
  Ok (point, reader).

Definition readScalar (reader : bytes) : out (Scalar * bytes) :=
  let? (encoded, reader) := readBytes reader in
  let? s := UnmarshalScalar encoded in
  Ok (s, reader).

(** [CT.MarshalBinary] *)
Definition marshalCT (ct : CT) : out bytes :=
  let buf := bigEndian 8 (u64 (ct_I ct)) in
  let? buf := writePoint buf (Gamma ct) in
  let? buf := fold_out writePoint
    [Kp ct; eg_A (ct_C ct); eg_B (ct_C ct); Ap (Pi ct); Bp (Pi ct); Yp (Pi ct)] buf in
  fold_out writeScalar [KHat (Pi ct); UHat (Pi ct)] buf.

Definition UnmarshalCT (data : bytes) : out CT :=
  let? (index, reader) := readUint 8 data in
  let? (gamma, reader) := readPoint GT reader in
  let? (kp, reader) := readPoint G1 reader in
  let? (a, reader) := readPoint G1 reader in
  let? (b, reader) := readPoint G1 reader in
  let? (ap, reader) := readPoint G1 reader in
  let? (bp, reader) := readPoint G1 reader in
  let? (yp, reader) := readPoint G1 reader in
  let? (kHat, reader) := readScalar reader in
  let? (uHat, reader) := readScalar reader in
  if 0 <? zlen reader then Err "trailing capsule bytes"
  else Ok (mkCT (i64 index) gamma kp (mkEgCT a b) (mkProof ap bp yp kHat uHat)).

(** [Ciphertext.MarshalBinary] *)
Definition marshalCiphertext (ct : Ciphertext) : out bytes :=
  let? capsule := marshalCT (Capsule ct) in
  Ok (writeBytes (writeBytes LibraryVersion capsule) (EncryptedTx ct)).

Definition validateAEADPayloadShape (encryptedTx : bytes) : out unit :=
  if zlen encryptedTx <? aeadNonceSize + aeadTagSize then
    Err "encrypted transaction is smaller than nonce and AEAD tag"
  else Ok tt.

Definition validateCiphertext (c : ClusterBTE) (ct : Ciphertext) : out unit :=
  if (ct_I (Capsule ct) <? 0) || (Params_N c <=? ct_I (Capsule ct)) then
    Err "ciphertext index out of domain"
  else validateAEADPayloadShape (EncryptedTx ct).

Definition UnmarshalCiphertext (c : ClusterBTE) (data : bytes) : out Ciphertext :=
  let? (magic, reader) := readFull (length LibraryVersion) data in
  if negb (bool_decide (magic = LibraryVersion)) then Err "unsupported ciphertext version"
  else
    let? (capsuleBytes, reader) := readBytes reader in
    let? capsule := UnmarshalCT capsuleBytes in
    let? (encryptedTx, reader) := readBytes reader in
    if 0 <? zlen reader then Err "trailing ciphertext bytes"
    else
      let decoded := mkCiphertext capsule encryptedTx in
      let? _ := validateCiphertext c decoded in
      Ok decoded.

(** ** Hybrid encryption *)

Definition digestCapsule (capsule : CT) : out bytes :=
  let? encoded := marshalCT capsule in Ok (Sum256 encoded).

(** The AES key; [aes.NewCipher] and [cipher.NewGCM] do not fail on a key of
  the length HKDF is asked for. *)
Definition aeadFromGT (secret : Point GT) (capsuleDigest : bytes) : out bytes :=
  let? secretBytes := MarshalPoint secret in
  Ok (hkdf secretBytes (hybridKeyDomain ++ capsuleDigest)).

Definition hybridAAD (capsuleDigest : bytes) : bytes := hybridAADDomain ++ capsuleDigest.

(** [secret] is the picked group element, [r] and [nonce] the other random
  values. *)
Definition EncryptTx (c : ClusterBTE) (rawTx : bytes) (index : Z) (secret : Point GT) (r : coins)
    (nonce : bytes) : out Ciphertext :=
  let? capsule := Enc Hash (cl_btd c) r (cl_PK c) index secret in
  let? capsuleDigest := digestCapsule capsule in
  let? key := aeadFromGT secret capsuleDigest in
  Ok (mkCiphertext capsule (nonce ++ aead_Seal key nonce rawTx (hybridAAD capsuleDigest))).

Definition decryptTx (secret : Point GT) (ct : Ciphertext) : out bytes :=
  let? _ := validateAEADPayloadShape (EncryptedTx ct) in
  let? capsuleDigest := digestCapsule (Capsule ct) in
  let? key := aeadFromGT secret capsuleDigest in
  let nonce := take (Z.to_nat aeadNonceSize) (EncryptedTx ct) in
  let sealed := drop (Z.to_nat aeadNonceSize) (EncryptedTx ct) in
  aead_Open key nonce sealed (hybridAAD capsuleDigest).

(** ** Batch identity *)

Definition computeBatchIDFromEncoded (encoded : list bytes) : bytes :=
  Sum256 (batchIDDomain ++ concat (map (fun raw => bigEndian 8 (u64 (zlen raw)) ++ raw) encoded)).

Definition computeBatchID (cts : list Ciphertext) : out bytes :=
  let? encoded := map_out marshalCiphertext cts in Ok (computeBatchIDFromEncoded encoded).

(** ** Arrangement *)

Abbreviation index_of item := (ct_I (Capsule (bi_Ciphertext item))).

Definition countIndex (counts : gmap Z Z) (i : Z) : gmap Z Z := <[i := default 0 (counts !! i) + 1]> counts.

Definition countOf (counts : gmap Z Z) (i : Z) : Z := default 0 (counts !! i).

(** The comparison of the stable sort. *)
Definition itemLess (counts : gmap Z Z) (x y : BatchItem) : bool :=
  let ci := countOf counts (index_of x) in
  let cj := countOf counts (index_of y) in
  if ci =? cj then OriginalPosition x <? OriginalPosition y else cj <? ci.

Definition validateSubBatchIndices (subBatches : list (list BatchItem)) : bool :=
  forallb (fun sub => distinctFrom [] (map (fun it => index_of it) sub)) subBatches.

Definition appendTo (subBatches : list (list BatchItem)) (i : nat) (item : BatchItem)
  : list (list BatchItem) :=
  alter (fun sub => sub ++ [item]) i subBatches.

Definition newItems (cts : list Ciphertext) : list BatchItem :=
  zip_with mkBatchItem (seqZ 0 (zlen cts)) cts.

(** [subBatches[i%alpha] = append(subBatches[i%alpha], item)] over the items. *)
Fixpoint roundRobin (alpha : Z) (i : Z) (items : list BatchItem) (subBatches : list (list BatchItem))
  : list (list BatchItem) :=
  match items with
  | [] => subBatches
  | item :: rest => roundRobin alpha (i + 1) rest (appendTo subBatches (Z.to_nat (i mod alpha)) item)
  end.

(** The loop over the sub-batches that looks for the smallest one without the
  index; [todo] counts the sub-batches left, [id] is the next. *)
Fixpoint selectSubBatch (subBatches : list (list BatchItem)) (seen : list (gset Z)) (index : Z)
    (todo id : nat) (selected : option nat) : option nat :=
  match todo with
  | O => selected
  | S todo' =>
      let selected' :=
        if bool_decide (index ∈ nth id seen ∅) then selected
        else
          match selected with
          | None => Some id
          | Some s => if (length (nth id subBatches []) <? length (nth s subBatches []))%nat then Some id else selected
          end in
      selectSubBatch subBatches seen index todo' (S id) selected'
  end.

Definition arrangeCollisionFree (items : list BatchItem) (alpha : Z) : out (list (list BatchItem)) :=
  let? st := fold_out (fun st item =>
    let '(subBatches, seen) := st in
    match selectSubBatch subBatches seen (index_of item) (Z.to_nat alpha) 0 None with
    | None => Err "no collision-free sub-batch available"
    | Some selected =>
        Ok (appendTo subBatches selected item, alter (fun s => {[ index_of item ]} ∪ s) selected seen)
    end) items (replicate (Z.to_nat alpha) [], replicate (Z.to_nat alpha) ∅) in
  Ok st.1.

(** [alpha] before the range loop over [counts]; the loop takes the largest
  count, in any order. *)
Definition chooseAlpha (n : Z) (counts : gmap Z Z) : Z :=
  let alpha := Z.max 1 (ceilTwoSqrt n) in
  let alpha := map_fold (fun _ count alpha => if alpha <? count then count else alpha) alpha counts in
  if n <? alpha then n else alpha.

Definition arrangeBatch (c : ClusterBTE) (cts : list Ciphertext) : out (Z * list (list BatchItem)) :=
  if zlen cts =? 0 then Err "empty batch"
  else if BMax c <? zlen cts then Err "batch size exceeds BMax"
  else
    let? counts := fold_out (fun counts ct =>
      let? _ := validateCiphertext c ct in Ok (countIndex counts (ct_I (Capsule ct)))) cts ∅ in
    let alpha := chooseAlpha (zlen cts) counts in
    let items := sortSlice (itemLess counts) (newItems cts) in
    let subBatches := roundRobin alpha 0 items (replicate (Z.to_nat alpha) []) in
    if validateSubBatchIndices subBatches then Ok (alpha, subBatches)
    else
      let? subBatches := arrangeCollisionFree items alpha in
      if validateSubBatchIndices subBatches then Ok (alpha, subBatches)
      else Err "collision-free arrangement is invalid".

Definition PlanBatch (c : ClusterBTE) (cts : list Ciphertext) : out BatchPlan :=
  let? (alpha, subBatches) := arrangeBatch c cts in
  let? batchID := computeBatchID cts in
  Ok (mkBatchPlan batchID alpha subBatches).

Definition DecodeBatch (c : ClusterBTE) (encoded : list bytes) : out DecodedBatch :=
  if BMax c <? zlen encoded then Err "batch size exceeds BMax"
  else
    let? cts := map_out (UnmarshalCiphertext c) encoded in
    Ok (mkDecodedBatch cts (computeBatchIDFromEncoded encoded)).

Definition PlanDecodedBatch (c : ClusterBTE) (decoded : DecodedBatch) : out BatchPlan :=
  let? (alpha, subBatches) := arrangeBatch c (ciphertexts decoded) in
  Ok (mkBatchPlan (decoded_batchID decoded) alpha subBatches).

Definition DecodeAndPlanBatch (c : ClusterBTE) (encoded : list bytes) : out (list Ciphertext * BatchPlan) :=
  let? decoded := DecodeBatch c encoded in
  let? plan := PlanDecodedBatch c decoded in
  Ok (ciphertexts decoded, plan).

(** ** Shares *)

Definition capsulesFromItems (items : list BatchItem) : list CT :=
  map (fun it => Capsule (bi_Ciphertext it)) items.

Definition MakeShare (c : ClusterBTE) (sk : SecretShare) (plan : BatchPlan) (subBatchID : Z)
  : out DecryptionShare :=
  if (subBatchID <? 0) || (zlen (SubBatches plan) <=? subBatchID) then Err "sub-batch id out of range"
  else
    let? items := at_index (SubBatches plan) subBatchID in
    let? share := BatchDecWithShare Hash (cl_btd c) (capsulesFromItems items) (sk_Share sk) true in
    Ok (mkDecryptionShare (sk_OperatorID sk) (plan_BatchID plan) subBatchID (Some share)).

Definition planSize (plan : BatchPlan) : Z :=
  fold_left (fun m sub => fold_left (fun m it => if m <? OriginalPosition it then OriginalPosition it else m) sub m)
    (SubBatches plan) (-1) + 1.

(** A decryption failure is a value of the result, not a failure of the call. *)
Definition plaintextResultsFromMessages (items : list BatchItem) (msgs : list (Point GT))
  : out (list (Z * PlaintextResult)) :=
  map_out (fun im : nat * Point GT =>
    let? item := at_index items (Z.of_nat im.1) in
    match decryptTx im.2 (bi_Ciphertext item) with
    | Ok rawTx => Ok (OriginalPosition item, mkPlaintextResult rawTx None)
    | Err e => Ok (OriginalPosition item, mkPlaintextResult [] (Some e))
    | Crash => Crash
    end) (zip (seq 0 (length msgs)) msgs).

Record combineState := mkCombineState {
  attempts : Z;
  firstErr : option string;
  combined : option (list (Z * PlaintextResult))
}.

Definition noteErr (st : combineState) (e : string) : combineState :=
  mkCombineState (attempts st) (match firstErr st with Some e0 => Some e0 | None => Some e end) (combined st).

(** The callback of [combineSubBatch]. *)
Definition tryCombination (c : ClusterBTE) (items : list BatchItem) (shares : list PubShare) (maxAttempts : Z)
    (st : combineState) (indices : list nat) : out (combineState * bool) :=
  if maxAttempts <=? attempts st then Ok (st, true)
  else
    let st := mkCombineState (attempts st + 1) (firstErr st) (combined st) in
    let? candidateShares := map_out (fun idx => at_index shares (Z.of_nat idx)) indices in
    match BatchCombineMessages RecoverCommit Hash (cl_btd c) (capsulesFromItems items) candidateShares true with
    | Crash => Crash
    | Err e => Ok (noteErr st e, false)
    | Ok (msgs, _) =>
        let? candidateResults := plaintextResultsFromMessages items msgs in
        match firstSome (fun pr : Z * PlaintextResult => res_Err pr.2) candidateResults with
        | Some e => Ok (noteErr st e, false)
        | None => Ok (mkCombineState (attempts st) (firstErr st) (Some candidateResults), true)
        end
    end.

(** Results or error, with the number of attempts in both cases. *)
Definition combineSubBatch (c : ClusterBTE) (items : list BatchItem) (shares : list PubShare) (maxAttempts : Z)
  : out (Z * out (list (Z * PlaintextResult))) :=
  let? st := forEachShareCombination (zlen shares) (btd_T (cl_btd c))
    (tryCombination c items shares maxAttempts) (mkCombineState 0 None None) in
  match combined st with
  | Some results => Ok (attempts st, Ok results)
  | None =>
      if maxAttempts <=? attempts st then Ok (attempts st, Err "combine attempt limit exhausted")
      else
        match firstErr st with
        | Some e => Ok (attempts st, Err e)
        | None => Ok (attempts st, Err "no valid threshold share subset")
        end
  end.

(** One share of the validation loop; the state is [seenOperators] (pairs of
  sub-batch and operator) and [bySubBatch]. *)
Definition acceptShare (c : ClusterBTE) (plan : BatchPlan)
    (st : gset (Z * Z) * gmap Z (list PubShare)) (d : DecryptionShare)
  : out (gset (Z * Z) * gmap Z (list PubShare)) :=
  let '(seenOperators, bySubBatch) := st in
  if negb (bool_decide (d_BatchID d = plan_BatchID plan)) then Err "share batch id mismatch"
  else if (d_SubBatchID d <? 0) || (zlen (SubBatches plan) <=? d_SubBatchID d) then
    Err "share sub-batch id out of range"
  else if (d_OperatorID d <? 0) || (btd_N (cl_btd c) <=? d_OperatorID d) then
    Err "share operator id out of range"
  else
    match d_Share d with
    | None => Err "nil share"
    | Some s =>
        if negb (pub_I s =? d_OperatorID d) then Err "share index does not match operator"
        else if bool_decide ((d_SubBatchID d, d_OperatorID d) ∈ seenOperators) then
          Err "duplicate share from operator"
        else
          Ok ({[ (d_SubBatchID d, d_OperatorID d) ]} ∪ seenOperators,
              <[d_SubBatchID d := default [] (bySubBatch !! d_SubBatchID d) ++ [s]]> bySubBatch)
    end.

Definition shareLess (x y : PubShare) : bool := pub_I x <? pub_I y.

(** The loop over the sub-batches. The first component of the result is
  [stats.AttemptsBySubBatch]. *)
Fixpoint combineLoop (c : ClusterBTE) (options : CombineOptions) (bySubBatch : gmap Z (list PubShare))
    (id : Z) (subs : list (list BatchItem)) (stats : list Z) (results : list PlaintextResult)
  : out (list Z * out (list PlaintextResult)) :=
  match subs with
  | [] => Ok (stats, Ok results)
  | items :: rest =>
      let subShares := default [] (bySubBatch !! id) in
      if zlen subShares <? btd_T (cl_btd c) then Ok (stats, Err "not enough shares for sub-batch")
      else
        let subShares := sortSlice shareLess subShares in
        let? attemptLimit :=
          match AttemptLimitsBySubBatch options with
          | Some limits => at_index limits id
          | None => Ok (MaxAttemptsPerSubBatch options)
          end in
        if attemptLimit <? 1 then Ok (stats, Err "combine attempt budget exhausted")
        else
          let? (tries, res) := combineSubBatch c items subShares attemptLimit in
          let? stats := set_index stats id tries in
          match res with
          | Ok subResults =>
              let? results := fold_out (fun results pr => set_index results pr.1 pr.2) subResults results in
              combineLoop c options bySubBatch (id + 1) rest stats results
          | Err e => Ok (stats, Err e)
          | Crash => Crash
          end
  end.

Definition CombineSharesBounded (c : ClusterBTE) (plan : BatchPlan) (shares : list DecryptionShare)
    (options : CombineOptions) : out (list Z * out (list PlaintextResult)) :=
  let stats := replicate (length (SubBatches plan)) 0 in
  if MaxAttemptsPerSubBatch options <? 1 then Ok (stats, Err "max attempts per sub-batch must be positive")
  else if match AttemptLimitsBySubBatch options with
    | Some limits => negb (zlen limits =? zlen (SubBatches plan))
    | None => false
    end then Ok (stats, Err "attempt limit count does not match sub-batches")
          else
          let results := replicate (Z.to_nat (planSize plan)) (mkPlaintextResult [] None) in
          match fold_out (acceptShare c plan) shares (∅, ∅) with
          | Crash => Crash
          | Err e => Ok (stats, Err e)
          | Ok (_, bySubBatch) => combineLoop c options bySubBatch 0 (SubBatches plan) stats results
          end.

Definition CombineShares (c : ClusterBTE) (plan : BatchPlan) (shares : list DecryptionShare)
  : out (list PlaintextResult) :=
  let? (_, res) := CombineSharesBounded c plan shares
    (mkCombineOptions defaultMaxCombineAttemptsPerSubBatch None) in
  res.
End Cluster.
Arguments mkCiphertext {_}.
Arguments Capsule {_}.
Arguments EncryptedTx {_}.
Arguments mkSecretShare {_}.
Arguments sk_OperatorID {_}.
Arguments sk_Share {_}.
Arguments mkDecryptionShare {_}.
Arguments d_OperatorID {_}.
Arguments d_BatchID {_}.
Arguments d_SubBatchID {_}.
Arguments d_Share {_}.
Arguments mkBatchItem {_}.
Arguments OriginalPosition {_}.
Arguments bi_Ciphertext {_}.
Arguments mkBatchPlan {_}.
Arguments plan_BatchID {_}.
Arguments Alpha {_}.
Arguments SubBatches {_}.
Arguments mkDecodedBatch {_}.
Arguments ciphertexts {_}.
Arguments decoded_batchID {_}.
Arguments mkCluster {_}.
Arguments BMax {_}.
Arguments Params_N {_}.
Arguments cl_PK {_}.
Arguments cl_Shares {_}.
Arguments cl_btd {_}.

(** The index of an item's ciphertext. *)
Abbreviation index_of item := (ct_I (Capsule (bi_Ciphertext item))).
