(* ===== verification/BatchLaws.v ===== *)
(** * Batches: combinations of shares

    The loop over share subsets enumerates every subset of the threshold size
    once, in order. *)

From S2P Require Import Prelude Order GoStrings Sha256 Kyber Prf PrfLaws Btd BtdLaws Batch.

(** ** Combinations *)

(** All sublists of length [k], in lexicographic order of position. *)
Fixpoint combs {A : Type} (k : nat) (l : list A) : list (list A) :=
  match k with
  | O => [[]]
  | S k' =>
      (fix go (l : list A) : list (list A) :=
         match l with
         | [] => []
         | x :: l' => map (cons x) (combs k' l') ++ go l'
         end) l
  end.

Lemma combs_zero {A} (l : list A) : combs 0 l = [[]].
Proof. done. Qed.

Lemma combs_nil {A} k : combs (A := A) (S k) [] = [].
Proof. done. Qed.

Lemma combs_cons {A} k (x : A) l : combs (S k) (x :: l) = map (cons x) (combs k l) ++ combs (S k) l.
Proof. done. Qed.

Lemma combs_elem {A} k (l s : list A) : s ∈ combs k l <-> s `sublist_of` l /\ length s = k.
Proof.
  revert k s. induction l as [|x l IH]; intros [|k] s.
  - rewrite combs_zero, list_elem_of_singleton. split; [intros ->; split; [constructor|done]|].
    intros [_ H]. by apply nil_length_inv in H.
  - rewrite combs_nil. split; [intros H; by apply elem_of_nil in H|].
    intros [Hs Hl]. apply sublist_nil_r in Hs as ->. done.
  - rewrite combs_zero, list_elem_of_singleton. split; [intros ->; split; [apply sublist_nil_l|done]|].
    intros [_ H]. by apply nil_length_inv in H.
  - rewrite combs_cons, elem_of_app, list_elem_of_fmap, IH. split.
    + intros [(s' & -> & [Hs Hl]%IH)|[Hs Hl]].
      * split; [by apply sublist_skip|cbn; lia].
      * split; [by apply sublist_cons|done].
    + intros [Hs Hl]. apply sublist_cons_r in Hs as [Hs|(s' & -> & Hs)]; [by right|].
      left. exists s'. split; [done|]. apply IH. split; [done|cbn in Hl; lia].
Qed.

Lemma combs_NoDup {A} k (l : list A) : NoDup l -> NoDup (combs k l).
Proof.
  intros Hnd. revert k. induction Hnd as [|x l Hx Hnd IH]; intros [|k].
  - rewrite combs_zero. apply NoDup_singleton.
  - constructor.
  - rewrite combs_zero. apply NoDup_singleton.
  - rewrite combs_cons. apply NoDup_app. split_and!; [|
      |apply IH].
    + apply NoDup_fmap_2; [intros a b E; by injection E|apply IH].
    + intros s (s' & -> & _)%list_elem_of_fmap [Hs _]%combs_elem. apply Hx.
      apply (elem_of_sublist (x :: s')); [by left|done].
Qed.

Lemma combs_length {A} k (l : list A) : length (combs k l) = binomial (length l) k.
Proof.
  revert k. induction l as [|x l IH]; intros [|k]; [done..|].
  rewrite combs_cons, length_app, length_map, !IH. done.
Qed.

(** *** The successor, recursively *)

Fixpoint nextRec (top : nat) (l : list nat) : option (list nat) :=
  match l with
  | [] => None
  | x :: l' =>
      match nextRec top l' with
      | Some l'' => Some (x :: l'')
      | None => if (x + 1 + length l' <? top)%nat then Some (seq (S x) (S (length l'))) else None
      end
  end.

(** Every index is at most its maximum. *)
Fixpoint bounded (top : nat) (l : list nat) : Prop :=
  match l with
  | [] => True
  | x :: l' => (x + 1 + length l' <= top)%nat /\ bounded top l'
  end.

Lemma bounded_seq top x k : (x + k <= top)%nat -> bounded top (seq x k).
Proof.
  revert x. induction k as [|k IH]; intros x Hk; cbn; [done|].
  rewrite length_seq. split; [lia|]. apply IH. lia.
Qed.

Lemma nextRec_bounded top l l' :
  bounded top l -> nextRec top l = Some l' -> bounded top l' /\ length l' = length l.
Proof.
  revert l'. induction l as [|x l IH]; intros l' Hb; cbn [nextRec]; [done|].
  destruct Hb as [Hx Hb]. destruct (nextRec top l) as [l2|] eqn:E.
  - intros [= <-]. destruct (IH l2 Hb eq_refl) as [H1 H2]. cbn [bounded length]. rewrite H2.
    split; [split; [lia|done]|done].
  - destruct (Nat.ltb_spec (x + 1 + length l) top); [|done]. intros [= <-].
    split; [apply (bounded_seq top (S x) (S (length l))); lia|cbn; by rewrite length_seq].
Qed.

Lemma scanDown_lt n k l j i : scanDown n k l j = Some i -> (i < j)%nat.
Proof.
  induction j as [|j IH]; cbn; [done|].
  destruct (Nat.eqb _ _); [intros H%IH; lia|intros [= ->]; lia].
Qed.

Lemma drop_S_cons {A} (l : list A) n x :
  l !! n = Some x -> x :: drop (n + 1) l = drop n l.
Proof. intros H. rewrite Nat.add_1_r. symmetry. by apply drop_S. Qed.

(** The scan of the loop finds the position where the recursion increments. *)
Lemma scan_next top pre l :
  bounded top l ->
  match scanDown top (length pre + length l) (pre ++ l) (length pre + length l) with
  | Some i => if (length pre <=? i)%nat
      then nextRec top l = Some (drop (length pre) (take i (pre ++ l) ++
             seq (S (nth i (pre ++ l) 0%nat)) (length pre + length l - i)))
      else nextRec top l = None /\
           scanDown top (length pre + length l) (pre ++ l) (length pre) = Some i
  | None => nextRec top l = None /\
            scanDown top (length pre + length l) (pre ++ l) (length pre) = None
  end.
Proof.
  revert pre. induction l as [|x l IH]; intros pre Hb.
  - cbn [length]. rewrite Nat.add_0_r.
    destruct (scanDown top (length pre) (pre ++ []) (length pre)) as [i|] eqn:E; [|done].
    destruct (Nat.leb_spec (length pre) i) as [Hle|]; [|done]. exfalso.
    apply scanDown_lt in E. lia.
  - destruct Hb as [Hx Hb]. specialize (IH (pre ++ [x]) Hb).
    rewrite <- app_assoc in IH. cbn [app] in IH.
    rewrite length_app in IH. cbn [length] in IH |- *.
    replace (length pre + 1 + length l)%nat with (length pre + S (length l))%nat in IH by lia.
    destruct (scanDown top (length pre + S (length l)) (pre ++ x :: l) (length pre + S (length l)))
      as [i|] eqn:E.
    + destruct (Nat.leb_spec (length pre + 1) i) as [Hi|Hi].
      * replace (length pre <=? i)%nat with true by (symmetry; apply Nat.leb_le; lia).
        cbn [nextRec]. rewrite IH. f_equal.
        apply drop_S_cons.
        rewrite lookup_app_l by (rewrite length_take, length_app; cbn; lia).
        rewrite lookup_take_lt by lia. by rewrite list_lookup_middle.
      * destruct IH as [Hn Hs]. replace (length pre + 1)%nat with (S (length pre)) in Hs by lia.
        cbn [scanDown] in Hs. rewrite nth_middle in Hs. cbn [nextRec]. rewrite Hn.
        destruct (Nat.eqb_spec x (length pre + top - (length pre + S (length l)))) as [Hmax|Hmax].
        -- replace (x + 1 + length l <? top)%nat with false by (symmetry; apply Nat.ltb_ge; lia).
           destruct (Nat.leb_spec (length pre) i) as [Hle|_]; [|done].
           exfalso. apply scanDown_lt in Hs. lia.
        -- injection Hs as <-. rewrite Nat.leb_refl.
           replace (x + 1 + length l <? top)%nat with true by (symmetry; apply Nat.ltb_lt; lia).
           rewrite take_app_length, nth_middle.
           replace (length pre + S (length l) - length pre)%nat with (S (length l)) by lia.
           by rewrite drop_app_length.
    + destruct IH as [Hn Hs]. replace (length pre + 1)%nat with (S (length pre)) in Hs by lia.
      cbn [scanDown] in Hs. rewrite nth_middle in Hs. cbn [nextRec]. rewrite Hn.
      destruct (Nat.eqb_spec x (length pre + top - (length pre + S (length l)))) as [Hmax|Hmax]; [|done].
      replace (x + 1 + length l <? top)%nat with false by (symmetry; apply Nat.ltb_ge; lia). done.
Qed.

Lemma nextCombination_rec top l :
  bounded top l -> nextCombination top (length l) l = nextRec top l.
Proof.
  intros Hb. pose proof (scan_next top [] l Hb) as H. cbn [app length Nat.add] in H.
  unfold nextCombination. destruct (scanDown top (length l) l (length l)) as [i|].
  - cbn [Nat.leb drop] in H. by rewrite H.
  - by destruct H as [-> _].
Qed.

(** *** The loop visits every combination *)

(** The successive index lists from [l] to the last one. *)
Inductive visits (top : nat) : list nat -> list (list nat) -> Prop :=
  | visits_last l : nextRec top l = None -> visits top l [l]
  | visits_step l l' ls : nextRec top l = Some l' -> visits top l' ls -> visits top l (l :: ls).

Lemma visits_prefix top x ys ls rest :
  visits top ys ls -> bounded top ys ->
  (if (x + 1 + length ys <? top)%nat then visits top (seq (S x) (S (length ys))) rest else rest = []) ->
  visits top (x :: ys) (map (cons x) ls ++ rest).
Proof.
  intros Hv. revert rest. induction Hv as [l Hn|l l' ls Hn Hv IH]; intros rest Hb Hrest; cbn [map app].
  - destruct (Nat.ltb_spec (x + 1 + length l) top) as [Hlt|Hge].
    + eapply visits_step; [|exact Hrest]. cbn [nextRec]. rewrite Hn.
      by replace (x + 1 + length l <? top)%nat with true by (symmetry; by apply Nat.ltb_lt).
    + subst rest. apply visits_last. cbn [nextRec]. rewrite Hn.
      by replace (x + 1 + length l <? top)%nat with false by (symmetry; by apply Nat.ltb_ge).
  - destruct (nextRec_bounded top l l' Hb Hn) as [Hb' Hl].
    apply (visits_step top _ (x :: l')); [cbn [nextRec]; by rewrite Hn|].
    apply IH; [done|]. by rewrite Hl.
Qed.

Lemma visits_all top k d x : (x + k + d = top)%nat -> visits top (seq x k) (combs k (seq x (k + d))).
Proof.
  revert d x. induction k as [|k IHk]; intros d x Hd.
  - rewrite combs_zero. by apply visits_last.
  - revert x Hd. induction d as [|d IHd]; intros x Hd.
    + cbn [seq]. replace (S k + 0)%nat with (S (k + 0)) by lia. cbn [seq]. rewrite combs_cons.
      apply visits_prefix; [apply (IHk 0%nat); lia|apply bounded_seq; lia|].
      rewrite length_seq.
      replace (x + 1 + k <? top)%nat with false by (symmetry; apply Nat.ltb_ge; lia).
      destruct (combs (S k) (seq (S x) (k + 0))) as [|s ss] eqn:E; [done|]. exfalso.
      assert (s ∈ combs (S k) (seq (S x) (k + 0))) as Hs by (rewrite E; by left).
      apply combs_elem in Hs as [Hs%sublist_length Hl]. rewrite length_seq in Hs. lia.
    + cbn [seq]. replace (S k + S d)%nat with (S (k + S d)) by lia. cbn [seq]. rewrite combs_cons.
      apply visits_prefix; [apply (IHk (S d)); lia|apply bounded_seq; lia|].
      rewrite length_seq.
      replace (x + 1 + k <? top)%nat with true by (symmetry; apply Nat.ltb_lt; lia).
      replace (k + S d)%nat with (S k + d)%nat by lia. apply IHd. lia.
Qed.

(** A fold that stops when the callback says so. *)
Fixpoint foldStop {A S : Type} (fn : S -> A -> out (S * bool)) (l : list A) (st : S) : out S :=
  match l with
  | [] => Ok st
  | x :: l' => let? (st, stop) := fn st x in if stop then Ok st else foldStop fn l' st
  end.

Lemma loop_visits {S} (fn : S -> list nat -> out (S * bool)) n k l ls fuel st :
  visits n l ls -> bounded n l -> length l = k -> (length ls <= fuel)%nat ->
  combinationLoop fuel fn n k l st = foldStop fn ls st.
Proof.
  intros Hv. revert fuel st. induction Hv as [l Hn|l l' ls Hn Hv IH]; intros fuel st Hb Hl Hf;
    (destruct fuel as [|fuel]; [cbn in Hf; lia|]); cbn [combinationLoop foldStop];
    destruct (fn st l) as [[st' []]| |]; cbn [out_bind]; try done.
  - rewrite <- Hl, nextCombination_rec, Hn by done. done.
  - rewrite <- Hl, nextCombination_rec, Hn by done.
    destruct (nextRec_bounded n l l' Hb Hn) as [Hb' Hl'].
    rewrite Hl. apply IH; [done|congruence|cbn in Hf; lia].
Qed.

Lemma combinations_reference {S} n k (fn : S -> list nat -> out (S * bool)) st :
  0 < k <= n ->
  forEachShareCombination n k fn st = foldStop fn (combs (Z.to_nat k) (seq 0 (Z.to_nat n))) st.
Proof.
  intros Hk. unfold forEachShareCombination. replace ((k <=? 0) || (n <? k)) with false by lia.
  pose proof (visits_all (Z.to_nat n) (Z.to_nat k) (Z.to_nat n - Z.to_nat k) 0 ltac:(lia)) as Hv.
  replace (Z.to_nat k + (Z.to_nat n - Z.to_nat k))%nat with (Z.to_nat n) in Hv by lia.
  apply (loop_visits fn _ _ _ _ _ _ Hv).
  - apply bounded_seq. lia.
  - apply length_seq.
  - by rewrite combs_length, length_seq.
Qed.

(** The loop over index subsets terminates within its fuel and is the
    fold, with early exit, over the list of all subsets of size [k] of the
    first [n] numbers: that list has each such subset exactly once and
    [binomial n k] of them. Outside [0 < k <= n] it does nothing. *)
Lemma combinations_enumerated {S} n k (fn : S -> list nat -> out (S * bool)) st :
  (0 < k <= n ->
   let all := combs (Z.to_nat k) (seq 0 (Z.to_nat n)) in
   forEachShareCombination n k fn st = foldStop fn all st /\
   NoDup all /\ length all = binomial (Z.to_nat n) (Z.to_nat k) /\
   forall s, s ∈ all <-> s `sublist_of` seq 0 (Z.to_nat n) /\ length s = Z.to_nat k) /\
  (~ 0 < k <= n -> forEachShareCombination n k fn st = Ok st).
Proof.
  split.
  - intros Hk all. split_and!.
    + by apply combinations_reference.
    + apply combs_NoDup, NoDup_seq.
    + unfold all. by rewrite combs_length, length_seq.
    + intros s. apply combs_elem.
  - intros Hk. unfold forEachShareCombination. by replace ((k <=? 0) || (n <? k)) with true by lia.
Qed.

(** ** Sets of shares

    The validation loop of [CombineSharesBounded] accepts well-formed shares
    with different keys and files each under its sub-batch, and the numbers of
    attempts it reports stay within their limits. *)

Section Shares.
Context `{Suite} (c : ClusterBTE).

(** ** The validation of the shares *)

(** A share that passes the checks. *)
Definition wellFormed (plan : BatchPlan) (d : DecryptionShare) : Prop :=
  d_BatchID d = plan_BatchID plan /\ 0 <= d_SubBatchID d < zlen (SubBatches plan) /\
  0 <= d_OperatorID d < btd_N (cl_btd c) /\ exists s, d_Share d = Some s /\ pub_I s = d_OperatorID d.

Definition shareKey (d : DecryptionShare) : Z * Z := (d_SubBatchID d, d_OperatorID d).

Definition sharesFor (id : Z) (ds : list DecryptionShare) : list PubShare :=
  omap (fun d => if d_SubBatchID d =? id then d_Share d else None) ds.

Lemma acceptShares plan ds seen bySub :
  Forall (wellFormed plan) ds -> NoDup (map shareKey ds) ->
  (forall d, d ∈ ds -> shareKey d ∉ seen) ->
  exists seen' bySub', fold_out (acceptShare c plan) ds (seen, bySub) = Ok (seen', bySub') /\
    forall id, default [] (bySub' !! id) = default [] (bySub !! id) ++ sharesFor id ds.
Proof.
  intros Hwf. revert seen bySub. induction Hwf as [|d ds Hd _ IH]; intros seen bySub Hnd Hseen.
  - exists seen, bySub. split; [done|]. intros id. cbn. by rewrite app_nil_r.
  - destruct Hd as (Hb & Hsub & Hop & s & Hs & HI). apply NoDup_cons in Hnd as [Hkey Hnd].
    cbn [fold_out]. unfold acceptShare at 1. rewrite bool_decide_true by done. cbn [negb].
    replace ((d_SubBatchID d <? 0) || (zlen (SubBatches plan) <=? d_SubBatchID d)) with false by lia.
    replace ((d_OperatorID d <? 0) || (btd_N (cl_btd c) <=? d_OperatorID d)) with false by lia.
    rewrite Hs. replace (pub_I s =? d_OperatorID d) with true by lia. cbn [negb].
    rewrite bool_decide_false by (apply (Hseen d); by left). cbn [out_bind].
    destruct (IH ({[ shareKey d ]} ∪ seen) (<[d_SubBatchID d := default [] (bySub !! d_SubBatchID d) ++ [s]]> bySub) Hnd)
      as (seen' & bySub' & Hf & Hby).
    { intros d' Hd' [Hk%elem_of_singleton|Hk]%elem_of_union.
      - apply Hkey. rewrite <- Hk. by apply list_elem_of_fmap_2.
      - apply (Hseen d'); [by right|done]. }
    exists seen', bySub'. split; [exact Hf|]. intros id. rewrite Hby. cbn [sharesFor omap list_omap].
    destruct (Z.eqb_spec (d_SubBatchID d) id) as [<-|Hne].
    + rewrite lookup_insert_eq, Hs. simpl. by rewrite <- app_assoc.
    + by rewrite lookup_insert_ne.
Qed.

Lemma sharesFor_operators plan id ds :
  Forall (wellFormed plan) ds -> NoDup (map shareKey ds) ->
  NoDup (map pub_I (sharesFor id ds)) /\
  (forall i, i ∈ map pub_I (sharesFor id ds) -> 0 <= i /\ (id, i) ∈ map shareKey ds).
Proof.
  induction 1 as [|d ds Hd _ IH]; cbn [map]; [intros _; split; [constructor|intros i Hi; by apply elem_of_nil in Hi]|].
  intros [Hkey Hnd]%NoDup_cons. destruct (IH Hnd) as [IH1 IH2].
  destruct Hd as (_ & _ & Hop & s & Hs & HI). cbn [sharesFor omap list_omap].
  destruct (Z.eqb_spec (d_SubBatchID d) id) as [Hid|Hne].
  - rewrite Hs. cbn [map]. split.
    + apply NoDup_cons. split; [|done]. intros [_ Hin]%IH2. apply Hkey. unfold shareKey. by rewrite Hid, <- HI.
    + intros i [->|Hi]%elem_of_cons.
      * split; [lia|]. unfold shareKey at 1. rewrite Hid, <- HI. by left.
      * destruct (IH2 i Hi). split; [done|by right].
  - split; [done|]. intros i Hi. destruct (IH2 i Hi). split; [done|by right].
Qed.

Definition countFor (id : Z) (ds : list DecryptionShare) : Z :=
  zlen (List.filter (fun d => d_SubBatchID d =? id) ds).

Lemma sharesFor_length plan id ds :
  Forall (wellFormed plan) ds -> zlen (sharesFor id ds) = countFor id ds.
Proof.
  unfold countFor. induction 1 as [|d ds (_ & _ & _ & s & Hs & _) _ IH]; [done|].
  cbn [sharesFor omap list_omap List.filter]. destruct (d_SubBatchID d =? id); [|exact IH].
  rewrite Hs. cbn [length]. unfold sharesFor in IH. lia.
Qed.

(** ** Attempts *)

Section Attempts.
Context (RecoverCommit : list PubShare -> Z -> Z -> out (Point G1)) (Hash : bytes -> bytes).
Context (hkdf : bytes -> bytes -> bytes) (aead_Open : bytes -> bytes -> bytes -> bytes -> out bytes).

(** A property of the state that the callback keeps holds at the end. *)
Lemma combinationLoop_keeps {S} (P : S -> Prop) (fn : S -> list nat -> out (S * bool)) fuel n k indices st st' :
  (forall st l st1 stop, P st -> fn st l = Ok (st1, stop) -> P st1) ->
  P st -> combinationLoop fuel fn n k indices st = Ok st' -> P st'.
Proof.
  intros Hfn. revert indices st. induction fuel as [|fuel IH]; intros indices st HP; [done|].
  cbn [combinationLoop]. destruct (fn st indices) as [[st1 stop]| |] eqn:E; [|done|done]. cbn [out_bind].
  apply (Hfn _ _ _ _ HP) in E. destruct stop; [by intros [= <-]|].
  destruct (nextCombination n k indices); [by apply IH|by intros [= <-]].
Qed.

Lemma combineSubBatch_attempts items shares maxAttempts tries res :
  0 <= maxAttempts ->
  combineSubBatch RecoverCommit Hash hkdf aead_Open c items shares maxAttempts = Ok (tries, res) ->
  0 <= tries <= maxAttempts.
Proof.
  intros Hmax. unfold combineSubBatch.
  destruct (forEachShareCombination _ _ _ _) as [st| |] eqn:E; [|done|done]. cbn [out_bind].
  assert (0 <= attempts st <= maxAttempts) as Hst.
  { unfold forEachShareCombination in E. destruct (_ || _); [injection E as <-; cbn; lia|].
    refine (combinationLoop_keeps (fun st => 0 <= attempts st <= maxAttempts) _ _ _ _ _ _ _ _ _ E); [|cbn; lia].
    clear. intros st l st1 stop Hst. unfold tryCombination. destruct (Z.leb_spec maxAttempts (attempts st)).
    { by intros [= <- _]. }
    destruct (map_out _ l) as [shs| |]; [|done|done]. cbn [out_bind].
    destruct (BatchCombineMessages _ _ _ _ _ _) as [[msgs ?]|e|]; [|intros [= <- _]; cbn; lia|done].
    destruct (plaintextResultsFromMessages _ _ _ _) as [rs| |]; [|done|done]. cbn [out_bind].
    destruct (firstSome _ rs); intros [= <- _]; cbn; lia. }
  destruct (combined st), (maxAttempts <=? attempts st), (firstErr st); intros [= <- _]; exact Hst.
Qed.

(** Attempts within the limits, sub-batch by sub-batch. *)
Definition within (stats limits : list Z) : Prop := Forall2 (fun tries limit => 0 <= tries <= limit) stats limits.

Lemma combineLoop_within options limits bySub id subs stats results stats' res :
  AttemptLimitsBySubBatch options = Some limits -> 0 <= id -> Forall (fun l => 0 <= l) limits ->
  within stats limits ->
  combineLoop RecoverCommit Hash hkdf aead_Open c options bySub id subs stats results = Ok (stats', res) ->
  within stats' limits.
Proof.
  intros Hlim Hid Hpos. revert id Hid stats results. induction subs as [|items subs IH]; intros id Hid stats results Hw.
  { by intros [= <- _]. }
  cbn [combineLoop]. destruct (_ <? _); [by intros [= <- _]|]. rewrite Hlim.
  destruct (at_index limits id) as [limit| |] eqn:El; [|done|done]. cbn [out_bind].
  destruct (limit <? 1); [by intros [= <- _]|].
  destruct (combineSubBatch _ _ _ _ _ _ _ _) as [[tries r]| |] eqn:Ec; [|done|done]. cbn [out_bind].
  unfold at_index in El. replace (id <? 0) with false in El by lia.
  destruct (limits !! Z.to_nat id) as [limit'|] eqn:Elk; [|done]. injection El as ->.
  assert (0 <= limit) as Hl by (rewrite Forall_forall in Hpos; by apply Hpos, (list_elem_of_lookup_2 _ (Z.to_nat id))).
  apply combineSubBatch_attempts in Ec; [|done].
  unfold set_index. destruct (_ || _); [done|]. cbn [out_bind].
  assert (within (<[Z.to_nat id := tries]> stats) limits) as Hw'.
  { unfold within. rewrite <- (list_insert_id limits (Z.to_nat id) limit) by done. by apply Forall2_insert. }
  destruct r as [rs|e|]; [|by intros [= <- _]|done].
  destruct (fold_out _ rs results) as [results'| |]; [|done|done]. cbn [out_bind]. apply IH; [lia|done].
Qed.

Lemma CombineSharesBounded_within plan ds max limits stats res :
  length limits = length (SubBatches plan) -> Forall (fun l => 0 <= l) limits ->
  CombineSharesBounded RecoverCommit Hash hkdf aead_Open c plan ds (mkCombineOptions max (Some limits)) = Ok (stats, res) ->
  within stats limits.
Proof.
  intros Hlen Hpos. unfold CombineSharesBounded. cbn [MaxAttemptsPerSubBatch AttemptLimitsBySubBatch].
  assert (within (replicate (length (SubBatches plan)) 0) limits) as H0.
  { rewrite <- Hlen. clear Hlen. unfold within. induction Hpos; cbn; constructor; [lia|done]. }
  destruct (max <? 1); [by intros [= <- _]|]. destruct (negb _); [by intros [= <- _]|].
  destruct (fold_out _ _ _) as [[seen bySub]|e|]; [|by intros [= <- _]|done].
  intros Hloop. eapply combineLoop_within; [| |exact Hpos|exact H0|exact Hloop]; [done|lia].
Qed.
End Attempts.
End Shares.
