(* ===== verification/BatchArrange.v ===== *)
(** * Batches: the arrangement into sub-batches

    Every non-empty batch of valid ciphertexts within [BMax] is arranged: the
    sub-batches hold each ciphertext once, and none holds two ciphertexts with
    the same index. *)

From S2P Require Import Prelude Order GoStrings Sha256 Kyber Prf Btd BtdLaws Batch.

(** ** Occurrences *)

Abbreviation occ i l := (Z.of_nat (count_occ Z.eq_dec l i)).

Lemma occ_cons i x l : occ i (x :: l) = (if decide (x = i) then 1 else 0) + occ i l.
Proof. cbn. destruct (Z.eq_dec x i), (decide (x = i)); try done; lia. Qed.

Lemma occ_app i l1 l2 : occ i (l1 ++ l2) = occ i l1 + occ i l2.
Proof. rewrite count_occ_app. lia. Qed.

Lemma occ_perm i l1 l2 : l1 ≡ₚ l2 -> occ i l1 = occ i l2.
Proof. intros Hp. f_equal. induction Hp; cbn; repeat case_match; congruence. Qed.

Lemma occ_le_length i l : occ i l <= zlen l.
Proof. induction l as [|x l IH]; [done|]. rewrite occ_cons. cbn [length]. case_decide; lia. Qed.

Lemma occ_elem i l : i ∈ l -> 1 <= occ i l.
Proof. induction 1 as [i l|i x l _ IH]; rewrite occ_cons; [rewrite decide_True by done|case_decide]; lia. Qed.

(** If every list of a family contains [i], it occurs at least once per list. *)
Lemma occ_everywhere {A} (f : A -> Z) i (ls : list (list A)) :
  (forall l, l ∈ ls -> i ∈ map f l) -> zlen ls <= occ i (map f (concat ls)).
Proof.
  induction ls as [|l ls IH]; intros H; [done|].
  cbn [concat length]. rewrite map_app, occ_app.
  pose proof (occ_elem i (map f l) (H l ltac:(by left))).
  assert (zlen ls <= occ i (map f (concat ls))) by (apply IH; intros l' Hl'; apply H; by right). lia.
Qed.

Lemma countIndex_fold l m i : countOf (fold_left countIndex l m) i = countOf m i + occ i l.
Proof.
  revert m. induction l as [|x l IH]; intros m; cbn [fold_left]; [cbn; lia|].
  rewrite IH, occ_cons. unfold countOf, countIndex. case_decide as Hx.
  - subst. rewrite lookup_insert_eq. cbn. lia.
  - rewrite lookup_insert_ne by done. lia.
Qed.

(** ** The number of sub-batches *)

Lemma ceilTwoSqrt_spec n : 0 <= n -> let a := ceilTwoSqrt n in 0 <= a /\ 4 * n <= a * a /\ (forall b, 0 <= b -> 4 * n <= b * b -> a <= b).
Proof.
  intros Hn a. subst a. unfold ceilTwoSqrt.
  pose proof (Z.sqrt_spec (4 * n) ltac:(lia)) as [H1 H2].
  pose proof (Z.sqrt_nonneg (4 * n)) as H0.
  set (s := Z.sqrt (4 * n)) in *. clearbody s.
  destruct (Z.eqb_spec (s * s) (4 * n)).
  - split_and!; [done|lia|]. intros b Hb Hb2. nia.
  - split_and!; [lia|nia|]. intros b Hb Hb2. nia.
Qed.

(** The loop over the counts finds their maximum, in any order. *)
Lemma chooseAlpha_spec n counts :
  1 <= n ->
  let alpha := chooseAlpha n counts in
  1 <= alpha <= n /\
  (ceilTwoSqrt n <= n -> ceilTwoSqrt n <= alpha) /\
  forall i c, counts !! i = Some c -> c <= n -> c <= alpha.
Proof.
  intros Hn alpha. subst alpha. unfold chooseAlpha.
  set (a0 := Z.max 1 (ceilTwoSqrt n)).
  set (a := map_fold _ a0 counts).
  assert (a0 <= a /\ forall i c, counts !! i = Some c -> c <= a) as [H0 Hc].
  { subst a. apply (map_fold_weak_ind (fun r m => a0 <= r /\ forall i c, m !! i = Some c -> c <= r)).
    - split; [lia|]. intros i c H. by rewrite lookup_empty in H.
    - intros i c m r Hi [Hr Hm]. destruct (Z.ltb_spec r c) as [Hlt|Hge].
      + split; [lia|]. intros j d [[<- <-]|[_ Hj]]%lookup_insert_Some; [lia|].
        specialize (Hm j d Hj). lia.
      + split; [done|]. intros j d [[<- <-]|[_ Hj]]%lookup_insert_Some; [lia|].
        by apply (Hm j d Hj). }
  assert (1 <= a0 /\ ceilTwoSqrt n <= a0) as [H1 H2] by (subst a0; lia).
  clearbody a a0. destruct (Z.ltb_spec n a).
  - split_and!; [lia|lia|lia|]. intros i c _ Hcn. lia.
  - split_and!; [lia|lia|lia|]. intros i c Hi _. by apply (Hc i c).
Qed.

Section Arrange.
Context `{Suite}.

Lemma appendTo_length (subs : list (list BatchItem)) i x : length (appendTo subs i x) = length subs.
Proof. apply length_alter. Qed.

Lemma appendTo_concat (subs : list (list BatchItem)) i x :
  (i < length subs)%nat -> concat (appendTo subs i x) ≡ₚ x :: concat subs.
Proof.
  unfold appendTo. revert i. induction subs as [|sub subs IH]; intros [|i] Hi; cbn in Hi; try lia; cbn [alter list_alter concat].
  - cbn. rewrite <- app_assoc. symmetry. apply Permutation_middle.
  - change (concat (sub :: alter (fun s => s ++ [x]) i subs) ≡ₚ x :: sub ++ concat subs).
    cbn [concat]. etransitivity; [apply Permutation_app_head, IH; lia|]. symmetry. apply Permutation_middle.
Qed.

Lemma concat_replicate_nil {A} n : concat (replicate n ([] : list A)) = [].
Proof. induction n; done. Qed.

Lemma roundRobin_spec alpha i items subs :
  0 < alpha -> zlen subs = alpha ->
  zlen (roundRobin alpha i items subs) = alpha /\
  concat (roundRobin alpha i items subs) ≡ₚ concat subs ++ items.
Proof.
  intros Ha. revert i subs. induction items as [|x items IH]; intros i subs Hl; cbn [roundRobin].
  - by rewrite app_nil_r.
  - pose proof (Z.mod_pos_bound i alpha Ha) as Hm.
    destruct (IH (i + 1) (appendTo subs (Z.to_nat (i mod alpha)) x)) as [H1 H2].
    { by rewrite appendTo_length. }
    split; [done|]. etransitivity; [exact H2|].
    etransitivity; [apply Permutation_app_tail, appendTo_concat; lia|].
    cbn. apply Permutation_middle.
Qed.

(** The sub-batch the scan returns does not have the index; when it returns
  none, every sub-batch scanned has it. *)
Lemma selectSubBatch_spec (subs : list (list BatchItem)) seen index todo id selected :
  (forall s, selected = Some s -> (s < id)%nat /\ index ∉ nth s seen ∅) ->
  match selectSubBatch subs seen index todo id selected with
  | Some s => (s < id + todo)%nat /\ index ∉ nth s seen ∅
  | None => selected = None /\ forall j, (id <= j < id + todo)%nat -> index ∈ nth j seen ∅
  end.
Proof.
  revert id selected. induction todo as [|todo IH]; intros id selected Hsel; cbn [selectSubBatch].
  - destruct selected as [s|]; [destruct (Hsel s eq_refl); split; [lia|done]|]. split; [done|]. intros j Hj. lia.
  - case_bool_decide as Hin.
    + specialize (IH (S id) selected). destruct (selectSubBatch subs seen index todo (S id) selected) as [s|].
      * destruct IH as [H1 H2]; [intros s' Hs'; destruct (Hsel s' Hs'); split; [lia|done]|]. split; [lia|done].
      * destruct IH as [H1 H2]; [intros s' Hs'; destruct (Hsel s' Hs'); split; [lia|done]|].
        split; [done|]. intros j Hj. destruct (decide (j = id)) as [->|]; [done|]. apply H2. lia.
    + set (sel' := match selected with None => Some id | Some s => _ end).
      assert (exists s, sel' = Some s /\ (s < S id)%nat /\ index ∉ nth s seen ∅) as (s' & Hs' & Hlt & Hni).
      { subst sel'. destruct selected as [s|]; [destruct (Hsel s eq_refl); destruct (_ <? _)%nat|];
          eexists; (split; [reflexivity|]); split; (lia || done). }
      rewrite Hs'. specialize (IH (S id) (Some s')).
      destruct (selectSubBatch subs seen index todo (S id) (Some s')) as [s|].
      * destruct IH as [H1 H2]; [intros s2 [= <-]; done|]. split; [lia|done].
      * destruct IH as [H1 _]; [intros s2 [= <-]; done|done].
Qed.

(** Where the collision-free loop stands: [seen] holds the indices of each
  sub-batch, and no sub-batch repeats one. *)
Record placed (alpha : Z) (items : list BatchItem) (subs : list (list BatchItem)) (seen : list (gset Z)) : Prop := {
  placed_subs : zlen subs = alpha;
  placed_seen : zlen seen = alpha;
  placed_perm : concat subs ≡ₚ items;
  placed_sets : forall j sub s, subs !! j = Some sub -> seen !! j = Some s ->
    (forall i, i ∈ s <-> i ∈ map (fun it => index_of it) sub);
  placed_distinct : forall sub, sub ∈ subs -> NoDup (map (fun it => index_of it) sub)
}.

Lemma placed_step alpha items subs seen x s :
  placed alpha items subs seen -> (s < length subs)%nat -> index_of x ∉ nth s seen ∅ ->
  placed alpha (items ++ [x]) (appendTo subs s x) (alter (fun t => {[ index_of x ]} ∪ t) s seen).
Proof.
  intros [Hsubs Hseen Hperm Hsets Hdist] Hs Hni.
  assert (exists sub0, subs !! s = Some sub0) as [sub0 Hsub0] by (apply lookup_lt_is_Some; lia).
  assert (exists set0, seen !! s = Some set0) as [set0 Hset0] by (apply lookup_lt_is_Some; lia).
  assert (index_of x ∉ map (fun it => index_of it) sub0) as Hnew.
  { rewrite <- (Hsets s sub0 set0 Hsub0 Hset0). by rewrite (nth_lookup_Some _ _ _ _ Hset0) in Hni. }
  split.
  - by rewrite appendTo_length.
  - by rewrite length_alter.
  - etransitivity; [by apply appendTo_concat|]. rewrite Hperm. apply Permutation_cons_append.
  - intros j sub t Hsub Ht i. unfold appendTo in Hsub.
    destruct (decide (s = j)) as [<-|Hne].
    + rewrite list_lookup_alter_eq, Hsub0 in Hsub. rewrite list_lookup_alter_eq, Hset0 in Ht.
      cbn in Hsub, Ht. injection Hsub as <-. injection Ht as <-.
      rewrite elem_of_union, elem_of_singleton, map_app, elem_of_app. cbn [map].
      rewrite list_elem_of_singleton, (Hsets s sub0 set0 Hsub0 Hset0). naive_solver.
    + rewrite list_lookup_alter_ne in Hsub by done. rewrite list_lookup_alter_ne in Ht by done. by apply (Hsets j sub t Hsub Ht).
  - intros sub Hsub. apply list_elem_of_lookup in Hsub as [j Hj]. unfold appendTo in Hj.
    destruct (decide (s = j)) as [<-|Hne].
    + rewrite list_lookup_alter_eq, Hsub0 in Hj. cbn in Hj. injection Hj as <-.
      rewrite map_app. apply NoDup_app. split_and!.
      * apply Hdist. by apply (list_elem_of_lookup_2 _ s).
      * intros i Hi Hi'%list_elem_of_singleton. subst i. done.
      * apply NoDup_singleton.
    + rewrite list_lookup_alter_ne in Hj by done. apply Hdist. by apply (list_elem_of_lookup_2 _ j).
Qed.

(** With at least as many sub-batches as any index has ciphertexts, the loop
  always finds a place. *)
Lemma collisionFree_loop alpha todo done_ subs seen :
  placed alpha done_ subs seen ->
  (forall i, occ i (map (fun it => index_of it) (done_ ++ todo)) <= alpha) ->
  exists subs' seen',
    fold_out (fun st item =>
      let '(subBatches, seen) := st in
      match selectSubBatch subBatches seen (index_of item) (Z.to_nat alpha) 0 None with
      | None => Err "no collision-free sub-batch available"
      | Some selected =>
          Ok (appendTo subBatches selected item, alter (fun s => {[ index_of item ]} ∪ s) selected seen)
      end) todo (subs, seen) = Ok (subs', seen') /\
    placed alpha (done_ ++ todo) subs' seen'.
Proof.
  revert done_ subs seen. induction todo as [|x todo IH]; intros done_ subs seen Hp Hocc; cbn [fold_out].
  - exists subs, seen. by rewrite app_nil_r.
  - pose proof (selectSubBatch_spec subs seen (index_of x) (Z.to_nat alpha) 0 None ltac:(done)) as Hsel.
    destruct (selectSubBatch subs seen (index_of x) (Z.to_nat alpha) 0 None) as [s|].
    + destruct Hsel as [Hs Hni]. cbn [out_bind]. pose proof (placed_subs _ _ _ _ Hp) as Hlen.
      assert (s < length subs)%nat as Hslt by lia.
      destruct (IH _ _ _ (placed_step alpha done_ subs seen x s Hp Hslt Hni)) as (subs' & seen' & Hf & Hp').
      { intros i. rewrite <- app_assoc. apply Hocc. }
      exists subs', seen'. split; [done|]. by rewrite <- app_assoc in Hp'.
    + exfalso. destruct Hsel as [_ Hall]. specialize (Hocc (index_of x)).
      rewrite map_app, occ_app in Hocc. cbn [map] in Hocc. rewrite occ_cons, decide_True in Hocc by done.
      destruct Hp as [Hsubs Hseen Hperm Hsets _].
      assert (zlen subs <= occ (index_of x) (map (fun it => index_of it) (concat subs))) as Hev.
      { apply (occ_everywhere (fun it => index_of it)). intros sub Hsub.
        apply list_elem_of_lookup in Hsub as [j Hj]. pose proof (lookup_lt_Some _ _ _ Hj) as Hjl.
        assert (exists t, seen !! j = Some t) as [t Ht] by (apply lookup_lt_is_Some; lia).
        apply (Hsets j sub t Hj Ht). rewrite <- (nth_lookup_Some seen j ∅ t Ht). apply Hall. lia. }
      rewrite (occ_perm _ _ _ (Permutation_map _ Hperm)) in Hev. lia.
Qed.

Lemma collisionFree_ok items alpha :
  0 <= alpha -> (forall i, occ i (map (fun it => index_of it) items) <= alpha) ->
  exists subs, arrangeCollisionFree items alpha = Ok subs /\
    zlen subs = alpha /\ concat subs ≡ₚ items /\
    forall sub, sub ∈ subs -> NoDup (map (fun it => index_of it) sub).
Proof.
  intros Ha Hocc. unfold arrangeCollisionFree.
  assert (placed alpha [] (replicate (Z.to_nat alpha) []) (replicate (Z.to_nat alpha) ∅)) as H0.
  { split.
    - rewrite length_replicate. lia.
    - rewrite length_replicate. lia.
    - by rewrite concat_replicate_nil.
    - intros j sub s [-> _]%lookup_replicate [-> _]%lookup_replicate i. cbn.
      split; [intros Hi; by apply elem_of_empty in Hi|intros Hi; by apply elem_of_nil in Hi].
    - intros sub Hsub. apply elem_of_replicate in Hsub as [-> _]. constructor. }
  destruct (collisionFree_loop alpha items [] _ _ H0 Hocc) as (subs & seen & Hf & [H1 _ H3 _ H5]).
  rewrite Hf. cbn. eauto.
Qed.

Lemma validateSubBatchIndices_spec (subs : list (list BatchItem)) :
  validateSubBatchIndices subs = true <-> forall sub, sub ∈ subs -> NoDup (map (fun it => index_of it) sub).
Proof.
  unfold validateSubBatchIndices. rewrite forallb_forall. split.
  - intros H' sub Hsub. by apply (distinctFrom_spec []), H', list_elem_of_In.
  - intros H' sub Hsub%list_elem_of_In. apply distinctFrom_spec. split; [by apply H'|].
    intros x _. apply not_elem_of_nil.
Qed.

Lemma newItems_positions (cts : list Ciphertext) : map OriginalPosition (newItems cts) = seqZ 0 (zlen cts).
Proof.
  unfold newItems.
  assert (forall ps, length ps = length cts -> map OriginalPosition (zip_with mkBatchItem ps cts) = ps) as Hz.
  { intros ps. revert cts. induction ps as [|p ps IH]; intros [|ct cts] Hl; try done. cbn. f_equal. apply IH. by injection Hl. }
  apply Hz. rewrite length_seqZ. lia.
Qed.

Lemma newItems_ciphertexts (cts : list Ciphertext) : map bi_Ciphertext (newItems cts) = cts.
Proof.
  unfold newItems.
  assert (forall ps, length ps = length cts -> map bi_Ciphertext (zip_with mkBatchItem ps cts) = cts) as Hz.
  { induction cts as [|ct cts IH]; intros [|p ps] Hl; try done. cbn. f_equal. apply IH. by injection Hl. }
  apply Hz. rewrite length_seqZ. lia.
Qed.

Lemma newItems_indices (cts : list Ciphertext) :
  map (fun it => index_of it) (newItems cts) = map (fun ct => ct_I (Capsule ct)) cts.
Proof. rewrite <- (newItems_ciphertexts cts) at 2. by rewrite map_map. Qed.

Definition valid (c : ClusterBTE) (ct : Ciphertext) : Prop := validateCiphertext c ct = Ok tt.

#[local] Instance valid_dec c ct : Decision (valid c ct).
Proof.
  unfold valid, validateCiphertext, validateAEADPayloadShape. repeat case_match; (by left) || (by right).
Defined.

Lemma counting c cts counts :
  fold_out (fun counts ct => let? _ := validateCiphertext c ct in Ok (countIndex counts (ct_I (Capsule ct)))) cts counts =
  (if decide (Forall (valid c) cts) then
     Ok (fold_left countIndex (map (fun ct => ct_I (Capsule ct)) cts) counts)
   else fold_out (fun counts ct => let? _ := validateCiphertext c ct in Ok (countIndex counts (ct_I (Capsule ct)))) cts counts).
Proof.
  case_decide as Hv; [|done]. revert counts. induction Hv as [|ct cts Hct _ IH]; intros counts; [done|].
  cbn [fold_out map fold_left]. rewrite Hct. cbn. apply IH.
Qed.

Lemma counting_err c cts counts :
  ~ Forall (valid c) cts ->
  exists e, fold_out (fun counts ct =>
    let? _ := validateCiphertext c ct in Ok (countIndex counts (ct_I (Capsule ct)))) cts counts = Err e.
Proof.
  revert counts. induction cts as [|ct cts IH]; intros counts Hn; [by destruct Hn|]. cbn [fold_out].
  destruct (decide (valid c ct)) as [Hct|Hct].
  - rewrite Hct. cbn. apply IH. intros Hall. apply Hn. by constructor.
  - unfold valid, validateCiphertext, validateAEADPayloadShape in *.
    repeat case_match; try done; cbn; eauto.
Qed.

(** What makes a batch acceptable. *)
Definition acceptable (c : ClusterBTE) (cts : list Ciphertext) : Prop :=
  0 < zlen cts <= BMax c /\ Forall (valid c) cts.

Lemma arrangement c cts :
  acceptable c cts ->
  exists alpha subs, arrangeBatch c cts = Ok (alpha, subs) /\
    1 <= alpha <= zlen cts /\
    (ceilTwoSqrt (zlen cts) <= zlen cts -> ceilTwoSqrt (zlen cts) <= alpha) /\
    zlen subs = alpha /\ concat subs ≡ₚ newItems cts /\
    forall sub, sub ∈ subs -> NoDup (map (fun it => index_of it) sub).
Proof.
  intros [Hn Hv]. unfold arrangeBatch.
  replace (zlen cts =? 0) with false by lia. replace (BMax c <? zlen cts) with false by lia.
  rewrite counting, decide_True by done. cbn [out_bind].
  set (idx := map (fun ct => ct_I (Capsule ct)) cts). set (counts := fold_left countIndex idx ∅).
  destruct (chooseAlpha_spec (zlen cts) counts ltac:(lia)) as (Ha & Hsq & Hc).
  set (alpha := chooseAlpha (zlen cts) counts) in *.
  set (items := sortSlice (itemLess counts) (newItems cts)).
  assert (items ≡ₚ newItems cts) as Hitems by apply merge_sort_Permutation.
  assert (forall i, occ i (map (fun it => index_of it) items) <= alpha) as Hocc.
  { intros i. rewrite (occ_perm i _ _ (Permutation_map _ Hitems)), newItems_indices. fold idx.
    pose proof (countIndex_fold idx ∅ i) as Hi. fold counts in Hi.
    unfold countOf in Hi at 2. rewrite lookup_empty in Hi. cbn [default] in Hi.
    unfold countOf in Hi. destruct (counts !! i) as [k|] eqn:Hk; cbn [default] in Hi; [|cbn in Hi; lia].
    pose proof (occ_le_length i idx) as Hl. unfold idx in Hl at 2. rewrite length_map in Hl.
    specialize (Hc i k Hk). cbn in Hi. lia. }
  destruct (roundRobin_spec alpha 0 items (replicate (Z.to_nat alpha) [])) as [Hrl Hrp];
    [lia|rewrite length_replicate; lia|].
  destruct (validateSubBatchIndices (roundRobin _ _ _ _)) eqn:Hval.
  - exists alpha. eexists. split; [reflexivity|]. split_and!; [lia|lia|exact Hsq|lia| |].
    + etransitivity; [exact Hrp|]. rewrite concat_replicate_nil. exact Hitems.
    + by apply validateSubBatchIndices_spec.
  - destruct (collisionFree_ok items alpha ltac:(lia) Hocc) as (subs & Hsubs & Hl & Hp & Hd).
    rewrite Hsubs. cbn [out_bind].
    replace (validateSubBatchIndices subs) with true by (symmetry; by apply validateSubBatchIndices_spec).
    exists alpha, subs. split; [done|]. split_and!; [lia|lia|exact Hsq|lia| |exact Hd]. exact (Permutation_trans Hp Hitems).
Qed.

(** C29. Arrangement is total on acceptable batches and refuses all others. An
  accepted batch of [n] ciphertexts is split into [alpha] sub-batches with
  [1 <= alpha <= n] (and [alpha] at least [2 * sqrt n] whenever that is at
  most [n]); each ciphertext is in exactly one of them, with its position,
  and no sub-batch has two ciphertexts with the same index: the fallback to
  the collision-free placement never fails. *)
Theorem arrange_total c cts :
  (acceptable c cts ->
   exists alpha subs, arrangeBatch c cts = Ok (alpha, subs) /\
     1 <= alpha <= zlen cts /\
     (ceilTwoSqrt (zlen cts) <= zlen cts -> ceilTwoSqrt (zlen cts) <= alpha) /\
     zlen subs = alpha /\ concat subs ≡ₚ newItems cts /\
     forall sub, sub ∈ subs -> NoDup (map (fun it => index_of it) sub)) /\
  (~ acceptable c cts -> exists e, arrangeBatch c cts = Err e).
Proof.
  split; [apply arrangement|].
  intros Hn. unfold arrangeBatch. destruct (Z.eqb_spec (zlen cts) 0) as [|H0]; [eauto|].
  destruct (Z.ltb_spec (BMax c) (zlen cts)) as [|Hb]; [eauto|].
  destruct (counting_err c cts ∅) as [e ->]; [|cbn; eauto].
  intros Hv. apply Hn. split; [lia|done].
Qed.
End Arrange.

(** ** The ciphertext wire format

    Ciphertexts survive their encoding, and planning a batch from its encoded
    form is planning the batch. *)

(** A bound on encoded group elements and scalars; the curve's are below 1 KiB. *)
Definition encodingLimit : Z := 2 ^ 40.

Class ScalarEncoding `{Suite} : Prop := {
  scalar_marshal_ok : forall s, exists data,
    MarshalScalar s = Ok data /\ UnmarshalScalar data = Ok s /\ zlen data <= encodingLimit
}.

Section Wire.
Context `{SL : SuiteLaws}.
Context (G1_encoding : GroupEncoding G1 encodingLimit) (GT_encoding : GroupEncoding GT encodingLimit).
Context (S_encoding : ScalarEncoding).

(** The length-prefixed form of [data]. *)
Definition prefixed (data : bytes) : bytes := bigEndian 8 (zlen data) ++ data.

Lemma writeBytes_prefixed buf data : zlen data < 2 ^ 64 -> writeBytes buf data = buf ++ prefixed data.
Proof. intros Hl. unfold writeBytes, prefixed. rewrite u64_small by lia. done. Qed.

Lemma prefixed_length data : zlen (prefixed data) = 8 + zlen data.
Proof. unfold prefixed. rewrite length_app, bigEndian_length. lia. Qed.

Lemma readBytes_prefixed data rest :
  zlen data < 2 ^ 64 -> readBytes (prefixed data ++ rest) = Ok (data, rest).
Proof.
  intros Hl. unfold readBytes, prefixed. rewrite <- app_assoc, readUint8_app by lia. cbn [out_bind].
  rewrite length_app.
  replace (Z.of_nat (length data + length rest) <? zlen data) with false
    by (symmetry; apply Z.ltb_ge; lia).
  rewrite Nat2Z.id. apply readFull_app.
Qed.

(** A writer appends a block that a reader turns back into the value. *)
Definition codec {A : Type} (write : bytes -> A -> out bytes) (read : bytes -> out (A * bytes)) (n : Z) : Prop :=
  forall x, exists block,
    (forall buf, write buf x = Ok (buf ++ block)) /\
    (forall rest, read (block ++ rest) = Ok (x, rest)) /\ zlen block <= n.

Lemma point_codec (G : Group Scalar) (GE : GroupEncoding G encodingLimit) :
  codec writePoint (readPoint G) (8 + encodingLimit).
Proof.
  intros P. destruct (marshal_ok P) as (data & Hm & Hu & Hl). unfold encodingLimit in Hl.
  exists (prefixed data). split_and!.
  - intros buf. unfold writePoint. rewrite Hm. cbn [out_bind]. by rewrite writeBytes_prefixed by lia.
  - intros rest. unfold readPoint. rewrite readBytes_prefixed by lia. cbn [out_bind]. by rewrite Hu.
  - rewrite prefixed_length. unfold encodingLimit. lia.
Qed.

Lemma scalar_codec : codec writeScalar readScalar (8 + encodingLimit).
Proof.
  intros s. destruct (scalar_marshal_ok s) as (data & Hm & Hu & Hl). unfold encodingLimit in Hl.
  exists (prefixed data). split_and!.
  - intros buf. unfold writeScalar. rewrite Hm. cbn [out_bind]. by rewrite writeBytes_prefixed by lia.
  - intros rest. unfold readScalar. rewrite readBytes_prefixed by lia. cbn [out_bind]. by rewrite Hu.
  - rewrite prefixed_length. unfold encodingLimit. lia.
Qed.

Lemma capsule_roundtrip ct :
  0 <= ct_I ct < 2 ^ 63 ->
  exists data, marshalCT ct = Ok data /\ UnmarshalCT data = Ok ct /\ zlen data < 2 ^ 64.
Proof.
  intros Hi. destruct ct as [i gamma kp [a b] [ap bp yp kHat uHat]]. cbn [ct_I] in Hi.
  destruct (point_codec GT GT_encoding gamma) as (b1 & W1 & R1 & L1).
  destruct (point_codec G1 G1_encoding kp) as (b2 & W2 & R2 & L2).
  destruct (point_codec G1 G1_encoding a) as (b3 & W3 & R3 & L3).
  destruct (point_codec G1 G1_encoding b) as (b4 & W4 & R4 & L4).
  destruct (point_codec G1 G1_encoding ap) as (b5 & W5 & R5 & L5).
  destruct (point_codec G1 G1_encoding bp) as (b6 & W6 & R6 & L6).
  destruct (point_codec G1 G1_encoding yp) as (b7 & W7 & R7 & L7).
  destruct (scalar_codec kHat) as (b8 & W8 & R8 & L8).
  destruct (scalar_codec uHat) as (b9 & W9 & R9 & L9).
  exists (bigEndian 8 i ++ b1 ++ b2 ++ b3 ++ b4 ++ b5 ++ b6 ++ b7 ++ b8 ++ b9).
  split_and!.
  - unfold marshalCT. cbn [ct_I Gamma Kp ct_C eg_A eg_B Pi Ap Bp Yp KHat UHat fold_out].
    autorewrite with words.
    run W1. run W2. run W3.
    run W4. run W5. run W6.
    run W7. run W8. run W9.
    by rewrite <- !app_assoc.
  - unfold UnmarshalCT. rewrite readUint8_app by lia. cbn [out_bind].
    run R1. run R2. run R3.
    run R4. run R5. run R6.
    run R7. run R8.
    rewrite <- (app_nil_r b9), R9. cbn [out_bind length]. by autorewrite with words.
  - rewrite !length_app, bigEndian_length. unfold encodingLimit in *. lia.
Qed.

(** What the node's own ciphertexts satisfy. *)
Definition encodable (c : ClusterBTE) (ct : Ciphertext) : Prop :=
  valid c ct /\ ct_I (Capsule ct) < 2 ^ 63 /\ zlen (EncryptedTx ct) < 2 ^ 64.

Lemma ciphertext_codec c ct :
  encodable c ct ->
  exists data, marshalCiphertext ct = Ok data /\ UnmarshalCiphertext c data = Ok ct.
Proof.
  intros (Hv & Hi & Hl).
  assert (0 <= ct_I (Capsule ct)) as Hi0.
  { unfold valid, validateCiphertext in Hv. destruct (Z.ltb_spec (ct_I (Capsule ct)) 0); [done|lia]. }
  destruct (capsule_roundtrip (Capsule ct)) as (cap & Hm & Hu & Hcl); [lia|].
  exists (LibraryVersion ++ prefixed cap ++ prefixed (EncryptedTx ct)). split.
  - unfold marshalCiphertext. rewrite Hm. cbn [out_bind]. rewrite !writeBytes_prefixed by done.
    by rewrite <- app_assoc.
  - unfold UnmarshalCiphertext. rewrite readFull_app. cbn [out_bind]. rewrite bool_decide_true by done.
    cbn [negb]. rewrite readBytes_prefixed by done. cbn [out_bind]. rewrite Hu. cbn [out_bind].
    rewrite <- (app_nil_r (prefixed (EncryptedTx ct))), readBytes_prefixed by done. cbn [out_bind length].
    cbn. destruct ct as [capsule tx]. cbn [Capsule EncryptedTx] in *. by rewrite Hv.
Qed.

(** Wire round trip: a ciphertext the cluster accepts is encoded without
  error and decoded to itself. *)
Lemma ciphertext_roundtrip c ct :
  encodable c ct ->
  exists data, marshalCiphertext ct = Ok data /\ UnmarshalCiphertext c data = Ok ct.
Proof. apply ciphertext_codec. Qed.

Lemma map_out_codec c cts :
  Forall (encodable c) cts ->
  exists encoded, map_out marshalCiphertext cts = Ok encoded /\ map_out (UnmarshalCiphertext c) encoded = Ok cts.
Proof.
  induction 1 as [|ct cts Hct _ (encoded & He & Hd)]; [by exists []|].
  destruct (ciphertext_codec c ct Hct) as (data & Hm & Hu).
  exists (data :: encoded). cbn [map_out]. rewrite Hm, Hu. cbn [out_bind]. by rewrite He, Hd.
Qed.

(** Decoding and planning an encoded batch gives the ciphertexts in order
  and the plan, batch identity included, that planning the ciphertexts
  gives; a batch above [BMax] is refused before anything is decoded. *)
Lemma decode_plan_agrees c cts :
  Forall (encodable c) cts -> cts <> [] ->
  exists encoded, map_out marshalCiphertext cts = Ok encoded /\
    if BMax c <? zlen cts then DecodeAndPlanBatch c encoded = Err "batch size exceeds BMax"
    else exists plan, PlanBatch c cts = Ok plan /\ DecodeAndPlanBatch c encoded = Ok (cts, plan).
Proof.
  intros Hall Hne. destruct (map_out_codec c cts Hall) as (encoded & He & Hd).
  exists encoded. split; [done|].
  pose proof (map_out_length _ _ _ He) as Hlen.
  unfold DecodeAndPlanBatch, DecodeBatch. rewrite Hlen.
  destruct (Z.ltb_spec (BMax c) (zlen cts)) as [Hb|Hb]; [done|].
  rewrite Hd. cbn [out_bind].
  destruct (arrangement c cts) as (alpha & subs & Ha & _).
  { split.
    - destruct cts; [done|cbn [length] in *; lia].
    - eapply Forall_impl; [exact Hall|]. by intros ct [Hv _]. }
  unfold PlanDecodedBatch, PlanBatch, computeBatchID. cbn [ciphertexts decoded_batchID].
  rewrite Ha, He. cbn [out_bind]. eauto.
Qed.
End Wire.
