(* ===== verification/BatchDecrypt.v ===== *)
(** * Batches: decryption of a planned batch

    Encrypted transactions, planned as one batch and decrypted with honest
    shares of every sub-batch, come back in their original order: the whole
    way through [EncryptTx], [PlanBatch], [MakeShare] and [CombineShares]. *)

From S2P Require Import Prelude Order GoStrings Sha256 Kyber Prf PrfLaws Btd BtdLaws Batch BatchLaws BatchArrange.

(** ** Lists *)

Lemma map_out_at_index {A} (l : list A) k :
  (k <= length l)%nat ->
  map_out (fun idx => at_index l (Z.of_nat idx)) (seq 0 k) = Ok (take k l).
Proof.
  intros Hk. destruct l as [|d l'].
  - cbn in Hk. by replace k with 0%nat by lia.
  - set (l := d :: l') in *. rewrite (map_out_ok _ (fun idx => nth idx l d)).
    + f_equal. clearbody l. revert k Hk. induction l as [|x l IH]; intros [|k] Hk; try done; [cbn in Hk; lia|].
      cbn [seq map take nth]. f_equal. rewrite <- seq_shift, map_map. apply IH. cbn in Hk. lia.
    + intros idx [_ Hi]%elem_of_seq. rewrite (at_index_nth l _ d) by lia. by rewrite Nat2Z.id.
Qed.

Lemma NoDup_take {A} (l : list A) k : NoDup l -> NoDup (take k l).
Proof. intros Hnd. eapply sublist_NoDup; [exact Hnd|apply sublist_take]. Qed.

(** The loop over combinations starts with the first [k] indices. *)
Lemma combs_head n k : (k <= n)%nat -> exists rest, combs k (seq 0 n) = seq 0 k :: rest.
Proof.
  intros Hk. pose proof (visits_all n k (n - k) 0 ltac:(lia)) as Hv.
  replace (k + (n - k))%nat with n in Hv by lia.
  remember (combs k (seq 0 n)) as ls eqn:E. clear E. inversion Hv; eauto.
Qed.

(** Results written at given positions, one after the other. *)
Definition writeAll {A : Type} (ws : list (Z * A)) (l : list A) : list A :=
  fold_left (fun l w => <[Z.to_nat w.1 := w.2]> l) ws l.

Lemma writeAll_length {A} (ws : list (Z * A)) l : length (writeAll ws l) = length l.
Proof. unfold writeAll. revert l. induction ws as [|w ws IH]; intros l; cbn; [done|]. by rewrite IH, length_insert. Qed.

Lemma set_index_writes {A} (ws : list (Z * A)) (l : list A) :
  Forall (fun w => 0 <= w.1 < zlen l) ws ->
  fold_out (fun l w => set_index l w.1 w.2) ws l = Ok (writeAll ws l).
Proof.
  revert l. induction ws as [|w ws IH]; intros l Hw; [done|]. apply Forall_cons in Hw as [Hw Hws].
  cbn [fold_out]. unfold set_index at 1.
  replace ((w.1 <? 0) || (zlen l <=? w.1)) with false by lia. cbn [out_bind].
  apply IH. by rewrite length_insert.
Qed.

(** Writing the entries of [target] at all its positions gives [target]. *)
Lemma writeAll_complete {A} (target l : list A) (ws : list (Z * A)) :
  length l = length target ->
  (forall w, w ∈ ws -> 0 <= w.1 /\ target !! Z.to_nat w.1 = Some w.2) ->
  (forall p, 0 <= p < zlen target -> p ∈ map fst ws) ->
  writeAll ws l = target.
Proof.
  intros Hl Hws Hall.
  assert (forall p, (p < length target)%nat -> (exists w, w ∈ ws /\ w.1 = Z.of_nat p) \/ l !! p = target !! p ->
    writeAll ws l !! p = target !! p) as H.
  { clear Hall. revert l Hl. induction ws as [|w ws IH]; intros l Hl p Hp Hcase.
    - destruct Hcase as [(w & Hw & _)|Hcase]; [by apply elem_of_nil in Hw|done].
    - cbn [writeAll fold_left]. apply IH; [|by rewrite length_insert|done|].
      + intros w' Hw'. apply Hws. by right.
      + destruct (Hws w ltac:(by left)) as [H0 Hw].
        destruct (decide (Z.to_nat w.1 = p)) as [<-|Hne].
        * right. rewrite Hw. apply list_lookup_insert_eq. lia.
        * destruct Hcase as [(w' & [->|Hw']%elem_of_cons & Hp')|Hcase].
          -- lia.
          -- left. eauto.
          -- right. by rewrite list_lookup_insert_ne. }
  apply list_eq. intros p. destruct (decide (p < length target)%nat) as [Hp|Hp].
  - apply H; [done|]. left. destruct (list_elem_of_fmap_1 _ _ _ (Hall (Z.of_nat p) ltac:(lia))) as (w & Hw & Hin).
    eauto.
  - rewrite !lookup_ge_None_2; [done|lia|rewrite writeAll_length; lia].
Qed.

Section Decrypt.
Context `{SL : SuiteLaws}.
Context (RecoverCommit : list PubShare -> Z -> Z -> out (Point G1)) (Hash : bytes -> bytes).
Context (hkdf : bytes -> bytes -> bytes).
Context (aead_Seal : bytes -> bytes -> bytes -> bytes -> bytes).
Context (aead_Open : bytes -> bytes -> bytes -> bytes -> out bytes).
Context (G1_encoding : GroupEncoding G1 encodingLimit) (GT_encoding : GroupEncoding GT encodingLimit).
Context (S_encoding : ScalarEncoding).
(** What AES-GCM documents: opening inverts sealing, and the tag has 16
  bytes. *)
Hypothesis aead_inverse : forall key nonce pt aad, aead_Open key nonce (aead_Seal key nonce pt aad) aad = Ok pt.
Hypothesis aead_length : forall key nonce pt aad, zlen pt + aeadTagSize <= zlen (aead_Seal key nonce pt aad).

(** A cluster set up over the domain [0, B) with a shared key. *)
Context (B : Z) (par : bool) (xs zs coeffs : list Scalar) (c : ClusterBTE).
Hypothesis Hxs : zlen xs = B.
Hypothesis Hzs : zlen zs = B.
Hypothesis Hx0 : Forall (fun x => x <> sZero) xs.
Hypothesis Hprf : btd_prf (cl_btd c) = PRFSetup B par xs zs.
Hypothesis HB : btd_B (cl_btd c) = B.
Hypothesis HB63 : B <= 2 ^ 63.
Hypothesis HN : Params_N c = B.
Hypothesis Hpk : PK (btd_eg (cl_btd c)) = Mul (polyEval coeffs sZero) Base.
Hypothesis Hclpk : cl_PK c = PK (btd_eg (cl_btd c)).
Hypothesis HT : btd_T (cl_btd c) = zlen coeffs.
Hypothesis HT0 : 0 < btd_T (cl_btd c).
Hypothesis Hrec : recover_law RecoverCommit (eg_t (btd_eg (cl_btd c))) (eg_n (btd_eg (cl_btd c))) (length coeffs).

Abbreviation b := (cl_btd c).
Abbreviation isHon := (isHonest Hash xs zs b).
Abbreviation decrypt := (decryptTx hkdf aead_Open).

(** A transaction with the random values its encryption uses. *)
Record tx := mkTx {
  tx_raw : bytes;
  tx_index : Z;
  tx_secret : Point GT;
  tx_coins : coins;
  tx_nonce : bytes
}.

Definition encrypt (t : tx) : out Ciphertext :=
  EncryptTx Hash hkdf aead_Seal c (tx_raw t) (tx_index t) (tx_secret t) (tx_coins t) (tx_nonce t).

Definition goodTx (t : tx) : Prop := 0 <= tx_index t < B /\ zlen (tx_nonce t) = aeadNonceSize.

Definition plainOf (t : tx) : plain := mkPlain (tx_index t) (tx_secret t) (tx_coins t).

(** What the encryption of [t] is good for. *)
Record encrypted (t : tx) (ct : Ciphertext) : Prop := {
  enc_honest : isHon (plainOf t) (Capsule ct);
  enc_opens : decrypt (tx_secret t) ct = Ok (tx_raw t);
  enc_valid : valid c ct
}.

Lemma encrypt_spec t : goodTx t -> exists ct, encrypt t = Ok ct /\ encrypted t ct.
Proof.
  intros [Hi Hn]. unfold encrypt, EncryptTx.
  destruct (Enc_honest Hash _ _ G1_encoding GT_encoding B par xs zs b Hxs Hzs Hprf HB
    (tx_coins t) (tx_index t) (tx_secret t) Hi) as (cap & He & Hh).
  rewrite Hclpk, He. cbn [out_bind].
  assert (ct_I cap = tx_index t) as Hidx by apply Hh.
  destruct (capsule_roundtrip G1_encoding GT_encoding S_encoding cap) as (data & Hm & _); [lia|].
  destruct (marshal_ok (tx_secret t)) as (sb & Hsb & _).
  assert (digestCapsule cap = Ok (Sum256 data)) as Hdig by (unfold digestCapsule; by rewrite Hm).
  rewrite Hdig. cbn [out_bind]. unfold aeadFromGT. rewrite Hsb. cbn [out_bind].
  eexists. split; [reflexivity|].
  set (sealed := aead_Seal _ _ _ _).
  assert (28 <= zlen (tx_nonce t ++ sealed)) as Hlen.
  { subst sealed. rewrite length_app.
    pose proof (aead_length (hkdf sb (hybridKeyDomain ++ Sum256 data)) (tx_nonce t) (tx_raw t) (hybridAAD (Sum256 data))) as Hl.
    unfold aeadNonceSize, aeadTagSize in *. lia. }
  assert (validateAEADPayloadShape (tx_nonce t ++ sealed) = Ok tt) as Hshape.
  { unfold validateAEADPayloadShape, aeadNonceSize, aeadTagSize.
    by replace (zlen (tx_nonce t ++ sealed) <? 12 + 16) with false by lia. }
  split; cbn [Capsule EncryptedTx].
  - exact Hh.
  - unfold decryptTx. cbn [Capsule EncryptedTx]. rewrite Hshape. cbn [out_bind]. rewrite Hdig. cbn [out_bind].
    unfold aeadFromGT. rewrite Hsb. cbn [out_bind].
    assert (Z.to_nat aeadNonceSize = length (tx_nonce t)) as -> by lia.
    rewrite take_app_length, drop_app_length. apply aead_inverse.
  - unfold valid, validateCiphertext. cbn [Capsule EncryptedTx]. rewrite Hidx, HN.
    replace ((tx_index t <? 0) || (B <=? tx_index t)) with false by lia. exact Hshape.
Qed.

Lemma encrypt_all ts :
  Forall goodTx ts -> exists cts, map_out encrypt ts = Ok cts /\ Forall2 encrypted ts cts.
Proof.
  induction 1 as [|t ts Ht _ (cts & Hcts & Hall)]; [by exists []|].
  destruct (encrypt_spec t Ht) as (ct & He & Hg).
  exists (ct :: cts). cbn. rewrite He. cbn. rewrite Hcts. split; [done|by constructor].
Qed.

(** ** One sub-batch *)

(** The items of a sub-batch with the transactions they encrypt. *)
Definition itemsOf (ts : list tx) (items : list BatchItem) (sub : list tx) : Prop :=
  Forall2 (fun it t => encrypted t (bi_Ciphertext it) /\ 0 <= OriginalPosition it /\
                       ts !! Z.to_nat (OriginalPosition it) = Some t) items sub.

Definition okResult (t : tx) : PlaintextResult := mkPlaintextResult (tx_raw t) None.

Definition writes (items : list BatchItem) (sub : list tx) : list (Z * PlaintextResult) :=
  zip_with (fun it t => (OriginalPosition it, okResult t)) items sub.

Lemma itemsOf_honest ts items sub :
  itemsOf ts items sub -> Forall2 isHon (map plainOf sub) (capsulesFromItems items).
Proof. induction 1 as [|it t items sub (He & _) _ IH]; cbn; constructor; [apply He|done]. Qed.

Lemma plaintexts ts items sub :
  itemsOf ts items sub ->
  plaintextResultsFromMessages hkdf aead_Open items (map tx_secret sub) = Ok (writes items sub).
Proof.
  intros Hall. unfold plaintextResultsFromMessages. rewrite length_map.
  assert (forall pre suf ss, items = pre ++ suf -> itemsOf ts suf ss ->
    map_out (fun im : nat * Point GT =>
    let? item := at_index items (Z.of_nat im.1) in
    match decrypt im.2 (bi_Ciphertext item) with
    | Ok rawTx => Ok (OriginalPosition item, mkPlaintextResult rawTx None)
    | Err e => Ok (OriginalPosition item, mkPlaintextResult [] (Some e))
    | Crash => Crash
    end) (zip (seq (length pre) (length ss)) (map tx_secret ss)) = Ok (writes suf ss)) as Hgo.
  { intros pre suf ss E Hss. revert pre E.
    induction Hss as [|it t suf ss (He & _) _ IH]; intros pre E; [done|].
    cbn [length seq map zip zip_with map_out fst snd].
    assert (at_index items (Z.of_nat (length pre)) = Ok it) as ->.
    { rewrite (at_index_nth _ _ it) by (rewrite E, length_app; cbn [length]; lia).
      by rewrite Nat2Z.id, E, nth_middle. }
    cbn [out_bind]. rewrite (enc_opens _ _ He). cbn [out_bind].
    specialize (IH (pre ++ [it])). rewrite length_app in IH. cbn [length] in IH.
    replace (length pre + 1)%nat with (S (length pre)) in IH by lia.
    rewrite IH by (by rewrite E, <- app_assoc). done. }
  apply (Hgo [] items sub); done.
Qed.

(** Honest shares of a sub-batch: at least the threshold, of different
  participants. *)
Lemma combine_honest ts items sub ids limit :
  itemsOf ts items sub -> NoDup (map (fun it => index_of it) items) -> Forall goodTx sub ->
  NoDup ids -> Forall (fun i => 0 <= i) ids -> btd_T b <= zlen ids -> 1 <= limit ->
  combineSubBatch RecoverCommit Hash hkdf aead_Open c items
    (map (honestShareOf coeffs (map plainOf sub)) ids) limit = Ok (1, Ok (writes items sub)).
Proof.
  intros Hitems Hidx Hgood Hnd Hpos Hlen Hlim.
  pose proof (itemsOf_honest ts items sub Hitems) as Hhon.
  assert (map p_index (map plainOf sub) = map (fun it => index_of it) items) as Hmap.
  { rewrite <- (honest_indices Hash xs zs b _ _ Hhon). unfold capsulesFromItems. by rewrite map_map. }
  unfold combineSubBatch. rewrite length_map, combinations_reference by lia.
  rewrite HT, Nat2Z.id. destruct (combs_head (length ids) (length coeffs)) as [rest Hrest]; [lia|].
  rewrite Nat2Z.id, Hrest. cbn [foldStop]. unfold tryCombination at 1. cbn [attempts].
  replace (limit <=? 0) with false by lia.
  rewrite map_out_at_index by (rewrite length_map; lia). cbn [out_bind].
  rewrite firstn_map.
  rewrite (combine_batch RecoverCommit Hash B par xs zs coeffs b Hxs Hzs Hx0 Hprf HB Hpk (length coeffs)
    (take (length coeffs) ids) (map plainOf sub) (capsulesFromItems items) Hrec eq_refl).
  - rewrite map_map. cbn [plainOf p_msg].
    change (map (fun t => tx_secret t) sub) with (map tx_secret sub).
    rewrite (plaintexts ts) by done. cbn [out_bind].
    assert (firstSome (fun pr : Z * PlaintextResult => res_Err pr.2) (writes items sub) = None) as ->.
    { clear. unfold writes. revert sub. induction items as [|it items IH]; intros [|t sub]; cbn; auto. }
    done.
  - rewrite length_take. lia.
  - by apply NoDup_take.
  - by apply Forall_take.
  - by rewrite Hmap.
  - apply Forall_map. eapply Forall_impl; [exact Hgood|]. by intros t [Ht _].
  - done.
Qed.

Abbreviation wellFormed := (wellFormed c).

(** ** All sub-batches *)

Section Plan.
Context (ts : list tx) (cts : list Ciphertext) (subs : list (list BatchItem)).
Hypothesis Hts : Forall goodTx ts.
Hypothesis Hcts : Forall2 encrypted ts cts.
Hypothesis Hperm : concat subs ≡ₚ newItems cts.
Hypothesis Hdist : forall items, items ∈ subs -> NoDup (map (fun it => index_of it) items).

(** The transactions behind some items. *)
Definition txsOf (items : list BatchItem) : list tx :=
  omap (fun it => ts !! Z.to_nat (OriginalPosition it)) items.

Lemma newItems_tx it :
  it ∈ newItems cts ->
  0 <= OriginalPosition it < zlen ts /\
  exists t, ts !! Z.to_nat (OriginalPosition it) = Some t /\ encrypted t (bi_Ciphertext it).
Proof.
  intros [i Hi]%list_elem_of_lookup. unfold newItems in Hi.
  apply lookup_zip_with_Some in Hi as (p & ct & -> & Hp & Hct).
  apply lookup_seqZ in Hp as [-> Hlt]. cbn [OriginalPosition bi_Ciphertext].
  pose proof (Forall2_length _ _ _ Hcts) as Hl. split; [lia|].
  replace (Z.to_nat (0 + Z.of_nat i)) with i by lia.
  destruct (Forall2_lookup_r _ _ _ _ _ Hcts Hct) as (t & Ht & He). eauto.
Qed.

Lemma itemsOf_sub items : items ∈ subs -> itemsOf ts items (txsOf items).
Proof.
  intros Hin. assert (forall it, it ∈ items -> it ∈ newItems cts) as Hsub.
  { intros it Hit. apply (elem_perm _ _ _ Hperm). apply list_elem_of_In, in_concat.
    exists items. split; by apply list_elem_of_In. }
  clear Hin. unfold itemsOf, txsOf. induction items as [|it items IH]; [constructor|].
  destruct (newItems_tx it) as (Hpos & t & Ht & He); [apply Hsub; by left|].
  cbn [omap list_omap]. rewrite Ht. constructor; [split_and!; [done|lia|done]|].
  apply IH. intros it' Hit'. apply Hsub. by right.
Qed.

Lemma txsOf_good items : items ∈ subs -> Forall goodTx (txsOf items).
Proof.
  intros Hin. rewrite Forall_forall in Hts |- *. intros t Ht. apply Hts.
  unfold txsOf in Ht. apply list_elem_of_omap in Ht as (it & _ & Ht). by apply list_elem_of_lookup_2 in Ht.
Qed.

(** The share that participant [op] makes for sub-batch [items]. *)
Definition shareFor (items : list BatchItem) (op : Z) : PubShare :=
  honestShareOf coeffs (map plainOf (txsOf items)) op.

Lemma indices_of items :
  items ∈ subs -> map p_index (map plainOf (txsOf items)) = map (fun it => index_of it) items.
Proof.
  intros Hin. rewrite <- (honest_indices Hash xs zs b _ _ (itemsOf_honest _ _ _ (itemsOf_sub items Hin))).
  unfold capsulesFromItems. by rewrite map_map.
Qed.

(** What [MakeShare] returns for an honest participant. *)
Lemma MakeShare_spec plan op id :
  SubBatches plan = subs -> 0 <= id < zlen subs ->
  exists items, subs !! Z.to_nat id = Some items /\
  MakeShare Hash c (mkSecretShare op (shareOf coeffs op)) plan id =
  Ok (mkDecryptionShare op (plan_BatchID plan) id (Some (shareFor items op))).
Proof.
  intros Hplan Hid. unfold MakeShare. rewrite Hplan.
  replace ((id <? 0) || (zlen subs <=? id)) with false by lia.
  destruct (lookup_lt_is_Some_2 subs (Z.to_nat id) ltac:(lia)) as [items Hitems].
  exists items. split; [done|]. unfold at_index. replace (id <? 0) with false by lia. rewrite Hitems.
  cbn [out_bind sk_Share sk_OperatorID].
  assert (items ∈ subs) as Hin by (by apply list_elem_of_lookup_2 in Hitems).
  rewrite (share_of_batch Hash B xs zs coeffs b Hxs Hzs HB (map plainOf (txsOf items)) (capsulesFromItems items) op).
  - done.
  - rewrite indices_of by done. by apply Hdist.
  - apply Forall_map. eapply Forall_impl; [by apply txsOf_good|]. by intros t [Ht _].
  - apply (itemsOf_honest ts). by apply itemsOf_sub.
Qed.

Definition allWrites (rest : list (list BatchItem)) : list (Z * PlaintextResult) :=
  concat (map (fun items => writes items (txsOf items)) rest).

Lemma allWrites_range rest :
  rest ⊆ subs -> Forall (fun w => 0 <= w.1 < zlen ts /\ okResult <$> ts !! Z.to_nat w.1 = Some w.2) (allWrites rest).
Proof.
  intros Hsub. apply Forall_forall. intros w Hw. unfold allWrites in Hw.
  apply list_elem_of_In, in_concat in Hw as (ws & Hws & Hw%list_elem_of_In).
  apply in_map_iff in Hws as (items & <- & Hin%list_elem_of_In).
  pose proof (itemsOf_sub items (Hsub items Hin)) as Hall. unfold writes in Hw.
  apply list_elem_of_lookup in Hw as [i Hi]. apply lookup_zip_with_Some in Hi as (it & t & -> & Hit & Ht).
  destruct (Forall2_lookup_l _ _ _ _ _ Hall Hit) as (t' & Ht' & _ & Hpos & Hlook).
  assert (t' = t) as -> by congruence. cbn [fst snd]. split.
  - apply lookup_lt_Some in Hlook. lia.
  - by rewrite Hlook.
Qed.

(** Every position is written. *)
Lemma allWrites_cover p : 0 <= p < zlen ts -> p ∈ map fst (allWrites subs).
Proof.
  intros Hpos. pose proof (Forall2_length _ _ _ Hcts) as Hl.
  assert (p ∈ map OriginalPosition (newItems cts)) as Hin.
  { rewrite newItems_positions, elem_of_seqZ. lia. }
  apply list_elem_of_fmap in Hin as (it & -> & Hit%(elem_perm _ _ _ Hperm)).
  apply list_elem_of_In, in_concat in Hit as (items & Hitems%list_elem_of_In & Hit%list_elem_of_In).
  pose proof (itemsOf_sub items Hitems) as Hall.
  apply list_elem_of_lookup in Hit as [i Hi].
  destruct (Forall2_lookup_l _ _ _ _ _ Hall Hi) as (t & Ht & _).
  apply list_elem_of_fmap. exists (OriginalPosition it, okResult t). split; [done|].
  unfold allWrites. apply list_elem_of_In, in_concat. exists (writes items (txsOf items)). split.
  - apply in_map_iff. exists items. split; [done|]. by apply list_elem_of_In.
  - apply list_elem_of_In. apply (list_elem_of_lookup_2 _ i). unfold writes.
    rewrite lookup_zip_with, Hi. cbn. by rewrite Ht.
Qed.

(** The shares of each remaining sub-batch are honest, of different
participants, and enough. *)
Definition enoughShares (bySub : gmap Z (list PubShare)) (id : Z) (items : list BatchItem) : Prop :=
  let l := default [] (bySub !! id) in
  btd_T b <= zlen l /\ NoDup (map pub_I l) /\
  forall s, s ∈ l -> 0 <= pub_I s /\ s = shareFor items (pub_I s).

Lemma sorted_shares items l :
  (forall s, s ∈ l -> 0 <= pub_I s /\ s = shareFor items (pub_I s)) -> NoDup (map pub_I l) ->
  exists ids, sortSlice shareLess l = map (shareFor items) ids /\ length ids = length l /\ NoDup ids /\
  Forall (fun i => 0 <= i) ids.
Proof.
  intros Hs Hnd. pose proof (merge_sort_Permutation (notAfter shareLess) l) as Hp.
  fold (sortSlice shareLess l) in Hp. set (l' := sortSlice shareLess l) in *. clearbody l'.
  assert (forall s, s ∈ l' -> 0 <= pub_I s /\ s = shareFor items (pub_I s)) as Hs'.
  { intros s Hin. apply Hs. by apply (elem_perm _ _ _ Hp). }
  exists (map pub_I l'). split_and!.
  - rewrite map_map. clear Hp. induction l' as [|s l' IH]; [done|]. cbn [map].
    f_equal; [apply Hs'; by left|]. apply IH. intros s' Hin. apply Hs'. by right.
  - rewrite length_map. by apply Permutation_length.
  - by apply (NoDup_perm _ _ (Permutation_map _ Hp)).
  - apply Forall_map, Forall_forall. intros s Hin. by apply Hs'.
Qed.

Lemma combineLoop_honest bySub max id rest stats results :
  rest ⊆ subs -> 1 <= max -> 0 <= id -> id + zlen rest = zlen stats -> length results = length ts ->
  (forall j items, rest !! j = Some items -> enoughShares bySub (id + Z.of_nat j) items) ->
  exists stats', combineLoop RecoverCommit Hash hkdf aead_Open c (mkCombineOptions max None) bySub id rest stats results
  = Ok (stats', Ok (writeAll (allWrites rest) results)).
Proof.
  intros Hsub Hmax. revert id stats results.
  induction rest as [|items rest IH]; intros id stats results Hid Hst Hres Hsh; [by exists stats|].
  assert (items ∈ subs) as Hin by (apply Hsub; by left).
  destruct (Hsh 0%nat items eq_refl) as (Hn & Hnd & Hall). rewrite Z.add_0_r in Hn, Hnd, Hall.
  cbn [combineLoop]. replace (zlen (default [] (bySub !! id)) <? btd_T b) with false by lia.
  destruct (sorted_shares items _ Hall Hnd) as (ids & -> & Hlen & Hids & Hpos).
  cbn [AttemptLimitsBySubBatch MaxAttemptsPerSubBatch out_bind]. replace (max <? 1) with false by lia.
  change (map (shareFor items) ids) with (map (honestShareOf coeffs (map plainOf (txsOf items))) ids).
  rewrite (combine_honest ts items (txsOf items) ids max);
    [|by apply itemsOf_sub|by apply Hdist|by apply txsOf_good|done|done|lia|done].
  cbn [out_bind]. unfold set_index at 1. cbn [length] in Hst.
  replace ((id <? 0) || (zlen stats <=? id)) with false by lia. cbn [out_bind].
  assert (Forall (fun w => 0 <= w.1 < zlen results) (writes items (txsOf items))) as Hw.
  { assert ([items] ⊆ subs) as Hs1 by (intros x ->%list_elem_of_singleton; done).
    pose proof (allWrites_range [items] Hs1) as Hr. unfold allWrites in Hr. cbn in Hr. rewrite app_nil_r in Hr.
    eapply Forall_impl; [exact Hr|]. cbn. intros w [Hw _]. by rewrite Hres. }
  rewrite set_index_writes by done. cbn [out_bind].
  destruct (IH ltac:(intros x Hx; apply Hsub; by right) (id + 1) (<[Z.to_nat id := 1]> stats)
    (writeAll (writes items (txsOf items)) results)) as [stats' Hloop].
  - lia.
  - rewrite length_insert. lia.
  - by rewrite writeAll_length.
  - intros j items' Hj. replace (id + 1 + Z.of_nat j) with (id + Z.of_nat (S j)) by lia. by apply Hsh.
  - exists stats'. rewrite Hloop. unfold allWrites. cbn [map concat]. unfold writeAll. by rewrite fold_left_app.
Qed.
End Plan.

(** ** The whole way *)

Lemma max_fold (items : list BatchItem) m :
  let r := fold_left (fun m it => if m <? OriginalPosition it then OriginalPosition it else m) items m in
  m <= r /\ (forall it, it ∈ items -> OriginalPosition it <= r) /\
  (r = m \/ exists it, it ∈ items /\ r = OriginalPosition it).
Proof.
  revert m. induction items as [|x items IH]; intros m; cbn [fold_left].
  - split_and!; [lia|intros it Hit; by apply elem_of_nil in Hit|by left].
  - destruct (IH (if m <? OriginalPosition x then OriginalPosition x else m)) as (H1 & H2 & H3).
    set (r := fold_left _ items _) in *. clearbody r. split_and!.
    + destruct (Z.ltb_spec m (OriginalPosition x)); lia.
    + intros it [->|Hit]%elem_of_cons; [destruct (Z.ltb_spec m (OriginalPosition x)); lia|by apply H2].
    + destruct H3 as [->|(it & Hit & ->)].
      * destruct (Z.ltb_spec m (OriginalPosition x)); [right; exists x; split; [by left|done]|by left].
      * right. exists it. split; [by right|done].
Qed.

Lemma planSize_concat plan :
  planSize plan = fold_left (fun m it => if m <? OriginalPosition it then OriginalPosition it else m)
    (concat (SubBatches plan)) (-1) + 1.
Proof.
  unfold planSize. f_equal. generalize (-1). induction (SubBatches plan) as [|sub subs IH]; intros m; [done|].
  cbn [fold_left concat]. by rewrite fold_left_app, IH.
Qed.

Lemma planSize_newItems plan cts :
  concat (SubBatches plan) ≡ₚ newItems cts -> planSize plan = zlen cts.
Proof.
  intros Hp. rewrite planSize_concat.
  destruct (max_fold (concat (SubBatches plan)) (-1)) as (H1 & H2 & H3).
  set (r := fold_left _ _ _) in *. clearbody r.
  assert (forall p, 0 <= p < zlen cts <-> exists it, it ∈ concat (SubBatches plan) /\ OriginalPosition it = p) as Hpos.
  { intros p. transitivity (p ∈ map OriginalPosition (newItems cts)).
    - rewrite newItems_positions, elem_of_seqZ. lia.
    - rewrite list_elem_of_fmap. split; intros (it & Hit).
      + exists it. destruct Hit as [-> Hin]. split; [by apply (elem_perm _ _ _ Hp)|done].
      + exists it. destruct Hit as [Hin <-]. split; [done|by apply (elem_perm _ _ _ Hp)]. }
  destruct (decide (zlen cts = 0)) as [H0|H0].
  - destruct H3 as [->|(it & Hit & ->)]; [lia|]. exfalso.
    assert (0 <= OriginalPosition it < zlen cts) by (apply Hpos; eauto). lia.
  - destruct (proj1 (Hpos (zlen cts - 1)) ltac:(lia)) as (it & Hit & Hl). specialize (H2 it Hit).
    destruct H3 as [->|(it' & Hit' & ->)]; [lia|].
    assert (0 <= OriginalPosition it' < zlen cts) by (apply Hpos; eauto). lia.
Qed.

Lemma marshal_all cts : Forall (valid c) cts -> exists encoded, map_out marshalCiphertext cts = Ok encoded.
Proof.
  induction 1 as [|ct cts Hv _ (encoded & He)]; [by exists []|].
  assert (0 <= ct_I (Capsule ct) < 2 ^ 63) as Hi.
  { unfold valid, validateCiphertext in Hv. rewrite HN in Hv.
    destruct ((ct_I (Capsule ct) <? 0) || (B <=? ct_I (Capsule ct))) eqn:E; [done|lia]. }
  destruct (capsule_roundtrip G1_encoding GT_encoding S_encoding (Capsule ct) Hi) as (data & Hm & _).
  eexists. cbn [map_out]. unfold marshalCiphertext at 1. rewrite Hm. cbn [out_bind]. by rewrite He.
Qed.

(** A share of the plan made by an honest participant of the cluster. *)
Definition madeHonestly (plan : BatchPlan) (d : DecryptionShare) : Prop :=
  exists op, 0 <= op < btd_N b /\
    MakeShare Hash c (mkSecretShare op (shareOf coeffs op)) plan (d_SubBatchID d) = Ok d.

Section Made.
Context (ts : list tx) (cts : list Ciphertext) (plan : BatchPlan).
Hypothesis Hts : Forall goodTx ts.
Hypothesis Hcts : Forall2 encrypted ts cts.
Hypothesis Hperm : concat (SubBatches plan) ≡ₚ newItems cts.
Hypothesis Hdist : forall items, items ∈ SubBatches plan -> NoDup (map (fun it => index_of it) items).

Lemma madeHonestly_spec d :
  madeHonestly plan d ->
  wellFormed plan d /\
  exists items, SubBatches plan !! Z.to_nat (d_SubBatchID d) = Some items /\
  d_Share d = Some (shareFor ts items (d_OperatorID d)).
Proof.
  intros (op & Hop & Hd).
  assert (0 <= d_SubBatchID d < zlen (SubBatches plan)) as Hid.
  { unfold MakeShare in Hd. destruct ((d_SubBatchID d <? 0) || (zlen (SubBatches plan) <=? d_SubBatchID d)) eqn:E;
      [done|lia]. }
  destruct (MakeShare_spec ts cts (SubBatches plan) Hts Hcts Hperm Hdist plan op (d_SubBatchID d) eq_refl Hid)
    as (items & Hitems & Hm).
  rewrite Hm in Hd. injection Hd as Hd. rewrite <- Hd. cbn [d_BatchID d_SubBatchID d_OperatorID d_Share].
  split; [|eauto]. split_and!; cbn; try done; try lia. eexists. split; [reflexivity|done].
Qed.

Lemma made_enough ds bySub id items :
  Forall (madeHonestly plan) ds -> NoDup (map shareKey ds) ->
  (forall i, default [] (bySub !! i) = sharesFor i ds) ->
  SubBatches plan !! Z.to_nat id = Some items -> 0 <= id -> btd_T b <= countFor id ds ->
  enoughShares ts bySub id items.
Proof.
  intros Hds Hnd Hby Hitems Hid Hcount.
  assert (Forall (wellFormed plan) ds) as Hwf
    by (eapply Forall_impl; [exact Hds|]; intros d Hd; by apply madeHonestly_spec).
  destruct (sharesFor_operators c plan id ds Hwf Hnd) as [H1 H2].
  unfold enoughShares. rewrite Hby. split_and!.
  - by rewrite (sharesFor_length c plan).
  - done.
  - intros s Hs. split; [by apply H2, list_elem_of_fmap_2|].
    unfold sharesFor in Hs. apply list_elem_of_omap in Hs as (d & Hd & Hs).
    destruct (Z.eqb_spec (d_SubBatchID d) id) as [<-|]; [|done].
    rewrite Forall_forall in Hds. destruct (madeHonestly_spec d (Hds d Hd)) as (_ & items' & Hitems' & Hs').
    assert (items' = items) as -> by congruence. rewrite Hs' in Hs. by injection Hs as <-.
Qed.
End Made.

End Decrypt.
