(* ===== verification/BatchDemo.v ===== *)
(** * Witnesses for the batch theorems

    A cluster over the concrete suite of [BteDemo], with a domain of six
    indices and threshold two, and a toy cipher that satisfies the laws the
    theorems assume of HKDF and AES-GCM. *)

From S2P Require Import Prelude Order GoStrings Sha256 Kyber Prf PrfLaws Btd BtdLaws BteDemo Batch BatchLaws BatchArrange BatchDecrypt.

Module BatchDemo.
Definition q := BteDemo.q.
Definition xs : list (@Scalar QcSuite) := map q [1; 2; 3; 4; 5; 6].
Definition zs : list (@Scalar QcSuite) := map q [4; 5; 6; 7; 8; 9].
Definition coeffs : list (@Scalar QcSuite) := [q 7; q 3].
Definition btd : BTD := KeyGen (NewBTD (PRFSetup 6 true xs zs) 6) 4 2 coeffs.
Definition pk : Point G1 := PK (btd_eg btd).
Definition cluster : ClusterBTE := NewNode btd pk (mkSecretShare 0 (shareOf coeffs 0)) 4 2.
Definition Hash (data : bytes) : bytes := take 3 data.
Definition hkdf (secret info : bytes) : bytes := take 4 info.
Definition aead_Seal (key nonce pt aad : bytes) : bytes := pt ++ repeat 0 16.
Definition aead_Open (key nonce sealed aad : bytes) : out bytes := Ok (take (length sealed - 16) sealed).

Lemma open_seal key nonce pt aad : aead_Open key nonce (aead_Seal key nonce pt aad) aad = Ok pt.
Proof.
  unfold aead_Open, aead_Seal. rewrite length_app, repeat_length.
  replace (length pt + 16 - 16)%nat with (length pt) by lia. by rewrite take_app_length.
Qed.

Lemma seal_length key nonce pt aad : zlen pt + aeadTagSize <= zlen (aead_Seal key nonce pt aad).
Proof. unfold aead_Seal, aeadTagSize. rewrite length_app, repeat_length. lia. Qed.

Lemma demo_xs_nonzero : Forall (fun x => x <> sZero) xs.
Proof. repeat constructor; intros E; vm_compute in E; discriminate E. Qed.

Lemma scalars : ScalarEncoding.
Proof. split. intros s. apply (marshal_ok (GroupEncoding := Qc_encoding encodingLimit ltac:(done)) s). Qed.

(** Six transactions; index 4 is used three times. *)
Definition nonce : bytes := repeat 1 12.
Definition tx_of (raw : string) (i s : Z) : tx :=
  mkTx (str raw) i (q s) (mkCoins (q (s + 1)) (q (s + 2)) (q (s + 3)) (q (s + 4))) nonce.
Definition txs : list tx :=
  [tx_of "a" 4 10; tx_of "b" 0 20; tx_of "c" 4 30; tx_of "d" 1 40; tx_of "e" 4 50; tx_of "f" 5 60].

Definition encrypted_txs : out (list Ciphertext) := map_out (encrypt Hash hkdf aead_Seal cluster) txs.

Definition thePlan : BatchPlan :=
  match (let? cts := encrypted_txs in PlanBatch cluster cts) with
  | Ok plan => plan
  | _ => mkBatchPlan [] 0 []
  end.

(** Participants 3 and 0 make a share of every sub-batch. *)
Definition okList {A} (m : out A) : list A := match m with Ok x => [x] | _ => [] end.
Definition sharesOf (plan : BatchPlan) : list DecryptionShare :=
  concat (map (fun id => concat (map (fun op =>
    okList (MakeShare Hash cluster (mkSecretShare op (shareOf coeffs op)) plan id)) [3; 0]))
    (seqZ 0 (zlen (SubBatches plan)))).

Definition theShares : list DecryptionShare := sharesOf thePlan.

Example plan_shape : Alpha thePlan = 5 /\ map (map OriginalPosition) (SubBatches thePlan) = [[0; 5]; [2]; [4]; [1]; [3]].
Proof. vm_compute. split; reflexivity. Qed.

Lemma MakeShare_id sk plan id (d : DecryptionShare) : MakeShare Hash cluster sk plan id = Ok d -> d_SubBatchID d = id.
Proof.
  unfold MakeShare. destruct (_ || _); [done|]. destruct (at_index _ _); cbn; [|done..].
  destruct (BatchDecWithShare _ _ _ _ _); cbn; [|done..]. by intros [= <-].
Qed.

Lemma shares_made plan : Forall (madeHonestly Hash coeffs cluster plan) (sharesOf plan).
Proof.
  apply Forall_forall. intros d Hd. unfold sharesOf in Hd.
  apply list_elem_of_In, in_concat in Hd as (l & Hl & Hd). apply in_map_iff in Hl as (id & <- & _).
  apply in_concat in Hd as (l & Hl & Hd). apply in_map_iff in Hl as (op & <- & Hop).
  destruct (MakeShare Hash cluster _ plan id) as [d'| |] eqn:E; [|destruct Hd..].
  destruct Hd as [->|[]]. exists op. split.
  - change (btd_N (cl_btd cluster)) with 4. cbn in Hop. lia.
  - by rewrite (MakeShare_id _ _ _ _ E).
Qed.

Lemma theShares_made : Forall (madeHonestly Hash coeffs cluster thePlan) theShares.
Proof. unfold theShares. apply shares_made. Qed.

Lemma shares_keys : NoDup (map shareKey theShares).
Proof. apply (bool_decide_eq_true_1 (NoDup (map shareKey theShares))). vm_compute. reflexivity. Qed.

Lemma shares_count id : 0 <= id < zlen (SubBatches thePlan) -> 2 <= countFor id theShares.
Proof.
  assert (forallb (fun id => 2 <=? countFor id theShares) (seqZ 0 (zlen (SubBatches thePlan))) = true) as H
    by (vm_compute; reflexivity).
  rewrite forallb_forall in H. intros Hid. apply Z.leb_le, H, list_elem_of_In, elem_of_seqZ. lia.
Qed.
End BatchDemo.


Definition demoCiphertext : Ciphertext :=
  mkCiphertext (mkCT 4 (BatchDemo.q 1) (BatchDemo.q 2) (mkEgCT (BatchDemo.q 3) (BatchDemo.q 4))
    (mkProof (BatchDemo.q 5) (BatchDemo.q 6) (BatchDemo.q 7) (BatchDemo.q 8) (BatchDemo.q 9))) (repeat 0 30).

Lemma demo_encodable : encodable BatchDemo.cluster demoCiphertext.
Proof. split_and!; [reflexivity|cbn; lia|cbn; lia]. Qed.

Lemma arrange_total_witness :
  exists alpha subs, arrangeBatch BatchDemo.cluster [demoCiphertext; demoCiphertext] = Ok (alpha, subs) /\
    zlen subs = alpha /\ alpha = 2.
Proof.
  destruct (proj1 (arrange_total BatchDemo.cluster [demoCiphertext; demoCiphertext]))
    as (alpha & subs & Ha & _ & _ & Hl & _).
  { split; [cbn; lia|]. repeat constructor. }
  exists alpha, subs. split_and!; [done|done|].
  assert (match arrangeBatch BatchDemo.cluster [demoCiphertext; demoCiphertext] with
          | Ok (a, _) => a
          | _ => 0
          end = 2) as E by (vm_compute; reflexivity).
  by rewrite Ha in E.
Defined.

