(* ===== verification/Wire.v ===== *)
(** * Wire: envelopes between nodes

    Models [src/bloc-node/internal/app]: the envelope and share types of
    [types.go], the protobuf codec of [codec.go], the classification of
    messages of [acs_trace.go], the lanes of [transport_libp2p_lanes.go], the
    frames of [transport_libp2p_frame.go], and from [transport_libp2p.go] the
    checks and the inbound stream handlers.

    The generated messages of [proto/bloc/v1/messages.proto] are the records
    [pb...], a nil pointer being [None]; [proto.Marshal] and [proto.Unmarshal]
    are parameters. A stream is the list of bytes the peer wrote. *)

From S2P Require Import Prelude GoStrings Messages SlotAcs Trace.

(** ** Envelopes *)

Record WireShare := mkWireShare {
  ws_OperatorID : Z;
  ws_BatchIDHex : bytes;
  ws_SubBatchID : Z;
  ws_PointHex : bytes
}.

Record WireEnvelope := mkEnvelope {
  env_From : Z;
  env_To : Z;
  env_Direct : bool;
  env_Kind : bytes;
  env_Slot : Z;
  env_ACS : option SlotMessage;
  env_Share : option WireShare
}.

#[export] Instance WireShare_eq_dec : EqDecision WireShare.
Proof. solve_decision. Defined.

#[export] Instance SlotMessage_eq_dec : EqDecision SlotMessage.
Proof. solve_decision. Defined.

#[export] Instance WireEnvelope_eq_dec : EqDecision WireEnvelope.
Proof. solve_decision. Defined.

Definition envelopeVersion : Z := 1.
Definition kindACS : bytes := str "acs".
Definition kindShare : bytes := str "share".

(** The subtype of a consensus message, if it is one of the five known ones. *)
Definition classifyACSMessage (msg : option SlotMessage) : out ACSMessageSubtype :=
  match msg with
  | Some (mkSlotMessage _ (Some acs)) =>
      match Payload acs with
      | PBroadcast b =>
          match BPayload b with
          | PProof _ => Ok ACSMessageProof
          | PEcho _ => Ok ACSMessageEcho
          | PReady _ => Ok ACSMessageReady
          | OtherBroadcast => Err "invalid ACS message subtype"
          end
      | PAgreement m =>
          match Message m with
          | BvalRequest _ => Ok ACSMessageBVAL
          | AuxRequest _ => Ok ACSMessageAUX
          | OtherAgreement => Err "invalid ACS message subtype"
          end
      | OtherACS => Err "invalid ACS message subtype"
      end
  | _ => Err "invalid ACS message subtype"
  end.

Definition validateEnvelopePayload (env : WireEnvelope) : out unit :=
  if bool_decide (env_Kind env = kindACS) then
    match env_ACS env, env_Share env with
    | Some _, None => Ok tt
    | _, _ => Err "acs envelope has invalid payload"
    end
  else if bool_decide (env_Kind env = kindShare) then
    match env_Share env, env_ACS env with
    | Some _, None => Ok tt
    | _, _ => Err "share envelope has invalid payload"
    end
  else Err "unsupported envelope kind".

Definition validateAuthenticatedEnvelope (operatorID selfID : Z) (env : WireEnvelope) : out unit :=
  if negb (env_From env =? operatorID) then Err "authenticated operator differs from the sender"
  else if negb (env_Direct env) || negb (env_To env =? selfID) then
    Err "envelope is not addressed to this node"
  else
    match env_Share env with
    | Some share =>
        if negb (ws_OperatorID share =? i64 operatorID) then
          Err "authenticated operator differs from the share's operator"
        else Ok tt
    | None => Ok tt
    end.

(** ** Lanes *)

Inductive persistentStreamLane := persistentLaneControl | persistentLaneData.

#[export] Instance lane_eq_dec : EqDecision persistentStreamLane.
Proof. solve_decision. Defined.

Definition persistentStreamLanes : list persistentStreamLane := [persistentLaneControl; persistentLaneData].

Definition persistentLaneProtocol (lane : persistentStreamLane) : bytes :=
  match lane with
  | persistentLaneControl => str "/bloc/envelope/3.0.0/control"
  | persistentLaneData => str "/bloc/envelope/3.0.0/data"
  end.

Definition classifyEnvelopeLane (env : WireEnvelope) : out persistentStreamLane :=
  let? _ := validateEnvelopePayload env in
  if bool_decide (env_Kind env = kindShare) then Ok persistentLaneData
  else
    let? subtype := classifyACSMessage (env_ACS env) in
    if bool_decide (subtype ∈ [ACSMessageReady; ACSMessageBVAL; ACSMessageAUX]) then Ok persistentLaneControl
    else if bool_decide (subtype ∈ [ACSMessageProof; ACSMessageEcho]) then Ok persistentLaneData
    else Err "unmapped ACS message subtype".

(** ** The generated messages *)

Record pbWireShare := mkPbShare {
  pb_ShareOperator : Z;
  pb_BatchIdHex : bytes;
  pb_SubBatchId : Z;
  pb_PointHex : bytes
}.

Record pbProofRequest := mkPbProof {
  pb_RootHash : bytes;
  pb_Proof : list bytes;
  pb_Index : Z;
  pb_Leaves : Z
}.

Inductive pbAgreementBody :=
  | AgreementMessage_Bval (Value : option bool)
  | AgreementMessage_Aux (Value : option bool).

Record pbAgreement := mkPbAgreement {
  pb_Epoch : Z;
  pb_Message : option pbAgreementBody
}.

Inductive pbBroadcastBody :=
  | BroadcastMessage_Proof (Proof : option pbProofRequest)
  | BroadcastMessage_Echo (Echo : option (option pbProofRequest))
  | BroadcastMessage_Ready (RootHash : option bytes).

Record pbBroadcast := mkPbBroadcast { pb_BPayload : option pbBroadcastBody }.

Inductive pbACSBody :=
  | ACSMessage_Agreement (Agreement : option pbAgreement)
  | ACSMessage_Broadcast (Broadcast : option pbBroadcast).

Record pbACS := mkPbACS {
  pb_ProposerId : Z;
  pb_APayload : option pbACSBody
}.

Record pbSlotMessage := mkPbSlot {
  pb_MSlot : Z;
  pb_SPayload : option pbACS
}.

Inductive pbEnvelopeBody :=
  | Envelope_Acs (Acs : option pbSlotMessage)
  | Envelope_Share (Share : option pbWireShare).

Record pbEnvelope := mkPbEnvelope {
  pb_Version : Z;
  pb_EFrom : Z;
  pb_ETo : Z;
  pb_Direct : bool;
  pb_EKind : bytes;
  pb_ESlot : Z;
  pb_Payload : option pbEnvelopeBody
}.

#[export] Instance pbWireShare_dec : EqDecision pbWireShare.
Proof. solve_decision. Defined.
#[export] Instance pbProofRequest_dec : EqDecision pbProofRequest.
Proof. solve_decision. Defined.
#[export] Instance pbAgreementBody_dec : EqDecision pbAgreementBody.
Proof. solve_decision. Defined.
#[export] Instance pbAgreement_dec : EqDecision pbAgreement.
Proof. solve_decision. Defined.
#[export] Instance pbBroadcastBody_dec : EqDecision pbBroadcastBody.
Proof. solve_decision. Defined.
#[export] Instance pbBroadcast_dec : EqDecision pbBroadcast.
Proof. solve_decision. Defined.
#[export] Instance pbACSBody_dec : EqDecision pbACSBody.
Proof. solve_decision. Defined.
#[export] Instance pbACS_dec : EqDecision pbACS.
Proof. solve_decision. Defined.
#[export] Instance pbSlotMessage_dec : EqDecision pbSlotMessage.
Proof. solve_decision. Defined.
#[export] Instance pbEnvelopeBody_dec : EqDecision pbEnvelopeBody.
Proof. solve_decision. Defined.
#[export] Instance pbEnvelope_dec : EqDecision pbEnvelope.
Proof. solve_decision. Defined.

(** ** Conversions *)

Definition toProtoWireShare (share : WireShare) : pbWireShare :=
  mkPbShare (u64 (ws_OperatorID share)) (ws_BatchIDHex share) (u64 (ws_SubBatchID share)) (ws_PointHex share).

Definition fromProtoWireShare (share : option pbWireShare) : WireShare :=
  match share with
  | None => mkWireShare 0 [] 0 []
  | Some s => mkWireShare (i64 (pb_ShareOperator s)) (pb_BatchIdHex s) (i64 (pb_SubBatchId s)) (pb_PointHex s)
  end.

Definition toProtoProofRequest (req : ProofRequest) : pbProofRequest :=
  mkPbProof (RootHash req) (Proof req) (u64 (Index req)) (u64 (Leaves req)).

Definition fromProtoProofRequest (req : option pbProofRequest) : ProofRequest :=
  match req with
  | None => mkProofRequest [] [] 0 0
  | Some r => mkProofRequest (pb_RootHash r) (pb_Proof r) (i64 (pb_Index r)) (i64 (pb_Leaves r))
  end.

Definition toProtoAgreementMessage (msg : AgreementMessage) : out pbAgreement :=
  match Message msg with
  | BvalRequest v => Ok (mkPbAgreement (u64 (Epoch msg)) (Some (AgreementMessage_Bval (Some v))))
  | AuxRequest v => Ok (mkPbAgreement (u64 (Epoch msg)) (Some (AgreementMessage_Aux (Some v))))
  | OtherAgreement => Err "unsupported agreement payload"
  end.

(** Go's getters return the zero value on a nil message. *)
Definition fromProtoAgreementMessage (msg : option pbAgreement) : out AgreementMessage :=
  match msg with
  | None => Err "unexpected EOF"
  | Some m =>
      match pb_Message m with
      | Some (AgreementMessage_Bval v) => Ok (NewAgreementMessage (i64 (pb_Epoch m)) (BvalRequest (default false v)))
      | Some (AgreementMessage_Aux v) => Ok (NewAgreementMessage (i64 (pb_Epoch m)) (AuxRequest (default false v)))
      | None => Err "unexpected EOF"
      end
  end.

Definition toProtoBroadcastMessage (msg : BroadcastMessage) : out pbBroadcast :=
  match BPayload msg with
  | PProof p => Ok (mkPbBroadcast (Some (BroadcastMessage_Proof (Some (toProtoProofRequest p)))))
  | PEcho p => Ok (mkPbBroadcast (Some (BroadcastMessage_Echo (Some (Some (toProtoProofRequest p))))))
  | PReady root => Ok (mkPbBroadcast (Some (BroadcastMessage_Ready (Some root))))
  | OtherBroadcast => Err "unsupported broadcast payload"
  end.

Definition fromProtoBroadcastMessage (msg : option pbBroadcast) : out BroadcastMessage :=
  match msg with
  | None => Err "unexpected EOF"
  | Some m =>
      match pb_BPayload m with
      | Some (BroadcastMessage_Proof p) => Ok (mkBroadcast (PProof (fromProtoProofRequest p)))
      | Some (BroadcastMessage_Echo echo) => Ok (mkBroadcast (PEcho (fromProtoProofRequest (default None echo))))
      | Some (BroadcastMessage_Ready root) => Ok (mkBroadcast (PReady (default [] root)))
      | None => Err "unexpected EOF"
      end
  end.

Definition toProtoACSMessage (msg : option ACSMessage) : out pbACS :=
  match msg with
  | None => Err "nil acs message"
  | Some m =>
      match Payload m with
      | PAgreement p =>
          let? agreement := toProtoAgreementMessage p in
          Ok (mkPbACS (ProposerID m) (Some (ACSMessage_Agreement (Some agreement))))
      | PBroadcast p =>
          let? broadcast := toProtoBroadcastMessage p in
          Ok (mkPbACS (ProposerID m) (Some (ACSMessage_Broadcast (Some broadcast))))
      | OtherACS => Err "unsupported acs payload"
      end
  end.

Definition fromProtoACSMessage (msg : option pbACS) : out ACSMessage :=
  match msg with
  | None => Err "unexpected EOF"
  | Some m =>
      match pb_APayload m with
      | Some (ACSMessage_Agreement p) =>
          let? agreement := fromProtoAgreementMessage p in
          Ok (mkACSMessage (pb_ProposerId m) (PAgreement agreement))
      | Some (ACSMessage_Broadcast p) =>
          let? broadcast := fromProtoBroadcastMessage p in
          Ok (mkACSMessage (pb_ProposerId m) (PBroadcast broadcast))
      | None => Err "unexpected EOF"
      end
  end.

Definition toProtoSlotMessage (msg : SlotMessage) : out pbSlotMessage :=
  let? acs := toProtoACSMessage (sm_Payload msg) in
  Ok (mkPbSlot (sm_Slot msg) (Some acs)).

Definition fromProtoSlotMessage (msg : option pbSlotMessage) : out SlotMessage :=
  match msg with
  | Some (mkPbSlot slot (Some payload)) =>
      let? acs := fromProtoACSMessage (Some payload) in
      Ok (mkSlotMessage slot (Some acs))
  | _ => Err "unexpected EOF"
  end.

(** ** The codec *)

Section Codec.
Context (proto_Marshal : pbEnvelope -> option bytes) (proto_Unmarshal : bytes -> option pbEnvelope).

Definition codec_Encode (env : WireEnvelope) : out bytes :=
  let? payload :=
    if bool_decide (env_Kind env = kindACS) then
      match env_ACS env with
      | None => Err "acs envelope has nil payload"
      | Some msg => let? acs := toProtoSlotMessage msg in Ok (Envelope_Acs (Some acs))
      end
    else if bool_decide (env_Kind env = kindShare) then
      match env_Share env with
      | None => Err "share envelope has nil payload"
      | Some share => Ok (Envelope_Share (Some (toProtoWireShare share)))
      end
    else Err "unsupported envelope kind" in
  match proto_Marshal (mkPbEnvelope envelopeVersion (env_From env) (env_To env) (env_Direct env)
          (env_Kind env) (env_Slot env) (Some payload)) with
  | Some data => Ok data
  | None => Err "marshal envelope"
  end.

Definition codec_Decode (data : bytes) : out WireEnvelope :=
  match proto_Unmarshal data with
  | None => Err "unmarshal envelope"
  | Some msg =>
      if negb (pb_Version msg =? envelopeVersion) then Err "unsupported envelope version"
      else
        let env := mkEnvelope (pb_EFrom msg) (pb_ETo msg) (pb_Direct msg) (pb_EKind msg) (pb_ESlot msg) in
        match pb_Payload msg with
        | Some (Envelope_Acs payload) =>
            let? acs := fromProtoSlotMessage payload in
            Ok (env (Some acs) None)
        | Some (Envelope_Share payload) => Ok (env None (Some (fromProtoWireShare payload)))
        | None => Err "unexpected EOF"
        end
  end.

(** ** Frames *)

(** [binary.PutUvarint]: seven bits a byte, the lowest first. A 64-bit value
  has at most ten groups. *)
Fixpoint PutUvarint (groups : nat) (x : Z) : bytes :=
  match groups with
  | O => []
  | S groups' =>
      if x <? 128 then [x]
      else Z.lor (Z.land x 127) 128 :: PutUvarint groups' (Z.shiftr x 7)
  end.

Definition MaxVarintLen64 : nat := 10.

Inductive frameError :=
  | FrameEOF
  | FrameInvalidMaximum
  | FrameTruncated
  | FrameLengthOverflow
  | FrameZeroLength
  | FrameTooLarge.

#[export] Instance frameError_eq_dec : EqDecision frameError.
Proof. solve_decision. Defined.

(** [binary.ReadUvarint]; [left] counts the rounds, [x] and [s] are the
  loop's accumulator and shift. *)
Fixpoint ReadUvarint (left : nat) (x s : Z) (reader : bytes) : frameError + (Z * bytes) :=
  match left with
  | O => inl FrameLengthOverflow
  | S left' =>
      match reader with
      | [] => if Nat.eqb left MaxVarintLen64 then inl FrameEOF else inl FrameTruncated
      | b :: reader' =>
          if b <? 128 then
            if Nat.eqb left 1 && (1 <? b) then inl FrameLengthOverflow
            else inr (Z.lor x (u64 (Z.shiftl b s)), reader')
          else ReadUvarint left' (Z.lor x (u64 (Z.shiftl (Z.land b 127) s))) (s + 7) reader'
      end
  end.

(** The bytes written. *)
Definition writeEnvelopeFrame (payload : bytes) : frameError + bytes :=
  if zlen payload =? 0 then inl FrameZeroLength
  else inr (PutUvarint MaxVarintLen64 (u64 (zlen payload)) ++ payload).

Definition readEnvelopeFrame (maxEnvelopeBytes : Z) (reader : bytes) : frameError + (bytes * bytes) :=
  if maxEnvelopeBytes <? 1 then inl FrameInvalidMaximum
  else
    match ReadUvarint MaxVarintLen64 0 0 reader with
    | inl e => inl e
    | inr (length, reader) =>
        if length =? 0 then inl FrameZeroLength
        else if u64 maxEnvelopeBytes <? length then inl FrameTooLarge
        else if zlen reader <? length then inl FrameTruncated
        else inr (take (Z.to_nat length) reader, drop (Z.to_nat length) reader)
    end.

(** [io.LimitReader] and the check after it. *)
Definition readBoundedEnvelope (maxBytes : Z) (reader : bytes) : out bytes :=
  if maxBytes <? 1 then Err "invalid maximum envelope size"
  else
    let data := take (Z.to_nat (maxBytes + 1)) reader in
    if maxBytes <? zlen data then Err "protocol envelope exceeds configured maximum" else Ok data.

(** ** Inbound streams *)

(** What a stream hands to the envelope handler, or the metrics label of its
  rejection. *)
Definition admitEnvelope (expectedLane : option persistentStreamLane) (operatorID selfID : Z)
    (data : bytes) : string + WireEnvelope :=
  match codec_Decode data with
  | Ok env =>
      match validateEnvelopePayload env with
      | Ok _ =>
          match validateAuthenticatedEnvelope operatorID selfID env with
          | Ok _ =>
              match expectedLane with
              | None => inr env
              | Some lane =>
                  match classifyEnvelopeLane env with
                  | Ok actual => if bool_decide (actual = lane) then inr env else inl "lane"%string
                  | _ => inl "payload"%string
                  end
              end
          | _ => inl "authentication"%string
          end
      | _ => inl "payload"%string
      end
  | _ => inl "decode"%string
  end.

(** [operator] is what the peer's identity is configured for, if anything. *)
Definition handleFreshStream (maxEnvelopeBytes : Z) (operator : option Z) (selfID : Z) (stream : bytes)
  : string + (WireEnvelope * Z) :=
  match operator with
  | None => inl "authentication"%string
  | Some operatorID =>
      if maxEnvelopeBytes <? 1 then inl "decode"%string
      else
        match readBoundedEnvelope maxEnvelopeBytes stream with
        | Ok data =>
            match admitEnvelope None operatorID selfID data with
            | inr env => inr (env, zlen data)
            | inl reason => inl reason
            end
        | _ => inl "oversize"%string
        end
  end.

(** The frames delivered before the stream ends, and why it was rejected if
  it was. The queue between the two goroutines is first in, first out. A
  frame takes at least two bytes, so the length of the stream is enough
  fuel. *)
Fixpoint readFrames (fuel : nat) (maxEnvelopeBytes : Z) (expectedLane : option persistentStreamLane)
    (operatorID selfID : Z) (reader : bytes) : list (WireEnvelope * Z) * option string :=
  match fuel with
  | O => ([], None)
  | S fuel' =>
      match readEnvelopeFrame maxEnvelopeBytes reader with
      | inl FrameEOF => ([], None)
      | inl FrameTooLarge => ([], Some "oversize"%string)
      | inl _ => ([], Some "decode"%string)
      | inr (data, reader') =>
          match admitEnvelope expectedLane operatorID selfID data with
          | inl reason => ([], Some reason)
          | inr env =>
              let '(rest, reason) := readFrames fuel' maxEnvelopeBytes expectedLane operatorID selfID reader' in
              ((env, zlen data) :: rest, reason)
          end
      end
  end.

Definition handlePersistentStreamForLane (maxEnvelopeBytes : Z) (operator : option Z) (selfID : Z)
    (expectedLane : option persistentStreamLane) (stream : bytes)
  : list (WireEnvelope * Z) * option string :=
  match operator with
  | None => ([], Some "authentication"%string)
  | Some operatorID =>
      readFrames (S (length stream)) maxEnvelopeBytes expectedLane operatorID selfID stream
  end.

(** ** Sending *)

Definition authenticatedOutboundEnvelope (from to : Z) (env : WireEnvelope) : WireEnvelope :=
  mkEnvelope from to true (env_Kind env) (env_Slot env) (env_ACS env) (env_Share env).

Inductive streamMode := streamModeFresh | streamModePersistent | streamModePersistentLanes.

(** The lane chosen, if the mode has lanes, and the bytes written to the
  stream when opening and writing it succeed. *)
Definition Send (mode : streamMode) (peers : gset Z) (maxEnvelopeBytes selfID to : Z) (env : WireEnvelope)
  : out (option persistentStreamLane * bytes) :=
  if negb (bool_decide (to ∈ peers)) then Err "unknown peer"
  else
    let env := authenticatedOutboundEnvelope selfID to env in
    let? lane :=
      match mode with
      | streamModePersistentLanes => let? lane := classifyEnvelopeLane env in Ok (Some lane)
      | _ => Ok None
      end in
    let? data := codec_Encode env in
    if maxEnvelopeBytes <? zlen data then Err "protocol envelope exceeds configured maximum"
    else
      match mode with
      | streamModeFresh => Ok (lane, data)
      | _ =>
          match writeEnvelopeFrame data with
          | inr frame => Ok (lane, frame)
          | inl _ => Err "envelope frame has zero length"
          end
      end.
End Codec.
