(* ===== verification/WireLaws.v ===== *)
(** * Laws of the wire layer

    Frames and varints are read back as written, the codec inverts itself on
    every envelope a node builds, what one node sends on a stream arrives in
    order at the handler of the other, and nothing reaches a handler that the
    authenticated peer did not address to this node in its own name. *)

From S2P Require Import Prelude GoStrings Messages SlotAcs Trace Wire.

(** ** Varints *)

Lemma PutUvarint_read n v x s rest :
  (n <= 10)%nat -> s = 7 * (10 - Z.of_nat n) -> 0 <= v < 2 ^ (64 - s) -> 0 <= x < 2 ^ s -> (0 < n)%nat ->
  ReadUvarint n x s (PutUvarint n v ++ rest) = inr (x + v * 2 ^ s, rest).
Proof.
  revert v x s. induction n as [|n IH]; intros v x s Hn Hs Hv Hx H0; [lia|].
  assert (forall w, 0 <= w -> w * 2 ^ s < 2 ^ 64 -> u64 (Z.shiftl w s) = Z.shiftl w s) as Hu.
  { intros w Hw Hlt. apply u64_small. rewrite Z.shiftl_mul_pow2 by lia. lia. }
  assert (2 ^ (64 - s) * 2 ^ s = 2 ^ 64) as Hpow by (rewrite <- Z.pow_add_r by lia; f_equal; lia).
  cbn [PutUvarint]. destruct (Z.ltb_spec v 128) as [Hlt|Hge].
  - cbn [app ReadUvarint]. replace (v <? 128) with true by lia.
    assert (Nat.eqb (S n) 1 && (1 <? v) = false) as ->.
    { destruct n as [|n]; [|done]. subst s. cbn in Hv. cbn [Nat.eqb andb]. lia. }
    rewrite Hu by nia. by rewrite lor_shiftl by lia.
  - destruct n as [|n].
    { subst s. cbn in Hv. lia. }
    set (b := Z.land v 127).
    assert (b = v mod 128) as Hb by (unfold b; change 127 with (Z.ones 7); by rewrite Z.land_ones by lia).
    assert (0 <= b < 128) as Hbr by (rewrite Hb; by apply Z.mod_pos_bound).
    assert (Z.lor b 128 = b + 128) as -> by (change 128 with (Z.shiftl 1 7); by rewrite lor_shiftl by lia).
    remember (S n) as n' eqn:En. cbn [app ReadUvarint]. replace (b + 128 <? 128) with false by lia.
    assert (Z.land (b + 128) 127 = b) as ->.
    { change 127 with (Z.ones 7). rewrite Z.land_ones by lia.
      rewrite <- Zplus_mod_idemp_r. change (128 mod 2 ^ 7) with 0. rewrite Z.add_0_r. by apply Z.mod_small. }
    assert (v = b + 128 * (v / 128)) as Ev by (pose proof (Z.div_mod v 128); lia).
    rewrite Hu, lor_shiftl by nia. rewrite Z.shiftr_div_pow2 by lia. change (2 ^ 7) with 128.
    assert (0 <= v / 128) by (apply Z.div_pos; lia).
    assert (2 ^ (s + 7) = 2 ^ s * 128) as Es by (rewrite Z.pow_add_r by lia; done).
    rewrite IH; [f_equal; f_equal; rewrite Es; nia|lia|lia| |nia|lia].
    split; [done|]. assert (2 ^ (64 - s) = 2 ^ (64 - (s + 7)) * 128); [|lia].
    change 128 with (2 ^ 7). rewrite <- Z.pow_add_r by lia. f_equal. lia.
Qed.

Lemma PutUvarint_nonempty n v : (0 < n)%nat -> (1 <= length (PutUvarint n v))%nat.
Proof. destruct n as [|n]; [lia|]. intros _. cbn. destruct (v <? 128); cbn; lia. Qed.

(** A frame read consumes at least its first byte. *)
Lemma ReadUvarint_shorter n x s reader v rest :
  ReadUvarint n x s reader = inr (v, rest) -> (length rest < length reader)%nat.
Proof.
  revert x s reader. induction n as [|n IH]; intros x s [|b reader]; cbn [ReadUvarint]; try done.
  - by destruct (Nat.eqb _ _).
  - destruct (b <? 128).
    + destruct (Nat.eqb _ _ && _); [done|]. intros [= _ <-]. cbn. lia.
    + intros H%IH. cbn. lia.
Qed.

#[local] Opaque PutUvarint ReadUvarint.

Lemma frame_read max payload frame rest :
  zlen payload <= max < 2 ^ 63 -> writeEnvelopeFrame payload = inr frame ->
  readEnvelopeFrame max (frame ++ rest) = inr (payload, rest).
Proof.
  intros Hmax. unfold writeEnvelopeFrame. destruct (Z.eqb_spec (zlen payload) 0) as [|Hne]; [done|].
  intros [= <-]. unfold readEnvelopeFrame. replace (max <? 1) with false by lia.
  rewrite <- app_assoc. rewrite (u64_small (zlen payload)), (u64_small max) by lia.
  rewrite (PutUvarint_read 10) by (cbn; lia). change (0 + zlen payload * 2 ^ 0) with (zlen payload * 1).
  rewrite Z.mul_1_r. replace (zlen payload =? 0) with false by lia.
  replace (max <? zlen payload) with false by lia.
  replace (zlen (payload ++ rest) <? zlen payload) with false
    by (symmetry; apply Z.ltb_ge; rewrite length_app; lia).
  rewrite Nat2Z.id. by rewrite take_app_length, drop_app_length.
Qed.

Lemma readEnvelopeFrame_shorter max reader data rest :
  readEnvelopeFrame max reader = inr (data, rest) -> (length rest < length reader)%nat /\ zlen data <= u64 max.
Proof.
  unfold readEnvelopeFrame. destruct (max <? 1); [done|].
  destruct (ReadUvarint _ _ _ _) as [|[v rd]] eqn:E; [done|]. apply ReadUvarint_shorter in E.
  destruct (Z.eqb_spec v 0); [done|]. destruct (Z.ltb_spec (u64 max) v); [done|].
  destruct (Z.ltb_spec (zlen rd) v); [done|]. intros [= <- <-].
  rewrite length_take, length_drop. pose proof (u64_range max). lia.
Qed.

(** ** The codec *)

Definition goInt (x : Z) : Prop := - 2 ^ 63 <= x < 2 ^ 63.

(** The [int] fields hold what an [int] holds. *)
Definition wireInts (env : WireEnvelope) : Prop :=
  match env_ACS env with
  | Some (mkSlotMessage _ (Some acs)) =>
      match Payload acs with
      | PAgreement m => goInt (Epoch m)
      | PBroadcast (mkBroadcast (PProof p)) | PBroadcast (mkBroadcast (PEcho p)) =>
          goInt (Index p) /\ goInt (Leaves p)
      | _ => True
      end
  | _ => True
  end /\
  match env_Share env with
  | Some s => goInt (ws_OperatorID s) /\ goInt (ws_SubBatchID s)
  | None => True
  end.

Lemma acs_codec slot m acs :
  toProtoACSMessage (Some m) = Ok acs -> wireInts (mkEnvelope 0 0 true [] 0 (Some (mkSlotMessage slot (Some m))) None) ->
  fromProtoACSMessage (Some acs) = Ok m.
Proof.
  destruct m as [pid [[epoch []]|[[p|p|root|]]|]]; cbn; try done; intros [= <-] [Hints _]; cbn;
    rewrite ?i64_u64 by done; try done.
  all: destruct Hints as [Hi Hl]; rewrite (i64_u64 _ Hi), (i64_u64 _ Hl); by destruct p.
Qed.

Section Codec.
Context (proto_Marshal : pbEnvelope -> option bytes) (proto_Unmarshal : bytes -> option pbEnvelope).
Hypothesis proto_law : forall m data, proto_Marshal m = Some data -> proto_Unmarshal data = Some m.

Abbreviation Encode := (codec_Encode proto_Marshal).
Abbreviation Decode := (codec_Decode proto_Unmarshal).

Lemma codec_inverse env data :
  validateEnvelopePayload env = Ok tt -> wireInts env -> Encode env = Ok data -> Decode data = Ok env.
Proof.
  destruct env as [from to direct kind slot acs share].
  unfold validateEnvelopePayload, codec_Encode, codec_Decode, wireInts; cbn [env_Kind env_ACS env_Share].
  destruct (bool_decide (kind = kindACS)) eqn:Ek.
  - destruct acs as [[mslot [m|]]|], share; try done. intros _ [Hints _].
    unfold toProtoSlotMessage. cbn [sm_Payload sm_Slot].
    destruct (toProtoACSMessage (Some m)) as [acs| |] eqn:Ea; [|done|done]. cbn [out_bind].
    destruct (proto_Marshal _) eqn:Em; [|done]. intros [= <-]. rewrite (proto_law _ _ Em). cbn.
    assert (fromProtoACSMessage (Some acs) = Ok m) as Hm by (by eapply (acs_codec 0)).
    cbn in Hm. by rewrite Hm.
  - destruct (bool_decide (kind = kindShare)) eqn:Es; [|done].
    destruct acs as [?|]; destruct share as [sh|]; try done. intros _ [_ [Ho Hs]]. cbn [out_bind].
    destruct (proto_Marshal _) eqn:Em; [|done]. intros [= <-]. rewrite (proto_law _ _ Em). cbn.
    rewrite !i64_u64 by done. by destruct sh.
Qed.

(** ** What a handler receives *)

(** Everything that was checked before an envelope is handed over. *)
Record addressed (lane : option persistentStreamLane) (p self : Z) (env : WireEnvelope) : Prop := {
  ad_from : env_From env = p;
  ad_to : env_To env = self;
  ad_direct : env_Direct env = true;
  ad_payload : validateEnvelopePayload env = Ok tt;
  ad_share : forall s, env_Share env = Some s -> ws_OperatorID s = i64 p;
  ad_lane : forall l, lane = Some l -> classifyEnvelopeLane env = Ok l
}.

Lemma validate_unit env u : validateEnvelopePayload env = Ok u -> validateEnvelopePayload env = Ok tt.
Proof. by destruct u. Qed.

Lemma authenticated_spec p self env u :
  validateAuthenticatedEnvelope p self env = Ok u <->
  env_From env = p /\ env_Direct env = true /\ env_To env = self /\
  forall s, env_Share env = Some s -> ws_OperatorID s = i64 p.
Proof.
  destruct u. unfold validateAuthenticatedEnvelope.
  destruct (Z.eqb_spec (env_From env) p); cbn [negb]; [|naive_solver].
  destruct (env_Direct env), (Z.eqb_spec (env_To env) self); cbn [negb orb]; try naive_solver.
  destruct (env_Share env) as [s|]; [|naive_solver].
  destruct (Z.eqb_spec (ws_OperatorID s) (i64 p)); naive_solver.
Qed.

Lemma admit_addressed lane p self data env :
  admitEnvelope proto_Unmarshal lane p self data = inr env <->
  Decode data = Ok env /\ addressed lane p self env.
Proof.
  unfold admitEnvelope. split.
  - destruct (codec_Decode _ _) as [env'| |]; try done.
    destruct (validateEnvelopePayload env') as [u| |] eqn:Ep; try done.
    destruct (validateAuthenticatedEnvelope _ _ _) as [u'| |] eqn:Ea; try done.
    apply authenticated_spec in Ea as (? & ? & ? & ?). apply validate_unit in Ep.
    destruct lane as [l|].
    + destruct (classifyEnvelopeLane env') eqn:El; try done.
      destruct (bool_decide_reflect (a = l)) as [->|]; [|done]. intros [= <-].
      split; [done|]. split; try done. by intros ? [= <-].
    + intros [= <-]. split; [done|]. by split.
  - intros [-> []]. rewrite ad_payload0.
    rewrite (proj2 (authenticated_spec p self env tt)) by done.
    destruct lane as [l|]; [|done]. rewrite (ad_lane0 l eq_refl). by rewrite bool_decide_true.
Qed.

Lemma readFrames_fuel max lane p self fuel fuel' reader :
  (length reader < fuel)%nat -> (length reader < fuel')%nat ->
  readFrames proto_Unmarshal fuel max lane p self reader =
  readFrames proto_Unmarshal fuel' max lane p self reader.
Proof.
  revert fuel' reader. induction fuel as [|fuel IH]; intros [|fuel'] reader Hf Hf'; [lia|lia|lia|].
  cbn [readFrames]. destruct (readEnvelopeFrame max reader) as [|[data rest]] eqn:E; [done|].
  apply readEnvelopeFrame_shorter in E as [E _].
  destruct (admitEnvelope _ _ _ _ _); [done|]. by rewrite (IH fuel' rest) by lia.
Qed.

Lemma readFrames_addressed max lane p self fuel reader env n :
  (env, n) ∈ (readFrames proto_Unmarshal fuel max lane p self reader).1 ->
  addressed lane p self env /\ n <= u64 max.
Proof.
  revert reader. induction fuel as [|fuel IH]; intros reader; [by intros ?%elem_of_nil|].
  cbn [readFrames]. destruct (readEnvelopeFrame max reader) as [e|[data rest]] eqn:E.
  - destruct e; by intros ?%elem_of_nil.
  - apply readEnvelopeFrame_shorter in E as [_ Hl].
    destruct (admitEnvelope _ _ _ _ _) as [r|env'] eqn:Ea; [by intros ?%elem_of_nil|].
    destruct (readFrames _ _ _ _ _ _ rest) as [envs r] eqn:Er. cbn [fst].
    intros [[= -> ->]|Hin]%elem_of_cons.
    + by apply admit_addressed in Ea as [_ Ea].
    + apply (IH rest). by rewrite Er.
Qed.

(** ** Delivery *)

(** A share travels in the name of the node that sends it. *)
Definition sendable (p : Z) (env : WireEnvelope) : Prop :=
  validateEnvelopePayload env = Ok tt /\ wireInts env /\
  forall s, env_Share env = Some s -> ws_OperatorID s = i64 p.

Lemma sent_admitted mode peers max p q env lane stream :
  sendable p env -> Send proto_Marshal mode peers max p q env = Ok (lane, stream) ->
  exists data, zlen data <= max /\
  admitEnvelope proto_Unmarshal lane p q data = inr (authenticatedOutboundEnvelope p q env) /\
  match mode with
  | streamModeFresh => lane = None /\ stream = data
  | _ => writeEnvelopeFrame data = inr stream
  end.
Proof.
  intros (Hv & Hi & Hs). unfold Send. destruct (negb _); [done|].
  set (env' := authenticatedOutboundEnvelope p q env).
  destruct (match mode with streamModePersistentLanes => _ | _ => _ end) as [lane'| |] eqn:El; [|done|done].
  cbn [out_bind]. destruct (codec_Encode _ env') as [data| |] eqn:Ee; [|done|done]. cbn [out_bind].
  destruct (Z.ltb_spec max (zlen data)); [done|]. intros Hsend. exists data.
  assert (Decode data = Ok env') as Hd by (by apply codec_inverse).
  assert (lane' = lane) as -> by (destruct mode; [|destruct (writeEnvelopeFrame data)..]; congruence).
  split; [done|]. split.
  - apply admit_addressed. split; [done|]. split; try done.
    intros l ->. destruct mode; [done|done|]. destruct (classifyEnvelopeLane env'); cbn in El; congruence.
  - destruct mode; [|destruct (writeEnvelopeFrame data); congruence..]. split; congruence.
Qed.
Lemma frames_delivered mode peers max p q envs streams lane :
  mode <> streamModeFresh -> 1 <= max < 2 ^ 63 -> Forall (sendable p) envs ->
  Forall2 (fun env stream => Send proto_Marshal mode peers max p q env = Ok (lane, stream)) envs streams ->
  exists received,
    handlePersistentStreamForLane proto_Unmarshal max (Some p) q lane (concat streams) = (received, None) /\
    map fst received = map (authenticatedOutboundEnvelope p q) envs.
Proof.
  intros Hmode Hmax Hok Hsent. cbn [handlePersistentStreamForLane].
  induction Hsent as [|env stream envs streams Hs _ IH].
  { exists []. split; [|done]. cbn [concat length readFrames].
    unfold readEnvelopeFrame. by replace (max <? 1) with false by lia. }
  apply Forall_cons in Hok as [He Hok]. destruct (IH Hok) as (received & Hr & Hm).
  destruct (sent_admitted _ _ _ _ _ _ _ _ He Hs) as (data & Hl & Ha & Hw).
  assert (writeEnvelopeFrame data = inr stream) as Hf by by destruct mode.
  exists ((authenticatedOutboundEnvelope p q env, zlen data) :: received).
  split; [|cbn; by rewrite Hm]. cbn [concat].
  rewrite (readFrames_fuel _ _ _ _ _ (S (S (length (stream ++ concat streams))))) by lia.
  remember (S (length (stream ++ concat streams))) as fuel eqn:Ef. cbn [readFrames].
  rewrite (frame_read max data stream) by (done || lia). rewrite Ha.
  rewrite (readFrames_fuel _ _ _ _ _ (S (length (concat streams)))), Hr; [done| |lia].
  subst fuel. rewrite length_app. lia.
Qed.
End Codec.


(** C6. Nothing reaches the envelope handler from an unconfigured peer, and
    every envelope that does names the authenticated peer as its sender, this
    node as its receiver, and the peer as the operator of a share it carries;
    it has the payload of its kind, travelled on the lane of its class, and is
    not larger than the limit. The reading loop consumes the stream: more
    rounds than bytes change nothing. *)
Theorem inbound_authenticated proto_Unmarshal max operator self lane stream :
  0 <= max < 2 ^ 64 ->
  (forall env n, handleFreshStream proto_Unmarshal max operator self stream = inr (env, n) ->
     exists p, operator = Some p /\ addressed None p self env /\ n <= max) /\
  (forall env n, (env, n) ∈ (handlePersistentStreamForLane proto_Unmarshal max operator self lane stream).1 ->
     exists p, operator = Some p /\ addressed lane p self env /\ n <= max) /\
  (forall p fuel, (length stream < fuel)%nat -> operator = Some p ->
     readFrames proto_Unmarshal fuel max lane p self stream =
     handlePersistentStreamForLane proto_Unmarshal max operator self lane stream).
Proof.
  intros Hmax. split_and!.
  - intros env n. unfold handleFreshStream, readBoundedEnvelope. destruct operator as [p|]; [|done].
    destruct (max <? 1); [done|]. set (data := take _ stream). destruct (Z.ltb_spec max (zlen data)); [done|].
    destruct (admitEnvelope _ _ _ _ _) as [|env'] eqn:Ea; [done|]. intros [= -> <-]. exists p.
    split; [done|]. split; [|lia]. by apply admit_addressed in Ea as [_ Ea].
  - intros env n. destruct operator as [p|]; [|by intros ?%elem_of_nil].
    intros [Ha Hn]%readFrames_addressed. rewrite u64_small in Hn by lia. by exists p.
  - intros p fuel Hfuel ->. apply readFrames_fuel; [done|]. lia.
Qed.

(** ** Concrete runs *)

Module WireDemo.

(** A codec for two messages. *)
Definition share : WireEnvelope :=
  mkEnvelope 0 0 false kindShare 7 None (Some (mkWireShare 1 (str "ab") 0 (str "cd"))).
Definition echo : WireEnvelope :=
  mkEnvelope 0 0 false kindACS 7
    (Some (mkSlotMessage 7 (Some (mkACSMessage 2 (PBroadcast (mkBroadcast (PEcho (mkProofRequest [1] [[2]] 1 4)))))))) None.
Definition pbShare : pbEnvelope :=
  mkPbEnvelope 1 1 2 true kindShare 7 (Some (Envelope_Share (Some (mkPbShare 1 (str "ab") 0 (str "cd"))))).
Definition pbEchoBody : pbBroadcast :=
  mkPbBroadcast (Some (BroadcastMessage_Echo (Some (Some (mkPbProof [1] [[2]] 1 4))))).
Definition pbEcho : pbEnvelope :=
  mkPbEnvelope 1 1 2 true kindACS 7
    (Some (Envelope_Acs (Some (mkPbSlot 7 (Some (mkPbACS 2 (Some (ACSMessage_Broadcast (Some pbEchoBody))))))))).

Definition longCode : bytes := replicate 200 5.
Definition Marshal (m : pbEnvelope) : option bytes :=
  if bool_decide (m = pbShare) then Some [9; 9] else if bool_decide (m = pbEcho) then Some longCode else None.
Definition Unmarshal (data : bytes) : option pbEnvelope :=
  if bool_decide (data = [9; 9]) then Some pbShare else if bool_decide (data = longCode) then Some pbEcho else None.

Definition stream (mode : streamMode) (env : WireEnvelope) : bytes :=
  match Send Marshal mode {[1; 2]} 1000 1 2 env with
  | Ok (_, data) => data
  | _ => []
  end.
End WireDemo.

Lemma demo_codec_law m data : WireDemo.Marshal m = Some data -> WireDemo.Unmarshal data = Some m.
Proof.
  unfold WireDemo.Marshal, WireDemo.Unmarshal.
  destruct (bool_decide_reflect (m = WireDemo.pbShare)) as [->|]; [by intros [= <-]|].
  destruct (bool_decide_reflect (m = WireDemo.pbEcho)) as [->|]; [by intros [= <-]|done].
Qed.


Lemma inbound_authenticated_witness :
  0 <= 1000 < 2 ^ 64 /\
  exists p, Some 1 = Some p /\
    addressed None p 2 (authenticatedOutboundEnvelope 1 2 WireDemo.share) /\ 2 <= 1000.
Proof.
  split; [lia|].
  apply (proj1 (inbound_authenticated WireDemo.Unmarshal 1000 (Some 1) 2 None [9; 9] ltac:(lia))).
  by vm_compute.
Defined.
