(* ===== verification/Writer.v ===== *)
(** * Writer: the goroutine behind a persistent stream

    Models [src/bloc-node/internal/app/transport_libp2p_persistent.go], the
    lane writers of [transport_libp2p_lanes.go] and [writeAll] of
    [transport_libp2p.go]: senders hand payloads to a writer goroutine over a
    channel of capacity one, the writer frames them onto a stream that it opens
    when needed and resets on any failure, and closing the stop channel ends
    it.

    [world] is the writer's state with its senders; one [event] is a step of
    one goroutine. A send or a prewarm by the writer is one step, since the other
    goroutines meanwhile touch only the channels; what the network and the clock
    decide during it is in [writeEnv] and [prewarmEnv]. Emptying the queue on the
    way out is one step a request. Durations are left out. *)

From S2P Require Import Prelude GoStrings Messages Acs SlotAcs Wire.

(** ** Writing bytes *)

(** A stream: the bytes it took, and whether it was reset. *)
Record pipe := mkPipe {
  written : bytes;
  wasReset : bool
}.

(** The answer of one [Write] call: how much it took, and its error. *)
Abbreviation writeAnswer := (nat * option string)%type.

(** [writeAll]; [answers i] is the answer of the [i]-th call. What was written,
  the error, and the number of calls. *)
Fixpoint writeAllFrom (answers : nat -> writeAnswer) (i : nat) (fuel : nat) (data : bytes) : bytes * option string * nat :=
  match fuel with
  | O => ([], None, i)
  | S fuel' =>
      match data with
      | [] => ([], None, i)
      | _ =>
          let '(n, err) := answers i in
          let took := take n data in
          match err with
          | Some e => (took, Some e, S i)
          | None =>
              if bool_decide (took = []) then ([], Some "short write"%string, S i)
              else
                let '(more, err, j) := writeAllFrom answers (S i) fuel' (drop n data) in
                (took ++ more, err, j)
          end
      end
  end.

(** Every round but the last takes a byte: [length data] rounds are enough. *)
Definition writeAll (answers : nat -> writeAnswer) (i : nat) (data : bytes) : bytes * option string * nat :=
  writeAllFrom answers i (length data) data.

Definition errEnvelopeFrameZeroLength : string := "envelope frame has zero length".
Definition errPersistentWriterClosed : string := "persistent stream writer is closed".

(** [writeEnvelopeFrame] onto a stream: what reached it, and the error. *)
Definition writeFrameTo (answers : nat -> writeAnswer) (payload : bytes) : bytes * option string :=
  if bool_decide (payload = []) then ([], Some errEnvelopeFrameZeroLength)
  else
    let '(prefix, err, i) := writeAll answers 0 (PutUvarint MaxVarintLen64 (u64 (zlen payload))) in
    match err with
    | Some e => (prefix, Some e)
    | None =>
        let '(body, err, _) := writeAll answers i payload in
        (prefix ++ body, err)
    end.

(** ** The state *)

Record persistentSendRequest := mkRequest {
  rq_id : Z;
  rq_payload : bytes
}.

#[export] Instance persistentSendRequest_eq_dec : EqDecision persistentSendRequest.
Proof. solve_decision. Defined.

(** [persistentSendCompletion], the error only; [None] is success. *)
Abbreviation completion := (option string).

(** Where a caller of [send] is. *)
Inductive senderState :=
  | Offering (payload : bytes)
  | Waiting
  | Returned (c : completion).

(** Where [run] is: in its loop, in one of the two loops of [failQueued], or
  returned. *)
Inductive phase :=
  | Looping
  | DrainingQueue
  | DrainingPrewarm
  | Done.

#[export] Instance phase_eq_dec : EqDecision phase.
Proof. solve_decision. Defined.

(** [stream] is the loop's variable. *)
Record peerStreamWriter := mkWriter {
  at_phase : phase;
  queue : list persistentSendRequest;
  prewarm : list Z;
  stream : option Z;
  ready : bool
}.

(** [results] and [prewarmed] hold what the result channels were given;
  [accepted] and [framed] are history that no step reads: the requests in the
  order the queue took them, and the frames written in full, each with its
  stream. *)
Record world := mkWorld {
  wr : peerStreamWriter;
  stopped : bool;
  pipes : gmap Z pipe;
  senders : gmap Z senderState;
  results : gmap Z completion;
  prewarmed : gmap Z completion;
  accepted : list persistentSendRequest;
  framed : list (Z * persistentSendRequest)
}.

Definition newPeerStreamWriter : world :=
  mkWorld (mkWriter Looping [] [] None false) false ∅ ∅ ∅ ∅ [] [].

Definition persistentQueueCapacity : Z := 1.

(** ** Updates *)

Definition set_wr (x : peerStreamWriter) (w : world) : world :=
  mkWorld x (stopped w) (pipes w) (senders w) (results w) (prewarmed w) (accepted w) (framed w).
Definition set_phase (p : phase) (w : world) : world :=
  set_wr (mkWriter p (queue (wr w)) (prewarm (wr w)) (stream (wr w)) (ready (wr w))) w.
Definition set_queue (q : list persistentSendRequest) (w : world) : world :=
  set_wr (mkWriter (at_phase (wr w)) q (prewarm (wr w)) (stream (wr w)) (ready (wr w))) w.
Definition set_prewarm (p : list Z) (w : world) : world :=
  set_wr (mkWriter (at_phase (wr w)) (queue (wr w)) p (stream (wr w)) (ready (wr w))) w.
Definition set_stream (s : option Z) (w : world) : world :=
  set_wr (mkWriter (at_phase (wr w)) (queue (wr w)) (prewarm (wr w)) s (ready (wr w))) w.
Definition set_ready (b : bool) (w : world) : world :=
  set_wr (mkWriter (at_phase (wr w)) (queue (wr w)) (prewarm (wr w)) (stream (wr w)) b) w.
Definition set_stopped (b : bool) (w : world) : world :=
  mkWorld (wr w) b (pipes w) (senders w) (results w) (prewarmed w) (accepted w) (framed w).
Definition set_pipe (s : Z) (p : pipe) (w : world) : world :=
  mkWorld (wr w) (stopped w) (<[s := p]> (pipes w)) (senders w) (results w) (prewarmed w) (accepted w) (framed w).
Definition set_sender (id : Z) (s : senderState) (w : world) : world :=
  mkWorld (wr w) (stopped w) (pipes w) (<[id := s]> (senders w)) (results w) (prewarmed w) (accepted w) (framed w).
Definition complete (id : Z) (c : completion) (w : world) : world :=
  mkWorld (wr w) (stopped w) (pipes w) (senders w) (<[id := c]> (results w)) (prewarmed w) (accepted w) (framed w).
Definition completePrewarm (id : Z) (c : completion) (w : world) : world :=
  mkWorld (wr w) (stopped w) (pipes w) (senders w) (results w) (<[id := c]> (prewarmed w)) (accepted w) (framed w).
Definition accept (r : persistentSendRequest) (w : world) : world :=
  mkWorld (wr w) (stopped w) (pipes w) (senders w) (results w) (prewarmed w) (accepted w ++ [r]) (framed w).
Definition note_frame (s : Z) (r : persistentSendRequest) (w : world) : world :=
  mkWorld (wr w) (stopped w) (pipes w) (senders w) (results w) (prewarmed w) (accepted w) (framed w ++ [(s, r)]).

(** A new stream. *)
Definition opened (s : Z) (reset : bool) (w : world) : world := set_pipe s (mkPipe [] reset) w.

(** ** The loop *)

(** [resetStream] of the stream at hand, and the stream forgotten: every caller
  returns nil, or leaves the loop. *)
Definition resetStream (w : world) : world :=
  let w :=
    match stream (wr w) with
    | Some s =>
        let p := default (mkPipe [] false) (pipes w !! s) in
        set_pipe s (mkPipe (written p) true) w
    | None => w
    end in
  set_ready false (set_stream None w).

(** [stopStream], and on to [failQueued]. *)
Definition stopStream (w : world) : world := set_phase DrainingQueue (resetStream w).

(** One step of [failQueued]; after the last one [done] is closed. *)
Definition failQueued (w : world) : option world :=
  match at_phase (wr w), queue (wr w), prewarm (wr w) with
  | DrainingQueue, r :: rest, _ => Some (complete (rq_id r) (Some errPersistentWriterClosed) (set_queue rest w))
  | DrainingQueue, [], _ => Some (set_phase DrainingPrewarm w)
  | DrainingPrewarm, _, id :: rest => Some (completePrewarm id (Some errPersistentWriterClosed) (set_prewarm rest w))
  | DrainingPrewarm, _, [] => Some (set_phase Done w)
  | _, _, _ => None
  end.

(** What [open] gives: a stream, nil, or an error. *)
Abbreviation openResult := (string + option Z)%type.

(** What one iteration meets: the context's error at each check, the answer of
  [open], the deadline, the answers of [Write], and whether the stop channel is
  found closed at the last check. *)
Record writeEnv := mkWriteEnv {
  ctxErr : option string;
  openAnswer : openResult;
  ctxErrAgain : option string;
  hasDeadline : bool;
  setDeadlineErr : option string;
  writes : nat -> writeAnswer;
  stopSeen : bool
}.

(** A request that fails once a stream is there. *)
Definition failOn (id : Z) (e : string) (w : world) : world := complete id (Some e) (resetStream w).

Definition writeOn (env : writeEnv) (s : Z) (r : persistentSendRequest) (w : world) : world :=
  match ctxErrAgain env with
  | Some e => failOn (rq_id r) e w
  | None =>
      if negb (hasDeadline env) then failOn (rq_id r) "persistent send has no effective deadline" w
      else
        match setDeadlineErr env with
        | Some e => failOn (rq_id r) e w
        | None =>
            let '(data, err) := writeFrameTo (writes env) (rq_payload r) in
            let p := default (mkPipe [] false) (pipes w !! s) in
            let w := set_pipe s (mkPipe (written p ++ data) (wasReset p)) w in
            match err with
            | Some e => failOn (rq_id r) e w
            | None =>
                let w := note_frame s r w in
                if stopped w then failOn (rq_id r) errPersistentWriterClosed w
                else complete (rq_id r) None w
            end
        end
  end.

Definition writeRequest (env : writeEnv) (r : persistentSendRequest) (w : world) : world :=
  match ctxErr env with
  | Some e => complete (rq_id r) (Some e) w
  | None =>
      match stream (wr w) with
      | Some s => writeOn env s r w
      | None =>
          match openAnswer env with
          | inr (Some s) => writeOn env s r (set_ready true (set_stream (Some s) (opened s false w)))
          | inr None => complete (rq_id r) (Some "persistent stream opener returned a nil stream"%string) w
          | inl e => complete (rq_id r) (Some e) w
          end
      end
  end.

(** What [completePersistentProtocolNegotiation] meets. *)
Record negotiation := mkNegotiation {
  negotiates : bool;
  neg_hasDeadline : bool;
  setReadDeadlineErr : option string;
  readErr : option string;
  clearReadDeadlineErr : option string
}.

Definition completePersistentProtocolNegotiation (n : negotiation) : option string :=
  if negb (negotiates n) then Some "persistent stream does not support protocol negotiation confirmation"%string
  else if negb (neg_hasDeadline n) then Some "persistent stream prewarm has no effective deadline"%string
  else
    match setReadDeadlineErr n with
    | Some e => Some ("set persistent prewarm read deadline: " ++ e)%string
    | None =>
        match readErr n with
        | Some e => Some ("complete persistent protocol negotiation: " ++ e)%string
        | None =>
            match clearReadDeadlineErr n with
            | Some e => Some ("clear persistent prewarm read deadline: " ++ e)%string
            | None => None
            end
        end
    end.

Record prewarmEnv := mkPrewarmEnv {
  pre_ctxErr : option string;
  pre_open : openResult;
  pre_stopSeen : bool;
  pre_negotiation : negotiation
}.

Definition openPrewarmedStream (env : prewarmEnv) (id : Z) (w : world) : world :=
  match pre_ctxErr env with
  | Some e => completePrewarm id (Some e) w
  | None =>
      match stream (wr w) with
      | Some _ => completePrewarm id None w
      | None =>
          match pre_open env with
          | inr (Some s) =>
              if stopped w then completePrewarm id (Some errPersistentWriterClosed) (opened s true w)
              else
                match completePersistentProtocolNegotiation (pre_negotiation env) with
                | Some e => completePrewarm id (Some e) (opened s true w)
                | None => completePrewarm id None (set_ready true (set_stream (Some s) (opened s false w)))
                end
          | inr None => completePrewarm id (Some "persistent stream prewarmer returned a nil stream"%string) w
          | inl e => completePrewarm id (Some e) w
          end
      end
  end.

(** ** Steps

    [send] is three steps of its caller, [Offer], one of [Enqueue], [GiveUp] and
    [SeeStop], and, once in the queue, one of [Take], [GiveUp] and [SeeStop];
    of a caller of [prewarmStream] only the offer is here. *)

Inductive event :=
  | Offer (id : Z) (payload : bytes)
  | Enqueue (id : Z)
  | GiveUp (id : Z) (e : string)
  | SeeStop (id : Z)
  | Take (id : Z)
  | AskPrewarm (id : Z)
  | CloseStop
  | RunStop
  | RunRequest (env : writeEnv)
  | RunPrewarm (env : prewarmEnv)
  | RunDrain.

(** A stream the network opens is a new one. *)
Definition freshStream (answer : openResult) (w : world) : bool :=
  match answer with
  | inr (Some s) => bool_decide (pipes w !! s = None)
  | _ => true
  end.

(** [send] up to its first [select]. *)
Definition offer (id : Z) (payload : bytes) (w : world) : option world :=
  match senders w !! id with
  | Some _ => None
  | None =>
      Some (set_sender id (if bool_decide (payload = []) then Returned (Some errEnvelopeFrameZeroLength)
                           else Offering payload) w)
  end.

Definition enqueue (id : Z) (w : world) : option world :=
  match senders w !! id with
  | Some (Offering payload) =>
      if zlen (queue (wr w)) <? persistentQueueCapacity then
        let r := mkRequest id payload in
        Some (accept r (set_sender id Waiting (set_queue (queue (wr w) ++ [r]) w)))
      else None
  | _ => None
  end.

(** [send] returns an error of its own. *)
Definition abandon (id : Z) (e : string) (w : world) : option world :=
  match senders w !! id with
  | Some (Offering _) | Some Waiting => Some (set_sender id (Returned (Some e)) w)
  | _ => None
  end.

Definition takeResult (id : Z) (w : world) : option world :=
  match senders w !! id, results w !! id with
  | Some Waiting, Some c => Some (set_sender id (Returned c) w)
  | _, _ => None
  end.

(** The queue's case of the loop. *)
Definition runRequest (env : writeEnv) (w : world) : option world :=
  match queue (wr w) with
  | [] => None
  | r :: rest =>
      let w := set_queue rest w in
      if stopped w then Some (stopStream (complete (rq_id r) (Some errPersistentWriterClosed) w))
      else if freshStream (openAnswer env) w then Some (writeRequest env r (set_stopped (stopSeen env) w))
      else None
  end.

(** The prewarm case. *)
Definition runPrewarm (env : prewarmEnv) (w : world) : option world :=
  match prewarm (wr w) with
  | [] => None
  | id :: rest =>
      let w := set_prewarm rest w in
      if stopped w then Some (stopStream (completePrewarm id (Some errPersistentWriterClosed) w))
      else if freshStream (pre_open env) w then Some (openPrewarmedStream env id (set_stopped (pre_stopSeen env) w))
      else None
  end.

Definition looping (w : world) : bool := bool_decide (at_phase (wr w) = Looping).

Definition wstep (e : event) (w : world) : option world :=
  match e with
  | Offer id payload => offer id payload w
  | Enqueue id => enqueue id w
  | GiveUp id e => abandon id e w
  | SeeStop id => if stopped w then abandon id errPersistentWriterClosed w else None
  | Take id => takeResult id w
  | AskPrewarm id => if zlen (prewarm (wr w)) <? 1 then Some (set_prewarm (prewarm (wr w) ++ [id]) w) else None
  | CloseStop => Some (set_stopped true w)
  | RunStop => if looping w && stopped w then Some (stopStream w) else None
  | RunRequest env => if looping w then runRequest env w else None
  | RunPrewarm env => if looping w then runPrewarm env w else None
  | RunDrain => failQueued w
  end.

Fixpoint wrun (es : list event) (w : world) : option world :=
  match es with
  | [] => Some w
  | e :: es' => w' ← wstep e w; wrun es' w'
  end.

Inductive wreachable : world -> Prop :=
  | wreach_start : wreachable newPeerStreamWriter
  | wreach_step e w w' : wreachable w -> wstep e w = Some w' -> wreachable w'.

(** ** Lane writers *)

(** A pair of writers with one stop channel. *)
Record peerStreamLaneWriters := mkLaneWriters {
  lane_control : world;
  lane_data : world
}.

Definition newPeerStreamLaneWriters : peerStreamLaneWriters :=
  mkLaneWriters newPeerStreamWriter newPeerStreamWriter.

Definition writer (ws : option peerStreamLaneWriters) (lane : persistentStreamLane) : out world :=
  match ws with
  | None => Err "persistent lane writers are nil"
  | Some ws =>
      match lane with
      | persistentLaneControl => Ok (lane_control ws)
      | persistentLaneData => Ok (lane_data ws)
      end
  end.
