(* ===== verification/WriterLaws.v ===== *)
(** * Writer: what the streams carry and what senders learn

    Two invariants of every reachable state: one on the streams ([StreamInv]),
    whose bytes are whole frames up to the point where they were reset, and one
    on the requests ([QueueInv]), which are framed in the order the queue took
    them and completed once. Read at the other end ([framesIn]), a stream gives
    back its payloads. *)

From S2P Require Import Prelude GoStrings Messages Acs SlotAcs Wire WireLaws Writer.

(** ** Writing a frame *)

Definition frameOf (payload : bytes) : bytes := PutUvarint MaxVarintLen64 (u64 (zlen payload)) ++ payload.

Lemma writeAllFrom_spec answers fuel i data out err j :
  (length data <= fuel)%nat -> writeAllFrom answers i fuel data = (out, err, j) ->
  out `prefix_of` data /\ (err = None -> out = data).
Proof.
  revert i data out err j. induction fuel as [|fuel IH]; intros i data out err j Hf; cbn [writeAllFrom].
  - destruct data; [|cbn in Hf; lia]. by intros [= <- <- <-].
  - destruct data as [|b data]; [by intros [= <- <- <-]|]. destruct (answers i) as [n e].
    assert (take n (b :: data) `prefix_of` b :: data) as Hp by (exists (drop n (b :: data)); by rewrite take_drop).
    destruct e as [e|]; [by intros [= <- <- <-]|].
    case_bool_decide as Ht; [intros [= <- <- <-]; split; [apply prefix_nil|done]|].
    destruct (writeAllFrom answers (S i) fuel (drop n (b :: data))) as [[more err'] j'] eqn:E. intros [= <- <- <-].
    apply IH in E as [Hm He].
    + rewrite <- (take_drop n (b :: data)) at 2. split; [by apply prefix_app|].
      intros Hn. rewrite (He Hn). apply take_drop.
    + rewrite length_drop. assert (0 < n)%nat by (destruct n; [done|lia]). cbn [length] in *. lia.
Qed.

Lemma writeFrameTo_spec answers payload out err :
  payload <> [] -> writeFrameTo answers payload = (out, err) ->
  out `prefix_of` frameOf payload /\ (err = None -> out = frameOf payload).
Proof.
  intros Hne. unfold writeFrameTo, frameOf. rewrite bool_decide_false by done. unfold writeAll.
  set (pre := PutUvarint _ _).
  destruct (writeAllFrom answers 0 (length pre) pre) as [[o e] i] eqn:E1.
  apply writeAllFrom_spec in E1 as [Hp He]; [|done].
  destruct e as [e|]; [intros [= <- <-]; split; [by apply prefix_app_r|done]|].
  rewrite (He eq_refl). destruct (writeAllFrom answers i (length payload) payload) as [[o' e'] j] eqn:E2.
  apply writeAllFrom_spec in E2 as [Hp' He']; [|done]. intros [= <- <-].
  split; [by apply prefix_app|]. intros Hn. by rewrite (He' Hn).
Qed.

(** ** Streams *)

(** The frames of a stream, in the order they were written. *)
Definition framesOf (s : Z) (framed : list (Z * persistentSendRequest)) : bytes :=
  concat (map (fun sr => frameOf (rq_payload sr.2)) (filter (fun sr => sr.1 = s) framed)).

Lemma framesOf_app s l l' : framesOf s (l ++ l') = framesOf s l ++ framesOf s l'.
Proof. unfold framesOf. by rewrite filter_app, map_app, concat_app. Qed.

Lemma framesOf_one s s' r : framesOf s [(s', r)] = if bool_decide (s' = s) then frameOf (rq_payload r) else [].
Proof.
  unfold framesOf. rewrite filter_cons. cbn [fst]. case_bool_decide as E.
  - rewrite decide_True by done. cbn. by rewrite app_nil_r.
  - by rewrite decide_False.
Qed.

Lemma framesOf_none s framed : (forall sr, sr ∈ framed -> sr.1 <> s) -> framesOf s framed = [].
Proof.
  intros H. unfold framesOf. assert (filter (fun sr => sr.1 = s) framed = []) as ->; [|done].
  induction framed as [|sr framed IH]; [done|]. rewrite filter_cons, decide_False by (apply H; by left).
  apply IH. intros sr' Hin. apply H. by right.
Qed.

(** What a stream holds: frames, and after a reset perhaps the beginning of one
    more. *)
Definition pipeOk (framed : list (Z * persistentSendRequest)) (accepted : list persistentSendRequest) (s : Z) (p : pipe) : Prop :=
  exists partial, written p = framesOf s framed ++ partial /\
    (partial = [] \/ (wasReset p = true /\ exists r, r ∈ accepted /\ partial `prefix_of` frameOf (rq_payload r))).

Record StreamInv (pipes : gmap Z pipe) (stream : option Z) (ready : bool) (framed : list (Z * persistentSendRequest))
    (accepted : list persistentSendRequest) : Prop := mkStreamInv {
  si_pipes : forall s p, pipes !! s = Some p -> pipeOk framed accepted s p;
  si_open : forall s p, pipes !! s = Some p -> wasReset p = false -> stream = Some s;
  si_stream : forall s, stream = Some s -> exists p, pipes !! s = Some p /\ wasReset p = false;
  si_ready : ready = bool_decide (is_Some stream);
  si_framed : forall sr, sr ∈ framed -> is_Some (pipes !! sr.1)
}.

Abbreviation streams_ok w := (StreamInv (pipes w) (stream (wr w)) (ready (wr w)) (framed w) (accepted w)).

Lemma pipeOk_more framed accepted accepted' s p : accepted ⊆ accepted' -> pipeOk framed accepted s p -> pipeOk framed accepted' s p.
Proof.
  intros Hs (partial & Hw & Hp). exists partial. split; [done|]. destruct Hp as [|(Hr & r & Hin & Hpre)]; [by left|right].
  split; [done|]. exists r. split; [by apply Hs|done].
Qed.

Lemma StreamInv_more pipes stream ready framed accepted accepted' :
  accepted ⊆ accepted' -> StreamInv pipes stream ready framed accepted -> StreamInv pipes stream ready framed accepted'.
Proof. intros Hs []. split; try done. intros s p Hp. eapply pipeOk_more; [done|by apply si_pipes0]. Qed.

(** A new stream, kept open or reset at once. *)
Lemma StreamInv_fresh pipes ready framed accepted s (b : bool) :
  StreamInv pipes None ready framed accepted -> pipes !! s = None ->
  StreamInv (<[s := mkPipe [] b]> pipes) (if b then None else Some s) (if b then ready else true) framed accepted.
Proof.
  intros [P O S R F] Hs. split.
  - intros s' p [[<- <-]|[_ Hp]]%lookup_insert_Some; [|by apply P].
    exists []. split; [|by left]. rewrite framesOf_none; [done|]. intros sr Hin E. apply F in Hin as [? ?]. congruence.
  - intros s' p [[<- <-]|[_ Hp]]%lookup_insert_Some; cbn; [by intros ->|]. intros Hr. by specialize (O s' p Hp Hr).
  - intros s'. destruct b; [done|]. intros [= <-]. exists (mkPipe [] false). by rewrite lookup_insert_eq.
  - destruct b; [done|]. by rewrite bool_decide_true.
  - intros sr [p Hp]%F. destruct (decide (sr.1 = s)) as [->|]; [by rewrite lookup_insert_eq|].
    by rewrite lookup_insert_ne, Hp.
Qed.

(** The open stream takes bytes of a frame and is reset. *)
Lemma StreamInv_fail pipes ready framed accepted s p data r :
  StreamInv pipes (Some s) ready framed accepted -> pipes !! s = Some p ->
  r ∈ accepted -> data `prefix_of` frameOf (rq_payload r) ->
  StreamInv (<[s := mkPipe (written p ++ data) true]> pipes) None false framed accepted.
Proof.
  intros [P O S R F] Hp Hr Hpre. destruct (S s eq_refl) as (p' & Hp' & Hopen). assert (p' = p) as -> by congruence.
  split.
  - intros s' q [[<- <-]|[_ Hq]]%lookup_insert_Some; [|by apply P].
    destruct (P s p Hp) as (partial & Hw & [->|[Hrs _]]); [|congruence]. exists data. cbn. rewrite Hw, app_nil_r.
    split; [done|]. right. split; [done|]. by exists r.
  - intros s' q [[<- <-]|[Hne Hq]]%lookup_insert_Some; [done|]. intros Hrs. specialize (O s' q Hq Hrs). congruence.
  - done.
  - done.
  - intros sr [q Hq]%F. destruct (decide (sr.1 = s)) as [->|]; [by rewrite lookup_insert_eq|].
    by rewrite lookup_insert_ne, Hq.
Qed.

(** The open stream takes a whole frame. *)
Lemma StreamInv_frame pipes ready framed accepted s p r :
  StreamInv pipes (Some s) ready framed accepted -> pipes !! s = Some p ->
  StreamInv (<[s := mkPipe (written p ++ frameOf (rq_payload r)) (wasReset p)]> pipes) (Some s) ready (framed ++ [(s, r)]) accepted.
Proof.
  intros [P O S R F] Hp. destruct (S s eq_refl) as (p' & Hp' & Hopen). assert (p' = p) as -> by congruence.
  split.
  - intros s' q [[<- <-]|[Hne Hq]]%lookup_insert_Some.
    + destruct (P s p Hp) as (partial & Hw & [->|[Hrs _]]); [|congruence]. exists []. cbn.
      rewrite Hw, framesOf_app, framesOf_one, bool_decide_true, !app_nil_r by done. split; [done|by left].
    + destruct (P s' q Hq) as (partial & Hw & Hor). exists partial. split; [|done].
      by rewrite framesOf_app, framesOf_one, bool_decide_false, app_nil_r.
  - intros s' q [[<- <-]|[Hne Hq]]%lookup_insert_Some; [done|]. intros Hrs. by apply (O s' q).
  - intros s' [= <-]. eexists. by rewrite lookup_insert_eq.
  - done.
  - intros sr [Hin|Hin]%elem_of_app.
    + destruct (F sr Hin) as [q Hq]. destruct (decide (sr.1 = s)) as [->|]; [by rewrite lookup_insert_eq|].
      by rewrite lookup_insert_ne, Hq.
    + apply list_elem_of_singleton in Hin as ->. cbn. by rewrite lookup_insert_eq.
Qed.

Lemma StreamInv_reset pipes ready framed accepted s p :
  StreamInv pipes (Some s) ready framed accepted -> pipes !! s = Some p ->
  StreamInv (<[s := mkPipe (written p) true]> pipes) None false framed accepted.
Proof.
  intros [P O S R F] Hp. split; [| |done|done|].
  - intros s' q [[<- <-]|[_ Hq]]%lookup_insert_Some; [|by apply P].
    destruct (P s p Hp) as (partial & Hw & Hor). exists partial. split; [done|].
    destruct Hor as [|[_ Hr]]; [by left|by right].
  - intros s' q [[<- <-]|[Hne Hq]]%lookup_insert_Some; [done|]. intros Hrs. specialize (O s' q Hq Hrs). congruence.
  - intros sr [q Hq]%F. destruct (decide (sr.1 = s)) as [->|]; [by rewrite lookup_insert_eq|].
    by rewrite lookup_insert_ne, Hq.
Qed.

(** ** The steps on streams *)

Lemma resetStream_streams w : streams_ok w -> streams_ok (resetStream w) /\ stream (wr (resetStream w)) = None.
Proof.
  intros H. split; [|unfold resetStream; by destruct (stream (wr w))].
  unfold resetStream. destruct (stream (wr w)) as [s|] eqn:E.
  - destruct (si_stream _ _ _ _ _ H s eq_refl) as (p & Hp & _). rewrite Hp. by apply (StreamInv_reset _ (ready (wr w))).
  - cbn. destruct H as [P O S R F]. by split.
Qed.

Lemma writeOn_streams env s r w :
  streams_ok w -> stream (wr w) = Some s -> r ∈ accepted w -> rq_payload r <> [] -> streams_ok (writeOn env s r w).
Proof.
  intros H Hs Hr Hne. unfold writeOn. pose proof (resetStream_streams w H) as [Hreset _].
  destruct (ctxErrAgain env) as [e|]; [done|]. destruct (hasDeadline env); [|done].
  destruct (setDeadlineErr env) as [e|]; [done|]. cbn [negb].
  destruct (writeFrameTo (writes env) (rq_payload r)) as [data err] eqn:E.
  apply writeFrameTo_spec in E as [Hpre Hall]; [|done].
  pose proof H as H'. rewrite Hs in H'. destruct (si_stream _ _ _ _ _ H' s eq_refl) as (p & Hp & Hopen). rewrite Hp. cbn [default].
  destruct err as [e|].
  - unfold failOn, resetStream. cbn. rewrite Hs. cbn. rewrite lookup_insert_eq. cbn. rewrite insert_insert_eq.
    by apply (StreamInv_fail _ (ready (wr w)) _ _ _ _ _ r).
  - rewrite (Hall eq_refl). apply (StreamInv_frame _ _ _ _ s p r) in H'; [|done].
    assert (streams_ok (note_frame s r (set_pipe s (mkPipe (written p ++ frameOf (rq_payload r)) (wasReset p)) w))) as Hok
      by (cbn; by rewrite Hs).
    destruct (stopped _); [|done]. by apply resetStream_streams.
Qed.

Lemma writeRequest_streams env r w :
  streams_ok w -> r ∈ accepted w -> rq_payload r <> [] -> freshStream (openAnswer env) w = true ->
  streams_ok (writeRequest env r w).
Proof.
  intros H Hr Hne Hf. unfold writeRequest. destruct (ctxErr env) as [e|]; [done|].
  destruct (stream (wr w)) as [s|] eqn:Hs; [by apply writeOn_streams; rewrite ?Hs|].
  destruct (openAnswer env) as [e|[s|]]; [by cbn; rewrite Hs| |by cbn; rewrite Hs].
  apply writeOn_streams; [|done..]. cbn in Hf. apply bool_decide_eq_true_1 in Hf.
  by apply (StreamInv_fresh _ (ready (wr w)) _ _ s false).
Qed.

Lemma openPrewarmedStream_streams env id w :
  streams_ok w -> freshStream (pre_open env) w = true -> streams_ok (openPrewarmedStream env id w).
Proof.
  intros H Hf. unfold openPrewarmedStream. destruct (pre_ctxErr env) as [e|]; [done|].
  destruct (stream (wr w)) as [s|] eqn:Hs; [by cbn; rewrite Hs|].
  destruct (pre_open env) as [e|[s|]]; [by cbn; rewrite Hs| |by cbn; rewrite Hs].
  cbn in Hf. apply bool_decide_eq_true_1 in Hf.
  pose proof (fun b => StreamInv_fresh _ (ready (wr w)) _ _ s b H Hf) as Hn.
  destruct (stopped w); [cbn; rewrite Hs; by apply (Hn true)|].
  destruct (completePersistentProtocolNegotiation _); [cbn; rewrite Hs; by apply (Hn true)|by apply (Hn false)].
Qed.

(** ** Requests *)

(** [hand] is what the writer took from the queue and has not completed. *)
Record QueueInv (hand accepted queue : list persistentSendRequest) (results : gmap Z completion)
    (senders : gmap Z senderState) (framed : list (Z * persistentSendRequest)) : Prop := mkQueueInv {
  qi_order : exists gone, accepted = gone ++ hand ++ queue /\ framed.*2 `sublist_of` gone /\
    forall r, r ∈ gone -> is_Some (results !! rq_id r);
  qi_open : forall r, r ∈ hand ++ queue -> results !! rq_id r = None;
  qi_ids : NoDup (map rq_id accepted);
  qi_sent : forall r, r ∈ accepted ->
    rq_payload r <> [] /\ (senders !! rq_id r = Some Waiting \/ exists c, senders !! rq_id r = Some (Returned c));
  qi_waits : forall id, senders !! id = Some Waiting -> id ∈ map rq_id accepted;
  qi_offers : forall id payload, senders !! id = Some (Offering payload) -> payload <> [];
  qi_results : forall id c, results !! id = Some c -> id ∈ map rq_id accepted;
  qi_success : forall id, results !! id = Some None -> exists s r, (s, r) ∈ framed /\ rq_id r = id;
  qi_returned : forall id, senders !! id = Some (Returned None) -> results !! id = Some None
}.

Abbreviation requests_ok hand w := (QueueInv hand (accepted w) (queue (wr w)) (results w) (senders w) (framed w)).

(** A sender that is not waiting was never in the queue. *)
Lemma QueueInv_new hand accepted queue results senders framed id :
  QueueInv hand accepted queue results senders framed ->
  (senders !! id = None \/ exists payload, senders !! id = Some (Offering payload)) -> id ∉ map rq_id accepted.
Proof.
  intros H Hs (r & -> & Hr)%list_elem_of_fmap. apply (qi_sent _ _ _ _ _ _ H) in Hr as [_ [Hr|[c Hr]]];
    destruct Hs as [Hs|[p Hs]]; congruence.
Qed.

(** A sender is known for the first time, or returns. *)
Lemma QueueInv_sender hand accepted queue results senders framed id x :
  QueueInv hand accepted queue results senders framed ->
  match x with
  | Offering payload => payload <> [] /\ senders !! id = None
  | Waiting => False
  | Returned (Some _) => True
  | Returned None => results !! id = Some None
  end ->
  QueueInv hand accepted queue results (<[id := x]> senders) framed.
Proof.
  intros H Hx. pose proof H as [O C I S W Of R Su Re]. split; try done.
  - intros r Hr. destruct (S r Hr) as [Hne Hs]. split; [done|].
    destruct (decide (rq_id r = id)) as [<-|]; [|by rewrite lookup_insert_ne].
    rewrite lookup_insert_eq. destruct x as [payload| |c]; [|done|by eauto].
    destruct Hx as [_ Hx]. destruct Hs as [Hs|[c Hs]]; congruence.
  - intros id' [[<- ->]|[_ Hs]]%lookup_insert_Some; [done|by apply W].
  - intros id' payload [[<- ->]|[_ Hs]]%lookup_insert_Some; [by destruct Hx|by apply (Of id')].
  - intros id' [[<- ->]|[_ Hs]]%lookup_insert_Some; [done|by apply Re].
Qed.

Lemma QueueInv_accept accepted queue results senders framed id payload :
  QueueInv [] accepted queue results senders framed -> senders !! id = Some (Offering payload) ->
  QueueInv [] (accepted ++ [mkRequest id payload]) (queue ++ [mkRequest id payload]) results (<[id := Waiting]> senders) framed.
Proof.
  intros H Hs. assert (id ∉ map rq_id accepted) as Hnew by (eapply QueueInv_new; eauto).
  pose proof H as [(gone & E & F & G) C I S W Of R Su Re]. split; try done.
  - exists gone. split; [|done]. by rewrite E, !app_nil_l, app_assoc.
  - intros r. cbn [app]. intros [Hr|Hr%list_elem_of_singleton]%elem_of_app; [by apply C|subst r]. cbn.
    apply eq_None_not_Some. intros [c Hc]. by apply R in Hc.
  - rewrite map_app. apply NoDup_app. split; [done|]. split; [|apply NoDup_singleton].
    intros id' Hin ->%list_elem_of_singleton. done.
  - intros r [Hr|Hr%list_elem_of_singleton]%elem_of_app.
    + destruct (S r Hr) as [Hne Hr']. split; [done|]. destruct (decide (rq_id r = id)) as [<-|]; [|by rewrite lookup_insert_ne].
      left. apply lookup_insert_eq.
    + subst r. cbn. split; [by apply (Of id)|]. left. apply lookup_insert_eq.
  - intros id'. rewrite map_app, elem_of_app. intros [[<- _]|[_ Hw]]%lookup_insert_Some; [right; by left|left; by apply W].
  - intros id' p [[<- ?]|[_ Ho]]%lookup_insert_Some; [done|by apply (Of id')].
  - intros id' c Hc%R. rewrite map_app, elem_of_app. by left.
  - intros id' [[<- ?]|[_ Hr]]%lookup_insert_Some; [done|by apply Re].
Qed.

(** The writer completes the request in its hand, framed or not. *)
Lemma QueueInv_complete accepted queue results senders framed more r c :
  QueueInv [r] accepted queue results senders framed ->
  (more = [] /\ c <> None) \/ (exists s, more = [(s, r)]) ->
  QueueInv [] accepted queue (<[rq_id r := c]> results) senders (framed ++ more).
Proof.
  intros [(gone & E & F & G) C I S W Of R Su Re] Hm.
  assert (forall r', r' ∈ gone ++ queue -> rq_id r' <> rq_id r) as Hother.
  { intros r' Hin Heq. rewrite E, !map_app in I. apply NoDup_app in I as (_ & I1 & I2). cbn in I2.
    apply NoDup_cons in I2 as [I2 _]. apply elem_of_app in Hin as [Hin|Hin]; apply (list_elem_of_fmap_2 rq_id) in Hin.
    - apply (I1 _ Hin). rewrite Heq. by left.
    - rewrite Heq in Hin. done. }
  split; try done.
  - exists (gone ++ [r]). split; [by rewrite <- app_assoc|]. split.
    + rewrite fmap_app. destruct Hm as [[-> _]|[s ->]]; cbn; [rewrite app_nil_r; by apply sublist_inserts_r|].
      by apply sublist_app.
    + intros r' [Hr|Hr%list_elem_of_singleton]%elem_of_app; [|subst r'; rewrite lookup_insert_eq; by eexists].
      rewrite lookup_insert_ne; [by apply G|]. intros Heq. apply (Hother r'); [|done]. apply elem_of_app. by left.
  - intros r' Hr. rewrite lookup_insert_ne; [apply C; by right|]. intros Heq. apply (Hother r'); [|done].
    apply elem_of_app. by right.
  - intros id c' [[<- _]|[_ Hc]]%lookup_insert_Some; [|by apply (R id c')].
    apply list_elem_of_fmap_2. rewrite E, elem_of_app. right. by left.
  - intros id [[<- ->]|[_ Hc]]%lookup_insert_Some.
    + destruct Hm as [[_ ?]|[s ->]]; [done|]. exists s, r. rewrite elem_of_app. split; [right; by left|done].
    + apply Su in Hc as (s & r' & Hin & <-). exists s, r'. rewrite elem_of_app. split; [by left|done].
  - intros id Hs%Re. destruct (decide (id = rq_id r)) as [->|]; [|by rewrite lookup_insert_ne].
    rewrite C in Hs; [done|by left].
Qed.

Lemma QueueInv_take accepted r queue results senders framed :
  QueueInv [] accepted (r :: queue) results senders framed -> QueueInv [r] accepted queue results senders framed.
Proof. intros []. by split. Qed.

(** What a send leaves alone. *)
Definition around (w : world) := (at_phase (wr w), queue (wr w), prewarm (wr w), stopped w, senders w, accepted w).

Lemma around_fields w w' : around w' = around w ->
  at_phase (wr w') = at_phase (wr w) /\ queue (wr w') = queue (wr w) /\ prewarm (wr w') = prewarm (wr w) /\
  stopped w' = stopped w /\ senders w' = senders w /\ accepted w' = accepted w.
Proof. by intros [= ]. Qed.

Definition completes (r : persistentSendRequest) (w w' : world) : Prop :=
  around w' = around w /\
  exists c more, results w' = <[rq_id r := c]> (results w) /\ framed w' = framed w ++ more /\
    ((more = [] /\ c <> None) \/ exists s, more = [(s, r)]).

Lemma around_resetStream w :
  around (resetStream w) = around w /\ results (resetStream w) = results w /\ framed (resetStream w) = framed w.
Proof. unfold resetStream. by destruct (stream (wr w)). Qed.

#[local] Arguments resetStream : simpl never.

Lemma failOn_completes r e w w' s more :
  around w' = around w -> results w' = results w -> framed w' = framed w ++ more -> more = [] \/ more = [(s, r)] ->
  completes r w (failOn (rq_id r) e w').
Proof.
  intros Ha Hr Hf Hm. destruct (around_resetStream w') as (Ha' & Hr' & Hf').
  split; [by rewrite <- Ha, <- Ha'|]. exists (Some e), more. unfold failOn. cbn. rewrite Hr', Hr, Hf', Hf.
  split_and!; [done|done|]. destruct Hm as [-> | ->]; [by left|right; by exists s].
Qed.

Lemma completes_error r e w w' :
  around w' = around w -> results w' = results w -> framed w' = framed w -> completes r w (complete (rq_id r) (Some e) w').
Proof.
  intros Ha Hr Hf. split; [done|]. exists (Some e), []. cbn. rewrite app_nil_r, Hr, Hf. split_and!; [done..|by left].
Qed.

Lemma writeOn_completes env s r w w' :
  around w' = around w -> results w' = results w -> framed w' = framed w -> completes r w (writeOn env s r w').
Proof.
  intros Ha Hr Hf. assert (forall e, completes r w (failOn (rq_id r) e w')) as Hfail.
  { intros e. apply (failOn_completes _ _ _ _ s []); [done..|by rewrite app_nil_r|by left]. }
  unfold writeOn. destruct (ctxErrAgain env); [done|]. destruct (hasDeadline env); [|apply Hfail].
  destruct (setDeadlineErr env); [apply Hfail|]. cbn [negb].
  destruct (writeFrameTo (writes env) (rq_payload r)) as [data err].
  destruct err as [e|]; [apply (failOn_completes _ _ _ _ s []); [done..|by cbn; rewrite app_nil_r|by left]|].
  cbn. destruct (stopped w').
  - apply (failOn_completes _ _ _ _ s [(s, r)]); [done..|by cbn; rewrite Hf|by right].
  - split; [done|]. exists None, [(s, r)]. cbn. rewrite Hr, Hf. split_and!; [done..|right; by exists s].
Qed.

Lemma writeRequest_completes env r w : completes r w (writeRequest env r w).
Proof.
  unfold writeRequest. destruct (ctxErr env) as [e|]; [by apply completes_error|].
  destruct (stream (wr w)) as [s|]; [by apply writeOn_completes|].
  destruct (openAnswer env) as [e|[s|]]; [by apply completes_error|by apply writeOn_completes|by apply completes_error].
Qed.

(** ** The invariant *)

Record WriterInv (w : world) : Prop := mkWriterInv {
  wi_streams : streams_ok w;
  wi_requests : requests_ok [] w;
  wi_queue : zlen (queue (wr w)) <= 1;
  wi_prewarm : zlen (prewarm (wr w)) <= 1;
  wi_left : at_phase (wr w) <> Looping -> stopped w = true /\ stream (wr w) = None
}.

Lemma WriterInv_start : WriterInv newPeerStreamWriter.
Proof.
  split; cbn; try done; [split; try done; intros sr Hin; by apply not_elem_of_nil in Hin|].
  split; cbn; try done.
  - exists []. split_and!; [done..|]. intros r Hin. by apply not_elem_of_nil in Hin.
  - apply NoDup_nil_2.
  - intros r Hin. by apply not_elem_of_nil in Hin.
Qed.

Lemma completes_requests r w w' : completes r w w' -> requests_ok [r] w -> requests_ok [] w'.
Proof.
  intros (Ha & c & more & Hr & Hf & Hm) H. apply around_fields in Ha as (_ & Hq & _ & _ & Hs & Hacc).
  rewrite Hacc, Hq, Hs, Hr, Hf. by apply QueueInv_complete.
Qed.

(** A request leaves the queue and is completed. *)
Lemma completes_keeps r rest w w' :
  WriterInv w -> queue (wr w) = r :: rest -> completes r (set_queue rest w) w' -> streams_ok w' ->
  (at_phase (wr w) <> Looping -> stream (wr w') = None) -> WriterInv w'.
Proof.
  intros [St Re Qu Pr Le] Hq Hc Hst Hsn. pose proof Hc as [Ha _]. apply around_fields in Ha as (Hph & Hq' & Hpr & Hstop & _).
  cbn in Hph, Hq', Hpr, Hstop. split; [done| | | |].
  - apply (completes_requests r (set_queue rest w)); [done|]. apply QueueInv_take. cbn. by rewrite <- Hq.
  - rewrite Hq'. rewrite Hq in Qu. cbn in Qu. lia.
  - by rewrite Hpr.
  - rewrite Hph, Hstop. intros Hl. split; [by apply Le|by apply Hsn].
Qed.

Lemma set_stopped_inv b w : WriterInv w -> (stopped w = true -> b = true) -> WriterInv (set_stopped b w).
Proof. intros [St Re Qu Pr Le] Hb. split; try done. cbn. intros Hl. destruct (Le Hl) as [Hst Hsn]. by rewrite Hb. Qed.

Lemma stopStream_inv w : WriterInv w -> stopped w = true -> WriterInv (stopStream w).
Proof.
  intros [St Re Qu Pr Le] Hs. unfold stopStream. destruct (resetStream_streams w St) as [Hst Hn].
  destruct (around_resetStream w) as (Ha & Hr & Hf). apply around_fields in Ha as (Hph & Hq & Hp & Hsp & Hse & Hac).
  split; cbn; [done| | | |].
  - by rewrite Hq, Hr, Hf, Hse, Hac.
  - by rewrite Hq.
  - by rewrite Hp.
  - intros _. by rewrite Hsp, Hn.
Qed.

Lemma looping_spec w : looping w = true -> at_phase (wr w) = Looping.
Proof. apply bool_decide_eq_true_1. Qed.

Lemma queue_inv_head w r rest : WriterInv w -> queue (wr w) = r :: rest -> r ∈ accepted w /\ rq_payload r <> [].
Proof.
  intros H Hq. assert (r ∈ accepted w) as Hr.
  { destruct (qi_order _ _ _ _ _ _ (wi_requests _ H)) as (gone & -> & _). rewrite Hq, !elem_of_app. right; right. by left. }
  split; [done|]. by apply (qi_sent _ _ _ _ _ _ (wi_requests _ H)).
Qed.

Lemma runRequest_inv env w w' : WriterInv w -> at_phase (wr w) = Looping -> runRequest env w = Some w' -> WriterInv w'.
Proof.
  intros H Hl. unfold runRequest. destruct (queue (wr w)) as [|r rest] eqn:Hq; [done|].
  destruct (queue_inv_head w r rest H Hq) as [Hr Hne]. cbn [stopped set_queue set_wr].
  destruct (stopped w) eqn:Hs.
  - intros [= <-]. apply stopStream_inv; [|done]. apply (completes_keeps r rest w); [done..| | |done].
    + by apply completes_error.
    + apply H.
  - destruct (freshStream _ _) eqn:Hf; [|done]. intros [= <-].
    apply (completes_keeps r rest (set_stopped (stopSeen env) w)); [by apply set_stopped_inv; rewrite ?Hs|done| | |done].
    + apply (writeRequest_completes env r (set_queue rest (set_stopped (stopSeen env) w))).
    + apply writeRequest_streams; [apply H|done..].
Qed.

(** A prewarm is taken from its channel, and nothing happens to requests. *)
Lemma prewarm_keeps id rest w w' :
  WriterInv w -> prewarm (wr w) = id :: rest -> around w' = around (set_prewarm rest w) ->
  results w' = results w -> framed w' = framed w -> streams_ok w' ->
  (at_phase (wr w) <> Looping -> stream (wr w') = None) -> WriterInv w'.
Proof.
  intros [St Re Qu Pr Le] Hp Ha Hr Hf Hst Hsn. apply around_fields in Ha as (Hph & Hq & Hpr & Hsp & Hse & Hac).
  cbn in Hph, Hq, Hpr, Hsp, Hse, Hac. split; [done| | | |].
  - by rewrite Hac, Hq, Hr, Hse, Hf.
  - by rewrite Hq.
  - rewrite Hpr. rewrite Hp in Pr. cbn in Pr. lia.
  - rewrite Hph, Hsp. intros Hl. split; [by apply Le|by apply Hsn].
Qed.

Lemma openPrewarmedStream_around env id w :
  around (openPrewarmedStream env id w) = around w /\ results (openPrewarmedStream env id w) = results w /\
  framed (openPrewarmedStream env id w) = framed w.
Proof.
  unfold openPrewarmedStream. destruct (pre_ctxErr env); [done|]. destruct (stream (wr w)); [done|].
  destruct (pre_open env) as [|[|]]; [done| |done]. destruct (stopped w) eqn:Hs; [done|].
  by destruct (completePersistentProtocolNegotiation _).
Qed.

Lemma runPrewarm_inv env w w' : WriterInv w -> at_phase (wr w) = Looping -> runPrewarm env w = Some w' -> WriterInv w'.
Proof.
  intros H Hl. unfold runPrewarm. destruct (prewarm (wr w)) as [|id rest] eqn:Hp; [done|].
  cbn [stopped set_prewarm set_wr]. destruct (stopped w) eqn:Hs.
  - intros [= <-]. apply stopStream_inv; [|done]. apply (prewarm_keeps id rest w); try done. apply H.
  - destruct (freshStream _ _) eqn:Hf; [|done]. intros [= <-].
    set (w1 := set_stopped (pre_stopSeen env) (set_prewarm rest w)).
    destruct (openPrewarmedStream_around env id w1) as (Ha & Hr & Hfr).
    apply (prewarm_keeps id rest (set_stopped (pre_stopSeen env) w)); try done.
    + by apply set_stopped_inv; rewrite ?Hs.
    + by apply openPrewarmedStream_streams; [apply H|].
Qed.

Lemma failQueued_inv w w' : WriterInv w -> failQueued w = Some w' -> WriterInv w'.
Proof.
  intros H. unfold failQueued. destruct (at_phase (wr w)) eqn:Hph; [done| | |done].
  - destruct (queue (wr w)) as [|r rest] eqn:Hq; intros [= <-].
    + destruct H as [St Re Qu Pr Le]. split; try done. cbn. intros _. apply Le. by rewrite Hph.
    + apply (completes_keeps r rest w); [done..|by apply completes_error|apply H|].
      intros _. cbn. apply (wi_left _ H). by rewrite Hph.
  - destruct (prewarm (wr w)) as [|id rest] eqn:Hp; [|].
    + assert (WriterInv (set_phase Done w)) as Hd.
      { destruct H as [St Re Qu Pr Le]. split; try done. cbn. intros _. apply Le. by rewrite Hph. }
      destruct (queue (wr w)); by intros [= <-].
    + assert (WriterInv (completePrewarm id (Some errPersistentWriterClosed) (set_prewarm rest w))) as Hd.
      { apply (prewarm_keeps id rest w); try done; [apply H|]. intros _. cbn. apply (wi_left _ H). by rewrite Hph. }
      destruct (queue (wr w)); by intros [= <-].
Qed.

(** A step that touches only what senders hold. *)
Lemma sender_inv id x w :
  WriterInv w ->
  match x with
  | Offering payload => payload <> [] /\ senders w !! id = None
  | Waiting => False
  | Returned (Some _) => True
  | Returned None => results w !! id = Some None
  end -> WriterInv (set_sender id x w).
Proof. intros [St Re Qu Pr Le] Hx. split; try done. by apply QueueInv_sender. Qed.

Lemma abandon_inv id e w w' : WriterInv w -> abandon id e w = Some w' -> WriterInv w'.
Proof.
  intros H. unfold abandon. destruct (senders w !! id) as [[| |]|]; try done; intros [= <-]; by apply sender_inv.
Qed.

Lemma enqueue_inv id w w' : WriterInv w -> enqueue id w = Some w' -> WriterInv w'.
Proof.
  intros [St Re Qu Pr Le]. unfold enqueue. destruct (senders w !! id) as [[payload| |]|] eqn:Hs; try done.
  destruct (Z.ltb_spec (zlen (queue (wr w))) persistentQueueCapacity) as [Hlt|]; [|done].
  intros [= <-]. split; try done; cbn.
  - eapply StreamInv_more; [|done]. intros r Hr. apply elem_of_app. by left.
  - by apply QueueInv_accept.
  - rewrite length_app. cbn. unfold persistentQueueCapacity in Hlt. lia.
Qed.

Lemma wstep_inv e w w' : WriterInv w -> wstep e w = Some w' -> WriterInv w'.
Proof.
  intros H. destruct e as [id payload|id|id e|id|id|id| | |env|env|]; cbn [wstep].
  - unfold offer. destruct (senders w !! id) eqn:Hs; [done|]. intros [= <-]. apply sender_inv; [done|].
    by case_bool_decide.
  - by apply enqueue_inv.
  - by apply abandon_inv.
  - destruct (stopped w); [by apply abandon_inv|done].
  - unfold takeResult. destruct (senders w !! id) as [[| |]|]; try done. destruct (results w !! id) as [c|] eqn:Hr; [|done].
    intros [= <-]. apply sender_inv; [done|]. by destruct c.
  - destruct (Z.ltb_spec (zlen (prewarm (wr w))) 1) as [Hlt|]; [|done]. intros [= <-].
    destruct H as [St Re Qu Pr Le]. split; try done. cbn. rewrite length_app. cbn. lia.
  - intros [= <-]. by apply set_stopped_inv.
  - destruct (looping w); [|done]. destruct (stopped w) eqn:Hs; [|done]. intros [= <-]. by apply stopStream_inv.
  - destruct (looping w) eqn:Hl; [|done]. apply runRequest_inv; [done|by apply looping_spec].
  - destruct (looping w) eqn:Hl; [|done]. apply runPrewarm_inv; [done|by apply looping_spec].
  - by apply failQueued_inv.
Qed.

Lemma reachable_inv w : wreachable w -> WriterInv w.
Proof. induction 1; [apply WriterInv_start|by eapply wstep_inv]. Qed.

Lemma wrun_reachable es w w' : wreachable w -> wrun es w = Some w' -> wreachable w'.
Proof.
  revert w. induction es as [|e es IH]; intros w H; cbn; [by intros [= <-]|].
  destruct (wstep e w) as [w1|] eqn:E; [|done]. cbn. apply IH. by eapply wreach_step.
Qed.

(** ** Reading a stream *)

(** The payloads a reader of the stream gets before it stops. *)
Fixpoint framesIn (fuel : nat) (max : Z) (reader : bytes) : list bytes :=
  match fuel with
  | O => []
  | S fuel' =>
      match readEnvelopeFrame max reader with
      | inl _ => []
      | inr (payload, rest) => payload :: framesIn fuel' max rest
      end
  end.

Lemma PutUvarint_prefix n v x s q :
  q `prefix_of` PutUvarint n v -> q <> PutUvarint n v -> exists e, ReadUvarint n x s q = inl e.
Proof.
  revert v x s q. induction n as [|n IH]; intros v x s q Hp Hne; cbn [PutUvarint] in *.
  - by apply prefix_nil_inv in Hp.
  - destruct q as [|b q]; [cbn [ReadUvarint]; destruct (Nat.eqb _ _); by eexists|].
    destruct (Z.ltb_spec v 128) as [Hlt|Hge].
    + pose proof (prefix_cons_inv_1 _ _ _ _ Hp) as ->. apply prefix_cons_inv_2, prefix_nil_inv in Hp as ->. done.
    + pose proof (prefix_cons_inv_1 _ _ _ _ Hp) as ->. apply prefix_cons_inv_2 in Hp. cbn [ReadUvarint].
      assert (Z.lor (Z.land v 127) 128 <? 128 = false) as ->.
      { apply Z.ltb_ge. change 127 with (Z.ones 7). rewrite Z.land_ones by lia. change (Z.lor _ 128) with (Z.lor (v mod 128) (Z.shiftl 1 7)).
        pose proof (Z.mod_pos_bound v 128 eq_refl). rewrite lor_shiftl by lia. lia. }
      apply IH with (v := Z.shiftr v 7); [done|]. intros ->. done.
Qed.

Lemma frame_partial max payload q :
  zlen payload <= max < 2 ^ 63 -> q `prefix_of` frameOf payload -> q <> frameOf payload ->
  exists e, readEnvelopeFrame max q = inl e.
Proof.
  intros Hmax Hp Hne. unfold readEnvelopeFrame. destruct (max <? 1); [by eexists|]. unfold frameOf in *.
  set (pre := PutUvarint _ _) in *.
  destruct (decide (length q < length pre)%nat) as [Hlt|Hge].
  - assert (q `prefix_of` pre) as Hq.
    { destruct (prefix_weak_total q pre (pre ++ payload)) as [Hq|Hq]; [done|by exists payload|done|].
      apply prefix_length in Hq. lia. }
    destruct (PutUvarint_prefix _ _ 0 0 q Hq) as [e ->]; [|by eexists]. intros ->. unfold pre in Hlt. lia.
  - destruct Hp as [k Hk]. assert (exists q', q = pre ++ q' /\ payload = q' ++ k) as (q' & -> & Hpay).
    { exists (drop (length pre) q). apply app_eq_inv in Hk as [(m & H1 & H2)|(m & H1 & H2)].
      - assert (m = []) as -> by (apply length_zero_iff_nil; apply (f_equal length) in H1; rewrite length_app in H1; lia).
        rewrite app_nil_r in H1. subst q. rewrite drop_all, app_nil_r. split; [done|by rewrite H2].
      - subst q. rewrite drop_app_length. done. }
    assert (length q' < length payload)%nat as Hl.
    { rewrite Hpay, length_app. destruct k; [|cbn; lia]. rewrite app_nil_r in Hpay. by subst. }
    unfold pre. rewrite (u64_small (zlen payload)), (u64_small max) by lia.
    rewrite (PutUvarint_read 10) by (cbn; lia). change (0 + zlen payload * 2 ^ 0) with (zlen payload * 1). rewrite Z.mul_1_r.
    destruct (zlen payload =? 0); [by eexists|]. destruct (max <? zlen payload); [by eexists|].
    replace (zlen q' <? zlen payload) with true by lia. by eexists.
Qed.

Lemma framesIn_partial fuel max payload q :
  payload <> [] -> zlen payload <= max < 2 ^ 63 -> q `prefix_of` frameOf payload ->
  framesIn fuel max q = [] \/ framesIn fuel max q = [payload].
Proof.
  intros Hne Hmax Hp. destruct fuel as [|fuel]; [by left|]. cbn.
  destruct (decide (q = frameOf payload)) as [->|Hq].
  - right. rewrite <- (app_nil_r (frameOf payload)), (frame_read max payload); [| done |].
    + destruct fuel; [done|]. cbn. unfold readEnvelopeFrame. by destruct (max <? 1).
    + unfold writeEnvelopeFrame. destruct (Z.eqb_spec (zlen payload) 0) as [E|]; [|done]. by destruct payload.
  - left. by destruct (frame_partial max payload q Hmax Hp Hq) as [e ->].
Qed.

Lemma framesIn_frames max ps fuel rest :
  (forall p, p ∈ ps -> p <> [] /\ zlen p <= max) -> max < 2 ^ 63 -> (length ps <= fuel)%nat ->
  framesIn fuel max (concat (map frameOf ps) ++ rest) = ps ++ framesIn (fuel - length ps) max rest.
Proof.
  intros Hps Hmax. revert fuel. induction ps as [|p ps IH]; intros fuel Hf; cbn [map concat length app].
  - by rewrite Nat.sub_0_r.
  - destruct fuel as [|fuel]; [cbn in Hf; lia|]. cbn [framesIn Nat.sub length]. rewrite <- app_assoc.
    destruct (Hps p) as [Hne Hp]; [by left|]. rewrite (frame_read max p); [|done|].
    + rewrite IH; [done| |cbn in Hf; lia]. intros p' Hin. apply Hps. by right.
    + unfold writeEnvelopeFrame. destruct (Z.eqb_spec (zlen p) 0) as [E|]; [|done]. by destruct p.
Qed.

(** ** The two ends of a stream *)

(** The payloads written in full on a stream. *)
Definition sentOn (s : Z) (framed : list (Z * persistentSendRequest)) : list bytes :=
  map (fun sr => rq_payload sr.2) (filter (fun sr => sr.1 = s) framed).

Lemma framesOf_sentOn s framed : framesOf s framed = concat (map frameOf (sentOn s framed)).
Proof. unfold framesOf, sentOn. by rewrite map_map. Qed.

Lemma sentOn_from s framed p : p ∈ sentOn s framed -> exists r, r ∈ framed.*2 /\ p = rq_payload r.
Proof.
  intros ((s' & r) & -> & Hin)%list_elem_of_fmap. apply list_elem_of_filter in Hin as [_ Hin].
  exists r. split; [|done]. by apply (list_elem_of_fmap_2 snd) in Hin.
Qed.

Lemma frameOf_nonempty payload : (1 <= length (frameOf payload))%nat.
Proof. unfold frameOf. rewrite length_app. pose proof (PutUvarint_nonempty MaxVarintLen64 (u64 (zlen payload))). unfold MaxVarintLen64 in *. lia. Qed.

Lemma frames_longer ps : (length ps <= length (concat (map frameOf ps)))%nat.
Proof.
  induction ps as [|p ps IH]; [done|]. cbn [map concat length]. rewrite length_app.
  pose proof (frameOf_nonempty p). lia.
Qed.

Lemma framed_accepted w : WriterInv w -> (framed w).*2 `sublist_of` accepted w.
Proof.
  intros H. destruct (qi_order _ _ _ _ _ _ (wi_requests _ H)) as (gone & -> & Hf & _).
  by apply sublist_inserts_r.
Qed.

Lemma pipe_read w max s p :
  WriterInv w -> (forall r, r ∈ accepted w -> zlen (rq_payload r) <= max) -> max < 2 ^ 63 ->
  pipes w !! s = Some p ->
  exists extra, framesIn (S (length (written p))) max (written p) = sentOn s (framed w) ++ extra /\
    (extra = [] \/ (wasReset p = true /\ exists r, r ∈ accepted w /\ extra = [rq_payload r])).
Proof.
  intros H Hsize Hmax Hp. destruct (si_pipes _ _ _ _ _ (wi_streams _ H) s p Hp) as (partial & Hw & Hor).
  assert (forall r, r ∈ accepted w -> rq_payload r <> [] /\ zlen (rq_payload r) <= max) as Hall.
  { intros r Hr. split; [by apply (qi_sent _ _ _ _ _ _ (wi_requests _ H))|by apply Hsize]. }
  assert (forall q, q ∈ sentOn s (framed w) -> q <> [] /\ zlen q <= max) as Hsent.
  { intros q (r & Hr & ->)%sentOn_from. apply Hall. by apply (elem_of_sublist _ _ _ Hr), framed_accepted. }
  rewrite Hw, framesOf_sentOn. rewrite framesIn_frames; [|done|done|].
  2: { rewrite length_app. pose proof (frames_longer (sentOn s (framed w))). lia. }
  eexists. split; [done|]. destruct Hor as [->|(Hr & r & Hin & Hpre)].
  - left. destruct (_ - _)%nat; [done|]. cbn. unfold readEnvelopeFrame. by destruct (max <? 1).
  - destruct (Hall r Hin) as [Hne Hle].
    destruct (framesIn_partial (S (length (concat (map frameOf (sentOn s (framed w))) ++ partial)) - length (sentOn s (framed w)))
      max (rq_payload r) partial) as [->| ->]; [done|done|done|by left|]. right. split; [done|]. by exists r.
Qed.

(** C8. A persistent stream carries what was sent, in order. In every reachable
    state of a writer and its senders, whoever reads a stream from its start
    gets the payloads written on it in full, whole and in order, and after them
    nothing, unless the writer reset the stream, when one more accepted payload
    can arrive. The writer takes the requests in the order the queue accepted
    them and frames each at most once, and a [send] returns without an error
    only for a request that was framed. *)
Theorem writer_delivers w max :
  wreachable w -> (forall r, r ∈ accepted w -> zlen (rq_payload r) <= max) -> max < 2 ^ 63 ->
  (forall s p, pipes w !! s = Some p ->
     exists extra, framesIn (S (length (written p))) max (written p) = sentOn s (framed w) ++ extra /\
       (extra = [] \/ (wasReset p = true /\ exists r, r ∈ accepted w /\ extra = [rq_payload r]))) /\
  (framed w).*2 `sublist_of` accepted w /\ NoDup (map rq_id (accepted w)) /\
  (forall id, senders w !! id = Some (Returned None) -> exists s r, (s, r) ∈ framed w /\ rq_id r = id).
Proof.
  intros H%reachable_inv Hsize Hmax. split_and!.
  - intros s p. by apply pipe_read.
  - by apply framed_accepted.
  - apply (qi_ids _ _ _ _ _ _ (wi_requests _ H)).
  - intros id Hid. apply (qi_success _ _ _ _ _ _ (wi_requests _ H)).
    by apply (qi_returned _ _ _ _ _ _ (wi_requests _ H)).
Qed.

(** ** Shutdown *)

Lemma drain_all w :
  at_phase (wr w) = DrainingQueue -> zlen (queue (wr w)) <= 1 -> zlen (prewarm (wr w)) <= 1 ->
  exists n w', (n <= 4)%nat /\ wrun (replicate n RunDrain) w = Some w' /\ at_phase (wr w') = Done /\
    pipes w' = pipes w /\ framed w' = framed w /\
    results w' = match queue (wr w) with
                 | [] => results w
                 | r :: _ => <[rq_id r := Some errPersistentWriterClosed]> (results w)
                 end.
Proof.
  destruct w as [[ph q pr st rd] sp pi se re pd ac fr]. cbn [wr at_phase queue prewarm]. intros -> Hq Hp.
  assert (q = [] \/ exists r, q = [r]) as [->|[r ->]] by (destruct q as [|r [|]]; cbn in Hq; [by left|right; by exists r|lia]);
  assert (pr = [] \/ exists id, pr = [id]) as [->|[id ->]] by (destruct pr as [|id [|]]; cbn in Hp; [by left|right; by exists id|lia]).
  - exists 2%nat. eexists. split_and!; [lia|done..].
  - exists 3%nat. eexists. split_and!; [lia|done..].
  - exists 3%nat. eexists. split_and!; [lia|done..].
  - exists 4%nat. eexists. split_and!; [lia|done..].
Qed.

(** Once the writer returned, streams stay as they are. *)
Lemma done_quiet es w w' :
  at_phase (wr w) = Done -> wrun es w = Some w' -> at_phase (wr w') = Done /\ pipes w' = pipes w.
Proof.
  revert w. induction es as [|e es IH]; intros w Hd; cbn [wrun]; [by intros [= <-]|].
  destruct (wstep e w) as [w1|] eqn:E; [|done]. intros Hrun.
  assert (at_phase (wr w1) = Done /\ pipes w1 = pipes w) as [Hd1 <-]; [|by apply IH].
  assert (looping w = false) as Hl by (unfold looping; by rewrite Hd).
  destruct e as [id payload|id|id e|id|id|id| | |env|env|]; cbn [wstep] in E; rewrite ?Hl in E; try done;
    unfold offer, enqueue, abandon, takeResult, failQueued in E; rewrite ?Hd in E; try done; revert E;
    repeat case_match; by intros [= <-].
Qed.


(** ** A run *)

Module WriterDemo.

(** Two sends that reach stream 7, a third that fails half-way, and a fourth
    that waits in the queue when the stop channel is closed. *)
Definition env (opens : openResult) (answers : nat -> writeAnswer) : writeEnv :=
  mkWriteEnv None opens None true None answers false.
Definition steady (opens : openResult) : writeEnv := env opens (fun _ => (2%nat, None)).
Definition broken : writeEnv := env (inr None) (fun i => (1%nat, if Nat.eqb i 1 then Some "stream reset"%string else None)).
Definition sent (id : Z) (payload : bytes) (e : writeEnv) : list event := [Offer id payload; Enqueue id; RunRequest e; Take id].

Definition events : list event :=
  sent 1 [1; 2; 3] (steady (inr (Some 7))) ++ sent 2 [4] (steady (inr None)) ++ sent 3 [5; 6] broken ++ [Offer 4 [8]; Enqueue 4; CloseStop].
Definition final : world := default newPeerStreamWriter (wrun events newPeerStreamWriter).

Lemma final_reachable : wreachable final.
Proof. apply (wrun_reachable events newPeerStreamWriter); [apply wreach_start|vm_compute; reflexivity]. Qed.

Lemma final_small r : r ∈ accepted final -> zlen (rq_payload r) <= 100.
Proof.
  assert (Forall (fun r => zlen (rq_payload r) <= 100) (accepted final)) as H; [|exact (proj1 (Forall_forall _ _) H r)].
  apply (bool_decide_unpack _). vm_compute. exact I.
Qed.

Example final_stream : pipes final !! 7 = Some (mkPipe [3; 1; 2; 3; 1; 4; 2; 5] true).
Proof. vm_compute. reflexivity. Qed.

End WriterDemo.

Lemma writer_delivers_witness :
  let w := WriterDemo.final in
  sentOn 7 (framed w) = [[1; 2; 3]; [4]] /\ framesIn 9 100 [3; 1; 2; 3; 1; 4; 2; 5] = [[1; 2; 3]; [4]] /\
  (framed w).*2 `sublist_of` accepted w.
Proof.
  split; [vm_compute; reflexivity|]. split; [vm_compute; reflexivity|].
  exact (proj1 (proj2 (writer_delivers WriterDemo.final 100 WriterDemo.final_reachable WriterDemo.final_small eq_refl))).
Defined.

