(* ===== verification/NodeState.v ===== *)
(** * NodeState: the state of an operator node and its share store

    Models [src/bloc-node/internal/app]: the slot state of [types.go], and from
    [node.go] and [crypto.go] the retention of decryption shares and the
    admission of reconstruction attempts. Every function here is the body of
    one critical section of the node's mutex, or a check before it.

    Left out of the records: the mutexes (the sections are atomic steps of
    [NodeSys]), the recorder's snapshot, wall-clock and duration fields, byte
    and message counters per kind, and the Prometheus mirror of the counters,
    none of which any decision reads. *)

From S2P Require Import Prelude GoStrings Sha256 Kyber Prf Btd Batch Merge Messages Acs SlotAcs Wire.

Inductive slotPhase := slotPrepared | slotRunning | slotCompleted | slotFailed.

#[export] Instance slotPhase_eq_dec : EqDecision slotPhase.
Proof. solve_decision. Defined.

Record SlotFailure := mkFailure {
  fail_Slot : Z;
  fail_Reason : string;
  FailedAtUnixNano : Z
}.

(** [ethdemo.Summary] *)
Record Summary := mkSummary {
  sum_Hash : bytes;
  sum_From : bytes;
  sum_To : bytes;
  sum_Nonce : Z;
  sum_Gas : Z;
  sum_EffectiveFeePerGasWei : bytes;
  ChainID : bytes;
  sum_Type : Z;
  SizeBytes : Z
}.

Definition noSummary : Summary := mkSummary [] [] [] 0 0 [] [] 0 0.

Record MaterializedTransactionSet := mkMaterialized {
  mat_Slot : Z;
  AgreedSetHash : bytes;
  MergedSetHash : bytes;
  mat_SelectedGas : Z;
  mat_EncryptedHashes : list bytes;
  PlaintextHashes : list bytes;
  EthereumTxHashes : list bytes;
  EthereumTxs : list Summary;
  PlaintextsHex : list bytes
}.

Definition noMaterial : MaterializedTransactionSet := mkMaterialized 0 [] [] 0 [] [] [] [] [].

Record Result := mkResult {
  res_Slot : Z;
  NodeID : Z;
  BatchID : bytes;
  Ciphertexts : Z;
  Plaintexts : list bytes;
  Materialized : MaterializedTransactionSet
}.

Record FaultConfig := mkFaults {
  OmitProposal : bool;
  WithholdShare : bool;
  CorruptShare : bool
}.

(** The counters of [Metrics] that the slot's own operations keep. *)
Record Metrics := mkMetrics {
  SubmittedTxs : Z;
  SubmittedBytes : Z;
  SharesGenerated : Z;
  SharesAccepted : Z;
  SharesRejected : Z;
  ShareSubsetAttempts : Z;
  CombineAttempts : Z
}.

Definition set_SubmittedTxs (x : Z) (m : Metrics) : Metrics :=
  mkMetrics x (SubmittedBytes m) (SharesGenerated m) (SharesAccepted m) (SharesRejected m)
    (ShareSubsetAttempts m) (CombineAttempts m).

Definition set_SubmittedBytes (x : Z) (m : Metrics) : Metrics :=
  mkMetrics (SubmittedTxs m) x (SharesGenerated m) (SharesAccepted m) (SharesRejected m)
    (ShareSubsetAttempts m) (CombineAttempts m).

Definition set_SharesGenerated (x : Z) (m : Metrics) : Metrics :=
  mkMetrics (SubmittedTxs m) (SubmittedBytes m) x (SharesAccepted m) (SharesRejected m)
    (ShareSubsetAttempts m) (CombineAttempts m).

Definition set_SharesAccepted (x : Z) (m : Metrics) : Metrics :=
  mkMetrics (SubmittedTxs m) (SubmittedBytes m) (SharesGenerated m) x (SharesRejected m)
    (ShareSubsetAttempts m) (CombineAttempts m).

Definition set_SharesRejected (x : Z) (m : Metrics) : Metrics :=
  mkMetrics (SubmittedTxs m) (SubmittedBytes m) (SharesGenerated m) (SharesAccepted m) x
    (ShareSubsetAttempts m) (CombineAttempts m).

Definition set_ShareSubsetAttempts (x : Z) (m : Metrics) : Metrics :=
  mkMetrics (SubmittedTxs m) (SubmittedBytes m) (SharesGenerated m) (SharesAccepted m) (SharesRejected m) x
    (CombineAttempts m).

Definition set_CombineAttempts (x : Z) (m : Metrics) : Metrics :=
  mkMetrics (SubmittedTxs m) (SubmittedBytes m) (SharesGenerated m) (SharesAccepted m) (SharesRejected m)
    (ShareSubsetAttempts m) x.

Definition noMetrics : Metrics := mkMetrics 0 0 0 0 0 0 0.

Record ProviderConfig := mkProvider {
  provider_Mode : bytes;
  MempoolURL : bytes;
  MempoolTimeoutMS : Z;
  ExpectedPublicConfigID : bytes;
  ExpectedPlaintextMasterID : bytes;
  ExpectedEncryptedCorpusID : bytes;
  ExpectedEncryptedPrefixSetIDs : gmap bytes bytes;
  RequireExactCount : bool
}.

Section NodeState.
Context `{Suite}.

(** The configuration a node reads: of the cluster, of itself, and its share
  of the key. [peers] has the configured nodes' identifiers as keys. *)
Record NodeConfig := mkNodeConfig {
  cfg_N : Z;
  cfg_Threshold : Z;
  cfg_BMax : Z;
  Blockspace : BlockspaceConfig;
  MaxProposalBytes : Z;
  MaxCombineAttemptsPerSubBatch : Z;
  cfg_ACSTrace : bool;
  Provider : ProviderConfig;
  publicConfigID : bytes;
  self_ID : Z;
  nodeIDs : list Z;
  cluster : ClusterBTE;
  secret : SecretShare;
  faults : FaultConfig
}.

Definition peers (cfg : NodeConfig) : gset Z := list_to_set (nodeIDs cfg).

Record retainedShare := mkRetained {
  ret_value : DecryptionShare;
  ret_encoded : bytes
}.

Record operatorShareCandidates := mkCandidates {
  oc_batchID : bytes;
  oc_batchSet : bool;
  oc_shares : gmap Z retainedShare
}.

(** [started] is the state of [startOnce]. *)
Record slotState := mkSlotState {
  st_id : Z;
  st_proposalLimit : Z;
  st_phase : slotPhase;
  st_slot : SlotACS (D := unit);
  st_started : bool;
  st_pending : list EncryptedPlaceholder;
  st_seenPending : gset bytes;
  st_plan : BatchPlan;
  st_material : MaterializedTransactionSet;
  st_planned : bool;
  st_shareGenerationDone : bool;
  st_combineInFlight : bool;
  st_shareVersion : Z;
  st_shareCandidates : gmap Z operatorShareCandidates;
  st_combineAttemptsLeft : list Z;
  st_result : option Result;
  st_failure : option SlotFailure;
  st_metrics : Metrics
}.

Definition set_proposalLimit (x : Z) (s : slotState) : slotState :=
  mkSlotState (st_id s) x (st_phase s) (st_slot s) (st_started s) (st_pending s) (st_seenPending s)
    (st_plan s) (st_material s) (st_planned s) (st_shareGenerationDone s) (st_combineInFlight s)
    (st_shareVersion s) (st_shareCandidates s) (st_combineAttemptsLeft s) (st_result s) (st_failure s)
    (st_metrics s).

Definition set_phase (x : slotPhase) (s : slotState) : slotState :=
  mkSlotState (st_id s) (st_proposalLimit s) x (st_slot s) (st_started s) (st_pending s) (st_seenPending s)
    (st_plan s) (st_material s) (st_planned s) (st_shareGenerationDone s) (st_combineInFlight s)
    (st_shareVersion s) (st_shareCandidates s) (st_combineAttemptsLeft s) (st_result s) (st_failure s)
    (st_metrics s).

Definition set_slot (x : SlotACS (D := unit)) (s : slotState) : slotState :=
  mkSlotState (st_id s) (st_proposalLimit s) (st_phase s) x (st_started s) (st_pending s) (st_seenPending s)
    (st_plan s) (st_material s) (st_planned s) (st_shareGenerationDone s) (st_combineInFlight s)
    (st_shareVersion s) (st_shareCandidates s) (st_combineAttemptsLeft s) (st_result s) (st_failure s)
    (st_metrics s).

Definition set_started (x : bool) (s : slotState) : slotState :=
  mkSlotState (st_id s) (st_proposalLimit s) (st_phase s) (st_slot s) x (st_pending s) (st_seenPending s)
    (st_plan s) (st_material s) (st_planned s) (st_shareGenerationDone s) (st_combineInFlight s)
    (st_shareVersion s) (st_shareCandidates s) (st_combineAttemptsLeft s) (st_result s) (st_failure s)
    (st_metrics s).

Definition set_pending (x : list EncryptedPlaceholder) (s : slotState) : slotState :=
  mkSlotState (st_id s) (st_proposalLimit s) (st_phase s) (st_slot s) (st_started s) x (st_seenPending s)
    (st_plan s) (st_material s) (st_planned s) (st_shareGenerationDone s) (st_combineInFlight s)
    (st_shareVersion s) (st_shareCandidates s) (st_combineAttemptsLeft s) (st_result s) (st_failure s)
    (st_metrics s).

Definition set_seenPending (x : gset bytes) (s : slotState) : slotState :=
  mkSlotState (st_id s) (st_proposalLimit s) (st_phase s) (st_slot s) (st_started s) (st_pending s) x
    (st_plan s) (st_material s) (st_planned s) (st_shareGenerationDone s) (st_combineInFlight s)
    (st_shareVersion s) (st_shareCandidates s) (st_combineAttemptsLeft s) (st_result s) (st_failure s)
    (st_metrics s).

Definition set_plan (x : BatchPlan) (s : slotState) : slotState :=
  mkSlotState (st_id s) (st_proposalLimit s) (st_phase s) (st_slot s) (st_started s) (st_pending s)
    (st_seenPending s) x (st_material s) (st_planned s) (st_shareGenerationDone s) (st_combineInFlight s)
    (st_shareVersion s) (st_shareCandidates s) (st_combineAttemptsLeft s) (st_result s) (st_failure s)
    (st_metrics s).

Definition set_material (x : MaterializedTransactionSet) (s : slotState) : slotState :=
  mkSlotState (st_id s) (st_proposalLimit s) (st_phase s) (st_slot s) (st_started s) (st_pending s)
    (st_seenPending s) (st_plan s) x (st_planned s) (st_shareGenerationDone s) (st_combineInFlight s)
    (st_shareVersion s) (st_shareCandidates s) (st_combineAttemptsLeft s) (st_result s) (st_failure s)
    (st_metrics s).

Definition set_planned (x : bool) (s : slotState) : slotState :=
  mkSlotState (st_id s) (st_proposalLimit s) (st_phase s) (st_slot s) (st_started s) (st_pending s)
    (st_seenPending s) (st_plan s) (st_material s) x (st_shareGenerationDone s) (st_combineInFlight s)
    (st_shareVersion s) (st_shareCandidates s) (st_combineAttemptsLeft s) (st_result s) (st_failure s)
    (st_metrics s).

Definition set_shareGenerationDone (x : bool) (s : slotState) : slotState :=
  mkSlotState (st_id s) (st_proposalLimit s) (st_phase s) (st_slot s) (st_started s) (st_pending s)
    (st_seenPending s) (st_plan s) (st_material s) (st_planned s) x (st_combineInFlight s)
    (st_shareVersion s) (st_shareCandidates s) (st_combineAttemptsLeft s) (st_result s) (st_failure s)
    (st_metrics s).

Definition set_combineInFlight (x : bool) (s : slotState) : slotState :=
  mkSlotState (st_id s) (st_proposalLimit s) (st_phase s) (st_slot s) (st_started s) (st_pending s)
    (st_seenPending s) (st_plan s) (st_material s) (st_planned s) (st_shareGenerationDone s) x
    (st_shareVersion s) (st_shareCandidates s) (st_combineAttemptsLeft s) (st_result s) (st_failure s)
    (st_metrics s).

Definition set_shareVersion (x : Z) (s : slotState) : slotState :=
  mkSlotState (st_id s) (st_proposalLimit s) (st_phase s) (st_slot s) (st_started s) (st_pending s)
    (st_seenPending s) (st_plan s) (st_material s) (st_planned s) (st_shareGenerationDone s)
    (st_combineInFlight s) x (st_shareCandidates s) (st_combineAttemptsLeft s) (st_result s) (st_failure s)
    (st_metrics s).

Definition set_shareCandidates (x : gmap Z operatorShareCandidates) (s : slotState) : slotState :=
  mkSlotState (st_id s) (st_proposalLimit s) (st_phase s) (st_slot s) (st_started s) (st_pending s)
    (st_seenPending s) (st_plan s) (st_material s) (st_planned s) (st_shareGenerationDone s)
    (st_combineInFlight s) (st_shareVersion s) x (st_combineAttemptsLeft s) (st_result s) (st_failure s)
    (st_metrics s).

Definition set_combineAttemptsLeft (x : list Z) (s : slotState) : slotState :=
  mkSlotState (st_id s) (st_proposalLimit s) (st_phase s) (st_slot s) (st_started s) (st_pending s)
    (st_seenPending s) (st_plan s) (st_material s) (st_planned s) (st_shareGenerationDone s)
    (st_combineInFlight s) (st_shareVersion s) (st_shareCandidates s) x (st_result s) (st_failure s)
    (st_metrics s).

Definition set_result (x : option Result) (s : slotState) : slotState :=
  mkSlotState (st_id s) (st_proposalLimit s) (st_phase s) (st_slot s) (st_started s) (st_pending s)
    (st_seenPending s) (st_plan s) (st_material s) (st_planned s) (st_shareGenerationDone s)
    (st_combineInFlight s) (st_shareVersion s) (st_shareCandidates s) (st_combineAttemptsLeft s) x
    (st_failure s) (st_metrics s).

Definition set_failure (x : option SlotFailure) (s : slotState) : slotState :=
  mkSlotState (st_id s) (st_proposalLimit s) (st_phase s) (st_slot s) (st_started s) (st_pending s)
    (st_seenPending s) (st_plan s) (st_material s) (st_planned s) (st_shareGenerationDone s)
    (st_combineInFlight s) (st_shareVersion s) (st_shareCandidates s) (st_combineAttemptsLeft s)
    (st_result s) x (st_metrics s).

Definition set_metrics (x : Metrics) (s : slotState) : slotState :=
  mkSlotState (st_id s) (st_proposalLimit s) (st_phase s) (st_slot s) (st_started s) (st_pending s)
    (st_seenPending s) (st_plan s) (st_material s) (st_planned s) (st_shareGenerationDone s)
    (st_combineInFlight s) (st_shareVersion s) (st_shareCandidates s) (st_combineAttemptsLeft s)
    (st_result s) (st_failure s) x.

(** What changes in a node; the rest of the struct is its configuration. *)
Record Node := mkNode {
  n_lastSlot : Z;
  n_completedSlots : Z;
  n_failedSlots : Z;
  n_state : slotState
}.

Definition set_lastSlot (x : Z) (n : Node) : Node :=
  mkNode x (n_completedSlots n) (n_failedSlots n) (n_state n).

Definition set_completedSlots (x : Z) (n : Node) : Node :=
  mkNode (n_lastSlot n) x (n_failedSlots n) (n_state n).

Definition set_failedSlots (x : Z) (n : Node) : Node :=
  mkNode (n_lastSlot n) (n_completedSlots n) x (n_state n).

Definition set_state (x : slotState) (n : Node) : Node :=
  mkNode (n_lastSlot n) (n_completedSlots n) (n_failedSlots n) x.

(** [markSlotFailed]; [now] is the clock. The reason passes
  [normalizeFailureReason]. *)
Definition normalizeFailureReason (reason : string) : string :=
  if bool_decide (reason ∈ ["proposal"; "acs"; "decode"; "planning"; "share"; "combine"]%string) then reason
  else "unknown".

Definition markSlotFailed (reason : string) (now : Z) (n : Node) : Node :=
  let s := n_state n in
  match st_result s, st_failure s with
  | None, None =>
      let s := set_failure (Some (mkFailure (st_id s) (normalizeFailureReason reason) now)) s in
      set_failedSlots (n_failedSlots n + 1) (set_state (set_phase slotFailed s) n)
  | _, _ => n
  end.

(** ** Retained shares *)

Definition recordShareRejectedLocked (s : slotState) : slotState :=
  set_metrics (set_SharesRejected (SharesRejected (st_metrics s) + 1) (st_metrics s)) s.

(** The new state and the error's metrics label. *)
Definition rejectShare (reason : string) (s : slotState) : slotState * option string :=
  (recordShareRejectedLocked s, Some reason).

Definition retainedShareCountLocked (candidates : gmap Z operatorShareCandidates) : Z :=
  map_fold (fun _ c total => total + zsize (oc_shares c)) 0 candidates.

(** The rows of one operator, in increasing sub-batch order. *)
Definition operatorShares (c : operatorShareCandidates) : list DecryptionShare :=
  omap (fun sub => ret_value <$> oc_shares c !! sub) (sortedIDs ((map_to_list (oc_shares c)).*1)).

Definition retainedSharesLocked (cfg : NodeConfig) (s : slotState) : list DecryptionShare :=
  concat (map (fun operatorID =>
    match st_shareCandidates s !! i64 operatorID with
    | None => []
    | Some c => operatorShares c
    end) (nodeIDs cfg)).

Definition pruneOperator (plan : BatchPlan) (c : operatorShareCandidates) : option operatorShareCandidates :=
  if negb (oc_batchSet c) || negb (bool_decide (oc_batchID c = plan_BatchID plan)) then None
  else
    Some (mkCandidates (oc_batchID c) (oc_batchSet c)
      (filter (fun kv => 0 <= kv.1 < zlen (SubBatches plan)) (oc_shares c))).

Definition pruneShareCandidatesLocked (plan : BatchPlan) (s : slotState) : slotState :=
  set_shareCandidates (omap (pruneOperator plan) (st_shareCandidates s)) s.

(** The critical section of [addShare]; [encoded] is the marshalled point. *)
Definition retainShare (cfg : NodeConfig) (d : DecryptionShare) (encoded : bytes) (s : slotState)
  : slotState * option string :=
  if st_planned s && negb (bool_decide (d_BatchID d = plan_BatchID (st_plan s))) then rejectShare "batch" s
  else if st_planned s && (zlen (SubBatches (st_plan s)) <=? d_SubBatchID d) then rejectShare "sub_batch" s
  else
    let op := d_OperatorID d in
    let candidates := default (mkCandidates [] false ∅) (st_shareCandidates s !! op) in
    let s := set_shareCandidates (<[op := candidates]> (st_shareCandidates s)) s in
    if oc_batchSet candidates && negb (bool_decide (oc_batchID candidates = d_BatchID d)) then rejectShare "batch" s
    else
      match oc_shares candidates !! d_SubBatchID d with
      | Some existing =>
          if bool_decide (ret_encoded existing = encoded) then (s, None) else rejectShare "conflict" s
      | None =>
          let kept := mkCandidates (d_BatchID d) true
            (<[d_SubBatchID d := mkRetained d encoded]> (oc_shares candidates)) in
          let store := <[op := kept]> (st_shareCandidates s) in
          if cfg_N cfg * cfg_BMax cfg <? retainedShareCountLocked store then
            let dropped := mkCandidates (d_BatchID d) true (delete (d_SubBatchID d) (oc_shares kept)) in
            rejectShare "capacity" (set_shareCandidates (<[op := dropped]> store) s)
          else
            let m := st_metrics s in
            let m := set_SharesAccepted (SharesAccepted m + 1) m in
            let m := if op =? i64 (self_ID cfg) then set_SharesGenerated (SharesGenerated m + 1) m else m in
            (set_metrics m (set_shareVersion (u64 (st_shareVersion s + 1)) (set_shareCandidates store s)), None)
      end.

(** [n.peers[uint64(op)]] and [op >= 0] *)
Definition configuredOperator (cfg : NodeConfig) (op : Z) : bool :=
  bool_decide (u64 op ∈ peers cfg) && negb (op <? 0).

Definition addShare (cfg : NodeConfig) (d : DecryptionShare) (s : slotState) : slotState * option string :=
  if negb (configuredOperator cfg (d_OperatorID d)) then rejectShare "membership" s
  else
    match d_Share d with
    | None => rejectShare "encoding" s
    | Some share =>
        if negb (pub_I share =? d_OperatorID d) then rejectShare "membership" s
        else if (d_SubBatchID d <? 0) || (cfg_BMax cfg <=? d_SubBatchID d) then rejectShare "sub_batch" s
        else
          match MarshalPoint (pub_V share) with
          | Ok encoded => retainShare cfg d encoded s
          | _ => rejectShare "encoding" s
          end
    end.

(** [crypto.go] *)
Definition marshalPointHex (p : Point G1) : out bytes :=
  let? b := MarshalPoint p in Ok (hexEncode b).

Definition unmarshalPointHex (h : bytes) : out (Point G1) :=
  match hexDecode (TrimPrefix h (str "0x")) with
  | None => Err "invalid hex"
  | Some b => UnmarshalPoint G1 b
  end.

(** [pointSize] is [MarshalSize] of a group element. *)
Definition addWireShare (pointSize : Z) (cfg : NodeConfig) (w : WireShare) (s : slotState)
  : slotState * option string :=
  if negb (configuredOperator cfg (ws_OperatorID w)) then rejectShare "membership" s
  else if negb (zlen (ws_BatchIDHex w) =? 64) then rejectShare "encoding" s
  else
    match hexDecode (ws_BatchIDHex w) with
    | None => rejectShare "encoding" s
    | Some batchID =>
        if (ws_SubBatchID w <? 0) || (cfg_BMax cfg <=? ws_SubBatchID w) then rejectShare "sub_batch" s
        else if negb (zlen (ws_PointHex w) =? pointSize * 2) then rejectShare "encoding" s
        else
          match unmarshalPointHex (ws_PointHex w) with
          | Ok point =>
              addShare cfg (mkDecryptionShare (ws_OperatorID w) batchID (ws_SubBatchID w)
                (Some (mkPubShare (u32 (ws_OperatorID w)) point))) s
          | _ => rejectShare "encoding" s
          end
    end.

(** The share pointer is dereferenced. *)
Definition marshalShare (d : DecryptionShare) : out WireShare :=
  match d_Share d with
  | None => Crash
  | Some share =>
      let? pointHex := marshalPointHex (pub_V share) in
      Ok (mkWireShare (d_OperatorID d) (hexEncode (d_BatchID d)) (d_SubBatchID d) pointHex)
  end.

(** ** Reconstruction attempts *)

Record combineAttempt := mkAttempt {
  at_plan : BatchPlan;
  at_material : MaterializedTransactionSet;
  at_shares : list DecryptionShare;
  at_shareVersion : Z;
  attemptLimits : list Z
}.

(** The operators counted for one sub-batch. *)
Definition operatorsFor (shares : list DecryptionShare) (sub : Z) : gset Z :=
  list_to_set (map d_OperatorID (filter (fun d => d_SubBatchID d = sub) shares)).

Definition hasThresholdPerSubBatch (shares : list DecryptionShare) (plan : BatchPlan) (threshold : Z) : bool :=
  forallb (fun i => negb (zsize (operatorsFor shares (Z.of_nat i)) <? threshold))
    (seq 0 (length (SubBatches plan))).

(** [i >= len(n.combineAttemptsLeft) || n.combineAttemptsLeft[i] <= 0] for no
  sub-batch. *)
Definition attemptsRemain (s : slotState) : bool :=
  forallb (fun i =>
    match st_combineAttemptsLeft s !! i with
    | None => false
    | Some n => negb (n <=? 0)
    end) (seq 0 (length (SubBatches (st_plan s)))).

Definition claimCombine (cfg : NodeConfig) (s : slotState) : slotState * option combineAttempt :=
  if bool_decide (is_Some (st_result s)) || bool_decide (is_Some (st_failure s)) || negb (st_planned s) ||
     negb (st_shareGenerationDone s) || st_combineInFlight s
  then (s, None)
  else
    let shares := retainedSharesLocked cfg s in
    if negb (hasThresholdPerSubBatch shares (st_plan s) (cfg_Threshold cfg)) then (s, None)
    else if negb (attemptsRemain s) then (s, None)
    else if bool_decide (shares = []) then (s, None)
    else
      let m := st_metrics s in
      (set_metrics (set_CombineAttempts (CombineAttempts m + 1) m) (set_combineInFlight true s),
       Some (mkAttempt (st_plan s) (st_material s) shares (st_shareVersion s) (st_combineAttemptsLeft s))).

(** One entry of [stats.AttemptsBySubBatch]. *)
Definition spendAttempts (remaining attempts : Z) : Z :=
  if remaining - attempts <? 0 then 0 else remaining - attempts.

Fixpoint spendAll (lefts stats : list Z) : list Z :=
  match lefts, stats with
  | remaining :: lefts', attempts :: stats' => spendAttempts remaining attempts :: spendAll lefts' stats'
  | _, _ => lefts
  end.

Definition recordCombineStats (stats : list Z) (s : slotState) : slotState :=
  let m := st_metrics s in
  set_combineAttemptsLeft (spendAll (st_combineAttemptsLeft s) stats)
    (set_metrics (set_ShareSubsetAttempts (fold_left Z.add stats (ShareSubsetAttempts m)) m) s).

(** Releases the claim; says whether newer shares make a retry useful. *)
Definition finishFailedCombine (attemptVersion : Z) (s : slotState) : slotState * bool :=
  (set_combineInFlight false s,
   negb (bool_decide (is_Some (st_result s))) && negb (bool_decide (is_Some (st_failure s))) &&
   (attemptVersion <? st_shareVersion s)).
End NodeState.
