(* ===== verification/Provider.v ===== *)
(** * Provider: where a node's proposal comes from

    Models [src/bloc-node/internal/app/provider.go] and the hexadecimal
    readers of [crypto.go] it uses. The HTTP exchange with the mempool service
    and the JSON decoding of its answer are one parameter, [mempoolGet], which
    takes the slot and the limit of the request. *)

From S2P Require Import Prelude GoStrings Sha256 Kyber Prf Btd Batch Merge Messages Acs SlotAcs Wire NodeState.

(** [decodeHexStrict] and [decodeHexMaybe]: the trimmed text, with an even
  number of digits. *)
Definition hexText (s : bytes) : out bytes :=
  let s := TrimSpace (TrimPrefix s (str "0x")) in
  if bool_decide (s = []) then Err "empty hex payload"
  else Ok (if zlen s mod 2 =? 1 then str "0" ++ s else s).

Definition decodeHexStrict (s : bytes) : out bytes :=
  let? s := hexText s in
  match hexDecode s with
  | Some b => Ok b
  | None => Err "invalid hex"
  end.

(** Text that does not start with a hexadecimal digit is taken as raw bytes. *)
Definition decodeHexMaybe (s : bytes) : out bytes :=
  let? s := hexText s in
  match s with
  | c :: _ =>
      match fromHexChar c with
      | None => Ok s
      | Some _ =>
          match hexDecode s with
          | Some b => Ok b
          | None => Err "invalid hex"
          end
      end
  | [] => Crash
  end.

Definition validNonNegativeDecimal (raw : bytes) : bool :=
  let raw := TrimSpace raw in
  match SetString (if bool_decide (raw = []) then str "0" else raw) with
  | Some x => negb (x <? 0)
  | None => false
  end.

(** The answer of the mempool service. *)
Record remoteItem := mkRemoteItem {
  rem_Hash : bytes;
  rem_EncryptedPayloadHex : bytes;
  rem_CiphertextHex : bytes;
  rem_PlaceholderEnvelopeHex : bytes;
  rem_Gas : Z;
  rem_EffectiveFeePerGasWei : bytes;
  rem_From : bytes;
  rem_Nonce : Z;
  rem_Kind : bytes
}.

Record remoteList := mkRemote {
  SchemaVersion : bytes;
  CiphertextWireVersion : bytes;
  rem_PublicConfigID : bytes;
  PlaintextMasterCorpusID : bytes;
  EncryptedCorpusID : bytes;
  EncryptedPrefixSetID : bytes;
  rem_Slot : Z;
  RequestedCount : Z;
  AvailableCount : Z;
  ReturnedCount : Z;
  rem_Items : list remoteItem
}.

Definition corpusSchema : bytes := str "bloc-encrypted-corpus-v1".

(** [want != "" && got != want] *)
Definition mismatch (want got : bytes) : bool := negb (bool_decide (want = [])) && negb (bool_decide (got = want)).

Section Provider.
Context `{Suite} (uni : bytes -> bytes).
Context (json_list : Z -> Z -> list EncryptedPlaceholder -> bytes).
Context (proto_Marshal : pbInclusionList -> option bytes).
Context (mempoolGet : Z -> Z -> out remoteList).

Definition validateProposalBounds (itemCount encodedBytes : Z) (cfg : NodeConfig) : out unit :=
  if cfg_BMax cfg <? itemCount then Err "proposal item count exceeds BMax"
  else if MaxProposalBytes cfg <? encodedBytes then Err "encoded proposal exceeds the maximum"
  else Ok tt.

(** The checks on the corpus an answer claims to come from. *)
Definition checkProvenance (cfg : NodeConfig) (slot proposalLimit : Z) (r : remoteList) : out unit :=
  let p := Provider cfg in
  let required :=
    negb (bool_decide (ExpectedPublicConfigID p = [])) || negb (bool_decide (ExpectedPlaintextMasterID p = [])) ||
    negb (bool_decide (ExpectedEncryptedCorpusID p = [])) || RequireExactCount p in
  if bool_decide (SchemaVersion r = []) then
    if required then Err "mempool inclusion-list omitted encrypted corpus provenance" else Ok tt
  else if negb (bool_decide (SchemaVersion r = corpusSchema)) then Err "unsupported encrypted corpus schema"
  else if negb (bool_decide (CiphertextWireVersion r = LibraryVersion)) then
    Err "ciphertext wire version does not match"
  else if negb (rem_Slot r =? slot) then Err "mempool response slot does not match active slot"
  else if (0 <? proposalLimit) && negb (RequestedCount r =? proposalLimit) then
    Err "mempool requested count does not match proposal limit"
  else if (AvailableCount r <? ReturnedCount r) || (ReturnedCount r <? 0) then
    Err "invalid mempool returned/available counts"
  else if mismatch (publicConfigID cfg) (rem_PublicConfigID r) then
    Err "mempool public config id does not match loaded setup"
  else if mismatch (ExpectedPublicConfigID p) (rem_PublicConfigID r) then
    Err "mempool public config id does not match expected"
  else if mismatch (ExpectedPlaintextMasterID p) (PlaintextMasterCorpusID r) then
    Err "mempool plaintext master corpus id does not match expected"
  else if mismatch (ExpectedEncryptedCorpusID p) (EncryptedCorpusID r) then
    Err "mempool encrypted corpus id does not match expected"
  else if (0 <? proposalLimit) &&
    mismatch (default [] (ExpectedEncryptedPrefixSetIDs p !! decimal proposalLimit)) (EncryptedPrefixSetID r) then
    Err "mempool encrypted prefix id does not match expected"
  else Ok tt.

(** An item is skipped ([None]) when it is no placeholder or has no payload. *)
Definition convertItem (i : remoteItem) : out (option EncryptedPlaceholder) :=
  if negb (bool_decide (rem_Kind i = [])) && negb (bool_decide (rem_Kind i = str "placeholder")) then Ok None
  else
    let strict := if bool_decide (rem_EncryptedPayloadHex i = []) then rem_CiphertextHex i
                  else rem_EncryptedPayloadHex i in
    let hexPayload := if bool_decide (strict = []) then rem_PlaceholderEnvelopeHex i else strict in
    if bool_decide (hexPayload = []) then Ok None
    else
      let? payload := if bool_decide (strict = []) then decodeHexMaybe hexPayload else decodeHexStrict hexPayload in
      let fee := if bool_decide (rem_EffectiveFeePerGasWei i = []) then str "0" else rem_EffectiveFeePerGasWei i in
      let kind := if bool_decide (rem_Kind i = []) then str "placeholder" else rem_Kind i in
      Ok (Some (mkPlaceholder (hashHex payload) payload (rem_Gas i) fee (ToLower uni (rem_From i))
        (rem_Nonce i) kind)).

Definition fetchMempoolInclusionList (cfg : NodeConfig) (slot proposalLimit : Z) : out InclusionList :=
  if bool_decide (MempoolURL (Provider cfg) = []) then Err "provider mempool-http requires mempool_url"
  else
    let? remote := mempoolGet slot proposalLimit in
    let? _ := checkProvenance cfg slot proposalLimit remote in
    let? converted := map_out convertItem (rem_Items remote) in
    let items := omap id converted in
    if negb (bool_decide (SchemaVersion remote = [])) && negb (ReturnedCount remote =? zlen items) then
      Err "mempool returned count does not match decoded items"
    else if (0 <? proposalLimit) && (proposalLimit <? zlen items) then Err "mempool returned items above proposal limit"
    else if RequireExactCount (Provider cfg) && (0 <? proposalLimit) && negb (zlen items =? proposalLimit) then
      Err "mempool returned items, require exact proposal limit"
    else Ok (setListHash json_list (mkList slot (self_ID cfg) items [])).

Definition validateProviderProposal (cfg : NodeConfig) (l : InclusionList) : out InclusionList :=
  match EncodeList proto_Marshal l with
  | inl _ => Err "encode proposal"
  | inr encoded =>
      let? _ := validateProposalBounds (zlen (Items l)) (zlen encoded) cfg in
      Ok l
  end.

Definition buildInclusionList (cfg : NodeConfig) (s : slotState) : out InclusionList :=
  let mode := provider_Mode (Provider cfg) in
  if bool_decide (mode ∈ [[]; str "direct"]) then
    validateProviderProposal cfg (setListHash json_list (mkList (st_id s) (self_ID cfg) (st_pending s) []))
  else if bool_decide (mode = str "mempool-http") then
    let? l := fetchMempoolInclusionList cfg (st_id s) (st_proposalLimit s) in
    validateProviderProposal cfg l
  else Err "unknown inclusion-list provider".
End Provider.
