(* ===== verification/Node.v ===== *)
(** * Node: the slot protocol of an operator node

    Models [src/bloc-node/internal/app/node.go]: how a node starts a slot,
    steps the common subset, turns its output into an encrypted batch, issues
    and collects decryption shares, and materializes the slot; the hexadecimal
    and transaction parsing around it ([crypto.go], [ethdemo/tx.go]).

    A function from [Node] to [Node] is the body of one critical section of
    the node's locks; [NodeSys] composes the sections into goroutines.
    Parameters are those of the components below, and [decodeTx], which stands
    for go-ethereum's transaction decoding and sender recovery. *)

From S2P Require Import Prelude Order GoStrings Sha256 Kyber Prf Btd Batch Merge Messages Bba Rbc RbcNet Acs AcsLocal SlotAcs Wire NodeState Provider.

(** What go-ethereum reads from the bytes of a signed transaction. *)
Record ethTx := mkEthTx {
  tx_ChainId : option Z;
  tx_Sender : option bytes;
  tx_To : option bytes;
  tx_Nonce : Z;
  tx_Gas : Z;
  tx_Type : Z;
  tx_GasFeeCap : Z;
  tx_GasPrice : Z;
  tx_Hash : bytes
}.

Definition DynamicFeeTxType : Z := 2.

Definition effectiveFeePerGas (tx : ethTx) : Z :=
  if tx_Type tx =? DynamicFeeTxType then tx_GasFeeCap tx else tx_GasPrice tx.

(** [ethdemo.Parse] *)
Definition Parse (decodeTx : bytes -> option ethTx) (raw : bytes) : out Summary :=
  match decodeTx raw with
  | None => Err "decode transaction"
  | Some tx =>
      match tx_ChainId tx with
      | None => Err "transaction has no chain id"
      | Some chainID =>
          if chainID =? 0 then Err "transaction has no chain id"
          else
            match tx_Sender tx with
            | None => Err "recover sender"
            | Some from =>
                Ok (mkSummary (tx_Hash tx) from (default [] (tx_To tx)) (tx_Nonce tx) (tx_Gas tx)
                  (decimal (effectiveFeePerGas tx)) (decimal chainID) (tx_Type tx) (zlen raw))
            end
      end
  end.

Definition corruptHex (s : bytes) : bytes :=
  match s with
  | [] => []
  | c :: rest => if c =? 48 then 49 :: rest else 48 :: rest
  end.

(** [strconv.ParseUint(raw, 10, 64)] *)
Definition parseSlot (raw : bytes) : option Z :=
  if bool_decide (raw = []) || negb (forallb isDigit raw) || (2 ^ 64 <=? digitsValue raw) then None
  else Some (digitsValue raw).

Record SubmitTxRequest := mkSubmit {
  RawTx : bytes;
  req_Gas : Z;
  req_Fee : bytes;
  req_From : bytes;
  req_Nonce : Z;
  req_Kind : bytes
}.

(** Why a step of the common subset gave nothing: its own error, or a message
  that could not be classified. *)
Inductive stepError :=
  | StepFailed (e : hberror)
  | ClassifyFailed (e : string).

(** What an agreed output leads to before any lock is taken. *)
Inductive agreedOutcome `{Suite} :=
  | Refused (reason : string)
  | EmptySet (material : MaterializedTransactionSet)
  | Planned (plan : BatchPlan) (material : MaterializedTransactionSet).

Section Node.
Context `{Suite}.
Context (RecoverCommit : list PubShare -> Z -> Z -> out (Point G1)).
Context (HashToPoint : bytes -> bytes) (uni : bytes -> bytes).
Context (hkdf : bytes -> bytes -> bytes).
Context (aead_Seal : bytes -> bytes -> bytes -> bytes -> bytes).
Context (aead_Open : bytes -> bytes -> bytes -> bytes -> out bytes).
Context (json_list : Z -> Z -> list EncryptedPlaceholder -> bytes).
Context (json_agreed : Z -> list InclusionList -> bytes).
Context (json_merged : Z -> list EncryptedPlaceholder -> Z -> bytes).
Context (list_Marshal : pbInclusionList -> option bytes) (list_Unmarshal : bytes -> option pbInclusionList).
Context (rs_New : Z -> Z -> option Encoder).
Context (decodeTx : bytes -> option ethTx).
Context (mempoolGet : Z -> Z -> out remoteList).

(** ** Slots *)

Definition zeroPlan : BatchPlan := mkBatchPlan (replicate 32 0) 0 [].

Definition newSlotStateWithLimit (cfg : NodeConfig) (slotID proposalLimit : Z) : go slotState :=
  let! slot := NewSlotACS rs_New
    (mkConfig (cfg_N cfg) (Z.quot (cfg_N cfg - 1) 3) (self_ID cfg) (nodeIDs cfg) (cfg_BMax cfg)) slotID None None in
  Ret (mkSlotState slotID proposalLimit slotPrepared slot false [] ∅ zeroPlan noMaterial false false false 0 ∅ []
    None None noMetrics).

(** [traceFinalized] is what the slot's trace recorder answers. *)
Definition prepareSlotWithLimit (cfg : NodeConfig) (traceFinalized : bool) (slotID proposalLimit : Z) (n : Node)
  : go (Node * option string) :=
  let s := n_state n in
  if (proposalLimit <? 0) || (cfg_BMax cfg <? proposalLimit) then Ret (n, Some "proposal limit out of range"%string)
  else if (slotID =? st_id s) && bool_decide (st_phase s = slotPrepared) && (st_proposalLimit s =? 0) &&
    (0 <? proposalLimit) then Ret (set_state (set_proposalLimit proposalLimit s) n, None)
  else if slotID <=? n_lastSlot n then Ret (n, Some "slot must be greater than previous slot"%string)
  else if negb (bool_decide (st_phase s ∈ [slotCompleted; slotFailed])) then
    Ret (n, Some "slot cannot be replaced"%string)
  else if bool_decide (st_phase s = slotCompleted) && cfg_ACSTrace cfg && negb traceFinalized then
    Ret (n, Some "slot trace finalization pending"%string)
  else
    let! fresh := newSlotStateWithLimit cfg slotID proposalLimit in
    Ret (set_lastSlot slotID (set_state fresh n), None).

(** [None] when the request's slot, if it names one, is the active slot. *)
Definition validateRequestedSlotLocked (raw : bytes) (s : slotState) : option string :=
  if bool_decide (raw = []) then None
  else
    match parseSlot raw with
    | None => Some "invalid slot"%string
    | Some slotID => if slotID =? st_id s then None else Some "requested slot is not active"%string
    end.

(** ** Submitting a transaction *)

(** The request with its defaults filled in, and the raw transaction; [json]
  is the decoded body of a JSON request. *)
Definition submitRequest (cfg : NodeConfig) (body : bytes) (json : option (option SubmitTxRequest))
  : out (SubmitTxRequest * bytes) :=
  let defaultGas := DefaultTxGas (Blockspace cfg) in
  let? (req, raw) :=
    match json with
    | None => Ok (mkSubmit [] defaultGas (str "0") [] 0 (str "placeholder"), body)
    | Some None => Err "decode request"
    | Some (Some req) => let? raw := decodeHexMaybe (RawTx req) in Ok (req, raw)
    end in
  let req := mkSubmit (RawTx req)
    (if req_Gas req =? 0 then defaultGas else req_Gas req)
    (if bool_decide (req_Fee req = []) then str "0" else req_Fee req)
    (req_From req) (req_Nonce req)
    (if bool_decide (req_Kind req = []) then str "placeholder" else req_Kind req) in
  if negb (validNonNegativeDecimal (req_Fee req)) then Err "effective_fee_per_gas_wei must be a non-negative integer"
  else Ok (req, raw).

(** The last critical section: the item joins the pending proposal unless it
  is there or the proposal would outgrow its limits. The result is the HTTP
  status. *)
Definition admitPending (cfg : NodeConfig) (item : EncryptedPlaceholder) (rawLength : Z) (s : slotState)
  : slotState * Z :=
  if bool_decide (Hash item ∈ st_seenPending s) then (s, 200)
  else if cfg_BMax cfg <=? zlen (st_pending s) then (s, 413)
  else
    let candidateItems := st_pending s ++ [item] in
    match EncodeList list_Marshal (mkList (st_id s) (self_ID cfg) candidateItems []) with
    | inl _ => (s, 500)
    | inr encoded =>
        if MaxProposalBytes cfg <? zlen encoded then (s, 413)
        else
          let m := st_metrics s in
          let m := set_SubmittedBytes (SubmittedBytes m + rawLength) (set_SubmittedTxs (SubmittedTxs m + 1) m) in
          (set_metrics m (set_seenPending ({[ Hash item ]} ∪ st_seenPending s) (set_pending candidateItems s)), 200)
    end.

(** [handleSubmitTx] holds [inputMu], so no other submission comes between its
  sections; [point], [r] and [nonce] are the random values of the encryption. *)
Definition handleSubmitTx (cfg : NodeConfig) (slotQuery body : bytes) (json : option (option SubmitTxRequest))
    (point : Point GT) (r : coins) (nonce : bytes) (s : slotState) : slotState * Z :=
  match validateRequestedSlotLocked slotQuery s with
  | Some _ => (s, 409)
  | None =>
      if negb (bool_decide (st_phase s = slotPrepared)) then (s, 409)
      else
        match submitRequest cfg (take (Z.to_nat (2 * 2 ^ 20)) body) json with
        | Ok (req, raw) =>
            let index := Z.rem (zlen (st_pending s)) (cfg_BMax cfg) in
            match EncryptTx HashToPoint hkdf aead_Seal (cluster cfg) raw index point r nonce with
            | Ok ct =>
                match marshalCiphertext ct with
                | Ok encoded =>
                    admitPending cfg (mkPlaceholder (hashHex encoded) encoded (req_Gas req) (req_Fee req)
                      (ToLower uni (req_From req)) (req_Nonce req) (req_Kind req)) (zlen raw) s
                | _ => (s, 500)
                end
            | _ => (s, 400)
            end
        | _ => (s, 400)
        end
  end.

(** ** Stepping the common subset *)

Definition collectACSMessagesFrom (cfg : NodeConfig) (slotID : Z) (messages : list (MessageTuple SlotMessage))
  : out (list (Z * WireEnvelope)) :=
  map_out (fun msg =>
    let? _ := classifyACSMessage (Some (TPayload msg)) in
    Ok (To msg, mkEnvelope (self_ID cfg) 0 false kindACS slotID (Some (TPayload msg)) None)) messages.

(** One transition of the slot's state machine under [acsMu]: the envelopes to
  send and the output, if this step decided. *)
Definition stepACS (cfg : NodeConfig) (step : SlotACS (D := unit) -> go (SlotACS (D := unit) * option hberror))
    (s : slotState) : go (slotState * (stepError + list (Z * WireEnvelope) * option (SlotOutput unit))) :=
  let! (slot, err) := step (st_slot s) in
  match err with
  | Some e => Ret (set_slot slot s, inl (StepFailed e))
  | None =>
      let '(messages, slot) := slot_Messages slot in
      match collectACSMessagesFrom cfg (st_id s) messages with
      | Ok sends =>
          let '(output, slot) := slot_Output slot in
          Ret (set_slot slot s, inr (sends, output))
      | Err e => Ret (set_slot slot s, inl (ClassifyFailed e))
      | Crash => Panic
      end
  end.

(** ** The agreed output *)

Fixpoint decodeAcceptedLists (expectedSlot : Z) (batches : list AcceptedBatch) : out (list InclusionList) :=
  match batches with
  | [] => Ok []
  | accepted :: rest =>
      match DecodeList list_Unmarshal (ab_Batch accepted) with
      | inl _ => Err "decode accepted inclusion list"
      | inr l =>
          if negb (list_Slot l =? expectedSlot) then Err "accepted inclusion list has another slot"
          else if negb (OperatorID l =? ab_ProposerID accepted) then
            Err "accepted inclusion list claims another operator"
          else let? ls := decodeAcceptedLists expectedSlot rest in Ok (l :: ls)
      end
  end.

(** The part of [handleACSOutput] before its lock. [order] is the order in
  which Go ranges over the map of unique items. *)
Definition agreedPlan (order : gmap bytes mergeCandidate -> list mergeCandidate) (cfg : NodeConfig)
    (slotID : Z) (batches : list AcceptedBatch) : agreedOutcome :=
  match decodeAcceptedLists slotID batches with
  | Ok lists =>
      let agreed := NewAgreedSet json_list json_agreed slotID lists in
      let merged := Merge uni json_merged order slotID lists (Blockspace cfg) (cfg_BMax cfg) in
      let material := mkMaterialized slotID (agreed_Hash agreed) (merged_Hash merged) (SelectedGas merged)
        (EncryptedHashes (merged_Items merged)) [] [] [] [] in
      match DecodeBatch (cluster cfg) (map Ciphertext (merged_Items merged)) with
      | Ok decodedBatch =>
          if zlen (ciphertexts decodedBatch) =? 0 then EmptySet material
          else
            match PlanDecodedBatch (cluster cfg) decodedBatch with
            | Ok plan => Planned plan material
            | _ => Refused "planning"
            end
      | _ => Refused "decode"
      end
  | _ => Refused "decode"
  end.

(** The section that adopts a plan; [false] when the slot has one or failed. *)
Definition adoptPlan (cfg : NodeConfig) (plan : BatchPlan) (material : MaterializedTransactionSet) (s : slotState)
  : slotState * bool :=
  if st_planned s || bool_decide (is_Some (st_failure s)) then (s, false)
  else
    let s := pruneShareCandidatesLocked plan (set_plan plan s) in
    let s := set_combineAttemptsLeft
      (replicate (length (SubBatches plan)) (MaxCombineAttemptsPerSubBatch cfg)) s in
    (set_planned true (set_material material s), true).

Definition finishEmptyMaterializedSet (cfg : NodeConfig) (material : MaterializedTransactionSet) (n : Node) : Node :=
  let s := n_state n in
  if bool_decide (is_Some (st_result s)) || bool_decide (is_Some (st_failure s)) || st_planned s then n
  else
    let s := set_material material (set_planned true s) in
    let s := set_result (Some (mkResult (st_id s) (self_ID cfg) [] 0 [] material)) s in
    set_completedSlots (n_completedSlots n + 1) (set_state (set_phase slotCompleted s) n).

(** ** Materialization *)

(** Plaintext text, plaintext hash, transaction hash and summary of one result. *)
Definition materializeResult (r : PlaintextResult) : bytes * bytes * bytes * Summary :=
  match res_Err r with
  | Some e => (str "ERROR:" ++ str e, [], [], noSummary)
  | None =>
      let hash := hashHex (Plaintext r) in
      match Parse decodeTx (Plaintext r) with
      | Ok summary => (str "0x" ++ hexEncode (Plaintext r), hash, sum_Hash summary, summary)
      | Err e => (str "ERROR:invalid ethereum transaction:" ++ str e, hash, [], noSummary)
      | Crash => ([], [], [], noSummary)
      end
  end.

Definition materialize (material : MaterializedTransactionSet) (results : list PlaintextResult)
  : MaterializedTransactionSet :=
  let rows := map materializeResult results in
  mkMaterialized (mat_Slot material) (AgreedSetHash material) (MergedSetHash material) (mat_SelectedGas material)
    (mat_EncryptedHashes material) (map (fun row => row.1.1.2) rows) (map (fun row => row.1.2) rows)
    (map (fun row => row.2) rows) (map (fun row => row.1.1.1) rows).

Definition runCombine (cfg : NodeConfig) (attempt : combineAttempt)
  : out (list Z * out (list PlaintextResult)) :=
  CombineSharesBounded RecoverCommit HashToPoint hkdf aead_Open (cluster cfg) (at_plan attempt) (at_shares attempt)
    (mkCombineOptions (MaxCombineAttemptsPerSubBatch cfg) (Some (attemptLimits attempt))).

(** The last section of [tryCombine]. *)
Definition finishCombine (cfg : NodeConfig) (attempt : combineAttempt) (results : list PlaintextResult) (n : Node)
  : Node :=
  let s := set_combineInFlight false (n_state n) in
  match st_result s, st_failure s with
  | None, None =>
      let material := materialize (at_material attempt) results in
      let result := mkResult (st_id s) (self_ID cfg) (hexEncode (plan_BatchID (at_plan attempt))) (zlen results)
        (PlaintextsHex material) material in
      set_completedSlots (n_completedSlots n + 1)
        (set_state (set_phase slotCompleted (set_result (Some result) s)) n)
  | _, _ => set_state s n
  end.

(** [startConsensus] up to the proposal: [true] when the slot starts running. *)
Definition beginSlot (s : slotState) : slotState * bool :=
  let s := set_started true s in
  match st_failure s, st_result s with
  | None, None => (set_phase slotRunning s, true)
  | _, _ => (s, false)
  end.

(** The encoded proposal. *)
Definition makeProposal (cfg : NodeConfig) (s : slotState) : out bytes :=
  let? l := buildInclusionList uni json_list list_Marshal mempoolGet cfg s in
  let l := if OmitProposal (faults cfg) then setListHash json_list (mkList (list_Slot l) (OperatorID l) [] (list_Hash l))
           else l in
  match EncodeList list_Marshal l with
  | inl _ => Err "encode proposal"
  | inr encoded =>
      let? _ := validateProposalBounds (zlen (Items l)) (zlen encoded) cfg in
      Ok encoded
  end.
End Node.
