(* ===== verification/NodeSys.v ===== *)
(** * NodeSys: the goroutines of a node

    Models the control flow of [src/bloc-node/internal/app/node.go] across
    critical sections: [startConsensus], [handleEnvelope], [handleACSOutput],
    [tryCombine], [sendEnvelopeTracked] and slot replacement. A goroutine is
    the rest of what it has to do ([thread]); [runThread] executes it up to the
    end of its next critical section. The system interleaves goroutines in any
    order. Goroutines hold the lifecycle lock for reading while they run, all
    but those that have not begun to send, and replacing the slot takes it for
    writing, so it happens when only such goroutines are left. *)

From S2P Require Import Prelude Order GoStrings Sha256 Kyber Prf Btd Batch Merge Messages Bba Rbc RbcNet Acs AcsLocal SlotAcs Wire NodeState Provider Node.

Inductive thread `{Suite} :=
  | TStart
  | TPropose
  | TFail (reason : string)
  | TEnvelope (env : WireEnvelope)
  | TOutput (out : SlotOutput unit)
  | TShares (plan : BatchPlan) (next : nat)
  | TSharesDone
  | TTry
  | TCombine (attempt : combineAttempt)
  | TRelease (attempt : combineAttempt)
  | TFinish (attempt : combineAttempt) (results : list PlaintextResult)
  | TSend (to : Z) (env : WireEnvelope).

Section NodeSys.
Context `{Suite}.
Context (RecoverCommit : list PubShare -> Z -> Z -> out (Point G1)).
Context (HashToPoint : bytes -> bytes) (uni : bytes -> bytes).
Context (hkdf : bytes -> bytes -> bytes).
Context (aead_Seal : bytes -> bytes -> bytes -> bytes -> bytes).
Context (aead_Open : bytes -> bytes -> bytes -> bytes -> out bytes).
Context (json_list : Z -> Z -> list EncryptedPlaceholder -> bytes).
Context (json_agreed : Z -> list InclusionList -> bytes).
Context (json_merged : Z -> list EncryptedPlaceholder -> Z -> bytes).
Context (list_Marshal : pbInclusionList -> option bytes) (list_Unmarshal : bytes -> option pbInclusionList).
Context (rs_New : Z -> Z -> option Encoder).
Context (Prove : list bytes -> Z -> bytes * list bytes * Z * Z).
Context (VerifyProof : bytes -> list bytes -> Z -> Z -> bool).
Context (gobEncode : bytes -> bytes) (gobDecode : bytes -> option bytes) (gobBody : SlotBlockBody -> option bytes).
Context (decodeTx : bytes -> option ethTx).
Context (mempoolGet : Z -> Z -> out remoteList).
Context (pointSize : Z) (cfg : NodeConfig).

(** What Go leaves open in one section: map iteration orders, the fuel of the
  agreement calls, and the clock. *)
Record choices := mkChoices {
  ch_range : list ProofRequest -> list ProofRequest;
  ch_order : list Z -> list Z;
  ch_merge : gmap bytes mergeCandidate -> list mergeCandidate;
  ch_fuel : nat;
  ch_now : Z
}.

Definition markFailed (ch : choices) (reason : string) (n : Node) : Node := markSlotFailed reason (ch_now ch) n.

(** ** One section of each goroutine *)

(** [stepACS], and what its callers go on with. *)
Definition runStep (step : SlotACS (D := unit) -> go (SlotACS (D := unit) * option hberror))
    (failed : list thread) (n : Node) : go (Node * list thread) :=
  let! (s, res) := stepACS cfg step (n_state n) in
  match res with
  | inl _ => Ret (set_state s n, failed)
  | inr (sends, output) =>
      Ret (set_state s n,
        map (fun te : Z * WireEnvelope => TSend te.1 te.2) sends ++
        match output with
        | Some o => [TOutput o]
        | None => []
        end)
  end.

(** [handleEnvelope] *)
Definition runEnvelope (ch : choices) (env : WireEnvelope) (n : Node) : go (Node * list thread) :=
  let s := n_state n in
  if env_Direct env && negb (env_To env =? self_ID cfg) then Ret (n, [])
  else if negb (env_Slot env =? st_id s) then Ret (n, [])
  else if bool_decide (env_Kind env = kindACS) then
    match env_ACS env with
    | None => Ret (n, [])
    | Some msg =>
        runStep (slot_HandleMessage Prove VerifyProof gobDecode gobBody (ch_range ch) (ch_order ch) (ch_fuel ch)
          (env_From env) (Some msg)) [] n
    end
  else if bool_decide (env_Kind env = kindShare) then
    match env_Share env with
    | None => Ret (n, [])
    | Some share =>
        let '(s, err) := addWireShare pointSize cfg share s in
        Ret (set_state s n, match err with None => [TTry] | Some _ => [] end)
    end
  else Ret (n, []).

(** [handleACSOutput] up to the adoption of the plan. *)
Definition runOutput (ch : choices) (out : SlotOutput unit) (n : Node) : Node * list thread :=
  let s := n_state n in
  if negb (so_Slot out =? st_id s) then (markFailed ch "decode" n, [])
  else
    match agreedPlan uni json_list json_agreed json_merged list_Unmarshal (ch_merge ch) cfg (st_id s)
            (so_OrderedBatches out) with
    | Refused reason => (markFailed ch reason n, [])
    | EmptySet material => (finishEmptyMaterializedSet cfg material n, [])
    | Planned plan material =>
        let '(s, adopted) := adoptPlan cfg plan material s in
        (set_state s n, if adopted then [TShares plan 0] else [])
    end.

(** One round of the loop over the sub-batches: make the share, keep it, and
  send it to the other nodes. *)
Definition runShare (plan : BatchPlan) (next : nat) (n : Node) : go (Node * list thread) :=
  let s := n_state n in
  if (length (SubBatches plan) <=? next)%nat then Ret (n, [TSharesDone])
  else if WithholdShare (faults cfg) then Ret (n, [TShares plan (S next)])
  else
    match MakeShare HashToPoint (cluster cfg) (secret cfg) plan (Z.of_nat next) with
    | Crash => Panic
    | Err _ => Ret (n, [TFail "share"])
    | Ok d =>
        let '(s, err) := addShare cfg d s in
        let n := set_state s n in
        match err with
        | Some _ => Ret (n, [])
        | None =>
            match marshalShare d with
            | Crash => Panic
            | Err _ => Ret (n, [TFail "share"])
            | Ok wire =>
                let wire :=
                  if CorruptShare (faults cfg) then
                    mkWireShare (ws_OperatorID wire) (ws_BatchIDHex wire) (ws_SubBatchID wire) (corruptHex (ws_PointHex wire))
                  else wire in
                let env := mkEnvelope (self_ID cfg) 0 false kindShare (st_id s) None (Some wire) in
                Ret (n, map (fun peer => TSend peer env) (List.filter (fun peer => negb (peer =? self_ID cfg)) (nodeIDs cfg))
                        ++ [TShares plan (S next)])
            end
        end
    end.

(** [tryCombine] from the claim to the recorded attempts. *)
Definition runAttempt (attempt : combineAttempt) (n : Node) : go (Node * list thread) :=
  match runCombine RecoverCommit HashToPoint hkdf aead_Open cfg attempt with
  | Ok (stats, res) =>
      let n := set_state (recordCombineStats stats (n_state n)) n in
      match res with
      | Ok results => Ret (n, [TFinish attempt results])
      | Err _ => Ret (n, [TRelease attempt])
      | Crash => Panic
      end
  | _ => Panic
  end.

(** A goroutine that finds the slot replaced does not send. What it sends is
  recorded by the system. *)
Definition runThread (ch : choices) (t : thread) (n : Node) : go (Node * list thread) :=
  let s := n_state n in
  match t with
  | TStart =>
      if st_started s then Ret (n, [])
      else
        let '(s, begun) := beginSlot s in
        Ret (set_state s n, if begun then [TPropose] else [])
  | TPropose =>
      match makeProposal uni json_list list_Marshal mempoolGet cfg s with
      | Ok encoded =>
          runStep (InputBatch Prove VerifyProof gobEncode gobDecode gobBody (ch_range ch) (ch_order ch) (ch_fuel ch) encoded)
            [TFail "acs"] n
      | Err _ => Ret (n, [TFail "proposal"])
      | Crash => Panic
      end
  | TFail reason => Ret (markFailed ch reason n, [])
  | TEnvelope env => runEnvelope ch env n
  | TOutput out => Ret (runOutput ch out n)
  | TShares plan next => runShare plan next n
  | TSharesDone => Ret (set_state (set_shareGenerationDone true s) n, [TTry])
  | TTry =>
      let '(s, claimed) := claimCombine cfg s in
      Ret (set_state s n, match claimed with Some attempt => [TCombine attempt] | None => [] end)
  | TCombine attempt => runAttempt attempt n
  | TRelease attempt =>
      let '(s, retry) := finishFailedCombine (at_shareVersion attempt) s in
      Ret (set_state s n, if retry then [TTry] else [])
  | TFinish attempt results => Ret (finishCombine decodeTx cfg attempt results n, [])
  | TSend _ _ => Ret (n, [])
  end.

(** What a goroutine hands to the transport. *)
Definition handedOver (n : Node) (t : thread) : list (Z * WireEnvelope) :=
  match t with
  | TSend to env => if env_Slot env =? st_id (n_state n) then [(to, authenticatedOutboundEnvelope (self_ID cfg) to env)] else []
  | _ => []
  end.

(** ** The system *)

Record system := mkSystem {
  sys_node : Node;
  sys_threads : list thread;
  sys_sent : list (Z * WireEnvelope)
}.

(** Goroutines that do not hold the lifecycle lock. *)
Definition waiting (t : thread) : bool :=
  match t with
  | TSend _ _ => true
  | _ => false
  end.

Inductive sys_step : system -> system -> Prop :=
  | step_run ch pre t post n n' new sent :
      runThread ch t n = Ret (n', new) ->
      sys_step (mkSystem n (pre ++ t :: post) sent)
               (mkSystem n' (pre ++ new ++ post) (sent ++ handedOver n t))
  | step_start n threads sent : sys_step (mkSystem n threads sent) (mkSystem n (threads ++ [TStart]) sent)
  | step_receive env n threads sent :
      sys_step (mkSystem n threads sent) (mkSystem n (threads ++ [TEnvelope env]) sent)
  | step_submit slotQuery body json point r nonce n threads sent :
      sys_step (mkSystem n threads sent)
        (mkSystem (set_state (handleSubmitTx HashToPoint uni hkdf aead_Seal list_Marshal cfg slotQuery body json point r
          nonce (n_state n)).1 n) threads sent)
  | step_prepare traceFinalized slotID proposalLimit n n' err threads sent :
      forallb waiting threads = true ->
      prepareSlotWithLimit rs_New cfg traceFinalized slotID proposalLimit n = Ret (n', err) ->
      sys_step (mkSystem n threads sent) (mkSystem n' threads sent).

(** [newNode] *)
Definition sys_init (slotID : Z) (sys : system) : Prop :=
  exists fresh, newSlotStateWithLimit rs_New cfg slotID 0 = Ret fresh /\ sys = mkSystem (mkNode slotID 0 0 fresh) [] [].

Definition sys_reachable (sys : system) : Prop := exists slotID sys0, sys_init slotID sys0 /\ rtc sys_step sys0 sys.

(** ** Running a schedule *)

(** What the environment decides: which goroutine runs, what arrives. *)
Inductive action :=
  | DoRun (k : nat)
  | DoStart
  | DoReceive (env : WireEnvelope)
  | DoSubmit (slotQuery body : bytes) (json : option (option SubmitTxRequest)) (point : Point GT) (r : coins)
      (nonce : bytes)
  | DoPrepare (traceFinalized : bool) (slotID proposalLimit : Z).

Definition exec (ch : choices) (act : action) (sys : system) : option system :=
  let '(mkSystem n threads sent) := sys in
  match act with
  | DoRun k =>
      match threads !! k with
      | None => None
      | Some t =>
          match runThread ch t n with
          | Ret (n', new) =>
              Some (mkSystem n' (take k threads ++ new ++ drop (S k) threads) (sent ++ handedOver n t))
          | _ => None
          end
      end
  | DoStart => Some (mkSystem n (threads ++ [TStart]) sent)
  | DoReceive env => Some (mkSystem n (threads ++ [TEnvelope env]) sent)
  | DoSubmit slotQuery body json point r nonce =>
      Some (mkSystem (set_state (handleSubmitTx HashToPoint uni hkdf aead_Seal list_Marshal cfg slotQuery body json
        point r nonce (n_state n)).1 n) threads sent)
  | DoPrepare traceFinalized slotID proposalLimit =>
      if forallb waiting threads then
        match prepareSlotWithLimit rs_New cfg traceFinalized slotID proposalLimit n with
        | Ret (n', _) => Some (mkSystem n' threads sent)
        | _ => None
        end
      else None
  end.

Fixpoint execAll (ch : choices) (acts : list action) (sys : system) : option system :=
  match acts with
  | [] => Some sys
  | act :: acts =>
      match exec ch act sys with
      | None => None
      | Some sys' => execAll ch acts sys'
      end
  end.

Lemma exec_step ch act sys sys' : exec ch act sys = Some sys' -> sys_step sys sys'.
Proof.
  destruct sys as [n threads sent]. destruct act as [k| |env|sq body json point r nonce|fin slotID limit]; cbn.
  - destruct (threads !! k) as [t|] eqn:Ek; [|done]. destruct (runThread ch t n) as [[n' new]| |] eqn:Er; [|done|done].
    intros [= <-]. rewrite <- (take_drop_middle threads k t Ek) at 1. by econstructor.
  - intros [= <-]. constructor.
  - intros [= <-]. constructor.
  - intros [= <-]. constructor.
  - destruct (forallb waiting threads) eqn:Ew; [|done].
    destruct (prepareSlotWithLimit _ _ _ _ _ _) as [[n' err]| |] eqn:Ep; [|done|done]. intros [= <-]. by econstructor.
Qed.

Lemma execAll_steps ch acts sys sys' : execAll ch acts sys = Some sys' -> rtc sys_step sys sys'.
Proof.
  revert sys. induction acts as [|act acts IH]; intros sys; cbn; [by intros [= <-]|].
  destruct (exec ch act sys) as [sys1|] eqn:E; [|done]. intros H1. eapply rtc_l; [by eapply exec_step|by apply IH].
Qed.
End NodeSys.
