(* ===== verification/NodeLaws.v ===== *)
(** * NodeLaws: the share store and the reconstruction budget

    What the critical sections of [NodeState] and [Node] keep: every retained
    share is a well-formed share of a configured operator and, once a plan is
    adopted, of that plan; the first share of an operator for a sub-batch
    stays; the number of retained shares is bounded; the attempts spent never
    exceed the budget. *)

From S2P Require Import Prelude Order GoStrings Sha256 Messages Acs SlotAcs SlotLaws Merge Kyber Prf Btd Batch BatchLaws Wire NodeState Provider Node.

Section NodeLaws.
Context `{Suite}.

(** What a generated configuration satisfies: distinct operators 0..N-1, this
  node among them, positive limits, and the cluster parameters of the
  encryption layer. *)
Record config_ok (cfg : NodeConfig) : Prop := {
  ids_NoDup : NoDup (nodeIDs cfg);
  ids_range : forall i, i ∈ nodeIDs cfg -> 0 <= i < cfg_N cfg;
  ids_word : cfg_N cfg <= 2 ^ 32;
  self_listed : self_ID cfg ∈ nodeIDs cfg;
  secret_own : sk_OperatorID (secret cfg) = self_ID cfg;
  bmax_pos : 0 <= cfg_BMax cfg;
  attempts_pos : 1 <= MaxCombineAttemptsPerSubBatch cfg;
  cluster_N : btd_N (cl_btd (cluster cfg)) = cfg_N cfg;
  cluster_T : btd_T (cl_btd (cluster cfg)) = cfg_Threshold cfg
}.

Context (cfg : NodeConfig) (Hcfg : config_ok cfg).

Lemma size_peers : zsize (peers cfg) <= cfg_N cfg.
Proof.
  assert (0 <= cfg_N cfg) by (pose proof (ids_range _ Hcfg _ (self_listed _ Hcfg)); lia).
  unfold peers. rewrite size_list_to_set by apply (ids_NoDup _ Hcfg).
  assert (length (nodeIDs cfg) <= length (seqZ 0 (cfg_N cfg)))%nat as Hl; [|rewrite length_seqZ in Hl; lia].
  apply submseteq_length, NoDup_submseteq; [apply (ids_NoDup _ Hcfg)|].
  intros i Hi%(ids_range _ Hcfg). apply elem_of_seqZ. lia.
Qed.

Lemma configured_listed op :
  configuredOperator cfg op = true -> op < 2 ^ 32 -> 0 <= op /\ op ∈ nodeIDs cfg.
Proof.
  unfold configuredOperator, peers. rewrite andb_true_iff, bool_decide_eq_true, elem_of_list_to_set.
  intros [Hin Hneg] Hlt. rewrite u64_small in Hin by lia. split; [lia|done].
Qed.

(** ** Well-formed stores *)

Record retained_ok (limit op : Z) (batchID : bytes) (sub : Z) (r : retainedShare) : Prop := {
  ro_sub : 0 <= sub < limit;
  ro_operator : d_OperatorID (ret_value r) = op;
  ro_subID : d_SubBatchID (ret_value r) = sub;
  ro_batch : d_BatchID (ret_value r) = batchID;
  ro_share : exists share, d_Share (ret_value r) = Some share /\ pub_I share = op /\
    MarshalPoint (pub_V share) = Ok (ret_encoded r)
}.

Record operator_ok (limit op : Z) (c : operatorShareCandidates) : Prop := {
  oo_listed : 0 <= op /\ op ∈ nodeIDs cfg;
  oo_set : oc_batchSet c = true;
  oo_shares : forall sub r, oc_shares c !! sub = Some r -> retained_ok limit op (oc_batchID c) sub r
}.

Definition store_ok (limit : Z) (store : gmap Z operatorShareCandidates) : Prop :=
  map_Forall (operator_ok limit) store.

(** The operators whose shares belong to a plan. *)
Definition for_plan (plan : BatchPlan) (store : gmap Z operatorShareCandidates) : Prop :=
  store_ok (zlen (SubBatches plan)) store /\ map_Forall (fun _ c => oc_batchID c = plan_BatchID plan) store.

(** A share that passed the checks of [addShare] before the lock. *)
Record checked (d : DecryptionShare) (encoded : bytes) : Prop := {
  ck_listed : 0 <= d_OperatorID d /\ d_OperatorID d ∈ nodeIDs cfg;
  ck_sub : 0 <= d_SubBatchID d < cfg_BMax cfg;
  ck_share : exists share, d_Share d = Some share /\ pub_I share = d_OperatorID d /\
    MarshalPoint (pub_V share) = Ok encoded
}.

(** ** Counting *)

Lemma shares_size limit op c : 0 <= limit -> operator_ok limit op c -> zsize (oc_shares c) <= limit.
Proof.
  intros Hl [_ _ Hs].
  assert (dom (oc_shares c) ⊆ list_to_set (seqZ 0 limit)) as Hsub.
  { intros sub [r Hr]%elem_of_dom. apply elem_of_list_to_set, elem_of_seqZ. destruct (Hs _ _ Hr). lia. }
  apply subseteq_size in Hsub. rewrite size_dom in Hsub.
  rewrite size_list_to_set, length_seqZ in Hsub by apply NoDup_seqZ. lia.
Qed.

Lemma count_size (store : gmap Z operatorShareCandidates) k :
  map_Forall (fun _ c => zsize (oc_shares c) <= k) store ->
  0 <= retainedShareCountLocked store <= zsize store * k.
Proof.
  unfold retainedShareCountLocked. induction store as [|op c store Hop IH] using map_ind.
  - intros _. rewrite map_fold_empty, map_size_empty. lia.
  - intros [Hc Hs]%map_Forall_insert; [|done]. rewrite map_fold_insert_L, map_size_insert_None by (done || lia).
    specialize (IH Hs). lia.
Qed.

Lemma store_count limit store :
  0 <= limit -> store_ok limit store -> retainedShareCountLocked store <= cfg_N cfg * limit.
Proof.
  intros Hl Hok.
  assert (retainedShareCountLocked store <= zsize store * limit) as Hc.
  { apply count_size. intros op c Hc. by apply (shares_size limit op), Hok. }
  assert (zsize store <= zsize (peers cfg)) as Hsz.
  { rewrite <- size_dom. apply inj_le, subseteq_size. intros op [c Hop]%elem_of_dom.
    apply elem_of_list_to_set. by destruct (Hok _ _ Hop) as [[_ ?] _ _]. }
  pose proof size_peers. nia.
Qed.

(** ** Adding a share *)

(** Sections that only touch the store, its version and the share counters. *)
Definition share_update (s s' : slotState) : Prop :=
  exists X V M, s' = set_metrics M (set_shareVersion V (set_shareCandidates X s)) /\
    ShareSubsetAttempts M = ShareSubsetAttempts (st_metrics s).

Lemma share_update_refl s : share_update s s.
Proof.
  exists (st_shareCandidates s), (st_shareVersion s), (st_metrics s). by destruct s.
Qed.

Lemma share_update_reject s : share_update s (recordShareRejectedLocked s).
Proof.
  eexists (st_shareCandidates s), (st_shareVersion s), _. by destruct s.
Qed.

(** The store holds this share, and the shares it held before. *)
Definition holds (store : gmap Z operatorShareCandidates) (op sub : Z) (encoded : bytes) : Prop :=
  exists c r, store !! op = Some c /\ oc_shares c !! sub = Some r /\ ret_encoded r = encoded.

Definition keeps_shares (store store' : gmap Z operatorShareCandidates) : Prop :=
  forall op c sub r, store !! op = Some c -> oc_shares c !! sub = Some r ->
    exists c', store' !! op = Some c' /\ oc_shares c' !! sub = Some r.

Lemma keeps_refl store : keeps_shares store store.
Proof. intros op c sub r Hop Hr. by exists c. Qed.

(** A retained share extends the operator's row. *)
Lemma retained_row limit store d encoded :
  let op := d_OperatorID d in
  let c := default (mkCandidates [] false ∅) (store !! op) in
  let kept := mkCandidates (d_BatchID d) true (<[d_SubBatchID d := mkRetained d encoded]> (oc_shares c)) in
  store_ok limit store -> checked d encoded -> d_SubBatchID d < limit ->
  (oc_batchSet c = true -> oc_batchID c = d_BatchID d) ->
  store_ok limit (<[op := kept]> store).
Proof.
  intros op c kept Hok [Hl Hs Hsh] Hlim Hb. apply map_Forall_insert_2; [|done].
  split; cbn; [done..|]. intros sub r. rewrite lookup_insert_Some. intros [[<- <-]|[_ Hr]].
  - split; cbn; try done. lia.
  - unfold c in *. destruct (store !! op) as [c0|] eqn:E; cbn in *; [|by rewrite lookup_empty in Hr].
    destruct (Hok _ _ E) as [_ Hset Hrows]. specialize (Hb Hset). rewrite <- Hb. by apply Hrows.
Qed.

(** What adding a checked share does. *)
Record retain_post (op sub : Z) (encoded : bytes) (s s' : slotState) (err : option string) : Prop := {
  rp_update : share_update s s';
  rp_store : store_ok (cfg_BMax cfg) (st_shareCandidates s');
  rp_capacity : err <> Some "capacity"%string;
  rp_keeps : keeps_shares (st_shareCandidates s) (st_shareCandidates s');
  rp_holds : err = None -> holds (st_shareCandidates s') op sub encoded;
  rp_plan : st_planned s = true -> for_plan (st_plan s) (st_shareCandidates s) ->
    for_plan (st_plan s) (st_shareCandidates s')
}.

Lemma reject_post reason op sub encoded s :
  store_ok (cfg_BMax cfg) (st_shareCandidates s) -> reason <> "capacity"%string ->
  retain_post op sub encoded s (recordShareRejectedLocked s) (Some reason).
Proof.
  intros Hok Hne. split; try done; [apply share_update_reject|by intros [= ->]|apply keeps_refl].
Qed.

Lemma set_same_candidates op c s :
  st_shareCandidates s !! op = Some c ->
  set_shareCandidates (<[op := c]> (st_shareCandidates s)) s = s.
Proof. intros Hc. rewrite insert_id by done. by destruct s. Qed.

Lemma retainShare_spec d encoded s s' err :
  checked d encoded -> store_ok (cfg_BMax cfg) (st_shareCandidates s) ->
  retainShare cfg d encoded s = (s', err) ->
  retain_post (d_OperatorID d) (d_SubBatchID d) encoded s s' err.
Proof.
  intros Hck Hok. unfold retainShare, rejectShare.
  destruct (st_planned s && negb (bool_decide (d_BatchID d = plan_BatchID (st_plan s)))) eqn:Eb.
  { intros [= <- <-]. by apply reject_post. }
  destruct (st_planned s && (zlen (SubBatches (st_plan s)) <=? d_SubBatchID d)) eqn:Esub.
  { intros [= <- <-]. by apply reject_post. }
  set (op := d_OperatorID d). set (c := default (mkCandidates [] false ∅) (st_shareCandidates s !! op)).
  destruct (oc_batchSet c && negb (bool_decide (oc_batchID c = d_BatchID d))) eqn:Eset.
  { intros [= <- <-]. rewrite (set_same_candidates op c); [by apply reject_post|].
    unfold c in *. by destruct (st_shareCandidates s !! op). }
  destruct (oc_shares c !! d_SubBatchID d) as [existing|] eqn:Eex.
  { assert (st_shareCandidates s !! op = Some c) as Hc.
    { unfold c in *. destruct (st_shareCandidates s !! op); [done|]. cbn in Eex. by rewrite lookup_empty in Eex. }
    rewrite (set_same_candidates op c) by done.
    destruct (bool_decide_reflect (ret_encoded existing = encoded)) as [He|He]; intros [= <- <-]; [|by apply reject_post].
    split; try done; [apply share_update_refl|apply keeps_refl|]. intros _. by exists c, existing. }
  set (kept := mkCandidates (d_BatchID d) true (<[d_SubBatchID d := mkRetained d encoded]> (oc_shares c))).
  assert (oc_batchSet c = true -> oc_batchID c = d_BatchID d) as Hb.
  { intros Hs. rewrite Hs in Eset. by destruct (bool_decide_reflect (oc_batchID c = d_BatchID d)). }
  pose proof (ck_sub _ _ Hck) as Hsub. pose proof (bmax_pos _ Hcfg) as Hbm.
  assert (store_ok (cfg_BMax cfg) (<[op := kept]> (st_shareCandidates s))) as Hkept
    by (apply retained_row; done || lia).
  cbn [st_shareCandidates set_shareCandidates]. rewrite insert_insert_eq.
  pose proof (store_count _ _ Hbm Hkept) as Hcount.
  destruct (Z.ltb_spec (cfg_N cfg * cfg_BMax cfg) (retainedShareCountLocked (<[op := kept]> (st_shareCandidates s)))); [lia|].
  intros [= <- <-]. split; cbn; try done.
  - eexists (<[op := kept]> (st_shareCandidates s)), _, _. split; [by destruct s|]. by destruct (_ =? _).
  - intros op' c' sub r Hop Hr. destruct (decide (op' = op)) as [->|Hne].
    + exists kept. rewrite lookup_insert_eq. split; [done|]. cbn. unfold c in *. rewrite Hop in Eex |- *. cbn in Eex |- *.
      rewrite lookup_insert_ne; [done|]. intros <-. congruence.
    + exists c'. by rewrite lookup_insert_ne.
  - intros _. exists kept, (mkRetained d encoded). rewrite lookup_insert_eq. cbn. by rewrite lookup_insert_eq.
  - intros Hp [Hst Hall]. rewrite Hp in Eb, Esub. cbn in Eb, Esub.
    destruct (bool_decide_reflect (d_BatchID d = plan_BatchID (st_plan s))) as [Hid|]; [|done].
    split; [apply retained_row; done || lia|]. by apply map_Forall_insert_2.
Qed.

(** [addShare]: refused before the lock, or retained. *)
Lemma addShare_spec d s s' err :
  d_OperatorID d < 2 ^ 32 -> store_ok (cfg_BMax cfg) (st_shareCandidates s) ->
  addShare cfg d s = (s', err) ->
  (exists encoded, retain_post (d_OperatorID d) (d_SubBatchID d) encoded s s' err /\
    (err = None -> checked d encoded)).
Proof.
  intros Hop Hok. unfold addShare, rejectShare.
  assert (forall reason, reason <> "capacity"%string -> (recordShareRejectedLocked s, Some reason) = (s', err) ->
    exists encoded, retain_post (d_OperatorID d) (d_SubBatchID d) encoded s s' err /\
      (err = None -> checked d encoded)) as Hrej.
  { intros reason Hne [= <- <-]. exists []. split; [by apply reject_post|done]. }
  destruct (configuredOperator cfg (d_OperatorID d)) eqn:Ec; cbn [negb]; [|by apply Hrej].
  destruct (d_Share d) as [share|] eqn:Es; [|by apply Hrej].
  destruct (Z.eqb_spec (pub_I share) (d_OperatorID d)) as [Hi|]; cbn [negb]; [|by apply Hrej].
  destruct ((d_SubBatchID d <? 0) || (cfg_BMax cfg <=? d_SubBatchID d)) eqn:Eb; [by apply Hrej|].
  destruct (MarshalPoint (pub_V share)) as [encoded| |] eqn:Em; [|by apply Hrej..].
  intros Hr. assert (checked d encoded) as Hck.
  { split; [by apply configured_listed|lia|by exists share]. }
  exists encoded. split; [by apply retainShare_spec|done].
Qed.

Lemma addWireShare_spec pointSize w s s' err :
  store_ok (cfg_BMax cfg) (st_shareCandidates s) ->
  addWireShare pointSize cfg w s = (s', err) ->
  exists encoded, retain_post (ws_OperatorID w) (ws_SubBatchID w) encoded s s' err.
Proof.
  intros Hok. unfold addWireShare, rejectShare.
  assert (forall reason, reason <> "capacity"%string -> (recordShareRejectedLocked s, Some reason) = (s', err) ->
    exists encoded, retain_post (ws_OperatorID w) (ws_SubBatchID w) encoded s s' err) as Hrej.
  { intros reason Hne [= <- <-]. exists []. by apply reject_post. }
  destruct (configuredOperator cfg (ws_OperatorID w)) eqn:Ec; cbn [negb]; [|by apply Hrej].
  destruct (zlen (ws_BatchIDHex w) =? 64); cbn [negb]; [|by apply Hrej].
  destruct (hexDecode (ws_BatchIDHex w)) as [batchID|]; [|by apply Hrej].
  destruct ((ws_SubBatchID w <? 0) || (cfg_BMax cfg <=? ws_SubBatchID w)) eqn:Eb; [by apply Hrej|].
  destruct (zlen (ws_PointHex w) =? pointSize * 2); cbn [negb]; [|by apply Hrej].
  destruct (unmarshalPointHex (ws_PointHex w)) as [point| |]; [|by apply Hrej..].
  destruct (decide (ws_OperatorID w < 2 ^ 32)) as [Hlt|Hge].
  - intros Ha. apply addShare_spec in Ha as (encoded & Hp & _); [by exists encoded|done|done].
  - unfold addShare. cbn [d_OperatorID d_Share pub_I]. rewrite Ec. cbn [negb].
    assert (u32 (ws_OperatorID w) =? ws_OperatorID w = false) as ->; [|by apply Hrej].
    apply Z.eqb_neq. unfold u32. pose proof (Z.mod_pos_bound (ws_OperatorID w) (2 ^ 32)). lia.
Qed.

(** ** Adopting a plan *)

Lemma prune_for_plan plan store :
  store_ok (cfg_BMax cfg) store -> for_plan plan (omap (pruneOperator plan) store) /\
  store_ok (cfg_BMax cfg) (omap (pruneOperator plan) store).
Proof.
  intros Hok.
  assert (forall op c', omap (pruneOperator plan) store !! op = Some c' -> exists c,
    operator_ok (cfg_BMax cfg) op c /\ oc_batchID c = plan_BatchID plan /\
    c' = mkCandidates (oc_batchID c) (oc_batchSet c) (filter (fun kv => 0 <= kv.1 < zlen (SubBatches plan)) (oc_shares c))) as Hrow.
  { intros op c'. rewrite lookup_omap_Some. intros (c & Hc & Hop). apply Hok in Hop. exists c.
    unfold pruneOperator in Hc. destruct (_ || _) eqn:E; [done|]. injection Hc as <-.
    apply orb_false_iff in E as [_ E]. split_and!; [done| |done].
    by destruct (bool_decide_reflect (oc_batchID c = plan_BatchID plan)). }
  assert (forall limit, (forall sub, 0 <= sub < cfg_BMax cfg -> 0 <= sub < zlen (SubBatches plan) -> 0 <= sub < limit) ->
    store_ok limit (omap (pruneOperator plan) store)) as Hstore.
  { intros limit Hlim op c' Hop. destruct (Hrow _ _ Hop) as (c & [Hl Hset Hsh] & _ & ->). split; cbn; [done..|].
    intros sub r [Hr Hin]%map_lookup_filter_Some. cbn in Hin. destruct (Hsh _ _ Hr). split; try done. by apply Hlim. }
  split; [split|].
  - apply Hstore. lia.
  - intros op c' Hop. destruct (Hrow _ _ Hop) as (c & _ & Hb & ->). done.
  - apply Hstore. lia.
Qed.

(** ** The snapshot of a reconstruction attempt *)

Lemma operatorShares_spec limit op c :
  operator_ok limit op c ->
  NoDup (map d_SubBatchID (operatorShares c)) /\
  (forall d, d ∈ operatorShares c <-> exists sub r, oc_shares c !! sub = Some r /\ ret_value r = d).
Proof.
  intros [_ _ Hsh]. unfold operatorShares. set (keys := sortedIDs _).
  assert (NoDup keys) as Hnd.
  { apply (NoDup_perm _ _ (sortedIDs_Permutation _)), NoDup_fst_map_to_list. }
  assert (forall sub, sub ∈ keys <-> is_Some (oc_shares c !! sub)) as Hkeys.
  { intros sub. unfold keys. rewrite (elem_perm _ _ sub (sortedIDs_Permutation _)).
    rewrite list_elem_of_fmap. split.
    - intros ([k r] & -> & Hin%elem_of_map_to_list). by exists r.
    - intros [r Hr]. exists (sub, r). by rewrite elem_of_map_to_list. }
  split.
  - assert (map d_SubBatchID (omap (fun sub => ret_value <$> oc_shares c !! sub) keys) = keys) as ->; [|done].
    assert (forall sub, sub ∈ keys -> is_Some (oc_shares c !! sub)) as Hin by (intros sub; apply Hkeys).
    clear Hkeys Hnd. induction keys as [|sub keys IH]; [done|]. cbn [omap list_omap].
    destruct (Hin sub ltac:(by left)) as [r Hr]. rewrite Hr. cbn. f_equal; [apply (Hsh _ _ Hr)|].
    apply IH. intros sub' Hs. apply Hin. by right.
  - intros d. rewrite list_elem_of_omap. split.
    + intros (sub & _ & Hd). destruct (oc_shares c !! sub) as [r|] eqn:E; [|done]. injection Hd as <-. by exists sub, r.
    + intros (sub & r & Hr & <-). exists sub. rewrite Hr. split; [|done]. apply Hkeys. by exists r.
Qed.
(** Rows with keys of their own, one after the other. *)
Lemma NoDup_rows {A} (key : A -> Z * Z) (f : Z -> list A) ids :
  NoDup ids -> (forall i, i ∈ ids -> NoDup (map key (f i)) /\ forall x, x ∈ f i -> (key x).2 = i) ->
  NoDup (map key (concat (map f ids))).
Proof.
  induction ids as [|i ids IH]; intros Hnd Hf; [constructor|]. apply NoDup_cons in Hnd as [Hi Hnd].
  cbn [map concat]. rewrite map_app. apply NoDup_app. split_and!.
  - by apply Hf; left.
  - intros k Hk Hk'. apply list_elem_of_fmap in Hk as (x & -> & Hx). apply list_elem_of_fmap in Hk' as (y & Hxy & Hy).
    apply list_elem_of_In, in_concat in Hy as (l & Hl & Hy). apply in_map_iff in Hl as (j & <- & Hj).
    apply list_elem_of_In in Hy, Hj. apply Hi.
    assert ((key x).2 = i) as Ex by (apply (Hf i); [by left|done]).
    assert ((key y).2 = j) as Ey by (apply (Hf j); [by right|done]). congruence.
  - apply IH; [done|]. intros j Hj. apply Hf. by right.
Qed.

Section Snapshot.
Context (plan : BatchPlan) (s : slotState).
Hypothesis Hplan : for_plan plan (st_shareCandidates s).

Abbreviation row operatorID :=
  (match st_shareCandidates s !! i64 operatorID with
   | None => []
   | Some c => operatorShares c
   end).

Lemma node_int i : i ∈ nodeIDs cfg -> i64 i = i.
Proof. intros Hi%(ids_range _ Hcfg). pose proof (ids_word _ Hcfg). apply i64_small. lia. Qed.

Lemma row_spec i d : i ∈ nodeIDs cfg -> d ∈ row i ->
  wellFormed (cluster cfg) plan d /\ (shareKey d).2 = i.
Proof.
  intros Hi. rewrite node_int by done. destruct (st_shareCandidates s !! i) as [c|] eqn:E; [|by intros ?%elem_of_nil].
  destruct Hplan as [Hok Hb]. pose proof (Hok _ _ E) as Hc.
  intros (sub & r & Hr & <-)%(proj2 (operatorShares_spec _ _ _ Hc)).
  destruct (oo_shares _ _ _ Hc _ _ Hr) as [Hsub Hop HsubID Hbatch (sh & Hsh & Hpub & _)].
  pose proof (ids_range _ Hcfg _ Hi). split; [|by cbn; rewrite Hop].
  unfold wellFormed. rewrite HsubID, Hop, (cluster_N _ Hcfg). split_and!; [|lia|lia|lia|lia|by exists sh].
  rewrite Hbatch. by apply (Hb i).
Qed.

Lemma retained_wellFormed : Forall (wellFormed (cluster cfg) plan) (retainedSharesLocked cfg s).
Proof.
  apply Forall_forall. intros d Hd. unfold retainedSharesLocked in Hd.
  apply list_elem_of_In, in_concat in Hd as (l & Hl & Hd). apply in_map_iff in Hl as (i & <- & Hi).
  apply list_elem_of_In in Hi, Hd. by apply (row_spec i).
Qed.

Lemma retained_keys : NoDup (map shareKey (retainedSharesLocked cfg s)).
Proof.
  apply (NoDup_rows shareKey (fun operatorID => row operatorID)); [apply (ids_NoDup _ Hcfg)|].
  intros i Hi. split; [|intros d Hd; by apply row_spec]. rewrite node_int by done.
  destruct (st_shareCandidates s !! i) as [c|] eqn:E; [|constructor].
  destruct (operatorShares_spec _ _ _ (proj1 Hplan _ _ E)) as [Hnd _].
  apply (NoDup_fmap_1 fst). by rewrite <- list_fmap_compose.
Qed.

Lemma operators_counted sub ds : zsize (operatorsFor ds sub) <= countFor sub ds.
Proof.
  unfold operatorsFor, countFor.
  assert (forall l : list Z, (size (list_to_set l : gset Z) <= length l)%nat) as Hle.
  { intros l. induction l as [|x l IH]; [done|]. cbn [list_to_set length].
    pose proof (size_union_le {[x]} (list_to_set l)). rewrite size_singleton in *. lia. }
  pose proof (Hle (map d_OperatorID (filter (fun d => d_SubBatchID d = sub) ds))) as Hs.
  rewrite length_map in Hs.
  assert (length (filter (fun d => d_SubBatchID d = sub) ds) =
    length (List.filter (fun d => d_SubBatchID d =? sub) ds)) as El; [|lia].
  clear. induction ds as [|d ds IH]; [done|]. rewrite filter_cons. cbn [List.filter].
  destruct (decide (d_SubBatchID d = sub)), (Z.eqb_spec (d_SubBatchID d) sub); cbn; lia.
Qed.

(** Shares that pass the validation of [CombineSharesBounded] and suffice for
  every sub-batch of the plan. *)
Definition accepted_shares (ds : list DecryptionShare) : Prop :=
  exists seen bySub, fold_out (acceptShare (cluster cfg) plan) ds (∅, ∅) = Ok (seen, bySub) /\
    forall sub, 0 <= sub < zlen (SubBatches plan) -> btd_T (cl_btd (cluster cfg)) <= zlen (default [] (bySub !! sub)).

Lemma retained_accepted :
  hasThresholdPerSubBatch (retainedSharesLocked cfg s) plan (cfg_Threshold cfg) = true ->
  accepted_shares (retainedSharesLocked cfg s).
Proof.
  intros Hth. pose proof retained_wellFormed as Hwf.
  destruct (acceptShares (cluster cfg) plan _ ∅ ∅ Hwf retained_keys ltac:(intros d _; apply not_elem_of_empty))
    as (seen & bySub & Hacc & Hby).
  exists seen, bySub. split; [exact Hacc|]. intros sub Hsub.
  rewrite Hby, lookup_empty. cbn [default app]. rewrite (sharesFor_length (cluster cfg) plan) by done.
  unfold hasThresholdPerSubBatch in Hth. rewrite forallb_forall in Hth.
  specialize (Hth (Z.to_nat sub)). rewrite in_seq, Z2Nat.id in Hth by lia. specialize (Hth ltac:(lia)).
  pose proof (operators_counted sub (retainedSharesLocked cfg s)). rewrite (cluster_T _ Hcfg).
  destruct (Z.ltb_spec (zsize (operatorsFor (retainedSharesLocked cfg s) sub)) (cfg_Threshold cfg)); [done|lia].
Qed.
End Snapshot.
End NodeLaws.
