(* ===== verification/NodeInv.v ===== *)
(** * NodeInv: the invariant of a node's goroutines

    For every section of every goroutine: the slot's life cycle, its share
    store, its attempt budget and the single reconstruction in flight stay
    consistent, and what the slot has reached stays reached. *)

From S2P Require Import Prelude Order GoStrings Sha256 Messages Bba Rbc RbcNet Acs AcsLocal SlotAcs Merge Kyber Prf Btd Batch BatchLaws Wire NodeState Provider Node NodeSys NodeLaws.

Fixpoint sumZ (l : list Z) : Z :=
  match l with
  | [] => 0
  | x :: l' => x + sumZ l'
  end.

Lemma fold_add l m : fold_left Z.add l m = m + sumZ l.
Proof. revert m. induction l as [|x l IH]; intros m; cbn; [lia|]. rewrite IH. lia. Qed.

(** Spending attempts within the limits needs no clamping. *)
Lemma spendAll_within stats lefts :
  within stats lefts ->
  sumZ (spendAll lefts stats) + sumZ stats = sumZ lefts /\ length (spendAll lefts stats) = length lefts /\
  forall max, Forall (fun l => 0 <= l <= max) lefts -> Forall (fun l => 0 <= l <= max) (spendAll lefts stats).
Proof.
  induction 1 as [|tries left stats lefts Hle _ (IH1 & IH2 & IH3)]; cbn; [done|].
  unfold spendAttempts. destruct (Z.ltb_spec (left - tries) 0); [lia|]. split_and!; [lia|lia|].
  intros max [Hl Hall]%Forall_cons. constructor; [lia|by apply IH3].
Qed.

Section NodeInv.
Context `{Suite}.
Context (RecoverCommit : list PubShare -> Z -> Z -> out (Point G1)).
Context (HashToPoint : bytes -> bytes) (uni : bytes -> bytes).
Context (hkdf : bytes -> bytes -> bytes).
Context (aead_Seal : bytes -> bytes -> bytes -> bytes -> bytes).
Context (aead_Open : bytes -> bytes -> bytes -> bytes -> out bytes).
Context (json_list : Z -> Z -> list EncryptedPlaceholder -> bytes).
Context (json_agreed : Z -> list InclusionList -> bytes).
Context (json_merged : Z -> list EncryptedPlaceholder -> Z -> bytes).
Context (list_Marshal : pbInclusionList -> option bytes) (list_Unmarshal : bytes -> option pbInclusionList).
Context (rs_New : Z -> Z -> option Encoder).
Context (Prove : list bytes -> Z -> bytes * list bytes * Z * Z).
Context (VerifyProof : bytes -> list bytes -> Z -> Z -> bool).
Context (gobEncode : bytes -> bytes) (gobDecode : bytes -> option bytes) (gobBody : SlotBlockBody -> option bytes).
Context (decodeTx : bytes -> option ethTx).
Context (mempoolGet : Z -> Z -> out remoteList).
Context (pointSize : Z) (cfg : NodeConfig) (Hcfg : config_ok cfg).

Abbreviation run := (runThread RecoverCommit HashToPoint uni hkdf aead_Open json_list json_agreed json_merged
  list_Marshal list_Unmarshal Prove VerifyProof gobEncode gobDecode gobBody decodeTx mempoolGet pointSize cfg).
Abbreviation max := (MaxCombineAttemptsPerSubBatch cfg).

(** ** The invariant *)

(** Result, failure and phase go together. *)
Definition lifecycle (s : slotState) : Prop :=
  match st_result s, st_failure s with
  | Some r, None => st_phase s = slotCompleted /\ st_planned s = true /\ res_Slot r = st_id s
  | None, Some f => st_phase s = slotFailed /\ fail_Slot f = st_id s
  | None, None => st_phase s = slotPrepared \/ st_phase s = slotRunning
  | Some _, Some _ => False
  end.

(** Attempts left and spent make up the budget. *)
Record budget (s : slotState) : Prop := {
  bu_length : length (st_combineAttemptsLeft s) = length (SubBatches (st_plan s));
  bu_range : Forall (fun l => 0 <= l <= max) (st_combineAttemptsLeft s);
  bu_sum : ShareSubsetAttempts (st_metrics s) + sumZ (st_combineAttemptsLeft s) =
    max * zlen (st_combineAttemptsLeft s)
}.

Record slot_ok (s : slotState) : Prop := {
  so_lifecycle : lifecycle s;
  so_store : store_ok cfg (cfg_BMax cfg) (st_shareCandidates s);
  so_plan : st_planned s = true -> SubBatches (st_plan s) = [] \/ for_plan cfg (st_plan s) (st_shareCandidates s);
  so_unplanned : st_planned s = false -> SubBatches (st_plan s) = [];
  so_budget : budget s
}.

(** A reconstruction in progress works on the slot's plan. *)
Definition attempt_ok (s : slotState) (a : combineAttempt) : Prop :=
  st_planned s = true /\ at_plan a = st_plan s /\ at_material a = st_material s.

Definition thread_ok (s : slotState) (t : thread) : Prop :=
  match t with
  | TCombine a =>
      attempt_ok s a /\ attemptLimits a = st_combineAttemptsLeft s /\
      Forall (fun l => 1 <= l) (attemptLimits a) /\
      (SubBatches (st_plan s) = [] \/ accepted_shares cfg (at_plan a) (at_shares a))
  | TRelease a | TFinish a _ => attempt_ok s a
  | _ => True
  end.

(** Goroutines that hold the reconstruction claim. *)
Definition combining (t : thread) : nat :=
  match t with
  | TCombine _ | TRelease _ | TFinish _ _ => 1
  | _ => 0
  end.

Definition combiningAll (ts : list thread) : nat := list_sum (map combining ts).

Definition inFlight (s : slotState) : nat := if st_combineInFlight s then 1 else 0.

(** ** What stays *)

Definition reached {A : Type} (o : option A) : Z := match o with Some _ => 1 | None => 0 end.

(** Within one slot: plan, material, result and failure stay once they are
  there, and the counters follow. *)
Record kept (n n' : Node) : Prop := {
  kp_id : st_id (n_state n') = st_id (n_state n);
  kp_last : n_lastSlot n' = n_lastSlot n;
  kp_plan : st_planned (n_state n) = true ->
    st_planned (n_state n') = true /\ st_plan (n_state n') = st_plan (n_state n) /\
    st_material (n_state n') = st_material (n_state n);
  kp_result : forall r, st_result (n_state n) = Some r -> st_result (n_state n') = Some r;
  kp_failure : forall f, st_failure (n_state n) = Some f -> st_failure (n_state n') = Some f;
  kp_completed : n_completedSlots n' - reached (st_result (n_state n')) = n_completedSlots n - reached (st_result (n_state n));
  kp_failed : n_failedSlots n' - reached (st_failure (n_state n')) = n_failedSlots n - reached (st_failure (n_state n))
}.

Lemma kept_refl n : kept n n.
Proof. by split. Qed.

Lemma kept_trans n1 n2 n3 : kept n1 n2 -> kept n2 n3 -> kept n1 n3.
Proof.
  intros [I1 L1 P1 R1 F1 C1 D1] [I2 L2 P2 R2 F2 C2 D2]. split.
  - congruence.
  - congruence.
  - intros Hp. destruct (P1 Hp) as (Hp2 & E1 & E2). destruct (P2 Hp2) as (? & E3 & E4). split_and!; congruence.
  - intros r Hr. by apply R2, R1.
  - intros f Hf. by apply F2, F1.
  - lia.
  - lia.
Qed.

(** The outcome of a section of goroutine [t]. *)
Record sound (t : thread) (n n' : Node) (new : list thread) : Prop := {
  sd_slot : slot_ok (n_state n');
  sd_threads : Forall (thread_ok (n_state n')) new;
  sd_kept : kept n n';
  sd_left : st_planned (n_state n) = true -> combining t = 0%nat ->
    st_combineAttemptsLeft (n_state n') = st_combineAttemptsLeft (n_state n);
  sd_flight : (inFlight (n_state n') + combining t = inFlight (n_state n) + combiningAll new)%nat
}.

(** The fields the invariant looks at. *)
Definition core (s : slotState) :=
  (st_id s, st_phase s, st_plan s, st_material s, st_planned s, st_combineInFlight s,
   (st_shareCandidates s, st_combineAttemptsLeft s, st_result s, st_failure s, ShareSubsetAttempts (st_metrics s))).

Lemma slot_ok_core s s' : core s' = core s -> slot_ok s -> slot_ok s'.
Proof.
  destruct s, s'. unfold core. cbn. intros [= -> -> -> -> -> -> -> -> -> -> Em] [Hl Hs Hp Hu [Hbl Hbr Hbs]].
  split; try done. split; try done. cbn in *. by rewrite Em.
Qed.

Lemma sound_core t n s' new :
  core s' = core (n_state n) -> slot_ok (n_state n) -> combining t = 0%nat ->
  Forall (thread_ok s') new -> combiningAll new = 0%nat ->
  sound t n (set_state s' n) new.
Proof.
  intros Hc Hok Ht Hnew H0. pose proof (slot_ok_core _ _ Hc Hok) as Hok'.
  destruct n as [last comp fail s]. cbn in *. unfold core in Hc. injection Hc as ? ? ? ? ? ? ? ? ? ? ?.
  split; cbn; try done.
  - split; cbn; try congruence; intros; split_and!; congruence.
  - unfold inFlight. rewrite H6. lia.
Qed.

Lemma sound_same t n : slot_ok (n_state n) -> combining t = 0%nat -> sound t n n [].
Proof. intros Hok Ht. split; [done|constructor|apply kept_refl|done|]. unfold combiningAll. cbn. lia. Qed.

(** ** Shares *)

Lemma sound_share t n op sub encoded s' err new :
  slot_ok (n_state n) -> combining t = 0%nat -> retain_post cfg op sub encoded (n_state n) s' err ->
  Forall (thread_ok s') new -> combiningAll new = 0%nat -> sound t n (set_state s' n) new.
Proof.
  intros [Hl Hs Hp Hu [Hbl Hbr Hbs]] Ht [(X & V & M & -> & HM) Hst _ _ _ Hpl] Hnew H0.
  destruct n as [last comp fail s]. cbn in *. split; cbn; try done.
  - split; try done; cbn.
    + intros Hpd. destruct (Hp Hpd) as [?|?]; [by left|right]. by apply Hpl.
    + split; cbn; [done|done|]. by rewrite HM.
  - unfold inFlight. cbn. lia.
Qed.

Lemma MakeShare_operator sk plan sub d :
  MakeShare HashToPoint (cluster cfg) sk plan sub = Ok d -> d_OperatorID d = sk_OperatorID sk.
Proof.
  unfold MakeShare. destruct (_ || _); [done|]. destruct (at_index _ _) as [items| |]; [|done|done]. cbn [out_bind].
  destruct (BatchDecWithShare _ _ _ _ _) as [share| |]; [|done|done]. cbn [out_bind]. by intros [= <-].
Qed.

(** ** Failing, adopting a plan, finishing an empty set *)

Lemma sound_failed ch reason t n :
  slot_ok (n_state n) -> combining t = 0%nat -> sound t n (markFailed ch reason n) [].
Proof.
  intros Hok Ht. unfold markFailed, markSlotFailed.
  destruct (st_result (n_state n)) eqn:Er, (st_failure (n_state n)) eqn:Ef; try by apply sound_same.
  destruct n as [last comp fail s]. destruct Hok as [Hl Hs Hp Hu [Hbl Hbr Hbs]]. unfold lifecycle in Hl. cbn in *.
  rewrite Er, Ef in Hl. split; cbn; try done.
  - split; try done. unfold lifecycle. cbn. by rewrite Er.
  - split; cbn; try done; intros; rewrite ?Er, ?Ef in *; cbn; try done; lia.
  - unfold inFlight. cbn. lia.
Qed.

Lemma sum_replicate k x : sumZ (replicate k x) = x * Z.of_nat k.
Proof. induction k as [|k IH]; cbn [replicate sumZ]; lia. Qed.

Lemma sound_adopt t plan material n s' adopted new :
  slot_ok (n_state n) -> combining t = 0%nat ->
  adoptPlan cfg plan material (n_state n) = (s', adopted) ->
  Forall (thread_ok s') new -> combiningAll new = 0%nat -> sound t n (set_state s' n) new.
Proof.
  intros Hok Ht Ha Hnew H0. pose proof (attempts_pos _ Hcfg) as Hmax.
  unfold adoptPlan in Ha. destruct (st_planned (n_state n)) eqn:Ep.
  { cbn in Ha. injection Ha as <- <-. by apply sound_core. }
  destruct (st_failure (n_state n)) as [f|] eqn:Ef.
  { rewrite bool_decide_true in Ha by by eexists. injection Ha as <- <-. by apply sound_core. }
  rewrite bool_decide_false in Ha by (intros []; done). cbn in Ha. injection Ha as <- <-.
  destruct n as [last comp fail s]. destruct Hok as [Hl Hs Hp Hu [Hbl Hbr Hbs]]. cbn in *.
  unfold lifecycle in Hl. rewrite Ef in Hl.
  destruct (st_result s) as [r|] eqn:Er; [destruct Hl as (_ & ? & _); congruence|].
  rewrite (Hu Ep) in Hbl. apply length_zero_iff_nil in Hbl as E0. rewrite E0 in Hbs. cbn in Hbs.
  destruct (prune_for_plan cfg plan (st_shareCandidates s) Hs) as [Hfor Hst].
  split; cbn; try done.
  - split; cbn; try done.
    + unfold lifecycle. cbn. by rewrite Er, Ef.
    + intros _. by right.
    + split; cbn; [by rewrite length_replicate| |].
      * apply Forall_replicate. lia.
      * rewrite sum_replicate, length_replicate. lia.
  - split; cbn; try done. congruence.
  - congruence.
  - unfold inFlight. cbn. lia.
Qed.

Lemma sound_empty t material n :
  slot_ok (n_state n) -> combining t = 0%nat -> sound t n (finishEmptyMaterializedSet cfg material n) [].
Proof.
  intros Hok Ht. unfold finishEmptyMaterializedSet.
  destruct (_ || st_planned (n_state n)) eqn:E; [by apply sound_same|].
  apply orb_false_iff in E as [E Ep]. apply orb_false_iff in E as [Er Ef].
  apply bool_decide_eq_false, eq_None_not_Some in Er. apply bool_decide_eq_false, eq_None_not_Some in Ef.
  destruct n as [last comp fail s]. destruct Hok as [Hl Hs Hp Hu [Hbl Hbr Hbs]]. cbn in *.
  split; cbn; try done.
  - split; cbn; try done.
    + unfold lifecycle. cbn. by rewrite Ef.
    + intros _. left. by apply Hu.
  - split; cbn; try done; intros; rewrite ?Er in *; cbn; try done; try congruence; lia.
  - unfold inFlight. cbn. lia.
Qed.

(** ** Reconstruction *)

Lemma sound_claim t n s' claimed :
  slot_ok (n_state n) -> combining t = 0%nat -> claimCombine cfg (n_state n) = (s', claimed) ->
  sound t n (set_state s' n) (match claimed with Some attempt => [TCombine attempt] | None => [] end).
Proof.
  intros Hok Ht. unfold claimCombine.
  assert ((n_state n, None) = (s', claimed) ->
    sound t n (set_state s' n) (match claimed with Some attempt => [TCombine attempt] | None => [] end)) as Hno.
  { intros [= <- <-]. by apply sound_core. }
  destruct (_ || st_combineInFlight (n_state n)) eqn:E; [exact Hno|].
  apply orb_false_iff in E as [E Efl]. apply orb_false_iff in E as [E _]. apply orb_false_iff in E as [E Ep].
  apply negb_false_iff in Ep. clear E.
  set (shares := retainedSharesLocked cfg (n_state n)).
  destruct (hasThresholdPerSubBatch shares _ _) eqn:Eth; cbn [negb]; [|exact Hno].
  destruct (attemptsRemain (n_state n)) eqn:Erem; cbn [negb]; [|exact Hno].
  destruct (bool_decide (shares = [])); [exact Hno|]. intros [= <- <-]. clear Hno.
  destruct n as [last comp fail s]. destruct Hok as [Hl Hs Hp Hu [Hbl Hbr Hbs]]. cbn in *.
  split; cbn; try done.
  - constructor; [|done]. cbn. split; [done|]. split; [done|]. split.
    + apply Forall_lookup. intros i x Hx. unfold attemptsRemain in Erem. rewrite forallb_forall in Erem.
      assert (i < length (st_combineAttemptsLeft s))%nat by (by eapply lookup_lt_Some).
      specialize (Erem i). rewrite in_seq, Hx in Erem. specialize (Erem ltac:(lia)).
      destruct (Z.leb_spec x 0); [done|lia].
    + destruct (Hp Ep) as [?|Hfor]; [by left|right]. by apply retained_accepted.
  - unfold inFlight, combiningAll. cbn. rewrite Efl. lia.
Qed.

Lemma sound_attempt a n n' new :
  slot_ok (n_state n) -> thread_ok (n_state n) (TCombine a) ->
  runAttempt RecoverCommit HashToPoint hkdf aead_Open cfg a n = Ret (n', new) -> sound (TCombine a) n n' new.
Proof.
  intros Hok ((Hp & Epl & Em) & El & Hlim & _) Hrun. unfold runAttempt in Hrun.
  destruct (runCombine _ _ _ _ _ a) as [[stats res]| |] eqn:Ec; [|done|done].
  destruct n as [last comp fail s]. destruct Hok as [Hl Hs Hpl Hu [Hbl Hbr Hbs]]. cbn in *.
  apply CombineSharesBounded_within in Ec; [|by rewrite El, Epl|by eapply Forall_impl; [exact Hlim|]; cbn; lia].
  rewrite El in Ec. destruct (spendAll_within _ _ Ec) as (Hsum & Hlen & Hrange).
  set (s' := recordCombineStats stats s).
  assert (slot_ok s') as Hok'.
  { split; cbn; try done. split; cbn; [by rewrite Hlen|by apply Hrange|]. rewrite fold_add, Hlen. lia. }
  assert (kept (mkNode last comp fail s) (set_state s' (mkNode last comp fail s))) as Hk by by split.
  destruct res as [results|e|]; [| |done]; injection Hrun as <- <-; split; cbn; try done;
    solve [constructor; [by split_and!|done] | unfold inFlight, combiningAll; cbn; lia].
Qed.

Lemma sound_release a n s' retry :
  slot_ok (n_state n) -> inFlight (n_state n) = 1%nat ->
  finishFailedCombine (at_shareVersion a) (n_state n) = (s', retry) ->
  sound (TRelease a) n (set_state s' n) (if retry then [TTry] else []).
Proof.
  intros [Hl Hs Hp Hu [Hbl Hbr Hbs]] Hfl. unfold finishFailedCombine. intros [= <- Hretry]. clear Hretry.
  destruct n as [last comp fail s]. cbn in *. split; cbn; try done.
  - by destruct retry; repeat constructor.
  - rewrite Hfl. unfold inFlight, combiningAll. cbn. by destruct retry.
Qed.

Lemma sound_finish a results n :
  slot_ok (n_state n) -> thread_ok (n_state n) (TFinish a results) -> inFlight (n_state n) = 1%nat ->
  sound (TFinish a results) n (finishCombine decodeTx cfg a results n) [].
Proof.
  intros [Hl Hs Hp Hu [Hbl Hbr Hbs]] (Hpd & _ & _) Hfl. unfold finishCombine.
  destruct n as [last comp fail s]. cbn in *. unfold lifecycle in Hl.
  destruct (st_result s) as [r|] eqn:Er, (st_failure s) as [f|] eqn:Ef; try done.
  - split; cbn; try done; [|by rewrite Hfl]. split; cbn; try done. unfold lifecycle. cbn. by rewrite Er, Ef.
  - split; cbn; try done; [|by rewrite Hfl]. split; cbn; try done. unfold lifecycle. cbn. by rewrite Er, Ef.
  - split; cbn; try done; [| |by rewrite Hfl].
    + split; cbn; try done. unfold lifecycle. cbn. by rewrite Ef.
    + split; cbn; try done; intros; rewrite ?Er in *; cbn; try done; lia.
Qed.

(** ** Every section *)

Lemma runStep_sound step failed n n' new t :
  slot_ok (n_state n) -> combining t = 0%nat -> combiningAll failed = 0%nat ->
  (forall s, Forall (thread_ok s) failed) ->
  runStep cfg step failed n = Ret (n', new) -> sound t n n' new.
Proof.
  intros Hok Ht Hf Hft. unfold runStep, stepACS. destruct (step (st_slot (n_state n))) as [[slot err]| |]; [|done|done].
  cbn [go_bind]. destruct err as [e|].
  { intros [= <- <-]. by apply sound_core. }
  destruct (slot_Messages slot) as [messages slot'].
  destruct (collectACSMessagesFrom _ _ _) as [sends|e|]; [| |done].
  - destruct (slot_Output slot') as [output slot'']. intros [= <- <-]. apply sound_core; try done.
    + apply Forall_app. split; [|by destruct output; repeat constructor].
      apply Forall_map, Forall_forall. by intros.
    + unfold combiningAll. rewrite map_app, list_sum_app.
      assert (list_sum (map combining (map (fun te : Z * WireEnvelope => TSend te.1 te.2) sends)) = 0%nat) as ->
        by (clear; induction sends; done).
      by destruct output.
  - intros [= <- <-]. by apply sound_core.
Qed.

Lemma runEnvelope_sound ch env n n' new :
  slot_ok (n_state n) ->
  runEnvelope Prove VerifyProof gobDecode gobBody pointSize cfg ch env n = Ret (n', new) ->
  sound (TEnvelope env) n n' new.
Proof.
  intros Hok. unfold runEnvelope.
  assert (Ret (n, []) = Ret (n', new) -> sound (TEnvelope env) n n' new) as Hno.
  { intros [= <- <-]. by apply sound_same. }
  destruct (_ && _); [exact Hno|]. destruct (negb _); [exact Hno|].
  destruct (bool_decide _); [destruct (env_ACS env) as [msg|]; [|exact Hno]; by apply runStep_sound|].
  destruct (bool_decide _); [|exact Hno]. destruct (env_Share env) as [share|]; [|exact Hno].
  destruct (addWireShare _ _ _ _) as [s' err] eqn:Ea. intros [= <- <-].
  destruct (addWireShare_spec cfg Hcfg _ _ _ _ _ (so_store _ Hok) Ea) as [encoded Hpost].
  eapply sound_share; [done|done|exact Hpost| |]; destruct err; by repeat constructor.
Qed.

Lemma runOutput_sound ch out n :
  slot_ok (n_state n) ->
  sound (TOutput out) n (runOutput uni json_list json_agreed json_merged list_Unmarshal cfg ch out n).1
    (runOutput uni json_list json_agreed json_merged list_Unmarshal cfg ch out n).2.
Proof.
  intros Hok. unfold runOutput. destruct (negb _); [by apply sound_failed|].
  destruct (agreedPlan _ _ _ _ _ _ _ _ _) as [reason|material|plan material]; cbn [fst snd].
  - by apply sound_failed.
  - by apply sound_empty.
  - destruct (adoptPlan cfg plan material (n_state n)) as [s' adopted] eqn:Ea. cbn [fst snd].
    eapply sound_adopt; [done|done|exact Ea| |]; destruct adopted; by repeat constructor.
Qed.

Lemma combining_sends (env : WireEnvelope) l : list_sum (map combining (map (fun peer => TSend peer env) l)) = 0%nat.
Proof. by induction l. Qed.

Lemma runShare_sound plan next n n' new :
  slot_ok (n_state n) -> runShare HashToPoint cfg plan next n = Ret (n', new) -> sound (TShares plan next) n n' new.
Proof.
  intros Hok. unfold runShare.
  assert (forall t, combining t = 0%nat -> thread_ok (n_state n) t -> Ret (n, [t]) = Ret (n', new) ->
    sound (TShares plan next) n n' new) as Hone.
  { intros t Ht Hth [= <- <-]. split; [done|by constructor|apply kept_refl|done|]. unfold combiningAll. cbn. lia. }
  destruct (_ <=? _)%nat; [by apply Hone|]. destruct (WithholdShare (faults cfg)); [by apply Hone|].
  destruct (MakeShare _ _ _ _ _) as [d|e|] eqn:Em; [|by apply Hone|done].
  apply MakeShare_operator in Em. rewrite (secret_own _ Hcfg) in Em.
  destruct (addShare cfg d (n_state n)) as [s' err] eqn:Ea.
  pose proof (ids_range _ Hcfg _ (self_listed _ Hcfg)) as Hself. pose proof (ids_word _ Hcfg).
  destruct (addShare_spec cfg Hcfg d _ _ _ ltac:(lia) (so_store _ Hok) Ea) as (encoded & Hpost & _).
  assert (forall new, Forall (thread_ok s') new -> combiningAll new = 0%nat -> Ret (set_state s' n, new) = Ret (n', new) ->
    sound (TShares plan next) n (set_state s' n) new) as Hadd by (intros; by eapply sound_share).
  destruct err as [e|]; [intros [= <- <-]; by apply Hadd|].
  destruct (marshalShare d) as [wire|e|]; [|intros [= <- <-]; by apply Hadd; repeat constructor|done].
  intros [= <- <-]. apply Hadd; [| |done].
  - apply Forall_app. split; [|by repeat constructor]. apply Forall_map, Forall_forall. by intros.
  - unfold combiningAll. rewrite map_app, list_sum_app, combining_sends. done.
Qed.

Lemma begin_sound n s' begun :
  slot_ok (n_state n) -> beginSlot (n_state n) = (s', begun) ->
  sound TStart n (set_state s' n) (if begun then [TPropose] else []).
Proof.
  intros Hok. unfold beginSlot. destruct n as [last comp fail s]. cbn.
  destruct (st_failure s) as [f|] eqn:Ef; [intros [= <- <-]; by apply sound_core|].
  destruct (st_result s) as [r|] eqn:Er; [intros [= <- <-]; by apply sound_core|].
  intros [= <- <-]. destruct Hok as [Hl Hs Hp Hu [Hbl Hbr Hbs]]. cbn in *. split; cbn; try done.
  - split; cbn; try done. unfold lifecycle. cbn. rewrite Er, Ef. by right.
  - by repeat constructor.
Qed.

Lemma section_sound ch t n n' new :
  slot_ok (n_state n) -> thread_ok (n_state n) t -> (combining t <= inFlight (n_state n))%nat ->
  run ch t n = Ret (n', new) -> sound t n n' new.
Proof.
  intros Hok Hth Hfl. pose proof (eq_refl (inFlight (n_state n))) as Hone.
  assert (forall b, combining t = 1%nat -> (if st_combineInFlight (n_state n) then 1 else 0)%nat = b -> inFlight (n_state n) = 1%nat)
    as H1 by (intros b Ht _; unfold inFlight in *; destruct (st_combineInFlight (n_state n)); lia).
  destruct t as [| |reason|env|out|plan next| | |a|a|a results|to env]; cbn [runThread].
  - destruct (st_started _); [intros [= <- <-]; by apply sound_same|].
    destruct (beginSlot (n_state n)) as [s' begun] eqn:Eb. intros [= <- <-]. by apply begin_sound.
  - destruct (makeProposal _ _ _ _ _ _) as [encoded|e|]; [| |done].
    + apply runStep_sound; try done. intros s. by repeat constructor.
    + intros [= <- <-]. split; [done|by repeat constructor|apply kept_refl|done|]. unfold combiningAll. cbn. lia.
  - intros [= <- <-]. by apply sound_failed.
  - by apply runEnvelope_sound.
  - intros Hrun. injection Hrun as Hrun. pose proof (runOutput_sound ch out n Hok) as Hs. by rewrite Hrun in Hs.
  - by apply runShare_sound.
  - intros [= <- <-]. apply sound_core; try done; by repeat constructor.
  - destruct (claimCombine cfg (n_state n)) as [s' claimed] eqn:Ec. intros [= <- <-]. by apply sound_claim.
  - by apply sound_attempt.
  - destruct (finishFailedCombine _ _) as [s' retry] eqn:Ef. intros [= <- <-]. eapply sound_release; [done| |done].
    by eapply H1.
  - intros [= <- <-]. apply sound_finish; [done|done|]. by eapply H1.
  - intros [= <- <-]. by apply sound_same.
Qed.
End NodeInv.
