(* ===== verification/NodeRun.v ===== *)
(** * NodeRun: what every execution of a node keeps

    The invariant of [NodeInv] lifted to interleavings of goroutines, requests
    and slot replacements, and the properties that follow: a slot ends once
    and keeps what it reached, the share store is sound and bounded, one
    reconstruction runs at a time and all of them together stay within the
    attempt budget. *)

From S2P Require Import Prelude Order GoStrings Sha256 Messages Bba Rbc RbcNet Acs AcsLocal SlotAcs Merge Kyber Prf Btd Batch BatchLaws Wire NodeState Provider Node NodeSys NodeLaws NodeInv.

Section NodeRun.
Context `{Suite}.
Context (RecoverCommit : list PubShare -> Z -> Z -> out (Point G1)).
Context (HashToPoint : bytes -> bytes) (uni : bytes -> bytes).
Context (hkdf : bytes -> bytes -> bytes).
Context (aead_Seal : bytes -> bytes -> bytes -> bytes -> bytes).
Context (aead_Open : bytes -> bytes -> bytes -> bytes -> out bytes).
Context (json_list : Z -> Z -> list EncryptedPlaceholder -> bytes).
Context (json_agreed : Z -> list InclusionList -> bytes).
Context (json_merged : Z -> list EncryptedPlaceholder -> Z -> bytes).
Context (list_Marshal : pbInclusionList -> option bytes) (list_Unmarshal : bytes -> option pbInclusionList).
Context (rs_New : Z -> Z -> option Encoder).
Context (Prove : list bytes -> Z -> bytes * list bytes * Z * Z).
Context (VerifyProof : bytes -> list bytes -> Z -> Z -> bool).
Context (gobEncode : bytes -> bytes) (gobDecode : bytes -> option bytes) (gobBody : SlotBlockBody -> option bytes).
Context (decodeTx : bytes -> option ethTx).
Context (mempoolGet : Z -> Z -> out remoteList).
Context (pointSize : Z) (cfg : NodeConfig) (Hcfg : config_ok cfg).


Abbreviation step := (sys_step RecoverCommit HashToPoint uni hkdf aead_Seal aead_Open json_list json_agreed json_merged
  list_Marshal list_Unmarshal rs_New Prove VerifyProof gobEncode gobDecode gobBody decodeTx mempoolGet pointSize cfg).
Abbreviation reachable := (sys_reachable RecoverCommit HashToPoint uni hkdf aead_Seal aead_Open json_list json_agreed
  json_merged list_Marshal list_Unmarshal rs_New Prove VerifyProof gobEncode gobDecode gobBody decodeTx mempoolGet
  pointSize cfg).

Record sys_ok (sys : system) : Prop := {
  ss_slot : slot_ok cfg (n_state (sys_node sys));
  ss_last : n_lastSlot (sys_node sys) = st_id (n_state (sys_node sys));
  ss_threads : Forall (thread_ok cfg (n_state (sys_node sys))) (sys_threads sys);
  ss_flight : combiningAll (sys_threads sys) = inFlight (n_state (sys_node sys))
}.

(** What later states of a node owe to earlier ones. *)
Definition later (n n' : Node) : Prop :=
  st_id (n_state n) <= st_id (n_state n') /\ (st_id (n_state n) = st_id (n_state n') -> kept n n').

Lemma later_refl n : later n n.
Proof. split; [lia|]. intros _. apply kept_refl. Qed.

Lemma later_trans n1 n2 n3 : later n1 n2 -> later n2 n3 -> later n1 n3.
Proof.
  intros [L1 K1] [L2 K2]. split; [lia|]. intros E.
  apply (kept_trans n1 n2 n3); [apply K1|apply K2]; lia.
Qed.

Lemma combiningAll_app ts1 ts2 : combiningAll (ts1 ++ ts2) = (combiningAll ts1 + combiningAll ts2)%nat.
Proof. unfold combiningAll. by rewrite map_app, list_sum_app. Qed.

Lemma combiningAll_cons t ts : combiningAll (t :: ts) = (combining t + combiningAll ts)%nat.
Proof. done. Qed.

Lemma combiningAll_elem t ts : t ∈ ts -> (combining t <= combiningAll ts)%nat.
Proof.
  induction ts as [|t' ts IH]; [by intros ?%elem_of_nil|]. rewrite combiningAll_cons.
  intros [->|Hin]%elem_of_cons; [lia|]. specialize (IH Hin). lia.
Qed.

(** Another goroutine is not disturbed by a section. *)
Lemma thread_ok_kept n n' new t other :
  sound cfg t n n' new -> thread_ok cfg (n_state n) other -> (combining other = 0 \/ combining t = 0)%nat ->
  thread_ok cfg (n_state n') other.
Proof.
  intros [_ _ Hk Hleft _] Hother Hcases.
  destruct other as [| |reason|env|out|plan next| | |a|a|a results|to env]; try done; cbn in *.
  1: destruct Hother as ((Hp & Epl & Em) & El & Hlim & Hacc).
  2-3: destruct Hother as (Hp & Epl & Em).
  all: destruct (kp_plan _ _ Hk Hp) as (Hp' & Epl' & Em').
  - destruct Hcases as [|Ht]; [done|]. rewrite (Hleft Hp Ht), Epl'.
    split; [|by split_and!]. split; [done|]. split; congruence.
  - split; [done|]. split; congruence.
  - split; [done|]. split; congruence.
Qed.

Lemma submit_core slotQuery body json point r nonce s :
  core (handleSubmitTx HashToPoint uni hkdf aead_Seal list_Marshal cfg slotQuery body json point r nonce s).1 = core s.
Proof.
  unfold handleSubmitTx, admitPending. destruct (validateRequestedSlotLocked slotQuery s); [done|].
  destruct (negb _); [done|]. destruct (submitRequest _ _ _) as [[req raw]| |]; [|done|done].
  destruct (EncryptTx _ _ _ _ _ _ _ _ _) as [ct| |]; [|done|done].
  destruct (marshalCiphertext ct) as [encoded| |]; [|done|done].
  destruct (bool_decide _); [done|]. destruct (_ <=? _); [done|].
  destruct (EncodeList _ _) as [|enc]; [done|]. by destruct (_ <? _).
Qed.

Lemma core_kept n s' : core s' = core (n_state n) -> kept n (set_state s' n).
Proof.
  destruct n as [last comp fail s]. unfold core. cbn. intros [= ? ? ? ? ? ? ? ? ? ? ?].
  split; cbn; try congruence; intros; split_and!; congruence.
Qed.

Lemma fresh_ok slotID limit fresh :
  newSlotStateWithLimit rs_New cfg slotID limit = Ret fresh -> slot_ok cfg fresh /\ st_id fresh = slotID /\ inFlight fresh = 0%nat.
Proof.
  unfold newSlotStateWithLimit. destruct (NewSlotACS _ _ _ _ _) as [slot| |]; [|done|done]. intros [= <-].
  split; [|done]. split; cbn; try done; [by left|]. split; cbn; [done|constructor|lia].
Qed.

Lemma prepare_sound traceFinalized slotID limit n n' err :
  n_lastSlot n = st_id (n_state n) -> slot_ok cfg (n_state n) -> inFlight (n_state n) = 0%nat ->
  prepareSlotWithLimit rs_New cfg traceFinalized slotID limit n = Ret (n', err) ->
  slot_ok cfg (n_state n') /\ n_lastSlot n' = st_id (n_state n') /\ inFlight (n_state n') = 0%nat /\ later n n'.
Proof.
  intros Hlast Hok Hfl. unfold prepareSlotWithLimit.
  assert (forall e, Ret (n, e) = Ret (n', err) ->
    slot_ok cfg (n_state n') /\ n_lastSlot n' = st_id (n_state n') /\ inFlight (n_state n') = 0%nat /\ later n n') as Hno.
  { intros e [= <- <-]. split; [done|]. split; [done|]. split; [done|]. apply later_refl. }
  destruct (_ || _); [apply Hno|]. destruct (_ && _).
  { intros [= <- <-]. assert (core (set_proposalLimit limit (n_state n)) = core (n_state n)) as Hc by done.
    split; [by eapply slot_ok_core|]. split; [done|]. split; [done|]. split; [done|]. intros _. by apply core_kept. }
  destruct (Z.leb_spec slotID (n_lastSlot n)); [apply Hno|]. destruct (negb _); [apply Hno|]. destruct (_ && _); [apply Hno|].
  destruct (newSlotStateWithLimit _ _ _ _) as [fresh| |] eqn:Ef; [|done|done]. cbn [go_bind]. intros [= <- <-].
  apply fresh_ok in Ef as (Hf & Hid & Hfl'). destruct n as [last comp fail s]. cbn in *.
  split; [done|]. split; [done|]. split; [done|]. split; cbn; lia.
Qed.

Lemma step_ok sys sys' : step sys sys' -> sys_ok sys -> sys_ok sys' /\ later (sys_node sys) (sys_node sys').
Proof.
  intros Hstep [Hslot Hlast Hth Hfl]. destruct Hstep as [ch pre t post n n' new sent Hrun|n ths sent|env n ths sent
    |slotQuery body json point r nonce n ths sent|fin slotID limit n n' err ths sent Hw Hprep]; cbn [sys_node sys_threads] in *.
  - apply Forall_app in Hth as [Hpre [Ht Hpost]%Forall_cons].
    assert (combiningAll (pre ++ t :: post) = combiningAll pre + (combining t + combiningAll post))%nat as Hsum
      by (by rewrite combiningAll_app).
    assert (combining t <= inFlight (n_state n))%nat as Hle by lia.
    pose proof (section_sound RecoverCommit HashToPoint uni hkdf aead_Open json_list json_agreed json_merged list_Marshal
      list_Unmarshal Prove VerifyProof gobEncode gobDecode gobBody decodeTx mempoolGet pointSize cfg Hcfg ch t n n' new
      Hslot Ht Hle Hrun) as Hs.
    assert (forall other, other ∈ pre ++ post -> thread_ok cfg (n_state n) other -> thread_ok cfg (n_state n') other) as Hothers.
    { intros other Hin Hok. eapply thread_ok_kept; [exact Hs|exact Hok|].
      pose proof (combiningAll_elem other (pre ++ post) Hin) as He. rewrite combiningAll_app in He.
      assert (inFlight (n_state n) <= 1)%nat by (unfold inFlight; destruct (st_combineInFlight _); lia). lia. }
    pose proof (sd_kept _ _ _ _ _ Hs) as Hk. split.
    + split; cbn [sys_node sys_threads].
      * apply Hs.
      * rewrite (kp_last _ _ Hk), (kp_id _ _ Hk). done.
      * rewrite Forall_forall in Hpre, Hpost. rewrite !Forall_app. split_and!; [|apply Hs|]; apply Forall_forall; intros x Hx.
        -- apply Hothers; [by apply elem_of_app; left|by apply Hpre].
        -- apply Hothers; [by apply elem_of_app; right|by apply Hpost].
      * rewrite !combiningAll_app. pose proof (sd_flight _ _ _ _ _ Hs). lia.
    + split; [rewrite (kp_id _ _ Hk); lia|]. by intros _.
  - split; [|apply later_refl]. split; cbn [sys_node sys_threads]; try done; [by apply Forall_app; repeat constructor|].
    rewrite combiningAll_app. unfold combiningAll at 2. cbn. lia.
  - split; [|apply later_refl]. split; cbn [sys_node sys_threads]; try done; [by apply Forall_app; repeat constructor|].
    rewrite combiningAll_app. unfold combiningAll at 2. cbn. lia.
  - pose proof (submit_core slotQuery body json point r nonce (n_state n)) as Hc.
    set (s' := (handleSubmitTx _ _ _ _ _ _ _ _ _ _ _ _ _).1) in *. clearbody s'.
    assert (kept n (set_state s' n)) as Hk by by apply core_kept. split.
    + assert (sound cfg TStart n (set_state s' n) []) as Hs by by apply sound_core.
      split; cbn [sys_node sys_threads]; [apply Hs|by rewrite <- (kp_id _ _ Hk) in Hlast| |].
      * eapply Forall_impl; [exact Hth|]. intros other Hok.
        apply (thread_ok_kept n (set_state s' n) [] TStart other Hs Hok). by right.
      * pose proof (sd_flight _ _ _ _ _ Hs) as Hf. change (combiningAll []) with 0%nat in Hf. cbn [combining] in Hf. lia.
    + split; [rewrite (kp_id _ _ Hk); lia|]. by intros _.
  - assert (combiningAll ths = 0%nat /\ forall s, Forall (thread_ok cfg s) ths) as [H0 Hany].
    { clear -Hw. induction ths as [|t ths IH]; [by split|]. cbn in Hw. apply andb_true_iff in Hw as [Hw1 Hw2].
      destruct (IH Hw2) as [IH1 IH2]. rewrite combiningAll_cons, IH1. destruct t; try done. split; [done|].
      intros s. by constructor. }
    destruct (prepare_sound _ _ _ _ _ _ Hlast Hslot ltac:(congruence) Hprep) as (Hs' & Hl' & Hf' & Hlater).
    split; [|done]. split; cbn [sys_node sys_threads]; try done. congruence.
Qed.

Lemma steps_ok sys sys' : rtc step sys sys' -> sys_ok sys -> sys_ok sys' /\ later (sys_node sys) (sys_node sys').
Proof.
  induction 1 as [sys|sys1 sys2 sys3 Hstep _ IH]; intros Hok; [split; [done|apply later_refl]|].
  destruct (step_ok _ _ Hstep Hok) as [Hok2 Hl]. destruct (IH Hok2) as [Hok3 Hl2]. split; [done|by eapply later_trans].
Qed.

Lemma reachable_ok sys : reachable sys -> sys_ok sys.
Proof.
  intros (slotID & sys0 & (fresh & Hf & ->) & Hsteps). apply fresh_ok in Hf as (Hok & Hid & Hfl).
  eapply steps_ok; [exact Hsteps|]. split; cbn; [done|done|constructor|]. by rewrite Hfl.
Qed.

(** ** The properties *)

(** C11. A slot ends once. In every state an execution reaches, the slot has a
    result exactly in the phase [completed], a failure exactly in the phase
    [failed], never both, and a result only after its plan was settled. From
    there on, however the goroutines interleave, the active slot's number only
    grows, and while it is the same slot its result, its failure and its plan
    stay as they are and the two counters count its end once. *)
Theorem slot_lifecycle sys sys' :
  reachable sys -> rtc step sys sys' ->
  let n := sys_node sys in
  let n' := sys_node sys' in
  lifecycle (n_state n) /\ lifecycle (n_state n') /\ st_id (n_state n) <= st_id (n_state n') /\
  (st_id (n_state n) = st_id (n_state n') -> kept n n').
Proof.
  intros Hr%reachable_ok Hsteps. destruct (steps_ok _ _ Hsteps Hr) as [Hok' [Hid Hk]].
  split_and!; [apply Hr|apply Hok'|exact Hid|exact Hk].
Qed.

(** C13. The share store is sound and bounded. Every retained share comes from
    a configured operator, for a sub-batch below BMax, under the operator's
    own index and the one batch identity of the operator, and its encoding is
    that of its point; after a plan is adopted all of them belong to the plan.
    There are at most N*BMax of them, and at most N times the number of
    sub-batches under a plan. Adding another share is never refused for lack
    of capacity, never replaces or drops a retained share, and if it is not
    refused the store holds a share with its encoding. *)
Theorem share_store_sound sys :
  reachable sys ->
  let s := n_state (sys_node sys) in
  store_ok cfg (cfg_BMax cfg) (st_shareCandidates s) /\
  retainedShareCountLocked (st_shareCandidates s) <= cfg_N cfg * cfg_BMax cfg /\
  (st_planned s = true -> SubBatches (st_plan s) <> [] ->
     for_plan cfg (st_plan s) (st_shareCandidates s) /\
     retainedShareCountLocked (st_shareCandidates s) <= cfg_N cfg * zlen (SubBatches (st_plan s))) /\
  (forall d s' err, d_OperatorID d < 2 ^ 32 -> addShare cfg d s = (s', err) ->
     err <> Some "capacity"%string /\ keeps_shares (st_shareCandidates s) (st_shareCandidates s') /\
     (err = None -> exists share encoded, d_Share d = Some share /\ MarshalPoint (pub_V share) = Ok encoded /\
        holds (st_shareCandidates s') (d_OperatorID d) (d_SubBatchID d) encoded)).
Proof.
  intros Hr%reachable_ok s. pose proof (ss_slot _ Hr) as Hok. fold s in Hok. pose proof (so_store _ _ Hok) as Hst.
  split_and!; [exact Hst| | |].
  - by apply (store_count cfg Hcfg); [apply (bmax_pos _ Hcfg)|].
  - intros Hp Hne. destruct (so_plan _ _ Hok Hp) as [|Hfor]; [done|]. split; [exact Hfor|].
    apply (store_count cfg Hcfg); [lia|apply Hfor].
  - intros d s' err Hop Ha. destruct (addShare_spec cfg Hcfg _ _ _ _ Hop Hst Ha) as (encoded & Hpost & Hck).
    split_and!; [apply Hpost|apply Hpost|]. intros ->. destruct (Hck eq_refl) as [_ _ (share & Hs & _ & Hm)].
    exists share, encoded. split; [done|]. split; [done|]. by eapply rp_holds.
Qed.

(** C12. Reconstruction is single-flight and within its budget. At most one
    goroutine is between claiming and releasing a reconstruction, exactly when
    the flag says so. The attempts spent on the slot and those left add up to
    the budget of every planned sub-batch, so they never exceed it in total,
    whatever shares arrive and however often combining fails. What a
    goroutine combines passes the cluster layer's validation and has the
    threshold of shares for every sub-batch, and its limits are the attempts
    left. *)
Theorem combine_budget sys :
  reachable sys ->
  let s := n_state (sys_node sys) in
  combiningAll (sys_threads sys) = inFlight s /\ (inFlight s <= 1)%nat /\
  Forall (fun l => 0 <= l <= MaxCombineAttemptsPerSubBatch cfg) (st_combineAttemptsLeft s) /\
  ShareSubsetAttempts (st_metrics s) + sumZ (st_combineAttemptsLeft s) =
    MaxCombineAttemptsPerSubBatch cfg * zlen (SubBatches (st_plan s)) /\
  (forall a, TCombine a ∈ sys_threads sys -> SubBatches (st_plan s) <> [] ->
     at_plan a = st_plan s /\ accepted_shares cfg (at_plan a) (at_shares a) /\
     attemptLimits a = st_combineAttemptsLeft s /\ Forall (fun l => 1 <= l) (attemptLimits a)).
Proof.
  intros Hr%reachable_ok s. destruct Hr as [Hok Hlast Hth Hfl]. fold s in Hok, Hth, Hfl.
  destruct (so_budget _ _ Hok) as [Hlen Hrange Hsum]. split_and!.
  - exact Hfl.
  - unfold inFlight. destruct (st_combineInFlight s); lia.
  - exact Hrange.
  - rewrite Hsum. by rewrite Hlen.
  - intros a Ha Hne. rewrite Forall_forall in Hth. destruct (Hth _ Ha) as ((_ & Epl & _) & El & Hlim & [?|Hacc]); [done|].
    by split_and!.
Qed.
End NodeRun.
