(* ===== verification/NodeAgree.v ===== *)
(** * NodeAgree: correct nodes adopt the same batch

    The composition of the common subset ([AcsAgree]), the slot adapter
    ([SlotLaws]), the merge ([MergeLaws]) and the planning of the batch
    ([Batch]) with the node's handling of the output: two correct nodes of one
    cluster whose common subset has decided reach the same verdict on the
    slot, although each visits its maps in an order of its own. *)

From S2P Require Import Prelude Order GoStrings Sha256 Kyber Prf Btd Batch Merge MergeLaws Messages Bba Rbc RbcNet Acs AcsLocal AcsNet AcsAgree SlotAcs SlotLaws Wire NodeState Provider Node NodeSys.

Section Verdict.
Context `{Suite}.

(** What every operator of a cluster is configured with. *)
Record same_cluster (c c' : NodeConfig) : Prop := {
  sc_blockspace : Blockspace c = Blockspace c';
  sc_BMax : cfg_BMax c = cfg_BMax c';
  sc_attempts : MaxCombineAttemptsPerSubBatch c = MaxCombineAttemptsPerSubBatch c';
  sc_batchMax : BMax (cluster c) = BMax (cluster c');
  sc_domain : Params_N (cluster c) = Params_N (cluster c')
}.

(** What a node holds about the agreed batch of its slot. *)
Record verdict := mkVerdict {
  v_id : Z;
  v_planned : bool;
  v_plan : BatchPlan;
  v_material : MaterializedTransactionSet;
  v_attempts : list Z;
  v_phase : slotPhase;
  v_result : option MaterializedTransactionSet;
  v_failure : option string
}.

Definition verdictOf (s : slotState) : verdict :=
  mkVerdict (st_id s) (st_planned s) (st_plan s) (st_material s) (st_combineAttemptsLeft s) (st_phase s)
    (Materialized <$> st_result s) (fail_Reason <$> st_failure s).

Context (uni : bytes -> bytes).
Context (json_list : Z -> Z -> list EncryptedPlaceholder -> bytes).
Context (json_agreed : Z -> list InclusionList -> bytes).
Context (json_merged : Z -> list EncryptedPlaceholder -> Z -> bytes).
Context (list_Unmarshal : bytes -> option pbInclusionList).
Context (c c' : NodeConfig) (Hsame : same_cluster c c').

Lemma validateCiphertext_same ct : validateCiphertext (cluster c) ct = validateCiphertext (cluster c') ct.
Proof. unfold validateCiphertext. by rewrite (sc_domain _ _ Hsame). Qed.

Lemma UnmarshalCiphertext_same data :
  UnmarshalCiphertext (cluster c) data = UnmarshalCiphertext (cluster c') data.
Proof.
  unfold UnmarshalCiphertext. destruct (readFull _ _) as [[magic r]| |]; cbn; [|done..].
  destruct (negb _); [done|]. destruct (readBytes r) as [[cap r']| |]; cbn; [|done..].
  destruct (UnmarshalCT cap); cbn; [|done..]. destruct (readBytes r') as [[tx r'']| |]; cbn; [|done..].
  destruct (0 <? zlen r''); [done|]. by rewrite validateCiphertext_same.
Qed.

Lemma map_out_ext {A B} (f g : A -> out B) l : (forall x, f x = g x) -> map_out f l = map_out g l.
Proof. intros E. induction l as [|x l IH]; cbn; [done|]. by rewrite E, IH. Qed.

Lemma fold_out_ext {A B} (f g : B -> A -> out B) l acc : (forall b x, f b x = g b x) -> fold_out f l acc = fold_out g l acc.
Proof.
  intros E. revert acc. induction l as [|x l IH]; intros acc; cbn; [done|]. rewrite E. destruct (g acc x); cbn; [apply IH|done..].
Qed.

Lemma DecodeBatch_same encoded : DecodeBatch (cluster c) encoded = DecodeBatch (cluster c') encoded.
Proof.
  unfold DecodeBatch. rewrite (sc_batchMax _ _ Hsame). by rewrite (map_out_ext _ _ encoded UnmarshalCiphertext_same).
Qed.

Lemma PlanDecodedBatch_same decoded : PlanDecodedBatch (cluster c) decoded = PlanDecodedBatch (cluster c') decoded.
Proof.
  unfold PlanDecodedBatch, arrangeBatch. rewrite (sc_batchMax _ _ Hsame).
  erewrite fold_out_ext; [done|]. intros b x. cbn. by rewrite validateCiphertext_same.
Qed.

Context (order order' : gmap bytes mergeCandidate -> list mergeCandidate).
Context (Horder : rangesOver order) (Horder' : rangesOver order').

Lemma agreedPlan_same slot batches :
  agreedPlan uni json_list json_agreed json_merged list_Unmarshal order c slot batches =
  agreedPlan uni json_list json_agreed json_merged list_Unmarshal order' c' slot batches.
Proof.
  unfold agreedPlan. destruct (decodeAcceptedLists _ _ _) as [lists| |]; [|done..].
  rewrite (sc_blockspace _ _ Hsame), (sc_BMax _ _ Hsame).
  rewrite (merge_any_range uni json_merged order order' Horder Horder').
  rewrite DecodeBatch_same. destruct (DecodeBatch _ _) as [decoded| |]; [|done..].
  destruct (zlen _ =? 0); [done|]. by rewrite PlanDecodedBatch_same.
Qed.

(** The section that takes the output gives equal verdicts from equal ones,
    and goes on with the same plan. *)
Lemma runOutput_same ch ch' (out out' : SlotOutput unit) n n' :
  ch_merge ch = order -> ch_merge ch' = order' ->
  so_Slot out = so_Slot out' -> so_OrderedBatches out = so_OrderedBatches out' ->
  verdictOf (n_state n) = verdictOf (n_state n') ->
  let r := runOutput uni json_list json_agreed json_merged list_Unmarshal c ch out n in
  let r' := runOutput uni json_list json_agreed json_merged list_Unmarshal c' ch' out' n' in
  verdictOf (n_state r.1) = verdictOf (n_state r'.1) /\ r.2 = r'.2.
Proof.
  intros Hc Hc' Hslot Hbatches Hv. destruct n as [last comp fail s], n' as [last' comp' fail' s'].
  unfold runOutput. cbn [n_state] in *. rewrite Hc, Hc', Hslot, Hbatches.
  pose proof Hv as [= Eid Epd Epl Em Ea Eph Er Ef]. rewrite Eid.
  assert (forall reason now now', verdictOf (n_state (markSlotFailed reason now (mkNode last comp fail s))) =
    verdictOf (n_state (markSlotFailed reason now' (mkNode last' comp' fail' s')))) as Hfail.
  { intros reason now now'. unfold markSlotFailed. cbn [n_state].
    destruct (st_result s) eqn:R1, (st_result s') eqn:R2; try done.
    destruct (st_failure s), (st_failure s'); try done. unfold verdictOf. cbn. rewrite R1, R2. congruence. }
  destruct (negb _); [split; [apply Hfail|done]|].
  rewrite (agreedPlan_same (st_id s')). destruct (agreedPlan _ _ _ _ _ _ _ _ _) as [reason|mat|plan mat].
  - split; [apply Hfail|done].
  - split; [|done]. unfold finishEmptyMaterializedSet. cbn [n_state].
    destruct (st_result s) eqn:R1, (st_result s') eqn:R2; try done.
    destruct (st_failure s) eqn:F1, (st_failure s') eqn:F2; try done. cbn in *. rewrite Epd. destruct (st_planned s'); [done|]. unfold verdictOf. cbn. rewrite F1, F2. congruence.
  - unfold adoptPlan. rewrite Epd. destruct (st_failure s) eqn:F1, (st_failure s') eqn:F2; try done; cbn in *.
    + destruct (st_planned s'); by split.
    + destruct (st_planned s'); [by split|]. split; [|done]. unfold verdictOf. cbn. rewrite F1, F2, (sc_attempts _ _ Hsame).
      congruence.
Qed.
End Verdict.

(** The output the adapter stores for a decided map. *)
Lemma built_output {D} gobDecode gobBody order (s : SlotACS (D := D)) m out :
  (forall l, order l ≡ₚ l) -> sl_output s = None -> a_output (sl_acs s) = Some m ->
  sl_output (maybeBuildOutput gobDecode gobBody order s).1 = Some out ->
  so_Slot out = sl_slot s /\ so_OrderedBatches out = orderedBatches (omap gobDecode m).
Proof.
  intros Ho Hnone Hm. unfold maybeBuildOutput. rewrite Hnone. unfold acs_Output. rewrite Hm. change (default ∅ (Some m)) with m.
  destruct (_ =? 0)%nat; [cbn; congruence|].
  pose proof (decodeCommonSubset_spec gobDecode order m Ho) as Hd.
  destruct (decodeCommonSubset gobDecode order m) as [d|err]; [|cbn; congruence]. destruct Hd as [_ ->].
  cbn [set_slacs sl_slot sl_blockBuilder sl_postAgreement sl_acs]. destruct (default _ _ _ _) as [body|]; [|cbn; congruence].
  destruct (sl_postAgreement s) as [hook|].
  - destruct (hook _); cbn; [|congruence]. by intros [= <-].
  - cbn. by intros [= <-].
Qed.

(** ** The property *)

