(* ===== verification/NodeDemo.v ===== *)
(** * NodeDemo: a node runs a slot

    A cluster of one operator over the suite of [BteDemo], its inclusion list
    carried by a toy protobuf codec. A schedule takes the node from submission
    of two transactions through agreement, planning, share generation and
    reconstruction to the slot's result, and the theorems of [NodeRun] are
    applied to the states on the way. *)

From S2P Require Import Prelude Order GoStrings Sha256 Messages Bba Rbc RbcNet Acs AcsLocal AcsNet AcsAgree SlotAcs SlotLaws Merge MergeLaws Kyber Prf Btd BteDemo Batch BatchLaws BatchDemo Wire NodeState Provider Node NodeSys NodeLaws NodeInv NodeRun NodeAgree.

(** ** A codec for inclusion lists *)

Definition putBytes (b : bytes) : bytes := zlen b :: b.

Definition getBytes (data : bytes) : option (bytes * bytes) :=
  match data with
  | [] => None
  | n :: rest => Some (take (Z.to_nat n) rest, drop (Z.to_nat n) rest)
  end.

Definition putItem (i : option pbPlaceholder) : bytes :=
  match i with
  | None => []
  | Some i =>
      pb_Gas i :: pb_Nonce i ::
      concat (map putBytes [pb_Hash i; pb_Ciphertext i; pb_Fee i; pb_From i; pb_Kind i])
  end.

Definition demoMarshal (l : pbInclusionList) : option bytes :=
  Some (pb_Slot l :: pb_OperatorId l :: concat (map putItem (pb_Items l))).

Fixpoint getFields (n : nat) (data : bytes) : option (list bytes * bytes) :=
  match n with
  | O => Some ([], data)
  | S n =>
      '(b, data) ← getBytes data;
      '(bs, data) ← getFields n data;
      Some (b :: bs, data)
  end.

Fixpoint getItems (fuel : nat) (data : bytes) : option (list (option pbPlaceholder)) :=
  match fuel, data with
  | S fuel, gas :: nonce :: rest =>
      match getFields 5 rest with
      | Some ([h; c; f; from; kind], rest) =>
          items ← getItems fuel rest;
          Some (Some (mkPbPlaceholder h c gas f from nonce kind) :: items)
      | _ => None
      end
  | _, [] => Some []
  | _, _ => None
  end.

Definition demoUnmarshal (data : bytes) : option pbInclusionList :=
  match data with
  | slot :: op :: rest => mkPbList slot op <$> getItems (length rest) rest
  | _ => None
  end.

(** ** The cluster *)

Module NodeDemo.
(** A secret shared among one. *)
Definition recoverOne (shares : list PubShare) (t n : Z) : out (Point G1) :=
  match shares with
  | [s] => Ok (pub_V s)
  | _ => Err "not enough good public shares to reconstruct secret commitment"
  end.

(** One data shard and no parity. *)
Definition code : Encoder := {|
  Split data := Some [data];
  Encode l := Some l;
  Reconstruct l := Some l
|}.

Definition rs_New (d k : Z) : option Encoder := if (d =? 1) && (k =? 0) then Some code else None.

Definition coeffs : list (@Scalar QcSuite) := [BteDemo.q 7].
Definition btd : BTD := KeyGen (NewBTD (PRFSetup 6 true BatchDemo.xs BatchDemo.zs) 6) 1 1 coeffs.
Definition secret : SecretShare := mkSecretShare 0 (shareOf coeffs 0).

Definition cfg : NodeConfig :=
  mkNodeConfig 1 1 6 (mkBlockspace 0 0 21000) 1000000 8 false
    (mkProvider [] [] 0 [] [] [] ∅ false) [] 0 [0] (NewNode btd (PK (btd_eg btd)) secret 1 1) secret
    (mkFaults false false false).

Lemma cfg_ok : config_ok cfg.
Proof.
  split; try done; cbn [nodeIDs cfg]; [apply NoDup_singleton| |by apply list_elem_of_singleton].
  intros i ->%list_elem_of_singleton. done.
Qed.

Definition uni (b : bytes) : bytes := b.
Definition json_list (slot op : Z) (items : list EncryptedPlaceholder) : bytes := slot :: op :: concat (map Hash items).
Definition json_agreed (slot : Z) (lists : list InclusionList) : bytes := slot :: concat (map list_Hash lists).
Definition json_merged (slot : Z) (items : list EncryptedPlaceholder) (gas : Z) : bytes :=
  slot :: gas :: concat (map Hash items).
Definition decodeTx (raw : bytes) : option ethTx := Some (mkEthTx (Some 1) (Some [1]) None 0 21000 0 5 5 raw).
Definition mempoolGet (slot limit : Z) : out remoteList := Err "no mempool".
Definition ch : choices := mkChoices (fun l => l) (fun l => l) (fun m => (map_to_list m).*2) 1000 99.

Abbreviation run := (execAll recoverOne BatchDemo.Hash uni BatchDemo.hkdf BatchDemo.aead_Seal BatchDemo.aead_Open
  json_list json_agreed json_merged demoMarshal demoUnmarshal rs_New RDemo.Prove RDemo.VerifyProof toyEncode toyDecode
  toyBody decodeTx mempoolGet 2 cfg ch).

Definition submit (raw : string) (s : Z) : action :=
  DoSubmit [] (str raw) None (BteDemo.q s)
    (mkCoins (BteDemo.q (s + 1)) (BteDemo.q (s + 2)) (BteDemo.q (s + 3)) (BteDemo.q (s + 4))) BatchDemo.nonce.

Definition fresh : slotState :=
  match newSlotStateWithLimit rs_New cfg 5 0 with
  | Ret s => s
  | _ => mkSlotState 5 0 slotPrepared (toySlot ∅) false [] ∅ zeroPlan noMaterial false false false 0 ∅ [] None None
           noMetrics
  end.

Definition start : system := mkSystem (mkNode 5 0 0 fresh) [] [].

Definition after (acts : list action) : system := default start (run acts start).

End NodeDemo.

(** ** Schedules *)

Module DemoRun.
Import NodeDemo.

(** Two transactions, then the goroutine of the slot up to its shares. *)
Definition toShares : list action := [submit "aa" 10; submit "bb" 20; DoStart; DoRun 0; DoRun 0; DoRun 0; DoRun 0].

(** Up to the claim of a reconstruction, and to the result. *)
Definition toClaim : list action := toShares ++ replicate 4 (DoRun 0).
Definition toResult : list action := toClaim ++ [DoRun 0; DoRun 0].

(** The parts of a state the examples look at. *)
Definition view (sys : system) :=
  let s := n_state (sys_node sys) in
  (st_id s, st_phase s, option_map Plaintexts (st_result s), combiningAll (sys_threads sys),
   retainedShareCountLocked (st_shareCandidates s), zlen (SubBatches (st_plan s)), st_combineAttemptsLeft s,
   length (sys_threads sys)).

Lemma view_facts sys id phase texts flying held subs lefts n :
  view sys = (id, phase, texts, flying, held, subs, lefts, n) ->
  st_id (n_state (sys_node sys)) = id /\ combiningAll (sys_threads sys) = flying /\
  retainedShareCountLocked (st_shareCandidates (n_state (sys_node sys))) = held /\
  zlen (SubBatches (st_plan (n_state (sys_node sys)))) = subs /\
  st_combineAttemptsLeft (n_state (sys_node sys)) = lefts.
Proof. unfold view. intros [=]. by split_and!. Qed.

Lemma claim_view : view (after toClaim) = (5, slotRunning, None, 1%nat, 2, 2, [8; 8], 1%nat).
Proof. vm_compute. reflexivity. Qed.

(** The slot ends with the two submitted transactions in its result. *)
Lemma result_view :
  view (after toResult) = (5, slotCompleted, Some [str "0x6161"; str "0x6262"], 0%nat, 2, 2, [7; 7], 0%nat).
Proof. vm_compute. reflexivity. Qed.

Lemma ran acts : bool_decide (is_Some (run acts start)) = true -> run acts start = Some (after acts).
Proof. unfold after. rewrite bool_decide_eq_true. by intros [sys ->]. Qed.

Lemma execAll_app acts1 acts2 sys :
  run (acts1 ++ acts2) sys = (match run acts1 sys with Some sys1 => run acts2 sys1 | None => None end).
Proof.
  revert sys. induction acts1 as [|act acts1 IH]; intros sys; [done|]. cbn [app execAll].
  destruct (exec _ _ _ _ _ _ _ _ _ _ _ _ _ _ _ _ _ _ _ _ _ _ act sys); [apply IH|done].
Qed.

Abbreviation step := (sys_step recoverOne BatchDemo.Hash uni BatchDemo.hkdf BatchDemo.aead_Seal BatchDemo.aead_Open
  json_list json_agreed json_merged demoMarshal demoUnmarshal rs_New RDemo.Prove RDemo.VerifyProof toyEncode toyDecode
  toyBody decodeTx mempoolGet 2 cfg).
Abbreviation reachable := (sys_reachable recoverOne BatchDemo.Hash uni BatchDemo.hkdf BatchDemo.aead_Seal
  BatchDemo.aead_Open json_list json_agreed json_merged demoMarshal demoUnmarshal rs_New RDemo.Prove RDemo.VerifyProof
  toyEncode toyDecode toyBody decodeTx mempoolGet 2 cfg).

Lemma started : newSlotStateWithLimit rs_New cfg 5 0 = Ret fresh.
Proof.
  unfold fresh. destruct (newSlotStateWithLimit rs_New cfg 5 0) as [s| |] eqn:E; [done| |].
  all: assert (match newSlotStateWithLimit rs_New cfg 5 0 with Ret _ => true | _ => false end = true) as H
    by (vm_compute; reflexivity); by rewrite E in H.
Qed.

Lemma result_runs : run toResult start = Some (after toResult).
Proof. apply ran. vm_compute. reflexivity. Qed.

Lemma claim_runs : run toClaim start = Some (after toClaim).
Proof.
  apply ran, bool_decide_eq_true. pose proof result_runs as H. unfold toResult in H. rewrite execAll_app in H.
  destruct (run toClaim start) as [sys|]; [exact (ex_intro _ sys eq_refl)|discriminate H].
Qed.

Lemma claim_reachable : reachable (after toClaim).
Proof.
  exists 5, start. split; [exists fresh; by rewrite started|]. eapply execAll_steps, claim_runs.
Qed.

Lemma claim_result : rtc step (after toClaim) (after toResult).
Proof.
  pose proof result_runs as H. unfold toResult in H at 1. rewrite execAll_app, claim_runs in H. by eapply execAll_steps.
Qed.
End DemoRun.

Lemma slot_lifecycle_witness :
  lifecycle (n_state (sys_node (NodeDemo.after DemoRun.toResult))) /\
  kept (sys_node (NodeDemo.after DemoRun.toClaim)) (sys_node (NodeDemo.after DemoRun.toResult)).
Proof.
  destruct (slot_lifecycle NodeDemo.recoverOne BatchDemo.Hash NodeDemo.uni BatchDemo.hkdf BatchDemo.aead_Seal
    BatchDemo.aead_Open NodeDemo.json_list NodeDemo.json_agreed NodeDemo.json_merged demoMarshal demoUnmarshal
    NodeDemo.rs_New RDemo.Prove RDemo.VerifyProof toyEncode toyDecode toyBody NodeDemo.decodeTx NodeDemo.mempoolGet 2
    NodeDemo.cfg NodeDemo.cfg_ok (NodeDemo.after DemoRun.toClaim) (NodeDemo.after DemoRun.toResult)
    DemoRun.claim_reachable DemoRun.claim_result) as (_ & Hl & _ & Hk).
  split; [exact Hl|]. apply Hk. destruct (DemoRun.view_facts _ _ _ _ _ _ _ _ _ DemoRun.claim_view) as [H1 _].
  destruct (DemoRun.view_facts _ _ _ _ _ _ _ _ _ DemoRun.result_view) as [H2 _]. exact (eq_trans H1 (eq_sym H2)).
Defined.

Lemma share_store_sound_witness :
  retainedShareCountLocked (st_shareCandidates (n_state (sys_node (NodeDemo.after DemoRun.toClaim)))) <= 1 * 6 /\
  retainedShareCountLocked (st_shareCandidates (n_state (sys_node (NodeDemo.after DemoRun.toClaim)))) = 2.
Proof.
  destruct (share_store_sound NodeDemo.recoverOne BatchDemo.Hash NodeDemo.uni BatchDemo.hkdf BatchDemo.aead_Seal
    BatchDemo.aead_Open NodeDemo.json_list NodeDemo.json_agreed NodeDemo.json_merged demoMarshal demoUnmarshal
    NodeDemo.rs_New RDemo.Prove RDemo.VerifyProof toyEncode toyDecode toyBody NodeDemo.decodeTx NodeDemo.mempoolGet 2
    NodeDemo.cfg NodeDemo.cfg_ok (NodeDemo.after DemoRun.toClaim) DemoRun.claim_reachable) as (_ & Hc & _ & _).
  split; [exact Hc|]. destruct (DemoRun.view_facts _ _ _ _ _ _ _ _ _ DemoRun.claim_view) as (_ & _ & Hn & _). exact Hn.
Defined.

Lemma combine_budget_witness :
  combiningAll (sys_threads (NodeDemo.after DemoRun.toClaim)) = 1%nat /\
  ShareSubsetAttempts (st_metrics (n_state (sys_node (NodeDemo.after DemoRun.toClaim)))) = 0.
Proof.
  destruct (combine_budget NodeDemo.recoverOne BatchDemo.Hash NodeDemo.uni BatchDemo.hkdf BatchDemo.aead_Seal
    BatchDemo.aead_Open NodeDemo.json_list NodeDemo.json_agreed NodeDemo.json_merged demoMarshal demoUnmarshal
    NodeDemo.rs_New RDemo.Prove RDemo.VerifyProof toyEncode toyDecode toyBody NodeDemo.decodeTx NodeDemo.mempoolGet 2
    NodeDemo.cfg NodeDemo.cfg_ok (NodeDemo.after DemoRun.toClaim) DemoRun.claim_reachable) as (_ & _ & _ & Hb & _).
  destruct (DemoRun.view_facts _ _ _ _ _ _ _ _ _ DemoRun.claim_view) as (_ & Hc & _ & Hn & Hl).
  split; [exact Hc|]. rewrite Hl, Hn in Hb. change (sumZ [8; 8]) with 16 in Hb.
  change (MaxCombineAttemptsPerSubBatch NodeDemo.cfg) with 8 in Hb. revert Hb. generalize (ShareSubsetAttempts
    (st_metrics (n_state (sys_node (NodeDemo.after DemoRun.toClaim))))). clear. intros z Hb. lia.
Defined.

(** ** Two nodes of a cluster of four *)

Module AgreeDemo.
(** The encrypted transactions of [BatchDemo], two in the list of each operator. *)
Definition encoded : list bytes :=
  match (let? cts := BatchDemo.encrypted_txs in map_out marshalCiphertext cts) with
  | Ok l => l
  | _ => []
  end.

Definition itemOf (data : bytes) : option pbPlaceholder :=
  Some (mkPbPlaceholder (hashHex data) data 1000 (str "7") [] 0 (str "placeholder")).

Definition listOf (batch : bytes) : option pbInclusionList :=
  match batch with
  | op :: _ => Some (mkPbList 9 op (map itemOf (take 2 (drop (Z.to_nat (2 * op)) encoded))))
  | [] => None
  end.

Definition nodeOf (id : Z) : NodeConfig :=
  mkNodeConfig 4 2 6 (mkBlockspace 0 0 21000) 1000000 8 false (mkProvider [] [] 0 [] [] [] ∅ false) [] id
    [0; 1; 2; 3] (NewNode BatchDemo.btd BatchDemo.pk (mkSecretShare id (shareOf BatchDemo.coeffs id)) 4 2)
    (mkSecretShare id (shareOf BatchDemo.coeffs id)) (mkFaults false false false).

Definition backwards : choices :=
  mkChoices (fun l => l) (fun l => rev l) (fun m => rev (map_to_list m).*2) 1000 77.

Definition slotOf (id : Z) : SlotACS (D := unit) :=
  mkSlotACS 9 (set_aoutput (ADemo.init id) (Some ADemo.block) true) None None None.

Definition built (ch : choices) (id : Z) : option (SlotOutput unit) :=
  sl_output (maybeBuildOutput Some toyBody (ch_order ch) (slotOf id)).1.

Definition fresh (id : Z) : Node :=
  mkNode 9 0 0 (mkSlotState 9 0 slotRunning (slotOf id) true [] ∅ zeroPlan noMaterial false false false 0 ∅ [] None None
    noMetrics).

Definition settle (ch : choices) (id : Z) (out : SlotOutput unit) : Node * list thread :=
  runOutput NodeDemo.uni NodeDemo.json_list NodeDemo.json_agreed NodeDemo.json_merged listOf (nodeOf id) ch out (fresh id).

Lemma forwards_ranges : rangesOver (ch_merge NodeDemo.ch).
Proof. intros m. reflexivity. Qed.

Lemma backwards_ranges : rangesOver (ch_merge backwards).
Proof. intros m. cbn. symmetry. apply Permutation_rev. Qed.

Lemma planned_by_zero :
  match built NodeDemo.ch 0 with
  | Some out => (st_planned (n_state (settle NodeDemo.ch 0 out).1), Alpha (st_plan (n_state (settle NodeDemo.ch 0 out).1)))
  | None => (false, 0)
  end = (true, 5).
Proof. vm_compute. reflexivity. Qed.

Lemma built_some ch id : bool_decide (is_Some (built ch id)) = true -> exists out, built ch id = Some out.
Proof. rewrite bool_decide_eq_true. by intros [out ->]; exists out. Qed.
End AgreeDemo.

