(* ===== verification/Mempool.v ===== *)
(** * Mempool: the transactions a mempool service serves

    Models [src/mempool-il/internal/mempool]: the data of [types.go], the
    store ([store.go]), the recognition of placeholder transactions
    ([classifier.go], and how the replay client builds them,
    [replay_placeholder.go]), the normalization of what an execution client
    reports ([rpc.go]), the tracker of pending transactions
    ([alchemy_pending.go]), and the polling step of [reader.go]; and the
    inclusion-list builder of [src/mempool-il/internal/inclusion/builder.go].

    Parameters: [uni], case folding outside ASCII; [order], the order in which
    Go ranges over a map; [HexToHash] of go-ethereum; [undefinedInt], the value
    [big.Int.SetString] leaves behind when it fails, which its documentation
    does not define; the answers of the JSON-RPC endpoint. *)

From S2P Require Import Prelude Order GoStrings Sha256.

(** ** types.go *)

Abbreviation TxKind := bytes.

Definition TxKindPlaintext : TxKind := str "plaintext".
Definition TxKindPlaceholder : TxKind := str "placeholder".

Record PlaceholderData := mkPlaceholderData {
  CommitmentHex : bytes;
  RequestedGas : Z;
  pd_EncryptedPayloadHex : bytes;
  pd_EncryptedPayloadHash : bytes;
  CalldataBytes : Z
}.

(** A nil [*big.Int] is [None]. *)
Record Transaction := mkTransaction {
  t_Hash : bytes;
  t_From : bytes;
  t_To : bytes;
  t_Nonce : Z;
  t_Gas : Z;
  t_Input : bytes;
  t_RawTx : bytes;
  GasPriceWei : option Z;
  MaxFeePerGasWei : option Z;
  MaxPriorityFeeWei : option Z;
  t_Kind : TxKind;
  Placeholder : option PlaceholderData;
  IsQueued : bool;
  EffectiveFeePerGasW : option Z;
  TargetTxHash : bytes;
  TargetTxType : Z;
  TargetTxSizeBytes : Z;
  t_EncryptedPayloadHex : bytes;
  t_EncryptedPayloadHash : bytes;
  PlaceholderTxHash : bytes;
  PlaceholderTxRaw : bytes;
  PlaceholderCalldataBytes : Z;
  PlaceholderGasEstimate : Z
}.

Definition EffectiveFeePerGas (t : Transaction) : Z :=
  match EffectiveFeePerGasW t with
  | Some fee => fee
  | None =>
      match MaxFeePerGasWei t with
      | Some fee => if 0 <? fee then fee else default 0 (GasPriceWei t)
      | None => default 0 (GasPriceWei t)
      end
  end.

(** ** store.go *)

(** The map [byID]. *)
Definition Store := gmap bytes Transaction.

Definition NewStore : Store := ∅.

Definition ReplaceAll (txs : list Transaction) (s : Store) : Store :=
  fold_left (fun next tx => <[t_Hash tx := tx]> next) txs ∅.

Definition snapshotLess (x y : Transaction) : bool :=
  if bool_decide (t_From x = t_From y) then
    if t_Nonce x =? t_Nonce y then bytesLt (t_Hash x) (t_Hash y) else t_Nonce x <? t_Nonce y
  else bytesLt (t_From x) (t_From y).

Definition snapshotLine (tx : Transaction) : bytes :=
  Join [t_Hash tx; t_From tx; decimal (t_Nonce tx); decimal (t_Gas tx); t_Kind tx;
        decimal (EffectiveFeePerGas tx); boolText (IsQueued tx)] (str "|").

Record SnapshotList := mkSnapshot {
  Transactions : list Transaction;
  snap_Count : Z;
  snap_Hash : bytes
}.

Definition Snapshot (order : Store -> list Transaction) (s : Store) : SnapshotList :=
  let arr := sortSlice snapshotLess (order s) in
  mkSnapshot arr (zlen arr) (str "0x" ++ hashHex (Join (map snapshotLine arr) [10])).

(** ** classifier.go *)

Definition placeholderSelector : bytes := [0x70; 0x68; 0x6c; 0x64].

Definition set_placeholder (tx : Transaction) (kind : TxKind) (p : option PlaceholderData) (gas : Z)
    (target payloadHex payloadHash txHash : bytes) (calldataBytes : Z) : Transaction :=
  mkTransaction (t_Hash tx) (t_From tx) (t_To tx) (t_Nonce tx) gas (t_Input tx) (t_RawTx tx) (GasPriceWei tx)
    (MaxFeePerGasWei tx) (MaxPriorityFeeWei tx) kind p (IsQueued tx) (EffectiveFeePerGasW tx) target
    (TargetTxType tx) (TargetTxSizeBytes tx) payloadHex payloadHash txHash (PlaceholderTxRaw tx) calldataBytes
    (PlaceholderGasEstimate tx).

Section Classifier.
Context (uni : bytes -> bytes).

Definition ParsePlaceholderCalldata (input : bytes) : out PlaceholderData :=
  let hexInput := TrimPrefix (ToLower uni (TrimSpace input)) (str "0x") in
  if bool_decide (hexInput = []) then Err "empty calldata"
  else
    match hexDecode hexInput with
    | None => Err "invalid calldata hex"
    | Some b =>
        if zlen b <=? 68 then Err "calldata too short"
        else if negb (bool_decide (take 4 b = placeholderSelector)) then Err "not a placeholder selector"
        else
          let gas := fromBigEndian (take 32 (drop 36 b)) in
          if 2 ^ 64 <=? gas then Err "requested gas does not fit uint64"
          else
            let payload := drop 68 b in
            Ok (mkPlaceholderData (str "0x" ++ hexEncode (take 32 (drop 4 b))) gas (str "0x" ++ hexEncode payload)
              (str "0x" ++ hashHex payload) (zlen b))
    end.

Definition ClassifyAndParse (tx : Transaction) : Transaction :=
  match ParsePlaceholderCalldata (t_Input tx) with
  | Ok p =>
      set_placeholder tx TxKindPlaceholder (Some p) (if 0 <? RequestedGas p then RequestedGas p else t_Gas tx)
        (CommitmentHex p) (pd_EncryptedPayloadHex p) (pd_EncryptedPayloadHash p) (t_Hash tx) (CalldataBytes p)
  | _ =>
      set_placeholder tx TxKindPlaintext None (t_Gas tx) (TargetTxHash tx) (t_EncryptedPayloadHex tx)
        (t_EncryptedPayloadHash tx) (PlaceholderTxHash tx) (PlaceholderCalldataBytes tx)
  end.

(** [replay_placeholder.go]. *)
Definition buildPlaceholderCalldata (HexToHash : bytes -> bytes) (targetHash : bytes) (requestedGas : Z)
    (encryptedPayload : bytes) : bytes :=
  placeholderSelector ++ HexToHash targetHash ++ bigEndian 32 requestedGas ++ encryptedPayload.
End Classifier.

(** ** rpc.go *)

Record rpcTx := mkRpcTx {
  rpc_Hash : bytes;
  rpc_From : bytes;
  rpc_To : bytes;
  rpc_Nonce : bytes;
  rpc_Gas : bytes;
  rpc_Input : bytes;
  rpc_GasPrice : bytes;
  rpc_MaxFeePerGas : bytes;
  rpc_MaxPriorityFeeGas : bytes
}.

(** The value of digits in a base, if all of them are digits. *)
Fixpoint digitsIn (base : Z) (ds : bytes) (acc : Z) : option Z :=
  match ds with
  | [] => Some acc
  | c :: ds' =>
      match fromHexChar c with
      | Some d => if d <? base then digitsIn base ds' (base * acc + d) else None
      | None => None
      end
  end.

(** [strconv.ParseUint(s, base, 64)] *)
Definition ParseUint (base : Z) (s : bytes) : option Z :=
  if bool_decide (s = []) then None
  else
    match digitsIn base s 0 with
    | Some n => if n <? 2 ^ 64 then Some n else None
    | None => None
    end.

(** [big.Int.SetString(s, base)] *)
Definition SetStringBase (base : Z) (s : bytes) : option Z :=
  let '(neg, ds) :=
    match s with
    | c :: rest => if c =? 45 then (true, rest) else if c =? 43 then (false, rest) else (false, s)
    | [] => (false, [])
    end in
  if bool_decide (ds = []) then None
  else (fun n : Z => if neg then - n else n) <$> digitsIn base ds 0.

Section Rpc.
Context (uni : bytes -> bytes) (undefinedInt : bytes -> Z).

Definition parseHexUint64 (v : bytes) : option Z :=
  let v := TrimSpace (ToLower uni v) in
  if bool_decide (v ∈ [[]; str "0x"]) then Some 0
  else
    match stripPrefix (str "0x") v with
    | Some digits => ParseUint 16 digits
    | None => ParseUint 10 v
    end.

Definition parseHexBig (v : bytes) : Z :=
  let v := TrimSpace (ToLower uni v) in
  if bool_decide (v ∈ [[]; str "0x"]) then 0
  else
    match stripPrefix (str "0x") v with
    | Some digits => default (undefinedInt v) (SetStringBase 16 digits)
    | None => default (undefinedInt v) (SetStringBase 10 v)
    end.

Definition normalizeTx (raw : rpcTx) (queued : bool) : out Transaction :=
  match parseHexUint64 (rpc_Nonce raw) with
  | None => Err "invalid nonce"
  | Some nonce =>
      match parseHexUint64 (rpc_Gas raw) with
      | None => Err "invalid gas"
      | Some gas =>
          Ok (mkTransaction (ToLower uni (rpc_Hash raw)) (ToLower uni (rpc_From raw)) (ToLower uni (rpc_To raw)) nonce
            gas (ToLower uni (rpc_Input raw)) [] (Some (parseHexBig (rpc_GasPrice raw)))
            (Some (parseHexBig (rpc_MaxFeePerGas raw))) (Some (parseHexBig (rpc_MaxPriorityFeeGas raw))) []
            None queued None [] 0 0 [] [] [] [] 0 0)
      end
  end.

(** The transactions of the two sections, in the order in which Go ranges over
  the maps of senders and nonces. *)
Definition flatten (pending queued : list rpcTx) : out (list Transaction) :=
  map_out (fun rq : rpcTx * bool => let? tx := normalizeTx rq.1 rq.2 in Ok (ClassifyAndParse uni tx))
    (map (fun raw => (raw, false)) pending ++ map (fun raw => (raw, true)) queued).

(** [public_rpc.go]: the transactions of the pending block; nil is empty. *)
Definition fetchPendingBlock (block : option (list rpcTx)) : out (list Transaction) :=
  map_out (fun raw => let? tx := normalizeTx raw false in Ok (ClassifyAndParse uni tx)) (default [] block).
End Rpc.

(** ** alchemy_pending.go *)

Record trackedPendingTx := mkTracked {
  tr_tx : Transaction;
  updatedAt : Z
}.

Record tracker := mkTracker {
  filterID : bytes;
  byHash : gmap bytes trackedPendingTx;
  bySenderNonce : gmap bytes bytes
}.

Definition nonceKey (tx : Transaction) : bytes := t_From tx ++ str "|" ++ decimal (t_Nonce tx).

(** The transaction to keep when both have the sender and nonce: [None] keeps
  what is there. *)
Definition displaced (c : tracker) (tx : Transaction) : option (gmap bytes trackedPendingTx) :=
  match bySenderNonce c !! nonceKey tx with
  | None => Some (byHash c)
  | Some existingHash =>
      match byHash c !! existingHash with
      | None => Some (byHash c)
      | Some existing =>
          let cmp := EffectiveFeePerGas tx ?= EffectiveFeePerGas (tr_tx existing) in
          if bool_decide (cmp = Lt) || (bool_decide (cmp = Eq) && bytesLt (t_Hash (tr_tx existing)) (t_Hash tx))
          then None
          else Some (delete existingHash (byHash c))
      end
  end.

Definition upsert (tx : Transaction) (now : Z) (c : tracker) : tracker :=
  match displaced c tx with
  | None => c
  | Some kept =>
      mkTracker (filterID c) (<[t_Hash tx := mkTracked tx now]> kept) (<[nonceKey tx := t_Hash tx]> (bySenderNonce c))
  end.

(** One round of the loop of [expire] over [byHash]. *)
Definition expireOne (ttl now : Z) (hash : bytes) (c : tracker) : tracker :=
  match byHash c !! hash with
  | None => c
  | Some tracked =>
      if now - updatedAt tracked <=? ttl then c
      else
        mkTracker (filterID c) (delete hash (byHash c))
          (if bool_decide (bySenderNonce c !! nonceKey (tr_tx tracked) = Some hash)
           then delete (nonceKey (tr_tx tracked)) (bySenderNonce c) else bySenderNonce c)
  end.

(** [hashes] is the order in which Go visits the keys. *)
Definition expire (ttl now : Z) (hashes : list bytes) (c : tracker) : tracker :=
  fold_left (fun c hash => expireOne ttl now hash c) hashes c.

(** What the endpoint answers during one [Fetch]. *)
Record rpcAnswers := mkAnswers {
  newFilter : out bytes;
  filterChanges : bytes -> out (list bytes);
  newFilterAgain : out bytes;
  filterChangesAgain : bytes -> out (list bytes);
  transactionByHash : bytes -> out (option rpcTx)
}.

(** [strings.Contains] *)
Fixpoint Contains (s sub : bytes) : bool :=
  match stripPrefix sub s with
  | Some _ => true
  | None =>
      match s with
      | [] => false
      | _ :: s' => Contains s' sub
      end
  end.

Section Tracker.
Context (uni : bytes -> bytes) (undefinedInt : bytes -> Z).

Definition isFilterNotFound (err : string) : bool := Contains (ToLower uni (str err)) (str "filter not found").

Definition set_filterID (id : bytes) (c : tracker) : tracker := mkTracker id (byHash c) (bySenderNonce c).

Definition ensureFilter (answer : out bytes) (c : tracker) : tracker * option string :=
  if negb (bool_decide (filterID c = [])) then (c, None)
  else
    match answer with
    | Ok id =>
        let id := ToLower uni (TrimSpace id) in
        (set_filterID id c, if bool_decide (id ∈ [[]; str "0x"]) then Some "empty pending tx filter id"%string else None)
    | Err e => (c, Some e)
    | Crash => (c, Some ""%string)
    end.

(** One hash of the changes. *)
Definition trackHash (answers : rpcAnswers) (now : Z) (c : tracker) (hash : bytes) : tracker :=
  let hash := ToLower uni (TrimSpace hash) in
  if bool_decide (hash ∈ [[]; str "0x"]) then c
  else
    match transactionByHash answers hash with
    | Ok (Some raw) =>
        match normalizeTx uni undefinedInt raw false with
        | Ok tx => upsert (ClassifyAndParse uni tx) now c
        | _ => c
        end
    | _ => c
    end.

(** The changes of the filter; a filter the endpoint forgot is made anew
  once. *)
Definition pendingHashes (answers : rpcAnswers) (c : tracker) : tracker * out (list bytes) :=
  let '(c, err) := ensureFilter (newFilter answers) c in
  match err with
  | Some e => (c, Err e)
  | None =>
      match filterChanges answers (filterID c) with
      | Err e =>
          if isFilterNotFound e then
            let '(c, err) := ensureFilter (newFilterAgain answers) (set_filterID [] c) in
            match err with
            | Some e => (c, Err e)
            | None => (c, filterChangesAgain answers (filterID c))
            end
          else (c, Err e)
      | answer => (c, answer)
      end
  end.

(** [order] visits the keys for [expire], [values] the entries of the answer. *)
Definition trackerFetch (order : gmap bytes trackedPendingTx -> list bytes)
    (values : gmap bytes trackedPendingTx -> list trackedPendingTx) (ttl now : Z) (answers : rpcAnswers) (c : tracker)
  : tracker * out (list Transaction) :=
  let '(c, changes) := pendingHashes answers c in
  match changes with
  | Ok hashes =>
      let c := fold_left (trackHash answers now) hashes c in
      let c := expire ttl now (order (byHash c)) c in
      (c, Ok (map tr_tx (values (byHash c))))
  | Err e => (c, Err e)
  | Crash => (c, Crash)
  end.
End Tracker.

(** ** reader.go *)

(** [PollOnce]: the store, and the error if the source had one. *)
Definition PollOnce (fetched : out (list Transaction)) (s : Store) : Store * option string :=
  match fetched with
  | Ok txs => (ReplaceAll txs s, None)
  | Err e => (s, Some e)
  | Crash => (s, Some ""%string)
  end.

(** ** builder.go *)

Record BuilderConfig := mkBuilderConfig {
  MaxTransactions : Z;
  MaxGas : Z
}.

Definition NewBuilder (cfg : BuilderConfig) : BuilderConfig :=
  mkBuilderConfig (if MaxTransactions cfg <=? 0 then 128 else MaxTransactions cfg)
    (if MaxGas cfg =? 0 then 15000000 else MaxGas cfg).

Record Item := mkItem {
  i_Hash : bytes;
  i_From : bytes;
  i_Nonce : Z;
  i_Gas : Z;
  i_Kind : bytes;
  EffectiveFeePerGW : bytes;
  PlaceholderEnvelopeHex : bytes;
  i_EncryptedPayloadHex : bytes;
  i_EncryptedPayloadHash : bytes;
  i_TargetTxHash : bytes;
  i_TargetTxType : Z;
  i_TargetTxSizeBytes : Z;
  i_PlaceholderTxHash : bytes;
  i_PlaceholderCalldataBytes : Z;
  i_PlaceholderGasEstimate : Z
}.

Record ServedList := mkServed {
  served_Items : list Item;
  Count : Z;
  TotalGas : Z;
  served_Hash : bytes
}.

(** The first loop: [seen] holds the hashes of the candidates so far. *)
Fixpoint dedupe (txs : list Transaction) (seen : gset bytes) : list Transaction :=
  match txs with
  | [] => []
  | tx :: txs' =>
      if bool_decide (t_Hash tx = []) || (t_Gas tx =? 0) then dedupe txs' seen
      else if bool_decide (t_Hash tx ∈ seen) then dedupe txs' seen
      else tx :: dedupe txs' ({[ t_Hash tx ]} ∪ seen)
  end.

Definition feeLess (x y : Transaction) : bool :=
  let cmp := EffectiveFeePerGas x ?= EffectiveFeePerGas y in
  if bool_decide (cmp = Eq) then snapshotLess x y else bool_decide (cmp = Gt).

Definition itemOf (tx : Transaction) : Item :=
  mkItem (t_Hash tx) (t_From tx) (t_Nonce tx) (t_Gas tx) (t_Kind tx) (decimal (EffectiveFeePerGas tx))
    (if bool_decide (t_Kind tx = TxKindPlaceholder) then TrimPrefix (t_Input tx) (str "0x") else [])
    (t_EncryptedPayloadHex tx) (t_EncryptedPayloadHash tx) (TargetTxHash tx) (TargetTxType tx) (TargetTxSizeBytes tx)
    (PlaceholderTxHash tx) (PlaceholderCalldataBytes tx) (PlaceholderGasEstimate tx).

(** The selection loop over [uint64] gas values. *)
Fixpoint selectTxs (cfg : BuilderConfig) (candidates : list Transaction) (items : list Item) (totalGas : Z)
  : list Item * Z :=
  match candidates with
  | [] => (items, totalGas)
  | tx :: rest =>
      if MaxTransactions cfg <=? zlen items then (items, totalGas)
      else if u64 (MaxGas cfg - totalGas) <? t_Gas tx then selectTxs cfg rest items totalGas
      else selectTxs cfg rest (items ++ [itemOf tx]) (u64 (totalGas + t_Gas tx))
  end.

Definition itemLine (i : Item) : bytes :=
  Join [i_Hash i; i_From i; decimal (i_Nonce i); decimal (i_Gas i); i_Kind i; EffectiveFeePerGW i] (str "|").

Definition build (cfg : BuilderConfig) (txs : list Transaction) (sortByFee : bool) : ServedList :=
  let candidates := dedupe txs ∅ in
  let candidates := if sortByFee then sortSlice feeLess candidates else candidates in
  let '(items, totalGas) := selectTxs cfg candidates [] 0 in
  mkServed items (zlen items) totalGas (str "0x" ++ hashHex (Join (map itemLine items) [10])).

Definition Build (cfg : BuilderConfig) (s : SnapshotList) : ServedList := build cfg (Transactions s) true.

Definition BuildOrdered (cfg : BuilderConfig) (s : SnapshotList) : ServedList := build cfg (Transactions s) false.
