(* ===== verification/MempoolLaws.v ===== *)
(** * Mempool: what the service guarantees

    The store keeps one transaction per hash and its snapshot has one possible
    order; the builder's selection is greedy within its limits. The tracker of
    pending transactions refines a map from sender and nonce to the best
    transaction seen. A placeholder transaction's calldata is read back. *)

From S2P Require Import Prelude Order GoStrings Sha256 Mempool.

(** ** The orders of snapshots and lists *)

Definition snapshotCmp : Transaction -> Transaction -> comparison :=
  cmpThen (cmpOn t_From bytesCmp) (cmpThen (cmpOn t_Nonce Z.compare) (cmpOn t_Hash bytesCmp)).

Definition feeCmp : Transaction -> Transaction -> comparison :=
  cmpThen (cmpOn EffectiveFeePerGas (cmpDown Z.compare)) snapshotCmp.

Lemma snapshotLess_cmp x y : snapshotLess x y = ltOf snapshotCmp x y.
Proof.
  unfold snapshotLess, snapshotCmp, ltOf, cmpThen, cmpOn. by apply link_bytes, link_Z.
Qed.

Lemma feeLess_cmp x y : feeLess x y = ltOf feeCmp x y.
Proof.
  unfold feeLess. rewrite snapshotLess_cmp. unfold ltOf.
  change (feeCmp x y) with
    (match EffectiveFeePerGas y ?= EffectiveFeePerGas x with Eq => snapshotCmp x y | r => r end).
  rewrite (Z.compare_antisym (EffectiveFeePerGas x) (EffectiveFeePerGas y)).
  by destruct (EffectiveFeePerGas x ?= EffectiveFeePerGas y).
Qed.

Lemma snapshotCmp_eq x y : snapshotCmp x y = Eq -> t_Hash x = t_Hash y.
Proof. intros (_ & (_ & H)%cmpThen_eq)%cmpThen_eq. by apply bytesCmp_eq. Qed.

Lemma feeCmp_eq x y : feeCmp x y = Eq -> t_Hash x = t_Hash y.
Proof. intros (_ & H)%cmpThen_eq. by apply snapshotCmp_eq. Qed.

(** Distinct hashes leave no ties. *)
Lemma no_ties cmp l x y :
  (forall a b, cmp a b = Eq -> t_Hash a = t_Hash b) ->
  NoDup (map t_Hash l) -> x ∈ l -> y ∈ l -> cmp x y = Eq -> x = y.
Proof. intros Hc Hnd Hx Hy E%Hc. by apply (NoDup_map_inj t_Hash l). Qed.

(** ** The store *)

Abbreviation stored := (keyedBy t_Hash).

Lemma store_each (txs : list Transaction) (m : gmap bytes Transaction) :
  stored m -> stored (fold_left (fun next tx => <[t_Hash tx := tx]> next) txs m).
Proof.
  revert m. induction txs as [|tx txs IH]; intros m Hm; [done|]. cbn. apply IH.
  intros h x [[<- <-]|[_ Hx]]%lookup_insert_Some; [done|by apply Hm].
Qed.

Lemma ReplaceAll_stored txs s : stored (ReplaceAll txs s).
Proof.
  apply (store_each txs ∅). intros h x Hx. by rewrite lookup_empty in Hx.
Qed.

Lemma Snapshot_perm order s : rangesOver order -> Transactions (Snapshot order s) ≡ₚ (map_to_list s).*2.
Proof.
  intros Ho. etransitivity; [apply (sortSlice_Permutation _ _ snapshotLess_cmp)|apply Ho].
Qed.

Lemma Snapshot_hashes order s :
  rangesOver order -> stored s -> NoDup (map t_Hash (Transactions (Snapshot order s))).
Proof.
  intros Ho Hs. apply (NoDup_perm _ _ (Permutation_map _ (Snapshot_perm order s Ho))). by apply keyedBy_NoDup.
Qed.

(** ** The builder *)

(** What the first loop of [build] lets through, apart from repeated hashes. *)
Definition listable (tx : Transaction) : Prop := t_Hash tx <> [] /\ t_Gas tx <> 0.

#[global] Instance listable_dec tx : Decision (listable tx).
Proof. unfold listable. apply _. Defined.

Lemma dedupe_listable txs seen :
  NoDup (map t_Hash txs) -> (forall tx, tx ∈ txs -> t_Hash tx ∉ seen) ->
  dedupe txs seen = filter listable txs.
Proof.
  revert seen. induction txs as [|tx txs IH]; intros seen; [done|].
  cbn [map dedupe]. intros [Htx Hnd]%NoDup_cons Hseen.
  assert (forall tx', tx' ∈ txs -> t_Hash tx' <> t_Hash tx) as Hne.
  { intros tx' Hin E. apply Htx. rewrite <- E. by apply list_elem_of_fmap_2. }
  rewrite filter_cons. unfold listable at 1.
  case_bool_decide as Hh; cbn [orb].
  { rewrite decide_False by (intros [? _]; done). apply IH; [done|]. intros tx' Hin. apply Hseen. by right. }
  destruct (Z.eqb_spec (t_Gas tx) 0) as [Hg|Hg].
  { rewrite decide_False by (intros [_ ?]; done). apply IH; [done|]. intros tx' Hin. apply Hseen. by right. }
  rewrite decide_True by done.
  rewrite bool_decide_false by (apply Hseen; by left).
  f_equal. apply IH; [done|]. intros tx' Hin. specialize (Hseen tx' ltac:(by right)). specialize (Hne tx' Hin).
  set_solver.
Qed.

Definition gasOf (txs : list Transaction) : Z := foldr (fun tx acc => t_Gas tx + acc) 0 txs.

Lemma gasOf_app l1 l2 : gasOf (l1 ++ l2) = gasOf l1 + gasOf l2.
Proof. induction l1 as [|x l1 IH]; cbn; [done|]. unfold gasOf in *. rewrite IH. lia. Qed.

Section Selection.
Context (cfg : BuilderConfig).

(** The reference: each transaction is taken when the list has room for it
and its gas. *)
Definition takes (chosen : list Transaction) (tx : Transaction) : bool :=
  (zlen chosen <? MaxTransactions cfg) && (gasOf chosen + t_Gas tx <=? MaxGas cfg).

Definition chooseInto (chosen txs : list Transaction) : list Transaction :=
  fold_left (fun chosen tx => if takes chosen tx then chosen ++ [tx] else chosen) txs chosen.

Lemma chooseInto_cons chosen tx txs :
  chooseInto chosen (tx :: txs) = chooseInto (if takes chosen tx then chosen ++ [tx] else chosen) txs.
Proof. done. Qed.

Lemma chooseInto_full chosen txs : MaxTransactions cfg <= zlen chosen -> chooseInto chosen txs = chosen.
Proof.
  intros H. induction txs as [|tx txs IH]; [done|]. rewrite chooseInto_cons. unfold takes.
  replace (zlen chosen <? MaxTransactions cfg) with false by lia. exact IH.
Qed.

Lemma selectTxs_choose txs chosen :
  MaxGas cfg < 2 ^ 64 -> Forall (fun tx => 0 <= t_Gas tx < 2 ^ 64) txs -> 0 <= gasOf chosen <= MaxGas cfg ->
  selectTxs cfg txs (map itemOf chosen) (gasOf chosen) =
    (map itemOf (chooseInto chosen txs), gasOf (chooseInto chosen txs)) /\
  0 <= gasOf (chooseInto chosen txs) <= MaxGas cfg.
Proof.
  intros Hmax Hgas. revert chosen. induction Hgas as [|tx txs Hg _ IH]; intros chosen Hc; [done|].
  cbn [selectTxs]. rewrite chooseInto_cons, length_map.
  destruct (Z.leb_spec (MaxTransactions cfg) (zlen chosen)) as [Hfull|Hroom].
  { unfold takes. replace (zlen chosen <? MaxTransactions cfg) with false by lia. cbn [andb].
    by rewrite chooseInto_full. }
  rewrite u64_small by lia. unfold takes. replace (zlen chosen <? MaxTransactions cfg) with true by lia. cbn [andb].
  destruct (Z.ltb_spec (MaxGas cfg - gasOf chosen) (t_Gas tx)) as [Hno|Hyes].
  - replace (gasOf chosen + t_Gas tx <=? MaxGas cfg) with false by lia. by apply IH.
  - replace (gasOf chosen + t_Gas tx <=? MaxGas cfg) with true by lia.
    assert (gasOf (chosen ++ [tx]) = gasOf chosen + t_Gas tx) as Hsum by (rewrite gasOf_app; cbn; lia).
    rewrite u64_small by lia. rewrite <- Hsum.
    change [itemOf tx] with (map itemOf [tx]). rewrite <- map_app. apply IH. lia.
Qed.

Lemma chooseInto_sublist txs chosen :
  exists taken, chooseInto chosen txs = chosen ++ taken /\ taken `sublist_of` txs.
Proof.
  revert chosen. induction txs as [|tx txs IH]; intros chosen.
  - exists []. by rewrite app_nil_r.
  - rewrite chooseInto_cons. destruct (takes chosen tx).
    + destruct (IH (chosen ++ [tx])) as (t & Ht & Hs). exists (tx :: t). split.
      * rewrite Ht. by rewrite <- app_assoc.
      * by apply sublist_skip.
    + destruct (IH chosen) as (t & Ht & Hs). exists t. split; [exact Ht|]. by apply sublist_cons.
Qed.

Lemma chooseInto_count txs chosen :
  zlen chosen <= MaxTransactions cfg -> zlen (chooseInto chosen txs) <= MaxTransactions cfg.
Proof.
  revert chosen. induction txs as [|tx txs IH]; intros chosen Hc; [done|]. rewrite chooseInto_cons.
  apply IH. unfold takes. destruct (Z.ltb_spec (zlen chosen) (MaxTransactions cfg)); cbn [andb]; [|done].
  destruct (_ <=? _); [|done]. rewrite length_app. cbn. lia.
Qed.
End Selection.

Definition choose (cfg : BuilderConfig) (txs : list Transaction) : list Transaction := chooseInto cfg [] txs.

(** A configuration as [NewBuilder] leaves it, its gas limit an [uint64]. *)
Definition builderOk (cfg : BuilderConfig) : Prop := 0 < MaxTransactions cfg /\ 0 < MaxGas cfg < 2 ^ 64.

Lemma NewBuilder_ok cfg : 0 <= MaxGas cfg < 2 ^ 64 -> builderOk (NewBuilder cfg).
Proof.
  intros Hg. unfold builderOk, NewBuilder. cbn.
  destruct (Z.leb_spec (MaxTransactions cfg) 0), (Z.eqb_spec (MaxGas cfg) 0); lia.
Qed.

Definition gasOk (txs : list Transaction) : Prop := Forall (fun tx => 0 <= t_Gas tx < 2 ^ 64) txs.

Lemma build_choose cfg txs (b : bool) :
  builderOk cfg -> gasOk txs -> NoDup (map t_Hash txs) ->
  let candidates : list Transaction := filter listable txs in
  let chosen := choose cfg (if b then sortSlice feeLess candidates else candidates) in
  served_Items (build cfg txs b) = map itemOf chosen /\ Count (build cfg txs b) = zlen chosen /\
  TotalGas (build cfg txs b) = gasOf chosen /\ gasOf chosen <= MaxGas cfg.
Proof.
  intros [Hn Hg] Hgas Hnd. cbn zeta. unfold build. rewrite dedupe_listable by (done || set_solver).
  set (candidates := filter listable txs : list Transaction).
  assert (gasOk candidates) as Hc.
  { apply Forall_forall. intros tx [_ Hin]%list_elem_of_filter. unfold gasOk in Hgas.
    rewrite Forall_forall in Hgas. by apply Hgas. }
  assert (gasOk (if b then sortSlice feeLess candidates else candidates)) as Hc'.
  { destruct b; [|done]. apply Forall_forall. intros tx Hin.
    rewrite (elem_perm _ _ _ (sortSlice_Permutation _ _ feeLess_cmp candidates)) in Hin.
    unfold gasOk in Hc. rewrite Forall_forall in Hc. by apply Hc. }
  destruct (selectTxs_choose cfg _ [] ltac:(lia) Hc' ltac:(cbn; lia)) as [E H]. cbn [map gasOf foldr] in E.
  rewrite E. cbn. rewrite length_map. repeat split. exact (proj2 H).
Qed.

Lemma store_each_from (txs : list Transaction) (m : gmap bytes Transaction) h tx :
  fold_left (fun next tx => <[t_Hash tx := tx]> next) txs m !! h = Some tx -> tx ∈ txs \/ m !! h = Some tx.
Proof.
  revert m. induction txs as [|tx' txs IH]; intros m; cbn [fold_left]; [by right|].
  intros [H|[[_ ->]|[_ H]]%lookup_insert_Some]%IH; [by left; right|by left; left|by right].
Qed.

Lemma ReplaceAll_from txs s h tx : ReplaceAll txs s !! h = Some tx -> tx ∈ txs.
Proof. intros [H|H]%(store_each_from txs ∅); [done|]. by rewrite lookup_empty in H. Qed.

Lemma stored_gas txs s : gasOk txs -> gasOk (map_to_list (ReplaceAll txs s)).*2.
Proof.
  unfold gasOk. rewrite !Forall_forall. intros H tx ([h tx'] & -> & Hin)%list_elem_of_fmap.
  apply H. apply elem_of_map_to_list in Hin. by apply ReplaceAll_from in Hin.
Qed.

(** The list of a snapshot does not depend on how Go ranged over the store or
    sorted. *)
Lemma snapshot_sorted order s sorted :
  rangesOver order -> stored s ->
  SortsTo feeLess (filter listable (map_to_list s).*2) sorted ->
  sortSlice feeLess (filter listable (Transactions (Snapshot order s))) = sorted.
Proof.
  intros Ho Hs Hsorted. symmetry.
  assert (filter listable (Transactions (Snapshot order s)) ≡ₚ filter listable (map_to_list s).*2) as Hp.
  { apply filter_Permutation. by apply Snapshot_perm. }
  apply (sortSlice_unique _ _ feeLess_cmp).
  - intros x y [_ Hx]%list_elem_of_filter [_ Hy]%list_elem_of_filter.
    apply (no_ties _ (Transactions (Snapshot order s)) x y feeCmp_eq); [by apply Snapshot_hashes|done..].
  - destruct Hsorted as [P S]. split; [by rewrite P, Hp|done].
Qed.

(** C26. The inclusion list the service builds from its store, whatever the
    order in which Go visits the map and however [sort.Slice] sorts: take the
    stored transactions with a hash and gas, in any order that sorts them by
    fee (then sender, nonce and hash); its items are those that fit, one by one,
    within the configured count and gas after the ones taken before. The gas it
    reports is their exact sum, within the limit although the code computes in
    [uint64], no hash appears twice, and its digest is taken over its own
    lines. *)
Theorem build_sound cfg order txs s sorted :
  rangesOver order -> 0 <= MaxGas cfg < 2 ^ 64 -> gasOk txs ->
  SortsTo feeLess (filter listable (map_to_list (ReplaceAll txs s)).*2) sorted ->
  let l := Build (NewBuilder cfg) (Snapshot order (ReplaceAll txs s)) in
  let chosen := choose (NewBuilder cfg) sorted in
  l = mkServed (map itemOf chosen) (zlen chosen) (gasOf chosen)
        (str "0x" ++ hashHex (Join (map itemLine (map itemOf chosen)) [10])) /\
  zlen chosen <= MaxTransactions (NewBuilder cfg) /\ 0 <= gasOf chosen <= MaxGas (NewBuilder cfg) /\
  NoDup (map i_Hash (served_Items l)) /\ Forall (fun tx => listable tx /\ tx ∈ txs) chosen.
Proof.
  intros Ho Hcfg Hgas Hsorted l chosen.
  pose proof (ReplaceAll_stored txs s) as Hs. pose proof (NewBuilder_ok cfg Hcfg) as [Hn Hg].
  set (kept := ReplaceAll txs s) in *.
  assert (forall tx, tx ∈ sorted -> listable tx /\ tx ∈ (map_to_list kept).*2) as Hin.
  { intros tx Htx%(elem_perm _ _ tx (proj1 Hsorted)). by apply list_elem_of_filter in Htx. }
  assert (gasOk sorted) as Hgs.
  { apply Forall_forall. intros tx [_ Htx]%Hin. pose proof (stored_gas txs s Hgas) as Hk.
    unfold gasOk in Hk. rewrite Forall_forall in Hk. by apply Hk. }
  destruct (selectTxs_choose (NewBuilder cfg) sorted [] ltac:(lia) Hgs ltac:(cbn [gasOf foldr]; lia)) as [E Hle].
  destruct (chooseInto_sublist (NewBuilder cfg) sorted []) as (taken & Htaken & Hsub). cbn [app] in Htaken.
  assert (l = mkServed (map itemOf chosen) (zlen chosen) (gasOf chosen)
    (str "0x" ++ hashHex (Join (map itemLine (map itemOf chosen)) [10]))) as El.
  { unfold l, Build, build. rewrite dedupe_listable by (by apply Snapshot_hashes || set_solver).
    rewrite (snapshot_sorted order kept sorted Ho Hs Hsorted). cbn [map gasOf foldr] in E. rewrite E.
    by rewrite length_map. }
  split; [done|]. split; [apply chooseInto_count; cbn [length]; lia|]. split; [done|]. split.
  - rewrite El. cbn [served_Items]. rewrite map_map. cbn [itemOf i_Hash].
    unfold chosen, choose. rewrite Htaken.
    apply (sublist_NoDup _ (map t_Hash sorted)); [|by apply (fmap_sublist t_Hash)].
    apply (NoDup_perm _ _ (Permutation_map _ (proj1 Hsorted))).
    apply (sublist_NoDup _ (map t_Hash (map_to_list kept).*2)); [by apply keyedBy_NoDup|].
    apply (fmap_sublist t_Hash), sublist_filter.
  - apply Forall_forall. intros tx Htx. unfold chosen, choose in Htx. rewrite Htaken in Htx.
    apply (elem_of_sublist _ _ _ Htx) in Hsub. destruct (Hin tx Hsub) as [Hl Hk].
    split; [done|]. apply list_elem_of_fmap in Hk as ([h tx'] & -> & Hk). apply elem_of_map_to_list in Hk.
    by apply ReplaceAll_from in Hk.
Qed.

(** ** The tracker of pending transactions *)

Definition senderNonce (tx : Transaction) : bytes * Z := (t_From tx, t_Nonce tx).

(** [nonceKey] as a function of sender and nonce. *)
Definition keyText (k : bytes * Z) : bytes := k.1 ++ str "|" ++ decimal k.2.

Lemma keyText_inj k k' : 0 <= k.2 -> 0 <= k'.2 -> keyText k = keyText k' -> k = k'.
Proof.
  intros Hk Hk' E. destruct k as [a m], k' as [b n]. unfold keyText in E. cbn in *.
  by destruct (decimal_split a b 124 m n Hk Hk' eq_refl E) as [-> ->].
Qed.

(** The abstract tracker: the best transaction for each sender and nonce. *)
Abbreviation book := (gmap (bytes * Z) trackedPendingTx).

(** [tx] does not replace [existing]. *)
Definition worse (tx existing : Transaction) : bool :=
  (EffectiveFeePerGas tx <? EffectiveFeePerGas existing) ||
  ((EffectiveFeePerGas tx =? EffectiveFeePerGas existing) && bytesLt (t_Hash existing) (t_Hash tx)).

Definition record (now : Z) (b : book) (tx : Transaction) : book :=
  match b !! senderNonce tx with
  | Some existing => if worse tx (tr_tx existing) then b else <[senderNonce tx := mkTracked tx now]> b
  | None => <[senderNonce tx := mkTracked tx now]> b
  end.

Definition fresh (ttl now : Z) (t : trackedPendingTx) : Prop := now - updatedAt t <= ttl.

#[global] Instance fresh_dec ttl now t : Decision (fresh ttl now t).
Proof. unfold fresh. apply _. Defined.

Definition prune (ttl now : Z) (b : book) : book := filter (fun kt => fresh ttl now kt.2) b.

(** What the endpoint says about a hash, as a transaction. *)
Definition heardOf (uni : bytes -> bytes) (undefinedInt : bytes -> Z) (answers : rpcAnswers) (hash : bytes)
  : option Transaction :=
  let hash := ToLower uni (TrimSpace hash) in
  if bool_decide (hash ∈ [[]; str "0x"]) then None
  else
    match transactionByHash answers hash with
    | Ok (Some raw) =>
        match normalizeTx uni undefinedInt raw false with
        | Ok tx => Some (ClassifyAndParse uni tx)
        | _ => None
        end
    | _ => None
    end.

Lemma trackHash_heard uni undefinedInt answers now c hash :
  trackHash uni undefinedInt answers now c hash =
  match heardOf uni undefinedInt answers hash with
  | Some tx => upsert tx now c
  | None => c
  end.
Proof.
  unfold trackHash, heardOf. case_bool_decide; [done|].
  destruct (transactionByHash _ _) as [[raw|]| |]; [|done..]. by destruct (normalizeTx _ _ _ _).
Qed.

Lemma fold_heard uni undefinedInt answers now hashes c :
  fold_left (trackHash uni undefinedInt answers now) hashes c =
  fold_left (fun c tx => upsert tx now c) (omap (heardOf uni undefinedInt answers) hashes) c.
Proof.
  revert c. induction hashes as [|h hashes IH]; intros c; [done|]. cbn [fold_left omap list_omap].
  rewrite trackHash_heard. destruct (heardOf _ _ _ h); apply IH.
Qed.

Lemma digitsIn_nonneg base ds acc n : 0 <= base -> 0 <= acc -> digitsIn base ds acc = Some n -> 0 <= n.
Proof.
  intros Hb. revert acc. induction ds as [|c ds IH]; intros acc Ha; cbn [digitsIn]; [by intros [= <-]|].
  destruct (fromHexChar c) as [d|] eqn:E; [|done]. destruct (d <? base); [|done].
  apply IH. assert (0 <= d); [|nia].
  unfold fromHexChar in E. repeat case_match; simplify_eq; lia.
Qed.

Lemma parseHexUint64_range uni v n : parseHexUint64 uni v = Some n -> 0 <= n < 2 ^ 64.
Proof.
  assert (forall base s n, 0 <= base -> ParseUint base s = Some n -> 0 <= n < 2 ^ 64) as H.
  { intros base s k Hb. unfold ParseUint. case_bool_decide; [done|].
    destruct (digitsIn base s 0) as [m|] eqn:E; [|done]. apply digitsIn_nonneg in E; [|done..].
    destruct (Z.ltb_spec m (2 ^ 64)); [|done]. intros [= <-]. lia. }
  unfold parseHexUint64. case_bool_decide; [intros [= <-]; lia|].
  destruct (stripPrefix _ _); by apply H.
Qed.

Lemma heardOf_nonce uni undefinedInt answers hash tx :
  heardOf uni undefinedInt answers hash = Some tx -> 0 <= t_Nonce tx.
Proof.
  unfold heardOf. case_bool_decide; [done|]. destruct (transactionByHash _ _) as [[raw|]| |]; [|done..].
  unfold normalizeTx. destruct (parseHexUint64 uni (rpc_Nonce raw)) as [n|] eqn:En; [|done].
  destruct (parseHexUint64 uni (rpc_Gas raw)); [|done]. intros [= <-]. apply parseHexUint64_range in En.
  unfold ClassifyAndParse, set_placeholder. destruct (ParsePlaceholderCalldata _ _); cbn; lia.
Qed.

Section Refinement.
(** A transaction hash commits to the sender and nonce of the transaction. *)
Context (keyOf : bytes -> bytes * Z).

Definition commits (tx : Transaction) : Prop := keyOf (t_Hash tx) = senderNonce tx /\ 0 <= t_Nonce tx.

(** The two maps of the tracker hold the book, by hash and by key. *)
Record represents (c : tracker) (b : book) : Prop := mkRepresents {
  rep_byHash : forall h t, byHash c !! h = Some t <-> t_Hash (tr_tx t) = h /\ b !! senderNonce (tr_tx t) = Some t;
  rep_book : forall k t, b !! k = Some t -> senderNonce (tr_tx t) = k /\ commits (tr_tx t);
  rep_bySender : forall k, 0 <= k.2 -> bySenderNonce c !! keyText k = (fun t => t_Hash (tr_tx t)) <$> b !! k
}.

Lemma represents_empty id : represents (mkTracker id ∅ ∅) ∅.
Proof.
  split; cbn.
  - intros h t. rewrite !lookup_empty. split; [done|by intros [_ ?]].
  - intros k t. by rewrite lookup_empty.
  - intros k _. by rewrite !lookup_empty.
Qed.

Lemma set_filterID_represents id c b : represents c b -> represents (set_filterID id c) b.
Proof. by intros []. Qed.

(** Dropping a key from the book, in both maps. *)
Lemma drop_byHash c b k ex h t :
  represents c b -> b !! k = Some ex ->
  delete (t_Hash (tr_tx ex)) (byHash c) !! h = Some t <->
  t_Hash (tr_tx t) = h /\ delete k b !! senderNonce (tr_tx t) = Some t.
Proof.
  intros R Hex. destruct (rep_book c b R k ex Hex) as [Hk [Hco _]].
  rewrite !lookup_delete_Some, (rep_byHash c b R). split.
  - intros (Hne & Hh & Ht). split; [done|]. split; [|done]. intros E.
    rewrite <- E, Hex in Ht. injection Ht as ->. done.
  - intros (Hh & Hne & Ht). split; [|done]. intros E. apply Hne.
    destruct (rep_book c b R _ t Ht) as [_ [Hco' _]]. rewrite <- Hk, <- Hco, <- Hco'. congruence.
Qed.

(** Writing a transaction over its key, once the key is free. *)
Lemma insert_represents c b kept tx now :
  represents c b -> commits tx ->
  (forall h t, kept !! h = Some t <-> t_Hash (tr_tx t) = h /\ delete (senderNonce tx) b !! senderNonce (tr_tx t) = Some t) ->
  represents
    (mkTracker (filterID c) (<[t_Hash tx := mkTracked tx now]> kept) (<[nonceKey tx := t_Hash tx]> (bySenderNonce c)))
    (<[senderNonce tx := mkTracked tx now]> b).
Proof.
  intros R [Hco Hn] Hkept. split; cbn [byHash bySenderNonce].
  - intros h t. rewrite lookup_insert_Some, Hkept, lookup_insert_Some, lookup_delete_Some. split.
    + intros [[<- <-]|(Hne & Hh & Hk & Ht)]; cbn; auto.
    + intros [Hh [[Hk Ht]|[Hk Ht]]]; [left; by subst|]. right. split; [|done]. intros E. apply Hk.
      destruct (rep_book c b R _ t Ht) as [_ [Hco' _]]. rewrite <- Hco, <- Hco'. congruence.
  - intros k t [[<- <-]|[_ Ht]]%lookup_insert_Some; [done|]. by apply (rep_book c b R).
  - intros k Hk. destruct (decide (k = senderNonce tx)) as [->|Hne].
    + change (keyText (senderNonce tx)) with (nonceKey tx). by rewrite !lookup_insert_eq.
    + rewrite !lookup_insert_ne by
        (done || (intros E; apply Hne; symmetry; by apply (keyText_inj (senderNonce tx)))).
      by apply (rep_bySender c b R).
Qed.

Lemma worse_displaced c existing tx h :
  bySenderNonce c !! nonceKey tx = Some h -> byHash c !! h = Some existing ->
  displaced c tx = if worse tx (tr_tx existing) then None else Some (delete h (byHash c)).
Proof.
  intros E1 E2. unfold displaced. rewrite E1, E2. unfold worse, Z.ltb.
  rewrite (Z.eqb_compare (EffectiveFeePerGas tx)). by destruct (EffectiveFeePerGas tx ?= _).
Qed.

Lemma upsert_represents c b tx now :
  represents c b -> commits tx -> represents (upsert tx now c) (record now b tx).
Proof.
  intros R Hco. pose proof (rep_bySender c b R (senderNonce tx) (proj2 Hco)) as Hs.
  change (keyText (senderNonce tx)) with (nonceKey tx) in Hs. unfold upsert, record.
  destruct (b !! senderNonce tx) as [ex|] eqn:Hex; cbn in Hs.
  - rewrite (worse_displaced c ex tx _ Hs) by (apply (rep_byHash c b R); by rewrite (proj1 (rep_book c b R _ _ Hex))).
    destruct (worse tx (tr_tx ex)); [done|]. apply insert_represents; [done..|].
    intros h t. by apply drop_byHash.
  - unfold displaced. rewrite Hs. apply insert_represents; [done..|].
    intros h t. by rewrite delete_id, (rep_byHash c b R).
Qed.

Lemma upserts_represents txs c b now :
  Forall commits txs -> represents c b ->
  represents (fold_left (fun c tx => upsert tx now c) txs c) (fold_left (record now) txs b).
Proof.
  intros Htxs. revert c b. induction Htxs as [|tx txs Htx _ IH]; intros c b R; [done|].
  cbn. by apply IH, upsert_represents.
Qed.

Lemma drop_represents c b ex :
  represents c b -> b !! senderNonce (tr_tx ex) = Some ex ->
  represents (mkTracker (filterID c) (delete (t_Hash (tr_tx ex)) (byHash c)) (delete (nonceKey (tr_tx ex)) (bySenderNonce c)))
    (delete (senderNonce (tr_tx ex)) b).
Proof.
  intros R Hex. destruct (rep_book c b R _ ex Hex) as [_ [_ Hn]]. split; cbn [byHash bySenderNonce].
  - intros h t. by apply drop_byHash.
  - intros k t [_ Ht]%lookup_delete_Some. by apply (rep_book c b R).
  - intros k Hk. change (nonceKey (tr_tx ex)) with (keyText (senderNonce (tr_tx ex))).
    destruct (decide (k = senderNonce (tr_tx ex))) as [->|Hne]; [by rewrite !lookup_delete_eq|].
    rewrite !lookup_delete_ne by
      (done || (intros E; apply Hne; symmetry; by apply (keyText_inj (senderNonce (tr_tx ex))))).
    by apply (rep_bySender c b R).
Qed.

(** The hash leads to one entry of the book. *)
Lemma book_by_hash c b k k' t t' :
  represents c b -> b !! k = Some t -> b !! k' = Some t' -> t_Hash (tr_tx t) = t_Hash (tr_tx t') -> k = k' /\ t = t'.
Proof.
  intros R Ht Ht' E. destruct (rep_book c b R k t Ht) as [Hk [Hc _]].
  destruct (rep_book c b R k' t' Ht') as [Hk' [Hc' _]].
  assert (k = k') as -> by congruence. split; [done|]. congruence.
Qed.

(** One key of [expire]. *)
Definition pruneOne (ttl now : Z) (h : bytes) (b : book) : book :=
  filter (fun kt => t_Hash (tr_tx kt.2) <> h \/ fresh ttl now kt.2) b.

Lemma pruneOne_delete ttl now c b t :
  represents c b -> b !! senderNonce (tr_tx t) = Some t -> ~ fresh ttl now t ->
  pruneOne ttl now (t_Hash (tr_tx t)) b = delete (senderNonce (tr_tx t)) b.
Proof.
  intros R Ht Hold. apply map_eq. intros k. apply option_eq. intros t'. unfold pruneOne.
  rewrite map_lookup_filter_Some, lookup_delete_Some. cbn. split.
  - intros [Ht' Hor]. split; [|done]. intros <-. rewrite Ht in Ht'. injection Ht' as <-. tauto.
  - intros [Hk Ht']. split; [done|]. left. intros E.
    by destruct (book_by_hash c b _ _ _ _ R Ht' Ht E).
Qed.

Lemma expireOne_represents ttl now h c b :
  represents c b -> represents (expireOne ttl now h c) (pruneOne ttl now h b).
Proof.
  intros R. unfold expireOne.
  destruct (byHash c !! h) as [t|] eqn:Eh.
  - destruct (proj1 (rep_byHash c b R h t) Eh) as [<- Ht]. destruct (Z.leb_spec (now - updatedAt t) ttl) as [Hf|Hf].
    + unfold pruneOne. rewrite map_filter_id; [done|]. intros k t' Ht'. cbn.
      destruct (decide (t_Hash (tr_tx t') = t_Hash (tr_tx t))) as [E|]; [|by left]. right.
      destruct (book_by_hash c b _ _ _ _ R Ht' Ht E) as [_ ->]. exact Hf.
    + rewrite (pruneOne_delete ttl now c b t R Ht) by (unfold fresh; lia).
      destruct (rep_book c b R _ t Ht) as [_ [_ Hn]].
      pose proof (rep_bySender c b R (senderNonce (tr_tx t)) Hn) as Hs.
      change (keyText _) with (nonceKey (tr_tx t)) in Hs. rewrite Ht in Hs. cbn in Hs.
      rewrite Hs, bool_decide_true by done. by apply drop_represents.
  - unfold pruneOne. rewrite map_filter_id; [done|]. intros k t' Ht'. left. cbn. intros E.
    assert (byHash c !! h = Some t') as E'; [|by rewrite Eh in E'].
    apply (rep_byHash c b R). split; [done|]. by rewrite (proj1 (rep_book c b R _ _ Ht')).
Qed.

Lemma expire_represents ttl now hashes c b :
  represents c b -> represents (expire ttl now hashes c) (fold_left (fun b h => pruneOne ttl now h b) hashes b).
Proof.
  unfold expire. revert c b. induction hashes as [|h hashes IH]; intros c b R; [done|].
  cbn. by apply IH, expireOne_represents.
Qed.

Lemma pruneOnes_lookup ttl now hashes b k t :
  fold_left (fun b h => pruneOne ttl now h b) hashes b !! k = Some t <->
  b !! k = Some t /\ (t_Hash (tr_tx t) ∈ hashes -> fresh ttl now t).
Proof.
  revert b. induction hashes as [|h hashes IH]; intros b; cbn [fold_left].
  - split; [|by intros []]. intros H. split; [done|]. intros Hin. by apply elem_of_nil in Hin.
  - rewrite IH. unfold pruneOne. rewrite map_lookup_filter_Some, elem_of_cons. cbn.
    destruct (decide (t_Hash (tr_tx t) = h)); tauto.
Qed.

(** Visiting every tracked hash prunes the book. *)
Lemma expire_prunes ttl now hashes c b :
  represents c b -> (forall h, is_Some (byHash c !! h) -> h ∈ hashes) ->
  represents (expire ttl now hashes c) (prune ttl now b).
Proof.
  intros R Hall. assert (fold_left (fun b h => pruneOne ttl now h b) hashes b = prune ttl now b) as <-.
  - apply map_eq. intros k. apply option_eq. intros t. rewrite pruneOnes_lookup. unfold prune.
    rewrite map_lookup_filter_Some. cbn. split; [|tauto]. intros [Ht Hf]. split; [done|]. apply Hf, Hall.
    exists t. apply (rep_byHash c b R). split; [done|]. by rewrite (proj1 (rep_book c b R _ _ Ht)).
  - by apply expire_represents.
Qed.

(** The tracked entries are those of the book. *)
Lemma represents_values c b : represents c b -> (map_to_list (byHash c)).*2 ≡ₚ (map_to_list b).*2.
Proof.
  intros R. apply list.NoDup_Permutation.
  - apply (NoDup_fmap_1 (fun t => t_Hash (tr_tx t))). apply keyedBy_NoDup. intros h t Ht.
    by apply (rep_byHash c b R) in Ht as [? _].
  - apply NoDup_fmap_2_strong; [|apply NoDup_map_to_list].
    intros [k t] [k' t'] Hk%elem_of_map_to_list Hk'%elem_of_map_to_list E. cbn in E. subst t'.
    by destruct (book_by_hash c b k k' t t R Hk Hk' eq_refl) as [-> _].
  - intros t. rewrite !list_elem_of_fmap. split.
    + intros ([h t'] & -> & Ht%elem_of_map_to_list). apply (rep_byHash c b R) in Ht as [_ Ht].
      exists (senderNonce (tr_tx t'), t'). split; [done|]. by apply elem_of_map_to_list.
    + intros ([k t'] & -> & Ht%elem_of_map_to_list). exists (t_Hash (tr_tx t'), t'). split; [done|].
      apply elem_of_map_to_list, (rep_byHash c b R). split; [done|]. by rewrite (proj1 (rep_book c b R _ _ Ht)).
Qed.
End Refinement.

Section Fetches.
Context (uni : bytes -> bytes) (undefinedInt : bytes -> Z) (keyOf : bytes -> bytes * Z).

(** Go visits every key of the map. *)
Definition visitsKeys (order : gmap bytes trackedPendingTx -> list bytes) : Prop :=
  forall m h, is_Some (m !! h) -> h ∈ order m.

(** What one [Fetch] does to the book. *)
Definition fetchBook (ttl now : Z) (answers : rpcAnswers) (hashes : list bytes) (b : book) : book :=
  prune ttl now (fold_left (record now) (omap (heardOf uni undefinedInt answers) hashes) b).

(** The endpoint tells of transactions under hashes that commit to them. *)
Definition honestEndpoint (answers : rpcAnswers) : Prop :=
  forall hash tx, heardOf uni undefinedInt answers hash = Some tx -> keyOf (t_Hash tx) = senderNonce tx.

Lemma pendingHashes_represents answers c b :
  represents keyOf c b -> represents keyOf (pendingHashes uni answers c).1 b.
Proof.
  intros R. unfold pendingHashes, ensureFilter.
  repeat (case_match; simplify_eq; cbn [fst]; try done; try by apply set_filterID_represents);
    by repeat apply set_filterID_represents.
Qed.

Lemma book_keys c b : represents keyOf c b -> NoDup (map (fun t => senderNonce (tr_tx t)) (map_to_list b).*2).
Proof.
  intros R. apply keyedBy_NoDup. intros k t Ht. by apply (rep_book keyOf c b R).
Qed.
End Fetches.

(** C25. The tracker of pending transactions refines a book that holds, for
    each sender and nonce, the best transaction heard of: a [Fetch] that gets
    the filter's changes records them, in order, each replacing the one of its
    sender and nonce unless it pays less, or pays the same with a larger hash;
    then forgets what is older than the time to live; and returns exactly the
    book's transactions, no two with the same sender and nonce. A [Fetch] that
    fails leaves the book unchanged. The empty tracker is the empty book. *)
Theorem tracker_refines uni undefinedInt keyOf order values ttl now answers c b :
  visitsKeys order -> rangesOver values -> honestEndpoint uni undefinedInt keyOf answers -> represents keyOf c b ->
  let run := trackerFetch uni undefinedInt order values ttl now answers c in
  (forall id, represents keyOf (mkTracker id ∅ ∅) ∅) /\
  match (pendingHashes uni answers c).2 with
  | Ok hashes =>
      let kept := fetchBook uni undefinedInt ttl now answers hashes b in
      represents keyOf run.1 kept /\
      exists txs, run.2 = Ok txs /\ txs ≡ₚ map tr_tx (map_to_list kept).*2 /\ NoDup (map senderNonce txs)
  | Err e => represents keyOf run.1 b /\ run.2 = Err e
  | Crash => represents keyOf run.1 b /\ run.2 = Crash
  end.
Proof.
  intros Ho Hv Hhonest R. pose proof (pendingHashes_represents uni keyOf answers c b R) as R1.
  cbn zeta. unfold trackerFetch. destruct (pendingHashes uni answers c) as [c1 [hashes|e|]]; cbn [fst snd] in *;
    (split; [apply represents_empty|]); [|done..].
  rewrite fold_heard. set (heard := omap _ hashes). assert (Forall (commits keyOf) heard) as Hheard.
  { apply Forall_forall. intros tx (h & _ & Htx)%list_elem_of_omap. split; [by apply (Hhonest h)|].
    by apply heardOf_nonce in Htx. }
  set (c2 := fold_left _ heard c1).
  assert (represents keyOf (expire ttl now (order (byHash c2)) c2) (fetchBook uni undefinedInt ttl now answers hashes b)) as R2.
  { apply expire_prunes; [by apply upserts_represents|]. intros h. apply Ho. }
  split; [done|]. eexists. split; [done|].
  assert (map tr_tx (values (byHash (expire ttl now (order (byHash c2)) c2))) ≡ₚ
          map tr_tx (map_to_list (fetchBook uni undefinedInt ttl now answers hashes b)).*2) as Hp.
  { apply Permutation_map. etransitivity; [apply Hv|]. by apply represents_values with keyOf. }
  split; [done|]. apply (NoDup_perm _ _ (Permutation_map _ Hp)). rewrite map_map. exact (book_keys keyOf _ _ R2).
Qed.

(** A filter identifier that is refused is kept: the next call goes on with it. *)
Lemma refused_filter_kept uni answer c :
  filterID c = [] ->
  let run := ensureFilter uni (Ok (str "0x")) c in
  run.2 <> None /\ ensureFilter uni answer run.1 = (run.1, None).
Proof. intros Hc. unfold ensureFilter. rewrite Hc. done. Qed.
