(* ===== verification/Targets.v ===== *)
(** * Targets: signed transactions and their placeholders

    Models the submitter side of the prototype in
    [src/mempool-il/internal/mempool]: reading a corpus of signed Ethereum
    transactions ([replay_placeholder.go]), the strict corpora of the
    evaluation ([corpus.go]), and wrapping an encrypted transaction into a
    signed placeholder transaction ([replay_placeholder.go],
    [estimateCarrierGas] of [corpus_report.go], which also prepares the rows of
    the client-overhead report).

    go-ethereum is a parameter, the class [Ethereum]; a corpus file is the list
    of its lines, and [jsonEntry] decodes a line that is a JSON object. *)

From S2P Require Import Prelude Order GoStrings Sha256 Mempool.

(** ** go-ethereum *)

(** [types.DynamicFeeTx] *)
Record DynamicFeeTx := mkDynamicFeeTx {
  dyn_ChainID : Z;
  dyn_Nonce : Z;
  GasTipCap : Z;
  GasFeeCap : Z;
  dyn_Gas : Z;
  dyn_To : bytes;
  dyn_Value : Z;
  dyn_Data : bytes
}.

(** Text results ([tx_Hash], [tx_Sender], [tx_To]) are those of [Hex()]. *)
Class Ethereum := {
  EthTx : Type;
  PrivateKey : Type;
  UnmarshalTx : bytes -> option EthTx;
  MarshalTx : EthTx -> option bytes;
  tx_ChainId : EthTx -> option Z;
  tx_Sender : EthTx -> option bytes;
  tx_Hash : EthTx -> bytes;
  tx_To : EthTx -> option bytes;
  tx_Nonce : EthTx -> Z;
  tx_Gas : EthTx -> Z;
  tx_Type : EthTx -> Z;
  tx_GasFeeCap : EthTx -> Z;
  tx_GasPrice : EthTx -> Z;
  tx_Data : EthTx -> bytes;
  HexToHash : bytes -> bytes;
  HexToAddress : bytes -> bytes;
  ToECDSA : bytes -> option PrivateKey;
  SignTx : DynamicFeeTx -> PrivateKey -> option EthTx
}.

Definition DynamicFeeTxType : Z := 2.

(** ** replay_placeholder.go: target transactions *)

Abbreviation corpusClass := bytes.

Definition decodeHexStrict (raw : bytes) : out bytes :=
  let raw := TrimSpace (TrimPrefix raw (str "0x")) in
  if bool_decide (raw = []) then Err "empty raw transaction"
  else
    match hexDecode (if zlen raw mod 2 =? 1 then str "0" ++ raw else raw) with
    | Some b => Ok b
    | None => Err "invalid hex"
    end.

Definition parseDecimalBig (raw : bytes) : Z :=
  let raw := TrimSpace raw in
  if bool_decide (raw = []) then 0 else default 0 (SetString raw).

Record txSummary := mkTxSummary {
  ts_Hash : bytes;
  ts_From : bytes;
  ts_To : bytes;
  ts_Nonce : Z;
  ts_Gas : Z;
  ts_EffectiveFeePerGasWei : bytes;
  ts_Type : Z;
  ts_SizeBytes : Z
}.

(** [estimateCarrierGas], over [uint64]. *)
Definition estimateCarrierGas (calldata : bytes) : Z :=
  u64 (21000 + 10 * fold_left (fun tokens value => u64 (tokens + (if value =? 0 then 1 else 4))) calldata 0).

Section Targets.
Context `{Ethereum} (uni : bytes -> bytes) (jsonEntry : bytes -> out (corpusClass * bytes)).

Record parsedTargetTx := mkTarget {
  DeclaredClass : corpusClass;
  EvidenceClass : corpusClass;
  Raw : bytes;
  Tx : EthTx;
  tgt_Summary : txSummary
}.

Definition effectiveFeePerGas (tx : EthTx) : Z :=
  if tx_Type tx =? DynamicFeeTxType then tx_GasFeeCap tx else tx_GasPrice tx.

(** The fields both [parseTargetRawTx] and [summarizeSignedTx] fill in. *)
Definition summaryOf (tx : EthTx) (from raw : bytes) : txSummary :=
  mkTxSummary (tx_Hash tx) from (default [] (tx_To tx)) (tx_Nonce tx) (tx_Gas tx)
    (decimal (effectiveFeePerGas tx)) (tx_Type tx) (zlen raw).

Definition parseTargetRawTx (rawHex : bytes) : out parsedTargetTx :=
  let? raw := decodeHexStrict rawHex in
  match UnmarshalTx raw with
  | None => Err "decode signed ethereum transaction"
  | Some tx =>
      if bool_decide (tx_ChainId tx = None) || bool_decide (tx_ChainId tx = Some 0) then
        Err "transaction has no chain id"
      else
        match tx_Sender tx with
        | None => Err "recover sender"
        | Some from => Ok (mkTarget [] [] raw tx (summaryOf tx from raw))
        end
  end.

(** The lines of the file. *)
Definition readTargetCorpus (lines : list bytes) : out (list parsedTargetTx) :=
  fold_out (fun acc line =>
    let line := TrimSpace line in
    if bool_decide (line = []) then Ok acc
    else
      let? (declaredClass, rawHex) := if bool_decide (is_Some (stripPrefix (str "{") line)) then jsonEntry line else Ok ([], line) in
      let? target := parseTargetRawTx rawHex in
      Ok (acc ++ [mkTarget declaredClass (EvidenceClass target) (Raw target) (Tx target) (tgt_Summary target)]))
    lines [].

(** ** corpus.go *)

Record corpusClassSpec := mkSpec {
  spec_Name : corpusClass;
  spec_CalldataBytes : Z;
  spec_Rows : Z
}.

Definition corpusClassTransfer : corpusClass := str "transfer".
Definition corpusClass128 : corpusClass := str "calldata_128".
Definition corpusClass256 : corpusClass := str "calldata_256".
Definition corpusClass1024 : corpusClass := str "calldata_1024".
Definition corpusClass4096 : corpusClass := str "calldata_4096".

Definition clientOverheadCorpusClasses : list corpusClassSpec :=
  [mkSpec corpusClassTransfer 0 100; mkSpec corpusClass128 128 100; mkSpec corpusClass256 256 100;
   mkSpec corpusClass1024 1024 100; mkSpec corpusClass4096 4096 100].

Definition protocolWorkloadClasses : list corpusClassSpec :=
  [mkSpec corpusClassTransfer 0 143; mkSpec corpusClass128 128 256; mkSpec corpusClass256 256 62;
   mkSpec corpusClass1024 1024 41; mkSpec corpusClass4096 4096 10].

(** The counts of a prefix, in the order of the classes. *)
Definition prefixCounts (counts : list Z) : list (corpusClass * Z) :=
  combine [corpusClassTransfer; corpusClass128; corpusClass256; corpusClass1024; corpusClass4096] counts.

Definition protocolWorkloadPrefixes : list (Z * list (corpusClass * Z)) :=
  [(8, prefixCounts [2; 4; 1; 1; 0]); (32, prefixCounts [9; 16; 4; 2; 1]);
   (128, prefixCounts [36; 64; 15; 10; 3]); (512, prefixCounts [143; 256; 62; 41; 10])].

Definition evidenceCorpusChainID : Z := 1337.

Definition classCount (counts : gmap corpusClass Z) (class : corpusClass) : Z := default 0 (counts !! class).

(** One row of [readStrictCorpus]: the row with its class, the hashes and the
class counts so far. *)
Definition strictRow (specs : list corpusClassSpec)
    (st : list parsedTargetTx * gset bytes * gmap corpusClass Z) (target : parsedTargetTx)
  : out (list parsedTargetTx * gset bytes * gmap corpusClass Z) :=
  let '(rows, hashes, counts) := st in
  let specByClass := fold_left (fun m spec => <[spec_Name spec := spec]> m) specs (∅ : gmap corpusClass corpusClassSpec) in
  let specByLength := fold_left (fun m spec => <[spec_CalldataBytes spec := spec]> m) specs (∅ : gmap Z corpusClassSpec) in
  let data := tx_Data (Tx target) in
  if negb (tx_Type (Tx target) =? DynamicFeeTxType) then Err "transaction type, want EIP-1559"
  else if negb (bool_decide (tx_ChainId (Tx target) = Some evidenceCorpusChainID)) then Err "chain id"
  else if tx_Gas (Tx target) <? estimateCarrierGas data then Err "intrinsic gas limit"
  else
    match specByLength !! zlen data with
    | None => Err "want an exact corpus class size"
    | Some spec =>
        if bool_decide (DeclaredClass target = []) then Err "declared class is missing"
        else
          match specByClass !! DeclaredClass target with
          | None => Err "declared class is unknown"
          | Some declaredSpec =>
              if negb (bool_decide (spec_Name declaredSpec = spec_Name spec)) then
                Err "declared class does not match calldata bytes"
              else if bool_decide (ts_Hash (tgt_Summary target) ∈ hashes) then Err "duplicate transaction hash"
              else
                Ok (rows ++ [mkTarget (DeclaredClass target) (spec_Name spec) (Raw target) (Tx target) (tgt_Summary target)],
                    {[ ts_Hash (tgt_Summary target) ]} ∪ hashes,
                    <[spec_Name spec := classCount counts (spec_Name spec) + 1]> counts)
          end
    end.

Definition readStrictCorpus (specs : list corpusClassSpec) (lines : list bytes) : out (list parsedTargetTx) :=
  let? targets := readTargetCorpus lines in
  if negb (zlen targets =? fold_left (fun n spec => n + spec_Rows spec) specs 0) then Err "rows"
  else
    let? (rows, _, counts) := fold_out (strictRow specs) targets ([], ∅, ∅) in
    if forallb (fun spec => classCount counts (spec_Name spec) =? spec_Rows spec) specs then Ok rows
    else Err "class distribution".

Definition readClientOverheadCorpus : list bytes -> out (list parsedTargetTx) :=
  readStrictCorpus clientOverheadCorpusClasses.

(** The class counts of the first rows. *)
Definition evidenceCounts (targets : list parsedTargetTx) : gmap corpusClass Z :=
  fold_left (fun counts target => <[EvidenceClass target := classCount counts (EvidenceClass target) + 1]> counts) targets ∅.

Definition prefixMatches (targets : list parsedTargetTx) (prefix : Z * list (corpusClass * Z)) : bool :=
  let counts := evidenceCounts (take (Z.to_nat prefix.1) targets) in
  forallb (fun cw => classCount counts cw.1 =? cw.2) prefix.2.

Definition readProtocolWorkloadCorpus (lines : list bytes) : out (list parsedTargetTx) :=
  let? targets := readStrictCorpus protocolWorkloadClasses lines in
  if forallb (prefixMatches targets) protocolWorkloadPrefixes then Ok targets
  else Err "prefix class distribution".

(** [buildClientOverheadRows]: what is measured of the targets of each class
in turn, with class, sample index and target hash; [measure] gets the position
over all classes. *)
Definition buildClientOverheadRows {Row : Type} (targets : list parsedTargetTx) (samplesPerClass : Z)
    (measure : parsedTargetTx -> Z -> out Row) : out (list (corpusClass * Z * bytes * Row)) :=
  if negb (samplesPerClass =? 100) then Err "want exactly 100 samples per class"
  else
    let? (rows, _) := fold_out (fun st spec =>
      let classTargets := filter (fun t => EvidenceClass t = spec_Name spec) targets in
      if negb (zlen classTargets =? samplesPerClass) then Err "class target count"
      else
        let? (rows, globalIndex, _) := fold_out (fun st target =>
          let '(rows, globalIndex, sampleIndex) := st in
          let? row := measure target globalIndex in
          Ok (rows ++ [(spec_Name spec, sampleIndex, ts_Hash (tgt_Summary target), row)], globalIndex + 1, sampleIndex + 1))
          classTargets (st, 0) in
        Ok (rows, globalIndex))
      clientOverheadCorpusClasses ([], 0) in
    Ok rows.

(** ** replay_placeholder.go: mock placeholders *)

(** The first of 256 seeds that is a key. *)
Fixpoint keyFrom (index : Z) (attempt : Z) (left : nat) : out PrivateKey :=
  match left with
  | O => Err "could not derive mock placeholder private key"
  | S left' =>
      match ToECDSA (Sum256 (str "bloc-mock-placeholder-" ++ decimal index ++ str "-" ++ decimal attempt)) with
      | Some key => Ok key
      | None => keyFrom index (attempt + 1) left'
      end
  end.

Definition mockPlaceholderPrivateKey (index : Z) : out PrivateKey := keyFrom index 0 256.

Definition summarizeSignedTx (raw : bytes) : out txSummary :=
  match UnmarshalTx raw with
  | None => Err "decode signed transaction"
  | Some tx =>
      match tx_Sender tx with
      | None => Err "recover sender"
      | Some from => Ok (summaryOf tx from raw)
      end
  end.

Definition signMockPlaceholderTx (index : Z) (calldata feeWei : bytes) : out (bytes * txSummary) :=
  let fee := if parseDecimalBig feeWei <=? 0 then 1 else parseDecimalBig feeWei in
  let tip := if fee / 10 =? 0 then 1 else fee / 10 in
  let? key := mockPlaceholderPrivateKey index in
  let tx := mkDynamicFeeTx 1337 (u64 index) tip fee (estimateCarrierGas calldata)
    (HexToAddress (str "0x00000000000000000000000000000000b10c0001")) 0 calldata in
  match SignTx tx key with
  | None => Err "sign placeholder transaction"
  | Some signed =>
      match MarshalTx signed with
      | None => Err "encode placeholder transaction"
      | Some raw => let? summary := summarizeSignedTx raw in Ok (raw, summary)
      end
  end.

Definition buildMockPlaceholderFromCiphertext (target : parsedTargetTx) (index : Z) (encoded : bytes) : out Transaction :=
  let calldata := buildPlaceholderCalldata HexToHash (ts_Hash (tgt_Summary target)) (ts_Gas (tgt_Summary target)) encoded in
  let? (placeholderRaw, summary) := signMockPlaceholderTx index calldata (ts_EffectiveFeePerGasWei (tgt_Summary target)) in
  let fee := parseDecimalBig (ts_EffectiveFeePerGasWei summary) in
  let item := ClassifyAndParse uni (mkTransaction (ts_Hash summary) (ToLower uni (ts_From summary))
    (ToLower uni (ts_To summary)) (ts_Nonce summary) (ts_Gas summary) (str "0x" ++ hexEncode calldata)
    (str "0x" ++ hexEncode placeholderRaw) (Some fee) None None [] None false (Some fee) []
    (ts_Type (tgt_Summary target)) (ts_SizeBytes (tgt_Summary target)) [] [] (ts_Hash summary)
    (str "0x" ++ hexEncode placeholderRaw) 0 (ts_Gas summary)) in
  if negb (bool_decide (t_Kind item = TxKindPlaceholder)) || bool_decide (t_EncryptedPayloadHex item = []) then
    Err "generated placeholder transaction did not parse as BLOC placeholder"
  else Ok item.
End Targets.
Arguments mkTarget {_}.
Arguments DeclaredClass {_}.
Arguments EvidenceClass {_}.
Arguments Raw {_}.
Arguments Tx {_}.
Arguments tgt_Summary {_}.
