(* ===== verification/Corpus.v ===== *)
(** * Corpus: encrypted corpora and the service that serves them

    Models [src/mempool-il/internal/mempool/encrypted_corpus.go]: the manifest
    of an encrypted corpus, its identities, its validation, and the slot pages
    it answers; the page of [reader.go]; and the inclusion-list handler of
    [src/mempool-il/internal/api/server.go]. *)

From S2P Require Import Prelude Order GoStrings Sha256 Kyber Prf Btd Batch Mempool Targets.

Definition encryptedCorpusSchemaVersion : bytes := str "bloc-encrypted-corpus-v1".
Definition coordinatedIndexAssignment : bytes := str "coordinated-position-v1".

Record EncryptedCorpusCandidate := mkCorpusCandidate {
  c_Position : Z;
  c_Index : Z;
  c_Class : corpusClass;
  c_TargetTxHash : bytes;
  c_TargetTxSizeBytes : Z;
  CiphertextHex : bytes;
  CiphertextSHA256 : bytes;
  c_EffectiveFeePerGasWei : bytes;
  c_Transaction : Transaction
}.

Record EncryptedCorpusManifest := mkManifest {
  m_SchemaVersion : bytes;
  m_CiphertextWireVersion : bytes;
  m_PublicConfigID : bytes;
  m_PlaintextMasterCorpusID : bytes;
  PlaintextPrefixSetIDs : gmap bytes bytes;
  m_EncryptedCorpusID : bytes;
  EncryptedPrefixSetIDs : gmap bytes bytes;
  m_BMax : Z;
  m_AvailableCount : Z;
  IndexAssignment : bytes;
  OrderedIndexSchedule : list Z;
  ClassCounts : gmap bytes (gmap bytes Z);
  Candidates : list EncryptedCorpusCandidate
}.

(** ** Set identities *)

Definition writeHashField (value : bytes) : bytes := bigEndian 8 (u64 (zlen value)) ++ value.

(** What [hex.DecodeString] returns, the bytes before an error included. *)
Fixpoint hexDecodePrefix (s : bytes) : bytes :=
  match s with
  | a :: b :: s' =>
      match fromHexChar a, fromHexChar b with
      | Some x, Some y => (16 * x + y) :: hexDecodePrefix s'
      | _, _ => []
      end
  | _ => []
  end.

(** [encoded, _ := decodeHexStrict(raw)] *)
Definition decodedOrPrefix (raw : bytes) : bytes :=
  let raw := TrimSpace (TrimPrefix raw (str "0x")) in
  if bool_decide (raw = []) then [] else hexDecodePrefix (if zlen raw mod 2 =? 1 then str "0" ++ raw else raw).

Section Corpus.
Context (uni : bytes -> bytes).

Definition candidateFields (c : EncryptedCorpusCandidate) : bytes :=
  bigEndian 8 (u64 (c_Position c)) ++ bigEndian 8 (u64 (c_Index c)) ++ writeHashField (c_Class c) ++
  writeHashField (ToLower uni (c_TargetTxHash c)) ++ writeHashField (decodedOrPrefix (CiphertextHex c)) ++
  writeHashField (ToLower uni (PlaceholderTxHash (c_Transaction c))) ++
  writeHashField (ToLower uni (PlaceholderTxRaw (c_Transaction c))).

Definition encryptedCandidateSetID (candidates : list EncryptedCorpusCandidate) : bytes :=
  hashHex (writeHashField (str "bloc-encrypted-set-v1") ++ concat (map candidateFields candidates)).

(** ** Validation *)

(** [strconv.Atoi] *)
Definition Atoi (s : bytes) : option Z :=
  match SetString s with
  | Some n => if (- 2 ^ 63 <=? n) && (n <? 2 ^ 63) then Some n else None
  | None => None
  end.

Definition validateCandidate (m : EncryptedCorpusManifest) (i : Z) (c : EncryptedCorpusCandidate) : out unit :=
  let? scheduled := at_index (OrderedIndexSchedule m) i in
  if negb (c_Position c =? i) || negb (c_Index c =? Z.rem i (m_BMax m)) || negb (scheduled =? c_Index c) then
    Err "candidate violates coordinated index schedule"
  else
    let? encoded := decodeHexStrict (CiphertextHex c) in
    if negb (bool_decide (is_Some (stripPrefix LibraryVersion encoded))) ||
       negb (bool_decide (hashHex encoded = CiphertextSHA256 c)) then Err "candidate ciphertext identity mismatch"
    else if negb (bool_decide (t_EncryptedPayloadHex (c_Transaction c) = CiphertextHex c)) ||
       negb (bool_decide (TargetTxHash (c_Transaction c) = c_TargetTxHash c)) then
      Err "candidate placeholder metadata mismatch"
    else Ok tt.

Definition validatePrefix (m : EncryptedCorpusManifest) (entry : bytes * bytes) : out unit :=
  match Atoi entry.1 with
  | None => Err "invalid encrypted prefix size"
  | Some count =>
      if (count <=? 0) || (zlen (Candidates m) <? count) then Err "invalid encrypted prefix size"
      else if negb (bool_decide (encryptedCandidateSetID (take (Z.to_nat count) (Candidates m)) = entry.2)) then
        Err "encrypted prefix id mismatch"
      else Ok tt
  end.

(** [order] ranges over the map of prefix identities. *)
Definition validateEncryptedCorpusManifest (order : gmap bytes bytes -> list (bytes * bytes)) (m : EncryptedCorpusManifest)
  : out unit :=
  if negb (bool_decide (m_SchemaVersion m = encryptedCorpusSchemaVersion)) then Err "unsupported encrypted corpus schema"
  else if negb (bool_decide (m_CiphertextWireVersion m = LibraryVersion)) then Err "unsupported ciphertext wire version"
  else if bool_decide (m_PublicConfigID m = []) || bool_decide (m_PlaintextMasterCorpusID m = []) then
    Err "encrypted corpus identities are required"
  else if (m_BMax m <=? 0) || (m_AvailableCount m <=? 0) || (m_BMax m <? m_AvailableCount m) then
    Err "invalid encrypted corpus bounds"
  else if negb (bool_decide (IndexAssignment m = coordinatedIndexAssignment)) then Err "unsupported index assignment"
  else if negb (zlen (Candidates m) =? m_AvailableCount m) ||
          negb (zlen (OrderedIndexSchedule m) =? m_AvailableCount m) then Err "encrypted corpus candidate count mismatch"
  else
    let? _ := fold_out (fun i c => let? _ := validateCandidate m i c in Ok (i + 1)) (Candidates m) 0 in
    if negb (bool_decide (encryptedCandidateSetID (Candidates m) = m_EncryptedCorpusID m)) then
      Err "encrypted corpus id mismatch"
    else
      let? _ := map_out (validatePrefix m) (order (EncryptedPrefixSetIDs m)) in
      Ok tt.

(** [LoadEncryptedCorpus] on the decoded document. *)
Definition set_fees (fee : Z) (tx : Transaction) : Transaction :=
  mkTransaction (t_Hash tx) (t_From tx) (t_To tx) (t_Nonce tx) (t_Gas tx) (t_Input tx) (t_RawTx tx) (Some fee)
    (MaxFeePerGasWei tx) (MaxPriorityFeeWei tx) (t_Kind tx) (Placeholder tx) (IsQueued tx) (Some fee) (TargetTxHash tx)
    (TargetTxType tx) (TargetTxSizeBytes tx) (t_EncryptedPayloadHex tx) (t_EncryptedPayloadHash tx) (PlaceholderTxHash tx)
    (PlaceholderTxRaw tx) (PlaceholderCalldataBytes tx) (PlaceholderGasEstimate tx).

Definition loadCandidate (c : EncryptedCorpusCandidate) : out EncryptedCorpusCandidate :=
  match SetString (c_EffectiveFeePerGasWei c) with
  | Some fee =>
      if fee <? 0 then Err "candidate invalid effective fee"
      else
        Ok (mkCorpusCandidate (c_Position c) (c_Index c) (c_Class c) (c_TargetTxHash c) (c_TargetTxSizeBytes c) (CiphertextHex c)
          (CiphertextSHA256 c) (c_EffectiveFeePerGasWei c) (set_fees fee (c_Transaction c)))
  | None => Err "candidate invalid effective fee"
  end.

Definition set_Candidates (candidates : list EncryptedCorpusCandidate) (m : EncryptedCorpusManifest) : EncryptedCorpusManifest :=
  mkManifest (m_SchemaVersion m) (m_CiphertextWireVersion m) (m_PublicConfigID m) (m_PlaintextMasterCorpusID m)
    (PlaintextPrefixSetIDs m) (m_EncryptedCorpusID m) (EncryptedPrefixSetIDs m) (m_BMax m) (m_AvailableCount m)
    (IndexAssignment m) (OrderedIndexSchedule m) (ClassCounts m) candidates.

Definition LoadEncryptedCorpus (order : gmap bytes bytes -> list (bytes * bytes)) (decoded : out EncryptedCorpusManifest)
  : out EncryptedCorpusManifest :=
  let? m := decoded in
  let? _ := validateEncryptedCorpusManifest order m in
  let? candidates := map_out loadCandidate (Candidates m) in
  Ok (set_Candidates candidates m).

(** ** Serving pages *)

Record SlotPage := mkPage {
  p_SchemaVersion : bytes;
  p_CiphertextWireVersion : bytes;
  p_PublicConfigID : bytes;
  p_PlaintextMasterCorpusID : bytes;
  p_EncryptedCorpusID : bytes;
  p_EncryptedPrefixSetID : bytes;
  p_Slot : Z;
  p_RequestedCount : Z;
  p_AvailableCount : Z;
  p_ReturnedCount : Z;
  p_Transactions : list Transaction
}.

(** [cloneCorpusTransaction] copies what the pointers of a transaction refer
to; a copied value is the value. *)
Definition FetchSlot (m : EncryptedCorpusManifest) (slot limit : Z) : out SlotPage :=
  if limit <=? 0 then Err "encrypted corpus limit must be positive"
  else if m_BMax m <? limit then Err "requested limit exceeds BMax"
  else
    let returned := if m_AvailableCount m <? limit then m_AvailableCount m else limit in
    if (returned <? 0) || (zlen (Candidates m) <? returned) then Crash
    else
      let prefix := take (Z.to_nat returned) (Candidates m) in
      Ok (mkPage (m_SchemaVersion m) (m_CiphertextWireVersion m) (m_PublicConfigID m) (m_PlaintextMasterCorpusID m)
        (m_EncryptedCorpusID m) (encryptedCandidateSetID prefix) slot limit (m_AvailableCount m) returned
        (map c_Transaction prefix)).

Definition corpusFetch (m : EncryptedCorpusManifest) : out (list Transaction) :=
  let? page := FetchSlot m 0 (m_AvailableCount m) in Ok (p_Transactions page).

(** ** server.go *)

(** The body of an answer of the inclusion-list handler, with its status. *)
Inductive reply :=
  | replyError (status : Z) (error : string)
  | replyList (l : ServedList)
  | replyCorpus (page : SlotPage) (returnedCount : Z) (l : ServedList).

Record Server := mkServer {
  sv_store : Store;
  sv_builder : BuilderConfig;
  sv_slotSource : option EncryptedCorpusManifest
}.

(** [slotText] and [limitText] are the query parameters, empty when absent. *)
Definition handleInclusionList (order : Store -> list Transaction) (s : Server) (slotText limitText : bytes) : reply :=
  match sv_slotSource s with
  | None => replyList (Build (sv_builder s) (Snapshot order (sv_store s)))
  | Some source =>
      match (if bool_decide (slotText = []) then Some 0 else ParseUint 10 slotText) with
      | None => replyError 400 "invalid slot"
      | Some slot =>
          match Atoi limitText with
          | None => replyError 400 "invalid limit"
          | Some limit =>
              if limit <=? 0 then replyError 400 "invalid limit"
              else
                match FetchSlot source slot limit with
                | Ok page =>
                    let l := BuildOrdered (sv_builder s) (mkSnapshot (p_Transactions page) 0 []) in
                    replyCorpus page (Count l) l
                | Err e => replyError 502 e
                | Crash => replyError 500 ""
                end
          end
      end
  end.
End Corpus.
