(* ===== verification/Generate.v ===== *)
(** * Generate: making an encrypted corpus

    Models the generation of a corpus in
    [src/mempool-il/internal/mempool/encrypted_corpus.go], the public
    configurations it reads (also [readReplayCluster] of
    [replay_placeholder.go]), and the replay client of that file.

    The threshold scheme is that of [Batch], go-ethereum that of [Targets].
    Files are parameters: [readFile], the strict decoders of the JSON documents,
    and [crsPath], which places a CRS file next to the configuration that names
    it. What the encryption picks at random is an argument. Writing the artifact
    and its atomic rename are left out. *)

From S2P Require Import Prelude Order GoStrings Sha256 Kyber Prf Btd Batch Mempool Targets Corpus.

(** ** Configurations *)

Record replayCluster := mkReplayCluster {
  rc_Version : bytes;
  rc_ClusterID : bytes;
  rc_BMax : Z;
  rc_N : Z;
  rc_Threshold : Z;
  rc_CRSFile : bytes;
  rc_CRSSHA256 : bytes;
  PublicKeyHex : bytes;
  CRSBytes : bytes
}.

Record corpusCampaignBlockspace := mkCampaignBlockspace {
  camp_MaxDecryptedGas : Z;
  camp_MaxDecryptedTxs : Z;
  camp_DefaultTxGas : Z
}.

Record corpusCampaignLimits := mkCampaignLimits {
  camp_MaxProposalBytes : Z;
  camp_MaxEnvelopeBytes : Z;
  camp_MaxCombineAttemptsPerSubBatch : Z
}.

Record corpusCampaignOperator := mkCampaignOperator {
  op_ID : Z;
  P2PPeerID : bytes
}.

Record corpusCampaignIdentity := mkCampaign {
  camp_Version : bytes;
  camp_ClusterID : bytes;
  camp_N : Z;
  camp_Threshold : Z;
  camp_BMax : Z;
  camp_CRSFile : bytes;
  camp_CRSSHA256 : bytes;
  camp_PublicKeyHex : bytes;
  camp_Blockspace : corpusCampaignBlockspace;
  camp_Limits : corpusCampaignLimits;
  Operators : list corpusCampaignOperator
}.

Record encryptedCorpusSecret := mkCorpusSecret {
  sec_Version : bytes;
  sec_ClusterID : bytes;
  sec_OperatorID : Z;
  BTEShareScalarHex : bytes
}.

Record EncryptedCorpusOptions := mkCorpusOptions {
  PlaintextPath : bytes;
  ClusterConfigPath : bytes;
  CampaignIdentityPath : bytes;
  SecretPaths : list bytes;
  opt_Limit : Z;
  OutputPath : bytes
}.

Section Configs.
Context (readFile : bytes -> out bytes) (crsPath : bytes -> bytes -> bytes).
Context (json_cluster : bytes -> out replayCluster) (json_campaign : bytes -> out corpusCampaignIdentity).

(** The CRS file and the check of its hash. *)
Definition loadCRS (path file sha : bytes) : out bytes :=
  let? crs := readFile (crsPath path file) in
  if EqualFoldHex (hashHex crs) (TrimSpace sha) then Ok crs else Err "CRS hash mismatch".

Definition set_CRSBytes (crs : bytes) (c : replayCluster) : replayCluster :=
  mkReplayCluster (rc_Version c) (rc_ClusterID c) (rc_BMax c) (rc_N c) (rc_Threshold c) (rc_CRSFile c)
    (rc_CRSSHA256 c) (PublicKeyHex c) crs.

Definition readReplayCluster (path : bytes) : out replayCluster :=
  if blank path then Err "replay-placeholder requires -cluster-config"
  else
    let? data := readFile path in
    let? cluster := json_cluster data in
    if negb (bool_decide (rc_Version cluster = str "bloc-cluster-v3")) then Err "unsupported cluster config version"
    else if bool_decide (rc_ClusterID cluster = []) || (rc_BMax cluster <=? 0) || bool_decide (rc_CRSFile cluster = []) ||
            bool_decide (rc_CRSSHA256 cluster = []) || bool_decide (PublicKeyHex cluster = []) then
      Err "cluster config missing cluster_id, bmax, crs_file, crs_sha256, or public_key_hex"
    else
      let? crs := loadCRS path (rc_CRSFile cluster) (rc_CRSSHA256 cluster) in
      Ok (set_CRSBytes crs cluster).

(** Operators are numbered by position and have distinct peers. *)
Fixpoint checkOperators (operators : list corpusCampaignOperator) (index : Z) (seenPeers : gset bytes) : bool :=
  match operators with
  | [] => true
  | o :: rest =>
      (op_ID o =? index) && negb (blank (P2PPeerID o)) && negb (bool_decide (P2PPeerID o ∈ seenPeers)) &&
      checkOperators rest (index + 1) ({[ P2PPeerID o ]} ∪ seenPeers)
  end.

Definition validateCampaignIdentity (identity : corpusCampaignIdentity) : out unit :=
  if negb (bool_decide (camp_Version identity = str "bloc-campaign-identity-v1")) then
    Err "unsupported campaign identity version"
  else if blank (camp_ClusterID identity) || (camp_N identity <? 4) || (camp_Threshold identity <? 1) ||
          (camp_N identity <? camp_Threshold identity) || (camp_BMax identity <? 1) then
    Err "invalid campaign identity threshold or parameters"
  else if blank (camp_CRSFile identity) || bool_decide (is_Some (stripPrefix (str "/") (camp_CRSFile identity))) ||
          blank (camp_CRSSHA256 identity) || blank (camp_PublicKeyHex identity) then
    Err "campaign identity requires relative CRS and public key fields"
  else if (camp_MaxDecryptedTxs (camp_Blockspace identity) <? 1) ||
          (camp_BMax identity <? camp_MaxDecryptedTxs (camp_Blockspace identity)) ||
          (camp_DefaultTxGas (camp_Blockspace identity) =? 0) then Err "invalid campaign identity blockspace"
  else if (camp_MaxProposalBytes (camp_Limits identity) <? 1) ||
          (camp_MaxEnvelopeBytes (camp_Limits identity) <? camp_MaxProposalBytes (camp_Limits identity)) ||
          (camp_MaxCombineAttemptsPerSubBatch (camp_Limits identity) <? 1) then
    Err "invalid campaign identity resource limits"
  else if negb (zlen (Operators identity) =? camp_N identity) then Err "campaign identity operator count"
  else if negb (checkOperators (Operators identity) 0 ∅) then Err "invalid campaign operator identity"
  else Ok tt.

Definition readCorpusCampaignIdentity (path : bytes) : out replayCluster :=
  let? data := readFile path in
  let? identity := json_campaign data in
  let? _ := validateCampaignIdentity identity in
  let? crs := loadCRS path (camp_CRSFile identity) (camp_CRSSHA256 identity) in
  Ok (mkReplayCluster (str "bloc-cluster-v3") (camp_ClusterID identity) (camp_BMax identity) (camp_N identity)
    (camp_Threshold identity) (camp_CRSFile identity) (camp_CRSSHA256 identity) (camp_PublicKeyHex identity) crs).

Definition readEncryptedCorpusPublicConfig (options : EncryptedCorpusOptions) : out replayCluster :=
  let hasClusterConfig := negb (blank (ClusterConfigPath options)) in
  let hasCampaignIdentity := negb (blank (CampaignIdentityPath options)) in
  if Bool.eqb hasClusterConfig hasCampaignIdentity then
    Err "exactly one of cluster config or campaign identity is required"
  else if hasClusterConfig then readReplayCluster (ClusterConfigPath options)
  else readCorpusCampaignIdentity (CampaignIdentityPath options).
End Configs.

(** ** The cluster *)

Section Generation.
Context `{Suite} `{Ethereum}.
Context (RecoverCommit : list PubShare -> Z -> Z -> out (Point G1)).
Context (Hash : bytes -> bytes) (uni : bytes -> bytes).
Context (hkdf : bytes -> bytes -> bytes).
Context (aead_Seal : bytes -> bytes -> bytes -> bytes -> bytes).
Context (aead_Open : bytes -> bytes -> bytes -> bytes -> out bytes).
Context (readFile : bytes -> out bytes) (crsPath : bytes -> bytes -> bytes).
Context (json_cluster : bytes -> out replayCluster) (json_campaign : bytes -> out corpusCampaignIdentity).
Context (json_secret : bytes -> out encryptedCorpusSecret).

(** The threshold scheme and public key of a configuration. *)
Definition publicSetup (cluster : replayCluster) : out (BTD * Point G1) :=
  let? btd := NewBTDFromPublicCRS defaultSuiteID (rc_BMax cluster) (CRSBytes cluster) in
  match hexDecode (TrimPrefix (PublicKeyHex cluster) (str "0x")) with
  | None => Err "decode public key"
  | Some pkBytes => let? pk := UnmarshalPoint G1 pkBytes in Ok (btd, pk)
  end.

(** A zero share stands for the empty [be.SecretShare] of an encryptor. *)
Definition newReplayEncryptor (cluster : replayCluster) : out ClusterBTE :=
  let? (btd, pk) := publicSetup cluster in
  Ok (NewNode btd pk (mkSecretShare 0 (mkPriShare 0 sZero)) (rc_N cluster) (rc_Threshold cluster)).

Definition readSecret (cluster : replayCluster) (st : gset Z * list PriShare) (path : bytes)
  : out (gset Z * list PriShare) :=
  let '(seen, shares) := st in
  let? data := readFile path in
  let? document := json_secret data in
  if negb (bool_decide (sec_Version document = str "bloc-node-secret-v1")) ||
     negb (bool_decide (sec_ClusterID document = rc_ClusterID cluster)) then Err "secret does not match cluster"
  else if bool_decide (sec_OperatorID document ∈ seen) || (rc_N cluster <=? sec_OperatorID document) then
    Err "invalid or duplicate secret operator"
  else
    match hexDecode (TrimPrefix (BTEShareScalarHex document) (str "0x")) with
    | None => Err "decode secret scalar"
    | Some scalarBytes =>
        let? scalar := UnmarshalScalar scalarBytes in
        Ok ({[ sec_OperatorID document ]} ∪ seen, shares ++ [mkPriShare (sec_OperatorID document) scalar])
    end.

Definition newReplayClusterWithSecrets (cluster : replayCluster) (secretPaths : list bytes) : out ClusterBTE :=
  if zlen secretPaths <? rc_Threshold cluster then Err "encrypted corpus self-check needs threshold secrets"
  else
    let? (btd, pk) := publicSetup cluster in
    let? (_, shares) := fold_out (readSecret cluster) secretPaths (∅, []) in
    NewClusterBTEFromShares btd pk (map Some shares) (rc_N cluster) (rc_Threshold cluster).

(** ** The self-check *)

Fixpoint plaintextsMatch (results : list PlaintextResult) (targets : list parsedTargetTx) : bool :=
  match results, targets with
  | r :: results', t :: targets' =>
      bool_decide (res_Err r = None) && bool_decide (Plaintext r = Raw t) && plaintextsMatch results' targets'
  | _, _ => true
  end.

Definition selfCheckEncryptedCorpus (cluster : ClusterBTE) (cts : list Ciphertext) (targets : list parsedTargetTx)
  : out unit :=
  let? plan := PlanBatch cluster cts in
  let? shares := map_out (fun job : nat * SecretShare => MakeShare Hash cluster job.2 plan (Z.of_nat job.1))
    (concat (map (fun id => map (pair id) (cl_Shares cluster)) (seq 0 (length (SubBatches plan))))) in
  let? results := CombineShares RecoverCommit Hash hkdf aead_Open cluster plan shares in
  if negb (zlen results =? zlen targets) then Err "self-decrypt result count"
  else if plaintextsMatch results targets then Ok tt
  else Err "self-decrypt target mismatch".

(** What one encryption picks: the group element, the scalars, the nonce. *)
Record picks := mkPicks {
  pick_secret : Point GT;
  pick_coins : coins;
  pick_nonce : bytes
}.

(** ** The replay client *)

Record ReplayPlaceholderClient := mkReplayClient {
  rp_targets : list parsedTargetTx;
  rp_cluster : replayCluster;
  rp_encryptor : ClusterBTE;
  rp_cache : gmap Z (list Transaction);
  rp_slot : Z
}.

Definition encryptReplayTarget (target : parsedTargetTx) (index : Z) (cluster : replayCluster) (encryptor : ClusterBTE)
    (p : picks) : out bytes :=
  if rc_BMax cluster =? 0 then Crash
  else
    let? ct := EncryptTx Hash hkdf aead_Seal encryptor (Raw target) (Z.rem index (rc_BMax cluster)) (pick_secret p)
      (pick_coins p) (pick_nonce p) in
    marshalCiphertext ct.

Definition buildMockPlaceholder (target : parsedTargetTx) (index : Z) (cluster : replayCluster) (encryptor : ClusterBTE)
    (p : picks) : out Transaction :=
  let? encoded := encryptReplayTarget target index cluster encryptor p in
  buildMockPlaceholderFromCiphertext uni target index encoded.

Definition NewReplayPlaceholderClient (clusterPath : bytes) (slot : Z) (jsonEntry : bytes -> out (corpusClass * bytes))
    (corpus : out (list bytes)) : out ReplayPlaceholderClient :=
  let? cluster := readReplayCluster readFile crsPath json_cluster clusterPath in
  let? lines := corpus in
  let? targets := readTargetCorpus jsonEntry lines in
  if bool_decide (targets = []) then Err "corpus contained no target transactions"
  else
    let? encryptor := newReplayEncryptor cluster in
    Ok (mkReplayClient targets cluster encryptor ∅ (if slot =? 0 then 1 else slot)).

(** Each slot is encrypted once and then answered from the cache. *)
Definition replayFetchSlot (random : list picks) (slot : Z) (c : ReplayPlaceholderClient)
  : ReplayPlaceholderClient * out (list Transaction) :=
  let slot := if slot =? 0 then rp_slot c else slot in
  match rp_cache c !! slot with
  | Some cached => (c, Ok cached)
  | None =>
      let made :=
        map_out (fun job : Z * (parsedTargetTx * picks) =>
            buildMockPlaceholder job.2.1 job.1 (rp_cluster c) (rp_encryptor c) job.2.2)
          (combine (map Z.of_nat (seq 0 (length (rp_targets c)))) (combine (rp_targets c) random)) in
      match made with
      | Ok items =>
          (mkReplayClient (rp_targets c) (rp_cluster c) (rp_encryptor c) (<[slot := items]> (rp_cache c)) (rp_slot c), Ok items)
      | Err e => (c, Err e)
      | Crash => (c, Crash)
      end
  end.

(** ** Generation *)

Definition plaintextSetID (targets : list parsedTargetTx) : bytes :=
  hashHex (writeHashField (str "bloc-plaintext-set-v1") ++ concat (map (fun t => writeHashField (Raw t)) targets)).

Definition encryptCandidate (cluster : ClusterBTE) (bMax : Z) (position : Z) (job : parsedTargetTx * picks)
  : out (EncryptedCorpusCandidate * Ciphertext) :=
  let '(target, p) := job in
  let index := Z.rem position bMax in
  let? ct := EncryptTx Hash hkdf aead_Seal cluster (Raw target) index (pick_secret p) (pick_coins p) (pick_nonce p) in
  let? encoded := marshalCiphertext ct in
  let? item := buildMockPlaceholderFromCiphertext uni target position encoded in
  Ok (mkCorpusCandidate position index (EvidenceClass target) (ts_Hash (tgt_Summary target))
        (ts_SizeBytes (tgt_Summary target)) (str "0x" ++ hexEncode encoded) (hashHex encoded)
        (decimal (EffectiveFeePerGas item)) item, ct).

(** The encryption loop, from a position on. *)
Definition encryptCandidates (cluster : ClusterBTE) (bMax : Z) (jobs : list (parsedTargetTx * picks))
    (st : list (EncryptedCorpusCandidate * Ciphertext) * Z) : out (list (EncryptedCorpusCandidate * Ciphertext) * Z) :=
  fold_out (fun st job =>
    let '(made, position) := st in
    let? c := encryptCandidate cluster bMax position job in
    Ok (made ++ [c], position + 1)) jobs st.

(** The entries of a map by prefix size, for the prefixes within the limit. *)
Definition prefixMap {V : Type} (limit : Z) (value : Z * list (corpusClass * Z) -> V) : gmap bytes V :=
  fold_left (fun m prefix => if prefix.1 <=? limit then <[decimal prefix.1 := value prefix]> m else m)
    protocolWorkloadPrefixes ∅.

Definition stringClassCounts (counts : list (corpusClass * Z)) : gmap bytes Z :=
  fold_left (fun out cw => <[cw.1 := cw.2]> out) counts ∅.

(** The manifest of the encrypted targets. *)
Definition manifestOf (bMax limit : Z) (publicID : bytes) (targets : list parsedTargetTx)
    (candidates : list EncryptedCorpusCandidate) : EncryptedCorpusManifest :=
  mkManifest encryptedCorpusSchemaVersion LibraryVersion publicID (plaintextSetID targets)
    (prefixMap limit (fun prefix => plaintextSetID (take (Z.to_nat prefix.1) targets)))
    (encryptedCandidateSetID uni candidates)
    (prefixMap limit (fun prefix => encryptedCandidateSetID uni (take (Z.to_nat prefix.1) candidates)))
    bMax limit coordinatedIndexAssignment (map c_Index candidates)
    (prefixMap limit (fun prefix => stringClassCounts prefix.2)) candidates.

(** From the decoded configuration, targets and cluster to the manifest;
[random] has the picks of every target. *)
Definition assembleCorpus (order : gmap bytes bytes -> list (bytes * bytes)) (clusterConfig : replayCluster)
    (limit : Z) (targets : list parsedTargetTx) (cluster : ClusterBTE) (random : list picks)
  : out EncryptedCorpusManifest :=
  let? publicID := PublicConfigID uni (rc_BMax clusterConfig) (rc_CRSSHA256 clusterConfig) (Some (cl_PK cluster)) in
  let chosen := take (Z.to_nat limit) targets in
  let? (made, _) := encryptCandidates cluster (rc_BMax clusterConfig) (combine chosen random) ([], 0) in
  let candidates := map fst made in
  let? _ := selfCheckEncryptedCorpus cluster (map snd made) chosen in
  let manifest := manifestOf (rc_BMax clusterConfig) limit publicID targets candidates in
  let? _ := validateEncryptedCorpusManifest uni order manifest in
  Ok manifest.

(** [outputExists] is what [os.Stat] finds at the output path; [lines] are those
of the plaintext corpus. *)
Definition GenerateEncryptedCorpus (order : gmap bytes bytes -> list (bytes * bytes)) (options : EncryptedCorpusOptions)
    (outputExists : bool) (jsonEntry : bytes -> out (corpusClass * bytes)) (lines : list bytes) (random : list picks)
  : out EncryptedCorpusManifest :=
  if opt_Limit options <=? 0 then Err "encrypted corpus limit must be positive"
  else if blank (OutputPath options) then Err "encrypted corpus output path is required"
  else if outputExists then Err "encrypted corpus output already exists"
  else
    let? clusterConfig := readEncryptedCorpusPublicConfig readFile crsPath json_cluster json_campaign options in
    if rc_BMax clusterConfig <? opt_Limit options then Err "encrypted corpus limit exceeds BMax"
    else
      let? targets := readProtocolWorkloadCorpus jsonEntry lines in
      if zlen targets <? opt_Limit options then Err "encrypted corpus limit exceeds plaintext count"
      else
        let? cluster := newReplayClusterWithSecrets clusterConfig (SecretPaths options) in
        assembleCorpus order clusterConfig (opt_Limit options) targets cluster random.
End Generation.
