(* ===== verification/CorpusLaws.v ===== *)
(** * Corpus: what a served corpus guarantees

    Placeholder calldata is read back ([ParsePlaceholderCalldata_built]); a
    generated corpus survives storing and loading; set identities bind the
    candidates; and what a node accepts as its proposal is the prefix of the
    corpus it asked for. *)

From S2P Require Import Prelude Order GoStrings Sha256 Kyber Prf Btd Batch Mempool MempoolLaws Targets Corpus Generate.

(** ** Hexadecimal text *)

Lemma decodeHexStrict_hex data :
  Forall isByte data -> data <> [] -> decodeHexStrict (str "0x" ++ hexEncode data) = Ok data.
Proof.
  intros Hb Hne. unfold decodeHexStrict. rewrite TrimPrefix_app, TrimSpace_visible by by apply hexEncode_visible.
  rewrite bool_decide_false by by intros ?%hexEncode_nil.
  rewrite hexEncode_length. replace (Z.of_nat (2 * length data) mod 2 =? 1) with false.
  - by rewrite hexDecode_encode.
  - rewrite Nat2Z.inj_mul, Z.mul_comm, Z.mod_mul by lia. done.
Qed.

Lemma hexDecode_prefix s b : hexDecode s = Some b -> hexDecodePrefix s = b.
Proof.
  revert b. induction s as [s IH] using (induction_ltof1 _ (@length Z)); unfold ltof in IH.
  intros b. destruct s as [|x [|y s]]; cbn [hexDecode hexDecodePrefix]; [by intros [= <-]|done|].
  destruct (fromHexChar x); [|done]. destruct (fromHexChar y); [|done].
  destruct (hexDecode s) as [b'|] eqn:E; [|done]. cbn. intros [= <-]. by rewrite (IH s ltac:(cbn; lia) b' E).
Qed.

Lemma decodedOrPrefix_ok raw b : decodeHexStrict raw = Ok b -> decodedOrPrefix raw = b.
Proof.
  unfold decodeHexStrict, decodedOrPrefix. case_bool_decide; [done|].
  destruct (hexDecode _) as [b'|] eqn:E; [|done]. intros [= <-]. by apply hexDecode_prefix.
Qed.

(** ** Placeholder calldata *)

Section Calldata.
Context (uni : bytes -> bytes) (HexToHash : bytes -> bytes).
Context (targetHash : bytes) (gas : Z) (payload : bytes).
Hypothesis Hhash : Forall isByte (HexToHash targetHash) /\ length (HexToHash targetHash) = 32%nat.
Hypothesis Hgas : 0 <= gas < 2 ^ 64.
Hypothesis Hpayload : Forall isByte payload /\ payload <> [].

Abbreviation calldata := (buildPlaceholderCalldata HexToHash targetHash gas payload).

Lemma calldata_bytes : Forall isByte calldata.
Proof.
  destruct Hhash as [Hh _], Hpayload as [Hp _]. unfold buildPlaceholderCalldata.
  apply Forall_app. split; [|apply Forall_app; split; [done|]].
  - unfold placeholderSelector. repeat (apply Forall_cons; split; [unfold isByte; lia|]). constructor.
  - apply Forall_app. split; [apply bigEndian_byte|done].
Qed.

Lemma calldata_length : length calldata = (68 + length payload)%nat.
Proof.
  unfold buildPlaceholderCalldata. rewrite !length_app, bigEndian_length, (proj2 Hhash). cbn. lia.
Qed.

Lemma ParsePlaceholderCalldata_built :
  ParsePlaceholderCalldata uni (str "0x" ++ hexEncode calldata) =
  Ok (mkPlaceholderData (str "0x" ++ hexEncode (HexToHash targetHash)) gas (str "0x" ++ hexEncode payload)
        (str "0x" ++ hashHex payload) (68 + zlen payload)).
Proof.
  pose proof calldata_bytes as Hb. pose proof calldata_length as Hl. destruct Hpayload as [_ Hne].
  assert (0 < length payload)%nat as Hpos by (destruct payload; [done|cbn; lia]).
  unfold ParsePlaceholderCalldata. rewrite TrimSpace_visible by by apply hexText_visible.
  rewrite hexText_lower, TrimPrefix_app by done.
  rewrite bool_decide_false by (intros E%hexEncode_nil; rewrite E in Hl; cbn in Hl; lia).
  rewrite hexDecode_encode by done. cbv beta iota zeta. replace (zlen calldata <=? 68) with false by lia.
  assert (forall n (a rest : bytes), length a = n -> take n (a ++ rest) = a /\ drop n (a ++ rest) = rest) as Hsplit.
  { intros n a rest <-. by rewrite take_app_length, drop_app_length. }
  destruct (Hsplit 4%nat placeholderSelector (HexToHash targetHash ++ bigEndian 32 gas ++ payload) eq_refl) as [T4 E4].
  destruct (Hsplit 32%nat (HexToHash targetHash) (bigEndian 32 gas ++ payload) (proj2 Hhash)) as [T36 E36].
  destruct (Hsplit 32%nat (bigEndian 32 gas) payload (bigEndian_length _ _)) as [T68 E68].
  change 68%nat with (4 + (32 + 32))%nat. change 36%nat with (4 + 32)%nat. rewrite <- !drop_drop.
  change (take 4 calldata = placeholderSelector) in T4.
  change (drop 4 calldata = HexToHash targetHash ++ bigEndian 32 gas ++ payload) in E4.
  rewrite E4, T36, E36, T68, E68, bool_decide_true by done. cbn [negb].
  rewrite fromBigEndian_bigEndian by (change (8 * Z.of_nat 32) with 256; lia).
  replace (2 ^ 64 <=? gas) with false by lia. rewrite Hl. do 2 f_equal. lia.
Qed.
End Calldata.

(** ** What a set identity binds *)

Lemma writeHashField_inj a b x y :
  zlen a < 2 ^ 64 -> zlen b < 2 ^ 64 -> writeHashField a ++ x = writeHashField b ++ y -> a = b /\ x = y.
Proof.
  intros Ha Hb. unfold writeHashField. rewrite <- !app_assoc. intros [E1 E2]%app_inj_1; [|by rewrite !bigEndian_length].
  apply (f_equal fromBigEndian) in E1. rewrite !fromBigEndian_bigEndian, !u64_small in E1
    by (try change (8 * Z.of_nat 8) with 64; try apply u64_range; lia).
  apply app_inj_1 in E2; [done|lia].
Qed.

Lemma bigEndian8_inj m n x y :
  0 <= m < 2 ^ 63 -> 0 <= n < 2 ^ 63 -> bigEndian 8 (u64 m) ++ x = bigEndian 8 (u64 n) ++ y -> m = n /\ x = y.
Proof.
  intros Hm Hn [E1 E2]%app_inj_1; [|by rewrite !bigEndian_length]. split; [|done].
  apply (f_equal fromBigEndian) in E1. by rewrite !fromBigEndian_bigEndian, !u64_small in E1
    by (try change (8 * Z.of_nat 8) with 64; try apply u64_range; lia).
Qed.

Section Identity.
Context (uni : bytes -> bytes).

(** The data an identity is taken over. *)
Record boundData := mkBound {
  b_Position : Z;
  b_Index : Z;
  b_Class : bytes;
  b_TargetTxHash : bytes;
  b_Ciphertext : bytes;
  b_PlaceholderTxHash : bytes;
  b_PlaceholderTxRaw : bytes
}.

Definition boundOf (c : EncryptedCorpusCandidate) : boundData :=
  mkBound (c_Position c) (c_Index c) (c_Class c) (ToLower uni (c_TargetTxHash c)) (decodedOrPrefix (CiphertextHex c))
    (ToLower uni (PlaceholderTxHash (c_Transaction c))) (ToLower uni (PlaceholderTxRaw (c_Transaction c))).

(** Positions and indices are Go [int]s that are not negative; no field fills
the memory. *)
Definition boundOk (b : boundData) : Prop :=
  0 <= b_Position b < 2 ^ 63 /\ 0 <= b_Index b < 2 ^ 63 /\
  Forall (fun field => zlen field < 2 ^ 64)
    [b_Class b; b_TargetTxHash b; b_Ciphertext b; b_PlaceholderTxHash b; b_PlaceholderTxRaw b].

Definition setPreimage (candidates : list EncryptedCorpusCandidate) : bytes :=
  writeHashField (str "bloc-encrypted-set-v1") ++ concat (map (candidateFields uni) candidates).

Lemma candidateFields_inj c d x y :
  boundOk (boundOf c) -> boundOk (boundOf d) ->
  candidateFields uni c ++ x = candidateFields uni d ++ y -> boundOf c = boundOf d /\ x = y.
Proof.
  intros (Hp & Hi & Hf) (Hp' & Hi' & Hf') E. unfold candidateFields in E. rewrite <- !app_assoc in E.
  cbn [boundOf b_Position b_Index] in Hp, Hi, Hp', Hi'.
  apply bigEndian8_inj in E as [E1 E]; [|done..]. apply bigEndian8_inj in E as [E2 E]; [|done..].
  unfold boundOf in Hf, Hf'. rewrite !Forall_cons in Hf, Hf'.
  destruct Hf as (F1 & F2 & F3 & F4 & F5 & _), Hf' as (G1' & G2' & G3' & G4' & G5' & _).
  apply writeHashField_inj in E as [E3 E]; [|done..]. apply writeHashField_inj in E as [E4 E]; [|done..].
  apply writeHashField_inj in E as [E5 E]; [|done..]. apply writeHashField_inj in E as [E6 E]; [|done..].
  apply writeHashField_inj in E as [E7 E]; [|done..]. split; [|done]. unfold boundOf. by f_equal.
Qed.

Lemma candidateFields_nonempty c x : candidateFields uni c ++ x <> [].
Proof. by intros [[? _]%app_eq_nil _]%app_eq_nil. Qed.

Lemma candidates_inj cs ds :
  Forall (fun c => boundOk (boundOf c)) cs -> Forall (fun c => boundOk (boundOf c)) ds ->
  concat (map (candidateFields uni) cs) = concat (map (candidateFields uni) ds) -> map boundOf cs = map boundOf ds.
Proof.
  intros Hcs. revert ds. induction Hcs as [|c cs Hc _ IH]; intros ds Hds E.
  - destruct ds as [|d ds]; [done|]. by destruct (candidateFields_nonempty d (concat (map (candidateFields uni) ds))).
  - destruct Hds as [|d ds Hd Hds]; [by destruct (candidateFields_nonempty c (concat (map (candidateFields uni) cs)))|].
    cbn [map concat] in E. apply candidateFields_inj in E as [E1 E2]; [|done..]. cbn [map]. f_equal; [done|by apply IH].
Qed.

Lemma hexEncode_inj a b : Forall isByte a -> Forall isByte b -> hexEncode a = hexEncode b -> a = b.
Proof.
  intros Ha Hb E. apply (f_equal hexDecode) in E. rewrite !hexDecode_encode in E by done. by injection E.
Qed.

(** The identity of a candidate set commits to it: two sets with one
    identity agree, candidate by candidate, on position, index, class,
    ciphertext bytes, and up to letter case on the target hash and the
    placeholder transaction; or the two byte strings that were hashed are a
    collision of SHA-256. *)
Lemma set_id_binds cs ds :
  Forall (fun c => boundOk (boundOf c)) cs -> Forall (fun c => boundOk (boundOf c)) ds ->
  encryptedCandidateSetID uni cs = encryptedCandidateSetID uni ds ->
  map boundOf cs = map boundOf ds \/
  (setPreimage cs <> setPreimage ds /\ Sum256 (setPreimage cs) = Sum256 (setPreimage ds)).
Proof.
  intros Hcs Hds E. apply hexEncode_inj in E; [|apply Sum256_byte..].
  destruct (decide (setPreimage cs = setPreimage ds)) as [Ep|Hne]; [left|by right].
  apply app_inj_1 in Ep as [_ Ep]; [|done]. by apply candidates_inj.
Qed.
End Identity.

(** ** Storing and loading a corpus *)

(** Ranging over a map of identities visits every entry once. *)
Definition rangesEntries (order : gmap bytes bytes -> list (bytes * bytes)) : Prop := forall m, order m ≡ₚ map_to_list m.

Lemma map_out_units {A} (f : A -> out unit) l us : map_out f l = Ok us -> forall x, x ∈ l -> f x = Ok tt.
Proof.
  revert us. induction l as [|y l IH]; intros us; cbn [map_out]; [intros _ x Hx; by apply elem_of_nil in Hx|].
  destruct (f y) as [[]| |] eqn:Ey; cbn; [|done..]. destruct (map_out f l) as [us'| |]; cbn; [|done..].
  intros _ x [->|Hx]%elem_of_cons; [done|by apply (IH us')].
Qed.

Lemma map_out_forall {A B} (f : A -> out B) (g : A -> B) l : Forall (fun x => f x = Ok (g x)) l -> map_out f l = Ok (map g l).
Proof. intros H. apply map_out_ok. by apply Forall_forall. Qed.

(** Both sides run the same checks, the first of them passing. *)
Ltac skip_checks :=
  repeat match goal with
    | |- (if ?b then Err _ else _) = _ -> _ => destruct b; [done|]
    end.

Section Storing.
Context (uni : bytes -> bytes).

(** The big integers of a transaction are not part of the document. *)
Definition forgetFees (tx : Transaction) : Transaction :=
  mkTransaction (t_Hash tx) (t_From tx) (t_To tx) (t_Nonce tx) (t_Gas tx) (t_Input tx) (t_RawTx tx) None None None
    (t_Kind tx) (Placeholder tx) (IsQueued tx) None (TargetTxHash tx) (TargetTxType tx) (TargetTxSizeBytes tx)
    (t_EncryptedPayloadHex tx) (t_EncryptedPayloadHash tx) (PlaceholderTxHash tx) (PlaceholderTxRaw tx)
    (PlaceholderCalldataBytes tx) (PlaceholderGasEstimate tx).

Definition storedCandidate (c : EncryptedCorpusCandidate) : EncryptedCorpusCandidate :=
  mkCorpusCandidate (c_Position c) (c_Index c) (c_Class c) (c_TargetTxHash c) (c_TargetTxSizeBytes c) (CiphertextHex c)
    (CiphertextSHA256 c) (c_EffectiveFeePerGasWei c) (forgetFees (c_Transaction c)).

Definition storedManifest (m : EncryptedCorpusManifest) : EncryptedCorpusManifest :=
  set_Candidates (map storedCandidate (Candidates m)) m.

Lemma setID_stored cs : encryptedCandidateSetID uni (map storedCandidate cs) = encryptedCandidateSetID uni cs.
Proof.
  unfold encryptedCandidateSetID. by rewrite map_map.
Qed.

Lemma validateCandidates_stored m cs i :
  fold_out (fun i c => let? _ := validateCandidate (storedManifest m) i c in Ok (i + 1)) (map storedCandidate cs) i =
  fold_out (fun i c => let? _ := validateCandidate m i c in Ok (i + 1)) cs i.
Proof.
  revert i. induction cs as [|c cs IH]; intros i; [done|]. cbn [map fold_out].
  change (validateCandidate (storedManifest m) i (storedCandidate c)) with (validateCandidate m i c).
  destruct (validateCandidate m i c); cbn [out_bind]; [apply IH|done..].
Qed.

Lemma validatePrefix_stored m entry : validatePrefix uni (storedManifest m) entry = validatePrefix uni m entry.
Proof.
  unfold validatePrefix, storedManifest. cbn [Candidates set_Candidates]. destruct (Atoi entry.1); [|done].
  rewrite length_map, firstn_map. by rewrite setID_stored.
Qed.

Lemma validate_stored order order' m :
  rangesEntries order -> rangesEntries order' ->
  validateEncryptedCorpusManifest uni order m = Ok tt ->
  validateEncryptedCorpusManifest uni order' (storedManifest m) = Ok tt.
Proof.
  intros Ho Ho'. unfold validateEncryptedCorpusManifest.
  change (Candidates (storedManifest m)) with (map storedCandidate (Candidates m)).
  rewrite length_map, setID_stored, validateCandidates_stored.
  change (m_SchemaVersion (storedManifest m)) with (m_SchemaVersion m).
  change (m_CiphertextWireVersion (storedManifest m)) with (m_CiphertextWireVersion m).
  change (m_PublicConfigID (storedManifest m)) with (m_PublicConfigID m).
  change (m_PlaintextMasterCorpusID (storedManifest m)) with (m_PlaintextMasterCorpusID m).
  change (m_BMax (storedManifest m)) with (m_BMax m).
  change (m_AvailableCount (storedManifest m)) with (m_AvailableCount m).
  change (IndexAssignment (storedManifest m)) with (IndexAssignment m).
  change (OrderedIndexSchedule (storedManifest m)) with (OrderedIndexSchedule m).
  change (m_EncryptedCorpusID (storedManifest m)) with (m_EncryptedCorpusID m).
  change (EncryptedPrefixSetIDs (storedManifest m)) with (EncryptedPrefixSetIDs m).
  skip_checks. destruct (fold_out _ _ _); cbn [out_bind]; [|done..]. skip_checks.
  destruct (map_out (validatePrefix uni m) (order _)) as [us| |] eqn:Eu; cbn [out_bind]; [|done..]. intros _.
  rewrite (map_out_forall _ (fun _ => tt)); [done|]. apply Forall_forall. intros e He.
  rewrite validatePrefix_stored. apply (map_out_units _ _ _ Eu).
  apply (elem_perm _ _ e (Ho _)). by apply (elem_perm _ _ e (Ho' _)).
Qed.

(** A candidate whose fees are those its text says. *)
Definition feesInText (c : EncryptedCorpusCandidate) : Prop := loadCandidate (storedCandidate c) = Ok c.

Lemma load_stored order order' m :
  rangesEntries order -> rangesEntries order' ->
  validateEncryptedCorpusManifest uni order m = Ok tt -> Forall feesInText (Candidates m) ->
  LoadEncryptedCorpus uni order' (Ok (storedManifest m)) = Ok m.
Proof.
  intros Ho Ho' Hv Hf. unfold LoadEncryptedCorpus. cbn [out_bind]. rewrite (validate_stored order order' m Ho Ho' Hv).
  cbn [out_bind]. change (Candidates (storedManifest m)) with (map storedCandidate (Candidates m)).
  assert (map_out loadCandidate (map storedCandidate (Candidates m)) = Ok (Candidates m)) as ->.
  { induction Hf as [|c cs Hc _ IH]; [done|]. cbn [map map_out]. unfold feesInText in Hc. rewrite Hc. cbn [out_bind].
    by rewrite IH. }
  cbn [out_bind]. by destruct m.
Qed.
End Storing.

(** ** Generated corpora *)

Section Generated.
Context `{Suite} `{Ethereum}.
Context (RecoverCommit : list PubShare -> Z -> Z -> out (Point G1)).
Context (Hash : bytes -> bytes) (uni : bytes -> bytes) (hkdf : bytes -> bytes -> bytes).
Context (aead_Seal : bytes -> bytes -> bytes -> bytes -> bytes).
Context (aead_Open : bytes -> bytes -> bytes -> bytes -> out bytes).
(** go-ethereum decodes fees as unsigned numbers. *)
Hypothesis fees_nonneg : forall tx : EthTx, 0 <= effectiveFeePerGas tx.

Lemma parseDecimalBig_decimal n : 0 <= n -> parseDecimalBig (decimal n) = n.
Proof.
  intros Hn. unfold parseDecimalBig. rewrite TrimSpace_visible by by apply decimal_visible.
  rewrite bool_decide_false by apply decimal_nonempty. by rewrite SetString_decimal.
Qed.

Lemma signed_fee index calldata feeWei raw summary :
  signMockPlaceholderTx index calldata feeWei = Ok (raw, summary) ->
  exists fee, 0 <= fee /\ ts_EffectiveFeePerGasWei summary = decimal fee.
Proof.
  unfold signMockPlaceholderTx. destruct (mockPlaceholderPrivateKey index) as [key| |]; cbn [out_bind]; [|done..].
  destruct (SignTx _ key) as [signed|]; [|done]. destruct (MarshalTx signed) as [encoded|]; [|done].
  unfold summarizeSignedTx. destruct (UnmarshalTx encoded) as [tx|]; [|done].
  destruct (tx_Sender tx) as [from|]; [|done]. cbn [out_bind]. intros [= _ <-]. exists (effectiveFeePerGas tx). by split.
Qed.

Lemma ClassifyAndParse_fees tx :
  GasPriceWei (ClassifyAndParse uni tx) = GasPriceWei tx /\
  MaxFeePerGasWei (ClassifyAndParse uni tx) = MaxFeePerGasWei tx /\
  MaxPriorityFeeWei (ClassifyAndParse uni tx) = MaxPriorityFeeWei tx /\
  EffectiveFeePerGasW (ClassifyAndParse uni tx) = EffectiveFeePerGasW tx.
Proof. unfold ClassifyAndParse, set_placeholder. by destruct (ParsePlaceholderCalldata uni (t_Input tx)). Qed.

Lemma mock_fees target index encoded item :
  buildMockPlaceholderFromCiphertext uni target index encoded = Ok item ->
  exists fee, 0 <= fee /\ EffectiveFeePerGas item = fee /\ item = set_fees fee (forgetFees item).
Proof.
  unfold buildMockPlaceholderFromCiphertext.
  destruct (signMockPlaceholderTx _ _ _) as [[raw summary]| |] eqn:Es; cbn [out_bind]; [|done..].
  destruct (signed_fee _ _ _ _ _ Es) as (fee & Hfee & ->). rewrite (parseDecimalBig_decimal fee Hfee).
  set (tx := mkTransaction _ _ _ _ _ _ _ _ _ _ _ _ _ _ _ _ _ _ _ _ _ _ _).
  destruct (ClassifyAndParse_fees tx) as (F1 & F2 & F3 & F4). revert F1 F2 F3 F4.
  generalize (ClassifyAndParse uni tx). intros it F1 F2 F3 F4.
  destruct (_ || _); [done|]. intros [= <-]. exists fee. split; [done|].
  unfold EffectiveFeePerGas. rewrite F4. split; [done|]. destruct it. cbn in *. by subst.
Qed.

Lemma encryptCandidate_fees cluster bMax position job c ct :
  encryptCandidate Hash uni hkdf aead_Seal cluster bMax position job = Ok (c, ct) -> feesInText c.
Proof.
  unfold encryptCandidate. destruct job as [target p].
  destruct (EncryptTx _ _ _ _ _ _ _ _ _) as [made| |]; cbn [out_bind]; [|done..].
  destruct (marshalCiphertext made) as [encoded| |]; cbn [out_bind]; [|done..].
  destruct (buildMockPlaceholderFromCiphertext _ _ _ _) as [item| |] eqn:Ei; cbn [out_bind]; [|done..].
  intros [= <- _]. destruct (mock_fees _ _ _ _ Ei) as (fee & Hfee & E1 & E2).
  unfold feesInText, loadCandidate, storedCandidate. cbn. rewrite E1, SetString_decimal by done.
  replace (fee <? 0) with false by lia. by rewrite <- E2.
Qed.

Lemma encryptAll_fees cluster bMax jobs made pos made' pos' :
  encryptCandidates Hash uni hkdf aead_Seal cluster bMax jobs (made, pos) = Ok (made', pos') ->
  Forall feesInText (map fst made) -> Forall feesInText (map fst made').
Proof.
  unfold encryptCandidates. revert made pos. induction jobs as [|job jobs IH]; intros made pos; cbn [fold_out]; [by intros [= <- _]|].
  destruct (encryptCandidate _ _ _ _ _ _ _ job) as [[c ct]| |] eqn:Ec; cbn [out_bind]; [|done..].
  intros E Hmade. apply (IH _ _ E). rewrite map_app. apply Forall_app. split; [done|].
  apply Forall_cons. split; [by apply encryptCandidate_fees in Ec|constructor].
Qed.

(** *** Assembling passes validation *)

(** The hash and gas of a target as go-ethereum prints and decodes them. *)
Definition canonicalTarget (t : parsedTargetTx) : Prop :=
  let h := ts_Hash (tgt_Summary t) in
  (Forall isByte (HexToHash h) /\ length (HexToHash h) = 32%nat) /\ h = str "0x" ++ hexEncode (HexToHash h) /\
  0 <= ts_Gas (tgt_Summary t) < 2 ^ 64.

Lemma mock_fields target index encoded item :
  canonicalTarget target -> Forall isByte encoded -> encoded <> [] ->
  buildMockPlaceholderFromCiphertext uni target index encoded = Ok item ->
  t_EncryptedPayloadHex item = str "0x" ++ hexEncode encoded /\ TargetTxHash item = ts_Hash (tgt_Summary target).
Proof.
  intros (Hh & Ht & Hg) Hb Hne. unfold buildMockPlaceholderFromCiphertext.
  destruct (signMockPlaceholderTx _ _ _) as [[raw summary]| |]; cbn [out_bind]; [|done..].
  unfold ClassifyAndParse. cbn [t_Input].
  rewrite (ParsePlaceholderCalldata_built uni HexToHash (ts_Hash (tgt_Summary target)) _ encoded Hh Hg (conj Hb Hne)).
  destruct (_ || _); [done|]. intros [= <-]. split; [done|exact (eq_sym Ht)].
Qed.

Lemma marshal_version ct encoded :
  marshalCiphertext ct = Ok encoded -> is_Some (stripPrefix LibraryVersion encoded).
Proof.
  unfold marshalCiphertext. destruct (marshalCT (Capsule ct)); cbn [out_bind]; [|done..]. intros [= <-].
  unfold writeBytes. rewrite <- !app_assoc, stripPrefix_app. by eexists.
Qed.

Definition wireBytes (made : EncryptedCorpusCandidate * Ciphertext) : Prop :=
  forall encoded, marshalCiphertext made.2 = Ok encoded -> Forall isByte encoded.

(** What the loop establishes for the candidate at a position. *)
Definition madeAt (bMax i : Z) (c : EncryptedCorpusCandidate) : Prop :=
  c_Position c = i /\ c_Index c = Z.rem i bMax /\
  exists encoded, decodeHexStrict (CiphertextHex c) = Ok encoded /\ is_Some (stripPrefix LibraryVersion encoded) /\
    hashHex encoded = CiphertextSHA256 c /\ t_EncryptedPayloadHex (c_Transaction c) = CiphertextHex c /\
    TargetTxHash (c_Transaction c) = c_TargetTxHash c.

Lemma encryptCandidate_made cluster bMax i target p c ct :
  canonicalTarget target -> wireBytes (c, ct) ->
  encryptCandidate Hash uni hkdf aead_Seal cluster bMax i (target, p) = Ok (c, ct) -> madeAt bMax i c.
Proof.
  intros Ht Hw. unfold encryptCandidate.
  destruct (EncryptTx _ _ _ _ _ _ _ _ _) as [made| |]; cbn [out_bind]; [|done..].
  destruct (marshalCiphertext made) as [encoded| |] eqn:Em; cbn [out_bind]; [|done..].
  destruct (buildMockPlaceholderFromCiphertext _ _ _ _) as [item| |] eqn:Ei; cbn [out_bind]; [|done..].
  intros [= <- <-]. specialize (Hw encoded Em). pose proof (marshal_version _ _ Em) as Hv.
  assert (encoded <> []) as Hne by (intros ->; cbn in Hv; by destruct Hv).
  destruct (mock_fields _ _ _ _ Ht Hw Hne Ei) as [F1 F2]. unfold madeAt. cbn.
  split_and!; [done|done|]. exists encoded. split_and!; try done. by apply decodeHexStrict_hex.
Qed.

Lemma encryptAll_made cluster bMax jobs made pos made' pos' :
  Forall (fun job => canonicalTarget job.1) jobs -> Forall wireBytes made' ->
  encryptCandidates Hash uni hkdf aead_Seal cluster bMax jobs (made, pos) = Ok (made', pos') ->
  exists more, made' = made ++ more /\ length more = length jobs /\
    forall i x, more !! i = Some x -> madeAt bMax (pos + Z.of_nat i) x.1.
Proof.
  unfold encryptCandidates. intros Hjobs. revert made pos.
  induction Hjobs as [|[target p] jobs Ht _ IH]; intros made pos Hw; cbn [fold_out].
  - intros [= <- <-]. exists []. by rewrite app_nil_r.
  - destruct (encryptCandidate _ _ _ _ _ _ _ (target, p)) as [[c ct]| |] eqn:Ec; cbn [out_bind]; [|done..].
    intros E. destruct (IH _ _ Hw E) as (more & -> & Hl & Hm). exists ((c, ct) :: more).
    split; [by rewrite <- app_assoc|]. split; [cbn; lia|]. intros [|i] x; cbn [lookup list_lookup].
    + intros [= <-]. rewrite Z.add_0_r. apply (encryptCandidate_made cluster bMax pos target p c ct Ht); [|done].
      rewrite !Forall_app, Forall_cons in Hw. apply Hw.
    + intros Hx. apply Hm in Hx. by replace (pos + Z.of_nat (S i)) with (pos + 1 + Z.of_nat i) by lia.
Qed.

Lemma validateCandidate_made bMax m i c :
  m_BMax m = bMax -> at_index (OrderedIndexSchedule m) i = Ok (c_Index c) -> madeAt bMax i c ->
  validateCandidate m i c = Ok tt.
Proof.
  intros Hb Hs (Hp & Hi & encoded & Hd & Hv & Hh & H1 & H2). unfold validateCandidate. rewrite Hs. cbn [out_bind].
  rewrite Hp, Hi, Hb, !Z.eqb_refl. cbn [negb orb]. rewrite Hd. cbn [out_bind].
  by rewrite !bool_decide_true.
Qed.

Lemma fold_validate m cs i :
  (forall j c, cs !! j = Some c -> validateCandidate m (i + Z.of_nat j) c = Ok tt) ->
  fold_out (fun i c => let? _ := validateCandidate m i c in Ok (i + 1)) cs i = Ok (i + zlen cs).
Proof.
  revert i. induction cs as [|c cs IH]; intros i Hc; cbn [fold_out].
  - by rewrite Z.add_0_r.
  - pose proof (Hc 0%nat c eq_refl) as H0'. rewrite Z.add_0_r in H0'. rewrite H0'. cbn [out_bind].
    rewrite IH; [f_equal; cbn [length]; lia|]. intros j c' Hj.
    replace (i + 1 + Z.of_nat j) with (i + Z.of_nat (S j)) by lia. by apply Hc.
Qed.

Lemma prefixMap_entries {V} limit (value : Z * list (corpusClass * Z) -> V) k v :
  prefixMap limit value !! k = Some v ->
  exists p, k = decimal p.1 /\ v = value p /\ 0 < p.1 <= limit /\ p.1 <= 512.
Proof.
  unfold prefixMap.
  assert (Forall (fun p => 0 < p.1 <= 512) protocolWorkloadPrefixes) as Hp by (repeat constructor; cbn; lia).
  assert (forall (m : gmap bytes V), (forall v, m !! k = Some v -> exists p, k = decimal p.1 /\ v = value p /\ 0 < p.1 <= limit /\ p.1 <= 512) ->
    fold_left (fun m prefix => if prefix.1 <=? limit then <[decimal prefix.1 := value prefix]> m else m)
      protocolWorkloadPrefixes m !! k = Some v ->
    exists p, k = decimal p.1 /\ v = value p /\ 0 < p.1 <= limit /\ p.1 <= 512) as Hfold.
  { induction Hp as [|p ps Hp _ IH]; intros m Hm; cbn [fold_left]; [apply Hm|].
    apply IH. destruct (Z.leb_spec p.1 limit); [|done].
    intros v' [[<- <-]|[_ Hv]]%lookup_insert_Some; [exists p; split_and!; try done; lia|by apply Hm]. }
  apply Hfold. intros v'. by rewrite lookup_empty.
Qed.

Lemma Atoi_decimal n : 0 <= n < 2 ^ 63 -> Atoi (decimal n) = Some n.
Proof.
  intros Hn. unfold Atoi. rewrite SetString_decimal by lia. by replace ((- 2 ^ 63 <=? n) && (n <? 2 ^ 63)) with true by lia.
Qed.

Lemma manifest_valid order bMax limit publicID targets candidates :
  rangesEntries order -> 0 < limit <= bMax -> publicID <> [] -> zlen candidates = limit ->
  (forall i c, candidates !! i = Some c -> madeAt bMax (Z.of_nat i) c) ->
  validateEncryptedCorpusManifest uni order (manifestOf uni bMax limit publicID targets candidates) = Ok tt.
Proof.
  intros Ho Hl Hid Hn Hmade. set (m := manifestOf _ _ _ _ _ _). unfold validateEncryptedCorpusManifest.
  rewrite (bool_decide_true (m_SchemaVersion m = _)), (bool_decide_true (m_CiphertextWireVersion m = _)) by done.
  rewrite (bool_decide_false (m_PublicConfigID m = [])) by done.
  rewrite (bool_decide_false (m_PlaintextMasterCorpusID m = [])) by apply hashHex_nonempty.
  rewrite (bool_decide_true (IndexAssignment m = _)) by done. cbn [negb orb].
  change (m_BMax m) with bMax. change (m_AvailableCount m) with limit. change (Candidates m) with candidates.
  change (OrderedIndexSchedule m) with (map c_Index candidates). rewrite length_map, Hn, Z.eqb_refl. cbn [negb orb].
  replace ((bMax <=? 0) || (limit <=? 0) || (bMax <? limit)) with false by lia.
  rewrite (fold_validate m candidates 0).
  - cbn [out_bind]. rewrite bool_decide_true by done. cbn [negb].
    rewrite (map_out_forall _ (fun _ => tt)); [done|]. apply Forall_forall. intros [k v] He.
    apply (elem_perm _ _ _ (Ho _)) in He. apply elem_of_map_to_list in He.
    apply prefixMap_entries in He as (p & -> & -> & Hp & Hp'). unfold validatePrefix. cbn [fst snd].
    rewrite Atoi_decimal by lia. change (Candidates m) with candidates. rewrite Hn.
    replace ((p.1 <=? 0) || (limit <? p.1)) with false by lia. by rewrite bool_decide_true.
  - intros j c Hj. cbn [Z.add]. apply (validateCandidate_made bMax); [done| |by apply Hmade].
    change (OrderedIndexSchedule m) with (map c_Index candidates).
    pose proof (lookup_lt_Some _ _ _ Hj) as Hlt. rewrite (at_index_map _ _ _ c) by lia.
    replace (Z.to_nat (0 + Z.of_nat j)) with j by lia. by rewrite (nth_lookup_Some _ _ _ _ Hj).
Qed.

Lemma publicID_nonempty bMax sha pk id : PublicConfigID uni bMax sha pk = Ok id -> id <> [].
Proof.
  unfold PublicConfigID. skip_checks. destruct (hexDecode _); [|done]. destruct pk as [pk|]; [|done].
  destruct (MarshalPoint pk); cbn [out_bind]; [|done..]. intros [= <-]. apply hashHex_nonempty.
Qed.

(** What assembling establishes. *)
Lemma assembled order config limit targets cluster random publicID made pos :
  rangesEntries order -> 0 < limit <= rc_BMax config -> limit <= zlen targets -> limit <= zlen random ->
  Forall canonicalTarget targets -> Forall wireBytes made ->
  PublicConfigID uni (rc_BMax config) (rc_CRSSHA256 config) (Some (cl_PK cluster)) = Ok publicID ->
  encryptCandidates Hash uni hkdf aead_Seal cluster (rc_BMax config) (combine (take (Z.to_nat limit) targets) random)
    ([], 0) = Ok (made, pos) ->
  let m := manifestOf uni (rc_BMax config) limit publicID targets (map fst made) in
  validateEncryptedCorpusManifest uni order m = Ok tt /\ Forall feesInText (Candidates m).
Proof.
  intros Ho Hl Ht Hr Hc Hw Hid He m. split; [|apply (encryptAll_fees _ _ _ _ _ _ _ He); constructor].
  assert (Forall (fun job : parsedTargetTx * picks => canonicalTarget job.1)
    (combine (take (Z.to_nat limit) targets) random)) as Hjobs.
  { apply Forall_forall. intros [t p] Hin. apply list_elem_of_In, in_combine_l, list_elem_of_In in Hin.
    rewrite Forall_forall in Hc. apply Hc. apply (elem_of_sublist (take (Z.to_nat limit) targets)); [done|apply sublist_take]. }
  destruct (encryptAll_made _ _ _ _ _ _ _ Hjobs Hw He) as (more & E & Hlen & Hmade).
  cbn [app] in E. subst more. rewrite length_combine, length_take in Hlen.
  apply manifest_valid; [done..|by apply publicID_nonempty in Hid|rewrite length_map; lia|].
  intros i c Hi. apply list_lookup_fmap_Some in Hi as (x & -> & Hx). by apply Hmade.
Qed.

(** C24. Generating a corpus and storing it loses nothing. Once the targets are
    encrypted and the self-check has decrypted them, the manifest that is
    assembled always passes the validation it is put through, so generation
    succeeds; and loading the stored document, from which the big integers are
    missing, validates again, whatever the order in which Go visits the map of
    prefix identities, and gives the corpus back, fees included. *)
Theorem corpus_roundtrip order order' config limit targets cluster random publicID made pos :
  rangesEntries order -> rangesEntries order' ->
  0 < limit <= rc_BMax config -> limit <= zlen targets -> limit <= zlen random ->
  Forall canonicalTarget targets -> Forall wireBytes made ->
  PublicConfigID uni (rc_BMax config) (rc_CRSSHA256 config) (Some (cl_PK cluster)) = Ok publicID ->
  encryptCandidates Hash uni hkdf aead_Seal cluster (rc_BMax config) (combine (take (Z.to_nat limit) targets) random)
    ([], 0) = Ok (made, pos) ->
  selfCheckEncryptedCorpus RecoverCommit Hash hkdf aead_Open cluster (map snd made) (take (Z.to_nat limit) targets) = Ok tt ->
  exists m,
    assembleCorpus RecoverCommit Hash uni hkdf aead_Seal aead_Open order config limit targets cluster random = Ok m /\
    Candidates m = map fst made /\ LoadEncryptedCorpus uni order' (Ok (storedManifest m)) = Ok m.
Proof.
  intros Ho Ho' Hl Ht Hr Hc Hw Hid He Hself.
  destruct (assembled order config limit targets cluster random publicID made pos) as [Hv Hf]; [done..|].
  eexists. split.
  - unfold assembleCorpus. rewrite Hid. cbn [out_bind]. rewrite He. cbn [out_bind]. rewrite Hself. cbn [out_bind].
    rewrite Hv. done.
  - split; [done|]. by apply (load_stored uni order order').
Qed.
End Generated.
