(* ===== verification/CorpusNode.v ===== *)
(** * CorpusNode: from a corpus to a node's proposal

    A node asks the mempool service for a page of its encrypted corpus and
    turns the answer into its proposal: the composition of [Corpus]'s server
    with [Provider]. The JSON encoding between them carries every field as it
    is ([overHTTP]). *)

From S2P Require Import Prelude Order GoStrings Sha256 Kyber Prf Btd Batch Mempool MempoolLaws Targets Corpus CorpusLaws Merge Messages Acs SlotAcs Wire NodeState Provider.

(** ** The exchange *)

(** Queries are decimal text. *)
Lemma digitsIn_decimal ds acc :
  Forall (fun c => isDigit c = true) ds ->
  digitsIn 10 ds acc = Some (fold_left (fun acc c => 10 * acc + (c - 48)) ds acc).
Proof.
  intros H. revert acc. induction H as [|c ds Hc _ IH]; intros acc; [done|]. cbn [digitsIn fold_left].
  unfold isDigit in Hc. assert (fromHexChar c = Some (c - 48)) as ->.
  { unfold fromHexChar. by replace ((48 <=? c) && (c <=? 57)) with true by lia. }
  replace (c - 48 <? 10) with true by lia. apply IH.
Qed.

Lemma ParseUint_decimal n : 0 <= n < 2 ^ 64 -> ParseUint 10 (decimal n) = Some n.
Proof.
  intros Hn. destruct (decimal_nonneg n ltac:(lia)) as [Hd Hv]. unfold ParseUint.
  rewrite bool_decide_false by apply decimal_nonempty. rewrite digitsIn_decimal by done.
  change (fold_left _ (decimal n) 0) with (digitsValue (decimal n)). rewrite Hv.
  by replace (n <? 2 ^ 64) with true by lia.
Qed.

(** The item of an answer as the node decodes it; the service sends no
    [ciphertext_hex]. *)
Definition remoteItemOf (i : Item) : remoteItem :=
  mkRemoteItem (i_Hash i) (i_EncryptedPayloadHex i) [] (PlaceholderEnvelopeHex i) (i_Gas i) (EffectiveFeePerGW i)
    (i_From i) (i_Nonce i) (i_Kind i).

Definition overHTTP (r : reply) : out remoteList :=
  match r with
  | replyError _ e => Err "mempool inclusion-list failed"
  | replyList l => Ok (mkRemote [] [] [] [] [] [] 0 0 0 0 (map remoteItemOf (served_Items l)))
  | replyCorpus p n l =>
      Ok (mkRemote (p_SchemaVersion p) (p_CiphertextWireVersion p) (p_PublicConfigID p) (p_PlaintextMasterCorpusID p)
        (p_EncryptedCorpusID p) (p_EncryptedPrefixSetID p) (p_Slot p) (p_RequestedCount p) (p_AvailableCount p) n
        (map remoteItemOf (served_Items l)))
  end.

(** The request [fetchMempoolInclusionList] sends. *)
Definition askService (uni : bytes -> bytes) (order : Store -> list Transaction) (s : Server) (slot limit : Z)
  : out remoteList :=
  overHTTP (handleInclusionList uni order s (decimal slot) (if 0 <? limit then decimal limit else [])).

(** ** What the builder keeps *)

Lemma dedupe_sublist txs seen : dedupe txs seen `sublist_of` txs.
Proof.
  revert seen. induction txs as [|tx txs IH]; intros seen; [done|]. cbn [dedupe].
  destruct (_ || _); [by apply sublist_cons|]. case_bool_decide; [by apply sublist_cons|by apply sublist_skip].
Qed.

Lemma selectTxs_sublist cfg txs items gas :
  exists kept, (selectTxs cfg txs items gas).1 = items ++ map itemOf kept /\ kept `sublist_of` txs.
Proof.
  revert items gas. induction txs as [|tx txs IH]; intros items gas; cbn [selectTxs].
  - exists []. by rewrite app_nil_r.
  - destruct (_ <=? _); [exists []; split; [by rewrite app_nil_r|apply sublist_nil_l]|].
    destruct (_ <? _).
    + destruct (IH items gas) as (kept & -> & Hs). exists kept. split; [done|by apply sublist_cons].
    + destruct (IH (items ++ [itemOf tx]) (u64 (gas + t_Gas tx))) as (kept & -> & Hs). exists (tx :: kept).
      split; [by rewrite <- app_assoc|by apply sublist_skip].
Qed.

Lemma BuildOrdered_sublist cfg txs :
  exists kept, served_Items (BuildOrdered cfg (mkSnapshot txs 0 [])) = map itemOf kept /\ kept `sublist_of` txs /\
    Count (BuildOrdered cfg (mkSnapshot txs 0 [])) = zlen kept.
Proof.
  unfold BuildOrdered, build. cbn [Transactions].
  destruct (selectTxs_sublist cfg (dedupe txs ∅) [] 0) as (kept & E & Hs).
  destruct (selectTxs cfg (dedupe txs ∅) [] 0) as [items gas]. cbn [fst app] in E. subst items. exists kept.
  cbn. rewrite length_map. split_and!; [done| |done]. etransitivity; [done|apply dedupe_sublist].
Qed.

Lemma chooseInto_all cfg chosen txs :
  zlen chosen + zlen txs <= MaxTransactions cfg -> gasOf chosen + gasOf txs <= MaxGas cfg -> gasOk txs ->
  chooseInto cfg chosen txs = chosen ++ txs.
Proof.
  intros Hn Hg Hok. revert chosen Hn Hg. induction Hok as [|tx txs Htx Hok IH]; intros chosen Hn Hg.
  - by rewrite app_nil_r.
  - assert (0 <= gasOf txs) as Hpos.
    { clear -Hok. induction Hok as [|x l Hx _ IH]; cbn; [lia|]. unfold gasOf in IH. lia. }
    change (gasOf (tx :: txs)) with (t_Gas tx + gasOf txs) in Hg. cbn [length] in Hn.
    rewrite chooseInto_cons. unfold takes.
    replace (zlen chosen <? MaxTransactions cfg) with true by lia.
    replace (gasOf chosen + t_Gas tx <=? MaxGas cfg) with true by lia. cbn [andb].
    rewrite IH; [by rewrite <- app_assoc| |].
    + rewrite length_app. cbn [length]. lia.
    + rewrite gasOf_app. change (gasOf [tx]) with (t_Gas tx + 0). lia.
Qed.

(** A list with room keeps everything. *)
Lemma BuildOrdered_all cfg txs :
  builderOk cfg -> gasOk txs -> NoDup (map t_Hash txs) -> Forall listable txs ->
  zlen txs <= MaxTransactions cfg -> gasOf txs <= MaxGas cfg ->
  served_Items (BuildOrdered cfg (mkSnapshot txs 0 [])) = map itemOf txs /\
  Count (BuildOrdered cfg (mkSnapshot txs 0 [])) = zlen txs.
Proof.
  intros Hcfg Hok Hnd Hl Hn Hg. destruct (build_choose cfg txs false Hcfg Hok Hnd) as (E1 & E2 & _).
  assert (filter listable txs = txs) as Ef.
  { clear -Hl. induction Hl as [|x l Hx _ IH]; [done|]. rewrite filter_cons, decide_True by done. by rewrite IH. }
  rewrite Ef in E1, E2. unfold choose in E1, E2. rewrite chooseInto_all in E1, E2 by (cbn; done || lia).
  by split.
Qed.

(** ** A loaded corpus *)

(** The ciphertext of a candidate, by its text, its digest and its
    transaction. *)
Definition payloadOk (c : EncryptedCorpusCandidate) (b : bytes) : Prop :=
  Targets.decodeHexStrict (CiphertextHex c) = Ok b /\ CiphertextSHA256 c = hashHex b /\
  t_EncryptedPayloadHex (c_Transaction c) = CiphertextHex c.

Definition servable (m : EncryptedCorpusManifest) : Prop :=
  m_SchemaVersion m = encryptedCorpusSchemaVersion /\ m_CiphertextWireVersion m = LibraryVersion /\
  zlen (Candidates m) = m_AvailableCount m /\ 0 < m_AvailableCount m <= m_BMax m /\
  Forall (fun c => exists b, payloadOk c b) (Candidates m).

Lemma validateCandidate_payload m i c : validateCandidate m i c = Ok tt -> exists b, payloadOk c b.
Proof.
  unfold validateCandidate, payloadOk. destruct (at_index _ _); cbn [out_bind]; [|done..]. skip_checks.
  destruct (Targets.decodeHexStrict (CiphertextHex c)) as [b| |]; cbn [out_bind]; [|done..]. intros H. exists b.
  revert H. case_bool_decide; cbn [negb orb]; [|done]. case_bool_decide; cbn [negb orb]; [|done].
  case_bool_decide; cbn [negb orb]; [|done]. done.
Qed.

Lemma validateCandidates_payload m cs i i' :
  fold_out (fun i c => let? _ := validateCandidate m i c in Ok (i + 1)) cs i = Ok i' ->
  Forall (fun c => exists b, payloadOk c b) cs.
Proof.
  revert i. induction cs as [|c cs IH]; intros i; cbn [fold_out]; [constructor|].
  destruct (validateCandidate m i c) as [[]| |] eqn:E; cbn [out_bind]; [|done..]. intros H.
  apply Forall_cons. split; [by apply validateCandidate_payload in E|by apply IH in H].
Qed.

Lemma validate_servable uni order m : validateEncryptedCorpusManifest uni order m = Ok tt -> servable m.
Proof.
  unfold validateEncryptedCorpusManifest, servable.
  case_bool_decide as E1; cbn [negb]; [|done]. case_bool_decide as E2; cbn [negb]; [|done].
  destruct (bool_decide (m_PublicConfigID m = []) || _); [done|].
  destruct (Z.leb_spec (m_BMax m) 0), (Z.leb_spec (m_AvailableCount m) 0), (Z.ltb_spec (m_BMax m) (m_AvailableCount m));
    cbn [orb]; try done.
  destruct (negb (bool_decide (IndexAssignment m = _))); [done|].
  destruct (Z.eqb_spec (zlen (Candidates m)) (m_AvailableCount m)); cbn [negb orb]; [|done].
  destruct (negb (zlen (OrderedIndexSchedule m) =? m_AvailableCount m)); [done|].
  destruct (fold_out _ (Candidates m) 0) eqn:Ef; cbn [out_bind]; [|done..]. intros _.
  split_and!; try done; try lia. by apply validateCandidates_payload in Ef.
Qed.

Lemma loadCandidate_payload c c' b : loadCandidate c = Ok c' -> payloadOk c b -> payloadOk c' b.
Proof.
  unfold loadCandidate. destruct (SetString _) as [fee|]; [|done]. destruct (fee <? 0); [done|]. by intros [= <-].
Qed.

Lemma load_servable uni order decoded m : LoadEncryptedCorpus uni order decoded = Ok m -> servable m.
Proof.
  unfold LoadEncryptedCorpus. destruct decoded as [m0| |]; cbn [out_bind]; [|done..].
  destruct (validateEncryptedCorpusManifest uni order m0) as [[]| |] eqn:Ev; cbn [out_bind]; [|done..].
  destruct (map_out loadCandidate (Candidates m0)) as [cs| |] eqn:El; cbn [out_bind]; [|done..].
  intros [= <-]. destruct (validate_servable _ _ _ Ev) as (E1 & E2 & E3 & E4 & Hp).
  unfold servable. cbn. rewrite (map_out_length _ _ _ El). split_and!; try done; try lia.
  clear -El Hp. revert cs El. induction Hp as [|c l [b Hb] _ IH]; intros cs; cbn [map_out]; [intros [= <-]; constructor|].
  destruct (loadCandidate c) as [c'| |] eqn:Ec; cbn [out_bind]; [|done..].
  destruct (map_out loadCandidate l) as [cs'| |]; cbn [out_bind]; [|done..]. intros [= <-].
  apply Forall_cons. split; [exists b; by apply (loadCandidate_payload c)|by apply IH].
Qed.

(** ** Converting the items *)

Section Convert.
Context (uni : bytes -> bytes).

(** What a candidate should become in a proposal. *)
Definition proposalOf (c : EncryptedCorpusCandidate) : EncryptedPlaceholder :=
  mkPlaceholder (CiphertextSHA256 c) (decodedOrPrefix (CiphertextHex c)) (t_Gas (c_Transaction c))
    (decimal (EffectiveFeePerGas (c_Transaction c))) (ToLower uni (t_From (c_Transaction c)))
    (t_Nonce (c_Transaction c)) (str "placeholder").

Lemma provider_decode raw b : Targets.decodeHexStrict raw = Ok b -> Provider.decodeHexStrict raw = Ok b.
Proof.
  unfold Targets.decodeHexStrict, Provider.decodeHexStrict, hexText. case_bool_decide; [done|]. cbn [out_bind].
  by destruct (hexDecode _).
Qed.

Lemma decode_nonempty raw b : Targets.decodeHexStrict raw = Ok b -> raw <> [].
Proof. by intros H ->. Qed.

Lemma convertItem_candidate c b :
  payloadOk c b ->
  convertItem uni (remoteItemOf (itemOf (c_Transaction c))) =
  if bool_decide (t_Kind (c_Transaction c) = []) || bool_decide (t_Kind (c_Transaction c) = TxKindPlaceholder)
  then Ok (Some (proposalOf c)) else Ok None.
Proof.
  intros (Hd & Hs & Hp). pose proof (decode_nonempty _ _ Hd) as Hne. unfold convertItem, proposalOf. cbn.
  rewrite Hs, (decodedOrPrefix_ok _ _ Hd), Hp.
  rewrite !(bool_decide_false (CiphertextHex c = [])) by done. rewrite (provider_decode _ _ Hd). cbn [out_bind].
  rewrite (bool_decide_false (decimal _ = [])) by apply decimal_nonempty.
  change (str "placeholder") with TxKindPlaceholder.
  case_bool_decide as E1; cbn [negb andb orb]; [done|]. case_bool_decide as E2; cbn [negb]; [by rewrite E2|done].
Qed.

(** Every candidate is converted or skipped, never refused. *)
Lemma convert_all cs :
  Forall (fun c => exists b, payloadOk c b) cs ->
  exists converted, map_out (convertItem uni) (map remoteItemOf (map itemOf (map c_Transaction cs))) = Ok converted /\
    zlen (omap id converted) <= zlen cs /\
    (zlen (omap id converted) = zlen cs -> omap id converted = map proposalOf cs) /\
    (Forall (fun c => t_Kind (c_Transaction c) = TxKindPlaceholder) cs -> omap id converted = map proposalOf cs).
Proof.
  induction 1 as [|c cs [b Hb] _ (converted & E & Hle & Heq & Hall)]; [by exists []|].
  cbn [map map_out]. rewrite (convertItem_candidate c b Hb). destruct (_ || _) eqn:Ek; cbn [out_bind]; rewrite E.
  - exists (Some (proposalOf c) :: converted). cbn [omap list_omap id length map]. split_and!; [done|lia| |].
    + intros Hl. rewrite Heq by lia. done.
    + intros [_ Hk]%Forall_cons. by rewrite Hall.
  - exists (None :: converted). cbn [omap list_omap id length map]. split_and!; [done|lia|lia|].
    intros [Hk _]%Forall_cons. exfalso. rewrite Hk in Ek. done.
Qed.
End Convert.

Lemma sublist_map {A B} (f : A -> B) l kept :
  kept `sublist_of` map f l -> exists l', kept = map f l' /\ l' `sublist_of` l.
Proof.
  revert kept. induction l as [|x l IH]; intros kept; cbn [map].
  - intros ->%sublist_nil_r. by exists [].
  - intros [H|(k & -> & H)]%sublist_cons_r; last first.
    + destruct (IH k H) as (l' & -> & Hs). exists (x :: l'). split; [done|by apply sublist_skip].
    + destruct (IH kept H) as (l' & -> & Hs). exists l'. split; [done|by apply sublist_cons].
Qed.

Lemma sublist_full {A} (l l' : list A) : l' `sublist_of` l -> (length l <= length l')%nat -> l' = l.
Proof.
  induction 1 as [|x l' l Hs IH|x l' l Hs IH]; cbn; intros Hl; [done| |].
  - f_equal. apply IH. lia.
  - apply sublist_length in Hs. lia.
Qed.

Section Proposal.
Context `{Suite} (uni : bytes -> bytes).
Context (json_list : Z -> Z -> list EncryptedPlaceholder -> bytes).
Context (storeOrder : Store -> list Transaction) (entryOrder : gmap bytes bytes -> list (bytes * bytes)).
Context (decoded : out EncryptedCorpusManifest) (m : EncryptedCorpusManifest).
Hypothesis Hloaded : LoadEncryptedCorpus uni entryOrder decoded = Ok m.
Context (srv : Server).
Hypothesis Hsource : sv_slotSource srv = Some m.
Context (cfg : NodeConfig) (slot limit : Z).
Hypothesis Hslot : 0 <= slot < 2 ^ 64.
Hypothesis Hlimit : 0 < limit < 2 ^ 63.
Hypothesis Hurl : MempoolURL (NodeState.Provider cfg) <> [].
Hypothesis Hexact : RequireExactCount (NodeState.Provider cfg) = true.

Abbreviation prefix := (take (Z.to_nat limit) (Candidates m)).
Abbreviation answer := (fetchMempoolInclusionList uni json_list (askService uni storeOrder srv) cfg slot limit).

(** The identities the node was configured to expect. *)
Definition expects : bool :=
  let p := NodeState.Provider cfg in
  negb (mismatch (publicConfigID cfg) (m_PublicConfigID m)) &&
  negb (mismatch (ExpectedPublicConfigID p) (m_PublicConfigID m)) &&
  negb (mismatch (ExpectedPlaintextMasterID p) (m_PlaintextMasterCorpusID m)) &&
  negb (mismatch (ExpectedEncryptedCorpusID p) (m_EncryptedCorpusID m)) &&
  negb (mismatch (default [] (ExpectedEncryptedPrefixSetIDs p !! decimal limit)) (encryptedCandidateSetID uni prefix)).

Lemma prefix_ok : Forall (fun c => exists b, payloadOk c b) prefix.
Proof. destruct (load_servable _ _ _ _ Hloaded) as (_ & _ & _ & _ & Hp). by apply Forall_take. Qed.

Lemma prefix_length : zlen prefix = Z.min limit (m_AvailableCount m).
Proof. destruct (load_servable _ _ _ _ Hloaded) as (_ & _ & Hl & _). rewrite length_take. lia. Qed.

Lemma ask_reply :
  askService uni storeOrder srv slot limit =
  if m_BMax m <? limit then Err "mempool inclusion-list failed"
  else
    let l := BuildOrdered (sv_builder srv) (mkSnapshot (map c_Transaction prefix) 0 []) in
    Ok (mkRemote (m_SchemaVersion m) (m_CiphertextWireVersion m) (m_PublicConfigID m) (m_PlaintextMasterCorpusID m)
      (m_EncryptedCorpusID m) (encryptedCandidateSetID uni prefix) slot limit (m_AvailableCount m) (Count l)
      (map remoteItemOf (served_Items l))).
Proof.
  destruct (load_servable _ _ _ _ Hloaded) as (_ & _ & Hl & Ha & _).
  unfold askService, handleInclusionList. rewrite Hsource, bool_decide_false by apply decimal_nonempty.
  rewrite ParseUint_decimal by done. replace (0 <? limit) with true by lia. rewrite Atoi_decimal by lia.
  replace (limit <=? 0) with false by lia. unfold FetchSlot. replace (limit <=? 0) with false by lia.
  destruct (m_BMax m <? limit); [done|].
  set (returned := if m_AvailableCount m <? limit then m_AvailableCount m else limit).
  assert (take (Z.to_nat returned) (Candidates m) = prefix) as Hp.
  { unfold returned. destruct (Z.ltb_spec (m_AvailableCount m) limit); [|done]. rewrite !take_ge; [done|lia..]. }
  replace ((returned <? 0) || (zlen (Candidates m) <? returned)) with false
    by (unfold returned; destruct (Z.ltb_spec (m_AvailableCount m) limit); lia).
  cbn [p_Transactions]. rewrite Hp. done.
Qed.

(** The checks on the answer are those on the expectations and the counts. *)
Lemma provenance_checked items n :
  n <= m_AvailableCount m -> 0 <= n ->
  let r := mkRemote (m_SchemaVersion m) (m_CiphertextWireVersion m) (m_PublicConfigID m) (m_PlaintextMasterCorpusID m)
    (m_EncryptedCorpusID m) (encryptedCandidateSetID uni prefix) slot limit (m_AvailableCount m) n items in
  (checkProvenance cfg slot limit r = Ok tt /\ expects = true) \/
  (exists e, checkProvenance cfg slot limit r = Err e) /\ expects = false.
Proof.
  intros Hn Hn0 r. destruct (load_servable _ _ _ _ Hloaded) as (Hs & Hw & _).
  unfold checkProvenance, r, expects. cbn. rewrite Hs, Hw.
  rewrite (bool_decide_false (encryptedCorpusSchemaVersion = [])) by done.
  rewrite bool_decide_true by done. rewrite bool_decide_true by done. cbn [negb].
  rewrite Z.eqb_refl, Z.eqb_refl. cbn [negb]. rewrite andb_false_r.
  replace (m_AvailableCount m <? n) with false by lia. replace (n <? 0) with false by lia. cbn [orb].
  replace (0 <? limit) with true by lia. cbn [andb].
  repeat (destruct (mismatch _ _); cbn [negb andb]; [right; split; [by eexists|done]|]). by left.
Qed.

(** A page whose items are all proposals of the prefix. *)
Lemma answer_from items n :
  (m_BMax m <? limit) = false -> n <= m_AvailableCount m -> 0 <= n ->
  forall converted,
  served_Items (BuildOrdered (sv_builder srv) (mkSnapshot (map c_Transaction prefix) 0 [])) = items ->
  Count (BuildOrdered (sv_builder srv) (mkSnapshot (map c_Transaction prefix) 0 [])) = n ->
  map_out (convertItem uni) (map remoteItemOf items) = Ok converted ->
  answer =
  if negb expects then answer
  else if negb (n =? zlen (omap id converted)) then Err "mempool returned count does not match decoded items"
  else if limit <? zlen (omap id converted) then Err "mempool returned items above proposal limit"
  else if negb (zlen (omap id converted) =? limit) then Err "mempool returned items, require exact proposal limit"
  else Ok (setListHash json_list (mkList slot (self_ID cfg) (omap id converted) [])).
Proof.
  intros Hb Hn Hn0 converted Hi Hc Hm.
  destruct (provenance_checked (map remoteItemOf items) n Hn Hn0) as [[Ep Ee]|[_ Ee]]; rewrite Ee; cbn [negb]; [|done].
  cbn zeta in Ep. unfold fetchMempoolInclusionList. rewrite bool_decide_false by done.
  rewrite ask_reply, Hb. cbn zeta. rewrite Hi, Hc. cbn [out_bind]. rewrite Ep.
  cbn [out_bind rem_Items SchemaVersion ReturnedCount]. rewrite Hm. cbn [out_bind].
  destruct (load_servable _ _ _ _ Hloaded) as (Hs & _). rewrite Hs, bool_decide_false by done.
  replace (0 <? limit) with true by lia. by rewrite Hexact.
Qed.

Lemma unexpected_refused l : answer = Ok l -> expects = true /\ (m_BMax m <? limit) = false.
Proof.
  unfold fetchMempoolInclusionList. rewrite bool_decide_false by done. rewrite ask_reply.
  destruct (m_BMax m <? limit); [done|]. cbn zeta. set (l' := BuildOrdered _ _). cbn [out_bind].
  destruct (BuildOrdered_sublist (sv_builder srv) (map c_Transaction prefix)) as (kept & _ & Hs & Hc).
  fold l' in Hc. apply sublist_length in Hs. rewrite length_map in Hs. pose proof prefix_length as Hl.
  destruct (provenance_checked (map remoteItemOf (served_Items l')) (Count l')) as [[Ep Ee]|[[e Ep] Ee]];
    [lia..|intros _; by split|]. cbn zeta in Ep. by rewrite Ep.
Qed.

Lemma accepted_items l :
  answer = Ok l ->
  Items l = map (proposalOf uni) prefix /\ zlen (Items l) = limit /\ limit <= m_AvailableCount m /\ expects = true /\
  list_Slot l = slot /\ OperatorID l = self_ID cfg.
Proof.
  intros Ha. destruct (unexpected_refused l Ha) as [He Hb].
  destruct (BuildOrdered_sublist (sv_builder srv) (map c_Transaction prefix)) as (kept & Hi & Hs & Hc).
  destruct (sublist_map _ _ _ Hs) as (cs & -> & Hcs).
  pose proof (sublist_length _ _ Hcs) as Hlen. pose proof prefix_length as Hl. rewrite length_map in Hc.
  destruct (convert_all uni cs) as (converted & Hm & Hle & Heq & _).
  { apply Forall_forall. intros c Hin. pose proof prefix_ok as Hp. rewrite Forall_forall in Hp. apply Hp.
    by apply (elem_of_sublist cs). }
  rewrite (answer_from _ (zlen cs) Hb ltac:(lia) ltac:(lia) converted Hi Hc Hm), He in Ha. cbn [negb] in Ha.
  destruct (Z.eqb_spec (zlen cs) (zlen (omap id converted))); cbn [negb] in Ha; [|done].
  destruct (limit <? zlen (omap id converted)); [done|].
  destruct (Z.eqb_spec (zlen (omap id converted)) limit) as [El|]; cbn [negb] in Ha; [|done].
  injection Ha as <-. cbn [setListHash Items list_Slot OperatorID].
  assert (cs = prefix) as -> by (apply sublist_full; [done|lia]).
  rewrite Heq by lia. rewrite length_map. split_and!; try done; lia.
Qed.

End Proposal.
