(* ===== verification/CorpusDemo.v ===== *)
(** * CorpusDemo: a corpus of two transactions

    Witnesses for the theorems on the mempool service: a suite with one group
    element and a toy go-ethereum, over which a corpus is generated, stored,
    loaded and served to a node. *)

From S2P Require Import Prelude Order GoStrings Sha256 Kyber Prf Btd Batch Mempool MempoolLaws Targets Corpus Generate CorpusLaws Merge Messages Acs SlotAcs Wire NodeState Provider CorpusNode.

(** ** A suite and a chain without secrets *)

Definition unitGroup : Group unit :=
  mkGroup unit unit tt tt (fun _ _ => tt) (fun _ _ => tt) (fun _ _ => tt) (fun _ _ => true) (fun _ => Ok [7]) (fun _ => Ok tt).

#[global] Instance unitSuite : Suite := {|
    Scalar := unit;
    sZero := tt;
    sOne := tt;
    sAdd := fun _ _ => tt;
    sMul := fun _ _ => tt;
    sSub := fun _ _ => tt;
    sNeg := fun _ => tt;
    sDiv := fun _ _ => tt;
    sInv := fun _ => tt;
    SetBytes := fun _ => tt;
    MarshalScalar := fun _ => Ok [7];
    UnmarshalScalar := fun _ => Ok tt;
    G1 := unitGroup;
    G2 := unitGroup;
    GT := unitGroup;
    Pair := fun _ _ => tt
  |}.

(** A transaction is its bytes, its hash their first 32, its first byte the
    nonce. *)
Definition toyHash (raw : bytes) : bytes := str "0x" ++ hexEncode (take 32 (raw ++ repeat 0 32)).

#[global] Instance toyEthereum : Ethereum := {|
    EthTx := bytes;
    PrivateKey := bytes;
    UnmarshalTx := Some;
    MarshalTx := Some;
    tx_ChainId := fun _ => Some 1337;
    tx_Sender := fun raw => Some (str "0xab");
    tx_Hash := toyHash;
    tx_To := fun _ => Some (str "0xcd");
    tx_Nonce := fun raw => nth 0 raw 0;
    tx_Gas := fun _ => 21000;
    tx_Type := fun _ => 2;
    tx_GasFeeCap := fun raw => Z.of_nat (length raw);
    tx_GasPrice := fun raw => Z.of_nat (length raw);
    tx_Data := fun raw => raw;
    HexToHash := fun text => default [] (hexDecode (TrimPrefix text (str "0x")));
    HexToAddress := fun text => text;
    ToECDSA := Some;
    SignTx := fun tx key => Some (u64 (dyn_Nonce tx) :: dyn_Data tx)
  |}.

Lemma toy_fees tx : 0 <= effectiveFeePerGas tx.
Proof. unfold effectiveFeePerGas. cbn. lia. Qed.

Module CorpusDemo.
Definition uni (b : bytes) : bytes := b.
Definition Hash (data : bytes) : bytes := take 3 data.
Definition hkdf (secret info : bytes) : bytes := take 4 info.
Definition aead_Seal (key nonce pt aad : bytes) : bytes := pt ++ repeat 0 16.
Definition aead_Open (key nonce sealed aad : bytes) : out bytes := Ok (take (length sealed - 16) sealed).
Definition RecoverCommit (shares : list PubShare) (t n : Z) : out (Point G1) := Ok tt.
Definition order (m : gmap bytes bytes) : list (bytes * bytes) := map_to_list m.
Definition storeOrder (s : Store) : list Transaction := (map_to_list s).*2.

Definition target (raw : string) : parsedTargetTx :=
  mkTarget [] corpusClassTransfer (str raw) (str raw) (summaryOf (str raw) (str "0xab") (str raw)).

Definition btd : BTD := KeyGen (NewBTD (PRFSetup 2 true [tt; tt] [tt; tt]) 2) 1 1 [tt].
Definition cluster : ClusterBTE := NewNode btd tt (mkSecretShare 0 (mkPriShare 0 tt)) 1 1.
Definition config : replayCluster :=
  mkReplayCluster (str "bloc-cluster-v3") (str "demo") 2 1 1 (str "crs") (concat (repeat (str "0f") 32)) (str "07") [].
Definition pick (n : Z) : picks := mkPicks tt (mkCoins tt tt tt tt) (repeat n 12).

Definition targets : list parsedTargetTx := [target "a"; target "bb"].
Definition random : list picks := [pick 1; pick 2].

Definition encrypted : out (list (EncryptedCorpusCandidate * Batch.Ciphertext) * Z) :=
  encryptCandidates Hash uni hkdf aead_Seal cluster 2 (combine targets random) ([], 0).

Definition allBytes (l : bytes) : bool := forallb (fun b => (0 <=? b) && (b <? 256)) l.

Lemma allBytes_ok l : allBytes l = true -> Forall isByte l.
Proof.
  intros H. apply Forall_forall. intros b Hb%list_elem_of_In. unfold allBytes in H. rewrite forallb_forall in H.
  specialize (H b Hb). unfold isByte. lia.
Qed.

(** The encoded ciphertexts are bytes and the placeholders as a builder wants
  them. *)
Definition checkedOne (cc : EncryptedCorpusCandidate * Batch.Ciphertext) : bool :=
  let tx := c_Transaction cc.1 in
  match marshalCiphertext cc.2 with
  | Ok encoded => allBytes encoded
  | _ => false
  end && (t_Gas tx =? 21000) && negb (bool_decide (t_Hash tx = [])) && bool_decide (t_Kind tx = TxKindPlaceholder).

Definition checked : bool :=
  match encrypted with
  | Ok (made, _) =>
      match selfCheckEncryptedCorpus RecoverCommit Hash hkdf aead_Open cluster (map snd made) targets with
      | Ok _ => (zlen made =? 2) && forallb checkedOne made && bool_decide (NoDup (map (fun cc => t_Hash (c_Transaction cc.1)) made))
      | _ => false
      end
  | _ => false
  end.

Lemma checked_ok : checked = true.
Proof. vm_compute. reflexivity. Qed.

Lemma encrypted_ok : exists made pos,
  encrypted = Ok (made, pos) /\
  selfCheckEncryptedCorpus RecoverCommit Hash hkdf aead_Open cluster (map snd made) targets = Ok tt /\
  zlen made = 2 /\ Forall (fun cc => checkedOne cc = true) made /\ NoDup (map t_Hash (map c_Transaction (map fst made))).
Proof.
  pose proof checked_ok as H. unfold checked in H.
  destruct encrypted as [[made pos]| |]; [|discriminate H..]. exists made, pos.
  destruct (selfCheckEncryptedCorpus _ _ _ _ _ _ _) as [[]| |]; [|discriminate H..].
  apply andb_true_iff in H as [[H1 H2]%andb_true_iff H3]. rewrite !map_map. split; [reflexivity|]. split; [reflexivity|].
  split; [by apply Z.eqb_eq|]. split; [|by apply bool_decide_eq_true_1 in H3].
  rewrite forallb_forall in H2. apply Forall_forall. intros cc Hcc. by apply H2, list_elem_of_In.
Qed.

Lemma checked_bytes made : Forall (fun cc => checkedOne cc = true) made -> Forall wireBytes made.
Proof.
  intros Hall. eapply Forall_impl; [exact Hall|]. intros cc H encoded E. cbn beta in H. unfold checkedOne in H. rewrite E in H.
  apply allBytes_ok. by destruct (allBytes encoded).
Qed.

Lemma targets_canonical : Forall canonicalTarget targets.
Proof.
  assert (forall raw, HexToHash (toyHash raw) = take 32 (raw ++ repeat 0 32) -> Forall isByte (take 32 (raw ++ repeat 0 32)) ->
    length (take 32 (raw ++ repeat 0 32)) = 32%nat ->
    canonicalTarget (mkTarget [] corpusClassTransfer raw raw (summaryOf raw (str "0xab") raw))) as H.
  { intros raw E Hb Hl. unfold canonicalTarget. cbn [tgt_Summary summaryOf ts_Hash ts_Gas].
    change (tx_Hash _) with (toyHash raw). rewrite E. split; [by split|]. split; [reflexivity|]. cbn. lia. }
  apply Forall_cons. split; [|apply Forall_cons; split; [|constructor]]; apply H;
    [reflexivity|apply allBytes_ok; reflexivity|reflexivity|reflexivity|apply allBytes_ok; reflexivity|reflexivity].
Qed.

Lemma publicID_ok : exists id, PublicConfigID uni 2 (rc_CRSSHA256 config) (Some (cl_PK cluster)) = Ok id.
Proof. eexists. reflexivity. Qed.

Lemma entries_ok : rangesEntries order.
Proof. intros m. reflexivity. Qed.

Definition reversed (m : gmap bytes bytes) : list (bytes * bytes) := reverse (map_to_list m).

Lemma reversed_ok : rangesEntries reversed.
Proof. intros m. apply reverse_Permutation. Qed.
End CorpusDemo.

Lemma corpus_roundtrip_witness :
  exists m,
    assembleCorpus CorpusDemo.RecoverCommit CorpusDemo.Hash CorpusDemo.uni CorpusDemo.hkdf CorpusDemo.aead_Seal
      CorpusDemo.aead_Open CorpusDemo.order CorpusDemo.config 2 CorpusDemo.targets CorpusDemo.cluster CorpusDemo.random = Ok m /\
    LoadEncryptedCorpus CorpusDemo.uni CorpusDemo.reversed (Ok (storedManifest m)) = Ok m.
Proof.
  destruct CorpusDemo.encrypted_ok as (made & pos & He & Hself & _ & Hc & _).
  destruct CorpusDemo.publicID_ok as [id Hid].
  destruct (corpus_roundtrip CorpusDemo.RecoverCommit CorpusDemo.Hash CorpusDemo.uni CorpusDemo.hkdf CorpusDemo.aead_Seal
    CorpusDemo.aead_Open toy_fees CorpusDemo.order CorpusDemo.reversed CorpusDemo.config 2 CorpusDemo.targets
    CorpusDemo.cluster CorpusDemo.random id made pos CorpusDemo.entries_ok CorpusDemo.reversed_ok ltac:(cbn; lia)
    ltac:(cbn; lia) ltac:(cbn; lia) CorpusDemo.targets_canonical (CorpusDemo.checked_bytes made Hc) Hid He Hself)
    as (m & Hm & _ & Hl).
  exists m. split; [exact Hm|exact Hl].
Defined.

(** ** A node proposes the corpus *)

Module ProposalDemo.
Import CorpusDemo.

(** Builder limits that the two placeholders fit. *)
Definition server (m : EncryptedCorpusManifest) : Server := mkServer NewStore (mkBuilderConfig 10 42000) (Some m).

(** A node that expects the corpus by its identity. *)
Definition nodeConfig (m : EncryptedCorpusManifest) : NodeConfig :=
  mkNodeConfig 1 1 2 (mkBlockspace 0 0 21000) 1000000 8 false
    (mkProvider (str "mempool-http") (str "http://mempool") 1000 [] [] (m_EncryptedCorpusID m) ∅ true) [] 0 [0] cluster
    (mkSecretShare 0 (mkPriShare 0 tt)) (mkFaults false false false).

Definition json_list (slot op : Z) (items : list EncryptedPlaceholder) : bytes := slot :: op :: concat (map Merge.Hash items).

Lemma expected m : m_PublicConfigID m <> [] -> expects uni m (nodeConfig m) 2 = true.
Proof.
  intros Hp. unfold expects, mismatch, nodeConfig. cbn [Provider publicConfigID ExpectedPublicConfigID
    ExpectedPlaintextMasterID ExpectedEncryptedCorpusID ExpectedEncryptedPrefixSetIDs].
  rewrite lookup_empty. cbn [default]. rewrite !(bool_decide_true ([] = [])) by reflexivity. cbn [negb andb].
  rewrite (bool_decide_true (m_EncryptedCorpusID m = m_EncryptedCorpusID m)) by reflexivity. cbn [negb].
  by rewrite andb_false_r.
Qed.

Lemma checked_txs made :
  Forall (fun cc => checkedOne cc = true) made ->
  Forall (fun tx => t_Gas tx = 21000 /\ t_Hash tx <> [] /\ t_Kind tx = TxKindPlaceholder)
    (map c_Transaction (map fst made)).
Proof.
  intros H. rewrite map_map. apply Forall_fmap. eapply Forall_impl; [exact H|]. intros cc Hc. unfold checkedOne in Hc.
  apply andb_true_iff in Hc as [[[_ H1]%andb_true_iff H2]%andb_true_iff H3]. cbn. split; [by apply Z.eqb_eq|].
  split; [by apply negb_true_iff, bool_decide_eq_false_1 in H2|by apply bool_decide_eq_true_1 in H3].
Qed.
End ProposalDemo.


(** ** Set identities *)

Definition demoCandidate (size : Z) : EncryptedCorpusCandidate :=
  mkCorpusCandidate 0 0 (str "transfer") (str "0x01") size (str "0xff") [] (str "5")
    (mkTransaction [] [] [] 0 0 [] [] None None None [] None false None [] 0 0 [] [] (str "0x02") (str "0x03") 0 0).

(** ** The builder and the tracker *)

Module TrackerDemo.
Definition uni (b : bytes) : bytes := b.
Definition undefinedInt (b : bytes) : Z := 0.

(** Two transactions of one sender under one nonce. *)
Definition raw (hash : bytes) (price : string) : rpcTx :=
  mkRpcTx hash (str "0xEE") [] (str "0x1") (str "0x5208") (str "0x") (str price) [] [].

Definition answers : rpcAnswers :=
  mkAnswers (Ok (str " 0x1 ")) (fun _ => Ok [str "0xAA"; str "0xBB"; str ""]) (Err "unused") (fun _ => Err "unused")
    (fun hash => Ok (Some (raw hash (if bool_decide (hash = str "0xaa") then "0x5" else "0x7")))).

Definition keyOf (hash : bytes) : bytes * Z := (str "0xee", 1).
Definition order (m : gmap bytes trackedPendingTx) : list bytes := (map_to_list m).*1.
Definition values (m : gmap bytes trackedPendingTx) : list trackedPendingTx := (map_to_list m).*2.
Definition start : tracker := mkTracker [] ∅ ∅.

Lemma order_visits : visitsKeys order.
Proof. intros m h [t Ht]. apply list_elem_of_fmap. exists (h, t). split; [reflexivity|]. by apply elem_of_map_to_list. Qed.

Lemma values_range : rangesOver values.
Proof. intros m. reflexivity. Qed.

Lemma honest : honestEndpoint uni undefinedInt keyOf answers.
Proof.
  intros hash tx. unfold heardOf. case_bool_decide; [done|]. cbn [transactionByHash answers].
  generalize (ToLower uni (TrimSpace hash)). intros h.
  assert (forall price tx, normalizeTx uni undefinedInt (raw h price) false = Ok tx ->
    senderNonce (ClassifyAndParse uni tx) = (str "0xee", 1)) as Hraw.
  { intros price tx'. unfold normalizeTx. cbn [rpc_Nonce rpc_Gas raw].
    assert (parseHexUint64 uni (str "0x1") = Some 1) as -> by reflexivity.
    assert (parseHexUint64 uni (str "0x5208") = Some 21000) as -> by reflexivity. intros [= <-].
    unfold ClassifyAndParse. cbn [t_Input]. by destruct (ParsePlaceholderCalldata _ _). }
  destruct (normalizeTx _ _ _ _) as [tx'| |] eqn:E; [|done..]. intros [= <-]. unfold keyOf. symmetry. exact (Hraw _ _ E).
Qed.

Definition stored1 : Transaction :=
  mkTransaction (str "h1") (str "a") [] 0 21000 [] [] (Some 5) None None TxKindPlaintext None false None [] 0 0 [] [] [] [] 0 0.
Definition stored2 : Transaction :=
  mkTransaction (str "h2") (str "b") [] 0 30000 [] [] (Some 9) None None TxKindPlaintext None false None [] 0 0 [] [] [] [] 0 0.
End TrackerDemo.

Lemma build_sound_witness :
  NoDup (map i_Hash (served_Items (Build (NewBuilder (mkBuilderConfig 0 40000))
    (Snapshot CorpusDemo.storeOrder (ReplaceAll [TrackerDemo.stored1; TrackerDemo.stored2] NewStore))))).
Proof.
  refine (proj1 (proj2 (proj2 (proj2 (build_sound (mkBuilderConfig 0 40000) CorpusDemo.storeOrder
    [TrackerDemo.stored1; TrackerDemo.stored2] NewStore
    (sortSlice feeLess (filter listable (map_to_list (ReplaceAll [TrackerDemo.stored1; TrackerDemo.stored2] NewStore)).*2))
    _ _ _ _))))).
  - intros m. reflexivity.
  - cbn. lia.
  - repeat constructor; cbn; lia.
  - apply (sortSlice_sorts _ _ feeLess_cmp).
Defined.

Lemma tracker_refines_witness :
  let run := trackerFetch TrackerDemo.uni TrackerDemo.undefinedInt TrackerDemo.order TrackerDemo.values 300 1000
    TrackerDemo.answers TrackerDemo.start in
  represents TrackerDemo.keyOf run.1
    (fetchBook TrackerDemo.uni TrackerDemo.undefinedInt 300 1000 TrackerDemo.answers [str "0xAA"; str "0xBB"; str ""] ∅) /\
  exists txs, run.2 = Ok txs /\ NoDup (map senderNonce txs).
Proof.
  destruct (tracker_refines TrackerDemo.uni TrackerDemo.undefinedInt TrackerDemo.keyOf TrackerDemo.order
    TrackerDemo.values 300 1000 TrackerDemo.answers TrackerDemo.start ∅ TrackerDemo.order_visits TrackerDemo.values_range
    TrackerDemo.honest (represents_empty TrackerDemo.keyOf [])) as [_ H].
  assert ((pendingHashes TrackerDemo.uni TrackerDemo.answers TrackerDemo.start).2 = Ok [str "0xAA"; str "0xBB"; str ""]) as E
    by reflexivity.
  rewrite E in H. destruct H as (R & txs & Ht & _ & Hn). split; [exact R|]. exists txs. split; [exact Ht|exact Hn].
Defined.
