(* ===== verification/Config.v ===== *)
(** * Config: the cluster configuration and what a node makes of it

    Models [src/bloc-node/internal/app/config.go], the configuration types of
    [types.go], the scalar encodings of [crypto.go] and [newNode] of [node.go]:
    reading and normalizing the public configuration and an operator's secrets,
    their checks, and the node they give.

    Parameters: [readFile]; [crsPath], the path of a CRS file named in a
    configuration; the decoders of JSON ([json_fields] gives the names of a
    document's fields, [json_config] and [json_secrets] are [decodeStrictJSON]
    at the two types, the first with the resource limits as they stand in the
    document); and, as the class [Libp2pKeys], the private keys of libp2p. *)

From S2P Require Import Prelude GoStrings Sha256 Kyber Prf Btd Batch Merge Messages Rbc Acs SlotAcs Wire NodeState Provider Node.

(** ** types.go *)

Definition clusterConfigVersion : bytes := str "bloc-cluster-v3".
Definition nodeSecretVersion : bytes := str "bloc-node-secret-v1".

Definition defaultMaxProposalBytes : Z := Z.shiftl 8 20.
Definition defaultMaxEnvelopeBytes : Z := Z.shiftl 16 20.
Definition defaultMaxCombineAttemptsPerSubBatch : Z := 256.
Definition defaultMempoolTimeoutMS : Z := 2000.
Definition maximumMempoolTimeoutMS : Z := Z.quot (2 ^ 63 - 1) 1000000.
Definition absoluteMaxProposalBytes : Z := Z.shiftl 32 20.
Definition absoluteMaxEnvelopeBytes : Z := Z.shiftl 64 20.
Definition absoluteMaxCombineAttemptsPerSubBatch : Z := 4096.
Definition minimumEnvelopeHeadroomBytes : Z := Z.shiftl 64 10.

Record ResourceLimits := mkLimits {
  lim_MaxProposalBytes : Z;
  lim_MaxEnvelopeBytes : Z;
  lim_MaxCombineAttemptsPerSubBatch : Z;
  explicitZeroProposal : bool;
  explicitZeroEnvelope : bool;
  explicitZeroCombineAttempts : bool
}.

Definition zeroLimits : ResourceLimits := mkLimits 0 0 0 false false false.

Definition defaultResourceLimits : ResourceLimits :=
  mkLimits defaultMaxProposalBytes defaultMaxEnvelopeBytes defaultMaxCombineAttemptsPerSubBatch false false false.

(** Go's [NodeConfig]: one operator of the cluster. *)
Record OperatorConfig := mkOperator {
  oc_ID : Z;
  HTTPAddr : bytes;
  HTTPListenAddr : bytes;
  HTTPAdvertiseURL : bytes;
  P2PAddr : bytes;
  P2PListenAddr : bytes;
  P2PAdvertiseAddr : bytes;
  oc_P2PPeerID : bytes
}.

Record NodeSecretConfig := mkSecrets {
  ns_Version : bytes;
  ns_ClusterID : bytes;
  ns_OperatorID : Z;
  ns_BTEShareScalarHex : bytes;
  P2PPrivateKeyHex : bytes
}.

Record NetworkConfig := mkNetwork {
  net_Mode : bytes;
  net_StreamMode : bytes
}.

Record ConfigFile := mkConfigFile {
  cf_Version : bytes;
  cf_ClusterID : bytes;
  cf_BMax : Z;
  cf_N : Z;
  cf_Threshold : Z;
  cf_Slot : Z;
  cf_CRSFile : bytes;
  cf_CRSSHA256 : bytes;
  cf_Nodes : list OperatorConfig;
  cf_PublicKeyHex : bytes;
  cf_Blockspace : BlockspaceConfig;
  cf_Provider : ProviderConfig;
  cf_Network : NetworkConfig;
  cf_Limits : ResourceLimits;
  cf_ACSTrace : bool;
  cf_CRSBytes : bytes
}.

(** ** Resource limits *)

(** The limits of a document; a field that is absent or null is [None]. *)
Record wireLimits := mkWireLimits {
  wl_MaxProposalBytes : option Z;
  wl_MaxEnvelopeBytes : option Z;
  wl_MaxCombineAttemptsPerSubBatch : option Z
}.

(** [ResourceLimits.UnmarshalJSON] on the decoded fields. *)
Definition UnmarshalLimits (wire : wireLimits) (limits : ResourceLimits) : ResourceLimits :=
  let limits :=
    match wl_MaxProposalBytes wire with
    | Some v =>
        mkLimits v (lim_MaxEnvelopeBytes limits) (lim_MaxCombineAttemptsPerSubBatch limits) (v =? 0)
          (explicitZeroEnvelope limits) (explicitZeroCombineAttempts limits)
    | None => limits
    end in
  let limits :=
    match wl_MaxEnvelopeBytes wire with
    | Some v =>
        mkLimits (lim_MaxProposalBytes limits) v (lim_MaxCombineAttemptsPerSubBatch limits)
          (explicitZeroProposal limits) (v =? 0) (explicitZeroCombineAttempts limits)
    | None => limits
    end in
  match wl_MaxCombineAttemptsPerSubBatch wire with
  | Some v =>
      mkLimits (lim_MaxProposalBytes limits) (lim_MaxEnvelopeBytes limits) v
        (explicitZeroProposal limits) (explicitZeroEnvelope limits) (v =? 0)
  | None => limits
  end.

Definition validateResourceLimits (limits : ResourceLimits) : out unit :=
  if (lim_MaxProposalBytes limits <=? 0) || (absoluteMaxProposalBytes <? lim_MaxProposalBytes limits) then
    Err "limits.max_proposal_bytes out of range"
  else if (lim_MaxEnvelopeBytes limits <=? 0) || (absoluteMaxEnvelopeBytes <? lim_MaxEnvelopeBytes limits) then
    Err "limits.max_envelope_bytes out of range"
  else if lim_MaxEnvelopeBytes limits <? lim_MaxProposalBytes limits + minimumEnvelopeHeadroomBytes then
    Err "limits.max_envelope_bytes must be at least max_proposal_bytes plus the headroom"
  else if (lim_MaxCombineAttemptsPerSubBatch limits <? 1) ||
          (absoluteMaxCombineAttemptsPerSubBatch <? lim_MaxCombineAttemptsPerSubBatch limits) then
    Err "limits.max_combine_attempts_per_sub_batch out of range"
  else Ok tt.

(** ** Defaults *)

(** [if a == "" { a = b }] *)
Definition orElse (a b : bytes) : bytes := if bool_decide (a = []) then b else a.

Definition normalizeNetworkConfig (network : NetworkConfig) : NetworkConfig :=
  mkNetwork (orElse (net_Mode network) (str "libp2p")) (orElse (net_StreamMode network) (str "fresh")).

Definition normalizeProviderConfig (provider : ProviderConfig) : ProviderConfig :=
  mkProvider (orElse (provider_Mode provider) (str "direct"))
    (MempoolURL provider)
    (if MempoolTimeoutMS provider =? 0 then defaultMempoolTimeoutMS else MempoolTimeoutMS provider)
    (ExpectedPublicConfigID provider) (ExpectedPlaintextMasterID provider) (ExpectedEncryptedCorpusID provider)
    (ExpectedEncryptedPrefixSetIDs provider) (RequireExactCount provider).

Definition normalizeNodeConfig (node : OperatorConfig) : OperatorConfig :=
  let httpListen := orElse (HTTPListenAddr node) (HTTPAddr node) in
  let http := orElse (HTTPAddr node) httpListen in
  let httpURL :=
    if bool_decide (HTTPAdvertiseURL node = []) && negb (bool_decide (http = [])) then str "http://" ++ http
    else HTTPAdvertiseURL node in
  let p2pListen := orElse (P2PListenAddr node) (P2PAddr node) in
  let p2p := orElse (P2PAddr node) p2pListen in
  mkOperator (oc_ID node) http httpListen httpURL p2p p2pListen (orElse (P2PAdvertiseAddr node) p2p) (oc_P2PPeerID node).

Definition httpListenAddr (node : OperatorConfig) : bytes := orElse (HTTPListenAddr node) (HTTPAddr node).

Definition httpAdvertiseURL (node : OperatorConfig) : bytes :=
  if negb (bool_decide (HTTPAdvertiseURL node = [])) then HTTPAdvertiseURL node
  else if bool_decide (HTTPAddr node = []) then [] else str "http://" ++ HTTPAddr node.

Definition p2pListenAddr (node : OperatorConfig) : bytes := orElse (P2PListenAddr node) (P2PAddr node).

Definition p2pAdvertiseAddr (node : OperatorConfig) : bytes := orElse (P2PAdvertiseAddr node) (P2PAddr node).

Definition normalizeLimits (limits : ResourceLimits) : ResourceLimits :=
  mkLimits
    (if (lim_MaxProposalBytes limits =? 0) && negb (explicitZeroProposal limits)
     then defaultMaxProposalBytes else lim_MaxProposalBytes limits)
    (if (lim_MaxEnvelopeBytes limits =? 0) && negb (explicitZeroEnvelope limits)
     then defaultMaxEnvelopeBytes else lim_MaxEnvelopeBytes limits)
    (if (lim_MaxCombineAttemptsPerSubBatch limits =? 0) && negb (explicitZeroCombineAttempts limits)
     then defaultMaxCombineAttemptsPerSubBatch else lim_MaxCombineAttemptsPerSubBatch limits)
    (explicitZeroProposal limits) (explicitZeroEnvelope limits) (explicitZeroCombineAttempts limits).

Definition normalizeBlockspace (b : BlockspaceConfig) : BlockspaceConfig :=
  mkBlockspace (MaxDecryptedGas b) (MaxDecryptedTxs b) (if DefaultTxGas b =? 0 then 21000 else DefaultTxGas b).

Definition normalizeConfig (cfg : ConfigFile) : ConfigFile :=
  mkConfigFile (cf_Version cfg) (cf_ClusterID cfg) (cf_BMax cfg) (cf_N cfg) (cf_Threshold cfg) (cf_Slot cfg)
    (cf_CRSFile cfg) (cf_CRSSHA256 cfg) (map normalizeNodeConfig (cf_Nodes cfg)) (cf_PublicKeyHex cfg)
    (normalizeBlockspace (cf_Blockspace cfg)) (normalizeProviderConfig (cf_Provider cfg))
    (normalizeNetworkConfig (cf_Network cfg)) (normalizeLimits (cf_Limits cfg)) (cf_ACSTrace cfg) (cf_CRSBytes cfg).

(** ** Checks *)

Definition streamModeNames : list bytes := [str "fresh"; str "persistent"; str "persistent-lanes"].

Definition validateNetworkConfig (network : NetworkConfig) : out unit :=
  if negb (bool_decide (net_Mode network = str "libp2p")) then Err "unsupported network mode"
  else if bool_decide (net_StreamMode network ∈ streamModeNames) then Ok tt
  else Err "unsupported network.stream_mode".

Definition validateProviderConfig (provider : ProviderConfig) : out unit :=
  if MempoolTimeoutMS provider <? 0 then Err "provider.mempool_timeout_ms must be non-negative"
  else if maximumMempoolTimeoutMS <? MempoolTimeoutMS provider then Err "provider.mempool_timeout_ms too large"
  else if RequireExactCount provider then
    if bool_decide (ExpectedPublicConfigID provider = []) || bool_decide (ExpectedPlaintextMasterID provider = []) ||
       bool_decide (ExpectedEncryptedCorpusID provider = []) then
      Err "provider exact corpus mode requires public, plaintext master, and encrypted corpus ids"
    else if bool_decide (ExpectedEncryptedPrefixSetIDs provider = ∅) then
      Err "provider exact corpus mode requires encrypted prefix ids"
    else Ok tt
  else Ok tt.

(** ** Reading *)

Section Reading.
Context (readFile : bytes -> out bytes) (crsPath : bytes -> bytes -> bytes).
Context (json_fields : bytes -> out (list bytes)) (json_config : bytes -> out (ConfigFile * wireLimits)).
Context (json_secrets : bytes -> out NodeSecretConfig).

Definition set_CRS (limits : ResourceLimits) (crs : bytes) (slot : Z) (cfg : ConfigFile) : ConfigFile :=
  mkConfigFile (cf_Version cfg) (cf_ClusterID cfg) (cf_BMax cfg) (cf_N cfg) (cf_Threshold cfg) slot
    (cf_CRSFile cfg) (cf_CRSSHA256 cfg) (cf_Nodes cfg) (cf_PublicKeyHex cfg) (cf_Blockspace cfg) (cf_Provider cfg)
    (cf_Network cfg) limits (cf_ACSTrace cfg) crs.

Definition readConfig (path : bytes) : out ConfigFile :=
  let? data := readFile path in
  let? fields := json_fields data in
  if bool_decide (str "crs_seed_hex" ∈ fields) || bool_decide (str "shares" ∈ fields) then
    Err "legacy combined cluster config is unsupported"
  else
    let? (cfg, wire) := json_config data in
    if negb (bool_decide (cf_Version cfg = clusterConfigVersion)) then Err "unsupported cluster config version"
    else if blank (cf_CRSFile cfg) || blank (cf_CRSSHA256 cfg) then Err "cluster config requires crs_file and crs_sha256"
    else
      let? crs := readFile (crsPath path (cf_CRSFile cfg)) in
      if negb (EqualFoldHex (hashHex crs) (TrimSpace (cf_CRSSHA256 cfg))) then Err "public CRS hash mismatch"
      else
        let cfg := normalizeConfig (set_CRS (UnmarshalLimits wire zeroLimits) crs
          (if cf_Slot cfg =? 0 then 1 else cf_Slot cfg) cfg) in
        let? _ := validateResourceLimits (cf_Limits cfg) in
        let? _ := validateProviderConfig (cf_Provider cfg) in
        let? _ := validateNetworkConfig (cf_Network cfg) in
        Ok cfg.

Definition requiredSecretFields : list bytes :=
  [str "version"; str "cluster_id"; str "operator_id"; str "bte_share_scalar_hex"; str "p2p_private_key_hex"].

Definition readNodeSecrets (path : bytes) : out NodeSecretConfig :=
  if blank path then Err "operator secrets path is required"
  else
    let? data := readFile path in
    let? fields := json_fields data in
    if negb (forallb (fun required => bool_decide (required ∈ fields)) requiredSecretFields) then
      Err "node secret config is missing a field"
    else
      let? secrets := json_secrets data in
      if negb (bool_decide (ns_Version secrets = nodeSecretVersion)) then Err "unsupported node secret version"
      else if bool_decide (ns_ClusterID secrets = []) || bool_decide (ns_BTEShareScalarHex secrets = []) ||
              bool_decide (P2PPrivateKeyHex secrets = []) then
        Err "node secret config requires cluster_id, bte_share_scalar_hex, and p2p_private_key_hex"
      else Ok secrets.
End Reading.

(** ** Keys *)

(** libp2p's private keys; a peer identifier is its text. *)
Class Libp2pKeys := {
  PrivKey : Type;
  UnmarshalPrivateKey : bytes -> out PrivKey;
  MarshalPrivateKey : PrivKey -> out bytes;
  IDFromPrivateKey : PrivKey -> out bytes
}.

(** No key for the empty text. *)
Definition unmarshalLibP2PPrivateKey `{Libp2pKeys} (raw : bytes) : out (option PrivKey) :=
  if bool_decide (raw = []) then Ok None
  else
    match hexDecode raw with
    | None => Err "invalid hex"
    | Some data => let? key := UnmarshalPrivateKey data in Ok (Some key)
    end.

Section Scalars.
Context `{Suite}.

Definition marshalScalarHex (s : Scalar) : out bytes := let? b := MarshalScalar s in Ok (hexEncode b).

Definition unmarshalScalarHex (h : bytes) : out Scalar :=
  match hexDecode (TrimPrefix h (str "0x")) with
  | None => Err "invalid hex"
  | Some b => UnmarshalScalar b
  end.
End Scalars.

(** ** newNode *)

Section NewNode.
Context `{Suite} `{Libp2pKeys}.
Context (uni : bytes -> bytes) (rs_New : Z -> Z -> option Encoder).

Definition go_out {A : Type} (m : go A) : out A :=
  match m with
  | Ret a => Ok a
  | Panic | NoFuel => Crash
  end.

(** The last of the configured operators with this identifier. *)
Definition findSelf (nodes : list OperatorConfig) (id : Z) : option OperatorConfig :=
  list_find (fun n => oc_ID n = id) (reverse nodes) ≫= fun p => Some p.2.

(** The configuration that a node keeps, and its state. *)
Definition newNode (cfg : ConfigFile) (secrets : NodeSecretConfig) (id : Z) (faults : FaultConfig)
  : out (NodeConfig * Node) :=
  let cfg := normalizeConfig cfg in
  let? _ := validateResourceLimits (cf_Limits cfg) in
  let? _ := validateProviderConfig (cf_Provider cfg) in
  let? _ := validateNetworkConfig (cf_Network cfg) in
  if negb (bool_decide (ns_ClusterID secrets = cf_ClusterID cfg)) then Err "node secrets cluster does not match config"
  else if negb (ns_OperatorID secrets =? id) then Err "node secrets operator does not match"
  else
    match findSelf (cf_Nodes cfg) id with
    | None => Err "node id not found in config"
    | Some self =>
        let ids := merge_sort Z.le (map oc_ID (cf_Nodes cfg)) in
        let? btd := NewBTDFromPublicCRS defaultSuiteID (cf_BMax cfg) (cf_CRSBytes cfg) in
        let? pk := unmarshalPointHex (cf_PublicKeyHex cfg) in
        let? configID := PublicConfigID uni (cf_BMax cfg) (cf_CRSSHA256 cfg) (Some pk) in
        let expected := ExpectedPublicConfigID (cf_Provider cfg) in
        if negb (bool_decide (expected = [])) && negb (bool_decide (expected = configID)) then
          Err "provider public config id does not match loaded setup"
        else
          let? scalar := unmarshalScalarHex (ns_BTEShareScalarHex secrets) in
          let secret := mkSecretShare (i64 id) (mkPriShare (u32 id) scalar) in
          let? key := unmarshalLibP2PPrivateKey (P2PPrivateKeyHex secrets) in
          let? derivedPeerID := match key with Some key => IDFromPrivateKey key | None => Crash end in
          if negb (bool_decide (derivedPeerID = oc_P2PPeerID self)) then Err "libp2p private key derives another peer id"
          else
            let cluster := NewNode btd pk secret (cf_N cfg) (cf_Threshold cfg) in
            let nodeCfg :=
              mkNodeConfig (cf_N cfg) (cf_Threshold cfg) (cf_BMax cfg) (cf_Blockspace cfg)
                (lim_MaxProposalBytes (cf_Limits cfg)) (lim_MaxCombineAttemptsPerSubBatch (cf_Limits cfg))
                (cf_ACSTrace cfg) (cf_Provider cfg) configID id ids cluster secret faults in
            let? fresh := go_out (newSlotStateWithLimit rs_New nodeCfg (cf_Slot cfg) 0) in
            Ok (nodeCfg, mkNode (cf_Slot cfg) 0 0 fresh)
    end.
End NewNode.
