(* ===== verification/ConfigLaws.v ===== *)
(** * Laws of the configuration

    Defaults are stable, what [readConfig] returns is within the absolute
    limits and bound to the CRS it names, and the texts of keys are read back. *)

From S2P Require Import Prelude Order GoStrings Sha256 Kyber Prf Btd Batch Merge Messages Bba Rbc Acs SlotAcs Wire NodeState Provider Node NodeSys NodeLaws Config.

(** A check that did not fail. *)
Ltac pass_checks :=
  repeat match goal with
    | |- (if ?b then Err _ else _) = _ -> _ => let E := fresh "Hpassed" in destruct b eqn:E; [discriminate|]
    end.

(** ** Limits *)

Record limits_ok (l : ResourceLimits) : Prop := {
  lo_proposal : 1 <= lim_MaxProposalBytes l <= absoluteMaxProposalBytes;
  lo_envelope : lim_MaxProposalBytes l + minimumEnvelopeHeadroomBytes <= lim_MaxEnvelopeBytes l <= absoluteMaxEnvelopeBytes;
  lo_attempts : 1 <= lim_MaxCombineAttemptsPerSubBatch l <= absoluteMaxCombineAttemptsPerSubBatch
}.

Lemma validateResourceLimits_iff l : validateResourceLimits l = Ok tt <-> limits_ok l.
Proof.
  unfold validateResourceLimits. split.
  - pass_checks. intros _. split; lia.
  - intros [? ? ?]. unfold minimumEnvelopeHeadroomBytes in *. change (Z.shiftl 64 10) with 65536 in *.
    replace ((lim_MaxProposalBytes l <=? 0) || _) with false by lia.
    replace ((lim_MaxEnvelopeBytes l <=? 0) || _) with false by lia.
    replace (lim_MaxEnvelopeBytes l <? lim_MaxProposalBytes l + 65536) with false by lia.
    by replace ((lim_MaxCombineAttemptsPerSubBatch l <? 1) || _) with false by lia.
Qed.

Lemma default_limits_ok : limits_ok defaultResourceLimits.
Proof. apply validateResourceLimits_iff. reflexivity. Qed.

Lemma normalizeLimits_ok l : limits_ok l -> normalizeLimits l = l.
Proof.
  intros [? [? _] ?]. unfold minimumEnvelopeHeadroomBytes in *. change (Z.shiftl 64 10) with 65536 in *. unfold normalizeLimits.
  replace (lim_MaxProposalBytes l =? 0) with false by lia. replace (lim_MaxEnvelopeBytes l =? 0) with false by lia.
  replace (lim_MaxCombineAttemptsPerSubBatch l =? 0) with false by lia. by destruct l.
Qed.

Lemma normalizeLimits_idem l : normalizeLimits (normalizeLimits l) = normalizeLimits l.
Proof.
  destruct l as [a b c x y z]. unfold normalizeLimits. cbn.
  destruct (Z.eqb_spec a 0) as [->|Ha], x, (Z.eqb_spec b 0) as [->|Hb], y, (Z.eqb_spec c 0) as [->|Hc], z; cbn;
    try reflexivity; repeat (rewrite (proj2 (Z.eqb_neq _ _)) by done); done.
Qed.

(** The document of limits that the encoder writes: zero fields are left out. *)
Definition wireOf (l : ResourceLimits) : wireLimits :=
  let field v := if v =? 0 then None else Some v in
  mkWireLimits (field (lim_MaxProposalBytes l)) (field (lim_MaxEnvelopeBytes l)) (field (lim_MaxCombineAttemptsPerSubBatch l)).

(** No limit is an explicit zero. *)
Definition plainLimits (l : ResourceLimits) : Prop :=
  explicitZeroProposal l = false /\ explicitZeroEnvelope l = false /\ explicitZeroCombineAttempts l = false.

Lemma UnmarshalLimits_wireOf l : plainLimits l -> UnmarshalLimits (wireOf l) zeroLimits = l.
Proof.
  destruct l as [a b c x y z]. intros (Hx & Hy & Hz). cbn in Hx, Hy, Hz. subst. unfold wireOf, UnmarshalLimits. cbn.
  destruct (Z.eqb_spec a 0) as [->|Ha], (Z.eqb_spec b 0) as [->|Hb], (Z.eqb_spec c 0) as [->|Hc]; cbn;
    repeat (rewrite (proj2 (Z.eqb_neq _ _)) by done); done.
Qed.

Lemma written_stays v d : (if (v =? 0) && negb (v =? 0) then d else v) = v.
Proof. by destruct (v =? 0). Qed.

(** An explicit zero survives the defaults, and is refused. *)
Lemma explicit_zero_refused wire :
  wl_MaxProposalBytes wire = Some 0 \/ wl_MaxEnvelopeBytes wire = Some 0 \/ wl_MaxCombineAttemptsPerSubBatch wire = Some 0 ->
  validateResourceLimits (normalizeLimits (UnmarshalLimits wire zeroLimits)) <> Ok tt.
Proof.
  intros Hz [[? _] [Hb _] [? _]]%validateResourceLimits_iff. unfold minimumEnvelopeHeadroomBytes in *.
  change (Z.shiftl 64 10) with 65536 in *. destruct wire as [p e c]. cbn in Hz.
  destruct p, e, c; cbn in *; rewrite ?written_stays in *; destruct Hz as [Hz|[Hz|Hz]]; simplify_eq; cbn in *; lia.
Qed.

(** ** Defaults *)

Lemma orElse_some a b : a <> [] -> orElse a b = a.
Proof. intros H. unfold orElse. by rewrite bool_decide_false. Qed.

Lemma orElse_self a : orElse a a = a.
Proof. unfold orElse. by case_bool_decide. Qed.

Lemma orElse_idem a b : orElse (orElse a b) b = orElse a b.
Proof. unfold orElse. repeat case_bool_decide; done. Qed.

Lemma orElse_chain a b : orElse (orElse b (orElse a b)) (orElse a b) = orElse b (orElse a b).
Proof. apply orElse_idem. Qed.

Lemma orElse_back a b : orElse (orElse a b) (orElse b (orElse a b)) = orElse a b.
Proof. unfold orElse. repeat case_bool_decide; congruence. Qed.

(** What normalizing a node entry fills in, its accessors return. *)
Lemma accessors_normalized n :
  let n' := normalizeNodeConfig n in
  httpListenAddr n' = HTTPListenAddr n' /\ httpAdvertiseURL n' = HTTPAdvertiseURL n' /\
  p2pListenAddr n' = P2PListenAddr n' /\ p2pAdvertiseAddr n' = P2PAdvertiseAddr n'.
Proof.
  destruct n as [id h hl hu p pl pa pid]. unfold httpListenAddr, httpAdvertiseURL, p2pListenAddr, p2pAdvertiseAddr. cbn.
  split_and!; [apply orElse_back| |apply orElse_back|apply orElse_idem].
  destruct (decide (hu = [])) as [->|Hu]; [|rewrite (bool_decide_false (hu = [])) by done; cbn; by rewrite bool_decide_false].
  rewrite (bool_decide_true ([] = [])) by done. cbn.
  destruct (decide (orElse h (orElse hl h) = [])) as [E|E].
  - by rewrite E.
  - by rewrite (bool_decide_false (orElse h (orElse hl h) = [])).
Qed.

Lemma normalizeNodeConfig_idem n : normalizeNodeConfig (normalizeNodeConfig n) = normalizeNodeConfig n.
Proof.
  destruct n as [id h hl hu p pl pa pid]. unfold normalizeNodeConfig. cbn.
  rewrite !orElse_back, !orElse_idem. f_equal.
  destruct (decide (hu = [])) as [->|Hu]; [|by rewrite !(bool_decide_false (hu = []))].
  rewrite (bool_decide_true ([] = [])) by done. cbn.
  destruct (decide (orElse h (orElse hl h) = [])) as [E|E]; [by rewrite E|].
  by rewrite !(bool_decide_false (orElse h (orElse hl h) = [])).
Qed.

Lemma normalizeConfig_idem cfg : normalizeConfig (normalizeConfig cfg) = normalizeConfig cfg.
Proof.
  destruct cfg as [v id b n t s cf ch nodes pk bs pr net lim tr crs]. unfold normalizeConfig. cbn. f_equal.
  - rewrite map_map. apply map_ext. apply normalizeNodeConfig_idem.
  - destruct bs as [g tx d]. unfold normalizeBlockspace. cbn. destruct (Z.eqb_spec d 0) as [->|]; cbn; [done|].
    by rewrite (proj2 (Z.eqb_neq _ _)).
  - destruct pr as [m u ms a1 a2 a3 a4 x]. unfold normalizeProviderConfig. cbn.
    rewrite orElse_idem. destruct (Z.eqb_spec ms 0) as [->|]; cbn; [reflexivity|]. by rewrite (proj2 (Z.eqb_neq ms 0)).
  - destruct net as [m s']. unfold normalizeNetworkConfig. cbn. by rewrite !orElse_idem.
  - apply normalizeLimits_idem.
Qed.

(** ** Texts of keys *)

(** The libraries' encodings are byte strings that they read back. *)
Class KeyTexts `{Suite} `{Libp2pKeys} : Prop := {
  point_bytes : forall P : Point G1, exists data,
    MarshalPoint P = Ok data /\ UnmarshalPoint G1 data = Ok P /\ Forall isByte data /\ data <> [];
  scalar_bytes : forall s : Scalar, exists data,
    MarshalScalar s = Ok data /\ UnmarshalScalar data = Ok s /\ Forall isByte data /\ data <> [];
  key_bytes : forall k : PrivKey, exists raw id,
    MarshalPrivateKey k = Ok raw /\ UnmarshalPrivateKey raw = Ok k /\ Forall isByte raw /\ raw <> [] /\
    IDFromPrivateKey k = Ok id /\ blank id = false
}.

Lemma blank_visible s : Forall isVisible s -> s <> [] -> blank s = false.
Proof. intros Hv Hne. unfold blank. rewrite TrimSpace_visible by done. by apply bool_decide_eq_false. Qed.

Lemma hex_blank data : Forall isByte data -> data <> [] -> blank (hexEncode data) = false.
Proof.
  intros Hb Hne. apply blank_visible; [by apply hexEncode_visible|]. intros E. by apply Hne, hexEncode_nil.
Qed.

Lemma hex_read data : Forall isByte data -> hexDecode (TrimPrefix (hexEncode data) (str "0x")) = Some data.
Proof. intros Hb. by rewrite hexEncode_TrimPrefix, hexDecode_encode. Qed.

Lemma hashHex_visible data : Forall isVisible (hashHex data).
Proof. apply hexEncode_visible, Sum256_byte. Qed.

Lemma hashHex_fold data : EqualFoldHex (hashHex data) (TrimSpace (hashHex data)) = true.
Proof. unfold EqualFoldHex. rewrite TrimSpace_visible by apply hashHex_visible. by apply bool_decide_eq_true. Qed.

Section Texts.
Context `{KeyTexts}.

Lemma point_text P : exists h,
  marshalPointHex P = Ok h /\ unmarshalPointHex h = Ok P /\ blank h = false.
Proof.
  destruct (point_bytes P) as (data & Hm & Hu & Hb & Hne). exists (hexEncode data).
  unfold marshalPointHex, unmarshalPointHex. rewrite Hm, hex_read by done. split_and!; [done|done|by apply hex_blank].
Qed.

Lemma scalar_text s : exists h,
  marshalScalarHex s = Ok h /\ unmarshalScalarHex h = Ok s /\ blank h = false.
Proof.
  destruct (scalar_bytes s) as (data & Hm & Hu & Hb & Hne). exists (hexEncode data).
  unfold marshalScalarHex, unmarshalScalarHex. rewrite Hm, hex_read by done. split_and!; [done|done|by apply hex_blank].
Qed.

Lemma publicConfigID_ok uni B crs pk : 0 < B -> exists id, PublicConfigID uni B (hashHex crs) (Some pk) = Ok id.
Proof.
  intros HB. destruct (point_bytes pk) as (data & Hm & _). unfold PublicConfigID.
  replace (B <=? 0) with false by lia. rewrite TrimSpace_visible by apply hashHex_visible. unfold hashHex.
  rewrite hexEncode_ToLower by apply Sum256_byte. rewrite hexEncode_length, Sum256_length. cbn [negb Z.of_nat Nat.mul].
  rewrite hexDecode_encode by apply Sum256_byte. rewrite Hm. by eexists.
Qed.
End Texts.

(** ** Operators *)

Lemma findSelf_spec nodes n : NoDup (map oc_ID nodes) -> n ∈ nodes -> findSelf nodes (oc_ID n) = Some n.
Proof.
  intros Hnd Hin. unfold findSelf.
  destruct (list_find (fun m => oc_ID m = oc_ID n) (reverse nodes)) as [[i m]|] eqn:E.
  - apply list_find_Some in E as (Hm & Heq & _). cbn. f_equal.
    apply list_elem_of_lookup_2 in Hm; rewrite !elem_of_reverse in Hm. apply (NoDup_map_inj oc_ID nodes); [exact Hnd|exact Hm|exact Hin|exact Heq].
  - apply list_find_None in E. rewrite Forall_forall in E. exfalso. apply (E n); [by apply elem_of_reverse|done].
Qed.

Lemma findSelf_elem nodes id n : findSelf nodes id = Some n -> n ∈ nodes /\ oc_ID n = id.
Proof.
  unfold findSelf. destruct (list_find _ _) as [[i m]|] eqn:E; [|done]. cbn. intros [= <-].
  apply list_find_Some in E as (Hm & Heq & _). split; [|done]. apply list_elem_of_lookup_2 in Hm; by rewrite elem_of_reverse in Hm.
Qed.

(** ** newNode *)

(** The result of a call that did not fail, in [out]. *)
Ltac succeeded x :=
  let E := fresh "E" x in destruct x eqn:E; cbn [out_bind]; [|discriminate..].

Section NewNode.
Context `{Suite} `{Libp2pKeys}.
Context (uni : bytes -> bytes) (rs_New : Z -> Z -> option Encoder).

(** What a successful [newNode] loaded. *)
Record loaded (cfg : ConfigFile) (secrets : NodeSecretConfig) (id : Z) (nc : NodeConfig) (n : Node) : Prop := mkLoaded {
  ld_limits : limits_ok (cf_Limits cfg);
  ld_listed : exists self, self ∈ cf_Nodes cfg /\ oc_ID self = id;
  ld_owner : ns_OperatorID secrets = id;
  ld_setup : exists btd pk scalar,
    NewBTDFromPublicCRS defaultSuiteID (cf_BMax cfg) (cf_CRSBytes cfg) = Ok btd /\
    unmarshalPointHex (cf_PublicKeyHex cfg) = Ok pk /\ unmarshalScalarHex (ns_BTEShareScalarHex secrets) = Ok scalar /\
    PublicConfigID uni (cf_BMax cfg) (cf_CRSSHA256 cfg) (Some pk) = Ok (publicConfigID nc) /\
    secret nc = mkSecretShare (i64 id) (mkPriShare (u32 id) scalar) /\
    cluster nc = NewNode btd pk (secret nc) (cf_N cfg) (cf_Threshold cfg);
  ld_fields : cfg_N nc = cf_N cfg /\ cfg_BMax nc = cf_BMax cfg /\ cfg_Threshold nc = cf_Threshold cfg /\ self_ID nc = id /\
    nodeIDs nc = merge_sort Z.le (map oc_ID (cf_Nodes cfg)) /\
    MaxCombineAttemptsPerSubBatch nc = lim_MaxCombineAttemptsPerSubBatch (cf_Limits cfg) /\
    MaxProposalBytes nc = lim_MaxProposalBytes (cf_Limits cfg) /\ Provider nc = cf_Provider cfg;
  ld_init : sys_init rs_New nc (cf_Slot cfg) (mkSystem n [] [])
}.

Lemma newNode_loaded cfg secrets id faults nc n :
  newNode uni rs_New cfg secrets id faults = Ok (nc, n) -> loaded (normalizeConfig cfg) secrets id nc n.
Proof.
  unfold newNode. set (c := normalizeConfig cfg).
  destruct (validateResourceLimits (cf_Limits c)) as [[]| |] eqn:El; cbn [out_bind]; [|discriminate..].
  destruct (validateProviderConfig (cf_Provider c)) as [[]| |]; cbn [out_bind]; [|discriminate..].
  destruct (validateNetworkConfig (cf_Network c)) as [[]| |]; cbn [out_bind]; [|discriminate..].
  destruct (negb _); [discriminate|]. destruct (Z.eqb_spec (ns_OperatorID secrets) id) as [Ho|]; [|discriminate]. cbn [negb].
  destruct (findSelf (cf_Nodes c) id) as [self|] eqn:Es; [|discriminate]. apply findSelf_elem in Es.
  destruct (NewBTDFromPublicCRS _ _ _) as [btd| |] eqn:Eb; cbn [out_bind]; [|discriminate..].
  destruct (unmarshalPointHex _) as [pk| |] eqn:Ep; cbn [out_bind]; [|discriminate..].
  destruct (PublicConfigID _ _ _ _) as [configID| |] eqn:Ec; cbn [out_bind]; [|discriminate..].
  destruct (_ && _); [discriminate|].
  destruct (unmarshalScalarHex _) as [scalar| |] eqn:Esc; cbn [out_bind]; [|discriminate..].
  destruct (unmarshalLibP2PPrivateKey _) as [[key|]| |]; cbn [out_bind]; try discriminate.
  destruct (IDFromPrivateKey key) as [peerID| |]; cbn [out_bind]; [|discriminate..].
  destruct (negb _); [discriminate|]. set (nodeCfg := mkNodeConfig _ _ _ _ _ _ _ _ _ _ _ _ _ _).
  destruct (newSlotStateWithLimit _ _ _ _) as [fresh| |] eqn:Ef; cbn [go_out out_bind]; [|discriminate..].
  intros [= <- <-]. split.
  - by apply validateResourceLimits_iff.
  - by exists self.
  - done.
  - by exists btd, pk, scalar.
  - done.
  - by exists fresh.
Qed.

(** Operators are listed once each and numbered below N. *)
Definition listed (cfg : ConfigFile) : Prop :=
  NoDup (map oc_ID (cf_Nodes cfg)) /\ (forall n, n ∈ cf_Nodes cfg -> 0 <= oc_ID n < cf_N cfg) /\ cf_N cfg <= 2 ^ 32.

Lemma listed_normalize cfg : listed cfg -> listed (normalizeConfig cfg).
Proof.
  intros (Hnd & Hr & Hn). unfold listed. cbn [normalizeConfig cf_Nodes cf_N].
  assert (map oc_ID (map normalizeNodeConfig (cf_Nodes cfg)) = map oc_ID (cf_Nodes cfg)) as E.
  { rewrite map_map. by apply map_ext. }
  rewrite E. split_and!; [done| |done]. intros n (n0 & -> & Hin)%list_elem_of_fmap. cbn. by apply Hr.
Qed.

Lemma publicConfigID_domain B sha pk id : PublicConfigID uni B sha pk = Ok id -> 0 < B.
Proof. unfold PublicConfigID. destruct (Z.leb_spec B 0); [discriminate|done]. Qed.

(** A node built from a configuration that lists its operators properly is one
    that the node's invariants are about. *)
Lemma loaded_ok cfg secrets id nc n : listed cfg -> loaded cfg secrets id nc n -> config_ok nc.
Proof.
  intros (Hnd & Hr & Hn) [Hlim (self & Hself & Hid) Ho (btd & pk & scalar & _ & _ & _ & Hpub & Hsec & Hcl) Hf _].
  destruct Hf as (F1 & F2 & F3 & F4 & F5 & F6 & _). pose proof (merge_sort_Permutation Z.le (map oc_ID (cf_Nodes cfg))) as Hp.
  assert (0 <= id < cf_N cfg) as Hrange by (subst id; by apply Hr).
  split; rewrite ?F1, ?F2, ?F3, ?F4, ?F5, ?F6.
  - by rewrite Hp.
  - intros i Hi. rewrite Hp in Hi. apply list_elem_of_fmap in Hi as (m & -> & Hm). by apply Hr.
  - done.
  - rewrite Hp, <- Hid. by apply list_elem_of_fmap_2.
  - rewrite Hsec. cbn. apply i64_small. lia.
  - apply publicConfigID_domain in Hpub. lia.
  - apply Hlim.
  - by rewrite Hcl.
  - by rewrite Hcl.
Qed.
End NewNode.

(** ** A node starts *)

Lemma go_fold_returns {A S} (body : S -> A -> go S) l st :
  (forall st x, exists st', body st x = Ret st') -> exists st', go_fold body l st = Ret st'.
Proof.
  intros Hb. revert st. induction l as [|x l IH]; intros st; cbn; [by eexists|].
  destruct (Hb st x) as [st' ->]. cbn. apply IH.
Qed.

(** An erasure code for the shards of a cluster of [n]. *)
Definition codeFor (rs_New : Z -> Z -> option Encoder) (n : Z) : Prop :=
  let f := Z.quot (n - 1) 3 in is_Some (rs_New (n - 2 * f) (2 * f)).

Lemma newSlotState_returns `{Suite} rs_New nc slotID limit :
  codeFor rs_New (cfg_N nc) -> exists s, newSlotStateWithLimit rs_New nc slotID limit = Ret s.
Proof.
  intros [enc Henc]. unfold newSlotStateWithLimit, NewSlotACS, newACS. set (c := mkConfig _ _ _ _ _).
  assert (defaultF c = c) as Ec.
  { unfold defaultF, c. cbn. by destruct (Z.eqb_spec (Z.quot (cfg_N nc - 1) 3) 0) as [->|]. }
  rewrite Ec. set (body := fun m id => _).
  destruct (go_fold_returns body (Nodes c) (∅, ∅)) as [[rbcs bbas] ->]; [|cbn; by eexists].
  intros st id. unfold body, newRBC. rewrite Ec. cbn. rewrite Henc. by eexists.
Qed.

Section Starting.
Context `{KeyTexts}.
Context (uni : bytes -> bytes) (rs_New : Z -> Z -> option Encoder).

(** What [newNode] checks, for the operator of a normalized configuration. *)
Record startable (cfg : ConfigFile) (secrets : NodeSecretConfig) (self : OperatorConfig) (btd : BTD) (pk : Point G1)
    (key : PrivKey) : Prop := {
  sb_normal : normalizeConfig cfg = cfg;
  sb_limits : limits_ok (cf_Limits cfg);
  sb_provider : validateProviderConfig (cf_Provider cfg) = Ok tt;
  sb_network : validateNetworkConfig (cf_Network cfg) = Ok tt;
  sb_cluster : ns_ClusterID secrets = cf_ClusterID cfg;
  sb_owner : ns_OperatorID secrets = oc_ID self;
  sb_listed : listed cfg /\ self ∈ cf_Nodes cfg;
  sb_setup : NewBTDFromPublicCRS defaultSuiteID (cf_BMax cfg) (cf_CRSBytes cfg) = Ok btd;
  sb_key : unmarshalPointHex (cf_PublicKeyHex cfg) = Ok pk;
  sb_public : exists id, PublicConfigID uni (cf_BMax cfg) (cf_CRSSHA256 cfg) (Some pk) = Ok id /\
    (ExpectedPublicConfigID (cf_Provider cfg) = [] \/ ExpectedPublicConfigID (cf_Provider cfg) = id);
  sb_share : exists scalar, unmarshalScalarHex (ns_BTEShareScalarHex secrets) = Ok scalar;
  sb_identity : exists raw, P2PPrivateKeyHex secrets = hexEncode raw /\ Forall isByte raw /\ raw <> [] /\
    UnmarshalPrivateKey raw = Ok key /\ IDFromPrivateKey key = Ok (oc_P2PPeerID self);
  sb_code : codeFor rs_New (cf_N cfg)
}.

Lemma newNode_starts cfg secrets self btd pk key faults :
  startable cfg secrets self btd pk key ->
  exists nc n, newNode uni rs_New cfg secrets (oc_ID self) faults = Ok (nc, n).
Proof.
  intros [Hn Hl Hp Hnet Hc Ho [(Hnd & Hr & _) Hin] Hs Hpk (cid & Hcid & Hexp) [scalar Hsc] (raw & Hraw & Hb & Hne & Hu & Hid) Hcode].
  unfold newNode. rewrite Hn, (proj2 (validateResourceLimits_iff _) Hl), Hp, Hnet. cbn [out_bind].
  rewrite (bool_decide_true (ns_ClusterID secrets = _)), Ho, Z.eqb_refl by done. cbn [negb].
  rewrite findSelf_spec by done. rewrite Hs, Hpk. cbn [out_bind]. rewrite Hcid. cbn [out_bind].
  replace (negb _ && negb _) with false.
  2: { destruct Hexp as [-> | ->]; [by rewrite bool_decide_true|by rewrite (bool_decide_true (cid = cid)), andb_false_r]. }
  rewrite Hsc. cbn [out_bind]. unfold unmarshalLibP2PPrivateKey.
  rewrite Hraw, bool_decide_false by (intros E; by apply Hne, hexEncode_nil). rewrite hexDecode_encode by done.
  rewrite Hu. cbn [out_bind]. rewrite Hid. cbn [out_bind]. rewrite bool_decide_true by done. cbn [negb].
  set (nodeCfg := mkNodeConfig _ _ _ _ _ _ _ _ _ _ _ _ _ _).
  destruct (newSlotState_returns rs_New nodeCfg (cf_Slot cfg) 0 Hcode) as [s ->]. cbn. by eexists _, _.
Qed.
End Starting.

(** ** Reading *)

Lemma validateNetworkConfig_iff network :
  validateNetworkConfig network = Ok tt <-> net_Mode network = str "libp2p" /\ net_StreamMode network ∈ streamModeNames.
Proof.
  unfold validateNetworkConfig. split.
  - case_bool_decide; [|discriminate]. cbn [negb]. case_bool_decide; [done|discriminate].
  - intros [H1 H2]. rewrite (bool_decide_true (net_Mode network = _)) by done. cbn [negb]. by rewrite bool_decide_true.
Qed.

Lemma validateProviderConfig_timeout provider :
  validateProviderConfig provider = Ok tt -> 0 <= MempoolTimeoutMS provider <= maximumMempoolTimeoutMS.
Proof. unfold validateProviderConfig. pass_checks. lia. Qed.

Lemma normalized_timeout provider : MempoolTimeoutMS (normalizeProviderConfig provider) <> 0.
Proof. cbn. destruct (Z.eqb_spec (MempoolTimeoutMS provider) 0); done. Qed.

Section Reading.
Context (readFile : bytes -> out bytes) (crsPath : bytes -> bytes -> bytes).
Context (json_fields : bytes -> out (list bytes)) (json_config : bytes -> out (ConfigFile * wireLimits)).

(** The steps of a successful [readConfig]. *)
Lemma readConfig_steps path cfg :
  readConfig readFile crsPath json_fields json_config path = Ok cfg ->
  exists data doc wire crs,
    readFile path = Ok data /\ json_config data = Ok (doc, wire) /\
    readFile (crsPath path (cf_CRSFile doc)) = Ok crs /\ EqualFoldHex (hashHex crs) (TrimSpace (cf_CRSSHA256 doc)) = true /\
    cfg = normalizeConfig (set_CRS (UnmarshalLimits wire zeroLimits) crs (if cf_Slot doc =? 0 then 1 else cf_Slot doc) doc) /\
    validateResourceLimits (cf_Limits cfg) = Ok tt /\ validateProviderConfig (cf_Provider cfg) = Ok tt /\
    validateNetworkConfig (cf_Network cfg) = Ok tt.
Proof.
  unfold readConfig. destruct (readFile path) as [data| |] eqn:Ed; cbn [out_bind]; [|discriminate..].
  destruct (json_fields data) as [fields| |]; cbn [out_bind]; [|discriminate..]. destruct (_ || _); [discriminate|].
  destruct (json_config data) as [[doc wire]| |] eqn:Ej; cbn [out_bind]; [|discriminate..]. pass_checks.
  destruct (readFile (crsPath _ _)) as [crs| |] eqn:Ec; cbn [out_bind]; [|discriminate..].
  destruct (EqualFoldHex _ _) eqn:Eh; cbn [negb]; [|discriminate]. set (c := normalizeConfig _).
  destruct (validateResourceLimits (cf_Limits c)) as [[]| |] eqn:E1; cbn [out_bind]; [|discriminate..].
  destruct (validateProviderConfig (cf_Provider c)) as [[]| |] eqn:E2; cbn [out_bind]; [|discriminate..].
  destruct (validateNetworkConfig (cf_Network c)) as [[]| |] eqn:E3; cbn [out_bind]; [|discriminate..].
  intros [= <-]. by exists data, doc, wire, crs.
Qed.

(** C22. What [readConfig] returns is sound. The resource limits lie within the
    absolute ones, an explicit zero limit in the document is never taken for an
    absent one, the mempool timeout and the network modes are usable, the slot
    is not zero, the CRS is the file that was named and has the digest that was
    named, and normalizing again changes nothing, so that the address accessors
    just return the fields. *)
Theorem read_config_sound path cfg :
  readConfig readFile crsPath json_fields json_config path = Ok cfg ->
  limits_ok (cf_Limits cfg) /\
  (exists data doc wire, readFile path = Ok data /\ json_config data = Ok (doc, wire) /\
     wl_MaxProposalBytes wire <> Some 0 /\ wl_MaxEnvelopeBytes wire <> Some 0 /\
     wl_MaxCombineAttemptsPerSubBatch wire <> Some 0) /\
  0 < MempoolTimeoutMS (cf_Provider cfg) <= maximumMempoolTimeoutMS /\
  net_Mode (cf_Network cfg) = str "libp2p" /\ net_StreamMode (cf_Network cfg) ∈ streamModeNames /\ cf_Slot cfg <> 0 /\
  readFile (crsPath path (cf_CRSFile cfg)) = Ok (cf_CRSBytes cfg) /\
  EqualFoldHex (hashHex (cf_CRSBytes cfg)) (TrimSpace (cf_CRSSHA256 cfg)) = true /\
  normalizeConfig cfg = cfg /\
  forall n, n ∈ cf_Nodes cfg -> httpListenAddr n = HTTPListenAddr n /\ httpAdvertiseURL n = HTTPAdvertiseURL n /\
    p2pListenAddr n = P2PListenAddr n /\ p2pAdvertiseAddr n = P2PAdvertiseAddr n.
Proof.
  intros (data & doc & wire & crs & Hd & Hj & Hc & Hh & -> & Hl & Hp & Hn)%readConfig_steps.
  pose proof (explicit_zero_refused wire) as Hz. change (normalizeLimits _) with (cf_Limits (normalizeConfig
    (set_CRS (UnmarshalLimits wire zeroLimits) crs (if cf_Slot doc =? 0 then 1 else cf_Slot doc) doc))) in Hz.
  apply validateProviderConfig_timeout in Hp. apply validateNetworkConfig_iff in Hn as [Hn1 Hn2].
  pose proof (normalized_timeout (cf_Provider doc)) as Ht. split_and!.
  - by apply validateResourceLimits_iff.
  - exists data, doc, wire. split_and!; [done|done|..]; intros E; apply Hz; auto.
  - change (MempoolTimeoutMS _) with (MempoolTimeoutMS (normalizeProviderConfig (cf_Provider doc))) in *. lia.
  - apply Hp.
  - done.
  - done.
  - cbn. by destruct (Z.eqb_spec (cf_Slot doc) 0).
  - done.
  - done.
  - apply normalizeConfig_idem.
  - intros n (n0 & -> & _)%list_elem_of_fmap. apply accessors_normalized.
Qed.
End Reading.
