(* ===== verification/Dealer.v ===== *)
(** * Dealer: generating a cluster

    Models the trusted dealer of [src/bloc-node/internal/app]: [genConfig] of
    [commands.go], which writes a public configuration, the CRS and one secret
    file per operator, and [campaign_identity.go], which does the same for a
    cluster whose addresses are not known yet and checks such a cluster again
    from its files; [GeneratePublicCRS] is in
    [src/bte/btd-impl-main/be/btd.go].

    What is picked at random is an argument: the scalars of the setup, the
    coefficients of the shared polynomial, the libp2p keys. Writing the files
    is left out; the functions return what is written. *)

From S2P Require Import Prelude GoStrings Sha256 Kyber Prf Btd Batch Merge Messages Acs SlotAcs Wire NodeState Config.

(** ** Templates *)

(** [strings.NewReplacer(pairs...).Replace(s)] for non-empty old strings: at
  each position the first of them that is there is replaced. *)
Fixpoint Replace (fuel : nat) (pairs : list (bytes * bytes)) (s : bytes) : bytes :=
  match fuel, s with
  | S fuel', c :: s' =>
      match firstSome (fun p => rest ← stripPrefix p.1 s; Some (p.2, rest)) pairs with
      | Some (new, rest) => new ++ Replace fuel' pairs rest
      | None => c :: Replace fuel' pairs s'
      end
  | _, _ => []
  end.

(** [strings.Contains] *)
Fixpoint Contains (s substr : bytes) : bool :=
  bool_decide (is_Some (stripPrefix substr s)) ||
  match s with
  | [] => false
  | _ :: s' => Contains s' substr
  end.

Record addressTemplates := mkTemplates {
  httpListen : bytes;
  httpAdvertise : bytes;
  p2pListen : bytes;
  p2pAdvertise : bytes
}.

Definition fillAddressTemplateDefaults (value defaults : addressTemplates) : addressTemplates :=
  mkTemplates (orElse (httpListen value) (httpListen defaults)) (orElse (httpAdvertise value) (httpAdvertise defaults))
    (orElse (p2pListen value) (p2pListen defaults)) (orElse (p2pAdvertise value) (p2pAdvertise defaults)).

Definition resolveAddressTemplates (mode : bytes) (value : addressTemplates) : out addressTemplates :=
  if bool_decide (mode = []) || bool_decide (mode = str "local") then
    Ok (fillAddressTemplateDefaults value
      (mkTemplates (str "127.0.0.1:{http_port}") (str "http://127.0.0.1:{http_port}")
        (str "/ip4/127.0.0.1/tcp/{p2p_port}") (str "/ip4/127.0.0.1/tcp/{p2p_port}")))
  else if bool_decide (mode = str "container") then
    Ok (fillAddressTemplateDefaults value
      (mkTemplates (str "0.0.0.0:{http_port}") (str "http://bloc-node-{id}:{http_port}")
        (str "/ip4/0.0.0.0/tcp/{p2p_port}") (str "/dns4/bloc-node-{id}/tcp/{p2p_port}")))
  else if bool_decide (mode = str "kubernetes") then
    Ok (fillAddressTemplateDefaults value
      (mkTemplates (str "0.0.0.0:8000") (str "http://bloc-node-{id}.bloc-node-headless.bloc.svc.cluster.local:8000")
        (str "/ip4/0.0.0.0/tcp/9000") (str "/dns4/bloc-node-{id}.bloc-node-headless.bloc.svc.cluster.local/tcp/9000")))
  else Err "unknown address-mode".

Definition renderAddressTemplate (tmpl : bytes) (id httpPort p2pPort : Z) : bytes :=
  Replace (length tmpl)
    [(str "{id}", decimal id); (str "{http_port}", decimal httpPort); (str "{p2p_port}", decimal p2pPort)] tmpl.

Definition legacyHTTPAddr (httpAdvertiseURL httpListenAddr : bytes) : bytes :=
  orElse (TrimPrefix (TrimPrefix httpAdvertiseURL (str "http://")) (str "https://")) httpListenAddr.

(** ** Keys *)

Section Dealing.
Context `{Suite} `{Libp2pKeys}.

Definition GeneratePublicCRS (B : Z) (xs zs : list Scalar) : out bytes :=
  if B <=? 0 then Err "BMax must be positive" else MarshalPublicBinary (PRFSetup B true xs zs) defaultSuiteID.

(** What a dealer picks. *)
Record entropy := mkEntropy {
  en_xs : list Scalar;
  en_zs : list Scalar;
  en_coeffs : list Scalar;
  en_keys : list PrivKey
}.

(** The text of the private key and the peer identifier. *)
Definition generateLibP2PIdentity (priv : PrivKey) : out (bytes * bytes) :=
  let? raw := MarshalPrivateKey priv in
  let? id := IDFromPrivateKey priv in
  Ok (hexEncode raw, id).

(** The CRS, the text of the public key, and the shares. *)
Definition dealSetup (r : entropy) (bmax n threshold : Z) : out (bytes * bytes * list PriShare) :=
  let? crs := GeneratePublicCRS bmax (en_xs r) (en_zs r) in
  let? btd := NewBTDFromPublicCRS defaultSuiteID bmax crs in
  let dealt := KeyGen btd n threshold (en_coeffs r) in
  let? pkHex := marshalPointHex (PK (btd_eg dealt)) in
  Ok (crs, pkHex, Shares (btd_eg dealt)).

(** ** genConfig *)

Record genOptions := mkGenOptions {
  go_nodes : Z;
  go_threshold : Z;
  go_bmax : Z;
  go_baseHTTP : Z;
  go_baseP2P : Z;
  go_clusterID : bytes;
  go_slot : Z;
  go_blockspace : BlockspaceConfig;
  go_limits : ResourceLimits;
  go_acsTrace : bool;
  go_streamMode : bytes;
  go_providerMode : bytes;
  go_mempoolURL : bytes;
  go_mempoolTimeoutMS : Z;
  go_addressMode : bytes;
  go_templates : addressTemplates;
  go_out : bytes;
  go_crsOut : bytes;
  go_secretsDir : bytes;
  go_secretPathTemplate : bytes
}.

(** What is written: the configuration, the CRS at its path, and the secrets at
  theirs. *)
Record generated := mkGenerated {
  gen_cfg : ConfigFile;
  gen_crsPath : bytes;
  gen_crs : bytes;
  gen_secrets : list (bytes * NodeSecretConfig)
}.

(** [sibling] is a path beside another one, [below] a path in a directory,
  [rel] a path seen from the directory of another one. *)
Context (sibling below : bytes -> bytes -> bytes) (rel : bytes -> bytes -> out bytes).

Definition secretPath (secretsDir template : bytes) (operatorID : Z) : bytes :=
  if bool_decide (template = []) then below secretsDir (str "operator-" ++ decimal operatorID ++ str ".json")
  else Replace (length template) [(str "{id}", decimal operatorID)] template.

(** One round of the loop over the operators. *)
Definition genOperator (o : genOptions) (templates : addressTemplates) (r : entropy) (shares : list PriShare) (i : Z)
  : out (OperatorConfig * NodeSecretConfig) :=
  let? key := at_index (en_keys r) i in
  let? (p2pPrivHex, p2pPeerID) := generateLibP2PIdentity key in
  let httpPort := i64 (go_baseHTTP o + i) in
  let p2pPort := i64 (go_baseP2P o + i) in
  let render tmpl := renderAddressTemplate tmpl i httpPort p2pPort in
  let? share := at_index shares i in
  let? scalarHex := marshalScalarHex (pri_V share) in
  Ok (mkOperator (u64 i) (legacyHTTPAddr (render (httpAdvertise templates)) (render (httpListen templates)))
        (render (httpListen templates)) (render (httpAdvertise templates)) (render (p2pAdvertise templates))
        (render (p2pListen templates)) (render (p2pAdvertise templates)) p2pPeerID,
      mkSecrets nodeSecretVersion (go_clusterID o) (u64 (pri_I share)) scalarHex p2pPrivHex).

Definition genConfig (o : genOptions) (r : entropy) : out generated :=
  if go_nodes o <? 4 then Err "nodes must be at least 4"
  else
    let f := Z.quot (go_nodes o - 1) 3 in
    let threshold := if go_threshold o =? 0 then 2 * f + 1 else go_threshold o in
    if (threshold <? 1) || (go_nodes o <? threshold) then Err "threshold out of range"
    else
      let? _ := validateResourceLimits (go_limits o) in
      let provider := normalizeProviderConfig
        (mkProvider (go_providerMode o) (go_mempoolURL o) (go_mempoolTimeoutMS o) [] [] [] ∅ false) in
      let? _ := validateProviderConfig provider in
      let network := mkNetwork (str "libp2p") (go_streamMode o) in
      let? _ := validateNetworkConfig network in
      let crsOut := orElse (go_crsOut o) (sibling (go_out o) (str "cluster.crs")) in
      let secretsDir := orElse (go_secretsDir o) (sibling (go_out o) (str "secrets")) in
      if negb (bool_decide (go_secretPathTemplate o = [])) && negb (Contains (go_secretPathTemplate o) (str "{id}")) then
        Err "secret-path-template must contain {id}"
      else
        let? (crs, pkHex, shares) := dealSetup r (go_bmax o) (go_nodes o) threshold in
        let? crsRelative := rel (go_out o) crsOut in
        let? templates := resolveAddressTemplates (go_addressMode o) (go_templates o) in
        let? operators := map_out (genOperator o templates r shares) (seqZ 0 (go_nodes o)) in
        let cfg := mkConfigFile clusterConfigVersion (go_clusterID o) (go_bmax o) (go_nodes o) threshold (go_slot o)
          crsRelative (hashHex crs) operators.*1 pkHex (go_blockspace o) provider network (go_limits o)
          (go_acsTrace o) [] in
        Ok (mkGenerated cfg crsOut crs
          (map (fun s => (secretPath secretsDir (go_secretPathTemplate o) (ns_OperatorID s), s)) operators.*2)).

(** ** campaign_identity.go *)

Definition campaignIdentityVersion : bytes := str "bloc-campaign-identity-v1".

Record campaignOperatorIdentity := mkCampaignOperatorIdentity {
  co_ID : Z;
  co_P2PPeerID : bytes
}.

Record campaignIdentity := mkIdentity {
  ci_Version : bytes;
  ci_ClusterID : bytes;
  ci_N : Z;
  ci_Threshold : Z;
  ci_BMax : Z;
  ci_CRSFile : bytes;
  ci_CRSSHA256 : bytes;
  ci_PublicKeyHex : bytes;
  ci_Blockspace : BlockspaceConfig;
  ci_Limits : ResourceLimits;
  ci_Operators : list campaignOperatorIdentity
}.

Record campaignIdentityOptions := mkIdentityOptions {
  cio_ClusterID : bytes;
  cio_IdentityOut : bytes;
  cio_CRSOut : bytes;
  cio_SecretsDir : bytes;
  cio_N : Z;
  cio_Threshold : Z;
  cio_BMax : Z;
  cio_Blockspace : BlockspaceConfig;
  cio_Limits : ResourceLimits
}.

Definition campaignOperator (clusterID : bytes) (r : entropy) (shares : list PriShare) (operatorID : Z)
  : out (campaignOperatorIdentity * NodeSecretConfig) :=
  let? key := at_index (en_keys r) operatorID in
  let? (privateKeyHex, peerID) := generateLibP2PIdentity key in
  let? share := at_index shares operatorID in
  let? shareHex := marshalScalarHex (pri_V share) in
  Ok (mkCampaignOperatorIdentity (u64 operatorID) peerID,
      mkSecrets nodeSecretVersion clusterID (u64 operatorID) shareHex privateKeyHex).

(** The defaults of the options' limits and block space. *)
Definition campaignLimits (limits : ResourceLimits) : ResourceLimits :=
  if (lim_MaxProposalBytes limits =? 0) && (lim_MaxEnvelopeBytes limits =? 0) &&
     (lim_MaxCombineAttemptsPerSubBatch limits =? 0) && negb (explicitZeroProposal limits) &&
     negb (explicitZeroEnvelope limits) && negb (explicitZeroCombineAttempts limits)
  then defaultResourceLimits else limits.

Definition campaignBlockspace (bmax : Z) (b : BlockspaceConfig) : BlockspaceConfig :=
  mkBlockspace (MaxDecryptedGas b) (if MaxDecryptedTxs b =? 0 then bmax else MaxDecryptedTxs b)
    (if DefaultTxGas b =? 0 then 21000 else DefaultTxGas b).

Definition buildCampaignIdentity (o : campaignIdentityOptions) (r : entropy)
  : out (campaignIdentity * bytes * list NodeSecretConfig) :=
  if blank (cio_ClusterID o) then Err "campaign cluster id is required"
  else if cio_N o <? 4 then Err "campaign identity requires at least 4 operators"
  else if (cio_Threshold o <? 1) || (cio_N o <? cio_Threshold o) then Err "campaign threshold out of range"
  else if cio_BMax o <? 1 then Err "campaign BMax must be positive"
  else
    let limits := campaignLimits (cio_Limits o) in
    let? _ := validateResourceLimits limits in
    let blockspace := campaignBlockspace (cio_BMax o) (cio_Blockspace o) in
    let txs := if MaxDecryptedTxs (cio_Blockspace o) =? 0 then cio_BMax o else MaxDecryptedTxs (cio_Blockspace o) in
    if (txs <? 1) || (cio_BMax o <? txs) then Err "max decrypted transactions out of range"
    else
      let? (crs, publicKeyHex, shares) := dealSetup r (cio_BMax o) (cio_N o) (cio_Threshold o) in
      let? crsFile :=
        if negb (bool_decide (cio_IdentityOut o = [])) && negb (bool_decide (cio_CRSOut o = []))
        then rel (cio_IdentityOut o) (cio_CRSOut o) else Ok (str "cluster.crs") in
      let? operators := map_out (campaignOperator (cio_ClusterID o) r shares) (seqZ 0 (cio_N o)) in
      Ok (mkIdentity campaignIdentityVersion (cio_ClusterID o) (cio_N o) (cio_Threshold o) (cio_BMax o) crsFile
            (hashHex crs) publicKeyHex blockspace limits operators.*1, crs, operators.*2).

(** [filepath.IsAbs] *)
Definition IsAbs (path : bytes) : bool := bool_decide (is_Some (stripPrefix (str "/") path)).

(** The loop over the operators of [validateCampaignIdentity]. *)
Fixpoint checkCampaignOperators (operators : list campaignOperatorIdentity) (index : Z) (seenPeers : gset bytes) : bool :=
  match operators with
  | [] => true
  | o :: rest =>
      (co_ID o =? u64 index) && negb (blank (co_P2PPeerID o)) && negb (bool_decide (co_P2PPeerID o ∈ seenPeers)) &&
      checkCampaignOperators rest (index + 1) ({[ co_P2PPeerID o ]} ∪ seenPeers)
  end.

Definition validateIdentity (identity : campaignIdentity) : out unit :=
  if negb (bool_decide (ci_Version identity = campaignIdentityVersion)) then Err "unsupported campaign identity version"
  else if blank (ci_ClusterID identity) || (ci_N identity <? 4) || (ci_Threshold identity <? 1) ||
          (ci_N identity <? ci_Threshold identity) || (ci_BMax identity <? 1) then Err "invalid campaign identity parameters"
  else if blank (ci_CRSFile identity) || IsAbs (ci_CRSFile identity) || blank (ci_CRSSHA256 identity) ||
          blank (ci_PublicKeyHex identity) then Err "campaign identity requires relative CRS and public key fields"
  else
    let? _ := validateResourceLimits (ci_Limits identity) in
    let txs := MaxDecryptedTxs (ci_Blockspace identity) in
    if (txs <? 1) || (ci_BMax identity <? txs) || (DefaultTxGas (ci_Blockspace identity) =? 0) then
      Err "invalid campaign blockspace limits"
    else if negb (zlen (ci_Operators identity) =? ci_N identity) then Err "campaign identity operator count"
    else if checkCampaignOperators (ci_Operators identity) 0 ∅ then Ok tt
    else Err "invalid campaign operator identity".

(** ** Reading a campaign identity back *)

Section Verifying.
Context (readFile : bytes -> out bytes) (crsPath : bytes -> bytes -> bytes).
Context (json_fields : bytes -> out (list bytes)) (json_secrets : bytes -> out NodeSecretConfig).
Context (json_identity : bytes -> out (campaignIdentity * wireLimits)).
Context (ReadDir : bytes -> out (list bytes)).
Context (RecoverSecret : list PriShare -> Z -> Z -> out Scalar).

Definition set_Limits (limits : ResourceLimits) (identity : campaignIdentity) : campaignIdentity :=
  mkIdentity (ci_Version identity) (ci_ClusterID identity) (ci_N identity) (ci_Threshold identity) (ci_BMax identity)
    (ci_CRSFile identity) (ci_CRSSHA256 identity) (ci_PublicKeyHex identity) (ci_Blockspace identity) limits
    (ci_Operators identity).

Definition readCampaignIdentity (path : bytes) : out (campaignIdentity * bytes) :=
  let? data := readFile path in
  let? (document, wire) := json_identity data in
  let identity := set_Limits (UnmarshalLimits wire zeroLimits) document in
  let? _ := validateIdentity identity in
  let? crs := readFile (crsPath path (ci_CRSFile identity)) in
  if negb (bool_decide (hashHex crs = ci_CRSSHA256 identity)) then Err "campaign CRS hash mismatch"
  else
    let? _ := NewBTDFromPublicCRS defaultSuiteID (ci_BMax identity) crs in
    let? _ := unmarshalPointHex (ci_PublicKeyHex identity) in
    Ok (identity, crs).

Definition peerIDFromPrivateKeyHex (encoded : bytes) : out bytes :=
  match hexDecode (TrimPrefix encoded (str "0x")) with
  | None => Err "invalid hex"
  | Some raw => let? key := UnmarshalPrivateKey raw in IDFromPrivateKey key
  end.

(** One round of the loop over the secrets. *)
Definition verifySecret (identity : campaignIdentity) (secretDir : bytes) (operatorID : Z) : out PriShare :=
  let path := below secretDir (str "operator-" ++ decimal operatorID ++ str ".json") in
  let? secret := readNodeSecrets readFile json_fields json_secrets path in
  if negb (bool_decide (ns_ClusterID secret = ci_ClusterID identity)) || negb (ns_OperatorID secret =? u64 operatorID) then
    Err "campaign secret identity mismatch"
  else
    let? peerID := peerIDFromPrivateKeyHex (P2PPrivateKeyHex secret) in
    let? operator := at_index (ci_Operators identity) operatorID in
    if negb (bool_decide (peerID = co_P2PPeerID operator)) then Err "campaign secret peer id mismatch"
    else
      let? scalar := unmarshalScalarHex (ns_BTEShareScalarHex secret) in
      Ok (mkPriShare (u32 operatorID) scalar).

Definition verifyCampaignSecrets (identity : campaignIdentity) (crs secretDir : bytes) : out unit :=
  let? _ := validateIdentity identity in
  let? entries := ReadDir secretDir in
  if negb (zlen entries =? ci_N identity) then Err "campaign secret directory entry count"
  else
    let? _ := NewBTDFromPublicCRS defaultSuiteID (ci_BMax identity) crs in
    let? privateShares := map_out (verifySecret identity secretDir) (seqZ 0 (ci_N identity)) in
    let? master := RecoverSecret privateShares (ci_Threshold identity) (ci_N identity) in
    let? wantPublic := unmarshalPointHex (ci_PublicKeyHex identity) in
    if Equal (Mul master Base) wantPublic then Ok tt
    else Err "campaign secret shares do not match public key".
End Verifying.
End Dealing.
