(* ===== verification/DealerLaws.v ===== *)
(** * Laws of the dealer

    What the dealer generates is what the readers accept: every operator of a
    generated cluster starts from the files that were written, with the share
    that was dealt to it, and a campaign identity is verified again from its
    files by the node's commands and read by the mempool service. *)

From S2P Require Import Prelude Order GoStrings Sha256 Kyber Prf PrfLaws Btd Batch Merge Messages Rbc Acs SlotAcs Wire NodeState Provider Node NodeSys NodeLaws Config ConfigLaws Dealer.

(** [at_index] as a lookup. *)
Lemma at_index_lookup {A} (l : list A) i x : at_index l i = Ok x -> 0 <= i /\ l !! Z.to_nat i = Some x.
Proof.
  unfold at_index. destruct (Z.ltb_spec i 0); [discriminate|]. destruct (l !! Z.to_nat i) as [y|]; [|discriminate].
  intros [= ->]. done.
Qed.

Lemma map_out_lookup {A B} (f : A -> out B) l ys i x :
  map_out f l = Ok ys -> l !! i = Some x -> exists y, ys !! i = Some y /\ f x = Ok y.
Proof.
  revert ys i. induction l as [|z l IH]; intros ys i; cbn [map_out]; [done|].
  destruct (f z) as [y| |] eqn:E; cbn [out_bind]; [|discriminate..].
  destruct (map_out f l) as [ys'| |]; cbn [out_bind]; [|discriminate..]. intros [= <-].
  destruct i as [|i]; [intros [= ->]; by exists y|]. apply (IH ys' i). done.
Qed.

Section Setup.
Context `{KeyTexts} {SL : SuiteLaws}.
Context (G1_encoding : GroupEncoding G1 maxCRSPointBytes) (G2_encoding : GroupEncoding G2 maxCRSPointBytes).

Abbreviation master r := (polyEval (en_coeffs r) sZero).

(** The dealer picks a scalar of each kind for every index of the domain. *)
Definition enough (r : entropy) (bmax : Z) : Prop := 0 < bmax < 2 ^ 32 /\ zlen (en_xs r) = bmax /\ zlen (en_zs r) = bmax.

Lemma dealSetup_ok r bmax n threshold :
  enough r bmax -> exists crs pkHex btd,
    dealSetup r bmax n threshold = Ok (crs, pkHex, map (shareOf (en_coeffs r)) (seqZ 0 n)) /\
    NewBTDFromPublicCRS defaultSuiteID bmax crs = Ok btd /\
    unmarshalPointHex pkHex = Ok (Mul (master r) Base) /\ blank pkHex = false.
Proof.
  intros (Hb & Hx & Hz). destruct (crs_roundtrip G1_encoding G2_encoding bmax true (en_xs r) (en_zs r) defaultSuiteID)
    as (crs & Hm & Hr); [done..|cbn; unfold maxCRSPointBytes; lia|].
  destruct (point_text (Mul (master r) Base)) as (pkHex & Hp & Hu & Hbl).
  exists crs, pkHex, (NewBTD (publicPart (PRFSetup bmax true (en_xs r) (en_zs r))) bmax).
  assert (NewBTDFromPublicCRS defaultSuiteID bmax crs = Ok (NewBTD (publicPart (PRFSetup bmax true (en_xs r) (en_zs r))) bmax)) as Hnew.
  { unfold NewBTDFromPublicCRS. by rewrite Hr. }
  split; [|done]. unfold dealSetup, GeneratePublicCRS. replace (bmax <=? 0) with false by lia.
  rewrite Hm. cbn [out_bind]. rewrite Hnew. cbn [out_bind]. change (PK _) with (Mul (master r) (Base (g := G1))).
  rewrite Hp. done.
Qed.

Lemma generated_identity k : exists raw id,
  generateLibP2PIdentity k = Ok (hexEncode raw, id) /\ Forall isByte raw /\ raw <> [] /\
  UnmarshalPrivateKey raw = Ok k /\ IDFromPrivateKey k = Ok id /\ blank id = false.
Proof.
  destruct (key_bytes k) as (raw & id & Hm & Hu & Hb & Hne & Hi & Hbl). exists raw, id.
  unfold generateLibP2PIdentity. rewrite Hm. cbn. by rewrite Hi.
Qed.

(** The secrets of the [i]-th operator of a cluster. *)
Record dealt (r : entropy) (clusterID : bytes) (i : Z) (peerID : bytes) (s : NodeSecretConfig) : Prop := {
  de_version : ns_Version s = nodeSecretVersion;
  de_cluster : ns_ClusterID s = clusterID;
  de_owner : ns_OperatorID s = i;
  de_share : unmarshalScalarHex (ns_BTEShareScalarHex s) = Ok (pri_V (shareOf (en_coeffs r) i)) /\
    ns_BTEShareScalarHex s <> [];
  de_key : exists key raw, en_keys r !! Z.to_nat i = Some key /\ P2PPrivateKeyHex s = hexEncode raw /\
    Forall isByte raw /\ raw <> [] /\ UnmarshalPrivateKey raw = Ok key /\ IDFromPrivateKey key = Ok peerID;
  de_peer : blank peerID = false
}.

Lemma shares_at r n i : 0 <= i < n -> at_index (map (shareOf (en_coeffs r)) (seqZ 0 n)) i = Ok (shareOf (en_coeffs r) i).
Proof.
  intros Hi. rewrite (at_index_map _ _ _ 0) by (rewrite length_seqZ; lia).
  assert (nth (Z.to_nat i) (seqZ 0 n) 0 = i) as ->; [|done].
  apply nth_lookup_Some. apply lookup_seqZ. lia.
Qed.

Lemma not_blank s : blank s = false -> s <> [].
Proof. by intros Hb ->. Qed.

Lemma genOperator_dealt o templates r n i op s :
  0 <= i < n -> n <= 2 ^ 32 ->
  genOperator o templates r (map (shareOf (en_coeffs r)) (seqZ 0 n)) i = Ok (op, s) ->
  oc_ID op = i /\ dealt r (go_clusterID o) i (oc_P2PPeerID op) s.
Proof.
  intros Hi Hn. unfold genOperator. destruct (at_index (en_keys r) i) as [key| |] eqn:Ek; cbn [out_bind]; [|discriminate..].
  apply at_index_lookup in Ek as [_ Ek]. destruct (generated_identity key) as (raw & id & -> & Hb & Hne & Hu & Hid & Hbl).
  cbn [out_bind]. rewrite shares_at by done. cbn [out_bind].
  destruct (scalar_text (pri_V (shareOf (en_coeffs r) i))) as (h & -> & Hs & Hh). cbn [out_bind].
  assert (u64 i = i) as Ei by (apply u64_small; lia).
  intros [= <- <-]. cbn. rewrite Ei. split; [done|]. split; cbn; rewrite ?Ei; try done; [|by exists key, raw].
  split; [done|by apply not_blank].
Qed.

Lemma campaignOperator_dealt clusterID r n i op s :
  0 <= i < n -> n <= 2 ^ 32 ->
  campaignOperator clusterID r (map (shareOf (en_coeffs r)) (seqZ 0 n)) i = Ok (op, s) ->
  co_ID op = i /\ dealt r clusterID i (co_P2PPeerID op) s.
Proof.
  intros Hi Hn. unfold campaignOperator. destruct (at_index (en_keys r) i) as [key| |] eqn:Ek; cbn [out_bind]; [|discriminate..].
  apply at_index_lookup in Ek as [_ Ek]. destruct (generated_identity key) as (raw & id & -> & Hb & Hne & Hu & Hid & Hbl).
  cbn [out_bind]. rewrite shares_at by done. cbn [out_bind].
  destruct (scalar_text (pri_V (shareOf (en_coeffs r) i))) as (h & -> & Hs & Hh). cbn [out_bind].
  assert (u64 i = i) as Ei by (apply u64_small; lia).
  intros [= <- <-]. cbn. rewrite Ei. split; [done|]. split; cbn; rewrite ?Ei; try done; [|by exists key, raw].
  split; [done|by apply not_blank].
Qed.

(** ** genConfig *)

Section Generated.
Context (uni : bytes -> bytes).
Context (sibling below : bytes -> bytes -> bytes) (rel : bytes -> bytes -> out bytes).

(** What [genConfig] put together. *)
Record dealtCluster (o : genOptions) (r : entropy) (g : generated) : Prop := {
  dc_version : cf_Version (gen_cfg g) = clusterConfigVersion;
  dc_size : 4 <= cf_N (gen_cfg g) /\ 1 <= cf_Threshold (gen_cfg g) <= cf_N (gen_cfg g);
  dc_options : cf_N (gen_cfg g) = go_nodes o /\ cf_ClusterID (gen_cfg g) = go_clusterID o /\
    cf_BMax (gen_cfg g) = go_bmax o /\ cf_Limits (gen_cfg g) = go_limits o /\ cf_Slot (gen_cfg g) = go_slot o;
  dc_limits : limits_ok (cf_Limits (gen_cfg g));
  dc_provider : validateProviderConfig (cf_Provider (gen_cfg g)) = Ok tt /\
    normalizeProviderConfig (cf_Provider (gen_cfg g)) = cf_Provider (gen_cfg g) /\
    (ExpectedPublicConfigID (cf_Provider (gen_cfg g)) = [] \/
     PublicConfigID uni (go_bmax o) (hashHex (gen_crs g)) (Some (Mul (master r) Base))
       = Ok (ExpectedPublicConfigID (cf_Provider (gen_cfg g))));
  dc_network : validateNetworkConfig (cf_Network (gen_cfg g)) = Ok tt;
  dc_digest : cf_CRSSHA256 (gen_cfg g) = hashHex (gen_crs g);
  dc_setup : exists btd, NewBTDFromPublicCRS defaultSuiteID (go_bmax o) (gen_crs g) = Ok btd;
  dc_key : unmarshalPointHex (cf_PublicKeyHex (gen_cfg g)) = Ok (Mul (master r) Base);
  dc_operators : length (cf_Nodes (gen_cfg g)) = Z.to_nat (go_nodes o) /\
    forall i, 0 <= i < go_nodes o -> exists op path s,
      cf_Nodes (gen_cfg g) !! Z.to_nat i = Some op /\ gen_secrets g !! Z.to_nat i = Some (path, s) /\
      oc_ID op = i /\ dealt r (go_clusterID o) i (oc_P2PPeerID op) s
}.

Lemma normalizeProvider_idem p : normalizeProviderConfig (normalizeProviderConfig p) = normalizeProviderConfig p.
Proof.
  destruct p as [m u ms a1 a2 a3 a4 x]. unfold normalizeProviderConfig. cbn. rewrite orElse_idem.
  destruct (Z.eqb_spec ms 0) as [->|]; cbn; [reflexivity|]. by rewrite (proj2 (Z.eqb_neq ms 0)).
Qed.

Lemma genConfig_dealt o r g :
  genConfig sibling below rel o r = Ok g -> enough r (go_bmax o) -> go_nodes o <= 2 ^ 32 -> dealtCluster o r g.
Proof.
  unfold genConfig. destruct (Z.ltb_spec (go_nodes o) 4) as [|H4]; [discriminate|].
  set (threshold := if go_threshold o =? 0 then _ else _). destruct (_ || _) eqn:Et; [discriminate|].
  destruct (validateResourceLimits (go_limits o)) as [[]| |] eqn:El; cbn [out_bind]; [|discriminate..].
  set (provider := normalizeProviderConfig _).
  destruct (validateProviderConfig provider) as [[]| |] eqn:Ep; cbn [out_bind]; [|discriminate..].
  destruct (validateNetworkConfig _) as [[]| |] eqn:En; cbn [out_bind]; [|discriminate..].
  destruct (negb _ && negb _); [discriminate|]. intros Hg Hen Hn.
  destruct (dealSetup_ok r (go_bmax o) (go_nodes o) threshold Hen) as (crs & pkHex & btd & Hd & Hbtd & Hpk & Hbl).
  rewrite Hd in Hg. cbn [out_bind] in Hg. destruct (rel _ _) as [crsRelative| |]; cbn [out_bind] in Hg; [|discriminate..].
  destruct (resolveAddressTemplates _ _) as [templates| |]; cbn [out_bind] in Hg; [|discriminate..].
  destruct (map_out _ _) as [operators| |] eqn:Eo; cbn [out_bind] in Hg; [|discriminate..]. injection Hg as <-.
  split; cbn; try done.
  - lia.
  - by apply validateResourceLimits_iff.
  - split_and!; [done|apply normalizeProvider_idem|by left].
  - by exists btd.
  - apply map_out_length in Eo as Hlen. rewrite length_seqZ in Hlen. split; [by rewrite length_fmap|].
    intros i Hi. assert (seqZ 0 (go_nodes o) !! Z.to_nat i = Some i) as Hlook by (apply lookup_seqZ; lia).
    destruct (map_out_lookup _ _ _ _ _ Eo Hlook) as ([op s] & Hy & Hgo).
    exists op, (secretPath below (orElse (go_secretsDir o) (sibling (go_out o) (str "secrets"))) (go_secretPathTemplate o) (ns_OperatorID s)), s.
    split_and!; [by rewrite list_lookup_fmap, Hy| |by apply (genOperator_dealt o templates r (go_nodes o) i op s)..].
    rewrite list_lookup_fmap, list_lookup_fmap, Hy. done.
Qed.

(** A dealt cluster lists its operators by position. *)
Lemma dealt_listed o r g : dealtCluster o r g -> go_nodes o <= 2 ^ 32 -> listed (gen_cfg g).
Proof.
  intros Hd Hn. destruct (dc_operators _ _ _ Hd) as [Hlen Hops]. destruct (dc_options _ _ _ Hd) as (HN & _).
  assert (map oc_ID (cf_Nodes (gen_cfg g)) = seqZ 0 (go_nodes o)) as E.
  { apply list_eq. intros i. change (map oc_ID) with (fmap (M := list) oc_ID). rewrite list_lookup_fmap.
    destruct (decide (i < Z.to_nat (go_nodes o))%nat) as [Hi|Hi].
    - destruct (Hops (Z.of_nat i)) as (op & _ & _ & Hop & _ & Hid & _); [lia|]. rewrite Nat2Z.id in Hop. rewrite Hop. cbn.
      rewrite Hid. symmetry. apply lookup_seqZ. lia.
    - rewrite (lookup_ge_None_2 (cf_Nodes (gen_cfg g))) by lia. cbn. symmetry. apply lookup_ge_None_2.
      rewrite length_seqZ. lia. }
  unfold listed. rewrite E, HN. split_and!; [apply NoDup_seqZ| |done].
  intros op Hop. apply (list_elem_of_fmap_2 oc_ID) in Hop. change (oc_ID <$> cf_Nodes (gen_cfg g)) with (map oc_ID (cf_Nodes (gen_cfg g))) in Hop.
  rewrite E in Hop. apply elem_of_seqZ in Hop. lia.
Qed.
End Generated.

(** ** From the files to running nodes *)

Section Files.

Context (readFile : bytes -> out bytes) (crsPath : bytes -> bytes -> bytes).
Context (json_fields : bytes -> out (list bytes)) (json_config : bytes -> out (ConfigFile * wireLimits)).
Context (json_secrets : bytes -> out NodeSecretConfig).
Context (uni : bytes -> bytes) (rs_New : Z -> Z -> option Encoder).

(** A secrets file as it was written. *)
Definition secretsStored (path : bytes) (s : NodeSecretConfig) : Prop :=
  blank path = false /\ exists data names,
    readFile path = Ok data /\ json_fields data = Ok names /\ Forall (fun required => required ∈ names) requiredSecretFields /\
    json_secrets data = Ok s.

(** The files of a generated cluster as they were written, with the configuration
  at [path]. *)
Record stored (g : generated) (path : bytes) : Prop := {
  sd_config : exists data names, readFile path = Ok data /\ json_fields data = Ok names /\
    str "crs_seed_hex" ∉ names /\ str "shares" ∉ names /\
    json_config data = Ok (set_CRS zeroLimits [] (cf_Slot (gen_cfg g)) (gen_cfg g), wireOf (cf_Limits (gen_cfg g)));
  sd_crs : blank (cf_CRSFile (gen_cfg g)) = false /\ readFile (crsPath path (cf_CRSFile (gen_cfg g))) = Ok (gen_crs g);
  sd_secrets : forall p s, (p, s) ∈ gen_secrets g -> secretsStored p s
}.

Lemma readNodeSecrets_stored path s r clusterID i peerID :
  secretsStored path s -> dealt r clusterID i peerID s -> clusterID <> [] ->
  readNodeSecrets readFile json_fields json_secrets path = Ok s.
Proof.
  intros (Hp & data & names & Hr & Hf & Hall & Hj) [Hv Hc Ho [_ Hsh] (key & raw & _ & Hk & _ & Hne & _)] Hid.
  unfold readNodeSecrets. rewrite Hp, Hr. cbn [out_bind]. rewrite Hf. cbn [out_bind].
  assert (forallb (fun required => bool_decide (required ∈ names)) requiredSecretFields = true) as ->.
  { apply forallb_forall. intros x Hx. apply bool_decide_eq_true. rewrite Forall_forall in Hall. apply Hall. by apply list_elem_of_In. }
  cbn [negb]. rewrite Hj. cbn [out_bind]. rewrite Hv, (bool_decide_true (nodeSecretVersion = _)) by done. cbn [negb].
  rewrite Hc, Hk, !bool_decide_false; [done|intros E; by apply Hne, hexEncode_nil|done|done].
Qed.

(** The configuration that is read: the one written, with defaults. *)
Definition reread (g : generated) : ConfigFile :=
  normalizeConfig (set_CRS (cf_Limits (gen_cfg g)) (gen_crs g)
    (if cf_Slot (gen_cfg g) =? 0 then 1 else cf_Slot (gen_cfg g)) (gen_cfg g)).

Lemma reread_provider o r g : dealtCluster uni o r g -> cf_Provider (reread g) = cf_Provider (gen_cfg g).
Proof. intros Hd. apply (dc_provider _ _ _ _ Hd). Qed.

Lemma reread_limits o r g : dealtCluster uni o r g -> cf_Limits (reread g) = cf_Limits (gen_cfg g).
Proof. intros Hd. apply normalizeLimits_ok, (dc_limits _ _ _ _ Hd). Qed.

Lemma reread_network o r g : dealtCluster uni o r g -> cf_Network (reread g) = cf_Network (gen_cfg g).
Proof.
  intros Hd. pose proof (dc_network _ _ _ _ Hd) as Hn. apply validateNetworkConfig_iff in Hn as [Hm Hs].
  unfold reread. cbn. unfold normalizeNetworkConfig. rewrite !orElse_some; [by destruct (cf_Network _)| |by rewrite Hm].
  intros E. rewrite E in Hs. by apply (bool_decide_eq_true_2 _) in Hs.
Qed.

Lemma readConfig_stored o r g path :
  dealtCluster uni o r g -> plainLimits (go_limits o) -> stored g path ->
  readConfig readFile crsPath json_fields json_config path = Ok (reread g).
Proof.
  intros Hd Hpl [(data & names & Hr & Hf & Hn1 & Hn2 & Hj) [Hb Hcrs] _].
  destruct (dc_options _ _ _ _ Hd) as (_ & _ & _ & Hlim & _). rewrite <- Hlim in Hpl.
  unfold readConfig. rewrite Hr. cbn [out_bind]. rewrite Hf. cbn [out_bind].
  rewrite (bool_decide_false (str "crs_seed_hex" ∈ names)), (bool_decide_false (str "shares" ∈ names)) by done. cbn [orb].
  rewrite Hj. cbn [out_bind set_CRS cf_Version cf_CRSFile cf_CRSSHA256 cf_Slot].
  rewrite (bool_decide_true (cf_Version (gen_cfg g) = _)) by apply Hd. cbn [negb]. rewrite Hb, (dc_digest _ _ _ _ Hd).
  rewrite (blank_visible (hashHex (gen_crs g))) by (apply hashHex_visible || apply hashHex_nonempty). cbn [orb].
  rewrite Hcrs. cbn [out_bind]. rewrite hashHex_fold. cbn [negb]. rewrite UnmarshalLimits_wireOf by done.
  change (normalizeConfig _) with (reread g). rewrite (reread_limits o r), (reread_provider o r), (reread_network o r) by done.
  rewrite (proj2 (validateResourceLimits_iff _) (dc_limits _ _ _ _ Hd)). destruct (dc_provider _ _ _ _ Hd) as (-> & _).
  cbn [out_bind]. by rewrite (dc_network _ _ _ _ Hd).
Qed.

Lemma reread_startable o r g i op s :
  dealtCluster uni o r g -> go_nodes o <= 2 ^ 32 -> codeFor rs_New (go_nodes o) -> 0 <= i < go_nodes o -> enough r (go_bmax o) ->
  cf_Nodes (gen_cfg g) !! Z.to_nat i = Some op -> oc_ID op = i -> dealt r (go_clusterID o) i (oc_P2PPeerID op) s ->
  exists btd key, startable uni rs_New (reread g) s (normalizeNodeConfig op) btd (Mul (master r) Base) key.
Proof.
  intros Hd Hn Hcode Hi Hen Hop Hid [_ Hcl Ho [Hsh _] (key & raw & _ & Hraw & Hb & Hne & Hu & Hpeer) _].
  destruct (dc_setup _ _ _ _ Hd) as [btd Hbtd]. destruct (dc_options _ _ _ _ Hd) as (HN & HC & HB & _). exists btd, key.
  pose proof (dealt_listed uni o r g Hd Hn) as Hlist. split.
  - apply normalizeConfig_idem.
  - rewrite (reread_limits o r) by done. apply Hd.
  - rewrite (reread_provider o r) by done. apply Hd.
  - rewrite (reread_network o r) by done. apply Hd.
  - rewrite Hcl. symmetry. apply HC.
  - rewrite Ho. symmetry. apply Hid.
  - split; [by apply (listed_normalize (set_CRS _ _ _ _))|]. apply list_elem_of_fmap_2, (list_elem_of_lookup_2 _ _ _ Hop).
  - unfold reread. cbn. by rewrite HB.
  - apply (dc_key _ _ _ _ Hd).
  - unfold reread. cbn [normalizeConfig set_CRS cf_BMax cf_CRSSHA256]. rewrite (dc_digest _ _ _ _ Hd), HB.
    destruct (publicConfigID_ok uni (go_bmax o) (gen_crs g) (Mul (master r) Base)) as [id Hpub]; [apply Hen|].
    exists id. split; [done|]. change (cf_Provider _) with (cf_Provider (reread g)).
    rewrite (reread_provider o r) by done. destruct (dc_provider _ _ _ _ Hd) as (_ & _ & [E|E]); [by left|right].
    rewrite Hpub in E. by injection E as <-.
  - by eexists.
  - exists raw. done.
  - unfold reread. cbn. by rewrite HN.
Qed.

(** Every operator of a dealt cluster starts from its files. *)
Lemma dealt_cluster_starts o r g path :
  dealtCluster uni o r g -> enough r (go_bmax o) -> go_nodes o <= 2 ^ 32 -> codeFor rs_New (go_nodes o) ->
  plainLimits (go_limits o) -> go_clusterID o <> [] -> stored g path ->
  exists cfg, readConfig readFile crsPath json_fields json_config path = Ok cfg /\
    forall i faults, 0 <= i < go_nodes o -> exists secretsPath s nc n,
      gen_secrets g !! Z.to_nat i = Some (secretsPath, s) /\
      readNodeSecrets readFile json_fields json_secrets secretsPath = Ok s /\
      newNode uni rs_New cfg s i faults = Ok (nc, n) /\
      config_ok nc /\ sys_init rs_New nc (cf_Slot cfg) (mkSystem n [] []) /\
      secret nc = mkSecretShare i (shareOf (en_coeffs r) i) /\ cl_PK (cluster nc) = Mul (master r) Base /\
      btd_T (cl_btd (cluster nc)) = cf_Threshold (gen_cfg g) /\ nodeIDs nc = merge_sort Z.le (map oc_ID (cf_Nodes cfg)).
Proof.
  intros Hd Hen Hn Hcode Hpl Hid Hst.
  exists (reread g). split; [by apply (readConfig_stored o r)|]. intros i faults Hi.
  destruct (dc_operators _ _ _ _ Hd) as [_ Hops]. destruct (Hops i Hi) as (op & p & s & Hop & Hsec & Hopid & Hdealt).
  destruct (reread_startable o r g i op s) as (btd & key & Hsb); [done..|].
  destruct (newNode_starts uni rs_New _ _ _ _ _ _ faults Hsb) as (nc & n & Hnew). cbn in Hnew. rewrite Hopid in Hnew.
  exists p, s, nc, n. split; [done|].
  split; [apply (readNodeSecrets_stored p s r (go_clusterID o) i (oc_P2PPeerID op)); [|done..]; apply (sd_secrets _ _ Hst);
    by apply (list_elem_of_lookup_2 _ _ _ Hsec)|].
  split; [done|]. apply newNode_loaded in Hnew. rewrite (sb_normal _ _ _ _ _ _ _ _ Hsb) in Hnew.
  split; [eapply loaded_ok; [apply (sb_listed _ _ _ _ _ _ _ _ Hsb)|done]|].
  destruct Hnew as [_ _ _ (btd' & pk & scalar & _ & Hpk & Hscal & _ & Hsecret & Hcl) (F1 & F2 & F3 & F4 & F5 & _) Hinit].
  split; [done|]. rewrite (sb_key _ _ _ _ _ _ _ _ Hsb) in Hpk. injection Hpk as <-.
  destruct (de_share _ _ _ _ _ Hdealt) as [Hsh _]. rewrite Hsh in Hscal. injection Hscal as <-.
  split_and!; [rewrite Hsecret, i64_small, u32_small by lia; done|by rewrite Hcl|by rewrite Hcl|done].
Qed.

(** A generated cluster starts. If [genConfig] succeeds and its files are
    stored as written, the configuration can be read, and every operator can
    read its secrets and build its node from them: a node whose configuration is
    well formed, in the initial state of the node's state machine, holding its
    own share of the dealt key and the public key and threshold that belong to
    it. *)
Lemma generated_cluster_starts sibling below rel o r g path :
  genConfig sibling below rel o r = Ok g -> enough r (go_bmax o) -> go_nodes o <= 2 ^ 32 -> codeFor rs_New (go_nodes o) ->
  plainLimits (go_limits o) -> go_clusterID o <> [] -> stored g path ->
  exists cfg, readConfig readFile crsPath json_fields json_config path = Ok cfg /\
    forall i faults, 0 <= i < go_nodes o -> exists secretsPath s nc n,
      gen_secrets g !! Z.to_nat i = Some (secretsPath, s) /\
      readNodeSecrets readFile json_fields json_secrets secretsPath = Ok s /\
      newNode uni rs_New cfg s i faults = Ok (nc, n) /\
      config_ok nc /\ sys_init rs_New nc (cf_Slot cfg) (mkSystem n [] []) /\
      secret nc = mkSecretShare i (shareOf (en_coeffs r) i) /\ cl_PK (cluster nc) = Mul (master r) Base /\
      btd_T (cl_btd (cluster nc)) = cf_Threshold (gen_cfg g) /\ nodeIDs nc = merge_sort Z.le (map oc_ID (cf_Nodes cfg)).
Proof.
  intros Hg Hen Hn. apply dealt_cluster_starts; [|done..]. by apply (genConfig_dealt uni sibling below rel).
Qed.
End Files.
End Setup.
