(* ===== verification/CampaignLaws.v ===== *)
(** * Laws of campaign identities

    A campaign identity that the dealer builds passes the checks that guard it:
    those of the node's commands, which recover the public key from the secret
    files, and those of the mempool service, which reads the same document. *)

From S2P Require Import Prelude Order GoStrings Sha256 Kyber Prf PrfLaws Btd Batch Merge Messages Rbc Acs SlotAcs Wire NodeState Provider Node NodeSys NodeLaws Config ConfigLaws Dealer DealerLaws Mempool Targets Corpus Generate.

(** [share.RecoverSecret(g, shares, t, n)] on the shares of all participants
  interpolates the secret. *)
Definition recover_secret_law `{Suite} (RecoverSecret : list PriShare -> Z -> Z -> out Scalar) (t n : Z) : Prop :=
  forall coeffs, length coeffs = Z.to_nat t ->
    RecoverSecret (map (shareOf coeffs) (seqZ 0 n)) t n = Ok (polyEval coeffs sZero).

(** The document that the node's [campaignIdentity] is written as, in the
  terms of the mempool service, whose fields have the same names. *)
Definition documentOf (c : campaignIdentity) : corpusCampaignIdentity :=
  mkCampaign (ci_Version c) (ci_ClusterID c) (ci_N c) (ci_Threshold c) (ci_BMax c) (ci_CRSFile c) (ci_CRSSHA256 c)
    (ci_PublicKeyHex c)
    (mkCampaignBlockspace (MaxDecryptedGas (ci_Blockspace c)) (MaxDecryptedTxs (ci_Blockspace c)) (DefaultTxGas (ci_Blockspace c)))
    (mkCampaignLimits (lim_MaxProposalBytes (ci_Limits c)) (lim_MaxEnvelopeBytes (ci_Limits c))
       (lim_MaxCombineAttemptsPerSubBatch (ci_Limits c)))
    (map (fun o => mkCampaignOperator (co_ID o) (co_P2PPeerID o)) (ci_Operators c)).

(** ** Operators *)

Definition positioned (operators : list campaignOperatorIdentity) : Prop :=
  (forall i o, operators !! i = Some o -> co_ID o = Z.of_nat i /\ blank (co_P2PPeerID o) = false) /\
  NoDup (map co_P2PPeerID operators).

(** The two loops over the operators at once, from position [k] on. *)
Lemma operators_checked operators k seen :
  (forall i o, operators !! i = Some o -> co_ID o = Z.of_nat (k + i) /\ blank (co_P2PPeerID o) = false) ->
  NoDup (map co_P2PPeerID operators) -> (forall o, o ∈ operators -> co_P2PPeerID o ∉ seen) ->
  Z.of_nat (k + length operators) < 2 ^ 64 ->
  checkCampaignOperators operators (Z.of_nat k) seen = true /\
  checkOperators (map (fun o => mkCampaignOperator (co_ID o) (co_P2PPeerID o)) operators) (Z.of_nat k) seen = true.
Proof.
  revert k seen. induction operators as [|o operators IH]; intros k seen Hpos Hnd Hseen Hlen; [done|].
  destruct (Hpos 0%nat o eq_refl) as [Hid Hb]. rewrite Nat.add_0_r in Hid. cbn [length map] in *.
  apply NoDup_cons in Hnd as [Hnew Hnd]. cbn [checkCampaignOperators checkOperators op_ID P2PPeerID].
  rewrite Hid, Hb, u64_small, Z.eqb_refl by lia. rewrite !bool_decide_false by (apply Hseen; by left). cbn [negb andb].
  replace (Z.of_nat k + 1) with (Z.of_nat (S k)) by lia. apply IH; [|done| |lia].
  - intros i o' Ho. replace (S k + i)%nat with (k + S i)%nat by lia. by apply (Hpos (S i)).
  - intros o' Ho [E%elem_of_singleton|Hin]%elem_of_union; [|by apply (Hseen o'); [by right|]].
    apply Hnew. rewrite <- E. by apply list_elem_of_fmap_2.
Qed.

Section Campaign.
Context `{KeyTexts} {SL : SuiteLaws}.
Context (G1_encoding : GroupEncoding G1 maxCRSPointBytes) (G2_encoding : GroupEncoding G2 maxCRSPointBytes).

Abbreviation master r := (polyEval (en_coeffs r) sZero).

(** What [buildCampaignIdentity] put together. *)
Record dealtCampaign (o : campaignIdentityOptions) (r : entropy) (c : campaignIdentity) (crs : bytes)
    (secrets : list NodeSecretConfig) : Prop := {
  da_version : ci_Version c = campaignIdentityVersion;
  da_cluster : ci_ClusterID c = cio_ClusterID o /\ blank (cio_ClusterID o) = false;
  da_size : ci_N c = cio_N o /\ 4 <= ci_N c /\ 1 <= ci_Threshold c <= ci_N c /\ ci_BMax c = cio_BMax o /\ 1 <= ci_BMax c;
  da_limits : limits_ok (ci_Limits c) /\ ci_Limits c = campaignLimits (cio_Limits o);
  da_blockspace : 1 <= MaxDecryptedTxs (ci_Blockspace c) <= ci_BMax c /\ DefaultTxGas (ci_Blockspace c) <> 0;
  da_digest : ci_CRSSHA256 c = hashHex crs;
  da_setup : exists btd, NewBTDFromPublicCRS defaultSuiteID (ci_BMax c) crs = Ok btd;
  da_key : unmarshalPointHex (ci_PublicKeyHex c) = Ok (Mul (master r) Base) /\ blank (ci_PublicKeyHex c) = false;
  da_count : zlen (ci_Operators c) = ci_N c;
  da_operators : forall i, 0 <= i < ci_N c -> exists op s,
    ci_Operators c !! Z.to_nat i = Some op /\ secrets !! Z.to_nat i = Some s /\
    co_ID op = i /\ dealt r (ci_ClusterID c) i (co_P2PPeerID op) s
}.

Lemma buildCampaign_dealt rel o r c crs secrets :
  buildCampaignIdentity rel o r = Ok (c, crs, secrets) -> enough r (cio_BMax o) -> cio_N o <= 2 ^ 32 ->
  dealtCampaign o r c crs secrets.
Proof.
  unfold buildCampaignIdentity. destruct (blank (cio_ClusterID o)) eqn:Eb; [discriminate|].
  destruct (Z.ltb_spec (cio_N o) 4); [discriminate|]. destruct ((cio_Threshold o <? 1) || _) eqn:Et; [discriminate|].
  destruct (Z.ltb_spec (cio_BMax o) 1); [discriminate|].
  destruct (validateResourceLimits _) as [[]| |] eqn:El; cbn [out_bind]; [|discriminate..].
  set (txs := if MaxDecryptedTxs (cio_Blockspace o) =? 0 then _ else _). destruct ((txs <? 1) || _) eqn:Ex; [discriminate|].
  intros Hg Hen Hn. destruct (dealSetup_ok G1_encoding G2_encoding r (cio_BMax o) (cio_N o) (cio_Threshold o) Hen)
    as (crs' & pkHex & btd & Hd & Hbtd & Hpk & Hbl).
  rewrite Hd in Hg. cbn [out_bind] in Hg.
  destruct (if negb _ && negb _ then _ else _) as [crsFile| |]; cbn [out_bind] in Hg; [|discriminate..].
  destruct (map_out _ _) as [operators| |] eqn:Eo; cbn [out_bind] in Hg; [|discriminate..]. injection Hg as <- <- <-.
  apply map_out_length in Eo as Hlen. rewrite length_seqZ in Hlen. split; cbn; try done.
  - split_and!; [done|lia|lia|lia|done|lia].
  - split; [by apply validateResourceLimits_iff|done].
  - change (if MaxDecryptedTxs (cio_Blockspace o) =? 0 then _ else _) with txs. split; [lia|].
    by destruct (Z.eqb_spec (DefaultTxGas (cio_Blockspace o)) 0).
  - by exists btd.
  - rewrite length_fmap. lia.
  - intros i Hi. assert (seqZ 0 (cio_N o) !! Z.to_nat i = Some i) as Hlook by (apply lookup_seqZ; lia).
    destruct (map_out_lookup _ _ _ _ _ Eo Hlook) as ([op s] & Hy & Hgo). exists op, s.
    rewrite !list_lookup_fmap, Hy. split; [done|]. split; [done|].
    by apply (campaignOperator_dealt (cio_ClusterID o) r (cio_N o) i op s).
Qed.

Lemma dealt_positioned o r c crs secrets :
  dealtCampaign o r c crs secrets -> NoDup (map co_P2PPeerID (ci_Operators c)) -> positioned (ci_Operators c).
Proof.
  intros Hd Hnd. split; [|done]. intros i op Hop. pose proof (lookup_lt_Some _ _ _ Hop) as Hlt. pose proof (da_count _ _ _ _ _ Hd).
  destruct (da_operators _ _ _ _ _ Hd (Z.of_nat i)) as (op' & s & Hop' & _ & Hid & Hde); [lia|].
  rewrite Nat2Z.id, Hop in Hop'. injection Hop' as <-. split; [done|apply Hde].
Qed.

(** The file names are usable, and no two operators have one peer identifier. *)
Definition usable (c : campaignIdentity) : Prop :=
  blank (ci_CRSFile c) = false /\ IsAbs (ci_CRSFile c) = false /\ NoDup (map co_P2PPeerID (ci_Operators c)) /\ ci_N c <= 2 ^ 32.

Lemma dealt_valid o r c crs secrets :
  dealtCampaign o r c crs secrets -> usable c ->
  validateIdentity c = Ok tt /\ Generate.validateCampaignIdentity (documentOf c) = Ok tt.
Proof.
  intros Hd (Hf & Ha & Hnd & Hn). pose proof (dealt_positioned _ _ _ _ _ Hd Hnd) as [Hpos _].
  destruct Hd as [Hv [Hc Hcb] (HN & H4 & Ht & HB & Hb1) [Hl _] [Htx Hgas] Hdig _ [_ Hpk] Hcount _].
  destruct (operators_checked (ci_Operators c) 0 ∅) as [E1 E2]; [exact Hpos|done|intros; apply not_elem_of_empty|lia|].
  change (Z.of_nat 0) with 0 in E1, E2. pose proof Hl as [? ? ?]. unfold minimumEnvelopeHeadroomBytes in *.
  change (Z.shiftl 64 10) with 65536 in *.
  assert (blank (ci_CRSSHA256 c) = false) as Hsha
    by (rewrite Hdig; apply blank_visible; [apply hashHex_visible|apply hashHex_nonempty]).
  unfold IsAbs in Ha. split.
  - unfold validateIdentity, IsAbs. rewrite Hv, bool_decide_true by done. cbn [negb]. rewrite Hc, Hcb, Hf, Ha, Hsha, Hpk.
    replace (_ || (ci_N c <? 4) || _ || _ || _) with false by lia. cbn [orb].
    rewrite (proj2 (validateResourceLimits_iff _) Hl). cbn [out_bind].
    replace (_ || _ || (DefaultTxGas (ci_Blockspace c) =? 0)) with false by lia. rewrite Hcount, Z.eqb_refl. cbn [negb].
    by rewrite E1.
  - unfold validateCampaignIdentity, documentOf.
    cbn [camp_Version camp_ClusterID camp_N camp_Threshold camp_BMax camp_CRSFile camp_CRSSHA256 camp_PublicKeyHex
      camp_Blockspace camp_Limits Operators camp_MaxDecryptedTxs camp_DefaultTxGas camp_MaxProposalBytes camp_MaxEnvelopeBytes
      camp_MaxCombineAttemptsPerSubBatch].
    rewrite Hv, bool_decide_true by done. cbn [negb]. rewrite Hc, Hcb, Hf, Ha, Hsha, Hpk.
    replace (_ || (ci_N c <? 4) || _ || _ || _) with false by lia. cbn [orb].
    replace (_ || _ || (DefaultTxGas (ci_Blockspace c) =? 0)) with false by lia.
    replace (_ || _ || (lim_MaxCombineAttemptsPerSubBatch (ci_Limits c) <? 1)) with false by lia.
    rewrite length_map, Hcount, Z.eqb_refl. cbn [negb]. by rewrite E2.
Qed.

(** ** From the files *)

Section Files.
Context (below : bytes -> bytes -> bytes).
Context (readFile : bytes -> out bytes) (crsPath : bytes -> bytes -> bytes).
Context (json_fields : bytes -> out (list bytes)) (json_secrets : bytes -> out NodeSecretConfig).
Context (json_identity : bytes -> out (campaignIdentity * wireLimits)) (json_campaign : bytes -> out corpusCampaignIdentity).
Context (ReadDir : bytes -> out (list bytes)).
Context (RecoverSecret : list PriShare -> Z -> Z -> out Scalar).

(** The files of a campaign identity as they were written; both programs decode
  the one document. *)
Record campaignStored (c : campaignIdentity) (crs : bytes) (secrets : list NodeSecretConfig) (path secretDir : bytes) : Prop := {
  cs_document : exists data, readFile path = Ok data /\
    json_identity data = Ok (set_Limits zeroLimits c, wireOf (ci_Limits c)) /\ json_campaign data = Ok (documentOf c);
  cs_crs : readFile (crsPath path (ci_CRSFile c)) = Ok crs;
  cs_entries : exists entries, ReadDir secretDir = Ok entries /\ zlen entries = ci_N c;
  cs_secrets : forall i s, secrets !! Z.to_nat i = Some s -> 0 <= i ->
    secretsStored readFile json_fields json_secrets (below secretDir (str "operator-" ++ decimal i ++ str ".json")) s
}.

Lemma readCampaign_stored o r c crs secrets path secretDir :
  dealtCampaign o r c crs secrets -> usable c -> plainLimits (ci_Limits c) -> campaignStored c crs secrets path secretDir ->
  readCampaignIdentity readFile crsPath json_identity path = Ok (c, crs).
Proof.
  intros Hd Hu Hpl [(data & Hr & Hj & _) Hcrs _ _]. destruct (da_setup _ _ _ _ _ Hd) as [btd Hbtd].
  unfold readCampaignIdentity. rewrite Hr. cbn [out_bind]. rewrite Hj. cbn [out_bind].
  rewrite UnmarshalLimits_wireOf by done. assert (set_Limits (ci_Limits c) (set_Limits zeroLimits c) = c) as -> by (by destruct c).
  destruct (dealt_valid _ _ _ _ _ Hd Hu) as [-> _]. cbn [out_bind]. rewrite Hcrs. cbn [out_bind].
  rewrite (da_digest _ _ _ _ _ Hd), bool_decide_true by done. cbn [negb]. rewrite Hbtd. cbn [out_bind].
  destruct (da_key _ _ _ _ _ Hd) as [-> _]. done.
Qed.

Lemma verifySecret_dealt o r c crs secrets path secretDir i :
  dealtCampaign o r c crs secrets -> usable c -> campaignStored c crs secrets path secretDir -> 0 <= i < ci_N c ->
  verifySecret below readFile json_fields json_secrets c secretDir i = Ok (shareOf (en_coeffs r) i).
Proof.
  intros Hd (_ & _ & _ & Hn) [_ _ _ Hsec] Hi. destruct (da_operators _ _ _ _ _ Hd i Hi) as (op & s & Hop & Hs & Hid & Hde).
  destruct (da_cluster _ _ _ _ _ Hd) as [Hc Hcb]. apply not_blank in Hcb. rewrite <- Hc in Hcb.
  unfold verifySecret. rewrite (readNodeSecrets_stored _ _ _ _ s r (ci_ClusterID c) i (co_P2PPeerID op));
    [|by apply Hsec; [|lia]|done|done].
  destruct Hde as [_ Hcl Ho [Hsh _] (key & raw & _ & Hk & Hb & _ & Hun & Hpeer) _]. cbn [out_bind].
  rewrite Hcl, Ho, bool_decide_true, u64_small, Z.eqb_refl by (done || lia). cbn [negb orb].
  unfold peerIDFromPrivateKeyHex. rewrite Hk, hex_read by done. rewrite Hun. cbn [out_bind]. rewrite Hpeer. cbn [out_bind].
  unfold at_index. replace (i <? 0) with false by lia. rewrite Hop. cbn [out_bind]. rewrite bool_decide_true by done.
  cbn [negb]. rewrite Hsh. cbn [out_bind]. by rewrite u32_small by lia.
Qed.

Lemma verifySecrets_dealt o r c crs secrets path secretDir :
  dealtCampaign o r c crs secrets -> usable c -> campaignStored c crs secrets path secretDir ->
  length (en_coeffs r) = Z.to_nat (ci_Threshold c) -> recover_secret_law RecoverSecret (ci_Threshold c) (ci_N c) ->
  verifyCampaignSecrets below readFile json_fields json_secrets ReadDir RecoverSecret c crs secretDir = Ok tt.
Proof.
  intros Hd Hu Hst Hlen recover. unfold verifyCampaignSecrets. destruct (dealt_valid _ _ _ _ _ Hd Hu) as [-> _]. cbn [out_bind].
  destruct (cs_entries _ _ _ _ _ Hst) as (entries & -> & He). cbn [out_bind]. rewrite He, Z.eqb_refl. cbn [negb].
  destruct (da_setup _ _ _ _ _ Hd) as [btd ->]. cbn [out_bind].
  rewrite (map_out_ok _ (shareOf (en_coeffs r))).
  2: { intros i Hi%elem_of_seqZ. apply (verifySecret_dealt o r c crs secrets path secretDir); [done..|lia]. }
  cbn [out_bind]. rewrite recover by done. cbn [out_bind].
  destruct (da_key _ _ _ _ _ Hd) as [-> _]. cbn [out_bind]. by rewrite equal_refl.
Qed.

(** The two readers of libp2p keys differ on a "0x" prefix: the verification of
  a campaign takes a key that no node starts with. *)
Lemma prefixed_key_differs raw key peerID :
  Forall isByte raw -> UnmarshalPrivateKey raw = Ok key -> IDFromPrivateKey key = Ok peerID ->
  peerIDFromPrivateKeyHex (str "0x" ++ hexEncode raw) = Ok peerID /\
  unmarshalLibP2PPrivateKey (str "0x" ++ hexEncode raw) = Err "invalid hex".
Proof.
  intros Hb Hu Hid. split.
  - unfold peerIDFromPrivateKeyHex. rewrite TrimPrefix_app, hexDecode_encode by done. rewrite Hu. done.
  - unfold unmarshalLibP2PPrivateKey. change (str "0x") with [48; 120]. done.
Qed.

(** A campaign identity survives its files. When [buildCampaignIdentity]
    succeeds and what it returns is stored as written, the node's command reads
    back the same identity and CRS, its verification of the secrets succeeds,
    recovering the dealt key from all shares, and the mempool service accepts
    the same document and sets up the same public key from it. *)
Lemma campaign_identity_verified rel o r c crs secrets path secretDir :
  buildCampaignIdentity rel o r = Ok (c, crs, secrets) -> enough r (cio_BMax o) ->
  length (en_coeffs r) = Z.to_nat (ci_Threshold c) -> recover_secret_law RecoverSecret (ci_Threshold c) (ci_N c) ->
  plainLimits (ci_Limits c) -> usable c -> campaignStored c crs secrets path secretDir ->
  readCampaignIdentity readFile crsPath json_identity path = Ok (c, crs) /\
  verifyCampaignSecrets below readFile json_fields json_secrets ReadDir RecoverSecret c crs secretDir = Ok tt /\
  exists cluster btd, readCorpusCampaignIdentity readFile crsPath json_campaign path = Ok cluster /\
    publicSetup cluster = Ok (btd, Mul (master r) Base) /\ rc_N cluster = ci_N c /\ rc_Threshold cluster = ci_Threshold c.
Proof.
  intros Hg Hen Hlen Hrec Hpl Hu Hst.
  assert (cio_N o <= 2 ^ 32) as Hn.
  { destruct Hu as (_ & _ & _ & Hn). revert Hg Hn. unfold buildCampaignIdentity. pass_checks.
    destruct (validateResourceLimits _) as [[]| |]; cbn [out_bind]; [|discriminate..]. pass_checks.
    destruct (dealSetup _ _ _ _) as [[[? ?] ?]| |]; cbn [out_bind]; [|discriminate..].
    destruct (if negb _ && negb _ then _ else _) as [crsFile| |]; cbn [out_bind]; [|discriminate..].
    destruct (map_out _ _) as [operators| |]; cbn [out_bind]; [|discriminate..]. by intros [= <- <- <-]. }
  pose proof (buildCampaign_dealt rel o r c crs secrets Hg Hen Hn) as Hd.
  split; [by apply (readCampaign_stored o r c crs secrets path secretDir)|].
  split; [by apply (verifySecrets_dealt o r c crs secrets path)|].
  destruct Hst as [(data & Hr & _ & Hj) Hcrs _ _]. destruct (da_setup _ _ _ _ _ Hd) as [btd Hbtd].
  unfold readCorpusCampaignIdentity. rewrite Hr. cbn [out_bind]. rewrite Hj. cbn [out_bind].
  destruct (dealt_valid _ _ _ _ _ Hd Hu) as [_ ->]. cbn [out_bind documentOf camp_CRSFile camp_CRSSHA256].
  unfold loadCRS. rewrite Hcrs. cbn [out_bind]. rewrite (da_digest _ _ _ _ _ Hd), hashHex_fold. cbn [out_bind].
  eexists _, btd. split; [done|]. split; [|done]. unfold publicSetup. cbn [rc_BMax Generate.CRSBytes Generate.PublicKeyHex camp_BMax camp_PublicKeyHex documentOf].
  rewrite Hbtd. cbn [out_bind]. destruct (da_key _ _ _ _ _ Hd) as [Hk _]. unfold unmarshalPointHex in Hk.
  destruct (hexDecode _) as [pkBytes|]; [|discriminate]. by rewrite Hk.
Qed.
End Files.
End Campaign.
