(* ===== verification/ConfigDemo.v ===== *)
(** * A generated cluster

    The field of five elements as scalars and as all three groups: a suite whose
    encodings are bytes. A cluster of four and a campaign identity are dealt over
    it, their files are written and read back. *)

From S2P Require Import Prelude Order GoStrings Sha256 Kyber Prf PrfLaws Btd Batch Merge Messages Rbc Acs SlotAcs Wire NodeState Provider Node NodeSys NodeLaws Config ConfigLaws Dealer DealerLaws CampaignLaws Mempool Targets Corpus Generate.
From Stdlib Require Import Field.

(** ** Five elements *)

Inductive F5 := e0 | e1 | e2 | e3 | e4.

#[export] Instance F5_eq_dec : EqDecision F5.
Proof. solve_decision. Defined.

Definition ofF5 (x : F5) : Z := match x with e0 => 0 | e1 => 1 | e2 => 2 | e3 => 3 | e4 => 4 end.
Definition toF5 (n : Z) : F5 :=
  match n mod 5 with 0 => e0 | 1 => e1 | 2 => e2 | 3 => e3 | _ => e4 end.

Definition F5add (x y : F5) : F5 := toF5 (ofF5 x + ofF5 y).
Definition F5mul (x y : F5) : F5 := toF5 (ofF5 x * ofF5 y).
Definition F5neg (x : F5) : F5 := toF5 (- ofF5 x).
Definition F5sub (x y : F5) : F5 := F5add x (F5neg y).
Definition F5inv (x : F5) : F5 := F5mul x (F5mul x x).
Definition F5div (x y : F5) : F5 := F5mul x (F5inv y).

Definition F5marshal (x : F5) : out bytes := Ok [ofF5 x].
Definition F5unmarshal (data : bytes) : out F5 :=
  match data with
  | [n] => Ok (toF5 n)
  | _ => Err "bad point"
  end.

Definition F5Group : Group F5 :=
  mkGroup F5 F5 e0 e1 F5add F5sub F5mul (fun x y => bool_decide (x = y)) F5marshal F5unmarshal.

#[export] Instance F5Suite : Suite := {|
    Scalar := F5;
    sZero := e0;
    sOne := e1;
    sAdd := F5add;
    sMul := F5mul;
    sSub := F5sub;
    sNeg := F5neg;
    sDiv := F5div;
    sInv := F5inv;
    SetBytes := fun data => toF5 (fromBigEndian data);
    MarshalScalar := F5marshal;
    UnmarshalScalar := F5unmarshal;
    G1 := F5Group;
    G2 := F5Group;
    GT := F5Group;
    Pair := F5mul
  |}.

Lemma F5Group_laws : GroupLaws e0 e1 F5add F5mul F5neg F5Group.
Proof.
  split; cbn; intros; repeat match goal with x : F5 |- _ => destruct x end; reflexivity.
Qed.

Lemma F5_field : field_theory e0 e1 F5add F5mul F5sub F5neg F5div F5inv eq.
Proof.
  split; [split|..]; try (intros; repeat match goal with x : F5 |- _ => destruct x end; reflexivity); [done|].
  intros p Hp. destruct p; [done|reflexivity..].
Qed.

#[export] Instance F5Suite_laws : SuiteLaws.
Proof.
  split; [exact F5_field|exact F5Group_laws..|].
  intros s t P Q. destruct s, t, P, Q; reflexivity.
Qed.

Lemma F5_encoding limit : 1 <= limit -> GroupEncoding F5Group limit.
Proof. intros Hl. split. intros P. exists [ofF5 P]. split_and!; [done|by destruct P|cbn; lia]. Qed.

(** A key is an element, too. *)
#[export] Instance F5Keys : Libp2pKeys := {|
    PrivKey := F5;
    UnmarshalPrivateKey := F5unmarshal;
    MarshalPrivateKey := F5marshal;
    IDFromPrivateKey := fun k => Ok (str "peer-" ++ decimal (ofF5 k))
  |}.

Lemma F5_bytes x : F5unmarshal [ofF5 x] = Ok x /\ Forall isByte [ofF5 x] /\ [ofF5 x] <> [].
Proof. split_and!; [by destruct x| |done]. apply Forall_singleton. destruct x; cbn; unfold isByte; lia. Qed.

#[export] Instance F5_texts : KeyTexts.
Proof.
  split.
  - intros P. exists [ofF5 P]. split; [done|apply F5_bytes].
  - intros s. exists [ofF5 s]. split; [done|apply F5_bytes].
  - intros k. exists [ofF5 k], (str "peer-" ++ decimal (ofF5 k)). destruct (F5_bytes k) as (E1 & E2 & E3).
    split_and!; [done..|]. by destruct k.
Qed.

(** ** A cluster of four *)

Module ConfigDemo.

Definition r : entropy := mkEntropy [e1; e2] [e3; e4] [e2; e0; e1] [e1; e2; e3; e4].
Definition o : genOptions :=
  mkGenOptions 4 0 2 8000 10000 (str "demo") 0 (mkBlockspace 0 0 0) defaultResourceLimits false (str "persistent") [] [] 0
    (str "local") (mkTemplates [] [] [] []) (str "cluster.json") [] [] [].

Definition sibling (path name : bytes) : bytes := name.
Definition below (dir name : bytes) : bytes := dir ++ str "/" ++ name.
Definition rel (path target : bytes) : out bytes := Ok target.

Definition succeeded {A : Type} (x : out A) : bool := match x with Ok _ => true | _ => false end.

Definition nothing : generated :=
  mkGenerated (mkConfigFile [] [] 0 0 0 0 [] [] [] [] (mkBlockspace 0 0 0) (mkProvider [] [] 0 [] [] [] ∅ false)
    (mkNetwork [] []) zeroLimits false []) [] [] [].
Definition gen : generated := match genConfig sibling below rel o r with Ok g => g | _ => nothing end.

Lemma gen_ok : genConfig sibling below rel o r = Ok gen.
Proof.
  unfold gen. assert (succeeded (genConfig sibling below rel o r) = true) as H by (vm_compute; reflexivity).
  by destruct (genConfig sibling below rel o r).
Qed.

Definition secrets : list (bytes * NodeSecretConfig) := Eval vm_compute in gen_secrets gen.

Lemma secrets_eq : gen_secrets gen = secrets.
Proof. vm_compute. reflexivity. Qed.

(** Documents are numbered: 0 is the configuration, and from 1 on come the
  secrets. *)
Definition readFile (path : bytes) : out bytes :=
  if bool_decide (path = str "cluster.json") then Ok [0]
  else if bool_decide (path = str "cluster.crs") then Ok (gen_crs gen)
  else
    match list_find (fun p => p.1 = path) secrets with
    | Some (i, _) => Ok [Z.of_nat (S i)]
    | None => Err "no such file"
    end.
Definition crsPath (path file : bytes) : bytes := file.
Definition json_fields (data : bytes) : out (list bytes) := Ok requiredSecretFields.
Definition json_config (data : bytes) : out (ConfigFile * wireLimits) :=
  Ok (set_CRS zeroLimits [] (cf_Slot (gen_cfg gen)) (gen_cfg gen), wireOf (cf_Limits (gen_cfg gen))).
Definition json_secrets (data : bytes) : out NodeSecretConfig :=
  match data with
  | [n] => match secrets !! Z.to_nat (n - 1) with Some p => Ok p.2 | None => Err "no such secret" end
  | _ => Err "no such secret"
  end.
Definition uni (b : bytes) : bytes := b.
Definition code : Encoder := {| Split data := Some [data; data]; Encode l := Some l; Reconstruct l := Some l |}.
Definition rs_New (d k : Z) : option Encoder := Some code.

Lemma enough_random : enough r (go_bmax o).
Proof. split_and!; [cbn; lia..|reflexivity|reflexivity]. Qed.

Lemma files : stored readFile crsPath json_fields json_config json_secrets gen (str "cluster.json").
Proof.
  split.
  - exists [0], requiredSecretFields. split; [done|]. split; [done|].
    split; [by apply (bool_decide_unpack _)|]. split; [by apply (bool_decide_unpack _)|done].
  - split; [vm_compute; reflexivity|]. assert (cf_CRSFile (gen_cfg gen) = str "cluster.crs") as -> by (vm_compute; reflexivity).
    done.
  - intros p s. rewrite secrets_eq. unfold secrets. intros Hin.
    repeat (apply elem_of_cons in Hin as [[= -> ->]|Hin];
      [split; [vm_compute; reflexivity|]; eexists _, requiredSecretFields; split; [vm_compute; reflexivity|];
       split; [done|]; split; [by apply Forall_forall|vm_compute; reflexivity]|]).
    by apply elem_of_nil in Hin.
Qed.

Lemma dealt_gen : dealtCluster uni o r gen.
Proof.
  apply (genConfig_dealt (F5_encoding maxCRSPointBytes ltac:(done)) (F5_encoding maxCRSPointBytes ltac:(done)) uni sibling below rel);
    [exact gen_ok|exact enough_random|cbn; lia].
Qed.

Lemma read_back : readConfig readFile crsPath json_fields json_config (str "cluster.json") = Ok (reread gen).
Proof. apply (readConfig_stored _ _ _ _ json_secrets uni o r gen); [exact dealt_gen|done|exact files]. Qed.


(** ** A campaign of four *)

Definition co : campaignIdentityOptions :=
  mkIdentityOptions (str "demo") (str "identity.json") (str "cluster.crs") (str "secrets") 4 3 2 (mkBlockspace 0 0 0) zeroLimits.

Definition emptyIdentity : campaignIdentity :=
  mkIdentity [] [] 0 0 0 [] [] [] (mkBlockspace 0 0 0) zeroLimits [].
Definition built : campaignIdentity * bytes * list NodeSecretConfig :=
  match buildCampaignIdentity rel co r with Ok x => x | _ => (emptyIdentity, [], []) end.
Definition identity : campaignIdentity := built.1.1.

Lemma built_ok : buildCampaignIdentity rel co r = Ok (identity, built.1.2, built.2).
Proof.
  unfold identity, built. assert (succeeded (buildCampaignIdentity rel co r) = true) as H by (vm_compute; reflexivity).
  by destruct (buildCampaignIdentity rel co r) as [[[? ?] ?]| |].
Qed.

Definition dealtSecrets : list NodeSecretConfig := Eval vm_compute in built.2.

Lemma dealtSecrets_eq : built.2 = dealtSecrets.
Proof. vm_compute. reflexivity. Qed.

Definition secretFile (i : Z) : bytes := below (str "secrets") (str "operator-" ++ decimal i ++ str ".json").

Definition campaignFile (path : bytes) : out bytes :=
  if bool_decide (path = str "identity.json") then Ok [0]
  else if bool_decide (path = str "cluster.crs") then Ok built.1.2
  else
    match list_find (fun i => secretFile i = path) [0; 1; 2; 3] with
    | Some (i, _) => Ok [Z.of_nat i]
    | None => Err "no such file"
    end.
Definition json_secret (data : bytes) : out NodeSecretConfig :=
  match data with
  | [i] => at_index dealtSecrets i
  | _ => Err "no such secret"
  end.
Definition json_identity (data : bytes) : out (campaignIdentity * wireLimits) :=
  Ok (set_Limits zeroLimits identity, wireOf (ci_Limits identity)).
Definition json_campaign (data : bytes) : out corpusCampaignIdentity := Ok (documentOf identity).
Definition ReadDir (dir : bytes) : out (list bytes) := Ok (map secretFile [0; 1; 2; 3]).

(** Interpolation at 1, 2 and 3 in the field of five. *)
Definition recoverThree (shares : list PriShare) (t n : Z) : out Scalar :=
  match shares with
  | s1 :: s2 :: s3 :: _ => Ok (F5add (F5mul e3 (pri_V s1)) (F5add (F5mul e2 (pri_V s2)) (pri_V s3)))
  | _ => Err "not enough good private shares to reconstruct shared secret"
  end.

Lemma recoverThree_law : recover_secret_law recoverThree 3 4.
Proof. intros [|a [|b [|c [|]]]]; try discriminate. intros _. destruct a, b, c; reflexivity. Qed.

Lemma identity_numbers : ci_Threshold identity = 3 /\ ci_N identity = 4.
Proof. split; vm_compute; reflexivity. Qed.

Lemma identity_usable : usable identity.
Proof.
  split_and!; [vm_compute; reflexivity|vm_compute; reflexivity| |].
  - apply (bool_decide_unpack _). vm_compute. exact I.
  - rewrite (proj2 identity_numbers). lia.
Qed.

Lemma campaign_files :
  campaignStored below campaignFile crsPath json_fields json_secret json_identity json_campaign ReadDir identity built.1.2 built.2
    (str "identity.json") (str "secrets").
Proof.
  split.
  - exists [0]. split; [done|]. split; reflexivity.
  - assert (ci_CRSFile identity = str "cluster.crs") as -> by (vm_compute; reflexivity). done.
  - exists (map secretFile [0; 1; 2; 3]). split; [done|]. rewrite (proj2 identity_numbers). done.
  - rewrite dealtSecrets_eq. intros i s Hs Hi. pose proof (lookup_lt_Some _ _ _ Hs) as Hlt. cbn [length dealtSecrets] in Hlt.
    assert (i = 0 \/ i = 1 \/ i = 2 \/ i = 3) as Hi4 by lia.
    destruct Hi4 as [-> | [-> | [-> | ->]]]; injection Hs as <-; (split; [vm_compute; reflexivity|]);
      eexists _, requiredSecretFields; (split; [vm_compute; reflexivity|]); (split; [done|]);
      (split; [by apply Forall_forall|vm_compute; reflexivity]).
Qed.

End ConfigDemo.

Lemma read_config_sound_witness : limits_ok (cf_Limits (reread ConfigDemo.gen)) /\ cf_Slot (reread ConfigDemo.gen) <> 0.
Proof.
  destruct (read_config_sound _ _ _ _ _ _ ConfigDemo.read_back) as (Hl & _ & _ & _ & _ & Hs & _). split; [exact Hl|exact Hs].
Defined.

