(* ===== verification/Regex.v ===== *)
(** * Regex: regular expressions over bytes

    The patterns of [src/bloc-node/internal/app/campaign_bundle.go] use
    literals, character classes, counted and starred groups, anchored at both
    ends. [matches] decides them by derivatives, [lang] says what they mean. *)

From S2P Require Import Prelude GoStrings.

Inductive re :=
  | Void
  | Eps
  | Class (f : Z -> bool)
  | Cat (r s : re)
  | Alt (r s : re)
  | Star (r : re).

Inductive lang : re -> bytes -> Prop :=
  | lang_eps : lang Eps []
  | lang_class f c : f c = true -> lang (Class f) [c]
  | lang_cat r s x y : lang r x -> lang s y -> lang (Cat r s) (x ++ y)
  | lang_alt_l r s x : lang r x -> lang (Alt r s) x
  | lang_alt_r r s x : lang s x -> lang (Alt r s) x
  | lang_star_nil r : lang (Star r) []
  | lang_star_cons r x y : lang r x -> lang (Star r) y -> lang (Star r) (x ++ y).

(** ** Building patterns *)

Definition Lit (s : bytes) : re := foldr (fun c r => Cat (Class (fun d => d =? c)) r) Eps s.

Definition Plus (r : re) : re := Cat r (Star r).

Fixpoint Repeat (n : nat) (r : re) : re :=
  match n with
  | O => Eps
  | S n => Cat r (Repeat n r)
  end.

(** [[lo-hi]] *)
Definition Range (lo hi : Z) (c : Z) : bool := (lo <=? c) && (c <=? hi).

Definition OneOf (s : bytes) (c : Z) : bool := existsb (fun d => d =? c) s.

Definition orClass (f g : Z -> bool) (c : Z) : bool := f c || g c.

(** ** Matching *)

(** Concatenation and alternative, without the parts that match nothing. *)
Definition cat (r s : re) : re :=
  match r with
  | Void => Void
  | Eps => s
  | _ => Cat r s
  end.

Definition alt (r s : re) : re :=
  match r, s with
  | Void, _ => s
  | _, Void => r
  | _, _ => Alt r s
  end.

Fixpoint nullable (r : re) : bool :=
  match r with
  | Void | Class _ => false
  | Eps | Star _ => true
  | Cat r s => nullable r && nullable s
  | Alt r s => nullable r || nullable s
  end.

(** What may follow [c]. *)
Fixpoint deriv (c : Z) (r : re) : re :=
  match r with
  | Void | Eps => Void
  | Class f => if f c then Eps else Void
  | Cat r s => if nullable r then alt (cat (deriv c r) s) (deriv c s) else cat (deriv c r) s
  | Alt r s => alt (deriv c r) (deriv c s)
  | Star r => cat (deriv c r) (Star r)
  end.

Definition matches (r : re) (s : bytes) : bool := nullable (fold_left (fun r c => deriv c r) s r).

(** ** Correctness *)

Lemma lang_void x : ~ lang Void x.
Proof. inversion 1. Qed.

Lemma lang_Eps x : lang Eps x <-> x = [].
Proof. split; [by inversion 1|by intros ->; constructor]. Qed.

Lemma lang_Cat r s x : lang (Cat r s) x <-> exists y z, x = y ++ z /\ lang r y /\ lang s z.
Proof.
  split; [inversion 1; subst; eauto|]. intros (y & z & -> & ? & ?). by constructor.
Qed.

Lemma lang_Alt r s x : lang (Alt r s) x <-> lang r x \/ lang s x.
Proof.
  split; [inversion 1; subst; auto|]. by intros [?|?]; [apply lang_alt_l|apply lang_alt_r].
Qed.

Lemma lang_cat' r s x : lang (cat r s) x <-> lang (Cat r s) x.
Proof.
  rewrite lang_Cat. destruct r; cbn [cat]; try (by rewrite lang_Cat).
  - split; [by intros ?%lang_void|]. by intros (? & ? & _ & ?%lang_void & _).
  - split; [by exists [], x; split; [|split; [apply lang_eps|]]|].
    by intros (? & z & -> & ->%lang_Eps & ?).
Qed.

Lemma lang_alt' r s x : lang (alt r s) x <-> lang r x \/ lang s x.
Proof.
  pose proof (lang_void x) as Hv.
  destruct r, s; cbn [alt]; rewrite ?lang_Alt; tauto.
Qed.

Lemma nullable_iff r : nullable r = true <-> lang r [].
Proof.
  induction r as [| |f|r IHr s IHs|r IHr s IHs|r IHr]; cbn [nullable].
  - split; [done|by intros ?%lang_void].
  - split; [constructor|done].
  - split; [done|by inversion 1].
  - rewrite andb_true_iff, IHr, IHs, lang_Cat. split; [by intros [? ?]; exists [], []|].
    intros (y & z & E & ? & ?). symmetry in E. apply app_eq_nil in E as [-> ->]. done.
  - by rewrite orb_true_iff, IHr, IHs, lang_Alt.
  - split; [constructor|done].
Qed.

(** A nonempty word of a star starts with a nonempty word of its body. *)
Lemma lang_star_split r c x : lang (Star r) (c :: x) <->
  exists y z, x = y ++ z /\ lang r (c :: y) /\ lang (Star r) z.
Proof.
  split.
  - intros H. remember (Star r) as t eqn:Et. remember (c :: x) as w eqn:Ew.
    induction H as [| | | | | |r0 y z H1 _ H2 IH]; try discriminate.
    destruct y as [|d y]; [by apply IH|]. injection Et as ->. injection Ew as -> <-. by exists y, z.
  - intros (y & z & -> & H1 & H2). exact (lang_star_cons r (c :: y) z H1 H2).
Qed.

Lemma deriv_iff c r x : lang (deriv c r) x <-> lang r (c :: x).
Proof.
  revert x. induction r as [| |f|r IHr s IHs|r IHr s IHs|r IHr]; intros x; cbn [deriv].
  - split; [by intros ?%lang_void|by inversion 1].
  - split; [by intros ?%lang_void|by inversion 1].
  - destruct (f c) eqn:E.
    + rewrite lang_Eps. split; [by intros ->; constructor|by inversion 1].
    + split; [by intros ?%lang_void|]. inversion 1. congruence.
  - assert (lang (cat (deriv c r) s) x <-> exists y z, x = y ++ z /\ lang r (c :: y) /\ lang s z) as Hcat.
    { rewrite lang_cat', lang_Cat. by setoid_rewrite IHr. }
    assert (lang (Cat r s) (c :: x) <->
      lang (cat (deriv c r) s) x \/ nullable r = true /\ lang (deriv c s) x) as ->.
    { rewrite Hcat, IHs, nullable_iff, lang_Cat. split.
      - intros ([|d y] & z & E & ? & ?); [by right; rewrite E|]. injection E as <- ->. left. by exists y, z.
      - intros [(y & z & -> & ? & ?)|[? ?]]; [by exists (c :: y), z|by exists [], (c :: x)]. }
    destruct (nullable r); rewrite ?lang_alt'; intuition discriminate.
  - by rewrite lang_alt', lang_Alt, IHr, IHs.
  - rewrite lang_cat', lang_Cat, lang_star_split. by setoid_rewrite IHr.
Qed.

Lemma matches_iff r s : matches r s = true <-> lang r s.
Proof.
  unfold matches. revert r. induction s as [|c s IH]; intros r; cbn; [apply nullable_iff|].
  by rewrite IH, deriv_iff.
Qed.

(** A counted class matches the words of that length over the class. *)
Lemma lang_Repeat_Class n f s : lang (Repeat n (Class f)) s <-> length s = n /\ forallb f s = true.
Proof.
  revert s. induction n as [|n IH]; intros s; cbn [Repeat].
  { rewrite lang_Eps. split; [by intros ->|]. by intros [->%nil_length_inv _]. }
  rewrite lang_Cat. split.
  - intros (y & z & -> & Hy & [<- Hf]%IH). inversion Hy as [|? c Hc| | | | |]; subst. cbn.
    by rewrite Hc, Hf.
  - destruct s as [|c s]; [by intros [[=] _]|]. cbn. intros [[= Hn] [Hc Hs]%andb_true_iff].
    exists [c], s. split; [done|]. split; [by constructor|by apply IH].
Qed.
