(* ===== verification/Deploy.v ===== *)
(** * Deploy: clusters on an inventory of hosts

    Models [src/bloc-node/internal/app/ec2_config.go], which generates a
    cluster for the hosts of an inventory, the corpus checks of [tx_source.go],
    and [corpus_config.go], which binds a configuration to an encrypted corpus.
    Flags are parsed before; the commands return what they write. [ParseIP] is
    the address syntax of Go's package [net]. *)

From S2P Require Import Prelude Order GoStrings Sha256 Messages Acs SlotAcs Merge Kyber Prf Btd Batch Wire NodeState Config Dealer Regex.

(** ** IP addresses *)

(** [parseIPv4Fields]: [val] is the octet being read, [digLen] its length,
    [dot] whether the last byte was a dot. *)
Fixpoint parseIPv4Fields (s : bytes) (fields : list Z) (val : Z) (digLen : nat) (dot : bool)
  : option (list Z) :=
  match s with
  | [] => if dot || negb (length fields =? 3)%nat then None else Some (fields ++ [val])
  | c :: s' =>
      if isDigit c then
        if (digLen =? 1)%nat && (val =? 0) then None
        else if 255 <? val * 10 + (c - 48) then None
        else parseIPv4Fields s' fields (val * 10 + (c - 48)) (S digLen) false
      else if c =? 46 then
        if dot || (length fields =? 3)%nat then None
        else parseIPv4Fields s' (fields ++ [val]) 0 0 true
      else None
  end.

Definition parseIPv4 (s : bytes) : option (list Z) := parseIPv4Fields s [] 0 0 true.

(** At most four hexadecimal digits: their number and value, and the rest. *)
Fixpoint hexGroup (s : bytes) (off : nat) (acc : Z) : option (nat * Z * bytes) :=
  match s with
  | [] => Some (off, acc, [])
  | c :: s' =>
      match fromHexChar c with
      | None => Some (off, acc, s)
      | Some d => if (3 <? off)%nat then None else hexGroup s' (S off) (acc * 16 + d)
      end
  end.

(** The loop over the groups: the bytes so far, where the ellipsis is, and the
    rest. A round appends at least two of sixteen bytes, so eight suffice. *)
Fixpoint parseGroups (fuel : nat) (s : bytes) (ip : list Z) (ellipsis : option nat)
  : option (list Z * option nat * bytes) :=
  match fuel with
  | O => Some (ip, ellipsis, s)
  | S fuel' =>
      match hexGroup s 0 0 with
      | None => None
      | Some (O, _, _) => None
      | Some (_, acc, rest) =>
          match rest with
          | 46 :: _ =>
              if (negb (bool_decide (is_Some ellipsis)) && negb (length ip =? 12)%nat) || (12 <? length ip)%nat then None
              else v4 ← parseIPv4 s; Some (ip ++ v4, ellipsis, [])
          | [] => Some (ip ++ [Z.quot acc 256; acc mod 256], ellipsis, [])
          | c :: rest' =>
              let ip := ip ++ [Z.quot acc 256; acc mod 256] in
              if negb (c =? 58) then None
              else
                match rest' with
                | [] => None
                | 58 :: rest'' =>
                    if bool_decide (is_Some ellipsis) then None
                    else
                      match rest'' with
                      | [] => Some (ip, Some (length ip), [])
                      | _ => parseGroups fuel' rest'' ip (Some (length ip))
                      end
                | _ => parseGroups fuel' rest' ip ellipsis
                end
          end
      end
  end.

(** Without a zone. *)
Definition parseIPv6 (s : bytes) : option (list Z) :=
  let '(start, s) := match s with 58 :: 58 :: s' => (Some 0%nat, s') | _ => (None, s) end in
  if bool_decide (is_Some start) && bool_decide (s = []) then Some (replicate 16 0)
  else
    '(ip, ellipsis, rest) ← parseGroups 8 s [] start;
    if negb (bool_decide (rest = [])) then None
    else
      match ellipsis with
      | None => if (length ip =? 16)%nat then Some ip else None
      | Some k =>
          if (length ip <? 16)%nat then Some (take k ip ++ replicate (16 - length ip) 0 ++ drop k ip)
          else None
      end.

(** The address as sixteen bytes. *)
Definition ParseIP (s : bytes) : option (list Z) :=
  match List.find (fun c => OneOf [46; 58; 37] c) s with
  | Some 46 => v4 ← parseIPv4 s; Some (replicate 10 0 ++ [255; 255] ++ v4)
  | Some 58 => if existsb (fun c => c =? 37) s then None else parseIPv6 s
  | _ => None
  end.

(** Whether [To4] is not nil. *)
Definition isIPv4 (ip : list Z) : bool := bool_decide (take 12 ip = replicate 10 0 ++ [255; 255]).

(** ** Inventories *)

Record ec2InventoryHost := mkHost {
  ih_ID : Z;
  ih_Label : bytes;
  PrivateIP : bytes;
  PrivateDNS : bytes;
  PublicIP : bytes;
  PublicDNS : bytes;
  Region : bytes;
  Zone : bytes;
  InstanceType : bytes
}.

Record ec2Inventory := mkInventory {
  inv_Deployment : gmap bytes bytes;
  Controller : option ec2InventoryHost;
  inv_Nodes : list ec2InventoryHost
}.

(** [sort.Slice] by identifier; entries with one identifier are refused later. *)
Definition sortHosts (nodes : list ec2InventoryHost) : list ec2InventoryHost :=
  sortSlice (fun a b => ih_ID a <? ih_ID b) nodes.

Definition readEC2Inventory (readFile : bytes -> out bytes) (json_inventory : bytes -> out ec2Inventory)
  (path : bytes) : out ec2Inventory :=
  let? data := readFile path in
  let? inventory := json_inventory data in
  Ok (mkInventory (inv_Deployment inventory) (Controller inventory) (sortHosts (inv_Nodes inventory))).

Definition hostModes : list bytes := [str "private-ip"; str "private-dns"; str "public-ip"; str "public-dns"].

Definition validateEC2HostMode (mode : bytes) : out bytes :=
  if bool_decide (mode ∈ hostModes) then Ok mode
  else Err "must be private-ip, private-dns, public-ip, or public-dns".

Definition requiredHostValue (value mode : bytes) : out bytes :=
  if blank value then Err "inventory is missing a host" else Ok value.

Definition hostValue (host : ec2InventoryHost) (mode : bytes) : out bytes :=
  if bool_decide (mode = str "private-ip") then requiredHostValue (PrivateIP host) mode
  else if bool_decide (mode = str "private-dns") then requiredHostValue (PrivateDNS host) mode
  else if bool_decide (mode = str "public-ip") then requiredHostValue (PublicIP host) mode
  else if bool_decide (mode = str "public-dns") then requiredHostValue (PublicDNS host) mode
  else Err "unsupported host mode".

Definition p2pMultiaddr (host : bytes) (port : Z) : out bytes :=
  match ParseIP host with
  | Some ip =>
      if isIPv4 ip then Ok (str "/ip4/" ++ host ++ str "/tcp/" ++ decimal port)
      else Ok (str "/ip6/" ++ host ++ str "/tcp/" ++ decimal port)
  | None =>
      if blank host then Err "empty host"
      else Ok (str "/dns4/" ++ host ++ str "/tcp/" ++ decimal port)
  end.

Fixpoint firstNonEmpty (values : list bytes) : bytes :=
  match values with
  | [] => []
  | value :: values => if blank value then firstNonEmpty values else value
  end.

(** ** The remote evaluator *)

Record corpusProvenance := mkProvenance {
  cp_SchemaVersion : bytes;
  cp_CiphertextWireVersion : bytes;
  cp_PublicConfigID : bytes;
  cp_PlaintextMasterCorpusID : bytes;
  cp_PlaintextPrefixSetIDs : gmap bytes bytes;
  cp_EncryptedCorpusID : bytes;
  cp_EncryptedPrefixSetIDs : gmap bytes bytes;
  cp_BMax : Z;
  cp_AvailableCount : Z
}.

Definition noProvenance : corpusProvenance := mkProvenance [] [] [] [] ∅ [] ∅ 0 0.

Record remoteEvalNode := mkRemoteNode {
  rn_ID : Z;
  rn_URL : bytes;
  rn_Label : bytes;
  rn_Region : bytes;
  rn_Zone : bytes
}.

Record remoteEvalConfig := mkRemote {
  re_Nodes : list remoteEvalNode;
  Endpoints : list bytes;
  NodeCount : Z;
  re_Threshold : Z;
  re_BMax : Z;
  re_Network : bytes;
  re_StreamMode : bytes;
  re_Deployment : gmap bytes bytes;
  InitialSlot : Z;
  re_Corpus : corpusProvenance
}.

(** ** ec2_config.go *)

(** The evaluator's path is only written to; the block space is kept as one
    record. *)
Record ec2ConfigOptions := mkEC2Options {
  eo_InventoryPath : bytes;
  eo_ClusterOut : bytes;
  eo_CRSOut : bytes;
  eo_SecretsDir : bytes;
  eo_ClusterID : bytes;
  eo_Nodes : Z;
  eo_Threshold : Z;
  eo_BMax : Z;
  eo_Slot : Z;
  eo_HTTPPort : Z;
  eo_P2PPort : Z;
  eo_HTTPHostMode : bytes;
  eo_P2PHostMode : bytes;
  eo_ProviderMode : bytes;
  eo_StreamMode : bytes;
  eo_MempoolURL : bytes;
  eo_MempoolTimeoutMS : Z;
  eo_Blockspace : BlockspaceConfig;
  eo_Limits : ResourceLimits;
  eo_PrometheusURL : bytes;
  eo_GrafanaURL : bytes;
  eo_ControllerURL : bytes
}.

(** The identifiers of the inventory, in its order. *)
Fixpoint checkInventoryIDs (nodes : Z) (ids : list Z) (seen : gset Z) : out unit :=
  match ids with
  | [] => Ok tt
  | id :: ids =>
      if (id <? 0) || (nodes <=? id) then Err "node id out of range"
      else if bool_decide (id ∈ seen) then Err "duplicate node id"
      else checkInventoryIDs nodes ids ({[ id ]} ∪ seen)
  end.

(** What the evaluator is told about the deployment. *)
Definition withController (inventory : ec2Inventory) (url : bytes) (names : ec2InventoryHost -> list bytes)
  (deployment : gmap bytes bytes) : gmap bytes bytes :=
  let deployment := inv_Deployment inventory ∪ deployment in
  if negb (bool_decide (url = [])) then <[str "controller" := url]> deployment
  else
    match Controller inventory with
    | Some host => <[str "controller" := firstNonEmpty (names host)]> deployment
    | None => deployment
    end.

Definition operatorOn (host : ec2InventoryHost) (httpAdvertise p2pAdvertise peerID : bytes) (httpPort p2pPort : Z)
  : OperatorConfig :=
  mkOperator (u64 (ih_ID host)) (TrimPrefix httpAdvertise (str "http://")) (str "0.0.0.0:" ++ decimal httpPort)
    httpAdvertise p2pAdvertise (str "/ip4/0.0.0.0/tcp/" ++ decimal p2pPort) p2pAdvertise peerID.

Definition remoteNodeOn (host : ec2InventoryHost) (url : bytes) : remoteEvalNode :=
  mkRemoteNode (ih_ID host) url (firstNonEmpty [ih_Label host; str "operator-" ++ decimal (ih_ID host)])
    (Region host) (Zone host).

Definition httpURLOf (host : bytes) (port : Z) : bytes := str "http://" ++ host ++ str ":" ++ decimal port.

Section Deploying.
Context `{Suite} `{Libp2pKeys}.
Context (sibling below : bytes -> bytes -> bytes) (rel : bytes -> bytes -> out bytes).
Context (readFile : bytes -> out bytes).

(** One round of the loop over the hosts; [i] counts them. *)
Definition ec2Operator (o : ec2ConfigOptions) (r : entropy) (shares : list PriShare) (i : nat) (host : ec2InventoryHost)
  : out (OperatorConfig * NodeSecretConfig * remoteEvalNode) :=
  let? httpHost := hostValue host (eo_HTTPHostMode o) in
  let? p2pHost := hostValue host (eo_P2PHostMode o) in
  let? key := at_index (en_keys r) (Z.of_nat i) in
  let? (p2pPrivHex, p2pPeerID) := generateLibP2PIdentity key in
  let httpAdvertise := httpURLOf httpHost (eo_HTTPPort o) in
  let? p2pAdvertise := p2pMultiaddr p2pHost (eo_P2PPort o) in
  let? share := at_index shares (ih_ID host) in
  let? scalarHex := marshalScalarHex (pri_V share) in
  Ok (operatorOn host httpAdvertise p2pAdvertise p2pPeerID (eo_HTTPPort o) (eo_P2PPort o),
      mkSecrets nodeSecretVersion (eo_ClusterID o) (u64 (ih_ID host)) scalarHex p2pPrivHex,
      remoteNodeOn host httpAdvertise).

Definition buildEC2Configs (inventory : ec2Inventory) (o : ec2ConfigOptions) (r : entropy)
  : out (ConfigFile * bytes * list NodeSecretConfig * remoteEvalConfig) :=
  let limits := campaignLimits (eo_Limits o) in
  let? _ := validateResourceLimits limits in
  let network := normalizeNetworkConfig (mkNetwork (str "libp2p") (eo_StreamMode o)) in
  let? _ := validateNetworkConfig network in
  let provider := normalizeProviderConfig
    (mkProvider (eo_ProviderMode o) (eo_MempoolURL o) (eo_MempoolTimeoutMS o) [] [] [] ∅ false) in
  let? _ := validateProviderConfig provider in
  let nodes := zlen (inv_Nodes inventory) in
  if negb (eo_Nodes o =? 0) && negb (eo_Nodes o =? nodes) then Err "nodes does not match the inventory"
  else if nodes <? 4 then Err "inventory requires at least 4 operator nodes"
  else
    let? _ := checkInventoryIDs nodes (map ih_ID (inv_Nodes inventory)) ∅ in
    let threshold := if eo_Threshold o =? 0 then 2 * Z.quot (nodes - 1) 3 + 1 else eo_Threshold o in
    if (threshold <? 1) || (nodes <? threshold) then Err "threshold out of range"
    else
      let? (crs, pkHex, shares) := dealSetup r (eo_BMax o) nodes threshold in
      let? crsRelative := rel (eo_ClusterOut o) (eo_CRSOut o) in
      let? operators := map_out (fun p => ec2Operator o r shares p.1 p.2) (imap pair (inv_Nodes inventory)) in
      let cluster := mkConfigFile clusterConfigVersion (eo_ClusterID o) (eo_BMax o) nodes threshold (eo_Slot o)
        crsRelative (hashHex crs) operators.*1.*1 pkHex (eo_Blockspace o) provider network limits false [] in
      let remote := mkRemote operators.*2 [] nodes threshold (eo_BMax o) (str "libp2p") (net_StreamMode network)
        (withController inventory (eo_ControllerURL o)
           (fun h => [ih_Label h; PrivateDNS h; PrivateIP h; PublicDNS h; PublicIP h])
           (list_to_map [(str "environment", str "ec2"); (str "prometheus", eo_PrometheusURL o);
                         (str "grafana", eo_GrafanaURL o)]))
        (eo_Slot o) noProvenance in
      Ok (cluster, crs, operators.*1.*2, remote).

(** The checks of [parseEC2ConfigOptions], with the default paths. *)
Definition checkEC2Options (o : ec2ConfigOptions) : out ec2ConfigOptions :=
  let crsOut := orElse (eo_CRSOut o) (sibling (eo_ClusterOut o) (str "cluster.ec2.crs")) in
  let secretsDir := orElse (eo_SecretsDir o) (sibling (eo_ClusterOut o) (str "secrets.ec2")) in
  if (eo_BMax o <? 1) || (eo_HTTPPort o <? 1) || (eo_P2PPort o <? 1) then
    Err "bmax, http-port, and p2p-port must be positive"
  else
    let? _ := validateResourceLimits (eo_Limits o) in
    let? _ := validateProviderConfig (mkProvider [] [] (eo_MempoolTimeoutMS o) [] [] [] ∅ false) in
    let? _ := validateNetworkConfig (mkNetwork (str "libp2p") (eo_StreamMode o)) in
    let? _ := validateEC2HostMode (eo_HTTPHostMode o) in
    let? _ := validateEC2HostMode (eo_P2PHostMode o) in
    Ok (mkEC2Options (eo_InventoryPath o) (eo_ClusterOut o) crsOut secretsDir (eo_ClusterID o) (eo_Nodes o)
          (eo_Threshold o) (eo_BMax o) (eo_Slot o) (eo_HTTPPort o) (eo_P2PPort o) (eo_HTTPHostMode o) (eo_P2PHostMode o)
          (eo_ProviderMode o) (eo_StreamMode o) (eo_MempoolURL o) (eo_MempoolTimeoutMS o) (eo_Blockspace o) (eo_Limits o)
          (eo_PrometheusURL o) (eo_GrafanaURL o) (eo_ControllerURL o)).

(** The cluster that is written, and the evaluator's configuration. *)
Definition genEC2Config (json_inventory : bytes -> out ec2Inventory) (o : ec2ConfigOptions) (r : entropy)
  : out (generated * remoteEvalConfig) :=
  let? o := checkEC2Options o in
  let? inventory := readEC2Inventory readFile json_inventory (eo_InventoryPath o) in
  let? (cluster, crs, secrets, remote) := buildEC2Configs inventory o r in
  Ok (mkGenerated cluster (eo_CRSOut o) crs
        (map (fun s => (below (eo_SecretsDir o) (str "operator-" ++ decimal (ns_OperatorID s) ++ str ".json"), s)) secrets),
      remote).
End Deploying.

(** ** tx_source.go *)

Definition validateCorpusProvenance (p : corpusProvenance) (bMax count : Z) : out unit :=
  if negb (bool_decide (cp_SchemaVersion p = str "bloc-encrypted-corpus-v1")) then Err "encrypted corpus schema"
  else if negb (bool_decide (cp_CiphertextWireVersion p = LibraryVersion)) then Err "encrypted corpus wire version"
  else if negb (cp_BMax p =? bMax) then Err "encrypted corpus BMax does not match evaluator BMax"
  else if (count <=? 0) || (cp_AvailableCount p <? count) then Err "requested count exceeds encrypted corpus availability"
  else if bool_decide (cp_PublicConfigID p = []) || bool_decide (cp_PlaintextMasterCorpusID p = []) ||
          bool_decide (cp_EncryptedCorpusID p = []) then Err "encrypted corpus provenance is missing a required identity"
  else
    let key := decimal count in
    if bool_decide (default [] (cp_PlaintextPrefixSetIDs p !! key) = []) ||
       bool_decide (default [] (cp_EncryptedPrefixSetIDs p !! key) = [])
    then Err "encrypted corpus provenance is missing prefix identities"
    else Ok tt.

(** ** corpus_config.go *)

Definition bindCorpusProvider (cfg : ConfigFile) (p : corpusProvenance) (computedPublicID mempoolURL : bytes)
  : out ConfigFile :=
  if negb (bool_decide (cp_PublicConfigID p = computedPublicID)) then
    Err "encrypted corpus public config id does not match loaded setup"
  else
    let provider := mkProvider (str "mempool-http") mempoolURL defaultMempoolTimeoutMS (cp_PublicConfigID p)
      (cp_PlaintextMasterCorpusID p) (cp_EncryptedCorpusID p) (cp_EncryptedPrefixSetIDs p) true in
    let? _ := validateProviderConfig provider in
    Ok (mkConfigFile (cf_Version cfg) (cf_ClusterID cfg) (cf_BMax cfg) (cf_N cfg) (cf_Threshold cfg) (cf_Slot cfg)
          (cf_CRSFile cfg) (cf_CRSSHA256 cfg) (cf_Nodes cfg) (cf_PublicKeyHex cfg) (cf_Blockspace cfg) provider
          (cf_Network cfg) (cf_Limits cfg) (cf_ACSTrace cfg) (cf_CRSBytes cfg)).

Definition set_reCorpus (remote : remoteEvalConfig) (p : corpusProvenance) : remoteEvalConfig :=
  mkRemote (re_Nodes remote) (Endpoints remote) (NodeCount remote) (re_Threshold remote) (re_BMax remote)
    (re_Network remote) (re_StreamMode remote) (re_Deployment remote) (InitialSlot remote) p.

Section Binding.
Context `{Suite}.
Context (uni : bytes -> bytes) (readFile : bytes -> out bytes) (crsPath : bytes -> bytes -> bytes).
Context (json_fields : bytes -> out (list bytes)) (json_config : bytes -> out (ConfigFile * wireLimits)).
Context (json_provenance : bytes -> out corpusProvenance) (json_remote : bytes -> out remoteEvalConfig).

Definition readCorpusProvenance (path : bytes) : out corpusProvenance :=
  let? data := readFile path in json_provenance data.

(** The configuration and the evaluator's one that are written. *)
Definition bindEncryptedCorpus (configPath corpusPath mempoolURL remoteEvalPath : bytes)
  : out (ConfigFile * option remoteEvalConfig) :=
  if blank configPath || blank corpusPath || blank mempoolURL then Err "--config, --corpus, and --mempool-url are required"
  else
    let? cfg := readConfig readFile crsPath json_fields json_config configPath in
    let? p := readCorpusProvenance corpusPath in
    let? _ := validateCorpusProvenance p (cf_BMax cfg) (cp_AvailableCount p) in
    let? pk := unmarshalPointHex (cf_PublicKeyHex cfg) in
    let? publicID := PublicConfigID uni (cf_BMax cfg) (cf_CRSSHA256 cfg) (Some pk) in
    let? cfg := bindCorpusProvider cfg p publicID mempoolURL in
    if bool_decide (remoteEvalPath = []) then Ok (cfg, None)
    else
      let? data := readFile remoteEvalPath in
      let? parsed := json_remote data in
      if negb (re_BMax parsed =? cf_BMax cfg) || negb (NodeCount parsed =? cf_N cfg) ||
         negb (re_Threshold parsed =? cf_Threshold cfg) then
        Err "remote evaluator config does not match cluster n/t/BMax"
      else Ok (cfg, Some (set_reCorpus parsed p)).
End Binding.
