(* ===== verification/Bundle.v ===== *)
(** * Bundle: frozen campaign bundles

    Models [campaign_bundle.go] and [campaign_materialize.go] of
    [src/bloc-node/internal/app]: a bundle is a directory with a campaign
    identity, its CRS, an encrypted corpus and the operators' secrets, frozen by
    a manifest of digests and identifiers; materializing it gives the
    configuration of a cluster on the hosts of an inventory.

    Parameters, besides those of [Dealer] and [Deploy]: [Lstat], [Stat] and
    [Abs], and the decoders of the manifest and of the corpus document, whose
    [json_trailing] says that more follows the document. *)

From S2P Require Import Prelude Order GoStrings Sha256 Messages Acs SlotAcs Merge Kyber Prf Btd Batch Wire NodeState Config Dealer Regex Deploy.

(** ** Files *)

Record fileInfo := mkFileInfo {
  isSymlink : bool;
  IsDir : bool;
  IsRegular : bool;
  Perm : Z
}.

Inductive statResult :=
  | Found (info : fileInfo)
  | NotExist
  | StatError.

(** The part after the last slash. *)
Fixpoint afterSlash (path last : bytes) : bytes :=
  match path with
  | [] => last
  | c :: path => afterSlash path (if c =? 47 then path else last)
  end.

(** [filepath.Base] *)
Definition BaseName (path : bytes) : bytes :=
  if bool_decide (path = []) then str "."
  else
    let path := reverse (trimLeft [str "/"] (length path) (reverse path)) in
    let path := afterSlash path path in
    if bool_decide (path = []) then str "/" else path.

(** ** Constants and patterns *)

Definition campaignBundleVersion : bytes := str "bloc-campaign-bundle-v1".
Definition campaignBundleManifestFile : bytes := str "bundle-manifest.json".
Definition campaignBundleIdentityFile : bytes := str "cluster-identity.json".
Definition campaignBundleCRSFile : bytes := str "cluster.crs".
Definition campaignBundleCorpusFile : bytes := str "encrypted-corpus.json".
Definition campaignBundleSecretDir : bytes := str "secrets".

Definition publicFiles : list bytes := [campaignBundleIdentityFile; campaignBundleCRSFile; campaignBundleCorpusFile].

Definition hexClass : re := Class (orClass (Range 48 57) (Range 97 102)).
Definition digitClass : re := Class (Range 48 57).
Definition nameClass : re := Class (orClass (Range 97 122) (Range 48 57)).

(** [^[0-9a-f]{40}$] *)
Definition campaignSourceSHAPattern : re := Repeat 40 hexClass.

(** Twelve digits, [.dkr.ecr.], a region, [.amazonaws.com/], a repository and
    [@sha256:] with 64 hexadecimal digits. *)
Definition campaignECRDigestPattern : re :=
  Cat (Repeat 12 digitClass) (Cat (Lit (str ".dkr.ecr."))
    (Cat (Plus (Class (orClass (orClass (Range 97 122) (Range 48 57)) (OneOf (str "-")))))
      (Cat (Lit (str ".amazonaws.com/"))
        (Cat (Plus nameClass)
          (Cat (Star (Cat (Class (OneOf (str "._/-"))) (Plus nameClass)))
            (Cat (Lit (str "@sha256:")) (Repeat 64 hexClass))))))).

(** ** Data *)

Record campaignBundleManifest := mkManifest {
  bm_Version : bytes;
  SourceSHA : bytes;
  BlocImage : bytes;
  MempoolImage : bytes;
  ClusterConfigVersion : bytes;
  bm_CiphertextWireVersion : bytes;
  bm_N : Z;
  bm_Threshold : Z;
  bm_BMax : Z;
  bm_PublicConfigID : bytes;
  bm_PlaintextMasterCorpusID : bytes;
  bm_PlaintextPrefixSetIDs : gmap bytes bytes;
  bm_EncryptedCorpusID : bytes;
  bm_EncryptedPrefixSetIDs : gmap bytes bytes;
  bm_IndexAssignment : bytes;
  FileSHA256 : gmap bytes bytes
}.

#[export] Instance campaignBundleManifest_eq_dec : EqDecision campaignBundleManifest.
Proof. solve_decision. Defined.

Record campaignBundle := mkBundle {
  cb_Root : bytes;
  cb_IdentityPath : bytes;
  cb_CRSPath : bytes;
  cb_CorpusPath : bytes;
  cb_SecretDir : bytes;
  cb_Identity : campaignIdentity;
  cb_Corpus : corpusProvenance;
  cb_Manifest : option campaignBundleManifest  (** [None] before it is set *)
}.

(** The raw parts of the document are not looked at. *)
Record campaignCorpusDocument := mkCorpusDocument {
  cd_Provenance : corpusProvenance;
  cd_IndexAssignment : bytes
}.

(** ** Checks *)

Definition validateFrozenSourceAndImages (sourceSHA blocImage mempoolImage : bytes) : out unit :=
  if negb (matches campaignSourceSHAPattern sourceSHA) then
    Err "frozen source SHA must be 40 lowercase hexadecimal characters"
  else if forallb (matches campaignECRDigestPattern) [blocImage; mempoolImage] then Ok tt
  else Err "image must be a complete lowercase private ECR digest reference".

Definition validateExactPrimaryPrefixes (values : gmap bytes bytes) : out unit :=
  if existsb (fun kv => blank kv.2) (map_to_list values) then Err "prefix identity is empty"
  else if bool_decide (sortSlice bytesLt (map_to_list values).*1 = [str "128"; str "32"; str "8"]) then Ok tt
  else Err "prefix identities must contain exactly 8, 32, and 128".

Definition compareCampaignBundleManifests (got want : campaignBundleManifest) : out unit :=
  if negb (bool_decide (SourceSHA got = SourceSHA want)) then Err "campaign source SHA mismatch"
  else if negb (bool_decide (BlocImage got = BlocImage want)) || negb (bool_decide (MempoolImage got = MempoolImage want)) then
    Err "campaign image mismatch"
  else if negb (bool_decide (bm_PublicConfigID got = bm_PublicConfigID want)) then Err "campaign public config mismatch"
  else if negb (bool_decide (bm_PlaintextPrefixSetIDs got = bm_PlaintextPrefixSetIDs want)) then
    Err "campaign plaintext prefix identity mismatch"
  else if negb (bool_decide (bm_EncryptedPrefixSetIDs got = bm_EncryptedPrefixSetIDs want)) then
    Err "campaign encrypted prefix identity mismatch"
  else if negb (bool_decide (bm_IndexAssignment got = bm_IndexAssignment want)) then Err "campaign index assignment mismatch"
  else if negb (bool_decide (got = want)) then Err "campaign bundle manifest does not match frozen public inputs"
  else Ok tt.

Section Bundle.
Context `{Suite} `{Libp2pKeys}.
Context (uni : bytes -> bytes).
Context (below : bytes -> bytes -> bytes) (rel : bytes -> bytes -> out bytes).
Context (Lstat Stat : bytes -> statResult) (Abs : bytes -> out bytes).
Context (readFile : bytes -> out bytes) (crsPath : bytes -> bytes -> bytes) (ReadDir : bytes -> out (list bytes)).
Context (json_fields : bytes -> out (list bytes)) (json_secrets : bytes -> out NodeSecretConfig).
Context (json_identity : bytes -> out (campaignIdentity * wireLimits)).
Context (json_document : bytes -> out campaignCorpusDocument) (json_trailing : bytes -> bool).
Context (json_manifest : bytes -> out campaignBundleManifest).
Context (RecoverSecret : list PriShare -> Z -> Z -> out Scalar).

(** [Abs] cleans its result. *)
Definition checkedBundleRoot (root : bytes) : out bytes :=
  if blank root then Err "campaign bundle root is required"
  else
    let? abs := Abs root in
    match Lstat abs with
    | Found info =>
        if isSymlink info || negb (IsDir info) then Err "campaign bundle root must be a real directory, not a symlink"
        else Ok abs
    | _ => Err "lstat"
    end.

Definition checkedBundleFile (root name : bytes) : out bytes :=
  if IsAbs name || negb (bool_decide (BaseName name = name)) then Err "campaign bundle path must be a relative filename"
  else
    let path := below root name in
    match Lstat path with
    | Found info =>
        if isSymlink info then Err "campaign bundle file must not be a symlink"
        else if negb (IsRegular info) then Err "campaign bundle file is not regular"
        else Ok path
    | _ => Err "lstat"
    end.

Definition checkedBundleDirectory (root name : bytes) : out bytes :=
  let path := below root name in
  match Lstat path with
  | Found info =>
      if isSymlink info || negb (IsDir info) then Err "campaign bundle directory must not be a symlink" else Ok path
  | _ => Err "lstat"
  end.

(** [info, err := os.Stat(path); err != nil || info.Mode().Perm() != mode] *)
Definition hasMode (path : bytes) (mode : Z) : bool :=
  match Stat path with
  | Found info => Perm info =? mode
  | _ => false
  end.

Definition readCampaignBundleCorpus (path : bytes) : out (corpusProvenance * bytes) :=
  let? data := readFile path in
  let? document := json_document data in
  if json_trailing data then Err "campaign corpus has trailing JSON"
  else Ok (cd_Provenance document, cd_IndexAssignment document).

Definition validatePrimaryCampaignBundle (identity : campaignIdentity) (corpus : corpusProvenance) (indexAssignment : bytes)
  : out unit :=
  if negb (((ci_N identity =? 4) && (ci_Threshold identity =? 3)) || ((ci_N identity =? 7) && (ci_Threshold identity =? 5))) then
    Err "primary campaign requires n=4,t=3 or n=7,t=5"
  else if negb (ci_BMax identity =? 128) || negb (cp_BMax corpus =? 128) || negb (cp_AvailableCount corpus =? 128) then
    Err "primary campaign requires BMax and corpus availability 128"
  else if negb (MaxDecryptedTxs (ci_Blockspace identity) =? 128) then
    Err "primary campaign blockspace must allow exactly 128 transactions"
  else if negb (bool_decide (cp_SchemaVersion corpus = str "bloc-encrypted-corpus-v1")) ||
          negb (bool_decide (cp_CiphertextWireVersion corpus = LibraryVersion)) then
    Err "invalid campaign corpus schema or wire version"
  else if negb (bool_decide (indexAssignment = str "coordinated-position-v1")) then
    Err "campaign index assignment must be coordinated-position-v1"
  else
    let? _ := validateExactPrimaryPrefixes (cp_PlaintextPrefixSetIDs corpus) in
    let? _ := validateExactPrimaryPrefixes (cp_EncryptedPrefixSetIDs corpus) in
    if bool_decide (cp_PlaintextMasterCorpusID corpus = []) || bool_decide (cp_EncryptedCorpusID corpus = []) then
      Err "campaign corpus identities are required"
    else
      let? publicKey := unmarshalPointHex (ci_PublicKeyHex identity) in
      let? publicID := PublicConfigID uni (ci_BMax identity) (ci_CRSSHA256 identity) (Some publicKey) in
      if negb (bool_decide (cp_PublicConfigID corpus = publicID)) then Err "campaign corpus public config id does not match identity"
      else Ok tt.

(** One round of the loop over the operators' secret files. *)
Definition checkSecretFile (secretDir : bytes) (operatorID : Z) : out unit :=
  let? path := checkedBundleFile secretDir (str "operator-" ++ decimal operatorID ++ str ".json") in
  if hasMode path 384 then Ok tt else Err "campaign operator secret must have mode 0600".

Definition readCampaignBundlePublicInputs (root : bytes) : out (campaignBundle * bytes) :=
  let? rootPath := checkedBundleRoot root in
  let? identityPath := checkedBundleFile rootPath campaignBundleIdentityFile in
  let? crsFile := checkedBundleFile rootPath campaignBundleCRSFile in
  let? corpusPath := checkedBundleFile rootPath campaignBundleCorpusFile in
  let? secretDir := checkedBundleDirectory rootPath campaignBundleSecretDir in
  if negb (hasMode secretDir 448) then Err "campaign secret directory must have mode 0700"
  else
    let? (identity, crs) := readCampaignIdentity readFile crsPath json_identity identityPath in
    if negb (bool_decide (ci_CRSFile identity = campaignBundleCRSFile)) then Err "campaign identity CRS must be cluster.crs"
    else
      let? _ := map_out (checkSecretFile secretDir) (seqZ 0 (ci_N identity)) in
      let? entries := ReadDir secretDir in
      if negb (zlen entries =? ci_N identity) then Err "campaign secret directory entry count"
      else
        let? _ := verifyCampaignSecrets below readFile json_fields json_secrets ReadDir RecoverSecret identity crs secretDir in
        let? (corpus, indexAssignment) := readCampaignBundleCorpus corpusPath in
        let? _ := validatePrimaryCampaignBundle identity corpus indexAssignment in
        Ok (mkBundle rootPath identityPath crsFile corpusPath secretDir identity corpus None, indexAssignment).

(** The digest of a file of the bundle, under its name. *)
Definition fileHash (root name : bytes) : out (bytes * bytes) :=
  let? data := readFile (below root name) in Ok (name, hashHex data).

Definition buildCampaignBundleManifest (root sourceSHA blocImage mempoolImage : bytes) : out campaignBundleManifest :=
  let? _ := validateFrozenSourceAndImages sourceSHA blocImage mempoolImage in
  let? (bundle, indexAssignment) := readCampaignBundlePublicInputs root in
  let? hashes := map_out (fileHash (cb_Root bundle)) publicFiles in
  let identity := cb_Identity bundle in
  let corpus := cb_Corpus bundle in
  Ok (mkManifest campaignBundleVersion sourceSHA blocImage mempoolImage clusterConfigVersion
        (cp_CiphertextWireVersion corpus) (ci_N identity) (ci_Threshold identity) (ci_BMax identity)
        (cp_PublicConfigID corpus) (cp_PlaintextMasterCorpusID corpus) (cp_PlaintextPrefixSetIDs corpus)
        (cp_EncryptedCorpusID corpus) (cp_EncryptedPrefixSetIDs corpus) indexAssignment (list_to_map hashes)).

(** One round of the loop over the public files. *)
Definition checkFileHash (root : bytes) (manifest : campaignBundleManifest) (name : bytes) : out unit :=
  let? path := checkedBundleFile root name in
  let? data := readFile path in
  let want := default [] (FileSHA256 manifest !! name) in
  if bool_decide (want = []) || negb (bool_decide (hashHex data = want)) then Err "campaign bundle file hash mismatch"
  else Ok tt.

Definition set_Manifest (b : campaignBundle) (m : campaignBundleManifest) : campaignBundle :=
  mkBundle (cb_Root b) (cb_IdentityPath b) (cb_CRSPath b) (cb_CorpusPath b) (cb_SecretDir b) (cb_Identity b) (cb_Corpus b)
    (Some m).

Definition loadCampaignBundle (root : bytes) : out campaignBundle :=
  let? manifestPath := checkedBundleFile root campaignBundleManifestFile in
  let? data := readFile manifestPath in
  let? manifest := json_manifest data in
  if negb (bool_decide (bm_Version manifest = campaignBundleVersion)) then Err "unsupported campaign bundle version"
  else
    let? _ := validateFrozenSourceAndImages (SourceSHA manifest) (BlocImage manifest) (MempoolImage manifest) in
    let? _ := map_out (checkFileHash root manifest) publicFiles in
    if negb (size (FileSHA256 manifest) =? 3)%nat then
      Err "campaign bundle file hash set must contain exactly three public files"
    else
      let? (bundle, _) := readCampaignBundlePublicInputs root in
      let? expected := buildCampaignBundleManifest root (SourceSHA manifest) (BlocImage manifest) (MempoolImage manifest) in
      let? _ := compareCampaignBundleManifests manifest expected in
      Ok (set_Manifest bundle manifest).

Record verifyOptions := mkVerifyOptions {
  vo_BundleRoot : bytes;
  vo_SourceSHA : bytes;
  vo_BlocImage : bytes;
  vo_MempoolImage : bytes;
  vo_WriteManifest : bool
}.

(** [want != "" && got != want] *)
Definition differs (got want : bytes) : bool := negb (bool_decide (want = [])) && negb (bool_decide (got = want)).

(** The manifest that is written, if one is asked for. *)
Definition verifyCampaignBundle (o : verifyOptions) : out (option campaignBundleManifest) :=
  let root := vo_BundleRoot o in
  if vo_WriteManifest o then
    if bool_decide (vo_SourceSHA o = []) || bool_decide (vo_BlocImage o = []) || bool_decide (vo_MempoolImage o = []) then
      Err "--write-manifest requires --source-sha, --bloc-image, and --mempool-image"
    else
      match Lstat (below root campaignBundleManifestFile) with
      | Found _ => Err "campaign bundle manifest already exists"
      | StatError => Err "lstat"
      | NotExist =>
          let? manifest := buildCampaignBundleManifest root (vo_SourceSHA o) (vo_BlocImage o) (vo_MempoolImage o) in
          Ok (Some manifest)
      end
  else
    let? bundle := loadCampaignBundle root in
    match cb_Manifest bundle with
    | None => Crash
    | Some manifest =>
        if differs (SourceSHA manifest) (vo_SourceSHA o) then Err "campaign source SHA mismatch"
        else if differs (BlocImage manifest) (vo_BlocImage o) then Err "campaign bloc image mismatch"
        else if differs (MempoolImage manifest) (vo_MempoolImage o) then Err "campaign mempool image mismatch"
        else Ok None
    end.

(** ** campaign_materialize.go *)

Record campaignMaterializeOptions := mkMaterializeOptions {
  mo_BundleRoot : bytes;
  mo_InventoryPath : bytes;
  mo_ClusterOut : bytes;
  mo_CRSOut : bytes;
  mo_RemoteEvalOut : bytes;
  Topology : bytes;
  mo_MempoolURL : bytes;
  mo_PrometheusURL : bytes;
  mo_GrafanaURL : bytes;
  mo_ControllerURL : bytes;
  mo_HTTPPort : Z;
  mo_P2PPort : Z;
  mo_HTTPHostMode : bytes;
  mo_P2PHostMode : bytes;
  mo_ACSTrace : bool;
  mo_StreamMode : bytes
}.

(** [strings.HasPrefix] *)
Definition HasPrefix (s prefix : bytes) : bool := bool_decide (is_Some (stripPrefix prefix s)).

Definition campaignRegions : list bytes := [str "us-east-1"; str "eu-west-1"; str "eu-central-1"].

(** The placement of one operator among the three regions. *)
Definition inModuloRegion (node : ec2InventoryHost) : out unit :=
  let? region := at_index campaignRegions (Z.rem (ih_ID node) 3) in
  if negb (bool_decide (Region node = region)) || negb (HasPrefix (Zone node) (Region node)) then
    Err "operator violates modulo-three placement"
  else Ok tt.

Definition inSameZone (node : ec2InventoryHost) : bool :=
  bool_decide (Region node = str "us-east-1") && bool_decide (Zone node = str "us-east-1a").

Definition validateCampaignInventoryPlacement (topology : bytes) (controller : option ec2InventoryHost)
  (nodes : list ec2InventoryHost) : out unit :=
  match controller with
  | None => Err "campaign inventory requires a controller"
  | Some controller =>
      if negb (bool_decide (InstanceType controller = str "t3.small")) then Err "campaign controller must use t3.small"
      else if negb (forallb (fun node => bool_decide (InstanceType node = str "t3.small")) nodes) then
        Err "campaign operator must use t3.small"
      else if bool_decide (topology = str "T0-same-az") then
        if negb (inSameZone controller) then Err "same-AZ controller must be in us-east-1a"
        else if negb (forallb inSameZone nodes) then Err "same-AZ operator must be in us-east-1a"
        else Ok tt
      else if bool_decide (topology = str "T2-three-region") then
        if negb (bool_decide (Region controller = str "us-east-1")) then Err "three-region controller must be in us-east-1"
        else let? _ := map_out inModuloRegion nodes in Ok tt
      else Err "campaign topology must be T0-same-az or T2-three-region"
  end.

(** The loop over the sorted inventory from position [index] on. *)
Fixpoint checkConsecutive (index : Z) (ids : list Z) (seen : gset Z) : out unit :=
  match ids with
  | [] => Ok tt
  | id :: ids =>
      if bool_decide (id ∈ seen) then Err "duplicate campaign node id"
      else if negb (id =? index) then Err "campaign node ids must be consecutive from zero"
      else checkConsecutive (index + 1) ids ({[ id ]} ∪ seen)
  end.

(** One round of the loop over the hosts. *)
Definition materializeOperator (identity : campaignIdentity) (httpMode p2pMode : bytes) (httpPort p2pPort : Z)
  (host : ec2InventoryHost) : out (OperatorConfig * remoteEvalNode) :=
  let? httpHost := hostValue host httpMode in
  let? p2pHost := hostValue host p2pMode in
  let url := httpURLOf httpHost httpPort in
  let? p2pAddress := p2pMultiaddr p2pHost p2pPort in
  let? operator := at_index (ci_Operators identity) (ih_ID host) in
  Ok (operatorOn host url p2pAddress (co_P2PPeerID operator) httpPort p2pPort, remoteNodeOn host url).

Definition buildMaterializedCampaignConfigs (bundle : campaignBundle) (inventory : ec2Inventory)
  (o : campaignMaterializeOptions) : out (ConfigFile * bytes * remoteEvalConfig) :=
  let identity := cb_Identity bundle in
  let corpus := cb_Corpus bundle in
  if (mo_HTTPPort o <? 1) || (mo_P2PPort o <? 1) then Err "campaign HTTP and P2P ports must be positive"
  else
    let? httpMode := validateEC2HostMode (orElse (mo_HTTPHostMode o) (str "private-ip")) in
    let? p2pMode := validateEC2HostMode (orElse (mo_P2PHostMode o) (str "private-ip")) in
    if blank (mo_MempoolURL o) then Err "campaign mempool URL is required"
    else
      let network := normalizeNetworkConfig (mkNetwork (str "libp2p") (mo_StreamMode o)) in
      let? _ := validateNetworkConfig network in
      let nodes := sortHosts (inv_Nodes inventory) in
      if negb (zlen nodes =? ci_N identity) then Err "campaign inventory node count does not match bundle"
      else
        let? _ := checkConsecutive 0 (map ih_ID nodes) ∅ in
        let? _ := validateCampaignInventoryPlacement (Topology o) (Controller inventory) nodes in
        let? crs := readFile (cb_CRSPath bundle) in
        let? crsRelative := rel (mo_ClusterOut o) (mo_CRSOut o) in
        let? operators := map_out (materializeOperator identity httpMode p2pMode (mo_HTTPPort o) (mo_P2PPort o)) nodes in
        let provider := mkProvider (str "mempool-http") (mo_MempoolURL o) defaultMempoolTimeoutMS (cp_PublicConfigID corpus)
          (cp_PlaintextMasterCorpusID corpus) (cp_EncryptedCorpusID corpus) (cp_EncryptedPrefixSetIDs corpus) true in
        let? _ := validateProviderConfig provider in
        let manifest field := match cb_Manifest bundle with Some m => field m | None => [] end in
        let cluster := mkConfigFile clusterConfigVersion (ci_ClusterID identity) (ci_BMax identity) (ci_N identity)
          (ci_Threshold identity) 1 crsRelative (ci_CRSSHA256 identity) operators.*1 (ci_PublicKeyHex identity)
          (ci_Blockspace identity) provider network (ci_Limits identity) (mo_ACSTrace o) [] in
        let remote := mkRemote operators.*2 [] (ci_N identity) (ci_Threshold identity) (ci_BMax identity) (str "libp2p")
          (net_StreamMode network)
          (withController inventory (mo_ControllerURL o) (fun h => [ih_Label h; PrivateDNS h; PrivateIP h])
             (list_to_map [(str "environment", str "ec2"); (str "topology", Topology o);
                           (str "prometheus", mo_PrometheusURL o); (str "grafana", mo_GrafanaURL o);
                           (str "source_sha", manifest SourceSHA); (str "bloc_image", manifest BlocImage);
                           (str "mempool_image", manifest MempoolImage)])) 1 corpus in
        Ok (cluster, crs, remote).

(** [_, err := os.Lstat(path)]: the output must not exist. *)
Definition absent (path : bytes) : out unit :=
  match Lstat path with
  | Found _ => Err "campaign materialization output already exists"
  | NotExist => Ok tt
  | StatError => Err "lstat"
  end.

(** What is written to the CRS, cluster and evaluator paths of the options. *)
Definition materializeCampaignConfig (json_inventory : bytes -> out ec2Inventory) (o : campaignMaterializeOptions)
  : out (ConfigFile * bytes * remoteEvalConfig) :=
  if existsb blank [mo_BundleRoot o; mo_InventoryPath o; Topology o; mo_ClusterOut o; mo_CRSOut o; mo_RemoteEvalOut o] then
    Err "a required option is missing"
  else
    let? _ := map_out absent [mo_ClusterOut o; mo_CRSOut o; mo_RemoteEvalOut o] in
    let? bundle := loadCampaignBundle (mo_BundleRoot o) in
    let? inventory := readEC2Inventory readFile json_inventory (mo_InventoryPath o) in
    buildMaterializedCampaignConfigs bundle inventory o.
End Bundle.
