(* ===== verification/DeployLaws.v ===== *)
(** * Laws of deployments

    A cluster generated for an inventory starts from its files, and the remote
    evaluator is told where every operator is ([ec2_cluster_starts]). *)

From S2P Require Import Prelude Order GoStrings Sha256 Messages Rbc Acs SlotAcs Merge Kyber Prf PrfLaws Btd Batch Wire NodeState Provider Node NodeSys NodeLaws Config ConfigLaws Dealer DealerLaws Regex Deploy.

(** ** Identifiers of an inventory *)

Lemma sortHosts_Permutation nodes : sortHosts nodes ≡ₚ nodes.
Proof. apply merge_sort_Permutation. Qed.

Lemma sortHosts_sorted nodes : StronglySorted Z.le (map ih_ID (sortHosts nodes)).
Proof.
  pose proof (sortSlice_strongly (cmpOn ih_ID Z.compare) (fun a b => ih_ID a <? ih_ID b)
    (fun x y => eq_refl) nodes) as HS.
  fold (sortHosts nodes) in HS. induction HS as [|x l HS IH Hall]; cbn; [constructor|].
  constructor; [exact IH|]. apply Forall_fmap. eapply Forall_impl; [exact Hall|].
  intros y. unfold notAfter. cbn. lia.
Qed.

Lemma seqZ_sorted m k : StronglySorted Z.le (seqZ m (Z.of_nat k)).
Proof.
  revert m. induction k as [|k IH]; intros m; [constructor|]. rewrite seqZ_cons by lia.
  replace (Z.pred (Z.of_nat (S k))) with (Z.of_nat k) by lia. constructor; [apply IH|].
  apply Forall_forall. intros x Hx%elem_of_seqZ. lia.
Qed.

Lemma checkInventoryIDs_ok n ids seen : checkInventoryIDs n ids seen = Ok tt ->
  NoDup ids /\ forall id, id ∈ ids -> 0 <= id < n /\ id ∉ seen.
Proof.
  revert seen. induction ids as [|id ids IH]; intros seen; cbn.
  { intros _. split; [constructor|]. by intros id ?%elem_of_nil. }
  destruct (_ || _) eqn:Er; [discriminate|]. case_bool_decide as Hs; [discriminate|].
  intros [Hnd Hin]%IH. split.
  - apply NoDup_cons. split; [|done]. intros [_ Hn]%Hin. set_solver.
  - intros x [->|Hx]%elem_of_cons; [split; [lia|done]|]. apply Hin in Hx as [? ?]. set_solver.
Qed.

(** Increasing identifiers without repetition, all below their number. *)
Lemma ids_by_position ids : StronglySorted Z.le ids -> NoDup ids ->
  (forall id, id ∈ ids -> 0 <= id < zlen ids) -> ids = seqZ 0 (zlen ids).
Proof.
  intros Hs Hnd Hr.
  apply (StronglySorted_unique Z.le); [done|apply seqZ_sorted|].
  apply submseteq_length_Permutation.
  - apply NoDup_submseteq; [done|]. intros id Hid%Hr. by apply elem_of_seqZ.
  - rewrite length_seqZ. lia.
Qed.


(** ** The generated cluster *)

Section Deployed.
Context `{KeyTexts} {SL : SuiteLaws}.
Context (G1_encoding : GroupEncoding G1 maxCRSPointBytes) (G2_encoding : GroupEncoding G2 maxCRSPointBytes).
Context (sibling below : bytes -> bytes -> bytes) (rel : bytes -> bytes -> out bytes).
Context (uni : bytes -> bytes) (rs_New : Z -> Z -> option Encoder).

Abbreviation master r := (polyEval (en_coeffs r) sZero).

Lemma ec2Operator_dealt o r n i host op s node :
  0 <= ih_ID host < n -> n <= 2 ^ 32 -> Z.of_nat i = ih_ID host ->
  ec2Operator o r (map (shareOf (en_coeffs r)) (seqZ 0 n)) i host = Ok (op, s, node) ->
  oc_ID op = ih_ID host /\ dealt r (eo_ClusterID o) (ih_ID host) (oc_P2PPeerID op) s /\
  rn_ID node = oc_ID op /\ rn_URL node = HTTPAdvertiseURL op.
Proof.
  intros Hi Hn Hpos. unfold ec2Operator. destruct (hostValue host (eo_HTTPHostMode o)) as [h1| |]; cbn [out_bind]; [|discriminate..].
  destruct (hostValue host (eo_P2PHostMode o)) as [h2| |]; cbn [out_bind]; [|discriminate..].
  destruct (at_index (en_keys r) (Z.of_nat i)) as [key| |] eqn:Ek; cbn [out_bind]; [|discriminate..].
  apply at_index_lookup in Ek as [_ Ek]. destruct (generated_identity key) as (raw & id & -> & Hb & Hne & Hu & Hid & Hbl).
  cbn [out_bind]. destruct (p2pMultiaddr _ _) as [addr| |]; cbn [out_bind]; [|discriminate..].
  rewrite shares_at by done. cbn [out_bind].
  destruct (scalar_text (pri_V (shareOf (en_coeffs r) (ih_ID host)))) as (h & -> & Hs & Hh). cbn [out_bind].
  assert (u64 (ih_ID host) = ih_ID host) as Ei by (apply u64_small; lia).
  intros [= <- <- <-]. cbn. rewrite Ei. split; [done|]. split; [|done].
  split; cbn; rewrite ?Ei; try done; [|exists key, raw; by rewrite <- Hpos].
  split; [done|by apply not_blank].
Qed.

(** The dealer's options that give the same cluster. *)
Definition asDealt (n : Z) (limits : ResourceLimits) (clusterID : bytes) (bmax slot : Z) : genOptions :=
  mkGenOptions n 0 bmax 0 0 clusterID slot (mkBlockspace 0 0 0) limits false [] [] [] 0 [] (mkTemplates [] [] [] []) [] [] [] [].

Definition secretsIn (dir : bytes) (secrets : list NodeSecretConfig) : list (bytes * NodeSecretConfig) :=
  map (fun s => (below dir (str "operator-" ++ decimal (ns_OperatorID s) ++ str ".json"), s)) secrets.

Lemma built_dealt inventory o r cluster crs secrets remote crsOut dir :
  buildEC2Configs rel inventory o r = Ok (cluster, crs, secrets, remote) ->
  inv_Nodes inventory = sortHosts (inv_Nodes inventory) -> enough r (eo_BMax o) -> cf_N cluster <= 2 ^ 32 ->
  dealtCluster uni (asDealt (cf_N cluster) (campaignLimits (eo_Limits o)) (eo_ClusterID o) (eo_BMax o) (eo_Slot o)) r
    (mkGenerated cluster crsOut crs (secretsIn dir secrets)) /\
  map (fun n => (rn_ID n, rn_URL n)) (re_Nodes remote) = map (fun op => (oc_ID op, HTTPAdvertiseURL op)) (cf_Nodes cluster).
Proof.
  unfold buildEC2Configs. destruct (validateResourceLimits _) as [[]| |] eqn:El; cbn [out_bind]; [|discriminate..].
  destruct (validateNetworkConfig _) as [[]| |] eqn:En; cbn [out_bind]; [|discriminate..].
  set (provider := normalizeProviderConfig _).
  destruct (validateProviderConfig provider) as [[]| |] eqn:Ep; cbn [out_bind]; [|discriminate..].
  set (n := zlen (inv_Nodes inventory)). assert (n = zlen (inv_Nodes inventory)) as En' by done.
  destruct (negb _ && negb _); [discriminate|].
  destruct (Z.ltb_spec n 4) as [|H4]; [discriminate|].
  destruct (checkInventoryIDs _ _ _) as [[]| |] eqn:Ec; cbn [out_bind]; [|discriminate..].
  set (threshold := if eo_Threshold o =? 0 then _ else _). destruct (_ || _) eqn:Et; [discriminate|].
  intros Hg Hsorted Hen Hn.
  destruct (dealSetup_ok G1_encoding G2_encoding r (eo_BMax o) n threshold Hen) as (crs' & pkHex & btd & Hd & Hbtd & Hpk & Hbl).
  rewrite Hd in Hg. cbn [out_bind] in Hg. destruct (rel _ _) as [crsRelative| |]; cbn [out_bind] in Hg; [|discriminate..].
  destruct (map_out _ _) as [operators| |] eqn:Eo; cbn [out_bind] in Hg; [|discriminate..]. injection Hg as <- <- <- <-.
  cbn [cf_N cf_Nodes re_Nodes] in *. apply checkInventoryIDs_ok in Ec as [Hnd Hrange].
  assert (map ih_ID (inv_Nodes inventory) = seqZ 0 n) as Hids.
  { replace n with (zlen (map ih_ID (inv_Nodes inventory))) by (by rewrite length_map).
    apply ids_by_position; [rewrite Hsorted; apply sortHosts_sorted|done|]. intros id Hid. rewrite length_map. by apply Hrange. }
  apply map_out_length in Eo as Hlen. rewrite length_imap in Hlen.
  assert (forall i p, operators !! i = Some p -> (i < Z.to_nat n)%nat /\ oc_ID p.1.1 = Z.of_nat i /\
    dealt r (eo_ClusterID o) (Z.of_nat i) (oc_P2PPeerID p.1.1) p.1.2 /\ rn_ID p.2 = oc_ID p.1.1 /\
    rn_URL p.2 = HTTPAdvertiseURL p.1.1) as Hops.
  { intros i [[op s] node] Hp. pose proof (lookup_lt_Some _ _ _ Hp) as Hlt. rewrite Hlen in Hlt.
    destruct (lookup_lt_is_Some_2 _ _ Hlt) as [host Hhost].
    assert (ih_ID host = Z.of_nat i) as Hid.
    { assert (map ih_ID (inv_Nodes inventory) !! i = Some (ih_ID host)) as HM.
      { change (map ih_ID) with (fmap (M := list) ih_ID). by rewrite list_lookup_fmap, Hhost. }
      rewrite Hids in HM. apply lookup_seqZ in HM. lia. }
    destruct (map_out_lookup _ _ _ i (i, host) Eo) as (y & Hy & Hop); [by rewrite list_lookup_imap, Hhost|].
    rewrite Hp in Hy. injection Hy as <-. cbn [fst snd] in Hop. apply (ec2Operator_dealt o r n) in Hop; [|lia..].
    rewrite Hid in Hop. split; [lia|]. by destruct Hop as (? & ? & ? & ?). }
  split.
  - split; cbn; try done.
    + lia.
    + by apply validateResourceLimits_iff.
    + split_and!; [done|apply normalizeProvider_idem|by left].
    + by exists btd.
    + rewrite !length_fmap. split; [lia|]. intros i Hi.
      destruct (lookup_lt_is_Some_2 operators (Z.to_nat i)) as [[[op s] node] Hp]; [lia|].
      pose proof (Hops _ _ Hp) as (_ & Hid & Hde & _). rewrite Z2Nat.id in Hid, Hde by lia.
      eexists op, _, s. split; [by rewrite !list_lookup_fmap, Hp|]. split; [|done].
      unfold secretsIn. change (map ?f) with (fmap (M := list) f). by rewrite !list_lookup_fmap, Hp.
  - change (map ?f) with (fmap (M := list) f). rewrite <- !list_fmap_compose. apply list_eq. intros i. rewrite !list_lookup_fmap.
    destruct (operators !! i) as [p|] eqn:Hp; [|done]. cbn. destruct (Hops i p Hp) as (_ & _ & _ & -> & ->). done.
Qed.

Context (readFile : bytes -> out bytes) (crsPath : bytes -> bytes -> bytes).
Context (json_fields : bytes -> out (list bytes)) (json_config : bytes -> out (ConfigFile * wireLimits)).
Context (json_secrets : bytes -> out NodeSecretConfig) (json_inventory : bytes -> out ec2Inventory).

Lemma sortHosts_idem nodes : NoDup (map ih_ID nodes) -> sortHosts (sortHosts nodes) = sortHosts nodes.
Proof.
  intros Hnd. unfold sortHosts.
  apply (sortSlice_perm (cmpOn ih_ID Z.compare) (fun a b => ih_ID a <? ih_ID b) (fun x y => eq_refl)).
  - intros x y Hx Hy E%Z.compare_eq. apply list_elem_of_lookup in Hx as [i Hi], Hy as [j Hj].
    assert (i = j) as ->; [|congruence]. eapply (NoDup_lookup (map ih_ID nodes)); [done|..];
      change (map ih_ID) with (fmap (M := list) ih_ID); rewrite list_lookup_fmap; [by rewrite Hi|]. by rewrite Hj, E.
  - apply sortHosts_Permutation.
Qed.

Lemma genEC2_dealt o r g remote :
  genEC2Config sibling below rel readFile json_inventory o r = Ok (g, remote) -> enough r (eo_BMax o) -> cf_N (gen_cfg g) <= 2 ^ 32 ->
  dealtCluster uni (asDealt (cf_N (gen_cfg g)) (campaignLimits (eo_Limits o)) (eo_ClusterID o) (eo_BMax o) (eo_Slot o)) r g /\
  map (fun n => (rn_ID n, rn_URL n)) (re_Nodes remote) = map (fun op => (oc_ID op, HTTPAdvertiseURL op)) (cf_Nodes (gen_cfg g)).
Proof.
  unfold genEC2Config. destruct (checkEC2Options sibling o) as [o'| |] eqn:Eo; cbn [out_bind]; [|discriminate..].
  assert (eo_Limits o' = eo_Limits o /\ eo_ClusterID o' = eo_ClusterID o /\ eo_BMax o' = eo_BMax o /\ eo_Slot o' = eo_Slot o) as (E1 & E2 & E3 & E4).
  { revert Eo. unfold checkEC2Options. destruct (_ || _); [discriminate|].
    destruct (validateResourceLimits _) as [[]| |]; cbn [out_bind]; [|discriminate..].
    destruct (validateProviderConfig _) as [[]| |]; cbn [out_bind]; [|discriminate..].
    destruct (validateNetworkConfig _) as [[]| |]; cbn [out_bind]; [|discriminate..].
    destruct (validateEC2HostMode (eo_HTTPHostMode o)) as [?| |]; cbn [out_bind]; [|discriminate..].
    destruct (validateEC2HostMode (eo_P2PHostMode o)) as [?| |]; cbn [out_bind]; [|discriminate..]. by intros [= <-]. }
  unfold readEC2Inventory. destruct (readFile _) as [data| |]; cbn [out_bind]; [|discriminate..].
  destruct (json_inventory data) as [inventory| |]; cbn [out_bind]; [|discriminate..].
  set (sorted := mkInventory _ _ _).
  destruct (buildEC2Configs rel sorted o' r) as [[[[cluster crs] secrets] rem]| |] eqn:Eb; cbn [out_bind]; [|discriminate..].
  intros [= <- <-] Hen Hn. rewrite <- E1, <- E2, <- E3, <- E4. rewrite <- E3 in Hen. cbn [gen_cfg] in *.
  eapply built_dealt; [exact Eb| |exact Hen|exact Hn]. symmetry. apply sortHosts_idem.
  assert (NoDup (map ih_ID (inv_Nodes sorted))) as Hnd.
  { revert Eb. unfold buildEC2Configs.
    destruct (validateResourceLimits _) as [[]| |]; cbn [out_bind]; [|discriminate..].
    destruct (validateNetworkConfig _) as [[]| |]; cbn [out_bind]; [|discriminate..].
    destruct (validateProviderConfig _) as [[]| |]; cbn [out_bind]; [|discriminate..].
    destruct (negb _ && negb _); [discriminate|]. destruct (_ <? 4); [discriminate|].
    destruct (checkInventoryIDs _ _ _) as [[]| |] eqn:Ec; cbn [out_bind]; [|discriminate..]. intros _.
    by apply checkInventoryIDs_ok in Ec as [? _]. }
  cbn [inv_Nodes sorted] in Hnd. by rewrite (Permutation_map ih_ID (sortHosts_Permutation (inv_Nodes inventory))) in Hnd.
Qed.

Lemma campaignLimits_plain l : plainLimits l -> plainLimits (campaignLimits l).
Proof. intros Hp. unfold campaignLimits. by destruct (_ && _). Qed.

(** C16. A cluster generated for an inventory starts. If [genEC2Config] succeeds
    and its files are stored as written, the configuration can be read and every
    operator starts from its secrets as a well-formed node in its initial state,
    with the share dealt to its identifier, in whatever order the inventory lists
    the hosts; and the remote evaluator has the identifier and the advertised
    address of every operator. *)
Theorem ec2_cluster_starts o r g remote path :
  genEC2Config sibling below rel readFile json_inventory o r = Ok (g, remote) -> enough r (eo_BMax o) ->
  cf_N (gen_cfg g) <= 2 ^ 32 -> codeFor rs_New (cf_N (gen_cfg g)) -> plainLimits (eo_Limits o) -> eo_ClusterID o <> [] ->
  stored readFile crsPath json_fields json_config json_secrets g path ->
  (exists cfg, readConfig readFile crsPath json_fields json_config path = Ok cfg /\
    forall i faults, 0 <= i < cf_N (gen_cfg g) -> exists secretsPath s nc n,
      gen_secrets g !! Z.to_nat i = Some (secretsPath, s) /\
      readNodeSecrets readFile json_fields json_secrets secretsPath = Ok s /\
      newNode uni rs_New cfg s i faults = Ok (nc, n) /\
      config_ok nc /\ sys_init rs_New nc (cf_Slot cfg) (mkSystem n [] []) /\
      secret nc = mkSecretShare i (shareOf (en_coeffs r) i) /\ cl_PK (cluster nc) = Mul (master r) Base) /\
  map (fun n => (rn_ID n, rn_URL n)) (re_Nodes remote) = map (fun op => (oc_ID op, HTTPAdvertiseURL op)) (cf_Nodes (gen_cfg g)).
Proof.
  intros Hg Hen Hn Hcode Hpl Hid Hst. destruct (genEC2_dealt o r g remote Hg Hen Hn) as [Hd Hurls]. split; [|exact Hurls].
  destruct (dealt_cluster_starts readFile crsPath json_fields json_config json_secrets uni rs_New _ r g path Hd
    Hen Hn Hcode (campaignLimits_plain _ Hpl) Hid Hst) as (cfg & Hread & Hstart).
  exists cfg. split; [done|]. intros i faults Hi. destruct (Hstart i faults Hi) as (p & s & nc & nd & ? & ? & ? & ? & ? & ? & ? & _).
  by exists p, s, nc, nd.
Qed.
End Deployed.

(** ** Binding a corpus *)

Section Bound.
Context `{Suite} `{Libp2pKeys}.
Context (uni : bytes -> bytes) (rs_New : Z -> Z -> option Encoder).
Context (readFile : bytes -> out bytes) (crsPath : bytes -> bytes -> bytes).
Context (json_fields : bytes -> out (list bytes)) (json_config : bytes -> out (ConfigFile * wireLimits)).
Context (json_provenance : bytes -> out corpusProvenance) (json_remote : bytes -> out remoteEvalConfig).

Abbreviation bind := (bindEncryptedCorpus uni readFile crsPath json_fields json_config json_provenance json_remote).

Lemma bound_fields cfg p id url cfg' : bindCorpusProvider cfg p id url = Ok cfg' ->
  cf_Provider cfg' = mkProvider (str "mempool-http") url defaultMempoolTimeoutMS id
    (cp_PlaintextMasterCorpusID p) (cp_EncryptedCorpusID p) (cp_EncryptedPrefixSetIDs p) true /\
  validateProviderConfig (cf_Provider cfg') = Ok tt /\
  cfg' = mkConfigFile (cf_Version cfg) (cf_ClusterID cfg) (cf_BMax cfg) (cf_N cfg) (cf_Threshold cfg) (cf_Slot cfg)
    (cf_CRSFile cfg) (cf_CRSSHA256 cfg) (cf_Nodes cfg) (cf_PublicKeyHex cfg) (cf_Blockspace cfg) (cf_Provider cfg')
    (cf_Network cfg) (cf_Limits cfg) (cf_ACSTrace cfg) (cf_CRSBytes cfg).
Proof.
  unfold bindCorpusProvider. case_bool_decide as Hid; [|discriminate]. cbn [negb]. rewrite Hid. set (provider := mkProvider _ _ _ _ _ _ _ _).
  destruct (validateProviderConfig provider) as [[]| |] eqn:Ep; cbn [out_bind]; [|discriminate..]. by intros [= <-].
Qed.

(** Only the provider changes, and what is bound is already normal. *)
Lemma bound_normal cfg cfg' : cfg' = mkConfigFile (cf_Version cfg) (cf_ClusterID cfg) (cf_BMax cfg) (cf_N cfg)
    (cf_Threshold cfg) (cf_Slot cfg) (cf_CRSFile cfg) (cf_CRSSHA256 cfg) (cf_Nodes cfg) (cf_PublicKeyHex cfg)
    (cf_Blockspace cfg) (cf_Provider cfg') (cf_Network cfg) (cf_Limits cfg) (cf_ACSTrace cfg) (cf_CRSBytes cfg) ->
  normalizeProviderConfig (cf_Provider cfg') = cf_Provider cfg' ->
  let c := normalizeConfig cfg in
  normalizeConfig cfg' = mkConfigFile (cf_Version c) (cf_ClusterID c) (cf_BMax c) (cf_N c) (cf_Threshold c) (cf_Slot c)
    (cf_CRSFile c) (cf_CRSSHA256 c) (cf_Nodes c) (cf_PublicKeyHex c) (cf_Blockspace c) (cf_Provider cfg')
    (cf_Network c) (cf_Limits c) (cf_ACSTrace c) (cf_CRSBytes c).
Proof. intros -> HP. cbn in HP |- *. unfold normalizeConfig. cbn. by rewrite HP. Qed.

(** What binding puts together. *)
Lemma bind_steps configPath corpusPath url remotePath cfg' remote :
  bind configPath corpusPath url remotePath = Ok (cfg', remote) ->
  exists cfg p pk, readConfig readFile crsPath json_fields json_config configPath = Ok cfg /\
    readCorpusProvenance readFile json_provenance corpusPath = Ok p /\ unmarshalPointHex (cf_PublicKeyHex cfg) = Ok pk /\
    PublicConfigID uni (cf_BMax cfg) (cf_CRSSHA256 cfg) (Some pk) = Ok (cp_PublicConfigID p) /\
    bindCorpusProvider cfg p (cp_PublicConfigID p) url = Ok cfg' /\
    forall re, remote = Some re -> re_Corpus re = p /\ re_BMax re = cf_BMax cfg /\ NodeCount re = cf_N cfg /\
      re_Threshold re = cf_Threshold cfg.
Proof.
  unfold bindEncryptedCorpus. destruct (blank configPath || _ || _); [discriminate|].
  destruct (readConfig _ _ _ _ _) as [cfg| |] eqn:E1; cbn [out_bind]; [|discriminate..].
  destruct (readCorpusProvenance _ _ _) as [p| |] eqn:E2; cbn [out_bind]; [|discriminate..].
  destruct (validateCorpusProvenance _ _ _); cbn [out_bind]; [|discriminate..].
  destruct (unmarshalPointHex _) as [pk| |] eqn:E3; cbn [out_bind]; [|discriminate..].
  destruct (PublicConfigID _ _ _ _) as [id| |] eqn:E4; cbn [out_bind]; [|discriminate..].
  destruct (bindCorpusProvider cfg p id url) as [bound| |] eqn:E5; cbn [out_bind]; [|discriminate..].
  assert (cp_PublicConfigID p = id) as Hid.
  { revert E5. unfold bindCorpusProvider. by case_bool_decide. }
  pose proof (bound_fields _ _ _ _ _ E5) as (_ & _ & HE).
  intros HR. exists cfg, p, pk. rewrite Hid. revert HR. case_bool_decide; [by intros [= <- <-]|].
  destruct (readFile remotePath) as [data| |]; cbn [out_bind]; [|discriminate..].
  destruct (json_remote data) as [parsed| |]; cbn [out_bind]; [|discriminate..].
  destruct (negb (re_BMax parsed =? cf_BMax bound) || negb (NodeCount parsed =? cf_N bound) ||
    negb (re_Threshold parsed =? cf_Threshold bound)) eqn:Em; [discriminate|]. intros [= <- <-].
  rewrite HE in Em. cbn in Em.
  split_and!; [done..|]. intros re [= <-]. cbn. split_and!; [done|lia..].
Qed.

(** Binding a configuration to a corpus keeps its nodes: whoever starts from the
    configuration that was read starts from the bound one, in the same state, with
    the same share, cluster and public identifier, and asks the mempool service for
    exactly the bound corpus. *)
Lemma bind_keeps_nodes configPath corpusPath url remotePath cfg' remote s i faults :
  bind configPath corpusPath url remotePath = Ok (cfg', remote) ->
  exists cfg p, readConfig readFile crsPath json_fields json_config configPath = Ok cfg /\
    readCorpusProvenance readFile json_provenance corpusPath = Ok p /\
    forall nc n, newNode uni rs_New cfg s i faults = Ok (nc, n) ->
      exists nc', newNode uni rs_New cfg' s i faults = Ok (nc', n) /\ cluster nc' = cluster nc /\ secret nc' = secret nc /\
        publicConfigID nc' = publicConfigID nc /\ RequireExactCount (Provider nc') = true /\
        ExpectedPublicConfigID (Provider nc') = publicConfigID nc' /\
        ExpectedEncryptedCorpusID (Provider nc') = cp_EncryptedCorpusID p /\
        ExpectedEncryptedPrefixSetIDs (Provider nc') = cp_EncryptedPrefixSetIDs p.
Proof.
  intros (cfg & p & pk & Hr & Hp & Hpk & Hpub & Hb & _)%bind_steps. exists cfg, p. split; [done|]. split; [done|].
  intros nc n. apply bound_fields in Hb as (HP & HV & HE). unfold newNode.
  rewrite (bound_normal _ _ HE) by (by rewrite HP). set (c := normalizeConfig cfg).
  cbn [cf_Version cf_ClusterID cf_BMax cf_N cf_Threshold cf_Slot cf_CRSFile cf_CRSSHA256 cf_Nodes cf_PublicKeyHex
    cf_Blockspace cf_Provider cf_Network cf_Limits cf_ACSTrace cf_CRSBytes].
  change (cf_PublicKeyHex c) with (cf_PublicKeyHex cfg). change (cf_BMax c) with (cf_BMax cfg).
  change (cf_CRSSHA256 c) with (cf_CRSSHA256 cfg). rewrite HV, Hpk. cbn [out_bind]. rewrite Hpub.
  destruct (validateResourceLimits (cf_Limits c)) as [[]| |]; cbn [out_bind]; [|discriminate..].
  destruct (validateProviderConfig (cf_Provider c)) as [[]| |]; cbn [out_bind]; [|discriminate..].
  destruct (validateNetworkConfig (cf_Network c)) as [[]| |]; cbn [out_bind]; [|discriminate..].
  destruct (negb (bool_decide (ns_ClusterID s = cf_ClusterID c))); [discriminate|].
  destruct (negb (ns_OperatorID s =? i)); [discriminate|].
  destruct (findSelf (cf_Nodes c) i) as [self|]; [|discriminate].
  destruct (NewBTDFromPublicCRS _ _ _) as [btd| |]; cbn [out_bind]; [|discriminate..].
  destruct (negb (bool_decide (ExpectedPublicConfigID (cf_Provider c) = [])) && _); [discriminate|].
  rewrite HP. cbn [ExpectedPublicConfigID]. rewrite (bool_decide_true (cp_PublicConfigID p = cp_PublicConfigID p)) by done.
  rewrite andb_false_r.
  destruct (unmarshalScalarHex _) as [scalar| |]; cbn [out_bind]; [|discriminate..].
  destruct (unmarshalLibP2PPrivateKey _) as [[key|]| |]; cbn [out_bind]; try discriminate.
  destruct (IDFromPrivateKey key) as [peerID| |]; cbn [out_bind]; [|discriminate..].
  destruct (negb (bool_decide (peerID = oc_P2PPeerID self))); [discriminate|].
  intros HN. match type of HN with out_bind ?slot _ = _ => destruct slot as [fresh| |] eqn:Ef end;
    cbn [out_bind] in HN; [|discriminate..]. injection HN as <- <-.
  match goal with |- context [out_bind ?slot _] => change slot with (Ok fresh) || rewrite (Ef : slot = Ok fresh) end.
  eexists. split; [reflexivity|]. by split_and!.
Qed.
End Bound.
