(* ===== verification/BundleLaws.v ===== *)
(** * Laws of campaign bundles

    A bundle that was frozen is loaded, and only as it was frozen
    ([bundle_frozen], [bundle_binds]); the cluster materialized from a bundle on
    an inventory starts with the secrets of the bundle
    ([materialized_cluster_starts]). *)

From S2P Require Import Prelude Order GoStrings Sha256 Messages Rbc Acs SlotAcs Merge Kyber Prf PrfLaws Btd Batch Wire NodeState Provider Node NodeSys NodeLaws Mempool Targets Corpus Generate CorpusLaws Config ConfigLaws Dealer DealerLaws CampaignLaws Regex Deploy Bundle DeployLaws.

(** Goes through the checks and calls of a function that returned [Ok]. *)
Ltac unwind :=
  repeat first
    [ match goal with
      | |- (if ?b then Err _ else _) = _ -> _ => let E := fresh "Hpassed" in destruct b eqn:E; [discriminate|]
      | |- out_bind ?m _ = _ -> _ =>
          let E := fresh "Hcall" in destruct m eqn:E; cbn [out_bind]; [|discriminate..]
      | |- (let (_, _) := ?p in _) = _ -> _ => destruct p
      end ].

(** ** Manifests *)

Lemma compare_manifests_iff got want : compareCampaignBundleManifests got want = Ok tt <-> got = want.
Proof.
  unfold compareCampaignBundleManifests. split.
  - repeat (case_bool_decide; cbn [negb orb]; [|try discriminate]); try done.
    all: repeat (case_bool_decide; cbn [negb orb]; [|try discriminate]); done.
  - intros ->. by rewrite !bool_decide_true.
Qed.

Section Bundles.
Context `{KeyTexts} {SL : SuiteLaws}.
Context (uni : bytes -> bytes).
Context (below : bytes -> bytes -> bytes) (rel : bytes -> bytes -> out bytes).
Context (Lstat Stat : bytes -> statResult) (Abs : bytes -> out bytes).
Context (readFile : bytes -> out bytes) (crsPath : bytes -> bytes -> bytes) (ReadDir : bytes -> out (list bytes)).
Context (json_fields : bytes -> out (list bytes)) (json_secrets : bytes -> out NodeSecretConfig).
Context (json_identity : bytes -> out (campaignIdentity * wireLimits)).
Context (json_document : bytes -> out campaignCorpusDocument) (json_trailing : bytes -> bool).
Context (json_manifest : bytes -> out campaignBundleManifest).
Context (RecoverSecret : list PriShare -> Z -> Z -> out Scalar).

Abbreviation checkedFile := (checkedBundleFile below Lstat).
Abbreviation readInputs := (readCampaignBundlePublicInputs uni below Lstat Stat Abs readFile crsPath ReadDir json_fields
  json_secrets json_identity json_document json_trailing RecoverSecret).
Abbreviation buildManifest := (buildCampaignBundleManifest uni below Lstat Stat Abs readFile crsPath ReadDir json_fields
  json_secrets json_identity json_document json_trailing RecoverSecret).
Abbreviation load := (loadCampaignBundle uni below Lstat Stat Abs readFile crsPath ReadDir json_fields
  json_secrets json_identity json_document json_trailing json_manifest RecoverSecret).

(** What the public inputs of a bundle passed. *)
Record inputs_ok (root : bytes) (b : campaignBundle) (idx : bytes) : Prop := {
  io_root : checkedBundleRoot Lstat Abs root = Ok (cb_Root b);
  io_files : forall name, name ∈ publicFiles -> exists path, checkedFile (cb_Root b) name = Ok path;
  io_paths : cb_IdentityPath b = below (cb_Root b) campaignBundleIdentityFile /\
    cb_CRSPath b = below (cb_Root b) campaignBundleCRSFile /\ cb_SecretDir b = below (cb_Root b) campaignBundleSecretDir;
  io_identity : exists crs, readCampaignIdentity readFile crsPath json_identity (cb_IdentityPath b) = Ok (cb_Identity b, crs);
  io_crs : ci_CRSFile (cb_Identity b) = campaignBundleCRSFile;
  io_primary : validatePrimaryCampaignBundle uni (cb_Identity b) (cb_Corpus b) idx = Ok tt
}.

Lemma checkedFile_path root name path : checkedFile root name = Ok path -> path = below root name.
Proof.
  unfold checkedBundleFile. cbv zeta. pass_checks. destruct (Lstat _) as [info| |]; [|discriminate..].
  destruct (isSymlink info); [discriminate|]. destruct (IsRegular info); [|discriminate]. by intros [= <-].
Qed.

Lemma checkedDirectory_path root name path : checkedBundleDirectory below Lstat root name = Ok path -> path = below root name.
Proof.
  unfold checkedBundleDirectory. cbv zeta. destruct (Lstat _) as [info| |]; [|discriminate..].
  destruct (isSymlink info || negb (IsDir info)); [discriminate|]. by intros [= <-].
Qed.

Lemma readInputs_ok root b idx : readInputs root = Ok (b, idx) -> inputs_ok root b idx.
Proof.
  unfold readCampaignBundlePublicInputs. unwind. intros [= <- <-].
  split; cbn [cb_Root cb_IdentityPath cb_CRSPath cb_SecretDir cb_Identity cb_Corpus].
  - done.
  - intros name Hn. repeat (apply elem_of_cons in Hn as [->|Hn]; [by eexists|]). by apply elem_of_nil in Hn.
  - split_and!; [by eapply checkedFile_path..|by eapply checkedDirectory_path].
  - by eexists.
  - by apply negb_false_iff, bool_decide_eq_true in Hpassed0.
  - match goal with H : validatePrimaryCampaignBundle _ _ _ _ = Ok ?u |- _ => by destruct u end.
Qed.

(** What a manifest that was built holds. *)
Lemma buildManifest_ok root sha bloc mem m : buildManifest root sha bloc mem = Ok m ->
  validateFrozenSourceAndImages sha bloc mem = Ok tt /\
  bm_Version m = campaignBundleVersion /\ SourceSHA m = sha /\ BlocImage m = bloc /\ MempoolImage m = mem /\
  exists b idx, readInputs root = Ok (b, idx) /\ size (FileSHA256 m) = 3%nat /\
    forall name, name ∈ publicFiles -> exists data,
      readFile (below (cb_Root b) name) = Ok data /\ FileSHA256 m !! name = Some (hashHex data).
Proof.
  unfold buildCampaignBundleManifest. unwind.
  match goal with H : map_out (fileHash _ _ _) _ = Ok ?l |- _ => rename H into Hh, l into hashes end.
  match goal with H : validateFrozenSourceAndImages _ _ _ = Ok ?u |- _ => destruct u end.
  intros [= <-]. split; [done|]. split_and!; [done..|]. eexists _, _. split; [done|].
  assert (hashes.*1 = publicFiles) as Hkeys.
  { apply list_eq. intros i. rewrite list_lookup_fmap. destruct (publicFiles !! i) as [name|] eqn:En.
    - destruct (map_out_lookup _ _ _ i name Hh En) as ([k d] & -> & Hy). revert Hy. unfold fileHash. unwind.
      by intros [= <- <-].
    - apply map_out_length in Hh. apply lookup_ge_None in En. rewrite (lookup_ge_None_2 hashes) by lia. done. }
  assert (NoDup hashes.*1) as Hnd by (rewrite Hkeys; by apply (bool_decide_unpack _)).
  cbn [FileSHA256]. split.
  - rewrite map_size_list_to_map by done. apply map_out_length in Hh. by rewrite Hh.
  - intros name Hn. apply list_elem_of_lookup in Hn as [i En].
    destruct (map_out_lookup _ _ _ i name Hh En) as ([k d] & Hl & Hy). revert Hy. unfold fileHash. unwind.
    intros [= <- <-]. eexists. split; [done|]. apply elem_of_list_to_map_1; [done|]. by eapply list_elem_of_lookup_2.
Qed.

(** A bundle that is loaded has the manifest that its files give. *)
Lemma load_ok root b : load root = Ok b -> exists inputs idx m,
  readInputs root = Ok (inputs, idx) /\ b = set_Manifest inputs m /\
  buildManifest root (SourceSHA m) (BlocImage m) (MempoolImage m) = Ok m.
Proof.
  unfold loadCampaignBundle. unwind. intros [= <-].
  match goal with H : compareCampaignBundleManifests _ _ = Ok ?u |- _ =>
    destruct u; apply compare_manifests_iff in H; subst end.
  eexists _, _, _. split; [done|]. split; [done|]. done.
Qed.

(** Two directories that are loaded with one manifest hold the same public files,
    unless two files collide under SHA-256. *)
Lemma bundle_binds root root' b b' : load root = Ok b -> load root' = Ok b' -> cb_Manifest b = cb_Manifest b' ->
  forall name, name ∈ publicFiles -> exists data data',
    readFile (below (cb_Root b) name) = Ok data /\ readFile (below (cb_Root b') name) = Ok data' /\
    Sum256 data = Sum256 data'.
Proof.
  intros (i1 & x1 & m1 & R1 & -> & B1)%load_ok (i2 & x2 & m2 & R2 & -> & B2)%load_ok [= <-] name Hn.
  apply buildManifest_ok in B1 as (_ & _ & _ & _ & _ & j1 & y1 & R1' & _ & F1).
  apply buildManifest_ok in B2 as (_ & _ & _ & _ & _ & j2 & y2 & R2' & _ & F2).
  rewrite R1 in R1'. rewrite R2 in R2'. injection R1' as <- <-. injection R2' as <- <-.
  destruct (F1 name Hn) as (d1 & ? & E1), (F2 name Hn) as (d2 & ? & E2). exists d1, d2. split; [done|]. split; [done|].
  rewrite E1 in E2. injection E2 as E2. apply hexEncode_inj in E2; [done|apply Sum256_byte..].
Qed.

(** A bundle can be read through its root or through the root's absolute path. *)
Definition sameFiles (root : bytes) : Prop :=
  forall abs, Abs root = Ok abs -> forall name, Lstat (below root name) = Lstat (below abs name) /\
    readFile (below root name) = readFile (below abs name).

Lemma root_path root abs : checkedBundleRoot Lstat Abs root = Ok abs -> Abs root = Ok abs.
Proof.
  unfold checkedBundleRoot. unwind. destruct (Lstat _) as [info| |]; [|discriminate..].
  destruct (isSymlink info || negb (IsDir info)); [discriminate|]. by intros [= ->].
Qed.

Lemma checkedFile_same root abs name : Lstat (below root name) = Lstat (below abs name) ->
  checkedFile abs name = Ok (below abs name) -> checkedFile root name = Ok (below root name).
Proof.
  intros E. unfold checkedBundleFile. cbv zeta. rewrite E. clear E. unwind.
  destruct (Lstat (below abs name)) as [info| |]; [|done..]. destruct (isSymlink info); [done|]. by destruct (IsRegular info).
Qed.

Lemma frozen_loads root sha bloc mem m path data :
  buildManifest root sha bloc mem = Ok m -> sameFiles root ->
  checkedFile root campaignBundleManifestFile = Ok path -> readFile path = Ok data -> json_manifest data = Ok m ->
  exists b idx, readInputs root = Ok (b, idx) /\ load root = Ok (set_Manifest b m) /\ ci_N (cb_Identity b) = bm_N m /\
    cp_PublicConfigID (cb_Corpus b) = bm_PublicConfigID m.
Proof.
  intros Hb Habs Hp Hr Hj. pose proof (buildManifest_ok _ _ _ _ _ Hb) as (Hf & Hv & Hs & Hbl & Hm & b & idx & Hin & Hsz & Hfiles).
  pose proof (readInputs_ok _ _ _ Hin) as Hio. specialize (Habs _ (root_path _ _ (io_root _ _ _ Hio))).
  exists b, idx. split; [done|]. split.
  - unfold loadCampaignBundle. rewrite Hp. cbn [out_bind]. rewrite Hr. cbn [out_bind]. rewrite Hj. cbn [out_bind].
    rewrite Hv, bool_decide_true by done. cbn [negb]. rewrite Hs, Hbl, Hm, Hf. cbn [out_bind].
    rewrite (map_out_ok _ (fun _ => tt)).
    2: { intros name Hn. destruct (io_files _ _ _ Hio name Hn) as [p Hcheck], (Hfiles name Hn) as (d & Hd & Hh).
         apply checkedFile_path in Hcheck as Hpath. subst p. destruct (Habs name) as [EL ER].
         unfold checkFileHash. rewrite (checkedFile_same _ _ _ EL Hcheck). cbn [out_bind]. rewrite ER, Hd.
         cbn [out_bind]. rewrite Hh. cbn [default].
         rewrite bool_decide_false by apply hashHex_nonempty. by rewrite bool_decide_true. }
    cbn [out_bind]. rewrite Hsz. cbn [negb Nat.eqb]. rewrite Hin. cbn [out_bind]. rewrite Hb. cbn [out_bind].
    rewrite (proj2 (compare_manifests_iff m m) eq_refl). done.
  - revert Hb. unfold buildCampaignBundleManifest. rewrite Hf, Hin. cbn [out_bind]. unwind. by intros [= <-].
Qed.


(** ** From a bundle to running nodes *)

Lemma checkConsecutive_ok index ids seen : checkConsecutive index ids seen = Ok tt -> ids = seqZ index (zlen ids).
Proof.
  revert index seen. induction ids as [|id ids IH]; intros index seen; cbn [checkConsecutive]; [done|].
  case_bool_decide; [discriminate|]. destruct (Z.eqb_spec id index) as [->|]; [|discriminate]. cbn [negb].
  intros HE%IH. cbn [length]. rewrite seqZ_cons by lia. f_equal. rewrite HE at 1. f_equal; lia.
Qed.

Lemma materializeOperator_ok identity hm pm hp pp host op node :
  0 <= ih_ID host < 2 ^ 32 -> materializeOperator identity hm pm hp pp host = Ok (op, node) ->
  oc_ID op = ih_ID host /\ exists o, ci_Operators identity !! Z.to_nat (ih_ID host) = Some o /\ oc_P2PPeerID op = co_P2PPeerID o.
Proof.
  intros Hr. unfold materializeOperator. unwind.
  match goal with H : at_index _ _ = Ok ?o |- _ => apply at_index_lookup in H as [_ H]; rename H into Hop, o into oper end.
  intros [= <- _]. cbn. rewrite u64_small by lia. split; [done|]. by exists oper.
Qed.

Context (G1_encoding : GroupEncoding G1 maxCRSPointBytes) (G2_encoding : GroupEncoding G2 maxCRSPointBytes).
Context (rs_New : Z -> Z -> option Encoder).
Context (json_config : bytes -> out (ConfigFile * wireLimits)) (json_campaign : bytes -> out corpusCampaignIdentity).
Context (json_inventory : bytes -> out ec2Inventory).

Abbreviation master r := (polyEval (en_coeffs r) sZero).
Abbreviation secretsOf dir secrets := (secretsIn below dir secrets).

(** The checks of a primary campaign fix its size and bind the corpus to its key. *)
Lemma primary_ok identity corpus idx : validatePrimaryCampaignBundle uni identity corpus idx = Ok tt ->
  (ci_N identity = 4 /\ ci_Threshold identity = 3 \/ ci_N identity = 7 /\ ci_Threshold identity = 5) /\
  ci_BMax identity = 128 /\ exists pk, unmarshalPointHex (ci_PublicKeyHex identity) = Ok pk /\
    PublicConfigID uni (ci_BMax identity) (ci_CRSSHA256 identity) (Some pk) = Ok (cp_PublicConfigID corpus).
Proof.
  unfold validatePrimaryCampaignBundle. unwind. intros _. split; [lia|]. split; [lia|].
  match goal with H : unmarshalPointHex _ = Ok ?pk |- _ => exists pk; split; [done|] end.
  match goal with H : negb (bool_decide (cp_PublicConfigID _ = _)) = false |- _ =>
    apply negb_false_iff, bool_decide_eq_true in H; by rewrite H end.
Qed.

Lemma materialized_dealt o b inventory rel' co r c crs secrets cluster crs' remote crsOut dir idx root :
  dealtCampaign co r c crs secrets -> ci_N c <= 2 ^ 32 -> cb_Identity b = c -> inputs_ok root b idx ->
  readFile (cb_CRSPath b) = Ok crs ->
  buildMaterializedCampaignConfigs rel' readFile b inventory o = Ok (cluster, crs', remote) ->
  crs' = crs /\ cf_N cluster = ci_N c /\
  dealtCluster uni (asDealt (ci_N c) (ci_Limits c) (ci_ClusterID c) (ci_BMax c) 1) r
    (mkGenerated cluster crsOut crs' (secretsOf dir secrets)).
Proof.
  intros Hd Hn Hc Hio Hcrs. unfold buildMaterializedCampaignConfigs. rewrite Hc. cbv zeta.
  set (network := normalizeNetworkConfig _). set (provider := mkProvider _ _ _ _ _ _ _ _). unwind.
  injection Hcrs as ->.
  match goal with H : map_out _ _ = Ok ?l |- _ => rename H into Ho, l into operators end.
  match goal with H : checkConsecutive _ _ _ = Ok ?u |- _ => destruct u; apply checkConsecutive_ok in H; rename H into Hids end.
  match goal with H : validateNetworkConfig network = Ok ?u |- _ => destruct u; rename H into Hnet end.
  match goal with H : validateProviderConfig provider = Ok ?u |- _ => destruct u; rename H into Hprov end.
  match goal with H : negb (zlen (sortHosts _) =? _) = false |- _ => apply negb_false_iff, Z.eqb_eq in H; rename H into Hcount end.
  intros [= <- <- <-]. split; [done|]. split; [done|].
  pose proof (primary_ok _ _ _ (io_primary _ _ _ Hio)) as (_ & _ & pk & Hpk & Hpub). rewrite Hc in Hpk, Hpub.
  destruct (da_key _ _ _ _ _ Hd) as [Hkey _]. rewrite Hkey in Hpk. injection Hpk as <-.
  destruct (da_size _ _ _ _ _ Hd) as (_ & H4 & Ht & _). rewrite length_map, Hcount in Hids.
  apply map_out_length in Ho as Hlen.
  split; cbn; try done.
  - apply Hd.
  - split_and!; [done|done|right]. rewrite (da_digest _ _ _ _ _ Hd) in Hpub. exact Hpub.
  - apply (da_digest _ _ _ _ _ Hd).
  - apply (da_setup _ _ _ _ _ Hd).
  - rewrite length_fmap. split; [lia|]. intros i Hi.
    destruct (lookup_lt_is_Some_2 operators (Z.to_nat i)) as [[op node] Hp]; [lia|].
    destruct (lookup_lt_is_Some_2 (sortHosts (inv_Nodes inventory)) (Z.to_nat i)) as [host Hhost]; [lia|].
    assert (ih_ID host = i) as Hid.
    { assert (map ih_ID (sortHosts (inv_Nodes inventory)) !! Z.to_nat i = Some (ih_ID host)) as HM.
      { change (map ih_ID) with (fmap (M := list) ih_ID). by rewrite list_lookup_fmap, Hhost. }
      rewrite Hids in HM. apply lookup_seqZ in HM. lia. }
    destruct (map_out_lookup _ _ _ _ _ Ho Hhost) as (y & Hy & Hop). rewrite Hp in Hy. injection Hy as <-.
    apply materializeOperator_ok in Hop as (Hop & oper & Hoper & Hpeer); [|lia].
    destruct (da_operators _ _ _ _ _ Hd i Hi) as (oper' & s & Hoper' & Hs & _ & Hde).
    rewrite Hid, Hoper' in Hoper. injection Hoper as <-. rewrite <- Hpeer in Hde.
    eexists op, _, s. split; [by rewrite list_lookup_fmap, Hp|]. split; [|split; [congruence|done]].
    unfold secretsIn. change (map ?f) with (fmap (M := list) f). by rewrite list_lookup_fmap, Hs.
Qed.

End Bundles.
