(* ===== verification/DeployDemo.v ===== *)
(** * A deployment and a campaign

    Over the suite of [ConfigDemo]: addresses and their forms, a cluster of four
    generated for an inventory, and a primary campaign of four operators frozen in
    a bundle and materialized on that inventory. *)

From S2P Require Import Prelude Order GoStrings Sha256 Messages Rbc Acs SlotAcs Merge Kyber Prf PrfLaws Btd Batch Wire NodeState Provider Node NodeSys NodeLaws Mempool Targets Corpus Generate CorpusLaws Config ConfigLaws Dealer DealerLaws CampaignLaws ConfigDemo Regex Deploy Bundle DeployLaws BundleLaws.

(** ** Addresses *)

Example multiaddr_v4 : p2pMultiaddr (str "10.0.0.1") 9000 = Ok (str "/ip4/10.0.0.1/tcp/9000").
Proof. vm_compute. reflexivity. Qed.

Example multiaddr_v6 : p2pMultiaddr (str "fe80::1") 9000 = Ok (str "/ip6/fe80::1/tcp/9000").
Proof. vm_compute. reflexivity. Qed.

(** What is no address is taken for a name. *)
Example multiaddr_name : p2pMultiaddr (str "10.0.0.256") 9000 = Ok (str "/dns4/10.0.0.256/tcp/9000").
Proof. vm_compute. reflexivity. Qed.

Example mapped_v4 : ParseIP (str "::ffff:1.2.3.4") = ParseIP (str "1.2.3.4").
Proof. vm_compute. reflexivity. Qed.

Example bad_addresses :
  map ParseIP [str "1:2:3:4:5:6:7:8:9"; str "1::2::3"; str "01.2.3.4"; str "1.2.3"; str ":1"; str "1:"; str "12345::"] =
  replicate 7 None.
Proof. vm_compute. reflexivity. Qed.

(** ** A cluster on four hosts *)

Module DeployDemo.
Import ConfigDemo.

Definition host (id : Z) (ip : bytes) : ec2InventoryHost :=
  mkHost id [] ip [] [] [] (str "us-east-1") (str "us-east-1a") (str "t3.small").

(** The inventory lists the hosts in another order than their identifiers'. *)
Definition inventory : ec2Inventory :=
  mkInventory ∅ (Some (host 9 (str "10.0.0.9")))
    [host 2 (str "10.0.0.2"); host 0 (str "10.0.0.1"); host 3 (str "fe80::3"); host 1 (str "10.0.0.4")].
Definition json_inventory (data : bytes) : out ec2Inventory := Ok inventory.
Definition anyFile (path : bytes) : out bytes := Ok [].

Definition eo : ec2ConfigOptions :=
  mkEC2Options (str "inventory.json") (str "cluster.json") (str "cluster.crs") (str "secrets") (str "ec2") 4 0 2 0 8000 9000
    (str "private-ip") (str "private-ip") [] (str "persistent") [] 0 (mkBlockspace 0 0 0) defaultResourceLimits [] [] [].

(** The inventory is the first document. *)
Definition genEC2 (file : bytes -> out bytes) : out (generated * remoteEvalConfig) :=
  genEC2Config sibling below rel file json_inventory eo r.

Definition gen : generated := match genEC2 anyFile with Ok (g, _) => g | _ => nothing end.
Definition remote : remoteEvalConfig :=
  match genEC2 anyFile with Ok (_, re) => re | _ => mkRemote [] [] 0 0 0 [] [] ∅ 0 noProvenance end.

Definition secrets : list (bytes * NodeSecretConfig) := Eval vm_compute in gen_secrets gen.

Lemma ec2_secrets_eq : gen_secrets gen = secrets.
Proof. vm_compute. reflexivity. Qed.

Definition readFile (path : bytes) : out bytes :=
  if bool_decide (path = str "cluster.json") then Ok [0]
  else if bool_decide (path = str "inventory.json") then Ok []
  else if bool_decide (path = str "cluster.crs") then Ok (gen_crs gen)
  else
    match list_find (fun p => p.1 = path) secrets with
    | Some (i, _) => Ok [Z.of_nat (S i)]
    | None => Err "no such file"
    end.
Definition json_config (data : bytes) : out (ConfigFile * wireLimits) :=
  Ok (set_CRS zeroLimits [] (cf_Slot (gen_cfg gen)) (gen_cfg gen), wireOf (cf_Limits (gen_cfg gen))).
Definition json_secrets (data : bytes) : out NodeSecretConfig :=
  match data with
  | [n] => match secrets !! Z.to_nat (n - 1) with Some p => Ok p.2 | None => Err "no such secret" end
  | _ => Err "no such secret"
  end.

Lemma ec2_gen_ok : genEC2 readFile = Ok (gen, remote).
Proof.
  assert (genEC2 readFile = genEC2 anyFile) as -> by done.
  unfold gen, remote. assert (succeeded (genEC2 anyFile) = true) as H by (vm_compute; reflexivity).
  by destruct (genEC2 anyFile) as [[]| |].
Qed.

Lemma gen_N : cf_N (gen_cfg gen) = 4.
Proof. vm_compute. reflexivity. Qed.

Lemma ec2_files : stored readFile crsPath json_fields json_config json_secrets gen (str "cluster.json").
Proof.
  split.
  - exists [0], requiredSecretFields. split; [done|]. split; [done|].
    split; [by apply (bool_decide_unpack _)|]. split; [by apply (bool_decide_unpack _)|done].
  - split; [vm_compute; reflexivity|]. assert (cf_CRSFile (gen_cfg gen) = str "cluster.crs") as -> by (vm_compute; reflexivity).
    done.
  - intros p s. rewrite ec2_secrets_eq. unfold secrets. intros Hin.
    repeat (apply elem_of_cons in Hin as [[= -> ->]|Hin];
      [split; [vm_compute; reflexivity|]; eexists _, requiredSecretFields; split; [vm_compute; reflexivity|];
       split; [done|]; split; [by apply Forall_forall|vm_compute; reflexivity]|]).
    by apply elem_of_nil in Hin.
Qed.
End DeployDemo.

Lemma ec2_cluster_starts_witness :
  exists cfg s nc n,
    readConfig DeployDemo.readFile ConfigDemo.crsPath ConfigDemo.json_fields DeployDemo.json_config (str "cluster.json") = Ok cfg /\
    newNode ConfigDemo.uni ConfigDemo.rs_New cfg s 2 (mkFaults false false false) = Ok (nc, n) /\ config_ok nc /\
    secret nc = mkSecretShare 2 (mkPriShare 2 e1).
Proof.
  destruct (ec2_cluster_starts (F5_encoding maxCRSPointBytes ltac:(done)) (F5_encoding maxCRSPointBytes ltac:(done))
    ConfigDemo.sibling ConfigDemo.below ConfigDemo.rel ConfigDemo.uni ConfigDemo.rs_New DeployDemo.readFile ConfigDemo.crsPath
    ConfigDemo.json_fields DeployDemo.json_config DeployDemo.json_secrets DeployDemo.json_inventory DeployDemo.eo ConfigDemo.r
    DeployDemo.gen DeployDemo.remote (str "cluster.json") DeployDemo.ec2_gen_ok ConfigDemo.enough_random
    ltac:(rewrite DeployDemo.gen_N; lia) ltac:(by eexists) ltac:(split_and!; reflexivity) ltac:(done)
    DeployDemo.ec2_files) as ((cfg & Hread & Hstart) & _).
  destruct (Hstart 2 (mkFaults false false false) ltac:(rewrite DeployDemo.gen_N; lia))
    as (p & s & nc & n & _ & _ & Hnew & Hok & _ & Hsec & _).
  exists cfg, s, nc, n. split; [exact Hread|]. split; [exact Hnew|]. split; [exact Hok|exact Hsec].
Defined.

(** ** A campaign of four, frozen and materialized *)

Lemma PublicConfigID_nonempty `{Suite} uni B sha pk id : PublicConfigID uni B sha pk = Ok id -> id <> [].
Proof.
  unfold PublicConfigID. cbv zeta. unwind. destruct (hexDecode _); [|discriminate]. destruct pk; [|discriminate].
  unwind. intros [= <-]. apply hashHex_nonempty.
Qed.

Module CampaignBundleDemo.
Import ConfigDemo DeployDemo.

Definition r : entropy := mkEntropy (replicate 128 e1) (replicate 128 e3) [e2; e0; e1] [e1; e2; e3; e4].
Definition co : campaignIdentityOptions :=
  mkIdentityOptions (str "demo") (str "identity.json") (str "cluster.crs") (str "secrets") 4 3 128 (mkBlockspace 0 0 0) zeroLimits.

Definition shares : list PriShare := map (shareOf (en_coeffs r)) (seqZ 0 4).
Definition operators : list (campaignOperatorIdentity * NodeSecretConfig) :=
  Eval vm_compute in match map_out (campaignOperator (str "demo") r shares) (seqZ 0 4) with Ok l => l | _ => [] end.

Lemma operators_ok : map_out (campaignOperator (str "demo") r shares) (seqZ 0 4) = Ok operators.
Proof. vm_compute. reflexivity. Qed.

Lemma campaign_random : enough r 128.
Proof. by split_and!. Qed.

Definition root : bytes := str "/bundle".
Definition secretDir : bytes := str "/bundle/secrets".
Definition secretAt (i : Z) : bytes := below secretDir (str "operator-" ++ decimal i ++ str ".json").
Definition outputs : list bytes := [str "cluster.json"; str "cluster.crs"; str "remote-eval.json"].
Definition Abs (path : bytes) : out bytes := Ok path.
Definition Lstat (path : bytes) : statResult :=
  if bool_decide (path ∈ outputs) then NotExist
  else if bool_decide (path ∈ [root; secretDir]) then Found (mkFileInfo false true false 448)
  else Found (mkFileInfo false false true 384).
Definition ReadDir (dir : bytes) : out (list bytes) := Ok (map secretAt [0; 1; 2; 3]).
Definition crsPath (path file : bytes) : bytes :=
  if bool_decide (path = str "cluster.json") then file else str "/bundle/cluster.crs".
Definition json_secrets (data : bytes) : out NodeSecretConfig :=
  match data with
  | [i] => at_index operators.*2 i
  | _ => Err "no such secret"
  end.
Definition json_trailing (data : bytes) : bool := false.

Definition sha : bytes := replicate 40 97.
Definition image : bytes := str "123456789012.dkr.ecr.us-east-1.amazonaws.com/bloc@sha256:" ++ replicate 64 48.
Definition prefixes : gmap bytes bytes :=
  list_to_map [(str "8", str "p8"); (str "32", str "p32"); (str "128", str "p128")].

Definition mo : campaignMaterializeOptions :=
  mkMaterializeOptions root (str "inventory.json") (str "cluster.json") (str "cluster.crs") (str "remote-eval.json")
    (str "T0-same-az") (str "http://10.0.0.9:8090") [] [] [] 8000 9000 [] [] false (str "persistent").

Definition privateIP : bytes := str "private-ip".
Definition placed : list (OperatorConfig * remoteEvalNode) :=
  Eval vm_compute in
    match map_out (materializeOperator (mkIdentity [] [] 0 0 0 [] [] [] (mkBlockspace 0 0 0) zeroLimits operators.*1)
      privateIP privateIP 8000 9000) (sortHosts (inv_Nodes inventory)) with Ok l => l | _ => [] end.

Section Dealt.
Context (crs pkHex publicID : bytes).
Context (setup : dealSetup r 128 4 3 = Ok (crs, pkHex, shares)).
Context (publicKey : unmarshalPointHex pkHex = Ok (Mul (polyEval (en_coeffs r) sZero) Base)).
Context (public : PublicConfigID uni 128 (hashHex crs) (Some (Mul (polyEval (en_coeffs r) sZero) Base)) = Ok publicID).

Definition c : campaignIdentity :=
  mkIdentity campaignIdentityVersion (str "demo") 4 3 128 (str "cluster.crs") (hashHex crs) pkHex (mkBlockspace 0 128 21000)
    defaultResourceLimits operators.*1.
Definition corpus : corpusProvenance :=
  mkProvenance (str "bloc-encrypted-corpus-v1") LibraryVersion publicID (str "master") prefixes (str "corpus") prefixes 128 128.

Definition readFile (path : bytes) : out bytes :=
  if bool_decide (path ∈ [str "/bundle/cluster.crs"; str "cluster.crs"]) then Ok crs
  else
    match list_find (fun i => secretAt i = path) [0; 1; 2; 3] with
    | Some (i, _) => Ok [Z.of_nat i]
    | None => Ok path
    end.
Definition json_identity (data : bytes) : out (campaignIdentity * wireLimits) :=
  Ok (set_Limits zeroLimits c, wireOf (ci_Limits c)).
Definition json_campaign (data : bytes) : out corpusCampaignIdentity := Ok (documentOf c).
Definition json_document (data : bytes) : out campaignCorpusDocument :=
  Ok (mkCorpusDocument corpus (str "coordinated-position-v1")).

Lemma built : buildCampaignIdentity rel co r = Ok (c, crs, operators.*2).
Proof.
  unfold buildCampaignIdentity. cbn [co cio_ClusterID cio_N cio_Threshold cio_BMax cio_Limits cio_Blockspace].
  change (validateResourceLimits (campaignLimits zeroLimits)) with (Ok tt). cbn [out_bind]. rewrite setup. cbn [out_bind].
  change (if negb _ && negb _ then rel _ _ else _) with (Ok (str "cluster.crs")). cbn [out_bind]. by rewrite operators_ok.
Qed.

Lemma c_usable : usable c.
Proof. split_and!; [done|done|by apply (bool_decide_unpack _)|done]. Qed.

Lemma bundle_campaign_files :
  campaignStored below readFile crsPath json_fields json_secrets json_identity json_campaign ReadDir c crs operators.*2
    (below root campaignBundleIdentityFile) (below root campaignBundleSecretDir).
Proof.
  split.
  - eexists. split; [reflexivity|]. split; reflexivity.
  - reflexivity.
  - exists (map secretAt [0; 1; 2; 3]). split; reflexivity.
  - intros i s Hs Hi. pose proof (lookup_lt_Some _ _ _ Hs) as Hlt. cbn [length operators fmap list_fmap] in Hlt.
    assert (i = 0 \/ i = 1 \/ i = 2 \/ i = 3) as Hi4 by lia.
    destruct Hi4 as [-> | [-> | [-> | ->]]]; injection Hs as <-; (split; [reflexivity|]);
      eexists _, requiredSecretFields; (split; [reflexivity|]); (split; [done|]); (split; [by apply Forall_forall|reflexivity]).
Qed.

Lemma c_dealt : dealtCampaign co r c crs operators.*2.
Proof.
  apply (buildCampaign_dealt (F5_encoding maxCRSPointBytes ltac:(done)) (F5_encoding maxCRSPointBytes ltac:(done)) rel);
    [exact built|exact campaign_random|cbn; lia].
Qed.

Lemma c_read : readCampaignIdentity readFile crsPath json_identity (below root campaignBundleIdentityFile) = Ok (c, crs).
Proof.
  apply (readCampaign_stored below readFile crsPath json_fields json_secrets json_identity json_campaign ReadDir co r c crs
    operators.*2 _ (below root campaignBundleSecretDir));
    [exact c_dealt|exact c_usable|by split_and!|exact bundle_campaign_files].
Qed.

Lemma c_verified :
  verifyCampaignSecrets below readFile json_fields json_secrets ReadDir recoverThree c crs (below root campaignBundleSecretDir) = Ok tt.
Proof.
  apply (verifySecrets_dealt below readFile crsPath json_fields json_secrets json_identity json_campaign ReadDir recoverThree
    co r c crs operators.*2 (below root campaignBundleIdentityFile));
    [exact c_dealt|exact c_usable|exact bundle_campaign_files|reflexivity|exact recoverThree_law].
Qed.

Lemma c_primary : validatePrimaryCampaignBundle uni c corpus (str "coordinated-position-v1") = Ok tt.
Proof.
  unfold validatePrimaryCampaignBundle. cbn [c corpus ci_N ci_Threshold ci_BMax ci_Blockspace ci_PublicKeyHex ci_CRSSHA256
    cp_BMax cp_AvailableCount cp_SchemaVersion cp_CiphertextWireVersion cp_PlaintextPrefixSetIDs cp_EncryptedPrefixSetIDs
    cp_PlaintextMasterCorpusID cp_EncryptedCorpusID cp_PublicConfigID MaxDecryptedTxs].
  assert (validateExactPrimaryPrefixes prefixes = Ok tt) as -> by (vm_compute; reflexivity). cbn [out_bind].
  rewrite publicKey. cbn [out_bind]. rewrite public. cbn [out_bind]. by rewrite (bool_decide_true (publicID = publicID)).
Qed.

Definition bundle : campaignBundle :=
  mkBundle root (below root campaignBundleIdentityFile) (below root campaignBundleCRSFile) (below root campaignBundleCorpusFile)
    (below root campaignBundleSecretDir) c corpus None.

Abbreviation readInputs := (readCampaignBundlePublicInputs uni below Lstat Lstat Abs readFile crsPath ReadDir json_fields
  json_secrets json_identity json_document json_trailing recoverThree).
Abbreviation buildManifest := (buildCampaignBundleManifest uni below Lstat Lstat Abs readFile crsPath ReadDir json_fields
  json_secrets json_identity json_document json_trailing recoverThree).

Lemma inputs_read : readInputs root = Ok (bundle, str "coordinated-position-v1").
Proof.
  unfold readCampaignBundlePublicInputs. change (checkedBundleRoot Lstat Abs root) with (Ok root). cbn [out_bind].
  change (checkedBundleFile below Lstat root campaignBundleIdentityFile) with (Ok (below root campaignBundleIdentityFile)).
  change (checkedBundleFile below Lstat root campaignBundleCRSFile) with (Ok (below root campaignBundleCRSFile)).
  change (checkedBundleFile below Lstat root campaignBundleCorpusFile) with (Ok (below root campaignBundleCorpusFile)).
  change (checkedBundleDirectory below Lstat root campaignBundleSecretDir) with (Ok (below root campaignBundleSecretDir)).
  cbn [out_bind]. change (hasMode Lstat (below root campaignBundleSecretDir) 448) with true. cbn [negb].
  rewrite c_read. cbn [out_bind]. change (bool_decide (ci_CRSFile c = campaignBundleCRSFile)) with true. cbn [negb].
  change (map_out (checkSecretFile below Lstat Lstat (below root campaignBundleSecretDir)) (seqZ 0 (ci_N c)))
    with (Ok [tt; tt; tt; tt]). cbn [out_bind].
  change (ReadDir (below root campaignBundleSecretDir)) with (Ok (map secretAt [0; 1; 2; 3])). cbn [out_bind].
  change (zlen (map secretAt [0; 1; 2; 3]) =? ci_N c) with true. cbn [negb]. rewrite c_verified. cbn [out_bind].
  change (readCampaignBundleCorpus readFile json_document json_trailing (below root campaignBundleCorpusFile))
    with (Ok (corpus, str "coordinated-position-v1")). cbn [out_bind]. rewrite c_primary. reflexivity.
Qed.

Definition manifest : campaignBundleManifest :=
  mkManifest campaignBundleVersion sha image image clusterConfigVersion LibraryVersion 4 3 128 publicID (str "master") prefixes
    (str "corpus") prefixes (str "coordinated-position-v1")
    (list_to_map [(campaignBundleIdentityFile, hashHex (below root campaignBundleIdentityFile));
       (campaignBundleCRSFile, hashHex crs); (campaignBundleCorpusFile, hashHex (below root campaignBundleCorpusFile))]).
Definition json_manifest (data : bytes) : out campaignBundleManifest := Ok manifest.

Lemma manifest_built : buildManifest root sha image image = Ok manifest.
Proof.
  unfold buildCampaignBundleManifest.
  assert (validateFrozenSourceAndImages sha image image = Ok tt) as -> by (vm_compute; reflexivity). cbn [out_bind].
  rewrite inputs_read. cbn [out_bind]. unfold publicFiles. cbn [map_out]. unfold fileHash. reflexivity.
Qed.

Lemma loaded : loadCampaignBundle uni below Lstat Lstat Abs readFile crsPath ReadDir json_fields json_secrets json_identity
  json_document json_trailing json_manifest recoverThree root = Ok (set_Manifest bundle manifest).
Proof.
  destruct (frozen_loads uni below Lstat Lstat Abs readFile crsPath ReadDir json_fields json_secrets json_identity json_document
    json_trailing json_manifest recoverThree root sha image image manifest (below root campaignBundleManifestFile)
    (below root campaignBundleManifestFile)) as (b & idx & Hin & Hl & _).
  - exact manifest_built.
  - intros abs [= <-] name. split; reflexivity.
  - reflexivity.
  - reflexivity.
  - reflexivity.
  - rewrite inputs_read in Hin. injection Hin as <- _. exact Hl.
Qed.

Definition provider : ProviderConfig :=
  mkProvider (str "mempool-http") (str "http://10.0.0.9:8090") defaultMempoolTimeoutMS publicID (str "master") (str "corpus")
    prefixes true.
Definition cluster : ConfigFile :=
  mkConfigFile clusterConfigVersion (str "demo") 128 4 3 1 (str "cluster.crs") (hashHex crs) placed.*1 pkHex
    (mkBlockspace 0 128 21000) provider (mkNetwork (str "libp2p") (str "persistent")) defaultResourceLimits false [].
Definition remote : remoteEvalConfig :=
  mkRemote placed.*2 [] 4 3 128 (str "libp2p") (str "persistent")
    (withController inventory [] (fun h => [ih_Label h; PrivateDNS h; PrivateIP h])
       (list_to_map [(str "environment", str "ec2"); (str "topology", str "T0-same-az"); (str "prometheus", []); (str "grafana", []);
                     (str "source_sha", sha); (str "bloc_image", image); (str "mempool_image", image)])) 1 corpus.

Lemma provider_ok : validateProviderConfig provider = Ok tt.
Proof.
  unfold validateProviderConfig. cbn [provider MempoolTimeoutMS RequireExactCount ExpectedPublicConfigID
    ExpectedPlaintextMasterID ExpectedEncryptedCorpusID ExpectedEncryptedPrefixSetIDs].
  rewrite (bool_decide_false (publicID = [])) by (by eapply PublicConfigID_nonempty). reflexivity.
Qed.

Lemma materialized : materializeCampaignConfig uni below rel Lstat Lstat Abs readFile crsPath ReadDir json_fields json_secrets
  json_identity json_document json_trailing json_manifest recoverThree json_inventory mo = Ok (cluster, crs, remote).
Proof.
  unfold materializeCampaignConfig.
  change (existsb blank _) with false. change (map_out (absent Lstat) _) with (Ok [tt; tt; tt]). cbn [out_bind].
  change (mo_BundleRoot mo) with root. rewrite loaded. cbn [out_bind].
  unfold buildMaterializedCampaignConfigs. cbn [set_Manifest cb_Identity cb_Corpus cb_CRSPath cb_Manifest bundle].
  change (readEC2Inventory readFile json_inventory (mo_InventoryPath mo))
    with (Ok (mkInventory ∅ (Controller inventory) (sortHosts (inv_Nodes inventory)))). cbn [out_bind].
  change ((mo_HTTPPort mo <? 1) || (mo_P2PPort mo <? 1)) with false.
  change (validateEC2HostMode (orElse (mo_HTTPHostMode mo) (str "private-ip"))) with (Ok privateIP).
  change (validateEC2HostMode (orElse (mo_P2PHostMode mo) (str "private-ip"))) with (Ok privateIP). cbn [out_bind].
  change (blank (mo_MempoolURL mo)) with false. cbn [inv_Nodes Controller].
  change (sortHosts (sortHosts (inv_Nodes inventory))) with (sortHosts (inv_Nodes inventory)).
  change (validateNetworkConfig _) with (Ok tt). cbn [out_bind].
  change (zlen (sortHosts (inv_Nodes inventory)) =? ci_N c) with true. cbn [negb].
  change (checkConsecutive 0 (map ih_ID (sortHosts (inv_Nodes inventory))) ∅) with (Ok tt). cbn [out_bind].
  change (validateCampaignInventoryPlacement _ _ _) with (Ok tt). cbn [out_bind].
  change (readFile (below root campaignBundleCRSFile)) with (Ok crs). cbn [out_bind].
  change (rel _ _) with (Ok (str "cluster.crs")). cbn [out_bind].
  change (map_out (materializeOperator c privateIP privateIP (mo_HTTPPort mo) (mo_P2PPort mo)) (sortHosts (inv_Nodes inventory)))
    with (Ok placed). cbn [out_bind].
  change (validateProviderConfig _) with (validateProviderConfig provider). rewrite provider_ok. reflexivity.
Qed.

Definition json_config (data : bytes) : out (ConfigFile * wireLimits) :=
  Ok (set_CRS zeroLimits [] (cf_Slot cluster) cluster, wireOf (cf_Limits cluster)).

Lemma materialized_files : stored readFile crsPath json_fields json_config json_secrets (mkGenerated cluster (str "cluster.crs") crs [])
  (str "cluster.json").
Proof.
  split.
  - exists (str "cluster.json"), requiredSecretFields. split; [reflexivity|]. split; [reflexivity|].
    split; [by apply (bool_decide_unpack _)|]. split; [by apply (bool_decide_unpack _)|].
    cbn [gen_cfg]. unfold json_config. reflexivity.
  - split; [reflexivity|]. cbn [gen_cfg gen_crs]. reflexivity.
  - intros p s Hin. cbn [gen_secrets] in Hin. inversion Hin.
Qed.
End Dealt.
End CampaignBundleDemo.


