(* ===== verification/EvalData.v ===== *)
(** * EvalData: runs of the evaluators and their outcomes

    Models what the evaluators of [src/bloc-node/internal/app] decide about a
    run: the run record and the reading of results ([eval.go],
    [eval_persistent.go]), outcomes, scenarios and their summary
    ([eval_suite.go]), sources of transactions ([tx_source.go]), the
    remote evaluator's configuration ([eval_remote.go]), and the transactions
    of the demo ([ethdemo/tx.go]).

    Times, durations and limits that only go into reports are left out, and so are the
    statistics over floating-point numbers. [uni] is Go's Unicode lower case. *)

From S2P Require Import Prelude Order GoStrings Sha256 Trace NodeState Node Corpus Config Deploy.

(** ** Numbers and lists in texts *)

(** [strings.Split] by one byte. *)
Fixpoint splitOn (sep : Z) (s : bytes) : list bytes :=
  match s with
  | [] => [[]]
  | c :: s =>
      if c =? sep then [] :: splitOn sep s
      else
        match splitOn sep s with
        | part :: parts => (c :: part) :: parts
        | [] => [[c]]
        end
  end.

(** [strings.SplitN(s, sep, 2)], when [sep] occurs. *)
Fixpoint cutAt (sep : Z) (s : bytes) : option (bytes * bytes) :=
  match s with
  | [] => None
  | c :: s =>
      if c =? sep then Some ([], s)
      else p ← cutAt sep s; Some (c :: p.1, p.2)
  end.

(** [strings.Contains] *)
Fixpoint Contains (s sub : bytes) : bool :=
  bool_decide (is_Some (stripPrefix sub s)) || match s with [] => false | _ :: s => Contains s sub end.

(** [strings.TrimRight(s, "/")] *)
Definition trimSlashes (s : bytes) : bytes := reverse (trimLeft [str "/"] (length s) (reverse s)).

Fixpoint keepInts (parts : list bytes) : out (list Z) :=
  match parts with
  | [] => Ok []
  | part :: parts =>
      let part := TrimSpace part in
      if bool_decide (part = []) then keepInts parts
      else
        match Atoi part with
        | None => Err "strconv.Atoi"
        | Some v => let? rest := keepInts parts in Ok (v :: rest)
        end
  end.

Definition parseIntList (raw : bytes) : out (list Z) :=
  let? values := keepInts (splitOn 44 raw) in
  if bool_decide (values = []) then Err "empty integer list" else Ok values.

(** ** Data *)

(** The fields of [Metrics] that the evaluators decide on. *)
Record evalMetrics := mkEvalMetrics {
  SlotStartUnixNano : Z;
  TotalSlotUS : Z;
  ACSUS : Z;
  SelectedCiphertexts : Z;
  MetricsFinalized : bool
}.

(** A node's result as it is read over HTTP. *)
Record evalResult := mkEvalResult {
  er_Result : Result;
  er_Metrics : evalMetrics;
  er_ACSTrace : ACSTrace
}.

Record runCorpusIdentity := mkRunCorpus {
  ri_CiphertextWireVersion : bytes;
  ri_PublicConfigID : bytes;
  ri_PlaintextMasterCorpusID : bytes;
  PlaintextPrefixID : bytes;
  ri_EncryptedCorpusID : bytes;
  EncryptedPrefixID : bytes;
  RequestedCount : Z
}.

Record EvalRun := mkRun {
  run_RunID : bytes;
  run_ScenarioID : bytes;
  run_Phase : bytes;
  run_Iteration : Z;
  run_OrderIndex : Z;
  run_MeasurementBlock : Z;
  run_BlockIteration : Z;
  run_ScheduleSeed : Z;
  run_PlannedScenarioRuns : Z;
  run_Slot : Z;
  run_ClusterGeneration : Z;
  run_Nodes : Z;
  run_Threshold : Z;
  run_BMax : Z;
  run_BatchSize : Z;
  run_TxSize : Z;
  run_TxGas : Z;
  run_TxSource : bytes;
  run_Corpus : option runCorpusIdentity;
  run_ReceivedTxCount : Z;
  run_Network : bytes;
  run_StreamMode : bytes;
  run_Success : bool;
  run_Consistent : bool;
  run_Outcome : bytes;
  run_DeadlineMet : bool;
  run_TimedOut : bool;
  run_Error : bytes;
  run_StartSkewUS : Z;
  run_CriticalNodeID : Z;
  run_Results : list evalResult
}.

Record evalScenario := mkScenario {
  sc_ID : bytes;
  sc_Nodes : Z;
  sc_Threshold : Z;
  sc_BatchSize : Z;
  sc_Network : bytes
}.

(** ** Reading results *)

(** What an HTTP request for a result gives: no reply, or a status and a body. *)
Inductive httpReply :=
  | NoReply
  | Reply (status : Z) (body : bytes).

Record slotFailureResponse := mkFailureResponse {
  fr_Status : bytes;
  fr_Slot : Z;
  fr_Reason : bytes
}.

Section Polling.
Context (json_failure : bytes -> out slotFailureResponse) (json_result : bytes -> out evalResult).

(** [%v] of a list of numbers. *)
Definition listText (ids : list Z) : bytes := str "[" ++ Join (map decimal ids) [32] ++ str "]".

Definition polledFailure (slotID id : Z) (body : bytes) : bytes :=
  match json_failure body with
  | Ok failure =>
      if negb (bool_decide (fr_Status failure = str "failed")) || negb (fr_Slot failure =? slotID) then
        str "node " ++ decimal id ++ str " returned invalid terminal failure for slot " ++ decimal slotID
      else
        str "node " ++ decimal id ++ str " reported terminal failure for slot " ++ decimal (fr_Slot failure) ++ str ": " ++
        fr_Reason failure
  | Err err => str "decode terminal failure from node " ++ decimal id ++ str ": " ++ str err
  | Crash => str "decode terminal failure from node " ++ decimal id
  end.

(** The loop over the nodes: what was read, the nodes without a result, and the
    error that ended it. *)
Fixpoint pollNodes (slotID id : Z) (replies : list httpReply) (results : list evalResult) (missing : list Z)
  : list evalResult * list Z * option bytes :=
  match replies with
  | [] => (results, missing, None)
  | NoReply :: replies => pollNodes slotID (id + 1) replies results (missing ++ [id])
  | Reply status body :: replies =>
      if status =? 422 then (results, missing, Some (polledFailure slotID id body))
      else if negb (status =? 200) then pollNodes slotID (id + 1) replies results (missing ++ [id])
      else
        match json_result body with
        | Ok result =>
            if negb (res_Slot (er_Result result) =? slotID) || negb (MetricsFinalized (er_Metrics result)) then
              pollNodes slotID (id + 1) replies results (missing ++ [id])
            else pollNodes slotID (id + 1) replies (results ++ [result]) missing
        | Err err => (results, missing, Some (str err))
        | Crash => (results, missing, Some (str "json"))
        end
  end.

Definition sortResults (results : list evalResult) : list evalResult :=
  sortSlice (fun a b => NodeID (er_Result a) <? NodeID (er_Result b)) results.

(** [replies] has the reply of every node, in their order. *)
Definition pollResultsOnce (slotID : Z) (replies : list httpReply) : list evalResult * list Z * option bytes :=
  match pollNodes slotID 0 replies [] [] with
  | (results, missing, None) => (sortResults results, missing, None)
  | failed => failed
  end.

(** [round] and [rounds] are the replies of every node, round by round; the
    deadline passes after the last round. *)
Fixpoint pollResultsForSlot (nodes slotID : Z) (round : list httpReply) (rounds : list (list httpReply))
  : list evalResult * option bytes :=
  match pollResultsOnce slotID round with
  | (results, _, Some err) => (results, Some err)
  | (results, missing, None) =>
      if zlen results =? nodes then (results, None)
      else
        match rounds with
        | [] =>
            (results, Some (str "timed out waiting for " ++ decimal nodes ++ str " node results for slot " ++ decimal slotID ++
              str "; got " ++ decimal (zlen results) ++ str "; missing nodes: " ++ listText missing))
        | round :: rounds => pollResultsForSlot nodes slotID round rounds
        end
  end.
End Polling.

(** ** What a run's results say *)

Definition resultStartSkewUS (results : list evalResult) : Z :=
  match results with
  | [] | [_] => 0
  | first :: rest =>
      let stamp r := SlotStartUnixNano (er_Metrics r) in
      let '(lo, hi) := fold_left (fun mm r =>
        let '(lo, hi) := mm in
        (if stamp r <? lo then stamp r else lo, if hi <? stamp r then stamp r else hi)) rest (stamp first, stamp first) in
      Z.quot (i64 (hi - lo)) 1000
  end.

Definition criticalStep (best : Z * Z) (result : evalResult) : Z * Z :=
  let '(id, max) := best in
  let total := TotalSlotUS (er_Metrics result) in
  let node := NodeID (er_Result result) in
  if (max <? total) || ((total =? max) && (node <? id)) then (node, total) else best.

Definition criticalNodeID (results : list evalResult) : Z := (fold_left criticalStep results (0, -1)).1.

Definition sameOutcome (first result : Result) : bool :=
  bool_decide (BatchID result = BatchID first) &&
  bool_decide (Join (Plaintexts result) [10] = Join (Plaintexts first) [10]) &&
  bool_decide (MergedSetHash (Materialized result) = MergedSetHash (Materialized first)) &&
  (mat_SelectedGas (Materialized result) =? mat_SelectedGas (Materialized first)) &&
  bool_decide (Join (PlaintextHashes (Materialized result)) [10] = Join (PlaintextHashes (Materialized first)) [10]) &&
  bool_decide (Join (EthereumTxHashes (Materialized result)) [10] = Join (EthereumTxHashes (Materialized first)) [10]).

Definition resultsConsistent (results : list evalResult) : bool :=
  match results with
  | [] => false
  | first :: rest => forallb (fun r => sameOutcome (er_Result first) (er_Result r)) rest
  end.

Definition receivedTxCount (results : list evalResult) : Z :=
  match results with
  | [] => 0
  | first :: rest =>
      let count := SelectedCiphertexts (er_Metrics first) in
      if forallb (fun r => SelectedCiphertexts (er_Metrics r) =? count) rest then count else -1
  end.

Definition criticalResult (run : EvalRun) : option evalResult :=
  List.find (fun r => NodeID (er_Result r) =? run_CriticalNodeID run) (run_Results run).

Definition criticalTotalUS (run : EvalRun) : Z :=
  match criticalResult run with
  | Some r => TotalSlotUS (er_Metrics r)
  | None => 0
  end.

(** ** Outcomes *)

Definition withOutcome (outcome : bytes) (deadlineMet timedOut : bool) (run : EvalRun) : EvalRun :=
  mkRun (run_RunID run) (run_ScenarioID run) (run_Phase run) (run_Iteration run) (run_OrderIndex run)
    (run_MeasurementBlock run) (run_BlockIteration run) (run_ScheduleSeed run) (run_PlannedScenarioRuns run)
    (run_Slot run) (run_ClusterGeneration run) (run_Nodes run) (run_Threshold run) (run_BMax run) (run_BatchSize run)
    (run_TxSize run) (run_TxGas run) (run_TxSource run) (run_Corpus run) (run_ReceivedTxCount run) (run_Network run)
    (run_StreamMode run) (run_Success run) (run_Consistent run) outcome deadlineMet timedOut (run_Error run)
    (run_StartSkewUS run) (run_CriticalNodeID run) (run_Results run).

(** [run.Error = err.Error(); run.Success = false] *)
Definition withError (err : bytes) (run : EvalRun) : EvalRun :=
  mkRun (run_RunID run) (run_ScenarioID run) (run_Phase run) (run_Iteration run) (run_OrderIndex run)
    (run_MeasurementBlock run) (run_BlockIteration run) (run_ScheduleSeed run) (run_PlannedScenarioRuns run)
    (run_Slot run) (run_ClusterGeneration run) (run_Nodes run) (run_Threshold run) (run_BMax run) (run_BatchSize run)
    (run_TxSize run) (run_TxGas run) (run_TxSource run) (run_Corpus run) (run_ReceivedTxCount run) (run_Network run)
    (run_StreamMode run) false (run_Consistent run) (run_Outcome run) (run_DeadlineMet run) (run_TimedOut run) err
    (run_StartSkewUS run) (run_CriticalNodeID run) (run_Results run).

Definition withPlan (block blockIteration seed planned : Z) (run : EvalRun) : EvalRun :=
  mkRun (run_RunID run) (run_ScenarioID run) (run_Phase run) (run_Iteration run) (run_OrderIndex run)
    block blockIteration seed planned
    (run_Slot run) (run_ClusterGeneration run) (run_Nodes run) (run_Threshold run) (run_BMax run) (run_BatchSize run)
    (run_TxSize run) (run_TxGas run) (run_TxSource run) (run_Corpus run) (run_ReceivedTxCount run) (run_Network run)
    (run_StreamMode run) (run_Success run) (run_Consistent run) (run_Outcome run) (run_DeadlineMet run) (run_TimedOut run)
    (run_Error run) (run_StartSkewUS run) (run_CriticalNodeID run) (run_Results run).

Section Outcomes.
Context (uni : bytes -> bytes).

(** [deadline] in nanoseconds; [runErr] is the text of the error. *)
Definition classifyRunOutcome (runErr : option bytes) (deadline : Z) (run : EvalRun) : EvalRun :=
  if run_Success run && run_Consistent run then
    let totalUS := criticalTotalUS run in
    withOutcome (str "completed") ((0 <? totalUS) && (totalUS <=? Z.quot deadline 1000)) false run
  else
    let message := ToLower uni (run_Error run) in
    let message :=
      match runErr with
      | Some err => if bool_decide (message = []) then ToLower uni err else message
      | None => message
      end in
    let timedOut := Contains message (str "timed out") || Contains message (str "timeout") ||
                    Contains message (str "deadline exceeded") in
    withOutcome (if timedOut then str "timed_out" else str "failed") false timedOut run.

Definition shouldRecoverPersistentCluster (run : EvalRun) (runErr : option bytes) : bool :=
  match runErr with
  | None => false
  | Some err => negb (run_TimedOut run) && negb (Contains (ToLower uni err) (str "reported terminal failure"))
  end.
End Outcomes.

Definition suiteCollectionComplete (plannedRuns : Z) (runs : list EvalRun) : bool :=
  zlen (filter (fun run => run_Phase run = str "warmup" \/ run_Phase run = str "measured") runs) =? plannedRuns.

(** ** Faults, sources and corpora *)

Fixpoint addFaults (entries : list bytes) (faults : gmap Z bytes) : out (gmap Z bytes) :=
  match entries with
  | [] => Ok faults
  | entry :: entries =>
      match cutAt 58 (TrimSpace entry) with
      | None => Err "fault must be id:mode"
      | Some (id, mode) =>
          match parseSlot id with
          | None => Err "strconv.ParseUint"
          | Some id => addFaults entries (<[id := mode]> faults)
          end
      end
  end.

Definition parseEvalFault (raw : bytes) : out (gmap Z bytes) :=
  if blank raw then Ok ∅ else addFaults (splitOn 44 raw) ∅.

Definition synthetic : bytes := str "synthetic".
Definition mockPlaceholder : bytes := str "mock-placeholder".
Definition mockEncryptedCorpus : bytes := str "mock-encrypted-corpus".

Definition usesMempoolSource (source : bytes) : bool :=
  bool_decide (source = mockPlaceholder) || bool_decide (source = mockEncryptedCorpus).

Definition validateTxSource (source mempoolURL : bytes) : out unit :=
  if bool_decide (source = []) || bool_decide (source = synthetic) then Ok tt
  else if usesMempoolSource source then
    if bool_decide (mempoolURL = []) then Err "tx-source requires --mempool-url" else Ok tt
  else Err "tx-source must be synthetic, mock-placeholder, or mock-encrypted-corpus".

Definition validateFinalCampaignTxSource (source mempoolURL : bytes) : out unit :=
  if negb (bool_decide (source = mockEncryptedCorpus)) then Err "final campaign requires tx-source=mock-encrypted-corpus"
  else validateTxSource source mempoolURL.

Definition corpusIdentityForCount (p : corpusProvenance) (count : Z) : runCorpusIdentity :=
  let key := decimal count in
  mkRunCorpus (cp_CiphertextWireVersion p) (cp_PublicConfigID p) (cp_PlaintextMasterCorpusID p)
    (default [] (cp_PlaintextPrefixSetIDs p !! key)) (cp_EncryptedCorpusID p)
    (default [] (cp_EncryptedPrefixSetIDs p !! key)) count.

Fixpoint addManifestPaths (entries : list bytes) (paths : gmap Z bytes) : out (gmap Z bytes) :=
  match entries with
  | [] => Ok paths
  | entry :: entries =>
      match cutAt 61 (TrimSpace entry) with
      | None => Err "encrypted corpus manifests must use node-count=path entries"
      | Some (count, path) =>
          if blank path then Err "encrypted corpus manifests must use node-count=path entries"
          else
            match Atoi count with
            | None => Err "invalid encrypted corpus node count"
            | Some nodes =>
                if nodes <=? 0 then Err "invalid encrypted corpus node count"
                else if bool_decide (is_Some (paths !! nodes)) then Err "duplicate encrypted corpus manifest"
                else addManifestPaths entries (<[nodes := TrimSpace path]> paths)
            end
      end
  end.

Definition parseCorpusManifestPaths (raw : bytes) : out (gmap Z bytes) :=
  if blank raw then Ok ∅ else addManifestPaths (splitOn 44 raw) ∅.

(** ** Scenarios *)

Definition scenarioOf (n threshold batch : Z) : evalScenario :=
  mkScenario (str "n" ++ decimal n ++ str "-b" ++ decimal batch ++ str "-libp2p") n threshold batch (str "libp2p").

Definition batchSizes : list Z := [8; 32; 128; 512].
Definition nodeCounts : list Z := [4; 7; 10].

Definition buildScenarios (nodes batches : list Z) (bmax : Z) : out (list evalScenario) :=
  let? rows := map_out (fun n =>
    if negb (bool_decide (n ∈ nodeCounts)) then Err "node count must be one of 4, 7, or 10"
    else
      let threshold := 2 * Z.quot (n - 1) 3 + 1 in
      map_out (fun batch =>
        if negb (bool_decide (batch ∈ batchSizes)) then Err "batch size must be one of 8, 32, 128, or 512"
        else if bmax <? batch then Err "batch size exceeds BMax"
        else Ok (scenarioOf n threshold batch)) batches) nodes in
  Ok (concat rows).

(** The counts of a scenario's summary. *)
Record scenarioSummary := mkSummaryOf {
  Attempted : Z;
  Completed : Z;
  Succeeded : Z;
  ConsistentWithinDeadline : Z;
  Failed : Z;
  TimedOut : Z
}.

Definition noScenarioSummary : scenarioSummary := mkSummaryOf 0 0 0 0 0 0.

Definition countRun (run : EvalRun) (c : scenarioSummary) : scenarioSummary :=
  let attempted := Attempted c + 1 in
  if run_Success run && run_Consistent run && bool_decide (is_Some (criticalResult run)) then
    mkSummaryOf attempted (Completed c + 1) (Succeeded c + 1)
      (if run_DeadlineMet run then ConsistentWithinDeadline c + 1 else ConsistentWithinDeadline c) (Failed c) (TimedOut c)
  else if run_TimedOut run || bool_decide (run_Outcome run = str "timed_out") then
    mkSummaryOf attempted (Completed c) (Succeeded c) (ConsistentWithinDeadline c) (Failed c) (TimedOut c + 1)
  else mkSummaryOf attempted (Completed c) (Succeeded c) (ConsistentWithinDeadline c) (Failed c + 1) (TimedOut c).

Definition countMeasured (counts : gmap bytes scenarioSummary) (run : EvalRun) : gmap bytes scenarioSummary :=
  if negb (bool_decide (run_Phase run = str "measured")) then counts
  else <[run_ScenarioID run := countRun run (default noScenarioSummary (counts !! run_ScenarioID run))]> counts.

(** Without the latencies. *)
Definition summarizeScenarios (scenarios : list evalScenario) (runs : list EvalRun) : list (evalScenario * scenarioSummary) :=
  let counts := fold_left countMeasured runs ∅ in
  map (fun s => (s, default noScenarioSummary (counts !! sc_ID s))) scenarios.

(** ** The remote evaluator's configuration *)

Fixpoint endpointNodes (id : Z) (endpoints : list bytes) : list remoteEvalNode :=
  match endpoints with
  | [] => []
  | endpoint :: endpoints => mkRemoteNode id endpoint [] [] [] :: endpointNodes (id + 1) endpoints
  end.

Definition trimURL (node : remoteEvalNode) : out remoteEvalNode :=
  if bool_decide (rn_URL node = []) then Err "node has empty url"
  else Ok (mkRemoteNode (rn_ID node) (trimSlashes (rn_URL node)) (rn_Label node) (rn_Region node) (rn_Zone node)).

Definition set_reNodes (nodes : list remoteEvalNode) (network streamMode : bytes) (cfg : remoteEvalConfig) : remoteEvalConfig :=
  mkRemote nodes (Endpoints cfg) (NodeCount cfg) (re_Threshold cfg) (re_BMax cfg) network streamMode (re_Deployment cfg)
    (InitialSlot cfg) (re_Corpus cfg).

Definition readRemoteEvalConfig (readFile : bytes -> out bytes) (json_remote : bytes -> out remoteEvalConfig) (path : bytes)
  : out remoteEvalConfig :=
  let? data := readFile path in
  let? cfg := json_remote data in
  let nodes := match re_Nodes cfg with [] => endpointNodes 0 (Endpoints cfg) | nodes => nodes end in
  match nodes with
  | [] => Err "remote config requires nodes or endpoints"
  | _ =>
      let network := normalizeNetworkConfig (mkNetwork (re_Network cfg) (re_StreamMode cfg)) in
      let? _ := validateNetworkConfig network in
      let? nodes := map_out trimURL (sortSlice (fun a b => rn_ID a <? rn_ID b) nodes) in
      Ok (set_reNodes nodes (net_Mode network) (net_StreamMode network) cfg)
  end.

Definition validateRemoteEvidenceScenario (cfg : remoteEvalConfig) (batchSize : Z) : out unit :=
  if negb (bool_decide (NodeCount cfg ∈ nodeCounts)) then Err "node_count must be one of 4, 7, or 10"
  else if negb (bool_decide (batchSize ∈ batchSizes)) then Err "batch-size must be one of 8, 32, 128, or 512"
  else if re_BMax cfg <? batchSize then Err "batch-size exceeds configured BMax"
  else Ok tt.

(** ** Demo transactions

    Models the generation of transactions in
    [src/bloc-node/internal/app/ethdemo/tx.go]; [Parse] is in [Node].

    [toECDSA] is [ethcrypto.ToECDSA], and [signTx] is [types.SignTx] with the
    latest signer of the demo's chain, followed by [MarshalBinary]. *)

Definition demoChainID : Z := 1337.

(** [types.DynamicFeeTx] *)
Record dynamicFeeTx := mkDynamicFee {
  dt_ChainID : Z;
  dt_Nonce : Z;
  dt_GasTipCap : Z;
  dt_GasFeeCap : Z;
  dt_Gas : Z;
  dt_To : bytes;
  dt_Value : Z;
  dt_Data : bytes
}.

Definition demoRecipient (index : Z) : bytes := drop 12 (Sum256 (str "bloc-demo-recipient-" ++ decimal index)).

Definition demoCalldata (index size : Z) : bytes :=
  if size <=? 0 then []
  else
    let seed := default [] (hexDecode (hashHex (str "bloc-demo-calldata-" ++ decimal index))) in
    map (fun i => nth (i mod length seed) seed 0) (seq 0 (Z.to_nat size)).

Definition intrinsicDemoGas (dataLen : Z) : Z :=
  if dataLen <=? 0 then 21000 else u64 (21000 + u64 dataLen * 16).

Definition parseBigInt (raw : bytes) : option Z :=
  let raw := TrimSpace raw in
  let raw := if bool_decide (raw = []) then str "0" else raw in
  match SetString raw with
  | Some v => if v <? 0 then None else Some v
  | None => None
  end.

(** The fee cap and the tip. *)
Definition demoFees (feeWei : bytes) : Z * Z :=
  let fee := match parseBigInt feeWei with Some fee => if fee =? 0 then 1 else fee | None => 1 end in
  let tip := fee / 10 in
  let tip := if tip =? 0 then 1 else tip in
  (fee, if fee <? tip then fee else tip).

Definition demoTx (index gas : Z) (feeWei : bytes) (nonce dataLen : Z) : dynamicFeeTx :=
  let '(fee, tip) := demoFees feeWei in
  mkDynamicFee demoChainID nonce tip fee (Z.max gas (intrinsicDemoGas dataLen)) (demoRecipient index) 0
    (demoCalldata index dataLen).

Section Generating.
Context {Key : Type} (toECDSA : bytes -> option Key) (signTx : dynamicFeeTx -> Key -> out bytes).
Context (decodeTx : bytes -> option ethTx).

Definition demoPrivateKey (slot : Z) : out Key :=
  match firstSome (fun attempt =>
    toECDSA (Sum256 (str "bloc-demo-sender-" ++ decimal slot ++ str "-" ++ decimal attempt))) (seqZ 0 256) with
  | Some key => Ok key
  | None => Err "could not derive demo private key"
  end.

(** The loop that adds call data until the transaction is long enough. *)
Fixpoint growTx (fuel : nat) (tx : Z -> dynamicFeeTx) (key : Key) (minRawBytes dataLen : Z) : go (out (bytes * Summary)) :=
  match fuel with
  | O => NoFuel
  | S fuel =>
      match signTx (tx dataLen) key with
      | Ok raw =>
          if (minRawBytes <=? 0) || (minRawBytes <=? zlen raw) then
            Ret (let? summary := Parse decodeTx raw in Ok (raw, summary))
          else growTx fuel tx key minRawBytes (i64 (dataLen + Z.min 32 (minRawBytes - zlen raw)))
      | Err err => Ret (Err err)
      | Crash => Ret Crash
      end
  end.

(** Every round but the last adds at least one byte to call data that is still
    shorter than [minRawBytes]. *)
Definition Generate (index minRawBytes gas : Z) (feeWei : bytes) (senderSlot nonce : Z) : go (out (bytes * Summary)) :=
  let gas := if gas =? 0 then 21000 else gas in
  match demoPrivateKey senderSlot with
  | Ok key => growTx (S (Z.to_nat minRawBytes)) (demoTx index gas feeWei nonce) key minRawBytes 0
  | Err err => Ret (Err err)
  | Crash => Ret Crash
  end.

(** ** Laws *)

(** What the Ethereum library promises of a signed transaction: it decodes to
    the fields that were signed, and it contains the call data. *)
Record signs (sender : Key -> bytes) : Prop := {
  sign_ok : forall tx key, exists raw, signTx tx key = Ok raw;
  sign_decodes : forall tx key raw, signTx tx key = Ok raw -> exists decoded,
    decodeTx raw = Some decoded /\ tx_ChainId decoded = Some (dt_ChainID tx) /\ tx_Sender decoded = Some (sender key) /\
    tx_Nonce decoded = dt_Nonce tx /\ tx_Gas decoded = dt_Gas tx /\ tx_Type decoded = DynamicFeeTxType /\
    tx_GasFeeCap decoded = dt_GasFeeCap tx;
  sign_contains : forall tx key raw, signTx tx key = Ok raw -> zlen (dt_Data tx) <= zlen raw
}.

Lemma demoCalldata_length index size : 0 <= size -> zlen (demoCalldata index size) = size.
Proof.
  intros Hs. unfold demoCalldata. destruct (Z.leb_spec size 0); [by replace size with 0 by lia|].
  rewrite length_map, length_seq. lia.
Qed.

Lemma growTx_ends sender tx key minRawBytes fuel dataLen : signs sender -> minRawBytes < 2 ^ 63 -> 0 <= dataLen ->
  dataLen <= Z.max 0 minRawBytes -> (forall n, 0 <= n -> zlen (dt_Data (tx n)) = n) ->
  (Z.to_nat (minRawBytes - dataLen) < fuel)%nat ->
  exists raw n, 0 <= n /\ signTx (tx n) key = Ok raw /\ minRawBytes <= zlen raw /\
    growTx fuel tx key minRawBytes dataLen = Ret (let? summary := Parse decodeTx raw in Ok (raw, summary)).
Proof.
  intros Hsig Hmax. revert dataLen. induction fuel as [|fuel IH]; intros dataLen H0 Hle Hdata Hfuel; [lia|]. cbn [growTx].
  destruct (sign_ok _ Hsig (tx dataLen) key) as [raw Hraw]. rewrite Hraw.
  pose proof (sign_contains _ Hsig _ _ _ Hraw) as Hlen. rewrite Hdata in Hlen by done.
  destruct (Z.leb_spec minRawBytes 0); cbn [orb]; [exists raw, dataLen; split_and!; [done..|lia|done]|].
  destruct (Z.leb_spec minRawBytes (zlen raw)); [exists raw, dataLen; by split_and!|].
  rewrite (i64_small (dataLen + _)) by lia. apply IH; [lia..|done|lia].
Qed.

(** A generated demo transaction is at least as long as asked for, and what
    is read back from it is what it was generated from: the nonce, the fee
    cap, its sender, and at least the requested gas. *)
Lemma generated_transaction sender index minRawBytes gas feeWei senderSlot nonce key : signs sender ->
  minRawBytes < 2 ^ 63 -> demoPrivateKey senderSlot = Ok key ->
  exists raw summary, Generate index minRawBytes gas feeWei senderSlot nonce = Ret (Ok (raw, summary)) /\
    minRawBytes <= zlen raw /\ SizeBytes summary = zlen raw /\ sum_Nonce summary = nonce /\ sum_From summary = sender key /\
    sum_EffectiveFeePerGasWei summary = decimal (demoFees feeWei).1 /\
    (if gas =? 0 then 21000 else gas) <= sum_Gas summary.
Proof.
  intros Hsig Hmax Hkey. unfold Generate. rewrite Hkey. set (g := if gas =? 0 then 21000 else gas).
  assert (forall n, 0 <= n -> zlen (dt_Data (demoTx index g feeWei nonce n)) = n) as Hdata
    by (intros n Hn; unfold demoTx; destruct (demoFees feeWei); by apply demoCalldata_length).
  destruct (growTx_ends sender (demoTx index g feeWei nonce) key minRawBytes (S (Z.to_nat minRawBytes)) 0)
    as (raw & n & Hn & Hraw & Hlen & ->); [done..|lia|lia|done|lia|].
  destruct (sign_decodes _ Hsig _ _ _ Hraw) as (decoded & Hd & Hc & Hs & Hnon & Hgas & Hty & Hfee).
  unfold demoTx in *. destruct (demoFees feeWei) as [fee tip]. cbn in *.
  unfold Parse, effectiveFeePerGas. rewrite Hd, Hc, Hs, Hnon, Hgas, Hty, Hfee. cbn [out_bind].
  eexists raw, _. split; [done|]. cbn. split_and!; [done..|lia].
Qed.
End Generating.
