(* ===== verification/Artifact.v ===== *)
(** * Artifact: the trace artifact of an evaluation

    Models [src/bloc-node/internal/app/acs_trace_artifact.go]: the traces of all
    results of an evaluation are written to one file, a record per node and
    slot, and the file is validated against the results it was written from.

    [json_stream] is what decoding the file gives, record by record, until its
    end; a slice that is absent is read as the empty list it was written
    from. *)

From S2P Require Import Prelude Order GoStrings Trace NodeState Deploy EvalData.

(** ** Records *)

Definition ACSTraceSchemaV1 : string := "bloc-acs-trace/v1".
Definition ACSTraceSchemaV2 : string := "bloc-acs-trace/v2".
Definition ACSTraceSchemaV3 : string := "bloc-acs-trace/v3".
Definition ACSTraceSchemaVersion : string := ACSTraceSchemaV3.

Definition acsTraceLegacyToleranceUS : Z := 5000.

Record acsTraceArtifactKey := mkKey {
  key_MeasurementBlock : Z;
  key_RunID : bytes;
  key_NodeID : Z;
  key_Slot : Z
}.

Record acsTraceRunKey := mkRunKey {
  rk_MeasurementBlock : Z;
  rk_RunID : bytes;
  rk_Slot : Z
}.

#[export] Instance acsTraceArtifactKey_eq_dec : EqDecision acsTraceArtifactKey.
Proof. solve_decision. Defined.

#[export] Instance acsTraceArtifactKey_countable : Countable acsTraceArtifactKey.
Proof.
  apply (inj_countable' (fun k => (key_MeasurementBlock k, key_RunID k, key_NodeID k, key_Slot k))
    (fun '(b, r, n, s) => mkKey b r n s)). by intros [].
Defined.

#[export] Instance acsTraceRunKey_eq_dec : EqDecision acsTraceRunKey.
Proof. solve_decision. Defined.

#[export] Instance acsTraceRunKey_countable : Countable acsTraceRunKey.
Proof.
  apply (inj_countable' (fun k => (rk_MeasurementBlock k, rk_RunID k, rk_Slot k)) (fun '(b, r, s) => mkRunKey b r s)).
  by intros [].
Defined.

Record acsRBCTraceRecord := mkRBCRecord {
  rbc_ProposerID : Z;
  rbc_Trace : RBCTrace
}.

Record acsBBATraceRecord := mkBBARecord {
  bba_ProposerID : Z;
  bba_Trace : BBATrace
}.

Record acsMessageTraceRecord := mkMessageRecord {
  msg_Subtype : string;
  msg_Trace : ACSMessageTrace
}.

Record acsTraceArtifactRecord := mkRecord {
  ar_Key : acsTraceArtifactKey;
  ar_SchemaVersion : string;
  ar_Enabled : bool;
  ar_Transport : ACSTransportTrace;
  ar_Aggregate : ACSAggregateTrace;
  ar_Wait : ACSWaitTrace;
  ar_Adapter : ACSAdapterTrace;
  ar_RBC : list acsRBCTraceRecord;
  ar_BBA : list acsBBATraceRecord;
  ar_Messages : list acsMessageTraceRecord
}.

Record expectedACSTraceArtifact := mkExpected {
  ex_record : acsTraceArtifactRecord;
  legacyACSUS : Z
}.

(** [reflect.DeepEqual] *)
#[export] Instance TracePoint_eq_dec : EqDecision TracePoint.
Proof. solve_decision. Defined.
#[export] Instance ACSTransportTrace_eq_dec : EqDecision ACSTransportTrace.
Proof. solve_decision. Defined.
#[export] Instance ACSAggregateTrace_eq_dec : EqDecision ACSAggregateTrace.
Proof. solve_decision. Defined.
#[export] Instance ACSWaitTrace_eq_dec : EqDecision ACSWaitTrace.
Proof. solve_decision. Defined.
#[export] Instance ACSAdapterTrace_eq_dec : EqDecision ACSAdapterTrace.
Proof. solve_decision. Defined.
#[export] Instance RBCTrace_eq_dec : EqDecision RBCTrace.
Proof. solve_decision. Defined.
#[export] Instance BBATrace_eq_dec : EqDecision BBATrace.
Proof. solve_decision. Defined.
#[export] Instance ACSSendPhaseTrace_eq_dec : EqDecision ACSSendPhaseTrace.
Proof. solve_decision. Defined.
#[export] Instance ACSMessageTrace_eq_dec : EqDecision ACSMessageTrace.
Proof. solve_decision. Defined.
#[export] Instance acsRBCTraceRecord_eq_dec : EqDecision acsRBCTraceRecord.
Proof. solve_decision. Defined.
#[export] Instance acsBBATraceRecord_eq_dec : EqDecision acsBBATraceRecord.
Proof. solve_decision. Defined.

(** ** Writing *)

(** The loop over the results of one run. *)
Fixpoint schemaOfResults (results : list evalResult) (schema : string) : out string :=
  match results with
  | [] => Ok schema
  | result :: results =>
      let trace := er_ACSTrace result in
      if negb (Enabled trace) then schemaOfResults results schema
      else if String.eqb (SchemaVersion trace) "" then Err "enabled ACS trace has no schema"
      else if String.eqb schema "" then schemaOfResults results (SchemaVersion trace)
      else if negb (String.eqb (SchemaVersion trace) schema) then Err "mixed ACS trace schemas"
      else schemaOfResults results schema
  end.

Definition acsTraceSchemaForRuns (runs : list EvalRun) : out string :=
  let? schema := fold_out (fun schema run => schemaOfResults (run_Results run) schema) runs ""%string in
  if negb (String.eqb schema "") && negb (String.eqb schema ACSTraceSchemaVersion) then
    Err "new evaluator runs require another ACS trace schema"
  else Ok schema.

Definition acsTraceKeyLess (left right : acsTraceArtifactKey) : bool :=
  if negb (key_MeasurementBlock left =? key_MeasurementBlock right) then
    key_MeasurementBlock left <? key_MeasurementBlock right
  else if negb (bool_decide (key_RunID left = key_RunID right)) then bytesLt (key_RunID left) (key_RunID right)
  else if negb (key_NodeID left =? key_NodeID right) then key_NodeID left <? key_NodeID right
  else key_Slot left <? key_Slot right.

(** [orderedACSMessageSubtypes], which lists the subtypes as the recorder does. *)
Definition orderedACSMessageSubtypes : list string :=
  [ACSMessageProof; ACSMessageEcho; ACSMessageReady; ACSMessageBVAL; ACSMessageAUX].

Fixpoint subtypeOrderFrom (i : Z) (known : list string) (subtype : string) : option Z :=
  match known with
  | [] => None
  | k :: known => if String.eqb subtype k then Some i else subtypeOrderFrom (i + 1) known subtype
  end.

Definition acsMessageSubtypeOrder (subtype : string) : option Z :=
  subtypeOrderFrom 0 orderedACSMessageSubtypes subtype.

Definition subtypeLess (left right : string) : bool :=
  match acsMessageSubtypeOrder left, acsMessageSubtypeOrder right with
  | Some i, Some j => i <? j
  | Some _, None => true
  | None, Some _ => false
  | None, None => String.ltb left right
  end.

Definition sortedIDs {A : Type} (m : gmap Z A) : list Z := sortSlice Z.ltb (map_to_list m).*1.
Definition sortedSubtypes (m : gmap string ACSMessageTrace) : list string := sortSlice subtypeLess (map_to_list m).*1.

Definition newACSTraceArtifactRecord (run : EvalRun) (result : evalResult) : acsTraceArtifactRecord :=
  let trace := er_ACSTrace result in
  mkRecord (mkKey (run_MeasurementBlock run) (run_RunID run) (NodeID (er_Result result)) (run_Slot run))
    (SchemaVersion trace) (Enabled trace) (Transport trace) (Aggregate trace) (Wait trace) (Adapter trace)
    (map (fun p => mkRBCRecord p (default noRBCTrace (TraceRBC trace !! p))) (sortedIDs (TraceRBC trace)))
    (map (fun p => mkBBARecord p (default noBBATrace (TraceBBA trace !! p))) (sortedIDs (TraceBBA trace)))
    (map (fun s => mkMessageRecord s (default noMessageTrace (Messages_ trace !! s))) (sortedSubtypes (Messages_ trace))).

Definition recordsOf (run : EvalRun) : list acsTraceArtifactRecord :=
  map (newACSTraceArtifactRecord run) (run_Results run).

(** The records in the order in which they are encoded. *)
Definition writeACSTraceArtifact (runs : list EvalRun) : list acsTraceArtifactRecord :=
  sortSlice (fun a b => acsTraceKeyLess (ar_Key a) (ar_Key b)) (concat (map recordsOf runs)).

(** ** Validating a record *)

(** Stops at the first element that is refused. *)
Fixpoint each {A : Type} (f : A -> out unit) (l : list A) : out unit :=
  match l with
  | [] => Ok tt
  | x :: l => let? _ := f x in each f l
  end.

Definition supportedACSTraceSchema (schema : string) : bool :=
  String.eqb schema ACSTraceSchemaV1 || String.eqb schema ACSTraceSchemaV2 || String.eqb schema ACSTraceSchemaV3.

Definition requireTracePointOrder (left right : TracePoint) : out unit :=
  if negb (Recorded left) || negb (Recorded right) then Err "missing required ACS trace point"
  else if OffsetUS right <? OffsetUS left then Err "a point occurs after its successor"
  else Ok tt.

Definition validateTracePoints (points : list TracePoint) : out unit :=
  if existsb (fun point => Recorded point && (OffsetUS point <? 0)) points then Err "negative offset" else Ok tt.

Definition rbcPoints (t : RBCTrace) : list TracePoint :=
  [ProofAccepted t; EchoSentAt t; ReadySentAt t; DecodeEligible t; ReconstructionStarted t; ReconstructionFinished t;
   OutputStoredAt t].

Definition rbcPairs (t : RBCTrace) : list (TracePoint * TracePoint) :=
  [(ProofAccepted t, EchoSentAt t); (DecodeEligible t, ReconstructionStarted t);
   (ReconstructionStarted t, ReconstructionFinished t); (ReconstructionFinished t, OutputStoredAt t)].

Definition validateV3RBCReadyTrigger (trace : RBCTrace) (members : Z) : out unit :=
  let echos := ReadyTriggerEchoCount trace in
  let readys := ReadyTriggerReadyCount trace in
  if String.eqb (ReadyTrigger trace) "" then
    if negb (Recorded (ReadySentAt trace)) && (echos =? 0) && (readys =? 0) then Ok tt else Err "missing READY trigger"
  else if negb (String.eqb (ReadyTrigger trace) RBCReadyTriggerEchoQuorum) &&
          negb (String.eqb (ReadyTrigger trace) RBCReadyTriggerRelay) then Err "invalid READY trigger"
  else if (echos <? 0) || (readys <? 0) || (members <? echos) || (members <? readys) then Err "invalid READY trigger counts"
  else
    let faults := Z.quot (members - 1) 3 in
    if String.eqb (ReadyTrigger trace) RBCReadyTriggerEchoQuorum then
      if negb (echos =? members - faults) then Err "READY trigger threshold for echo_quorum"
      else if faults + 1 <=? readys then Err "READY trigger history for echo_quorum"
      else Ok tt
    else if negb (readys =? faults + 1) then Err "READY trigger threshold for ready_relay"
    else if members - faults <=? echos then Err "READY trigger history for ready_relay"
    else Ok tt.

(** The checks of one broadcast, after its proposer's. *)
Definition validateRBCTrace (schema : string) (members : Z) (t : RBCTrace) : out unit :=
  let? _ := validateTracePoints (rbcPoints t) in
  let? _ := if String.eqb schema ACSTraceSchemaV3 then validateV3RBCReadyTrigger t members else Ok tt in
  each (fun '(a, b) =>
    if Recorded a && Recorded b && (OffsetUS b <? OffsetUS a) then Err "impossible RBC milestone ordering" else Ok tt)
    (rbcPairs t).

Definition validateBBATrace (t : BBATrace) : out unit :=
  let? _ := validateTracePoints [InputAt t; FirstBinValue t; FirstAux t; ValidAuxQuorum t; DecisionAt t; DoneAt t] in
  if Recorded (DecisionAt t) && Recorded (DoneAt t) && (OffsetUS (DoneAt t) <? OffsetUS (DecisionAt t)) then
    Err "impossible BBA completion ordering"
  else Ok tt.

(** The loop over the records of the proposers, shared by broadcasts and agreements. *)
Fixpoint validateProposers {A : Type} (proposer : A -> Z) (check : A -> out unit) (members : gset Z) (records : list A)
  (seen : gset Z) : out (gset Z) :=
  match records with
  | [] => Ok seen
  | record :: records =>
      let id := proposer record in
      if negb (bool_decide (id ∈ members)) then Err "unknown proposer"
      else if bool_decide (id ∈ seen) then Err "duplicate proposer"
      else
        let? _ := check record in
        validateProposers proposer check members records ({[ id ]} ∪ seen)
  end.

Definition validateRBCRecords (records : list acsRBCTraceRecord) (members : gset Z) (schema : string) : out unit :=
  let? seen := validateProposers rbc_ProposerID (fun r => validateRBCTrace schema (zsize members) (rbc_Trace r)) members
    records ∅ in
  if negb (zsize seen =? zsize members) then Err "missing RBC proposer trace" else Ok tt.

Definition validateBBARecords (records : list acsBBATraceRecord) (members : gset Z) : out unit :=
  let? seen := validateProposers bba_ProposerID (fun r => validateBBATrace (bba_Trace r)) members records ∅ in
  if negb (zsize seen =? zsize members) then Err "missing BBA proposer trace" else Ok tt.

Definition validateV2MessagePhases (t : ACSMessageTrace) : out unit :=
  let? _ := each (fun phase =>
    if negb (PhaseCount phase =? SendCount t) then Err "phase count"
    else if (TotalUS phase <? 0) || (MaxUS phase <? 0) || (TotalUS phase <? MaxUS phase) then Err "invalid phase duration"
    else Ok tt) [Encode t; QueueWait t; StreamOpen t; Write_ t; Finalize t] in
  if (SendCount t <? StreamOpenCount t) || negb (StreamReuseCount t =? u64 (SendCount t - StreamOpenCount t)) then
    Err "open/reuse count does not match send count"
  else Ok tt.

Definition validateV3MessageLifecycle (t : ACSMessageTrace) : out unit :=
  if negb (ScheduledCount t =? TerminalCount t) then Err "scheduled count does not match terminal count"
  else if (TerminalCount t <? OutboundCount t) || negb (SendFailureCount t =? u64 (TerminalCount t - OutboundCount t)) then
    Err "terminal count does not match successful plus failed outcomes"
  else if negb (SendCount t =? OutboundCount t) || (ScheduledCount t <? PendingAtDecision t) then
    Err "inconsistent successful or pending counts"
  else Ok tt.

(** The checks of one message subtype, after its name's. *)
Definition validateMessageTrace (schema : string) (t : ACSMessageTrace) : out unit :=
  if (SendTotalUS t <? 0) || (SendMaxUS t <? 0) then Err "negative send duration"
  else
    let? _ := if String.eqb schema ACSTraceSchemaV2 || String.eqb schema ACSTraceSchemaV3
              then validateV2MessagePhases t else Ok tt in
    if String.eqb schema ACSTraceSchemaV3 then validateV3MessageLifecycle t else Ok tt.

Fixpoint messageRecords (schema : string) (records : list acsMessageTraceRecord) (seen : gmap string ACSMessageTrace)
  : out (gmap string ACSMessageTrace) :=
  match records with
  | [] => Ok seen
  | record :: records =>
      if negb (bool_decide (msg_Subtype record ∈ orderedACSMessageSubtypes)) then Err "unknown ACS message subtype"
      else if bool_decide (is_Some (seen !! msg_Subtype record)) then Err "duplicate ACS message subtype"
      else
        let? _ := validateMessageTrace schema (msg_Trace record) in
        messageRecords schema records (<[msg_Subtype record := msg_Trace record]> seen)
  end.

Definition validateMessageRecords (records : list acsMessageTraceRecord) (schema : string)
  : out (gmap string ACSMessageTrace) :=
  let? seen := messageRecords schema records ∅ in
  if forallb (fun subtype => bool_decide (is_Some (seen !! subtype))) orderedACSMessageSubtypes then Ok seen
  else Err "missing ACS message subtype".

(** The points of a record, all but the first being required; the first is
    [false_input_injected]. *)
Definition requiredPoints (a : ACSAggregateTrace) (d : ACSAdapterTrace) : list TracePoint :=
  [InputStarted a; FirstRBCOutput a; RBCOutputQuorum a; FirstTrueBBA a; TrueBBAQuorum a; AllBBADecided a; TruthyRBCReady a;
   CoreDecision a; CommonSubsetDecoded d; BlockBodyBuilt d; NodeOutputReceived d].

Definition orderedPairs (a : ACSAggregateTrace) (d : ACSAdapterTrace) : list (TracePoint * TracePoint) :=
  [(FirstRBCOutput a, RBCOutputQuorum a); (FirstRBCOutput a, FirstTrueBBA a); (FirstTrueBBA a, TrueBBAQuorum a);
   (TrueBBAQuorum a, AllBBADecided a); (AllBBADecided a, CoreDecision a); (TruthyRBCReady a, CoreDecision a)] ++
  (if Recorded (FalseInputInjected a) then [(TrueBBAQuorum a, FalseInputInjected a)] else []) ++
  [(CoreDecision a, NodeOutputReceived d); (CoreDecision a, CommonSubsetDecoded d);
   (CommonSubsetDecoded d, BlockBodyBuilt d); (BlockBodyBuilt d, NodeOutputReceived d)].

(** The first broadcast of the node's own proposal that stored its output. *)
Definition localOutput (record : acsTraceArtifactRecord) : option TracePoint :=
  OutputStoredAt ∘ rbc_Trace <$>
    List.find (fun rbc => (rbc_ProposerID rbc =? key_NodeID (ar_Key record)) && Recorded (OutputStoredAt (rbc_Trace rbc)))
      (ar_RBC record).

(** The checks of a record on its own. *)
Definition checkPoints (record : acsTraceArtifactRecord) : out unit :=
  let a := ar_Aggregate record in
  let d := ar_Adapter record in
  if String.eqb (ar_SchemaVersion record) ACSTraceSchemaV3 &&
     (negb (Sealed (ar_Transport record)) || negb (Finalized (ar_Transport record))) then
    Err "transport trace is not sealed and finalized"
  else
    let? _ := validateTracePoints (FalseInputInjected a :: requiredPoints a d) in
    if negb (forallb Recorded (requiredPoints a d)) then Err "missing required ACS trace point"
    else
      let? _ := each (fun p => requireTracePointOrder p.1 p.2) (orderedPairs a d) in
      let w := ar_Wait record in
      if (TrueBBAQuorumUS w <? 0) || (AllBBAUS w <? 0) || (TruthyRBCUS w <? 0) then Err "negative ACS wait duration"
      else Ok tt.

Definition validateACSTraceRecord (record : acsTraceArtifactRecord) (members : gset Z) (expected : expectedACSTraceArtifact)
  : out unit :=
  let? _ := checkPoints record in
  let? _ := validateRBCRecords (ar_RBC record) members (ar_SchemaVersion record) in
  let? _ := match localOutput record with
            | Some output => requireTracePointOrder (InputStarted (ar_Aggregate record)) output
            | None => Ok tt
            end in
  let? _ := validateBBARecords (ar_BBA record) members in
  let? messages := validateMessageRecords (ar_Messages record) (ar_SchemaVersion record) in
  let source := ex_record expected in
  let? expectedMessages := validateMessageRecords (ar_Messages source) (ar_SchemaVersion source) in
  if negb (bool_decide (messages = expectedMessages)) then Err "aggregate/detail message mismatch"
  else if negb (bool_decide (ar_Aggregate record = ar_Aggregate source)) ||
          negb (bool_decide (ar_Transport record = ar_Transport source)) ||
          negb (bool_decide (ar_Wait record = ar_Wait source)) ||
          negb (bool_decide (ar_Adapter record = ar_Adapter source)) ||
          negb (bool_decide (ar_RBC record = ar_RBC source)) || negb (bool_decide (ar_BBA record = ar_BBA source)) then
    Err "artifact/result trace mismatch"
  else
    let delta := i64 (OffsetUS (NodeOutputReceived (ar_Adapter record)) - legacyACSUS expected) in
    if (delta <? - acsTraceLegacyToleranceUS) || (acsTraceLegacyToleranceUS <? delta) then
      Err "legacy ACS reconciliation exceeds tolerance"
    else Ok tt.

(** ** Validating the file *)

Definition runKeyOf (k : acsTraceArtifactKey) : acsTraceRunKey :=
  mkRunKey (key_MeasurementBlock k) (key_RunID k) (key_Slot k).

Definition membersOf (run : EvalRun) : gset Z := list_to_set (seqZ 0 (run_Nodes run)).

Abbreviation expectedMap := (gmap acsTraceArtifactKey expectedACSTraceArtifact).

(** The loop over the results of one run. *)
Definition expectResult (schema : string) (run : EvalRun) (expected : expectedMap) (result : evalResult) : out expectedMap :=
  if negb (Enabled (er_ACSTrace result)) then Err "missing enabled ACS trace"
  else if negb (String.eqb (SchemaVersion (er_ACSTrace result)) schema) then Err "ACS trace schema does not match manifest"
  else
    let record := newACSTraceArtifactRecord run result in
    if bool_decide (is_Some (expected !! ar_Key record)) then Err "duplicate result ACS trace key"
    else Ok (<[ar_Key record := mkExpected record (ACSUS (er_Metrics result))]> expected).

Definition expectRun (schema : string) (st : expectedMap * gmap acsTraceRunKey (gset Z)) (run : EvalRun)
  : out (expectedMap * gmap acsTraceRunKey (gset Z)) :=
  let '(expected, memberships) := st in
  let runKey := mkRunKey (run_MeasurementBlock run) (run_RunID run) (run_Slot run) in
  let? expected := fold_out (expectResult schema run) (run_Results run) expected in
  Ok (expected, <[runKey := membersOf run]> memberships).

(** One round of the loop over the records of the file; [seen] are the keys so
    far, [previous] the last of them. *)
Definition validateNext (schema : string) (expected : expectedMap) (memberships : gmap acsTraceRunKey (gset Z))
  (st : gset acsTraceArtifactKey * option acsTraceArtifactKey) (decoded : out acsTraceArtifactRecord)
  : out (gset acsTraceArtifactKey * option acsTraceArtifactKey) :=
  let '(seen, previous) := st in
  let? record := decoded in
  let key := ar_Key record in
  if bool_decide (key ∈ seen) then Err "duplicate ACS trace key"
  else if match previous with Some previous => acsTraceKeyLess key previous | None => false end then
    Err "ACS trace records are not in deterministic key order"
  else
    match expected !! key with
    | None => Err "unexpected ACS node trace key"
    | Some source =>
        if negb (String.eqb (ar_SchemaVersion record) schema) then Err "record ACS trace schema does not match manifest"
        else if negb (ar_Enabled record) then Err "record has disabled ACS trace"
        else
          let? _ := validateACSTraceRecord record (default ∅ (memberships !! runKeyOf key)) source in
          Ok ({[ key ]} ∪ seen, Some key)
    end.

(** [schema] is the manifest's. *)
Definition validateACSTraceArtifact (readFile : bytes -> out bytes) (json_stream : bytes -> list (out acsTraceArtifactRecord))
  (schema : string) (runs : list EvalRun) (path : bytes) : out unit :=
  if String.eqb schema "" then Ok tt
  else if negb (supportedACSTraceSchema schema) then Err "unsupported ACS trace schema"
  else
    let? (expected, memberships) := fold_out (expectRun schema) runs (∅, ∅) in
    let? data := readFile path in
    let? (seen, _) := fold_out (validateNext schema expected memberships) (json_stream data) (∅, None) in
    if forallb (fun p => bool_decide (p.1 ∈ seen)) (map_to_list expected) then Ok tt else Err "missing node trace".
