(* ===== verification/ArtifactLaws.v ===== *)
(** * Laws of the trace artifact

    An artifact is accepted exactly when it holds, in the order of writing, the
    traces of the results, and those pass the checks on their own
    ([artifact_exact], [written_accepted]). *)

From S2P Require Import Prelude Order GoStrings Trace NodeState Deploy EvalData Artifact.

(** ** Order of the records *)

Definition keyCmp : acsTraceArtifactKey -> acsTraceArtifactKey -> comparison :=
  cmpThen (cmpOn key_MeasurementBlock Z.compare)
    (cmpThen (cmpOn key_RunID bytesCmp) (cmpThen (cmpOn key_NodeID Z.compare) (cmpOn key_Slot Z.compare))).

Lemma keyLess_cmp k k' : acsTraceKeyLess k k' = ltOf keyCmp k k'.
Proof.
  unfold acsTraceKeyLess, keyCmp, ltOf, cmpThen, cmpOn. rewrite !if_negb.
  by apply link_Z, link_bytes, link_Z.
Qed.

Lemma keyCmp_eq k k' : keyCmp k k' = Eq -> k = k'.
Proof.
  intros (Hb & (Hr & (Hn & Hs)%cmpThen_eq)%cmpThen_eq)%cmpThen_eq. unfold cmpOn in *.
  apply Z.compare_eq in Hb, Hn, Hs. apply bytesCmp_eq in Hr. destruct k, k'. cbn in *. by subst.
Qed.

Lemma recordLess_cmp r r' : acsTraceKeyLess (ar_Key r) (ar_Key r') = ltOf (cmpOn ar_Key keyCmp) r r'.
Proof. apply keyLess_cmp. Qed.

Definition allRecords (runs : list EvalRun) : list acsTraceArtifactRecord := concat (map recordsOf runs).

Lemma written_Permutation runs : writeACSTraceArtifact runs ≡ₚ allRecords runs.
Proof. apply (sortSlice_Permutation (cmpOn ar_Key keyCmp) _ recordLess_cmp). Qed.

Lemma written_sorted runs : Sorted (notAfter acsTraceKeyLess) (map ar_Key (writeACSTraceArtifact runs)).
Proof.
  pose proof (sortSlice_sorts (cmpOn ar_Key keyCmp) _ recordLess_cmp (allRecords runs)) as [_ HS].
  unfold writeACSTraceArtifact. fold (allRecords runs). induction HS as [|r l HS IH Hhd]; cbn; constructor; [done|].
  destruct Hhd; cbn; constructor. done.
Qed.

(** Keys without repetition have one order. *)
Lemma keys_unique ks ks' : ks ≡ₚ ks' -> Sorted (notAfter acsTraceKeyLess) ks -> Sorted (notAfter acsTraceKeyLess) ks' -> ks = ks'.
Proof.
  intros Hp HS HS'. apply (sorted_unique keyCmp acsTraceKeyLess keyLess_cmp ks'); [|by split|by split].
  intros x y _ _. apply keyCmp_eq.
Qed.

(** ** What is expected *)

Definition expectationOf (run : EvalRun) (result : evalResult) : acsTraceArtifactKey * expectedACSTraceArtifact :=
  let record := newACSTraceArtifactRecord run result in (ar_Key record, mkExpected record (ACSUS (er_Metrics result))).

Definition traced (schema : string) (result : evalResult) : Prop :=
  Enabled (er_ACSTrace result) = true /\ SchemaVersion (er_ACSTrace result) = schema.

Lemma expect_results schema run results expected expected' :
  fold_out (expectResult schema run) results expected = Ok expected' <->
  Forall (traced schema) results /\ NoDup (map (expectationOf run) results).*1 /\
  (forall k, k ∈ (map (expectationOf run) results).*1 -> expected !! k = None) /\
  expected' = list_to_map (map (expectationOf run) results) ∪ expected.
Proof.
  revert expected. induction results as [|result results IH]; intros expected; cbn [fold_out map].
  { change (list_to_map [] ∪ expected) with ((∅ : expectedMap) ∪ expected). rewrite (left_id_L ∅ (∪)). split; [intros [= ->]|intros (_ & _ & _ & ->); done].
    split_and!; [constructor|constructor|by intros k ?%elem_of_nil|done]. }
  unfold expectResult at 1. cbn [fmap list_fmap]. set (e := expectationOf run result).
  change (ar_Key (newACSTraceArtifactRecord run result)) with e.1.
  change (mkExpected _ _) with e.2.
  rewrite Forall_cons, NoDup_cons. unfold traced at 1.
  destruct (Enabled (er_ACSTrace result)); cbn [negb]; [|cbn [out_bind]; split; [discriminate|by intros [[[? _] _] _]]].
  destruct (String.eqb_spec (SchemaVersion (er_ACSTrace result)) schema) as [Hs|Hs]; cbn [negb];
    [|cbn [out_bind]; split; [discriminate|by intros [[[_ ?] _] _]]].
  case_bool_decide as Hin; cbn [out_bind].
  { split; [discriminate|]. intros (_ & _ & Hk & _). destruct Hin as [x Hx]. rewrite Hk in Hx by set_solver. done. }
  apply eq_None_not_Some in Hin. rewrite IH. cbn [list_to_map]. split.
  - intros (HF & Hnd & Hk & ->). split_and!; try done.
    + intros Hel. apply Hk in Hel. by rewrite lookup_insert_eq in Hel.
    + intros k [->|Hel]%elem_of_cons; [done|]. apply Hk in Hel as Hel'. by apply lookup_insert_None in Hel' as [? _].
    + rewrite <- insert_union_r; [by rewrite insert_union_l|]. apply not_elem_of_list_to_map. intros Hel. apply Hk in Hel.
      by rewrite lookup_insert_eq in Hel.
  - intros ([[_ _] HF] & [Hni Hnd] & Hk & ->). split_and!; [done|done| |].
    + intros k Hel. rewrite lookup_insert_ne; [apply Hk; by right|]. intros <-. done.
    + rewrite <- insert_union_r; [by rewrite insert_union_l|]. by apply not_elem_of_list_to_map.
Qed.

Definition pairsOf (run : EvalRun) : list (acsTraceArtifactKey * expectedACSTraceArtifact) :=
  map (expectationOf run) (run_Results run).
Definition allPairs (runs : list EvalRun) : list (acsTraceArtifactKey * expectedACSTraceArtifact) :=
  concat (map pairsOf runs).

Definition runKey (run : EvalRun) : acsTraceRunKey := mkRunKey (run_MeasurementBlock run) (run_RunID run) (run_Slot run).
Definition membershipsOf (runs : list EvalRun) (ms : gmap acsTraceRunKey (gset Z)) : gmap acsTraceRunKey (gset Z) :=
  fold_left (fun ms run => <[runKey run := membersOf run]> ms) runs ms.

Lemma expect_runs schema runs expected ms expected' ms' :
  fold_out (expectRun schema) runs (expected, ms) = Ok (expected', ms') <->
  Forall (fun run => Forall (traced schema) (run_Results run)) runs /\ NoDup (allPairs runs).*1 /\
  (forall k, k ∈ (allPairs runs).*1 -> expected !! k = None) /\
  expected' = list_to_map (allPairs runs) ∪ expected /\ ms' = membershipsOf runs ms.
Proof.
  revert expected ms. induction runs as [|run runs IH]; intros expected ms; cbn [fold_out].
  { change (list_to_map (allPairs []) ∪ expected) with ((∅ : expectedMap) ∪ expected). rewrite (left_id_L ∅ (∪)).
    split; [intros [= -> ->]|by intros (_ & _ & _ & -> & ->)].
    split_and!; [constructor|constructor|by intros k ?%elem_of_nil|done|done]. }
  unfold expectRun at 1. rewrite Forall_cons.
  change (allPairs (run :: runs)) with (pairsOf run ++ allPairs runs). rewrite fmap_app, NoDup_app.
  assert (Forall (traced schema) (run_Results run) -> NoDup (pairsOf run).*1 ->
    (forall k, k ∈ (pairsOf run).*1 ++ (allPairs runs).*1 -> expected !! k = None) ->
    fold_out (expectResult schema run) (run_Results run) expected = Ok (list_to_map (pairsOf run) ∪ expected)) as Hok.
  { intros HF Hnd Hk. apply expect_results. split_and!; [done|done| |done]. intros k Hel. apply Hk, elem_of_app. by left. }
  destruct (fold_out (expectResult schema run) (run_Results run) expected) as [m| |] eqn:Em; cbn [out_bind].
  - apply expect_results in Em as (HF & Hnd & Hk & ->). fold (pairsOf run) in *. rewrite IH.
    assert (forall k, (list_to_map (pairsOf run) ∪ expected : expectedMap) !! k = None <->
      k ∉ (pairsOf run).*1 /\ expected !! k = None) as Hnone
      by (intros k; rewrite lookup_union_None; by rewrite not_elem_of_list_to_map).
    assert ((forall k, k ∈ (pairsOf run).*1 -> k ∉ (allPairs runs).*1) ->
      list_to_map (allPairs runs) ∪ (list_to_map (pairsOf run) ∪ expected) =
      (list_to_map (pairsOf run ++ allPairs runs) ∪ expected : expectedMap)) as Hun.
    { intros Hdis. rewrite list_to_map_app, (assoc_L (∪)). f_equal. apply map_union_comm, map_disjoint_spec.
      intros k e e' H1 H2. apply elem_of_list_to_map_2, (list_elem_of_fmap_2 fst) in H1, H2. by apply (Hdis k). }
    split.
    + intros (HFs & Hnds & Hks & -> & ->). assert (forall k, k ∈ (pairsOf run).*1 -> k ∉ (allPairs runs).*1) as Hdis
        by (intros k H1 H2; apply Hks, Hnone in H2 as [? _]; done).
      split_and!; try done; [|by apply Hun]. intros k [Hel|Hel]%elem_of_app; [by apply Hk|]. by apply Hks, Hnone in Hel as [_ ?].
    + intros ([_ HFs] & (_ & Hdis & Hnds) & Hks & -> & ->). split_and!; try done; [|by rewrite Hun].
      intros k Hel. apply Hnone. split; [intros H1; by apply (Hdis k)|]. apply Hks, elem_of_app. by right.
  - split; [discriminate|]. intros ([HF _] & (Hnd & _ & _) & Hk & _). discriminate (Hok HF Hnd Hk).
  - split; [discriminate|]. intros ([HF _] & (Hnd & _ & _) & Hk & _). discriminate (Hok HF Hnd Hk).
Qed.

Lemma allPairs_keys runs : (allPairs runs).*1 = map ar_Key (allRecords runs).
Proof.
  unfold allPairs, allRecords. induction runs as [|run runs IH]; [done|]. cbn [map concat]. rewrite fmap_app, map_app, IH. f_equal.
  unfold pairsOf, recordsOf. change (map ?f) with (fmap (M := list) f). by rewrite <- !list_fmap_compose.
Qed.

Lemma allPairs_elem runs k e : (k, e) ∈ allPairs runs <->
  exists run result, run ∈ runs /\ result ∈ run_Results run /\ (k, e) = expectationOf run result.
Proof.
  unfold allPairs. rewrite list_elem_of_In, in_concat. setoid_rewrite in_map_iff. split.
  - intros (l & (run & <- & Hr) & Hin). unfold pairsOf in Hin. apply in_map_iff in Hin as (result & HE & Hres).
    exists run, result. by rewrite !list_elem_of_In.
  - intros (run & result & Hr & Hres & HE). exists (pairsOf run). split.
    + exists run. by rewrite <- list_elem_of_In.
    + unfold pairsOf. apply in_map_iff. exists result. by rewrite <- list_elem_of_In.
Qed.

(** ** What is read *)

Section Reading.
Context (schema : string) (expected : expectedMap) (memberships : gmap acsTraceRunKey (gset Z)).

(** A record that is accepted, whatever came before it. *)
Definition accepted (record : acsTraceArtifactRecord) : Prop :=
  exists source, expected !! ar_Key record = Some source /\ ar_SchemaVersion record = schema /\ ar_Enabled record = true /\
    validateACSTraceRecord record (default ∅ (memberships !! runKeyOf (ar_Key record))) source = Ok tt.

Definition follows (previous : option acsTraceArtifactKey) (keys : list acsTraceArtifactKey) : Prop :=
  Sorted (notAfter acsTraceKeyLess) (option_list previous ++ keys).

Lemma follows_cons previous k keys : follows previous (k :: keys) <->
  match previous with Some p => acsTraceKeyLess k p = false | None => True end /\ follows (Some k) keys.
Proof.
  unfold follows. destruct previous as [p|]; cbn; [|tauto]. split.
  - intros [HS Hhd]%Sorted_inv. by inversion Hhd.
  - intros [Hp HS]. constructor; [done|]. by constructor.
Qed.

Lemma next_records stream seen previous seen' :
  (exists previous', fold_out (validateNext schema expected memberships) stream (seen, previous) = Ok (seen', previous')) <->
  exists records, stream = map Ok records /\ NoDup (map ar_Key records) /\ (forall k, k ∈ map ar_Key records -> k ∉ seen) /\
    follows previous (map ar_Key records) /\ Forall accepted records /\ seen' = list_to_set (map ar_Key records) ∪ seen.
Proof.
  revert seen previous. induction stream as [|item stream IH]; intros seen previous; cbn [fold_out].
  { split.
    - intros [p' [= -> _]]. exists []. split_and!; [done|constructor|by intros k ?%elem_of_nil| |constructor|set_solver].
      unfold follows. destruct previous; repeat constructor.
    - intros ([|r records] & HE & _ & _ & _ & _ & ->); [|done]. exists previous. do 2 f_equal. set_solver. }
  unfold validateNext at 1. destruct item as [record|err|]; cbn [out_bind].
  2,3: split; [by intros [p' [=]]|by intros ([|r records] & [=] & _)].
  split.
  - intros [p' HE]. revert HE. case_bool_decide as Hin; [discriminate|].
    destruct (match previous with Some p => _ | None => false end) eqn:Ep; [discriminate|].
    destruct (expected !! ar_Key record) as [source|] eqn:Es; [|discriminate].
    destruct (String.eqb_spec (ar_SchemaVersion record) schema) as [Hs|]; [|discriminate]. cbn [negb].
    destruct (ar_Enabled record) eqn:Een; [|discriminate]. cbn [negb].
    destruct (validateACSTraceRecord _ _ _) as [[]| |] eqn:Ev; cbn [out_bind]; [|discriminate..].
    intros HE. destruct (proj1 (IH _ _) (ex_intro _ p' HE)) as (records & -> & Hnd & Hk & Hf & HF & ->).
    exists (record :: records). cbn [map]. split_and!; [done| | | | |set_solver].
    + apply NoDup_cons. split; [|done]. intros Hel. apply Hk in Hel. set_solver.
    + intros k [->|Hel]%elem_of_cons; [done|]. apply Hk in Hel. set_solver.
    + apply follows_cons. split; [by destruct previous|done].
    + constructor; [|done]. by exists source.
  - intros ([|r records] & HE & Hnd & Hk & Hf & HF & ->); [done|]. cbn [map] in *. injection HE as -> ->.
    apply NoDup_cons in Hnd as [Hni Hnd]. apply follows_cons in Hf as [Hp Hf]. apply Forall_cons in HF as [Ha HF].
    destruct Ha as (source & Es & Hs & Hen & Hv). rewrite bool_decide_false by (apply Hk; by left).
    replace (match previous with Some p => acsTraceKeyLess (ar_Key r) p | None => false end) with false by (by destruct previous).
    rewrite Es, Hs, String.eqb_refl, Hen. cbn [negb]. rewrite Hv. cbn [out_bind]. apply IH. exists records.
    split_and!; [done|done| |done|done|set_solver].
    intros k Hel. assert (k ∉ seen) by (apply Hk; by right). assert (k <> ar_Key r) by (intros ->; done). set_solver.
Qed.
End Reading.

(** ** One record against another *)

Definition messagePair (r : acsMessageTraceRecord) : string * ACSMessageTrace := (msg_Subtype r, msg_Trace r).

#[local] Instance messagePair_inj : Inj eq eq messagePair.
Proof. intros [] []. by intros [= -> ->]. Qed.

Lemma messageRecords_ok schema records seen m : messageRecords schema records seen = Ok m ->
  NoDup (map messagePair records).*1 /\ (forall s, s ∈ (map messagePair records).*1 -> seen !! s = None) /\
  m = list_to_map (map messagePair records) ∪ seen.
Proof.
  revert seen. induction records as [|r records IH]; intros seen; cbn [messageRecords].
  { intros [= ->]. split_and!; [apply NoDup_nil_2|by intros s ?%elem_of_nil|].
    change (list_to_map (map messagePair []) ∪ m) with ((∅ : gmap string ACSMessageTrace) ∪ m). by rewrite (left_id_L ∅ (∪)). }
  destruct (negb (bool_decide (msg_Subtype r ∈ _))); [discriminate|].
  case_bool_decide as Hin; [discriminate|]. apply eq_None_not_Some in Hin.
  destruct (validateMessageTrace schema (msg_Trace r)); cbn [out_bind]; [|discriminate..].
  intros (Hnd & Hk & ->)%IH. cbn [map fmap list_fmap]. assert (msg_Subtype r ∉ (map messagePair records).*1) as Hni
    by (intros Hel; apply Hk in Hel; by rewrite lookup_insert_eq in Hel).
  split_and!.
  - by apply NoDup_cons.
  - intros s [->|Hel]%elem_of_cons; [done|]. apply Hk in Hel. by apply lookup_insert_None in Hel as [? _].
  - cbn [list_to_map foldr]. rewrite <- insert_union_r; [by rewrite insert_union_l|]. by apply not_elem_of_list_to_map.
Qed.

Lemma validated_messages records schema m : validateMessageRecords records schema = Ok m ->
  NoDup (map messagePair records).*1 /\ m = list_to_map (map messagePair records).
Proof.
  unfold validateMessageRecords. destruct (messageRecords schema records ∅) as [seen| |] eqn:E; cbn [out_bind]; [|discriminate..].
  destruct (forallb _ _); [|discriminate]. intros [= <-]. apply messageRecords_ok in E as (Hnd & _ & ->).
  by rewrite (right_id_L ∅ (∪)).
Qed.

(** Equal but for the order of the message subtypes, and the key and the two
    fields that are compared with the manifest. *)
Definition sameTrace (r w : acsTraceArtifactRecord) : Prop :=
  ar_Transport r = ar_Transport w /\ ar_Aggregate r = ar_Aggregate w /\ ar_Wait r = ar_Wait w /\ ar_Adapter r = ar_Adapter w /\
  ar_RBC r = ar_RBC w /\ ar_BBA r = ar_BBA w /\ ar_Messages r ≡ₚ ar_Messages w.

Lemma record_same r members expected : validateACSTraceRecord r members expected = Ok tt -> sameTrace r (ex_record expected).
Proof.
  unfold validateACSTraceRecord. cbv zeta.
  destruct (checkPoints r); cbn [out_bind]; [|discriminate..].
  destruct (validateRBCRecords _ _ _); cbn [out_bind]; [|discriminate..].
  destruct (match localOutput r with Some _ => _ | None => _ end); cbn [out_bind]; [|discriminate..].
  destruct (validateBBARecords _ _); cbn [out_bind]; [|discriminate..].
  destruct (validateMessageRecords (ar_Messages r) _) as [m| |] eqn:E1; cbn [out_bind]; [|discriminate..].
  destruct (validateMessageRecords (ar_Messages (ex_record expected)) _) as [m'| |] eqn:E2; cbn [out_bind]; [|discriminate..].
  case_bool_decide as Hm; cbn [negb]; [|discriminate]. subst m'.
  destruct (negb (bool_decide (ar_Aggregate r = _)) || negb (bool_decide (ar_Transport r = _)) ||
    negb (bool_decide (ar_Wait r = _)) || negb (bool_decide (ar_Adapter r = _)) ||
    negb (bool_decide (ar_RBC r = _)) || negb (bool_decide (ar_BBA r = _))) eqn:E; [discriminate|]. intros _.
  repeat match goal with H : _ || _ = false |- _ => apply orb_false_iff in H as [? ?] end.
  repeat match goal with H : negb (bool_decide _) = false |- _ => apply negb_false_iff, bool_decide_eq_true in H end.
  split_and!; [done..|]. apply validated_messages in E1 as [N1 ->], E2 as [N2 Hl].
  apply list_to_map_inj in Hl; [|done|done]. apply (Permutation_map_inv messagePair) in Hl as (l & HE & Hp).
  change (map ?f) with (fmap (M := list) f) in HE. apply (inj (fmap (M := list) messagePair)) in HE as ->. done.
Qed.

(** ** The file *)

#[local] Instance Ok_inj {A} : Inj eq eq (@Ok A).
Proof. by intros x y [= ->]. Qed.

Section File.
Context (readFile : bytes -> out bytes) (json_stream : bytes -> list (out acsTraceArtifactRecord)).

Abbreviation validate := (validateACSTraceArtifact readFile json_stream).

(** What was expected for a record of the runs. *)
Lemma expected_record runs k source : NoDup (map ar_Key (allRecords runs)) ->
  (list_to_map (allPairs runs) : expectedMap) !! k = Some source -> ex_record source ∈ allRecords runs /\ ar_Key (ex_record source) = k.
Proof.
  intros Hnd Hl. apply elem_of_list_to_map_2, allPairs_elem in Hl as (run & result & Hr & Hres & [= -> ->]). cbn. split; [|done].
  unfold allRecords. rewrite list_elem_of_In. apply in_concat. exists (recordsOf run). split.
  - apply in_map. by rewrite <- list_elem_of_In.
  - apply (in_map (newACSTraceArtifactRecord run)). by rewrite <- list_elem_of_In.
Qed.

Lemma validate_steps schema runs path : schema <> ""%string -> validate schema runs path = Ok tt <->
  supportedACSTraceSchema schema = true /\ Forall (fun run => Forall (traced schema) (run_Results run)) runs /\
  NoDup (map ar_Key (allRecords runs)) /\
  exists data records, readFile path = Ok data /\ json_stream data = map Ok records /\
    map ar_Key records = map ar_Key (writeACSTraceArtifact runs) /\
    Forall (accepted schema (list_to_map (allPairs runs)) (membershipsOf runs ∅)) records.
Proof.
  intros Hs. unfold validateACSTraceArtifact. destruct (String.eqb_spec schema ""); [done|].
  destruct (supportedACSTraceSchema schema); cbn [negb]; [|split; [discriminate|by intros [? _]]].
  destruct (fold_out (expectRun schema) runs (∅, ∅)) as [[expected ms]| |] eqn:Ee; cbn [out_bind].
  2,3: split; [discriminate|]; intros (_ & HF & Hnd & _); rewrite <- allPairs_keys in Hnd;
    assert (fold_out (expectRun schema) runs (∅, ∅) = Ok (list_to_map (allPairs runs) ∪ ∅, membershipsOf runs ∅)) as E
      by (apply expect_runs; by split_and!); discriminate (eq_trans (eq_sym Ee) E).
  apply expect_runs in Ee as (HF & Hnd & _ & -> & ->). rewrite (right_id_L ∅ (∪)). rewrite allPairs_keys in Hnd.
  pose proof (Permutation_map ar_Key (written_Permutation runs)) as Hperm.
  destruct (readFile path) as [data| |]; cbn [out_bind]; [|split; [discriminate|by intros (_ & _ & _ & d & r & [=] & _)]..].
  split.
  - destruct (fold_out _ (json_stream data) (∅, None)) as [[seen previous]| |] eqn:En; cbn [out_bind]; [|discriminate..].
    destruct (forallb _ _) eqn:Ea; [|discriminate]. intros _. split_and!; [done..|].
    destruct (proj1 (next_records _ _ _ _ _ _ _) (ex_intro _ previous En)) as (records & Hst & Hnd' & _ & Hf & Hacc & ->).
    exists data, records. split_and!; [done|done| |done].
    apply keys_unique; [|exact Hf|apply written_sorted]. rewrite Hperm. apply list.NoDup_Permutation; [done|done|].
    intros k. split.
    + intros (r & -> & Hr)%list_elem_of_fmap. rewrite Forall_forall in Hacc. destruct (Hacc r Hr) as (source & Hl & _).
      apply expected_record in Hl as [Hin <-]; [|done]. by apply list_elem_of_fmap_2.
    + intros Hk. rewrite <- allPairs_keys in Hk. apply list_elem_of_fmap in Hk as ([k' e] & -> & Hp). cbn [fst].
      rewrite forallb_forall in Ea. specialize (Ea (k', e)). cbn [fst] in Ea.
      assert (k' ∈ (list_to_set (map ar_Key records) ∪ ∅ : gset acsTraceArtifactKey)) as Hin; [|set_solver].
      apply (bool_decide_eq_true_1 _), Ea. rewrite <- list_elem_of_In. apply elem_of_map_to_list, elem_of_list_to_map_1; [|done].
      by rewrite allPairs_keys.
  - intros (_ & _ & _ & d & records & [= <-] & Hst & Hkeys & Hacc). rewrite Hst.
    assert (NoDup (map ar_Key records)) as Hnd' by (rewrite Hkeys; by rewrite Hperm).
    destruct (proj2 (next_records schema (list_to_map (allPairs runs)) (membershipsOf runs ∅) (map Ok records) ∅ None
      (list_to_set (map ar_Key records) ∪ ∅))) as [previous ->].
    { exists records. split_and!; [done|done|set_solver| |done|done]. unfold follows. cbn [option_list app]. rewrite Hkeys.
      apply written_sorted. }
    cbn [out_bind]. replace (forallb _ _) with true; [done|]. symmetry. apply forallb_forall. intros [k e] Hin.
    apply bool_decide_eq_true. cbn [fst]. rewrite <- list_elem_of_In in Hin. apply elem_of_map_to_list, expected_record in Hin as [Hin <-]; [|done].
    apply elem_of_union_l, elem_of_list_to_set. rewrite Hkeys, Hperm. by apply list_elem_of_fmap_2.
Qed.

(** An accepted artifact is the one that was written: its records have the
    keys of the results in the order of writing, and every record has its
    result's trace, but for the order of the message subtypes. *)
Lemma artifact_records schema runs path : schema <> ""%string -> validate schema runs path = Ok tt ->
  exists data records, readFile path = Ok data /\ json_stream data = map Ok records /\
    Forall2 (fun r w => ar_Key r = ar_Key w /\ ar_SchemaVersion r = schema /\ ar_Enabled r = true /\ sameTrace r w)
      records (writeACSTraceArtifact runs).
Proof.
  intros Hs (_ & _ & Hnd & data & records & Hr & Hst & Hkeys & Hacc)%validate_steps; [|done].
  exists data, records. split; [done|]. split; [done|]. rewrite Forall2_lookup. intros i.
  assert (forall r : acsTraceArtifactRecord, r ∈ records -> exists w, w ∈ allRecords runs /\ ar_Key w = ar_Key r /\ ar_SchemaVersion r = schema /\
    ar_Enabled r = true /\ sameTrace r w) as Hrec.
  { intros r Hin. rewrite Forall_forall in Hacc. destruct (Hacc r Hin) as (source & Hl & Hsv & Hen & Hv).
    apply expected_record in Hl as [Hel Hk]; [|done]. exists (ex_record source). split_and!; [done..|]. by eapply record_same. }
  pose proof (f_equal (fun l => l !! i) Hkeys) as Hi. cbn beta in Hi. change (map ?f) with (fmap (M := list) f) in Hi.
  rewrite !list_lookup_fmap in Hi.
  destruct (records !! i) as [r|] eqn:Er, (writeACSTraceArtifact runs !! i) as [w|] eqn:Ew; cbn in Hi; try discriminate; constructor.
  injection Hi as Hk. apply list_elem_of_lookup_2 in Er, Ew. destruct (Hrec r Er) as (w' & Hw' & Hk' & Hsv & Hen & Hsame).
  assert (w' = w) as ->; [|done]. apply (NoDup_map_inj ar_Key (allRecords runs)); [done|done| |congruence].
  by rewrite <- (elem_perm _ _ w (written_Permutation runs)).
Qed.

(** A result whose trace passes the checks against itself. *)
Definition selfValid (run : EvalRun) (result : evalResult) : Prop :=
  let record := newACSTraceArtifactRecord run result in
  validateACSTraceRecord record (membersOf run) (mkExpected record (ACSUS (er_Metrics result))) = Ok tt.

Definition sameMembers (runs : list EvalRun) : Prop :=
  forall run run', run ∈ runs -> run' ∈ runs -> runKey run = runKey run' -> membersOf run = membersOf run'.

Lemma membershipsOf_lookup runs run ms : sameMembers runs -> run ∈ runs ->
  membershipsOf runs ms !! runKey run = Some (membersOf run).
Proof.
  intros Hsame Hin. unfold membershipsOf. induction runs as [|last runs IH] using rev_ind; [by apply elem_of_nil in Hin|].
  rewrite fold_left_app. cbn [fold_left]. destruct (decide (runKey last = runKey run)) as [E|E].
  - rewrite E, lookup_insert_eq. f_equal. apply Hsame; [apply elem_of_app; right; by left|done|done].
  - rewrite lookup_insert_ne by done. apply IH.
    + intros r r' Hr Hr'. apply Hsame; apply elem_of_app; by left.
    + apply elem_of_app in Hin as [Hin|Hin]; [done|]. by apply list_elem_of_singleton in Hin as ->.
Qed.

Lemma allRecords_elem runs record : record ∈ allRecords runs <->
  exists run result, run ∈ runs /\ result ∈ run_Results run /\ record = newACSTraceArtifactRecord run result.
Proof.
  unfold allRecords. rewrite list_elem_of_In, in_concat. split.
  - intros (l & (run & <- & Hr)%in_map_iff & (result & <- & Hres)%in_map_iff). exists run, result. by rewrite !list_elem_of_In.
  - intros (run & result & Hr & Hres & ->). exists (recordsOf run). split; [apply in_map|apply (in_map (newACSTraceArtifactRecord run))];
      by rewrite <- list_elem_of_In.
Qed.

(** C21. The artifact of an evaluation, stored as it was written, is accepted
    exactly when every result has an enabled trace of the manifest's schema, no
    two results have one key, and every trace passes the checks on its own. *)
Theorem written_accepted schema runs path data : schema <> ""%string -> sameMembers runs -> readFile path = Ok data ->
  json_stream data = map Ok (writeACSTraceArtifact runs) ->
  validate schema runs path = Ok tt <->
  supportedACSTraceSchema schema = true /\ NoDup (map ar_Key (allRecords runs)) /\
  forall run result, run ∈ runs -> result ∈ run_Results run -> traced schema result /\ selfValid run result.
Proof.
  intros Hs Hsame Hr Hst. rewrite validate_steps by done.
  assert (NoDup (map ar_Key (allRecords runs)) -> forall run result, run ∈ runs -> result ∈ run_Results run -> traced schema result ->
    accepted schema (list_to_map (allPairs runs)) (membershipsOf runs ∅) (newACSTraceArtifactRecord run result) <-> selfValid run result) as Hacc.
  { intros Hnd run result Hrun Hres [Hen Hsv]. unfold accepted, selfValid.
    assert ((list_to_map (allPairs runs) : expectedMap) !! ar_Key (newACSTraceArtifactRecord run result) =
      Some (mkExpected (newACSTraceArtifactRecord run result) (ACSUS (er_Metrics result)))) as ->.
    { apply elem_of_list_to_map_1; [by rewrite allPairs_keys|]. apply allPairs_elem. by exists run, result. }
    change (runKeyOf (ar_Key (newACSTraceArtifactRecord run result))) with (runKey run).
    rewrite membershipsOf_lookup by done. cbn [default]. split; [by intros (source & [= <-] & _ & _ & ?)|].
    intros Hv. by eexists. }
  split.
  - intros (Hsup & HF & Hnd & d & records & [= <-]%(eq_trans (eq_sym Hr)) & Hst' & _ & Ha). split_and!; [done..|].
    rewrite Hst in Hst'. change (map ?f) with (fmap (M := list) f) in Hst'. apply (inj (fmap (M := list) Ok)) in Hst' as <-.
    intros run result Hrun Hres. rewrite Forall_forall in HF. specialize (HF run Hrun). rewrite Forall_forall in HF.
    split; [by apply HF|]. apply Hacc; [done..|by apply HF|]. rewrite Forall_forall in Ha. apply Ha.
    rewrite (elem_perm _ _ _ (written_Permutation runs)). apply allRecords_elem. by exists run, result.
  - intros (Hsup & Hnd & Hall). split_and!; [done| |done|].
    + apply Forall_forall. intros run Hrun. apply Forall_forall. intros result Hres. by apply (Hall run result).
    + exists data, (writeACSTraceArtifact runs). split_and!; [done..|]. apply Forall_forall. intros record Hin.
      rewrite (elem_perm _ _ _ (written_Permutation runs)) in Hin. apply allRecords_elem in Hin as (run & result & Hrun & Hres & ->).
      destruct (Hall run result Hrun Hres) as [Ht Hv]. by apply Hacc.
Qed.
End File.
