(* ===== verification/EvalSuite.v ===== *)
(** * EvalSuite: the campaigns of the evaluators

    Models the loops of [src/bloc-node/internal/app] that run the slots of a
    campaign: clusters that live through many slots and are restarted when one
    of their slots breaks ([eval_persistent.go]), the suite around them
    ([eval_suite.go]), and the remote evaluator ([eval_remote.go]).

    What the processes, the file system and the nodes answer comes from an
    environment: [startEnv] for one start of a cluster, [slotEnv] for one slot.
    Rounds of polling are finite lists: the deadline passes after the last
    round. [Shuffle] is the one of [math/rand]. Directories, artifacts of
    single runs and printing are left out, and so is a cluster's [currentSlot],
    which nothing reads. *)

From S2P Require Import Prelude Order GoStrings Trace NodeState Node Config Deploy EvalData Artifact.

(** ** Options *)

Record suiteOptions := mkSuiteOptions {
  NodeCountsRaw : bytes;
  BatchSizesRaw : bytes;
  so_BMax : Z;
  so_TxSize : Z;
  so_TxGas : Z;
  so_TxSource : bytes;
  so_MempoolURL : bytes;
  ConfigBase : bytes;
  CorpusManifests : bytes;
  CorpusByNodes : gmap Z corpusProvenance;
  FinalCampaign : bool;
  FeeStart : Z;
  FeeStep : Z;
  Warmups : Z;
  Repetitions : Z;
  RepetitionBlocks : Z;
  Seed : Z;
  BasePort : Z;
  Deadline : Z;
  so_ExperimentID : bytes;
  ExecutionMode : bytes;
  so_StreamMode : bytes;
  MaxRestarts : Z;
  so_ACSTrace : bool
}.

Definition set_CorpusByNodes (corpora : gmap Z corpusProvenance) (o : suiteOptions) : suiteOptions :=
  mkSuiteOptions (NodeCountsRaw o) (BatchSizesRaw o) (so_BMax o) (so_TxSize o) (so_TxGas o) (so_TxSource o)
    (so_MempoolURL o) (ConfigBase o) (CorpusManifests o) corpora (FinalCampaign o) (FeeStart o) (FeeStep o) (Warmups o)
    (Repetitions o) (RepetitionBlocks o) (Seed o) (BasePort o) (Deadline o) (so_ExperimentID o) (ExecutionMode o)
    (so_StreamMode o) (MaxRestarts o) (so_ACSTrace o).

(** ** The schedule *)

Record persistentRunSpec := mkSpec {
  spec_scenario : evalScenario;
  spec_phase : bytes;
  spec_iteration : Z;
  spec_block : Z;
  spec_blockIteration : Z
}.

Definition perBlock (o : suiteOptions) : Z := Z.quot (Repetitions o) (RepetitionBlocks o).

(** The rounds of the two loops: phase, iteration, block, and iteration in the
    block. *)
Definition specRounds (o : suiteOptions) : list (bytes * Z * Z * Z) :=
  map (fun i => (str "warmup", i, 0, i)) (seqZ 1 (Warmups o)) ++
  concat (map (fun block =>
    map (fun i => (str "measured", (block - 1) * perBlock o + i, block, i)) (seqZ 1 (perBlock o)))
    (seqZ 1 (RepetitionBlocks o))).

Section Scheduling.
Context {Rng : Type} (NewSource : Z -> Rng) (Shuffle : Rng -> list evalScenario -> list evalScenario * Rng).

Fixpoint shuffleRounds (group : list evalScenario) (rounds : list (bytes * Z * Z * Z)) (rng : Rng)
  : list persistentRunSpec :=
  match rounds with
  | [] => []
  | (phase, iteration, block, blockIteration) :: rounds =>
      let '(order, rng) := Shuffle rng group in
      map (fun s => mkSpec s phase iteration block blockIteration) order ++ shuffleRounds group rounds rng
  end.

Definition persistentSpecs (group : list evalScenario) (o : suiteOptions) (nodes : Z) : go (list persistentRunSpec) :=
  if RepetitionBlocks o =? 0 then Panic
  else Ret (shuffleRounds group (specRounds o) (NewSource (i64 (Seed o + i64 (nodes * 1000003))))).
End Scheduling.

(** ** Submissions *)

Record evalSubmission := mkSubmission {
  nodeID : Z;
  request : SubmitTxRequest
}.

Section Submissions.
Context (generate : Z -> Z -> Z -> bytes -> Z -> Z -> go (out (bytes * Summary))).

Definition submissionOf (scenario : evalScenario) (o : suiteOptions) (i : Z) : go (out evalSubmission) :=
  if sc_Nodes scenario =? 0 then Panic else
  let node := Z.rem i (sc_Nodes scenario) in
  let feeWei := decimal (u64 (FeeStart o + u64 (i * FeeStep o))) in
  let! generated := generate i (so_TxSize o) (so_TxGas o) feeWei node (Z.quot i (sc_Nodes scenario)) in
  Ret (let? (rawTx, summary) := generated in
       Ok (mkSubmission node (mkSubmit (str "0x" ++ hexEncode rawTx) (sum_Gas summary)
             (sum_EffectiveFeePerGasWei summary) (sum_From summary) (sum_Nonce summary) (str "placeholder")))).

Fixpoint submissionsFrom (scenario : evalScenario) (o : suiteOptions) (indexes : list Z) : go (out (list evalSubmission)) :=
  match indexes with
  | [] => Ret (Ok [])
  | i :: indexes =>
      let! item := submissionOf scenario o i in
      match item with
      | Ok item => let! rest := submissionsFrom scenario o indexes in Ret (let? rest := rest in Ok (item :: rest))
      | Err err => Ret (Err err)
      | Crash => Panic
      end
  end.

Definition buildSubmissionCorpus (scenario : evalScenario) (o : suiteOptions) : go (out (list evalSubmission)) :=
  submissionsFrom scenario o (seqZ 0 (sc_BatchSize scenario)).

Definition buildSubmissionCorpusForSource (scenario : evalScenario) (o : suiteOptions) : go (out (list evalSubmission)) :=
  if bool_decide (so_TxSource o = []) || bool_decide (so_TxSource o = synthetic) then buildSubmissionCorpus scenario o
  else if usesMempoolSource (so_TxSource o) then Ret (Ok [])
  else Ret (Err "unsupported tx-source").

(** The corpora of a campaign, by scenario. *)
Fixpoint buildCorpora (o : suiteOptions) (scenarios : list evalScenario) (corpora : gmap bytes (list evalSubmission))
  : go (out (gmap bytes (list evalSubmission))) :=
  match scenarios with
  | [] => Ret (Ok corpora)
  | scenario :: scenarios =>
      let! items := buildSubmissionCorpusForSource scenario o in
      match items with
      | Ok items => buildCorpora o scenarios (<[sc_ID scenario := items]> corpora)
      | Err err => Ret (Err err)
      | Crash => Panic
      end
  end.
End Submissions.

(** ** Calls to all nodes *)

(** [order] is the order in which the calls end; the first error counts. *)
Fixpoint parallelNodes (order : list Z) (fn : Z -> option bytes) : option bytes :=
  match order with
  | [] => None
  | id :: order =>
      match fn id with
      | Some err => Some (str "node " ++ decimal id ++ str ": " ++ err)
      | None => parallelNodes order fn
      end
  end.

Definition prepareRequestForScenario (slotID : Z) (scenario : evalScenario) : Z * Z := (slotID, sc_BatchSize scenario).

(** The requests for one node, posted until one is refused. *)
Fixpoint postAll (post : SubmitTxRequest -> option bytes) (requests : list SubmitTxRequest) : option bytes :=
  match requests with
  | [] => None
  | req :: requests =>
      match post req with
      | Some err => Some err
      | None => postAll post requests
      end
  end.

Definition requestsFor (corpus : list evalSubmission) (id : Z) : list SubmitTxRequest :=
  map request (filter (fun item => nodeID item = id) corpus).

(** What the nodes answer in one slot: the orders of completion, the errors of
    the posts, and the replies to the polls. *)
Record slotEnv := mkSlotEnv {
  prepareOrder : list Z;
  prepareReply : Z -> Z * Z -> option bytes;
  submitOrder : list Z;
  submitReply : Z -> SubmitTxRequest -> option bytes;
  startOrder : list Z;
  startReply : Z -> option bytes;
  firstPoll : list httpReply;
  laterPolls : list (list httpReply)
}.

(** ** One slot *)

Definition newRun (runID : bytes) (scenario : evalScenario) (phase : bytes) (iteration orderIndex slotID generation bmax : Z)
  (txSize txGas : Z) (txSource streamMode : bytes) (corpus : option runCorpusIdentity) : EvalRun :=
  mkRun runID (sc_ID scenario) phase iteration orderIndex 0 0 0 0 slotID generation (sc_Nodes scenario)
    (sc_Threshold scenario) bmax (sc_BatchSize scenario) txSize txGas txSource corpus 0 (sc_Network scenario) streamMode
    false false [] false false [] 0 0 [].

(** The fields that are set from the results. *)
Definition withResults (results : list evalResult) (success : bool) (run : EvalRun) : EvalRun :=
  mkRun (run_RunID run) (run_ScenarioID run) (run_Phase run) (run_Iteration run) (run_OrderIndex run)
    (run_MeasurementBlock run) (run_BlockIteration run) (run_ScheduleSeed run) (run_PlannedScenarioRuns run)
    (run_Slot run) (run_ClusterGeneration run) (run_Nodes run) (run_Threshold run) (run_BMax run) (run_BatchSize run)
    (run_TxSize run) (run_TxGas run) (run_TxSource run) (run_Corpus run) (receivedTxCount results) (run_Network run)
    (run_StreamMode run) success (resultsConsistent results) (run_Outcome run) (run_DeadlineMet run) (run_TimedOut run)
    (run_Error run) (resultStartSkewUS results) (criticalNodeID results) results.

Section Slots.
Context (json_failure : bytes -> out slotFailureResponse) (json_result : bytes -> out evalResult).

(** The end of a slot: the results are polled and judged. *)
Definition collectRun (env : slotEnv) (nodes slotID batchSize : Z) (txSource : bytes) (run : EvalRun)
  : EvalRun * option bytes :=
  let '(results, err) := pollResultsForSlot json_failure json_result nodes slotID (firstPoll env) (laterPolls env) in
  let received := receivedTxCount results in
  match err with
  | Some err => (withResults results false run, Some err)
  | None =>
      if bool_decide (txSource = mockEncryptedCorpus) && negb (received =? batchSize) then
        (withResults results false run,
          Some (str "received " ++ decimal received ++ str " selected ciphertexts, expected exact corpus prefix " ++
                decimal batchSize))
      else (withResults results (resultsConsistent results) run, None)
  end.

Record persistentCluster := mkCluster {
  pc_nodes : Z;
  pc_threshold : Z;
  pc_basePort : Z;
  pc_generation : Z;
  pc_configPath : bytes
}.

Definition runSlot (env : slotEnv) (c : persistentCluster) (runID : bytes) (scenario : evalScenario) (phase : bytes)
  (iteration orderIndex slotID : Z) (corpus : list evalSubmission) (o : suiteOptions) : EvalRun * option bytes :=
  let run := newRun runID scenario phase iteration orderIndex slotID (pc_generation c) (so_BMax o) (so_TxSize o) (so_TxGas o)
    (so_TxSource o) (so_StreamMode o)
    (if bool_decide (so_TxSource o = mockEncryptedCorpus)
     then Some (corpusIdentityForCount (default noProvenance (CorpusByNodes o !! sc_Nodes scenario)) (sc_BatchSize scenario))
     else None) in
  match parallelNodes (prepareOrder env) (fun id => prepareReply env id (prepareRequestForScenario slotID scenario)) with
  | Some err => (run, Some (str "prepare slot " ++ decimal slotID ++ str ": " ++ err))
  | None =>
      match parallelNodes (submitOrder env) (fun id => postAll (submitReply env id) (requestsFor corpus id)) with
      | Some err => (run, Some (str "submit transactions: " ++ err))
      | None =>
          match parallelNodes (startOrder env) (startReply env) with
          | Some err => (run, Some err)
          | None => collectRun env (pc_nodes c) slotID (sc_BatchSize scenario) (so_TxSource o) run
          end
      end
  end.

(** [ids] are the identifiers of the configured nodes; replies go by position. *)
Definition runRemoteSlot (env : slotEnv) (runID : bytes) (cfg : remoteEvalConfig) (scenario : evalScenario) (phase : bytes)
  (iteration orderIndex slotID : Z) (corpus : list evalSubmission) (txSize txGas : Z) (txSource : bytes) (prepare : bool)
  : EvalRun * option bytes :=
  let run := newRun runID scenario phase iteration orderIndex slotID 0 (re_BMax cfg) txSize txGas txSource (re_StreamMode cfg)
    (if bool_decide (txSource = mockEncryptedCorpus)
     then Some (corpusIdentityForCount (re_Corpus cfg) (sc_BatchSize scenario)) else None) in
  let nodeAt index := default (-1) (rn_ID <$> re_Nodes cfg !! Z.to_nat index) in
  match (if prepare
         then parallelNodes (prepareOrder env) (fun id => prepareReply env id (prepareRequestForScenario slotID scenario))
         else None) with
  | Some err => (run, Some (str "prepare remote slot " ++ decimal slotID ++ str ": " ++ err))
  | None =>
      match (if usesMempoolSource txSource then None
             else parallelNodes (submitOrder env) (fun index =>
               postAll (submitReply env index) (requestsFor corpus (nodeAt index)))) with
      | Some err => (run, Some (str "submit remote transactions: " ++ err))
      | None =>
          match parallelNodes (startOrder env) (startReply env) with
          | Some err => (run, Some (str "start remote nodes: " ++ err))
          | None => collectRun env (zlen (re_Nodes cfg)) slotID (sc_BatchSize scenario) txSource run
          end
      end
  end.
End Slots.

(** The fields that the loops set after a slot, and its outcome. *)
Definition finishRun (uni : bytes -> bytes) (block blockIteration seed planned deadline : Z) (run : EvalRun)
  (runErr : option bytes) : EvalRun :=
  let run := match runErr with Some err => withError err run | None => run end in
  classifyRunOutcome uni runErr deadline (withPlan block blockIteration seed planned run).

(** ** Starting a cluster *)

Inductive statReply :=
  | Exists
  | NotExist
  | StatFailed (err : string).

(** What the system answers in one start: the directories, the configuration
    file before and after its generation, the child processes, and the rounds
    of health checks. *)
Record startEnv := mkStartEnv {
  mkClusterRoot : out unit;
  statConfig : statReply;
  genConfig : list bytes -> out unit;
  se_readFile : bytes -> out bytes;
  mkGenerationDir : out unit;
  createLog : Z -> out unit;
  startProcess : list bytes -> out unit;
  firstHealth : list httpReply;
  laterHealth : list (list httpReply)
}.

Record clusterMeasurement := mkMeasurement {
  cm_Nodes : Z;
  cm_Threshold : Z;
  cm_Generation : Z;
  cm_Reason : bytes;
  cm_Success : bool;
  cm_Error : option string
}.

Definition healthy (reply : httpReply) : bool :=
  match reply with
  | Reply status _ => status =? 200
  | NoReply => false
  end.

Fixpoint waitForHTTP (round : list httpReply) (rounds : list (list httpReply)) : out unit :=
  if forallb healthy round then Ok tt
  else
    match rounds with
    | [] => Err "nodes did not become healthy"
    | round :: rounds => waitForHTTP round rounds
    end.

Section Starting.
Context (below : bytes -> bytes -> bytes) (crsPath : bytes -> bytes -> bytes).
Context (json_fields : bytes -> out (list bytes)) (json_config : bytes -> out (ConfigFile * wireLimits)).
Context (json_network : bytes -> out NetworkConfig).

Definition validateClusterConfigStreamMode (readFile : bytes -> out bytes) (path expected : bytes) : out unit :=
  let? data := readFile path in
  let? network := json_network data in
  let network := normalizeNetworkConfig network in
  let? _ := validateNetworkConfig network in
  if negb (bool_decide (net_StreamMode network = expected)) then
    Err "cluster config stream mode does not match evaluator stream mode"
  else Ok tt.

Definition validatePersistentCorpusConfig (readFile : bytes -> out bytes) (path : bytes) (scenario : evalScenario)
  (p : corpusProvenance) : out unit :=
  let? cfg := readConfig readFile crsPath json_fields json_config path in
  if negb (cf_N cfg =? sc_Nodes scenario) || negb (cf_Threshold cfg =? sc_Threshold scenario) ||
     negb (cf_BMax cfg =? cp_BMax p) then Err "cluster config n/t/BMax does not match scenario and corpus"
  else
    let provider := cf_Provider cfg in
    if negb (RequireExactCount provider) || negb (bool_decide (ExpectedPublicConfigID provider = cp_PublicConfigID p)) ||
       negb (bool_decide (ExpectedPlaintextMasterID provider = cp_PlaintextMasterCorpusID p)) ||
       negb (bool_decide (ExpectedEncryptedCorpusID provider = cp_EncryptedCorpusID p)) then
      Err "cluster config provider does not match immutable corpus identities"
    else if forallb (fun entry => bool_decide (default [] (ExpectedEncryptedPrefixSetIDs provider !! entry.1) = entry.2))
              (map_to_list (cp_EncryptedPrefixSetIDs p)) then Ok tt
    else Err "cluster config encrypted prefix does not match immutable corpus".

Definition genConfigArgs (o : suiteOptions) (scenario : evalScenario) (initialSlot : Z) (configPath : bytes) : list bytes :=
  [str "gen-config"; str "--nodes"; decimal (sc_Nodes scenario); str "--threshold"; decimal (sc_Threshold scenario);
   str "--bmax"; decimal (so_BMax o); str "--slot"; decimal initialSlot;
   str "--base-http-port"; decimal (i64 (BasePort o + 1000)); str "--base-p2p-port"; decimal (i64 (BasePort o + 2000));
   str "--default-tx-gas"; decimal (so_TxGas o);
   str "--cluster-id"; so_ExperimentID o ++ str "-n" ++ decimal (sc_Nodes scenario);
   str "--stream-mode"; so_StreamMode o; str "--out"; configPath] ++
  (if so_ACSTrace o then [str "--acs-trace"] else []) ++
  (if usesMempoolSource (so_TxSource o)
   then [str "--provider"; str "mempool-http"; str "--mempool-url"; so_MempoolURL o] else []).

Definition runArgs (configRoot configPath : bytes) (id initialSlot : Z) : list bytes :=
  [str "run"; str "--config"; configPath; str "--secrets";
   below configRoot (str "secrets/operator-" ++ decimal id ++ str ".json"); str "--id"; decimal id;
   str "--slot"; decimal initialSlot].

Definition startCluster (env : startEnv) (configBase : bytes) (o : suiteOptions) (scenario : evalScenario)
  (generation initialSlot : Z) : out persistentCluster :=
  let configRoot := below configBase (str "n" ++ decimal (sc_Nodes scenario)) in
  let configPath := below configRoot (str "cluster.json") in
  let? _ := mkClusterRoot env in
  let? _ :=
    match statConfig env with
    | Exists => Ok tt
    | StatFailed err => Err err
    | NotExist =>
        if bool_decide (so_TxSource o = mockEncryptedCorpus) then
          Err "immutable encrypted corpus run requires existing config"
        else genConfig env (genConfigArgs o scenario initialSlot configPath)
    end in
  let? _ := validateClusterConfigStreamMode (se_readFile env) configPath (so_StreamMode o) in
  let? _ :=
    if bool_decide (so_TxSource o = mockEncryptedCorpus)
    then validatePersistentCorpusConfig (se_readFile env) configPath scenario
           (default noProvenance (CorpusByNodes o !! sc_Nodes scenario))
    else Ok tt in
  let? _ := mkGenerationDir env in
  let? _ := each (fun id =>
    let? _ := createLog env id in startProcess env (runArgs configRoot configPath id initialSlot))
    (seqZ 0 (sc_Nodes scenario)) in
  let? _ := waitForHTTP (firstHealth env) (laterHealth env) in
  Ok (mkCluster (sc_Nodes scenario) (sc_Threshold scenario) (BasePort o) generation configPath).

(** Returns the cluster, if it came up, and what is recorded of the start; a
    start that fails stops the processes it has started. *)
Definition startPersistentCluster (env : startEnv) (configBase : bytes) (o : suiteOptions) (scenario : evalScenario)
  (generation initialSlot : Z) (reason : bytes) : out persistentCluster * clusterMeasurement :=
  let started := startCluster env configBase o scenario generation initialSlot in
  (started,
   mkMeasurement (sc_Nodes scenario) (sc_Threshold scenario) generation reason
     (match started with Ok _ => true | _ => false end) (match started with Err err => Some err | _ => None end)).
End Starting.

(** ** The loop over the schedule *)

(** What happens to clusters, in order. *)
Inductive lifecycle :=
  | Opened (nodes generation : Z)
  | SlotRun (run : EvalRun) (err : option bytes)
  | Closed.

Record suiteState := mkSuiteState {
  ss_generation : Z;
  consecutiveFailures : Z;
  needsRecovery : bool;
  ss_cluster : option persistentCluster;
  nextSlot : Z;
  actualOrder : Z;
  allRuns : list EvalRun;
  measurements : list clusterMeasurement;
  ss_log : list lifecycle
}.

(** The calls of the loop that answer from outside: a start of the nodes, a
    slot, and the record of a run. *)
Record campaignEnv := mkCampaignEnv {
  ce_start : Z -> Z -> startEnv;
  ce_slot : Z -> slotEnv;
  ce_record : EvalRun -> option bytes
}.

Inductive step :=
  | Continue (st : suiteState)
  | Return (st : suiteState) (err : bytes).

Definition pad (width : nat) (n : Z) : bytes :=
  let text := decimal n in replicate (width - length text) 48 ++ text.

Section Campaign.
Context (below : bytes -> bytes -> bytes) (crsPath : bytes -> bytes -> bytes) (uni : bytes -> bytes).
Context (json_fields : bytes -> out (list bytes)) (json_config : bytes -> out (ConfigFile * wireLimits)).
Context (json_network : bytes -> out NetworkConfig).
Context (json_failure : bytes -> out slotFailureResponse) (json_result : bytes -> out evalResult).
Context (env : campaignEnv) (configBase : bytes) (o : suiteOptions) (corpora : gmap bytes (list evalSubmission)).

Definition appendRun (run : EvalRun) (err : option bytes) (st : suiteState) : suiteState :=
  mkSuiteState (ss_generation st) (consecutiveFailures st) (needsRecovery st) (ss_cluster st)
    (u64 (nextSlot st + 1)) (actualOrder st + 1) (allRuns st ++ [run]) (measurements st) (ss_log st ++ [SlotRun run err]).

Definition closeCluster (st : suiteState) : suiteState :=
  mkSuiteState (ss_generation st) (consecutiveFailures st) (needsRecovery st) None (nextSlot st) (actualOrder st)
    (allRuns st) (measurements st) (match ss_cluster st with Some _ => ss_log st ++ [Closed] | None => ss_log st end).

Definition set_failures (n : Z) (st : suiteState) : suiteState :=
  mkSuiteState (ss_generation st) n (needsRecovery st) (ss_cluster st) (nextSlot st) (actualOrder st) (allRuns st)
    (measurements st) (ss_log st).

Definition set_needsRecovery (b : bool) (st : suiteState) : suiteState :=
  mkSuiteState (ss_generation st) (consecutiveFailures st) b (ss_cluster st) (nextSlot st) (actualOrder st) (allRuns st)
    (measurements st) (ss_log st).

(** The run of one slot, as it is kept. *)
Definition slotOf (cluster : persistentCluster) (runID phase : bytes) (iteration : Z) (scenario : evalScenario)
  (block blockIteration : Z) (st : suiteState) : EvalRun * option bytes :=
  let '(run, runErr) := runSlot json_failure json_result (ce_slot env (nextSlot st)) cluster runID scenario phase iteration
    (actualOrder st + 1) (nextSlot st) (default [] (corpora !! sc_ID scenario)) o in
  (finishRun uni block blockIteration (Seed o) (Repetitions o) (Deadline o) run runErr, runErr).

Inductive recovery :=
  | Recovered (st : suiteState)
  | Unrecovered (st : suiteState)
  | RecordFailed (st : suiteState) (err : bytes).

(** One slot of every scenario of the group on a new cluster. *)
Fixpoint recoverGroup (cluster : persistentCluster) (group : list evalScenario) (index : Z) (st : suiteState) : recovery :=
  match group with
  | [] => Recovered st
  | scenario :: group =>
      let runID := str "recovery-g" ++ pad 3 (ss_generation st) ++ str "-" ++ pad 2 (index + 1) ++ str "-" ++
                   sc_ID scenario in
      let '(run, runErr) := slotOf cluster runID (str "recovery") (index + 1) scenario 0 0 st in
      let st := appendRun run runErr st in
      match ce_record env run with
      | Some err => RecordFailed (closeCluster st) err
      | None =>
          if negb (run_Success run) || negb (run_Consistent run) then Unrecovered st
          else recoverGroup cluster group (index + 1) st
      end
  end.

(** The state after a start, whether or not the cluster came up. *)
Definition afterStart (nodes : Z) (started : out persistentCluster) (measurement : clusterMeasurement) (st : suiteState)
  : suiteState :=
  let generation := ss_generation st + 1 in
  match started with
  | Ok c => mkSuiteState generation (consecutiveFailures st) (needsRecovery st) (Some c) (nextSlot st) (actualOrder st)
              (allRuns st) (measurements st ++ [measurement]) (ss_log st ++ [Opened nodes generation])
  | _ => mkSuiteState generation (consecutiveFailures st + 1) (needsRecovery st) None (nextSlot st) (actualOrder st)
              (allRuns st) (measurements st ++ [measurement]) (ss_log st)
  end.

(** [for cluster == nil]; [first] is the first scenario of the group. *)
Fixpoint ensureCluster (fuel : nat) (nodes : Z) (first : evalScenario) (group : list evalScenario) (st : suiteState)
  : go step :=
  match fuel with
  | O => NoFuel
  | S fuel =>
      match ss_cluster st with
      | Some _ => Ret (Continue st)
      | None =>
          let reason := if needsRecovery st then str "recovery" else str "initial" in
          let '(started, measurement) := startPersistentCluster below crsPath json_fields json_config json_network
            (ce_start env nodes (ss_generation st + 1)) configBase o first (ss_generation st + 1) (nextSlot st) reason in
          let st := afterStart nodes started measurement st in
          match started with
          | Ok c =>
              if needsRecovery st then
                match recoverGroup c group 0 st with
                | RecordFailed st err => Ret (Return st err)
                | Recovered st => Ret (Continue (set_failures 0 (set_needsRecovery false st)))
                | Unrecovered st =>
                    let st := set_failures (consecutiveFailures st + 1) (closeCluster st) in
                    if MaxRestarts o <=? consecutiveFailures st then
                      Ret (Return st (str "persistent n" ++ decimal nodes ++ str " recovery failed after " ++
                        decimal (consecutiveFailures st) ++ str " generations"))
                    else ensureCluster fuel nodes first group st
                end
              else Ret (Continue st)
          | _ =>
              if MaxRestarts o <=? consecutiveFailures st then
                Ret (Return st (str "persistent n" ++ decimal nodes ++ str " cluster failed to start after " ++
                  decimal (consecutiveFailures st) ++ str " attempts: " ++
                  match started with Err err => str err | _ => [] end))
              else ensureCluster fuel nodes first group st
          end
      end
  end.

Definition runSpec (nodes : Z) (spec : persistentRunSpec) (cluster : persistentCluster) (st : suiteState) : step :=
  let runID := spec_phase spec ++ str "-r" ++ pad 3 (spec_iteration spec) ++ str "-" ++ sc_ID (spec_scenario spec) in
  let '(run, runErr) := slotOf cluster runID (spec_phase spec) (spec_iteration spec) (spec_scenario spec) (spec_block spec)
    (spec_blockIteration spec) st in
  let st := appendRun run runErr st in
  match ce_record env run with
  | Some err => Return (closeCluster st) err
  | None =>
      if shouldRecoverPersistentCluster uni run runErr then
        let st := set_failures (consecutiveFailures st + 1) (set_needsRecovery true (closeCluster st)) in
        if MaxRestarts o <=? consecutiveFailures st then
          Return st (str "persistent n" ++ decimal nodes ++ str " cluster failed in " ++
            decimal (consecutiveFailures st) ++ str " consecutive generations")
        else Continue st
      else Continue (set_failures 0 st)
  end.

(** Every failed round adds to [consecutiveFailures]. *)
Definition restartFuel : nat := S (Z.to_nat (MaxRestarts o)).

Fixpoint runSpecs (nodes : Z) (first : evalScenario) (group : list evalScenario) (specs : list persistentRunSpec)
  (st : suiteState) : go step :=
  match specs with
  | [] => Ret (Continue st)
  | spec :: specs =>
      let! ready := ensureCluster restartFuel nodes first group st in
      match ready with
      | Return st err => Ret (Return st err)
      | Continue st =>
          match ss_cluster st with
          | None => Panic
          | Some cluster =>
              match runSpec nodes spec cluster st with
              | Return st err => Ret (Return st err)
              | Continue st => runSpecs nodes first group specs st
              end
          end
      end
  end.

(** The variables that each node count starts anew. *)
Definition freshGroup (st : suiteState) : suiteState :=
  mkSuiteState 0 0 false None (nextSlot st) (actualOrder st) (allRuns st) (measurements st) (ss_log st).

Context {Rng : Type} (NewSource : Z -> Rng) (Shuffle : Rng -> list evalScenario -> list evalScenario * Rng).

Definition runGroup (nodes : Z) (group : list evalScenario) (st : suiteState) : go step :=
  let! specs := persistentSpecs NewSource Shuffle group o nodes in
  match group with
  | [] => Ret (Continue (freshGroup st))
  | first :: _ =>
      let! done := runSpecs nodes first group specs (freshGroup st) in
      match done with
      | Return st err => Ret (Return st err)
      | Continue st => Ret (Continue (closeCluster st))
      end
  end.

(** The scenarios of every node count, in their order, and the node counts. *)
Definition groupScenarios (scenarios : list evalScenario) : gmap Z (list evalScenario) * list Z :=
  fold_left (fun '(groups, counts) scenario =>
    (<[sc_Nodes scenario := default [] (groups !! sc_Nodes scenario) ++ [scenario]]> groups,
     if bool_decide (is_Some (groups !! sc_Nodes scenario)) then counts else counts ++ [sc_Nodes scenario]))
    scenarios (∅, []).

Fixpoint runGroups (groups : gmap Z (list evalScenario)) (counts : list Z) (st : suiteState) : go step :=
  match counts with
  | [] => Ret (Continue st)
  | nodes :: counts =>
      let! done := runGroup nodes (default [] (groups !! nodes)) st in
      match done with
      | Return st err => Ret (Return st err)
      | Continue st => runGroups groups counts st
      end
  end.
End Campaign.

Definition initialSuite : suiteState := mkSuiteState 0 0 false None 1 0 [] [] [].

Section Persistent.
Context (below : bytes -> bytes -> bytes) (crsPath : bytes -> bytes -> bytes) (uni : bytes -> bytes).
Context (json_fields : bytes -> out (list bytes)) (json_config : bytes -> out (ConfigFile * wireLimits)).
Context (json_network : bytes -> out NetworkConfig).
Context (json_failure : bytes -> out slotFailureResponse) (json_result : bytes -> out evalResult).
Context (generate : Z -> Z -> Z -> bytes -> Z -> Z -> go (out (bytes * Summary))).
Context {Rng : Type} (NewSource : Z -> Rng) (Shuffle : Rng -> list evalScenario -> list evalScenario * Rng).

(** [tempDir] is the directory that is made when no base is given. *)
Definition runPersistentSuite (env : campaignEnv) (tempDir : out bytes) (o : suiteOptions) (scenarios : list evalScenario)
  : go (suiteState * option bytes) :=
  match (if bool_decide (ConfigBase o = []) then tempDir else Ok (ConfigBase o)) with
  | Err err => Ret (initialSuite, Some (str err))
  | Crash => Panic
  | Ok configBase =>
      let '(groups, counts) := groupScenarios scenarios in
      let! corpora := buildCorpora generate o scenarios ∅ in
      match corpora with
      | Err err => Ret (initialSuite, Some (str err))
      | Crash => Panic
      | Ok corpora =>
          let! finished := runGroups below crsPath uni json_fields json_config json_network json_failure json_result env
            configBase o corpora NewSource Shuffle groups (sortSlice Z.ltb counts) initialSuite in
          match finished with
          | Continue st => Ret (st, None)
          | Return st err => Ret (st, Some err)
          end
      end
  end.
End Persistent.
