(* ===== verification/EvalSuiteLaws.v ===== *)
(** * Laws of the campaign loops

    A campaign on persistent clusters ends in every environment, keeps the
    runs of the schedule in their order, numbers its slots without a gap, and
    calls a run completed only when the nodes' results agree. *)

From S2P Require Import Prelude Order GoStrings Trace NodeState Node Config Deploy EvalData Artifact EvalSuite.

(** ** What a kept run says *)

(** The fields that the loops choose. *)
Definition identityOf (run : EvalRun) : bytes * bytes * bytes * Z * Z * Z * Z * bytes :=
  (run_RunID run, run_ScenarioID run, run_Phase run, run_Iteration run, run_OrderIndex run, run_Slot run,
   run_ClusterGeneration run, run_StreamMode run).

Definition planOf (run : EvalRun) : bytes * Z * bytes * Z * Z :=
  (run_Phase run, run_Iteration run, run_ScenarioID run, run_MeasurementBlock run, run_BlockIteration run).

Definition planned (spec : persistentRunSpec) : bytes * Z * bytes * Z * Z :=
  (spec_phase spec, spec_iteration spec, sc_ID (spec_scenario spec), spec_block spec, spec_blockIteration spec).

Definition scheduledPhase (phase : bytes) : Prop := phase = str "warmup" \/ phase = str "measured".

#[export] Instance scheduledPhase_dec phase : Decision (scheduledPhase phase).
Proof. unfold scheduledPhase. apply _. Defined.

(** The runs that count for the collection. *)
Definition retained (runs : list EvalRun) : list EvalRun := filter (fun run => scheduledPhase (run_Phase run)) runs.

Lemma suiteCollectionComplete_retained plan runs : suiteCollectionComplete plan runs = (zlen (retained runs) =? plan).
Proof. done. Qed.

Lemma finishRun_fields uni block blockIteration seed planned deadline run err :
  let kept := finishRun uni block blockIteration seed planned deadline run err in
  identityOf kept = identityOf run /\ run_MeasurementBlock kept = block /\ run_BlockIteration kept = blockIteration /\
  run_Results kept = run_Results run /\ run_CriticalNodeID kept = run_CriticalNodeID run.
Proof.
  unfold finishRun, classifyRunOutcome. cbv zeta.
  destruct err; destruct (run_Success _ && run_Consistent _); done.
Qed.

Section Slots.
Context (uni : bytes -> bytes).
Context (json_failure : bytes -> out slotFailureResponse) (json_result : bytes -> out evalResult).

Lemma runSlot_identity env c runID scenario phase iteration order slotID corpus o run err :
  runSlot json_failure json_result env c runID scenario phase iteration order slotID corpus o = (run, err) ->
  identityOf run = (runID, sc_ID scenario, phase, iteration, order, slotID, pc_generation c, so_StreamMode o).
Proof.
  unfold runSlot. cbv zeta. destruct (parallelNodes _ _); [by intros [= <- _]|].
  destruct (parallelNodes _ _); [by intros [= <- _]|]. destruct (parallelNodes _ _); [by intros [= <- _]|].
  unfold collectRun. destruct (pollResultsForSlot _ _ _ _ _ _) as [results [e|]]; [by intros [= <- _]|].
  destruct (_ && _); by intros [= <- _].
Qed.
End Slots.

Section Campaign.
Context (below : bytes -> bytes -> bytes) (crsPath : bytes -> bytes -> bytes) (uni : bytes -> bytes).
Context (json_fields : bytes -> out (list bytes)) (json_config : bytes -> out (ConfigFile * wireLimits)).
Context (json_network : bytes -> out NetworkConfig).
Context (json_failure : bytes -> out slotFailureResponse) (json_result : bytes -> out evalResult).
Context (env : campaignEnv) (configBase : bytes) (o : suiteOptions) (corpora : gmap bytes (list evalSubmission)).
Context {Rng : Type} (NewSource : Z -> Rng) (Shuffle : Rng -> list evalScenario -> list evalScenario * Rng).

Abbreviation slotRun := (slotOf uni json_failure json_result env o corpora).
Abbreviation recovering := (recoverGroup uni json_failure json_result env o corpora).
Abbreviation ensure := (ensureCluster below crsPath uni json_fields json_config json_network json_failure json_result env
  configBase o corpora).
Abbreviation specStep := (runSpec uni json_failure json_result env o corpora).
Abbreviation specLoop := (runSpecs below crsPath uni json_fields json_config json_network json_failure json_result env
  configBase o corpora).
Abbreviation groupLoop := (runGroup below crsPath uni json_fields json_config json_network json_failure json_result env
  configBase o corpora NewSource Shuffle).
Abbreviation suiteLoop := (runGroups below crsPath uni json_fields json_config json_network json_failure json_result env
  configBase o corpora NewSource Shuffle).

Lemma slotOf_fields cluster runID phase iteration scenario block blockIteration st run err :
  slotRun cluster runID phase iteration scenario block blockIteration st = (run, err) ->
  identityOf run = (runID, sc_ID scenario, phase, iteration, actualOrder st + 1, nextSlot st, pc_generation cluster,
    so_StreamMode o) /\
  planOf run = (phase, iteration, sc_ID scenario, block, blockIteration).
Proof.
  unfold slotOf. destruct (runSlot _ _ _ _ _ _ _ _ _ _ _ _) as [run0 err0] eqn:E.
  intros [= <- <-]. apply runSlot_identity in E.
  destruct (finishRun_fields uni block blockIteration (Seed o) (Repetitions o) (Deadline o) run0 err0) as (Hid & Hb & Hbi & _).
  rewrite Hid. split; [done|]. unfold planOf. rewrite Hb, Hbi.
  unfold identityOf in Hid, E. rewrite E in Hid. by injection Hid as _ -> -> -> _ _ _ _.
Qed.

Lemma slotOf_phase cluster runID phase iteration scenario block blockIteration st run err :
  slotRun cluster runID phase iteration scenario block blockIteration st = (run, err) -> run_Phase run = phase.
Proof. intros [_ Hp]%slotOf_fields. unfold planOf in Hp. by injection Hp. Qed.

Definition stateOf (s : step) : suiteState :=
  match s with
  | Continue st => st
  | Return st _ => st
  end.

(** ** Rule induction

    A property of the state that every elementary change keeps holds of the
    states a campaign reaches. *)

Record preserved (P : suiteState -> Prop) : Prop := {
  pres_run : forall cluster runID phase iteration scenario block blockIteration st run err, P st ->
    slotRun cluster runID phase iteration scenario block blockIteration st = (run, err) -> P (appendRun run err st);
  pres_close : forall st, P st -> P (closeCluster st);
  pres_failures : forall n st, P st -> P (set_failures n st);
  pres_needs : forall b st, P st -> P (set_needsRecovery b st);
  pres_start : forall nodes started m st, P st -> P (afterStart nodes started m st);
  pres_fresh : forall st, P st -> P (freshGroup st)
}.

Section Preserved.
Context (P : suiteState -> Prop) (HP : preserved P).

Lemma recoverGroup_preserved cluster group index st : P st ->
  match recovering cluster group index st with Recovered st => P st | Unrecovered st => P st | RecordFailed st _ => P st end.
Proof.
  revert index st. induction group as [|scenario group IH]; intros index st Hst; cbn [recoverGroup]; [done|].
  destruct (slotRun _ _ _ _ _ _ _ _) as [run err] eqn:E. pose proof (pres_run _ HP _ _ _ _ _ _ _ _ _ _ Hst E) as Hst'.
  destruct (ce_record env run); [by apply (pres_close _ HP)|]. destruct (negb _ || negb _); [done|]. by apply IH.
Qed.

Lemma ensureCluster_preserved fuel nodes first group st res : P st -> ensure fuel nodes first group st = Ret res -> P (stateOf res).
Proof.
  revert st. induction fuel as [|fuel IH]; intros st Hst; cbn [ensureCluster]; [discriminate|].
  destruct (ss_cluster st); [by intros [= <-]|].
  destruct (startPersistentCluster _ _ _ _ _ _ _ _ _ _ _ _) as [started m].
  pose proof (pres_start _ HP nodes started m _ Hst) as Hs. destruct started as [c|e|].
  - destruct (needsRecovery (afterStart nodes (Ok c) m st)); [|by intros [= <-]].
    pose proof (recoverGroup_preserved c group 0 _ Hs) as Hr. destruct (recovering _ _ _ _) as [st'|st'|st' e].
    + intros [= <-]. by apply (pres_failures _ HP), (pres_needs _ HP).
    + destruct (_ <=? _).
      * intros [= <-]. by apply (pres_failures _ HP), (pres_close _ HP).
      * apply IH. by apply (pres_failures _ HP), (pres_close _ HP).
    + by intros [= <-].
  - destruct (_ <=? _); [by intros [= <-]|by apply IH].
  - destruct (_ <=? _); [by intros [= <-]|by apply IH].
Qed.

Lemma runSpec_preserved nodes spec cluster st : P st -> P (stateOf (specStep nodes spec cluster st)).
Proof.
  intros Hst. unfold runSpec. destruct (slotRun _ _ _ _ _ _ _ _) as [run err] eqn:E.
  pose proof (pres_run _ HP _ _ _ _ _ _ _ _ _ _ Hst E) as Hst'. cbv zeta.
  destruct (ce_record env run); [by apply (pres_close _ HP)|].
  destruct (shouldRecoverPersistentCluster _ _ _); [|by apply (pres_failures _ HP)].
  destruct (_ <=? _); by apply (pres_failures _ HP), (pres_needs _ HP), (pres_close _ HP).
Qed.

Lemma runSpecs_preserved nodes first group specs st res : P st -> specLoop nodes first group specs st = Ret res -> P (stateOf res).
Proof.
  revert st. induction specs as [|spec specs IH]; intros st Hst; cbn [runSpecs]; [by intros [= <-]|].
  destruct (ensure _ _ _ _ _) as [[st'|st' e]| |] eqn:E; cbn [go_bind]; [| |discriminate..].
  - apply ensureCluster_preserved in E; [|done]. destruct (ss_cluster st') as [c|]; [|discriminate].
    pose proof (runSpec_preserved nodes spec c st' E) as Hs. destruct (specStep _ _ _ _); [by apply IH|by intros [= <-]].
  - intros [= <-]. by apply ensureCluster_preserved in E.
Qed.

Lemma runGroups_preserved groups counts st res : P st -> suiteLoop groups counts st = Ret res -> P (stateOf res).
Proof.
  revert st. induction counts as [|nodes counts IH]; intros st Hst; cbn [runGroups]; [by intros [= <-]|].
  destruct (groupLoop _ _ _) as [[st'|st' e]| |] eqn:E; cbn [go_bind]; [| |discriminate..].
  all: unfold runGroup in E; destruct (persistentSpecs _ _ _ _ _); cbn [go_bind] in E; try discriminate;
    destruct (default [] (groups !! nodes)) as [|first group]; [|destruct (specLoop _ _ _ _ _) as [[st''|st'' e'']| |] eqn:E2;
      cbn [go_bind] in E; try discriminate].
  - injection E as <-. apply IH. by apply (pres_fresh _ HP).
  - injection E as <-. apply IH, (pres_close _ HP). apply runSpecs_preserved in E2; [done|]. by apply (pres_fresh _ HP).
  - discriminate.
  - injection E as <- <-. intros [= <-]. apply runSpecs_preserved in E2; [done|]. by apply (pres_fresh _ HP).
Qed.
End Preserved.

(** ** Numbering *)

(** The [i]-th run of the campaign has the [i]-th slot and place. *)
Definition numbered (st : suiteState) : Prop :=
  nextSlot st = u64 (1 + zlen (allRuns st)) /\ actualOrder st = zlen (allRuns st) /\
  forall i run, allRuns st !! i = Some run ->
    run_Slot run = u64 (Z.of_nat i + 1) /\ run_OrderIndex run = Z.of_nat i + 1 /\ run_StreamMode run = so_StreamMode o.

Lemma numbered_run cluster runID phase iteration scenario block blockIteration st run err : numbered st ->
  slotRun cluster runID phase iteration scenario block blockIteration st = (run, err) -> numbered (appendRun run err st).
Proof.
  intros (Hn & Ha & Hruns) [Hid _]%slotOf_fields. unfold numbered. cbn. rewrite length_app. cbn. rewrite Hn, Ha.
  split_and!; [unfold u64; rewrite Zplus_mod_idemp_l; f_equal; lia|lia|].
  intros i r [Hi|[Hle Hi]]%lookup_app_Some; [by apply Hruns|].
  apply list_lookup_singleton_Some in Hi as [Hi <-]. replace i with (length (allRuns st)) by lia.
  unfold identityOf in Hid. injection Hid as _ _ _ _ -> -> _ ->. rewrite Hn, Ha.
  split_and!; [f_equal; lia|done|done].
Qed.

Lemma numbered_preserved : preserved numbered.
Proof.
  split; try done; [apply numbered_run|]. intros nodes started m st Hst. by destruct started.
Qed.

Lemma suiteLoop_numbered groups counts res : suiteLoop groups counts initialSuite = Ret res -> numbered (stateOf res).
Proof.
  intros Hrun. apply (runGroups_preserved numbered numbered_preserved) in Hrun; [exact Hrun|].
  split_and!; [done..|]. intros i run Hi. by destruct i.
Qed.

(** ** The schedule *)

Lemma retained_app runs runs' : retained (runs ++ runs') = retained runs ++ retained runs'.
Proof. apply filter_app. Qed.

(** What the loop over one cluster's recovery leaves as it was. *)
Definition untouched (st st' : suiteState) : Prop :=
  retained (allRuns st') = retained (allRuns st) /\ consecutiveFailures st' = consecutiveFailures st.

Lemma recoverGroup_untouched cluster group index st :
  match recovering cluster group index st with
  | Recovered st' => untouched st st' /\ ss_cluster st' = ss_cluster st
  | Unrecovered st' => untouched st st'
  | RecordFailed st' _ => untouched st st'
  end.
Proof.
  revert index st. induction group as [|scenario group IH]; intros index st; cbn [recoverGroup]; [done|].
  destruct (slotRun _ _ _ _ _ _ _ _) as [run err] eqn:E. apply slotOf_phase in E.
  assert (untouched st (appendRun run err st)) as Hu.
  { split; [|done]. cbn. rewrite retained_app. unfold retained at 2. rewrite filter_cons_False; [by rewrite app_nil_r|].
    rewrite E. by intros [?|?]. }
  destruct (ce_record env run); [done|]. destruct (negb _ || negb _); [done|].
  specialize (IH (index + 1) (appendRun run err st)). unfold untouched in *.
  destruct Hu as [Hu1 Hu2]. destruct (recovering _ _ _ _); rewrite Hu1, Hu2 in IH; exact IH.
Qed.

(** Restarting ends: with a cluster, or because it failed too often. *)
Lemma ensureCluster_ends fuel nodes first group st : 0 <= consecutiveFailures st ->
  (Z.to_nat (MaxRestarts o - consecutiveFailures st) < fuel)%nat ->
  exists res, ensure fuel nodes first group st = Ret res /\ retained (allRuns (stateOf res)) = retained (allRuns st) /\
    match res with
    | Continue st' => is_Some (ss_cluster st') /\ 0 <= consecutiveFailures st'
    | Return _ _ => True
    end.
Proof.
  revert st. induction fuel as [|fuel IH]; intros st H0 Hfuel; [lia|]. cbn [ensureCluster].
  destruct (ss_cluster st) eqn:Ec; [exists (Continue st); rewrite Ec; eauto|].
  destruct (startPersistentCluster _ _ _ _ _ _ _ _ _ _ _ _) as [started m].
  assert (retained (allRuns (afterStart nodes started m st)) = retained (allRuns st)) as Hr by (by destruct started).
  destruct started as [c|e|]; rewrite <- Hr.
  2,3: destruct (Z.leb_spec (MaxRestarts o) (consecutiveFailures st + 1)) as [Hm|Hm]; cbn [afterStart consecutiveFailures];
    [rewrite (proj2 (Z.leb_le _ _) Hm); by eexists|rewrite (proj2 (Z.leb_gt _ _) Hm); apply IH; cbn; lia].
  destruct (needsRecovery (afterStart nodes (Ok c) m st)); [|eexists; split; [done|]; split; [done|]; cbn; eauto].
  pose proof (recoverGroup_untouched c group 0 (afterStart nodes (Ok c) m st)) as Hu.
  destruct (recovering _ _ _ _) as [st'|st'|st' e].
  - destruct Hu as [[Hu _] Hc]. eexists. split; [done|]. split; [done|]. cbn. rewrite Hc. split; [by eexists|lia].
  - destruct Hu as [Hu Hf]. cbn in Hf. cbn [set_failures closeCluster consecutiveFailures]. rewrite Hf.
    destruct (Z.leb_spec (MaxRestarts o) (consecutiveFailures st + 1)); [by eexists|].
    destruct (IH (set_failures (consecutiveFailures st + 1) (closeCluster st'))) as (res & -> & Hret & Hres); [cbn; lia..|].
    exists res. split; [reflexivity|]. split; [|exact Hres]. rewrite Hret. exact Hu.
  - destruct Hu as [Hu _]. by eexists.
Qed.

Lemma runSpec_plan nodes spec cluster st : scheduledPhase (spec_phase spec) -> 0 <= consecutiveFailures st ->
  let st' := stateOf (specStep nodes spec cluster st) in
  map planOf (retained (allRuns st')) = map planOf (retained (allRuns st)) ++ [planned spec] /\
  match specStep nodes spec cluster st with Continue st' => 0 <= consecutiveFailures st' | Return _ _ => True end.
Proof.
  intros Hph H0. unfold runSpec. destruct (slotRun _ _ _ _ _ _ _ _) as [run err] eqn:E.
  pose proof (slotOf_phase _ _ _ _ _ _ _ _ _ _ E) as Hrun. apply slotOf_fields in E as [_ Hp]. cbv zeta.
  assert (map planOf (retained (allRuns (appendRun run err st))) = map planOf (retained (allRuns st)) ++ [planned spec]) as Hplan.
  { cbn. rewrite retained_app, map_app. f_equal. unfold retained. rewrite filter_cons_True by (by rewrite Hrun). cbn. by rewrite Hp. }
  destruct (ce_record env run); [done|].
  destruct (shouldRecoverPersistentCluster _ _ _); [|done]. destruct (_ <=? _); [done|]. split; [done|cbn; lia].
Qed.

Lemma runSpecs_plan nodes first group specs st : Forall (fun spec => scheduledPhase (spec_phase spec)) specs ->
  0 <= consecutiveFailures st ->
  exists res, specLoop nodes first group specs st = Ret res /\
    exists done rest, specs = done ++ rest /\
      map planOf (retained (allRuns (stateOf res))) = map planOf (retained (allRuns st)) ++ map planned done /\
      match res with Continue _ => rest = [] | Return _ _ => True end.
Proof.
  intros Hph. revert st. induction Hph as [|spec specs Hspec _ IH]; intros st H0; cbn [runSpecs].
  { eexists. split; [done|]. exists [], []. cbn. by rewrite app_nil_r. }
  destruct (ensureCluster_ends (restartFuel o) nodes first group st) as (res & -> & Hr & Hres); [done|unfold restartFuel; lia|].
  cbn [go_bind]. destruct res as [st'|st' e]; cbn [stateOf] in Hr.
  - destruct Hres as [[c ->] H0']. destruct (runSpec_plan nodes spec c st' Hspec H0') as [Hplan Hf]. rewrite Hr in Hplan.
    destruct (specStep nodes spec c st') as [st2|st2 e]; cbn [stateOf] in Hplan.
    + destruct (IH st2 Hf) as (res & -> & done & rest & -> & Hd & Hrest). exists res. split; [reflexivity|].
      exists (spec :: done), rest. split_and!; [reflexivity| |exact Hrest]. by rewrite Hd, Hplan, <- app_assoc.
    + eexists. split; [reflexivity|]. exists [spec], specs. by split_and!.
  - eexists. split; [reflexivity|]. exists [], (spec :: specs). cbn. by rewrite app_nil_r, Hr.
Qed.

Definition shuffles : Prop := forall rng l, (Shuffle rng l).1 ≡ₚ l.

Definition specsOf (group : list evalScenario) (nodes : Z) : list persistentRunSpec :=
  shuffleRounds Shuffle group (specRounds o) (NewSource (i64 (Seed o + i64 (nodes * 1000003)))).

Lemma shuffleRounds_phase group rounds rng : Forall (fun round => scheduledPhase round.1.1.1) rounds ->
  Forall (fun spec => scheduledPhase (spec_phase spec)) (shuffleRounds Shuffle group rounds rng).
Proof.
  intros HF. revert rng. induction HF as [|[[[phase iteration] block] bi] rounds Hph _ IH]; intros rng; cbn; [constructor|].
  destruct (Shuffle rng group) as [order rng']. apply Forall_app. split; [|apply IH].
  apply Forall_map, Forall_forall. intros s _. exact Hph.
Qed.

Lemma shuffleRounds_length group rounds rng : shuffles ->
  length (shuffleRounds Shuffle group rounds rng) = (length group * length rounds)%nat.
Proof.
  intros Hsh. revert rng. induction rounds as [|[[[phase iteration] block] bi] rounds IH]; intros rng; cbn; [lia|].
  pose proof (Hsh rng group) as Hp. destruct (Shuffle rng group) as [order rng']. cbn in Hp.
  rewrite length_app, length_map, (Permutation_length Hp), IH. lia.
Qed.

Lemma specRounds_phase : Forall (fun round => scheduledPhase round.1.1.1) (specRounds o).
Proof.
  unfold specRounds. apply Forall_app. split; [apply Forall_map, Forall_forall; intros i _; by left|].
  apply Forall_concat, Forall_map, Forall_forall. intros block _. apply Forall_map, Forall_forall. intros i _. by right.
Qed.

Lemma runGroup_plan nodes group st : RepetitionBlocks o <> 0 -> shuffles ->
  exists res, groupLoop nodes group st = Ret res /\
    exists done rest, specsOf group nodes = done ++ rest /\
      map planOf (retained (allRuns (stateOf res))) = map planOf (retained (allRuns st)) ++ map planned done /\
      match res with Continue _ => rest = [] | Return _ _ => True end.
Proof.
  intros Hb Hsh. unfold runGroup, persistentSpecs. rewrite (proj2 (Z.eqb_neq _ _) Hb). cbn [go_bind].
  fold (specsOf group nodes). destruct group as [|first group].
  { eexists. split; [reflexivity|]. exists [], []. cbn. rewrite app_nil_r. split_and!; [|done..].
    apply length_zero_iff_nil. unfold specsOf. by rewrite shuffleRounds_length. }
  destruct (runSpecs_plan nodes first (first :: group) (specsOf (first :: group) nodes) (freshGroup st))
    as (res & -> & Hplan); [by apply shuffleRounds_phase, specRounds_phase|done|].
  cbn [go_bind]. destruct res; by eexists.
Qed.

Definition schedule (groups : gmap Z (list evalScenario)) (counts : list Z) : list persistentRunSpec :=
  concat (map (fun nodes => specsOf (default [] (groups !! nodes)) nodes) counts).

Lemma runGroups_plan groups counts st : RepetitionBlocks o <> 0 -> shuffles ->
  exists res, suiteLoop groups counts st = Ret res /\
    exists done rest, schedule groups counts = done ++ rest /\
      map planOf (retained (allRuns (stateOf res))) = map planOf (retained (allRuns st)) ++ map planned done /\
      match res with Continue _ => rest = [] | Return _ _ => True end.
Proof.
  intros Hb Hsh. revert st. induction counts as [|nodes counts IH]; intros st; cbn [runGroups].
  { eexists. split; [reflexivity|]. exists [], []. cbn. by rewrite app_nil_r. }
  destruct (runGroup_plan nodes (default [] (groups !! nodes)) st Hb Hsh) as (res & -> & d & rest & Hs & Hplan & Hrest).
  cbn [go_bind]. unfold schedule. cbn [map concat]. rewrite Hs. destruct res as [st'|st' e]; cbn [stateOf] in Hplan.
  - subst rest. destruct (IH st') as (res & -> & d' & rest & Hs' & Hplan' & Hrest). exists res. split; [reflexivity|].
    exists (d ++ d'), rest. rewrite app_nil_r, <- app_assoc. split_and!; [by f_equal| |done].
    by rewrite Hplan', Hplan, map_app, app_assoc.
  - eexists. split; [reflexivity|]. exists d, (rest ++ schedule groups counts). by rewrite app_assoc.
Qed.

End Campaign.

(** ** Groups of scenarios *)

Lemma concat_insert (groups : gmap Z (list evalScenario)) counts n l :
  n ∉ counts -> concat (map (fun m => default [] (<[n := l]> groups !! m)) counts) =
    concat (map (fun m => default [] (groups !! m)) counts).
Proof.
  intros Hn. f_equal. apply map_ext_in. intros m Hm. rewrite lookup_insert_ne; [done|]. intros ->.
  by rewrite <- list_elem_of_In in Hm.
Qed.

Definition grouped (groups : gmap Z (list evalScenario)) (counts : list Z) (scenarios : list evalScenario) : Prop :=
  NoDup counts /\ (forall n, n ∈ counts <-> is_Some (groups !! n)) /\
  concat (map (fun n => default [] (groups !! n)) counts) ≡ₚ scenarios.

Lemma grouped_insert groups counts scenarios s : grouped groups counts scenarios ->
  grouped (<[sc_Nodes s := default [] (groups !! sc_Nodes s) ++ [s]]> groups)
    (if bool_decide (is_Some (groups !! sc_Nodes s)) then counts else counts ++ [sc_Nodes s]) (scenarios ++ [s]).
Proof.
  intros (Hnd & Hel & Hp). set (n := sc_Nodes s) in *. case_bool_decide as Hin.
  - pose proof (proj2 (Hel n) Hin) as Hc. apply list_elem_of_split in Hc as (a & b & ->).
    pose proof Hnd as (Ha & Hdis & Hb)%NoDup_app. apply NoDup_cons in Hb as [Hnb _].
    assert (n ∉ a) as Hna by (intros Hn; apply (Hdis n Hn); by left). split_and!; [done| |].
    + intros m. rewrite Hel. destruct (decide (m = n)) as [->|]; [rewrite lookup_insert_eq; by split; eauto|].
      by rewrite lookup_insert_ne.
    + rewrite <- Hp, !map_app, !concat_app. cbn [map concat]. rewrite !concat_insert by done. rewrite lookup_insert_eq.
      change (default [] (Some (default [] (groups !! n) ++ [s]))) with (default [] (groups !! n) ++ [s]).
      rewrite <- !app_assoc. apply Permutation_app_head, Permutation_app_head. apply Permutation_app_comm.
  - assert (n ∉ counts) as Hc by (by rewrite Hel). split_and!.
    + apply NoDup_app. split_and!; [done| |apply NoDup_singleton]. by intros m Hm ->%list_elem_of_singleton.
    + intros m. rewrite elem_of_app, list_elem_of_singleton, Hel. destruct (decide (m = n)) as [->|].
      * rewrite lookup_insert_eq. split; [by eauto|by right].
      * rewrite lookup_insert_ne by done. naive_solver.
    + rewrite map_app, concat_app. cbn [map concat]. rewrite concat_insert by done. rewrite lookup_insert_eq.
      apply eq_None_not_Some in Hin. rewrite Hin. cbn. by rewrite Hp.
Qed.

Lemma groupScenarios_grouped scenarios : let '(groups, counts) := groupScenarios scenarios in grouped groups counts scenarios.
Proof.
  unfold groupScenarios. induction scenarios as [|s scenarios IH] using rev_ind; cbn.
  { split_and!; [constructor| |done]. intros n. rewrite lookup_empty. split; [by intros ?%elem_of_nil|by intros [? ?]]. }
  rewrite fold_left_app. cbn. destruct (fold_left _ scenarios _) as [groups counts]. by apply grouped_insert.
Qed.
(** ** The whole campaign *)

(** Generation of a transaction ends, with one or with an error. *)
Definition generates (generate : Z -> Z -> Z -> bytes -> Z -> Z -> go (out (bytes * Summary))) : Prop :=
  forall index size gas fee sender nonce, size < 2 ^ 63 ->
    exists r, generate index size gas fee sender nonce = Ret r /\ r <> Crash.

Lemma submissionsFrom_ends generate scenario o indexes : generates generate -> so_TxSize o < 2 ^ 63 -> sc_Nodes scenario <> 0 ->
  exists r, submissionsFrom generate scenario o indexes = Ret r /\ r <> Crash.
Proof.
  intros Hgen Hsize Hn. induction indexes as [|i indexes IH]; cbn [submissionsFrom]; [by eexists|].
  unfold submissionOf. rewrite (proj2 (Z.eqb_neq _ _) Hn). cbv zeta.
  edestruct (Hgen i (so_TxSize o)) as (r & -> & Hr); [done|]. cbn [go_bind].
  destruct r as [[raw summary]|e|]; cbn [out_bind]; [|by eexists|done].
  destruct IH as (rest & -> & Hrest). cbn [go_bind]. destruct rest; cbn [out_bind]; [by eexists..|done].
Qed.

Lemma buildCorpora_ends generate o scenarios corpora : generates generate -> so_TxSize o < 2 ^ 63 ->
  Forall (fun s => sc_Nodes s <> 0) scenarios ->
  exists r, buildCorpora generate o scenarios corpora = Ret r /\ r <> Crash.
Proof.
  intros Hgen Hsize HF. revert corpora. induction HF as [|s scenarios Hn _ IH]; intros corpora; cbn [buildCorpora]; [by eexists|].
  assert (exists r, buildSubmissionCorpusForSource generate s o = Ret r /\ r <> Crash) as (r & -> & Hr).
  { unfold buildSubmissionCorpusForSource. destruct (_ || _); [by apply submissionsFrom_ends|].
    destruct (usesMempoolSource _); by eexists. }
  cbn [go_bind]. destruct r; [apply IH|by eexists|done].
Qed.

Lemma schedule_length o {Rng} (NewSource : Z -> Rng) Shuffle groups counts scenarios : shuffles Shuffle ->
  grouped groups counts scenarios ->
  length (schedule o NewSource Shuffle groups counts) = (length scenarios * length (specRounds o))%nat.
Proof.
  intros Hsh (_ & _ & Hp). rewrite <- (Permutation_length Hp). clear Hp. unfold schedule.
  induction counts as [|n counts IH]; cbn [map concat]; [done|]. rewrite !length_app, IH.
  unfold specsOf. rewrite shuffleRounds_length by done. lia.
Qed.

Lemma specRounds_length o : 0 <= Warmups o -> 0 < RepetitionBlocks o -> 0 <= Repetitions o ->
  Z.rem (Repetitions o) (RepetitionBlocks o) = 0 -> zlen (specRounds o) = Warmups o + Repetitions o.
Proof.
  intros Hw Hb Hr Hrem. unfold specRounds. rewrite length_app, length_map, length_seqZ.
  assert (forall l, length (concat (map (fun block =>
    map (fun i => (str "measured", (block - 1) * perBlock o + i, block, i)) (seqZ 1 (perBlock o))) l)) =
    (length l * Z.to_nat (perBlock o))%nat) as ->.
  { intros l. induction l as [|x l IH]; cbn [map concat]; [done|]. rewrite length_app, IH, length_map, length_seqZ. cbn. lia. }
  rewrite length_seqZ. pose proof (Z.quot_pos (Repetitions o) (RepetitionBlocks o) ltac:(lia) ltac:(lia)) as Hq.
  pose proof (Z.quot_rem' (Repetitions o) (RepetitionBlocks o)) as Hdiv. unfold perBlock. nia.
Qed.

Lemma grouped_sorted groups counts scenarios : grouped groups counts scenarios ->
  grouped groups (sortSlice Z.ltb counts) scenarios.
Proof.
  intros (Hnd & Hel & Hp). assert (sortSlice Z.ltb counts ≡ₚ counts) as Hs.
  { apply (sortSlice_Permutation Z.compare). done. }
  split_and!; [by rewrite Hs|intros n; by rewrite <- Hel, (elem_perm _ _ n Hs)|].
  rewrite <- Hp, <- !flat_map_concat_map. by apply Permutation_flat_map.
Qed.

(** C19. A campaign ends in every environment. The runs of its schedule that it
    keeps are the first ones of the plan, in the order of the plan, whatever
    happened to the clusters in between; and when it ends without an error
    they are all of it, as many as the suite had planned. *)
Theorem campaign_keeps_schedule below crsPath uni json_fields json_config json_network json_failure json_result generate
  {Rng} (NewSource : Z -> Rng) Shuffle env tempDir o scenarios :
  shuffles Shuffle -> generates generate -> tempDir <> Crash -> so_TxSize o < 2 ^ 63 ->
  Forall (fun s => sc_Nodes s <> 0) scenarios ->
  0 <= Warmups o -> 0 < RepetitionBlocks o -> 0 <= Repetitions o -> Z.rem (Repetitions o) (RepetitionBlocks o) = 0 ->
  let '(groups, counts) := groupScenarios scenarios in
  exists st err, runPersistentSuite below crsPath uni json_fields json_config json_network json_failure json_result generate
      NewSource Shuffle env tempDir o scenarios = Ret (st, err) /\
    exists kept missing, schedule o NewSource Shuffle groups (sortSlice Z.ltb counts) = kept ++ missing /\
      map planOf (retained (allRuns st)) = map planned kept /\
      (err = None -> missing = [] /\
        suiteCollectionComplete (zlen scenarios * (Warmups o + Repetitions o)) (allRuns st) = true).
Proof.
  intros Hsh Hgen Htemp Hsize Hnodes Hw Hb Hr Hrem. pose proof (groupScenarios_grouped scenarios) as Hg.
  unfold runPersistentSuite. destruct (groupScenarios scenarios) as [groups counts]. apply grouped_sorted in Hg.
  assert (forall err, exists kept missing, schedule o NewSource Shuffle groups (sortSlice Z.ltb counts) = kept ++ missing /\
    map planOf (retained (allRuns initialSuite)) = map planned kept /\
    (Some (str err) = None -> missing = [] /\
      suiteCollectionComplete (zlen scenarios * (Warmups o + Repetitions o)) (allRuns initialSuite) = true)) as Hnone
    by (intros err; by exists [], (schedule o NewSource Shuffle groups (sortSlice Z.ltb counts))).
  destruct (if bool_decide (ConfigBase o = []) then tempDir else Ok (ConfigBase o)) as [configBase|e|] eqn:Ec;
    [|by eexists _, _|by destruct (bool_decide (ConfigBase o = []))].
  destruct (buildCorpora_ends generate o scenarios ∅ Hgen Hsize Hnodes) as (corpora & -> & Hc). cbn [go_bind].
  destruct corpora as [corpora|e|]; [|by eexists _, _|done].
  destruct (runGroups_plan below crsPath uni json_fields json_config json_network json_failure json_result env configBase o
    corpora NewSource Shuffle groups (sortSlice Z.ltb counts) initialSuite) as (res & -> & kept & missing & Hs & Hplan & Hend);
    [lia|done|]. cbn [go_bind]. destruct res as [st|st e]; cbn [stateOf] in Hplan.
  - subst missing. eexists _, _. split; [reflexivity|]. exists kept, []. split_and!; [done|exact Hplan|]. intros _. split; [done|].
    rewrite suiteCollectionComplete_retained. apply Z.eqb_eq. rewrite <- (specRounds_length o) by done.
    pose proof (schedule_length o NewSource Shuffle groups _ scenarios Hsh Hg) as Hlen. rewrite Hs, app_nil_r in Hlen.
    assert (length (retained (allRuns st)) = length kept) as Hk
      by (rewrite <- (length_map planned kept), <- (length_map planOf); by rewrite Hplan).
    lia.
  - eexists _, _. split; [reflexivity|]. by exists kept, missing.
Qed.

(** A campaign that did not get to its loop has done nothing. *)
Lemma runPersistentSuite_loop below crsPath uni json_fields json_config json_network json_failure json_result generate
  {Rng} (NewSource : Z -> Rng) Shuffle env tempDir o scenarios st err :
  runPersistentSuite below crsPath uni json_fields json_config json_network json_failure json_result generate
    NewSource Shuffle env tempDir o scenarios = Ret (st, err) ->
  st = initialSuite \/ exists configBase corpora res,
    runGroups below crsPath uni json_fields json_config json_network json_failure json_result env configBase o corpora
      NewSource Shuffle (groupScenarios scenarios).1 (sortSlice Z.ltb (groupScenarios scenarios).2) initialSuite = Ret res /\
    st = stateOf res.
Proof.
  unfold runPersistentSuite. destruct (if bool_decide (ConfigBase o = []) then tempDir else Ok (ConfigBase o)) as [configBase|e|];
    [|intros [= <- <-]; by left|discriminate].
  destruct (groupScenarios scenarios) as [groups counts]. destruct (buildCorpora _ _ _ _) as [[corpora|e|]| |]; cbn [go_bind];
    [|intros [= <- <-]; by left|discriminate..].
  destruct (runGroups _ _ _ _ _ _ _ _ _ _ _ _ _ _ _ _ _) as [res| |] eqn:E; cbn [go_bind]; [|discriminate..].
  intros Hret. right. exists configBase, corpora, res. split; [exact E|]. by destruct res; injection Hret as <- <-.
Qed.

(** The runs of a campaign, recoveries included, take slots 1, 2, 3 and so
    on, in their order and over all clusters and restarts, and carry the
    campaign's stream mode. *)
Lemma campaign_slots_consecutive below crsPath uni json_fields json_config json_network json_failure json_result generate
  {Rng} (NewSource : Z -> Rng) Shuffle env tempDir o scenarios st err :
  runPersistentSuite below crsPath uni json_fields json_config json_network json_failure json_result generate
    NewSource Shuffle env tempDir o scenarios = Ret (st, err) ->
  forall i run, allRuns st !! i = Some run ->
    run_Slot run = u64 (Z.of_nat i + 1) /\ run_OrderIndex run = Z.of_nat i + 1 /\ run_StreamMode run = so_StreamMode o.
Proof.
  intros [->|(configBase & corpora & res & Hrun & ->)]%runPersistentSuite_loop; [by intros []|].
  by apply suiteLoop_numbered in Hrun as (_ & _ & Hruns).
Qed.

(** A campaign without an error has kept its whole schedule. *)
Lemma runPersistentSuite_planned below crsPath uni json_fields json_config json_network json_failure json_result generate
  {Rng} (NewSource : Z -> Rng) Shuffle env tempDir o scenarios st : RepetitionBlocks o <> 0 -> shuffles Shuffle ->
  runPersistentSuite below crsPath uni json_fields json_config json_network json_failure json_result generate
    NewSource Shuffle env tempDir o scenarios = Ret (st, None) ->
  map planOf (retained (allRuns st)) = map planned
    (schedule o NewSource Shuffle (groupScenarios scenarios).1 (sortSlice Z.ltb (groupScenarios scenarios).2)) /\
  Forall (fun run => run_StreamMode run = so_StreamMode o) (allRuns st).
Proof.
  intros Hb Hsh. unfold runPersistentSuite. destruct (if bool_decide (ConfigBase o = []) then tempDir else Ok (ConfigBase o))
    as [configBase|e|]; [|discriminate..].
  destruct (groupScenarios scenarios) as [groups counts]. destruct (buildCorpora _ _ _ _) as [[corpora|e|]| |]; cbn [go_bind];
    [|discriminate..].
  destruct (runGroups_plan below crsPath uni json_fields json_config json_network json_failure json_result env configBase o
    corpora NewSource Shuffle groups (sortSlice Z.ltb counts) initialSuite) as (res & Hrun & kept & missing & Hs & Hplan & Hend);
    [done..|]. rewrite Hrun. cbn [go_bind]. apply suiteLoop_numbered in Hrun as (_ & _ & Hruns).
  destruct res as [st'|st' e]; [|discriminate]. intros [= <-]. subst missing. rewrite app_nil_r in Hs. cbn [fst snd]. rewrite Hs.
  split; [exact Hplan|]. apply Forall_forall. intros run Hin. apply list_elem_of_lookup in Hin as [i Hi]. by apply Hruns in Hi as (_ & _ & ?).
Qed.

(** ** The outcome of a run

    A run is called completed only when every node returned a finished result
    of its slot and the results agree; the deadline is met when the slowest of
    them is in time. *)

(** ** Reading results *)

Section Polling.
Context (json_failure : bytes -> out slotFailureResponse) (json_result : bytes -> out evalResult).

(** A result that counts for a slot. *)
Definition finished (slotID : Z) (r : evalResult) : Prop :=
  res_Slot (er_Result r) = slotID /\ MetricsFinalized (er_Metrics r) = true.

Lemma pollNodes_finished slotID id replies results missing results' missing' :
  Forall (finished slotID) results ->
  pollNodes json_failure json_result slotID id replies results missing = (results', missing', None) ->
  Forall (finished slotID) results'.
Proof.
  revert id results missing. induction replies as [|[|status body] replies IH]; intros id results missing HF; cbn [pollNodes].
  - by intros [= <- _].
  - by apply IH.
  - destruct (status =? 422); [discriminate|]. destruct (negb (status =? 200)); [by apply IH|].
    destruct (json_result body) as [r|e|]; [|discriminate..].
    destruct (negb (res_Slot (er_Result r) =? slotID) || negb (MetricsFinalized (er_Metrics r))) eqn:E; [by apply IH|].
    apply orb_false_iff in E as [Hs%negb_false_iff Hf%negb_false_iff]. apply IH, Forall_app. split; [done|].
    repeat constructor; [lia|done].
Qed.

Lemma idLess_cmp r r' : (NodeID (er_Result r) <? NodeID (er_Result r')) = ltOf (cmpOn (fun r => NodeID (er_Result r)) Z.compare) r r'.
Proof. done. Qed.

Lemma pollResults_finished nodes slotID round rounds results :
  pollResultsForSlot json_failure json_result nodes slotID round rounds = (results, None) ->
  zlen results = nodes /\ Forall (finished slotID) results.
Proof.
  revert round. induction rounds as [|next rounds IH]; intros round; cbn [pollResultsForSlot];
    unfold pollResultsOnce; destruct (pollNodes _ _ _ _ _ _ _) as [[rs missing] [e|]] eqn:E; try discriminate;
    destruct (Z.eqb_spec (zlen (sortResults rs)) nodes) as [Hlen|]; try discriminate; try apply IH;
    intros [= <-]; (split; [done|]); unfold sortResults;
    rewrite (sortSlice_Permutation _ _ idLess_cmp); by apply pollNodes_finished in E.
Qed.
End Polling.

(** ** The slowest node *)

Definition totalOf (r : evalResult) : Z := TotalSlotUS (er_Metrics r).
Definition idOf (r : evalResult) : Z := NodeID (er_Result r).

Lemma criticalStep_fold results best :
  let '(id, max) := fold_left criticalStep results best in
  best.2 <= max /\ (forall r, r ∈ results -> totalOf r <= max) /\
  ((id, max) = best \/ exists r, r ∈ results /\ idOf r = id /\ totalOf r = max).
Proof.
  revert best. induction results as [|r results IH]; intros [id0 max0]; cbn [fold_left].
  { split; [done|]. split; [by intros r ?%elem_of_nil|by left]. }
  specialize (IH (criticalStep (id0, max0) r)). destruct (fold_left criticalStep results _) as [id max].
  destruct IH as (Hle & Hall & Hid). unfold criticalStep in Hle, Hid. fold (totalOf r) (idOf r) in Hle, Hid.
  set (better := (max0 <? totalOf r) || ((totalOf r =? max0) && (idOf r <? id0))) in *.
  assert (Z.max max0 (totalOf r) <= max) as Hmax by (unfold better in Hle; destruct (Z.ltb_spec max0 (totalOf r));
    destruct (Z.eqb_spec (totalOf r) max0); destruct (idOf r <? id0); cbn [orb andb snd] in Hle; lia).
  cbn [snd]. split; [lia|]. split.
  - intros r' [->|Hin]%elem_of_cons; [lia|by apply Hall].
  - destruct Hid as [Hid|(r' & Hin & Hr')]; [|right; exists r'; split; [by right|done]].
    destruct better; [|by left]. right. exists r. injection Hid as -> ->. split; [by left|done].
Qed.

(** With distinct identifiers, a positive critical time bounds every node's. *)
Lemma criticalTotal_max run : NoDup (map idOf (run_Results run)) -> run_CriticalNodeID run = criticalNodeID (run_Results run) ->
  0 < criticalTotalUS run -> forall r, r ∈ run_Results run -> totalOf r <= criticalTotalUS run.
Proof.
  intros Hnd Hid. unfold criticalTotalUS, criticalResult. rewrite Hid. unfold criticalNodeID.
  pose proof (criticalStep_fold (run_Results run) (0, -1)) as Hfold.
  destruct (fold_left criticalStep _ _) as [id max]. cbn [fst]. destruct Hfold as (_ & Hall & Hcrit).
  destruct (List.find _ _) as [rc|] eqn:E; [|lia]. intros Hpos r Hin. apply find_some in E as [Hrc Hi%Z.eqb_eq].
  rewrite <- list_elem_of_In in Hrc. pose proof (Hall rc Hrc) as Hmax. unfold totalOf in Hmax at 1.
  destruct Hcrit as [[= -> ->]|(r' & Hr' & Hi' & Ht')]; [lia|].
  assert (r' = rc) as -> by (apply (NoDup_map_inj idOf (run_Results run)); [done..|]; unfold idOf in *; congruence).
  fold (totalOf rc). rewrite Ht'. by apply Hall.
Qed.

(** ** Agreement of the results *)

Definition outcomeOf (r : evalResult) : bytes * bytes * bytes * Z * bytes * bytes :=
  let res := er_Result r in
  (BatchID res, Join (Plaintexts res) [10], MergedSetHash (Materialized res), mat_SelectedGas (Materialized res),
   Join (PlaintextHashes (Materialized res)) [10], Join (EthereumTxHashes (Materialized res)) [10]).

Lemma sameOutcome_spec first r : sameOutcome (er_Result first) (er_Result r) = true -> outcomeOf r = outcomeOf first.
Proof.
  unfold sameOutcome, outcomeOf. intros H. repeat (apply andb_true_iff in H as [H ?]).
  repeat match goal with H : bool_decide _ = true |- _ => apply bool_decide_eq_true in H end.
  match goal with H : (_ =? _) = true |- _ => apply Z.eqb_eq in H end. congruence.
Qed.

Lemma resultsConsistent_spec results : resultsConsistent results = true ->
  forall r r', r ∈ results -> r' ∈ results -> outcomeOf r = outcomeOf r'.
Proof.
  destruct results as [|first rest]; [done|]. cbn. rewrite forallb_forall. intros Hall.
  assert (forall r, r ∈ first :: rest -> outcomeOf r = outcomeOf first) as Hf.
  { intros r [->|Hin%list_elem_of_In]%elem_of_cons; [done|]. by apply sameOutcome_spec, Hall. }
  intros r r' Hr Hr'. by rewrite (Hf r Hr), (Hf r' Hr').
Qed.

Lemma receivedTxCount_spec results count : receivedTxCount results = count -> 0 < count ->
  forall r, r ∈ results -> SelectedCiphertexts (er_Metrics r) = count.
Proof.
  destruct results as [|first rest]; cbn; [intros _ _ r ?%elem_of_nil; done|].
  destruct (forallb _ rest) eqn:E; [|lia]. intros <- _ r [->|Hin%list_elem_of_In]%elem_of_cons; [done|].
  rewrite forallb_forall in E. by apply E, Z.eqb_eq in Hin.
Qed.

(** ** Completed runs *)

Lemma classified_completed uni deadline run err : let run' := classifyRunOutcome uni err deadline run in
  run_Outcome run' = str "completed" -> run_Success run = true /\ run_Consistent run = true /\
    run_DeadlineMet run' = (0 <? criticalTotalUS run) && (criticalTotalUS run <=? Z.quot deadline 1000).
Proof.
  unfold classifyRunOutcome. destruct (run_Success run), (run_Consistent run); cbn [andb]; [done|..];
    cbv zeta; destruct (_ || _); cbn; discriminate.
Qed.

