(* ===== verification/EvalSuiteProtocol.v ===== *)
(** * The life of a campaign's clusters

    The events of a node count - starts, slots and stops - follow an automaton:
    one cluster at a time, and after a slot that broke its cluster the next one
    is used for the schedule only when it has run every scenario once. *)

From S2P Require Import Prelude Order GoStrings Trace NodeState Node Config Deploy EvalData Artifact EvalSuite EvalSuiteLaws.

(** ** The automaton *)

Inductive mode :=
  | Down (broken : bool)                    (* no cluster; [broken] if the last one had to go *)
  | Recovering (rest : list evalScenario)   (* a new cluster that has these scenarios to run *)
  | Up                                      (* a cluster that runs the schedule *)
  | Broken                                  (* a cluster that has to go *)
  | Finished.                               (* no cluster, and none follows *)

Definition recoverMode (rest : list evalScenario) : mode :=
  match rest with
  | [] => Up
  | _ => Recovering rest
  end.

Section Automaton.
Context (uni : bytes -> bytes) (group : list evalScenario).

Definition advance (m : mode) (e : lifecycle) : option mode :=
  match m, e with
  | Down broken, Opened _ _ => Some (if broken then recoverMode group else Up)
  | Recovering (s :: rest), SlotRun run _ =>
      if bool_decide (run_Phase run = str "recovery") && bool_decide (run_ScenarioID run = sc_ID s) then
        Some (if run_Success run && run_Consistent run then recoverMode rest else Broken)
      else None
  | Up, SlotRun run err =>
      if bool_decide (scheduledPhase (run_Phase run)) then
        Some (if shouldRecoverPersistentCluster uni run err then Broken else Up)
      else None
  | Broken, Closed => Some (Down true)
  | Recovering _, Closed | Up, Closed => Some Finished
  | _, _ => None
  end.

Fixpoint follow (m : mode) (log : list lifecycle) : option mode :=
  match log with
  | [] => Some m
  | e :: log => m' ← advance m e; follow m' log
  end.

Lemma follow_snoc m log e : follow m (log ++ [e]) = (m' ← follow m log; advance m' e).
Proof.
  revert m. induction log as [|e' log IH]; intros m; cbn; [by destruct (advance m e)|].
  destruct (advance m e'); cbn; [apply IH|done].
Qed.

Definition stopped (m : mode) : Prop :=
  match m with
  | Down _ | Finished => True
  | _ => False
  end.

(** A complete log: no cluster is left running. *)
Definition protocol (log : list lifecycle) : Prop := exists m, follow (Down false) log = Some m /\ stopped m.

(** ** The states of the loop

    [before] is the log of the node counts that are done. *)
Section States.
Context (before : list lifecycle).

Definition inMode (m : mode) (st : suiteState) : Prop :=
  exists log, ss_log st = before ++ log /\ follow (Down false) log = Some m.

Lemma inMode_step m m' e st st' : inMode m st -> ss_log st' = ss_log st ++ [e] -> advance m e = Some m' -> inMode m' st'.
Proof.
  intros (log & Hlog & Hf) Hst Ha. exists (log ++ [e]). rewrite Hst, Hlog, app_assoc. split; [done|].
  by rewrite follow_snoc, Hf.
Qed.

Lemma inMode_close m m' st : inMode m st -> is_Some (ss_cluster st) -> advance m Closed = Some m' -> inMode m' (closeCluster st).
Proof. intros Hm [c Hc] Ha. eapply inMode_step; [exact Hm| |exact Ha]. cbn. by rewrite Hc. Qed.

(** At the head of the loops the mode says whether there is a cluster. *)
Definition atHead (st : suiteState) : Prop :=
  inMode (match ss_cluster st with Some _ => Up | None => Down (needsRecovery st) end) st.

Definition halted (st : suiteState) : Prop := exists m, inMode m st /\ stopped m.

Lemma halted_close m st : inMode m st -> is_Some (ss_cluster st) -> m = Up \/ m = Broken \/ (exists rest, m = Recovering rest) ->
  halted (closeCluster st).
Proof.
  intros Hm Hc Hcases.
  assert (exists m', advance m Closed = Some m' /\ stopped m') as (m' & Ha & Hs).
  { destruct Hcases as [->|[->|[[|s rest] ->]]]; by eexists. }
  exists m'. split; [by eapply inMode_close|done].
Qed.

Lemma atHead_halted st : atHead st -> halted (closeCluster st).
Proof.
  unfold atHead. destruct (ss_cluster st) as [c|] eqn:Ec.
  - intros Hm. apply (halted_close Up); [done|by rewrite Ec|by left].
  - intros (log & Hlog & Hf). exists (Down (needsRecovery st)). split; [|done]. exists log. cbn. by rewrite Ec.
Qed.
End States.
End Automaton.

(** ** The loops follow it *)

Section Campaign.
Context (below : bytes -> bytes -> bytes) (crsPath : bytes -> bytes -> bytes) (uni : bytes -> bytes).
Context (json_fields : bytes -> out (list bytes)) (json_config : bytes -> out (ConfigFile * wireLimits)).
Context (json_network : bytes -> out NetworkConfig).
Context (json_failure : bytes -> out slotFailureResponse) (json_result : bytes -> out evalResult).
Context (env : campaignEnv) (configBase : bytes) (o : suiteOptions) (corpora : gmap bytes (list evalSubmission)).
Context {Rng : Type} (NewSource : Z -> Rng) (Shuffle : Rng -> list evalScenario -> list evalScenario * Rng).

Abbreviation slotRun := (slotOf uni json_failure json_result env o corpora).
Abbreviation recovering := (recoverGroup uni json_failure json_result env o corpora).
Abbreviation ensure := (ensureCluster below crsPath uni json_fields json_config json_network json_failure json_result env
  configBase o corpora).
Abbreviation specStep := (runSpec uni json_failure json_result env o corpora).
Abbreviation specLoop := (runSpecs below crsPath uni json_fields json_config json_network json_failure json_result env
  configBase o corpora).
Abbreviation groupLoop := (runGroup below crsPath uni json_fields json_config json_network json_failure json_result env
  configBase o corpora NewSource Shuffle).
Abbreviation suiteLoop := (runGroups below crsPath uni json_fields json_config json_network json_failure json_result env
  configBase o corpora NewSource Shuffle).

Lemma recover_mode rest : recoverMode rest = Up \/ recoverMode rest = Broken \/ (exists r, recoverMode rest = Recovering r).
Proof. destruct rest as [|s rest]; [by left|]. right. right. by eexists. Qed.

Lemma slotOf_scenario cluster runID phase iteration scenario block blockIteration st run err :
  slotRun cluster runID phase iteration scenario block blockIteration st = (run, err) -> run_ScenarioID run = sc_ID scenario.
Proof. intros [_ Hp]%slotOf_fields. unfold planOf in Hp. by injection Hp. Qed.

Lemma recoverGroup_follows group before cluster rest index st : inMode uni group before (recoverMode rest) st ->
  is_Some (ss_cluster st) ->
  match recovering cluster rest index st with
  | Recovered st' => inMode uni group before Up st' /\ is_Some (ss_cluster st')
  | Unrecovered st' => inMode uni group before Broken st' /\ is_Some (ss_cluster st') /\ needsRecovery st' = needsRecovery st
  | RecordFailed st' _ => halted uni group before st'
  end.
Proof.
  revert index st. induction rest as [|s rest IH]; intros index st Hm Hc; cbn [recoverGroup]; [done|].
  destruct (slotRun _ _ _ _ _ _ _ _) as [run err] eqn:E.
  pose proof (slotOf_phase _ _ _ _ _ _ _ _ _ _ _ _ _ _ _ _ E) as Hph. apply slotOf_scenario in E as Hid.
  assert (inMode uni group before (if run_Success run && run_Consistent run then recoverMode rest else Broken)
    (appendRun run err st)) as Hm'.
  { eapply inMode_step; [exact Hm|done|]. cbn [recoverMode advance]. by rewrite !bool_decide_true. }
  destruct (ce_record env run).
  { apply (halted_close _ _ _ _ _ Hm' Hc). destruct (run_Success run && run_Consistent run); [apply recover_mode|auto]. }
  rewrite <- negb_andb. destruct (run_Success run && run_Consistent run); cbn [negb]; [|done].
  by apply (IH (index + 1) (appendRun run err st)).
Qed.

Lemma ensureCluster_follows before fuel nodes first group st res : atHead uni group before st ->
  ensure fuel nodes first group st = Ret res ->
  match res with
  | Continue st' => is_Some (ss_cluster st') -> atHead uni group before st'
  | Return st' _ => halted uni group before st'
  end.
Proof.
  revert st. induction fuel as [|fuel IH]; intros st Hst; cbn [ensureCluster]; [discriminate|].
  destruct (ss_cluster st) eqn:Ec; [by intros [= <-]|].
  destruct (startPersistentCluster _ _ _ _ _ _ _ _ _ _ _ _) as [started m]. unfold atHead in Hst. rewrite Ec in Hst.
  destruct started as [c|e|].
  - assert (inMode uni group before (if needsRecovery st then recoverMode group else Up) (afterStart nodes (Ok c) m st)) as Hm
      by (eapply inMode_step; [exact Hst|done|done]).
    cbn [afterStart needsRecovery] in *. destruct (needsRecovery st) eqn:En; [|by intros [= <-]].
    pose proof (recoverGroup_follows group before c group 0 _ Hm ltac:(by eexists)) as Hr.
    destruct (recovering _ _ _ _) as [st'|st'|st' e].
    + intros [= <-] _. destruct Hr as [Hr [c' Hc']]. unfold atHead. cbn. by rewrite Hc'.
    + destruct Hr as (Hb & Hc & Hn).
      assert (atHead uni group before (set_failures (consecutiveFailures (closeCluster st') + 1) (closeCluster st'))) as Hh.
      { unfold atHead. cbn. rewrite Hn. cbn. by apply (inMode_close uni group before Broken). }
      destruct (_ <=? _); [|by apply IH]. intros [= <-]. by exists (Down (needsRecovery st')).
    + by intros [= <-].
  - assert (atHead uni group before (afterStart nodes (Err e) m st)) as Hh by exact Hst.
    destruct (_ <=? _); [|by apply IH]. intros [= <-]. by exists (Down (needsRecovery st)).
  - assert (atHead uni group before (afterStart nodes Crash m st)) as Hh by exact Hst.
    destruct (_ <=? _); [|by apply IH]. intros [= <-]. by exists (Down (needsRecovery st)).
Qed.

Lemma runSpec_follows group before nodes spec cluster st : scheduledPhase (spec_phase spec) ->
  inMode uni group before Up st -> is_Some (ss_cluster st) ->
  match specStep nodes spec cluster st with
  | Continue st' => atHead uni group before st'
  | Return st' _ => halted uni group before st'
  end.
Proof.
  intros Hph Hm Hc. unfold runSpec. destruct (slotRun _ _ _ _ _ _ _ _) as [run err] eqn:E. apply slotOf_phase in E. cbv zeta.
  assert (inMode uni group before (if shouldRecoverPersistentCluster uni run err then Broken else Up) (appendRun run err st)) as Hm'.
  { eapply inMode_step; [exact Hm|done|]. cbn [advance]. rewrite bool_decide_true; [done|by rewrite E]. }
  destruct (ce_record env run).
  { apply (halted_close _ _ _ _ _ Hm' Hc). destruct (shouldRecoverPersistentCluster uni run err); auto. }
  destruct (shouldRecoverPersistentCluster uni run err).
  - assert (inMode uni group before (Down true) (closeCluster (appendRun run err st))) as Hd
      by (by apply (inMode_close uni group before Broken)).
    destruct (_ <=? _); [by exists (Down true)|exact Hd].
  - destruct Hc as [c Hc]. unfold atHead. cbn. by rewrite Hc.
Qed.

Lemma runSpecs_follows before nodes first group specs st res :
  Forall (fun spec => scheduledPhase (spec_phase spec)) specs -> atHead uni group before st ->
  specLoop nodes first group specs st = Ret res ->
  match res with
  | Continue st' => atHead uni group before st'
  | Return st' _ => halted uni group before st'
  end.
Proof.
  intros HF. revert st. induction HF as [|spec specs Hph _ IH]; intros st Hst; cbn [runSpecs]; [by intros [= <-]|].
  destruct (ensure _ _ _ _ _) as [[st'|st' e]| |] eqn:E; cbn [go_bind]; [| |discriminate..];
    apply ensureCluster_follows with (before := before) in E; [|done| |done]; [|by intros [= <-]].
  destruct (ss_cluster st') as [c|] eqn:Ec; [|discriminate].
  assert (inMode uni group before Up st') as Hm by (specialize (E ltac:(by eexists)); unfold atHead in E; by rewrite Ec in E).
  pose proof (runSpec_follows group before nodes spec c st' Hph Hm ltac:(by rewrite Ec)) as Hs.
  destruct (specStep _ _ _ _); [by apply IH|by intros [= <-]].
Qed.

Lemma runGroup_follows nodes group st res : groupLoop nodes group st = Ret res ->
  exists log, ss_log (stateOf res) = ss_log st ++ log /\ protocol uni group log.
Proof.
  assert (forall st', halted uni group (ss_log st) st' ->
    exists log, ss_log st' = ss_log st ++ log /\ protocol uni group log) as Hend.
  { intros st' (m & (log & Hlog & Hf) & Hs). exists log. split; [done|]. by exists m. }
  assert (atHead uni group (ss_log st) (freshGroup st)) as Hh by (exists []; by rewrite app_nil_r).
  unfold runGroup, persistentSpecs. destruct (_ =? _); cbn [go_bind]; [discriminate|].
  destruct group as [|first group]; [intros [= <-]; apply Hend; by exists (Down false)|].
  destruct (specLoop _ _ _ _ _) as [[st'|st' e]| |] eqn:E; cbn [go_bind]; [| |discriminate..]; intros [= <-];
    apply (runSpecs_follows (ss_log st)) in E; try done; try apply shuffleRounds_phase, specRounds_phase;
    apply Hend; [by apply atHead_halted|exact E].
Qed.

Lemma suiteLoop_follows groups counts res : suiteLoop groups counts initialSuite = Ret res ->
  exists logs, ss_log (stateOf res) = concat logs /\
    Forall2 (fun nodes log => protocol uni (default [] (groups !! nodes)) log) (take (length logs) counts) logs.
Proof.
  assert (forall st, suiteLoop groups counts st = Ret res -> exists logs, ss_log (stateOf res) = ss_log st ++ concat logs /\
    Forall2 (fun nodes log => protocol uni (default [] (groups !! nodes)) log) (take (length logs) counts) logs) as Hgen;
    [|apply (Hgen initialSuite)].
  induction counts as [|nodes counts IH]; intros st; cbn [runGroups].
  { intros [= <-]. exists []. by rewrite app_nil_r. }
  destruct (groupLoop _ _ _) as [[st'|st' e]| |] eqn:E; cbn [go_bind]; [| |discriminate..];
    apply runGroup_follows in E as (log & Hlog & Hp); cbn [stateOf] in Hlog.
  - intros (logs & -> & HF)%IH. exists (log :: logs). cbn. rewrite Hlog, <- app_assoc. split; [done|]. by constructor.
  - intros [= <-]. exists [log]. cbn. rewrite app_nil_r, take_0. split; [done|]. by repeat constructor.
Qed.
End Campaign.

(** C18. At any time a campaign has at most one cluster running, and none is
    left running when it ends, whatever fails. A slot of the schedule runs only
    on a first cluster of its node count, or on one that replaced a broken
    cluster and has completed one slot of every scenario of the group. *)
Theorem campaign_protocol below crsPath uni json_fields json_config json_network json_failure json_result generate
  {Rng} (NewSource : Z -> Rng) Shuffle env tempDir o scenarios st err :
  runPersistentSuite below crsPath uni json_fields json_config json_network json_failure json_result generate
    NewSource Shuffle env tempDir o scenarios = Ret (st, err) ->
  let '(groups, counts) := groupScenarios scenarios in
  exists logs, ss_log st = concat logs /\
    Forall2 (fun nodes log => protocol uni (default [] (groups !! nodes)) log)
      (take (length logs) (sortSlice Z.ltb counts)) logs.
Proof.
  intros [->|(configBase & corpora & res & Hrun & ->)]%runPersistentSuite_loop; destruct (groupScenarios scenarios) as [groups counts].
  - exists []. by split.
  - by apply suiteLoop_follows in Hrun.
Qed.
