(* ===== verification/EvalDrivers.v ===== *)
(** * EvalDrivers: the evaluators

    Models the commands that run evaluations on a machine ([eval.go],
    [eval_suite.go]) and against a deployment ([eval_remote.go]) of
    [src/bloc-node/internal/app], around the loops of [EvalSuite]: their
    checks, their schedules, and what they conclude of the runs they kept.

    Flags come parsed. [localEnv] is what the system and the nodes answer in
    one isolated run; files that are only written are calls that succeed or
    fail, and tables and summaries are one such call. *)

From S2P Require Import Prelude Order GoStrings Trace NodeState Node Config Deploy EvalData Artifact EvalSuite.

(** A call that may fail, before the rest. *)
Definition try_bind {A B : Type} (m : go (out A)) (k : A -> go (out B)) : go (out B) :=
  let! r := m in
  match r with
  | Ok a => k a
  | Err e => Ret (Err e)
  | Crash => Panic
  end.

Notation "'let#' x ':=' m 'in' k" := (try_bind m (fun x => k))
  (at level 10, x pattern, m at level 100, k at level 200) : go_scope.

(** ** An isolated run *)

Record localEnv := mkLocalEnv {
  le_mkRunDir : out unit;
  le_tempDir : out bytes;
  le_genConfig : list bytes -> out unit;
  le_createLog : Z -> out unit;
  le_startProcess : list bytes -> out unit;
  le_firstHealth : list httpReply;
  le_laterHealth : list (list httpReply);
  le_submit : Z -> SubmitTxRequest -> out unit;
  le_start : Z -> option bytes;
  le_firstPoll : list httpReply;
  le_laterPolls : list (list httpReply)
}.

Record localOptions := mkLocalOptions {
  lo_Nodes : Z;
  lo_Threshold : Z;
  lo_BMax : Z;
  lo_BatchSize : Z;
  lo_TxSize : Z;
  lo_TxGas : Z;
  lo_FeeStart : Z;
  lo_FeeStep : Z;
  lo_MaxDecryptedGas : Z;
  lo_MaxDecryptedTxs : Z;
  lo_BasePort : Z;
  lo_FaultRaw : bytes;
  lo_ACSTrace : bool;
  lo_StreamMode : bytes
}.

Section Local.
Context (below : bytes -> bytes -> bytes).
Context (json_failure : bytes -> out slotFailureResponse) (json_result : bytes -> out evalResult).
Context (generate : Z -> Z -> Z -> bytes -> Z -> Z -> go (out (bytes * Summary))).

(** One round over the nodes, which ends at the first one without a finished
    result. *)
Fixpoint pollPrefix (id : Z) (replies : list httpReply) (results : list evalResult) : list evalResult * option bytes :=
  match replies with
  | [] | NoReply :: _ => (results, None)
  | Reply status body :: replies =>
      if status =? 422 then
        match json_failure body with
        | Ok failure =>
            if negb (bool_decide (fr_Status failure = str "failed")) then
              (results, Some (str "node " ++ decimal id ++ str " returned invalid terminal failure"))
            else (results, Some (str "node " ++ decimal id ++ str " reported terminal failure for slot " ++
                    decimal (fr_Slot failure) ++ str ": " ++ fr_Reason failure))
        | Err err => (results, Some (str err))
        | Crash => (results, Some [])
        end
      else if negb (status =? 200) then (results, None)
      else
        match json_result body with
        | Ok result =>
            if negb (MetricsFinalized (er_Metrics result)) then (results, None)
            else pollPrefix (id + 1) replies (results ++ [result])
        | Err err => (results, Some (str err))
        | Crash => (results, Some [])
        end
  end.

Fixpoint pollResults (nodes : Z) (round : list httpReply) (rounds : list (list httpReply)) : list evalResult * option bytes :=
  match pollPrefix 0 round [] with
  | (results, Some err) => (results, Some err)
  | (results, None) =>
      if zlen results =? nodes then (results, None)
      else
        match rounds with
        | [] => (results, Some (str "timed out waiting for " ++ decimal nodes ++ str " node results; got " ++
                   decimal (zlen results)))
        | round :: rounds => pollResults nodes round rounds
        end
  end.

(** Every node is asked to start; all errors are reported. *)
Definition startNodes (reply : Z -> option bytes) (nodes : Z) : option bytes :=
  let failures := omap (fun id => err ← reply id; Some (str "node " ++ decimal id ++ str ": " ++ err)) (seqZ 0 nodes) in
  match failures with
  | [] => None
  | _ => Some (str "start nodes: " ++ Join (sortSlice bytesLt failures) (str "; "))
  end.

Definition localGenArgs (o : localOptions) (threshold : Z) (configPath : bytes) : list bytes :=
  [str "gen-config"; str "--nodes"; decimal (lo_Nodes o); str "--threshold"; decimal threshold;
   str "--bmax"; decimal (lo_BMax o); str "--base-http-port"; decimal (i64 (lo_BasePort o + 1000));
   str "--base-p2p-port"; decimal (i64 (lo_BasePort o + 2000));
   str "--max-decrypted-gas"; decimal (lo_MaxDecryptedGas o); str "--max-decrypted-txs"; decimal (lo_MaxDecryptedTxs o);
   str "--default-tx-gas"; decimal (lo_TxGas o); str "--stream-mode"; lo_StreamMode o; str "--out"; configPath] ++
  (if lo_ACSTrace o then [str "--acs-trace"] else []).

Definition localNodeArgs (configRoot configPath runDir : bytes) (faults : gmap Z bytes) (id : Z) : list bytes :=
  [str "run"; str "--config"; configPath; str "--secrets";
   below configRoot (str "secrets/operator-" ++ decimal id ++ str ".json"); str "--id"; decimal id;
   str "--out"; below runDir (str "node-" ++ decimal id ++ str "-result.json")] ++
  match faults !! u64 id with
  | Some fault => [str "--fault"; fault]
  | None => []
  end.

(** Generates and submits the transactions one by one. *)
Fixpoint submitGenerated (submit : Z -> SubmitTxRequest -> out unit) (o : localOptions) (indexes : list Z) : go (out unit) :=
  match indexes with
  | [] => Ret (Ok tt)
  | i :: indexes =>
      if lo_Nodes o =? 0 then Panic
      else
        let node := Z.rem i (lo_Nodes o) in
        let# (rawTx, summary) := generate i (lo_TxSize o) (lo_TxGas o) (decimal (u64 (lo_FeeStart o + u64 (i * lo_FeeStep o))))
          node (Z.quot i (lo_Nodes o)) in
        let# _ := Ret (submit node (mkSubmit (str "0x" ++ hexEncode rawTx) (sum_Gas summary)
          (sum_EffectiveFeePerGasWei summary) (sum_From summary) (sum_Nonce summary) (str "placeholder"))) in
        submitGenerated submit o indexes
  end.

Definition localThreshold (o : localOptions) : Z :=
  if lo_Threshold o =? 0 then 2 * Z.quot (lo_Nodes o - 1) 3 + 1 else lo_Threshold o.

(** What comes before the slot: configuration, processes, transactions. *)
Definition prepareLocal (env : localEnv) (runDir : bytes) (o : localOptions) : go (out unit) :=
  let# _ := Ret (le_mkRunDir env) in
  let# faults := Ret (parseEvalFault (lo_FaultRaw o)) in
  let# configRoot := Ret (le_tempDir env) in
  let configPath := below configRoot (str "cluster.json") in
  let# _ := Ret (le_genConfig env (localGenArgs o (localThreshold o) configPath)) in
  let# _ := Ret (each (fun id =>
    let? _ := le_createLog env id in le_startProcess env (localNodeArgs configRoot configPath runDir faults id))
    (seqZ 0 (lo_Nodes o))) in
  let# _ := Ret (waitForHTTP (le_firstHealth env) (le_laterHealth env)) in
  submitGenerated (le_submit env) o (seqZ 0 (lo_BatchSize o)).

Definition runLocalExperiment (env : localEnv) (runDir runID : bytes) (o : localOptions) : go (EvalRun * option bytes) :=
  let run threshold := newRun runID (mkScenario [] (lo_Nodes o) threshold (lo_BatchSize o) (str "libp2p")) [] 0 0 0 0
    (lo_BMax o) (lo_TxSize o) (lo_TxGas o) [] (lo_StreamMode o) None in
  let! prepared := prepareLocal env runDir o in
  match prepared with
  | Crash => Panic
  | Err err =>
      Ret (run (match le_mkRunDir env with Ok _ => localThreshold o | _ => lo_Threshold o end), Some (str err))
  | Ok _ =>
      match startNodes (le_start env) (lo_Nodes o) with
      | Some err => Ret (run (localThreshold o), Some err)
      | None =>
          let '(results, err) := pollResults (lo_Nodes o) (le_firstPoll env) (le_laterPolls env) in
          Ret (withResults results (match err with None => resultsConsistent results | Some _ => false end)
                 (run (localThreshold o)), err)
      end
  end.
End Local.

(** ** The suite *)

Record suiteManifest := mkManifest {
  mf_ACSTraceSchema : string;
  mf_StreamMode : bytes;
  mf_Status : bytes;
  mf_Valid : bool;
  mf_InvalidReason : bytes;
  mf_PlannedRuns : Z;
  mf_PlannedScenarioRuns : gmap bytes Z;
  mf_CorpusByScenario : gmap bytes runCorpusIdentity;
  mf_Scenarios : list evalScenario;
  mf_RunOrder : list bytes;
  mf_ClusterStartups : Z;
  mf_RecoveryRuns : Z
}.

(** What [os.ReadDir] says of a directory. *)
Inductive dirReply :=
  | NoDir
  | DirEntries (n : Z)
  | DirFailed (err : string).

Definition prepareSuiteOutputDir (dir : dirReply) (mkdir : out unit) : out unit :=
  match dir with
  | NoDir => mkdir
  | DirEntries n => if 0 <? n then Err "output directory is not empty" else mkdir
  | DirFailed err => Err err
  end.

Record suiteEnv := mkSuiteEnv {
  sv_campaign : campaignEnv;
  sv_tempDir : out bytes;
  sv_local : Z -> localEnv;
  sv_outDir : dirReply;
  sv_mkOutDir : out unit;
  sv_writeManifest : suiteManifest -> out unit;
  sv_createRuns : out unit;
  sv_closeRuns : out unit;
  sv_writeMeasurements : list clusterMeasurement -> out unit;
  sv_writeTables : list EvalRun -> out unit;
  sv_storeTrace : list acsTraceArtifactRecord -> out unit;
  sv_readTrace : bytes -> out bytes
}.

Definition set_ExperimentID (id : bytes) (o : suiteOptions) : suiteOptions :=
  mkSuiteOptions (NodeCountsRaw o) (BatchSizesRaw o) (so_BMax o) (so_TxSize o) (so_TxGas o) (so_TxSource o)
    (so_MempoolURL o) (ConfigBase o) (CorpusManifests o) (CorpusByNodes o) (FinalCampaign o) (FeeStart o) (FeeStep o)
    (Warmups o) (Repetitions o) (RepetitionBlocks o) (Seed o) (BasePort o) (Deadline o) id (ExecutionMode o)
    (so_StreamMode o) (MaxRestarts o) (so_ACSTrace o).

(** The checks on the parsed flags. *)
Definition checkParsedSuite (o : suiteOptions) : out unit :=
  if negb (bool_decide (ExecutionMode o = str "isolated")) && negb (bool_decide (ExecutionMode o = str "persistent")) then
    Err "execution-mode must be isolated or persistent"
  else
    let? _ := validateNetworkConfig (mkNetwork (str "libp2p") (so_StreamMode o)) in
    if MaxRestarts o <? 1 then Err "max-restarts must be >= 1" else Ok tt.

Definition checkSuiteOptions (o : suiteOptions) : out unit :=
  let? _ := checkParsedSuite o in
  if (Warmups o <? 0) || (Repetitions o <? 1) then Err "warmups must be >= 0 and repetitions must be >= 1"
  else if (RepetitionBlocks o <? 1) || negb (Z.rem (Repetitions o) (RepetitionBlocks o) =? 0) then
    Err "repetitions must be divisible by repetition-blocks >= 1"
  else if Deadline o <=? 0 then Err "deadline must be positive"
  else if (so_BMax o <? 1) || (so_TxSize o <? 1) then Err "bmax and tx-size must be positive"
  else
    let? _ := validateTxSource (so_TxSource o) (so_MempoolURL o) in
    if FinalCampaign o then validateFinalCampaignTxSource (so_TxSource o) (so_MempoolURL o) else Ok tt.

(** The loop that reads one corpus for every node count. *)
Fixpoint loadCorpora (readCorpus : bytes -> out corpusProvenance) (paths : gmap Z bytes) (scenarios : list evalScenario)
  (corpora : gmap Z corpusProvenance) : out (gmap Z corpusProvenance) :=
  match scenarios with
  | [] => Ok corpora
  | s :: scenarios =>
      if bool_decide (is_Some (corpora !! sc_Nodes s)) then loadCorpora readCorpus paths scenarios corpora
      else
        let path := default [] (paths !! sc_Nodes s) in
        if bool_decide (path = []) then Err "missing encrypted corpus manifest"
        else
          let? p := readCorpus path in
          loadCorpora readCorpus paths scenarios (<[sc_Nodes s := p]> corpora)
  end.

Definition loadSuiteCorpusProvenance (readCorpus : bytes -> out corpusProvenance) (o : suiteOptions)
  (scenarios : list evalScenario) : out suiteOptions :=
  if blank (ConfigBase o) then Err "tx-source=mock-encrypted-corpus requires --config-base"
  else
    let? paths := parseCorpusManifestPaths (CorpusManifests o) in
    let? corpora := loadCorpora readCorpus paths scenarios ∅ in
    let? _ := each (fun s => validateCorpusProvenance (default noProvenance (corpora !! sc_Nodes s)) (so_BMax o)
      (sc_BatchSize s)) scenarios in
    Ok (set_CorpusByNodes corpora o).

Definition suiteCorpusIdentities (o : suiteOptions) (scenarios : list evalScenario) : gmap bytes runCorpusIdentity :=
  if negb (bool_decide (so_TxSource o = mockEncryptedCorpus)) then ∅
  else fold_left (fun ids s =>
    <[sc_ID s := corpusIdentityForCount (default noProvenance (CorpusByNodes o !! sc_Nodes s)) (sc_BatchSize s)]> ids)
    scenarios ∅.

Definition runOrderEntry (run : EvalRun) : bytes :=
  run_Phase run ++ str "/block-" ++ decimal (run_MeasurementBlock run) ++ str "/block-iteration-" ++
  decimal (run_BlockIteration run) ++ str "/" ++ run_ScenarioID run ++ str "/slot-" ++ decimal (run_Slot run) ++
  str "/generation-" ++ decimal (run_ClusterGeneration run).

Definition validateSuiteStreamMode (streamMode : bytes) (runs : list EvalRun) : out unit :=
  if bool_decide (streamMode = []) then
    if forallb (fun run => bool_decide (run_StreamMode run = [])) runs then Ok tt
    else Err "run has a stream mode but the manifest has none"
  else
    let? _ := validateNetworkConfig (mkNetwork (str "libp2p") streamMode) in
    each (fun run =>
      if bool_decide (run_StreamMode run = []) then Err "run has no stream mode"
      else if negb (bool_decide (run_StreamMode run = streamMode)) then Err "run stream mode does not match manifest stream mode"
      else Ok tt) runs.

(** Tables, and the trace artifact when there is one. *)
Definition writeSuiteOutputs (json_stream : bytes -> list (out acsTraceArtifactRecord)) (env : suiteEnv) (runs : list EvalRun)
  (schema : string) (streamMode tracePath : bytes) : out unit :=
  let? _ := validateSuiteStreamMode streamMode runs in
  let? _ := sv_writeTables env runs in
  if String.eqb schema "" then Ok tt
  else
    let? _ := sv_storeTrace env (writeACSTraceArtifact runs) in
    validateACSTraceArtifact (sv_readTrace env) json_stream schema runs tracePath.

(** The manifest's fields that are set at the end. *)
Definition concluded (manifest : suiteManifest) (schema : string) (order : list bytes) (startups recoveries : Z)
  (reason : option bytes) : suiteManifest :=
  mkManifest schema (mf_StreamMode manifest) (match reason with None => str "complete" | Some _ => str "invalid" end)
    (match reason with None => true | Some _ => false end) (default [] reason) (mf_PlannedRuns manifest)
    (mf_PlannedScenarioRuns manifest) (mf_CorpusByScenario manifest) (mf_Scenarios manifest) order startups recoveries.

(** Why a collection is not valid. *)
Definition collectionFault (campaignErr : option bytes) (plan : Z) (runs : list EvalRun) (incomplete : bytes) : option bytes :=
  match campaignErr with
  | Some err => Some err
  | None => if suiteCollectionComplete plan runs then None else Some incomplete
  end.

(** [perBlock] is not zero once the options are checked. *)
Definition isolatedRounds (o : suiteOptions) : list (bytes * Z * Z * Z) :=
  map (fun i => (str "warmup", i, 0, i)) (seqZ 1 (Warmups o)) ++
  map (fun i => (str "measured", i, Z.quot (i - 1) (perBlock o) + 1, Z.rem (i - 1) (perBlock o) + 1))
    (seqZ 1 (Repetitions o)).

(** [run.ScenarioID, run.Phase, run.Iteration, run.OrderIndex = ...] *)
Definition withIdentity (scenarioID phase : bytes) (iteration orderIndex : Z) (run : EvalRun) : EvalRun :=
  mkRun (run_RunID run) scenarioID phase iteration orderIndex
    (run_MeasurementBlock run) (run_BlockIteration run) (run_ScheduleSeed run) (run_PlannedScenarioRuns run)
    (run_Slot run) (run_ClusterGeneration run) (run_Nodes run) (run_Threshold run) (run_BMax run) (run_BatchSize run)
    (run_TxSize run) (run_TxGas run) (run_TxSource run) (run_Corpus run) (run_ReceivedTxCount run) (run_Network run)
    (run_StreamMode run) (run_Success run) (run_Consistent run) (run_Outcome run) (run_DeadlineMet run) (run_TimedOut run)
    (run_Error run) (run_StartSkewUS run) (run_CriticalNodeID run) (run_Results run).

Definition localOf (o : suiteOptions) (s : evalScenario) : localOptions :=
  mkLocalOptions (sc_Nodes s) (sc_Threshold s) (so_BMax o) (sc_BatchSize s) (so_TxSize o) (so_TxGas o) (FeeStart o)
    (FeeStep o) 0 0 (BasePort o) [] (so_ACSTrace o) (so_StreamMode o).

Section Driving.
Context (below : bytes -> bytes -> bytes) (crsPath : bytes -> bytes -> bytes) (uni : bytes -> bytes).
Context (json_fields : bytes -> out (list bytes)) (json_config : bytes -> out (ConfigFile * wireLimits)).
Context (json_network : bytes -> out NetworkConfig).
Context (json_failure : bytes -> out slotFailureResponse) (json_result : bytes -> out evalResult).
Context (json_stream : bytes -> list (out acsTraceArtifactRecord)).
Context (generate : Z -> Z -> Z -> bytes -> Z -> Z -> go (out (bytes * Summary))).
Context {Rng : Type} (NewSource : Z -> Rng) (Shuffle : Rng -> list evalScenario -> list evalScenario * Rng).

(** The isolated runs of a schedule; [orderIndex] counts them. *)
Fixpoint isolatedRuns (env : suiteEnv) (o : suiteOptions) (runsDir : bytes) (specs : list persistentRunSpec) (orderIndex : Z)
  (runs : list EvalRun) : go (out (list EvalRun)) :=
  match specs with
  | [] => Ret (Ok runs)
  | spec :: specs =>
      let s := spec_scenario spec in
      let runID := spec_phase spec ++ str "-r" ++ pad 3 (spec_iteration spec) ++ str "-" ++ sc_ID s in
      let! (run, runErr) := runLocalExperiment below json_failure json_result generate (sv_local env (orderIndex + 1))
        (below runsDir runID) runID (localOf o s) in
      let run := finishRun uni (spec_block spec) (spec_blockIteration spec) (Seed o) (Repetitions o) (Deadline o)
        (withIdentity (sc_ID s) (spec_phase spec) (spec_iteration spec) (orderIndex + 1) run) runErr in
      match ce_record (sv_campaign env) run with
      | Some _ => Ret (Err "record run")
      | None => isolatedRuns env o runsDir specs (orderIndex + 1) (runs ++ [run])
      end
  end.

(** The runs, the number of cluster starts, and the campaign's error. *)
Definition collectSuite (env : suiteEnv) (o : suiteOptions) (runsDir : bytes) (scenarios : list evalScenario)
  : go (out (list EvalRun * Z * option bytes)) :=
  if bool_decide (ExecutionMode o = str "persistent") then
    let! (st, campaignErr) := runPersistentSuite below crsPath uni json_fields json_config json_network json_failure
      json_result generate NewSource Shuffle (sv_campaign env) (sv_tempDir env) o scenarios in
    Ret (let? _ := sv_writeMeasurements env (measurements st) in
         Ok (allRuns st, zlen (measurements st), campaignErr))
  else
    let# runs := isolatedRuns env o runsDir (shuffleRounds Shuffle scenarios (isolatedRounds o) (NewSource (Seed o))) 0 [] in
    Ret (Ok (runs, 0, None)).

(** [stamp] is the time in the name of an experiment without one. Gives the
    final manifest of a complete collection, and its runs. *)
Definition evalSuite (env : suiteEnv) (readCorpus : bytes -> out corpusProvenance) (stamp runsDir tracePath : bytes)
  (o : suiteOptions) : go (out (suiteManifest * list EvalRun)) :=
  let# _ := Ret (checkSuiteOptions o) in
  let# counts := Ret (parseIntList (NodeCountsRaw o)) in
  let# sizes := Ret (parseIntList (BatchSizesRaw o)) in
  let# scenarios := Ret (buildScenarios counts sizes (so_BMax o)) in
  let# o := Ret (if bool_decide (so_TxSource o = mockEncryptedCorpus)
                 then loadSuiteCorpusProvenance readCorpus o scenarios else Ok o) in
  let plan := zlen scenarios * (Warmups o + Repetitions o) in
  let o := if bool_decide (so_ExperimentID o = []) then set_ExperimentID (str "m1-local-" ++ stamp) o else o in
  let# _ := Ret (prepareSuiteOutputDir (sv_outDir env) (sv_mkOutDir env)) in
  let manifest := mkManifest "" (so_StreamMode o) (str "running") false [] plan
    (fold_left (fun m s => <[sc_ID s := Repetitions o]> m) scenarios ∅) (suiteCorpusIdentities o scenarios) scenarios [] 0 0 in
  let# _ := Ret (sv_writeManifest env manifest) in
  let# _ := Ret (sv_createRuns env) in
  let# (runs, startups, campaignErr) := collectSuite env o runsDir scenarios in
  let# _ := Ret (sv_closeRuns env) in
  let# schema := Ret (acsTraceSchemaForRuns runs) in
  let# _ := Ret (writeSuiteOutputs json_stream env runs schema (so_StreamMode o) tracePath) in
  let fault := collectionFault campaignErr plan runs (str "the planned warmup and measured schedule was not fully retained") in
  let recoveries := zlen (filter (fun run => run_Phase run = str "recovery") runs) in
  let manifest := concluded manifest schema (map runOrderEntry runs) startups
    (if bool_decide (ExecutionMode o = str "persistent") then recoveries else 0) fault in
  let# _ := Ret (sv_writeManifest env manifest) in
  Ret (match fault with
       | Some _ => Err "suite failed"
       | None => Ok (manifest, runs)
       end).
End Driving.

(** ** The local evaluator *)

(** The run of one batch size; its error does not touch the other fields. *)
Definition keepError (run : EvalRun) (runErr : option bytes) : EvalRun :=
  match runErr with
  | None => run
  | Some err =>
      mkRun (run_RunID run) (run_ScenarioID run) (run_Phase run) (run_Iteration run) (run_OrderIndex run)
        (run_MeasurementBlock run) (run_BlockIteration run) (run_ScheduleSeed run) (run_PlannedScenarioRuns run)
        (run_Slot run) (run_ClusterGeneration run) (run_Nodes run) (run_Threshold run) (run_BMax run) (run_BatchSize run)
        (run_TxSize run) (run_TxGas run) (run_TxSource run) (run_Corpus run) (run_ReceivedTxCount run) (run_Network run)
        (run_StreamMode run) (run_Success run) (run_Consistent run) (run_Outcome run) (run_DeadlineMet run)
        (run_TimedOut run) err (run_StartSkewUS run) (run_CriticalNodeID run) (run_Results run)
  end.

Definition set_batch (batchSize basePort : Z) (o : localOptions) : localOptions :=
  mkLocalOptions (lo_Nodes o) (lo_Threshold o) (lo_BMax o) batchSize (lo_TxSize o) (lo_TxGas o) (lo_FeeStart o) (lo_FeeStep o)
    (lo_MaxDecryptedGas o) (lo_MaxDecryptedTxs o) basePort (lo_FaultRaw o) (lo_ACSTrace o) (lo_StreamMode o).

Section LocalEvaluator.
Context (below : bytes -> bytes -> bytes).
Context (json_failure : bytes -> out slotFailureResponse) (json_result : bytes -> out evalResult).
Context (generate : Z -> Z -> Z -> bytes -> Z -> Z -> go (out (bytes * Summary))).

(** [now] are the times in the names of the runs. *)
Fixpoint localRuns (env : Z -> localEnv) (now : Z -> Z) (outDir : bytes) (o : localOptions) (sizes : list Z) (idx : Z)
  : go (out (list EvalRun)) :=
  match sizes with
  | [] => Ret (Ok [])
  | size :: sizes =>
      let runID := str "n" ++ decimal (lo_Nodes o) ++ str "-b" ++ decimal size ++ str "-tx" ++ decimal (lo_TxSize o) ++
                   str "-" ++ decimal (now idx) in
      let runDir := below outDir runID in
      let# _ := Ret (le_mkRunDir (env idx)) in
      let! (run, runErr) := runLocalExperiment below json_failure json_result generate (env idx) runDir runID
        (set_batch size (i64 (lo_BasePort o + idx * 2000)) o) in
      let# rest := localRuns env now outDir o sizes (idx + 1) in
      Ret (Ok (keepError run runErr :: rest))
  end.

Definition evalLocal (env : Z -> localEnv) (now : Z -> Z) (mkOutDir : out unit) (writeOutputs : list EvalRun -> out unit)
  (outDir batchSizesRaw printMode : bytes) (o : localOptions) : go (out (list EvalRun)) :=
  let# sizes := Ret (parseIntList batchSizesRaw) in
  let# _ := Ret mkOutDir in
  let# runs := localRuns env now outDir o sizes 0 in
  let# _ := Ret (writeOutputs runs) in
  Ret (if bool_decide (printMode ∈ [str "summary"; str "json"]) then Ok runs else Err "unknown print mode").
End LocalEvaluator.

(** ** The remote evaluator *)

Record remoteEvalOptions := mkRemoteOptions {
  ro_ConfigPath : bytes;
  ro_FirstSlot : Z;
  ro_BatchSize : Z;
  ro_TxSize : Z;
  ro_TxGas : Z;
  ro_TxSource : bytes;
  ro_MempoolURL : bytes;
  ro_FeeStart : Z;
  ro_FeeStep : Z;
  ro_Warmups : Z;
  ro_Repetitions : Z;
  ro_RepetitionBlocks : Z;
  ro_MeasurementBlock : Z;
  ro_PlannedScenarioRuns : Z;
  ro_Seed : Z;
  ro_Deadline : Z;
  ro_FinalCampaign : bool
}.

Definition set_PlannedScenarioRuns (n : Z) (o : remoteEvalOptions) : remoteEvalOptions :=
  mkRemoteOptions (ro_ConfigPath o) (ro_FirstSlot o) (ro_BatchSize o) (ro_TxSize o) (ro_TxGas o) (ro_TxSource o)
    (ro_MempoolURL o) (ro_FeeStart o) (ro_FeeStep o) (ro_Warmups o) (ro_Repetitions o) (ro_RepetitionBlocks o)
    (ro_MeasurementBlock o) n (ro_Seed o) (ro_Deadline o) (ro_FinalCampaign o).

(** The checks on the parsed flags. *)
Definition parseRemoteEvalOptions (o : remoteEvalOptions) : out remoteEvalOptions :=
  if (ro_Warmups o <? 0) || (ro_Repetitions o <? 1) then Err "warmups must be >= 0 and repetitions must be >= 1"
  else if (ro_RepetitionBlocks o <? 1) || negb (Z.rem (ro_Repetitions o) (ro_RepetitionBlocks o) =? 0) then
    Err "repetitions must be divisible by repetition-blocks >= 1"
  else if ro_MeasurementBlock o <? 0 then Err "measurement-block must be non-negative"
  else
    let o := if ro_PlannedScenarioRuns o =? 0 then set_PlannedScenarioRuns (ro_Repetitions o) o else o in
    if ro_PlannedScenarioRuns o <? ro_Repetitions o then Err "planned-scenario-runs must be at least repetitions"
    else if ro_Deadline o <=? 0 then Err "deadline must be positive"
    else if (ro_BatchSize o <? 1) || (ro_TxSize o <? 1) then Err "batch-size and tx-size must be positive"
    else
      let? _ := validateTxSource (ro_TxSource o) (ro_MempoolURL o) in
      let? _ := if ro_FinalCampaign o then validateFinalCampaignTxSource (ro_TxSource o) (ro_MempoolURL o) else Ok tt in
      Ok o.

(** The configuration with its defaults; the first slot comes with it. *)
Definition completeRemoteConfig (o : remoteEvalOptions) (cfg : remoteEvalConfig) : out (remoteEvalConfig * Z) :=
  let count := if NodeCount cfg =? 0 then zlen (re_Nodes cfg) else NodeCount cfg in
  if negb (count =? zlen (re_Nodes cfg)) then Err "node_count does not match configured nodes"
  else if count <? 4 then Err "node_count must be >= 4"
  else
    let threshold := if re_Threshold cfg =? 0 then 2 * Z.quot (count - 1) 3 + 1 else re_Threshold cfg in
    let bmax := if re_BMax cfg =? 0 then ro_BatchSize o else re_BMax cfg in
    let cfg := mkRemote (re_Nodes cfg) (Endpoints cfg) count threshold bmax (re_Network cfg) (re_StreamMode cfg)
      (re_Deployment cfg) (InitialSlot cfg) (re_Corpus cfg) in
    let? _ := validateRemoteEvidenceScenario cfg (ro_BatchSize o) in
    let? _ := if ro_FinalCampaign o then validateFinalCampaignTxSource (ro_TxSource o) (ro_MempoolURL o) else Ok tt in
    let? _ := if bool_decide (ro_TxSource o = mockEncryptedCorpus)
              then validateCorpusProvenance (re_Corpus cfg) bmax (ro_BatchSize o) else Ok tt in
    let network := if bool_decide (re_Network cfg = []) then str "libp2p" else re_Network cfg in
    let cfg := set_reNodes (re_Nodes cfg) network (re_StreamMode cfg) cfg in
    let initialSlot := if InitialSlot cfg =? 0 then 1 else InitialSlot cfg in
    Ok (cfg, if ro_FirstSlot o =? 0 then initialSlot else ro_FirstSlot o).

Definition remoteScenario (o : remoteEvalOptions) (cfg : remoteEvalConfig) : evalScenario :=
  mkScenario (str "remote-n" ++ decimal (NodeCount cfg) ++ str "-b" ++ decimal (ro_BatchSize o) ++ str "-libp2p")
    (NodeCount cfg) (re_Threshold cfg) (ro_BatchSize o) (re_Network cfg).

Definition remoteRounds (o : remoteEvalOptions) : list (bytes * Z * Z * Z) :=
  let perBlock := Z.quot (ro_Repetitions o) (ro_RepetitionBlocks o) in
  map (fun i => (str "warmup", i, 0, i)) (seqZ 1 (ro_Warmups o)) ++
  map (fun i =>
    if 0 <? ro_MeasurementBlock o then (str "measured", i, ro_MeasurementBlock o, i)
    else (str "measured", i, Z.quot (i - 1) perBlock + 1, Z.rem (i - 1) perBlock + 1)) (seqZ 1 (ro_Repetitions o)).

(** The options that the building of the transactions reads. *)
Definition submissionOptions (o : remoteEvalOptions) : suiteOptions :=
  mkSuiteOptions [] [] 0 (ro_TxSize o) (ro_TxGas o) (ro_TxSource o) [] [] [] ∅ false (ro_FeeStart o) (ro_FeeStep o)
    0 0 0 0 0 0 [] [] [] 0 false.

Definition remoteOrderEntry (run : EvalRun) : bytes :=
  run_Phase run ++ str "/block-" ++ decimal (run_MeasurementBlock run) ++ str "/block-iteration-" ++
  decimal (run_BlockIteration run) ++ str "/" ++ run_ScenarioID run ++ str "/slot-" ++ decimal (run_Slot run).

Record remoteEnv := mkRemoteEnv {
  rv_slot : Z -> slotEnv;
  rv_record : EvalRun -> option bytes;
  rv_firstHealth : list httpReply;
  rv_laterHealth : list (list httpReply);
  rv_suite : suiteEnv
}.

Section RemoteEvaluator.
Context (uni : bytes -> bytes).
Context (json_failure : bytes -> out slotFailureResponse) (json_result : bytes -> out evalResult).
Context (json_remote : bytes -> out remoteEvalConfig) (json_stream : bytes -> list (out acsTraceArtifactRecord)).
Context (generate : Z -> Z -> Z -> bytes -> Z -> Z -> go (out (bytes * Summary))).

Fixpoint remoteRuns (env : remoteEnv) (o : remoteEvalOptions) (cfg : remoteEvalConfig) (rounds : list (bytes * Z * Z * Z))
  (orderIndex slotID : Z) (runs : list EvalRun) : go (out (list EvalRun)) :=
  match rounds with
  | [] => Ret (Ok runs)
  | (phase, iteration, block, blockIteration) :: rounds =>
      let scenario := remoteScenario o cfg in
      let runID := phase ++ str "-r" ++ pad 3 iteration ++ str "-" ++ sc_ID scenario in
      let# corpus := buildSubmissionCorpusForSource generate scenario (submissionOptions o) in
      let '(run, runErr) := runRemoteSlot json_failure json_result (rv_slot env slotID) runID cfg scenario phase iteration
        (orderIndex + 1) slotID corpus (ro_TxSize o) (ro_TxGas o) (ro_TxSource o) true in
      let run := finishRun uni block blockIteration (ro_Seed o) (ro_PlannedScenarioRuns o) (ro_Deadline o) run runErr in
      match rv_record env run with
      | Some _ => Ret (Err "record run")
      | None => remoteRuns env o cfg rounds (orderIndex + 1) (u64 (slotID + 1)) (runs ++ [run])
      end
  end.

Definition evalRemote (env : remoteEnv) (readFile : bytes -> out bytes) (tracePath : bytes) (o : remoteEvalOptions)
  : go (out (suiteManifest * list EvalRun)) :=
  let# o := Ret (parseRemoteEvalOptions o) in
  let# cfg := Ret (readRemoteEvalConfig readFile json_remote (ro_ConfigPath o)) in
  let# (cfg, firstSlot) := Ret (completeRemoteConfig o cfg) in
  let# _ := Ret (prepareSuiteOutputDir (sv_outDir (rv_suite env)) (sv_mkOutDir (rv_suite env))) in
  let# _ := Ret (waitForHTTP (rv_firstHealth env) (rv_laterHealth env)) in
  let scenario := remoteScenario o cfg in
  let plan := ro_Warmups o + ro_Repetitions o in
  let manifest := mkManifest "" (re_StreamMode cfg) (str "running") false [] plan {[ sc_ID scenario := ro_PlannedScenarioRuns o ]}
    (if bool_decide (ro_TxSource o = mockEncryptedCorpus)
     then {[ sc_ID scenario := corpusIdentityForCount (re_Corpus cfg) (ro_BatchSize o) ]} else ∅) [scenario] [] 0 0 in
  let# _ := Ret (sv_writeManifest (rv_suite env) manifest) in
  let# _ := Ret (sv_createRuns (rv_suite env)) in
  let# runs := remoteRuns env o cfg (remoteRounds o) 0 firstSlot [] in
  let# schema := Ret (acsTraceSchemaForRuns runs) in
  let# _ := Ret (writeSuiteOutputs json_stream (rv_suite env) runs schema (re_StreamMode cfg) tracePath) in
  let fault := collectionFault None plan runs (str "the planned remote schedule was not fully retained") in
  let manifest := concluded manifest schema (map remoteOrderEntry runs) 0 0 fault in
  let# _ := Ret (sv_writeManifest (rv_suite env) manifest) in
  Ret (match fault with
       | Some _ => Err "remote suite failed"
       | None => Ok (manifest, runs)
       end).
End RemoteEvaluator.
