(* ===== verification/EvalDriverLaws.v ===== *)
(** * Laws of the evaluators

    A suite is valid only when every scenario has had its runs, and its trace
    artifact holds their traces, in both modes of execution; isolated runs
    never use another source of transactions than the synthetic one. *)

From S2P Require Import Prelude Order GoStrings Trace NodeState Node Config Deploy EvalData Artifact ArtifactLaws EvalSuite EvalSuiteLaws EvalDrivers.

(** ** One plan for both modes *)

Lemma seqZ_blocks {A} (g : Z -> A) (F : Z -> Z -> A) (blocks : nat) per : 0 <= per ->
  (forall b i, 1 <= b <= Z.of_nat blocks -> 1 <= i <= per -> F b i = g ((b - 1) * per + i)) ->
  concat (map (fun b => map (F b) (seqZ 1 per)) (seqZ 1 (Z.of_nat blocks))) = map g (seqZ 1 (Z.of_nat blocks * per)).
Proof.
  intros Hper. induction blocks as [|blocks IH]; intros HF; [done|].
  replace (Z.of_nat (S blocks)) with (Z.of_nat blocks + 1) at 1 by lia. rewrite seqZ_app, map_app, concat_app by lia.
  rewrite IH by (intros b i Hb Hi; apply HF; lia).
  replace (Z.of_nat (S blocks) * per) with (Z.of_nat blocks * per + per) by lia. rewrite (seqZ_app 1 (Z.of_nat blocks * per) per) by lia.
  rewrite map_app. f_equal.
  rewrite (seqZ_cons _ 1) by lia. rewrite (seqZ_nil _ (Z.pred 1)) by lia. cbn [map concat]. rewrite app_nil_r.
  replace (1 + Z.of_nat blocks * per) with (Z.of_nat blocks * per + 1) by lia. rewrite <- (fmap_add_seqZ (Z.of_nat blocks * per) 1 per). change (fmap (M := list) ?h) with (map h). rewrite map_map.
  apply map_ext_in. intros i Hi. rewrite <- list_elem_of_In in Hi. apply elem_of_seqZ in Hi.
  rewrite HF by lia. f_equal. lia.
Qed.

(** The rounds of isolated runs are those of the persistent clusters. *)
Lemma isolatedRounds_specRounds o : 0 < RepetitionBlocks o -> 0 <= Repetitions o ->
  Z.rem (Repetitions o) (RepetitionBlocks o) = 0 -> isolatedRounds o = specRounds o.
Proof.
  intros Hb Hr Hrem. unfold isolatedRounds, specRounds. f_equal.
  pose proof (Z.quot_pos (Repetitions o) (RepetitionBlocks o) ltac:(lia) ltac:(lia)) as Hq. fold (perBlock o) in Hq.
  pose proof (Z.quot_rem' (Repetitions o) (RepetitionBlocks o)) as Hdiv. fold (perBlock o) in Hdiv.
  replace (Repetitions o) with (Z.of_nat (Z.to_nat (RepetitionBlocks o)) * perBlock o) by lia.
  symmetry. replace (RepetitionBlocks o) with (Z.of_nat (Z.to_nat (RepetitionBlocks o))) at 1 by lia.
  apply seqZ_blocks; [done|]. intros b i Hbb Hi.
  replace ((b - 1) * perBlock o + i - 1) with ((i - 1) + (b - 1) * perBlock o) by lia.
  assert (0 <= (b - 1) * perBlock o) by (apply Z.mul_nonneg_nonneg; lia).
  rewrite Z.quot_add, Z.rem_add by first [lia|apply Z.mul_nonneg_nonneg; lia]. rewrite Z.quot_small, Z.rem_small by lia. f_equal; [f_equal; lia|lia].
Qed.

(** ** Every scenario in every round *)

Definition everyScenario (rounds : list (bytes * Z * Z * Z)) (scenarios : list evalScenario)
  : list (bytes * Z * bytes * Z * Z) :=
  concat (map (fun '(phase, iteration, block, blockIteration) =>
    map (fun s => (phase, iteration, sc_ID s, block, blockIteration)) scenarios) rounds).

Lemma everyScenario_app rounds l l' : everyScenario rounds (l ++ l') ≡ₚ everyScenario rounds l ++ everyScenario rounds l'.
Proof.
  unfold everyScenario. induction rounds as [|[[[phase iteration] block] bi] rounds IH]; cbn [map concat]; [done|].
  rewrite map_app, IH. solve_Permutation.
Qed.

Lemma everyScenario_perm rounds l l' : l ≡ₚ l' -> everyScenario rounds l ≡ₚ everyScenario rounds l'.
Proof.
  intros Hl. unfold everyScenario. induction rounds as [|[[[phase iteration] block] bi] rounds IH]; cbn [map concat]; [done|].
  apply Permutation_app; [by apply Permutation_map|exact IH].
Qed.

Lemma everyScenario_nil rounds : everyScenario rounds [] = [].
Proof. unfold everyScenario. by induction rounds as [|[[[phase iteration] block] bi] rounds IH]. Qed.

Section Shuffled.
Context {Rng : Type} (NewSource : Z -> Rng) (Shuffle : Rng -> list evalScenario -> list evalScenario * Rng).
Context (Hsh : shuffles Shuffle).

Lemma shuffleRounds_every group rounds rng :
  map planned (shuffleRounds Shuffle group rounds rng) ≡ₚ everyScenario rounds group.
Proof.
  revert rng. induction rounds as [|[[[phase iteration] block] bi] rounds IH]; intros rng; cbn [shuffleRounds]; [done|].
  pose proof (Hsh rng group) as Hp. destruct (Shuffle rng group) as [order rng']. cbn [fst] in Hp.
  rewrite map_app, IH, map_map. unfold everyScenario. cbn [map concat]. apply Permutation_app_tail.
  rewrite Hp. done.
Qed.

Lemma schedule_every o groups counts scenarios : grouped groups counts scenarios ->
  map planned (schedule o NewSource Shuffle groups counts) ≡ₚ everyScenario (specRounds o) scenarios.
Proof.
  intros (_ & _ & Hp). rewrite <- (everyScenario_perm _ _ _ Hp). clear Hp. unfold schedule.
  induction counts as [|n counts IH]; cbn [map concat]; [by rewrite everyScenario_nil|].
  rewrite map_app, IH, everyScenario_app. apply Permutation_app_tail, shuffleRounds_every.
Qed.
End Shuffled.

(** ** Isolated runs *)

Section Isolated.
Context (below : bytes -> bytes -> bytes) (uni : bytes -> bytes).
Context (json_failure : bytes -> out slotFailureResponse) (json_result : bytes -> out evalResult).
Context (generate : Z -> Z -> Z -> bytes -> Z -> Z -> go (out (bytes * Summary))).

(** The fields that are the same in every isolated run. *)
Definition isolated (o : suiteOptions) (run : EvalRun) : Prop :=
  run_StreamMode run = so_StreamMode o /\ run_TxSource run = [] /\ run_Corpus run = None.

Lemma runLocalExperiment_fields env runDir runID o run err :
  runLocalExperiment below json_failure json_result generate env runDir runID o = Ret (run, err) ->
  run_StreamMode run = lo_StreamMode o /\ run_TxSource run = [] /\ run_Corpus run = None.
Proof.
  unfold runLocalExperiment. cbv zeta. destruct (prepareLocal _ _ _ _ _) as [[u|e|]| |]; cbn [go_bind]; [|by intros [= <- _]|done..].
  destruct (startNodes _ _); [by intros [= <- _]|]. destruct (pollResults _ _ _ _ _); by intros [= <- _].
Qed.

Lemma finishRun_isolated o block bi seed plan deadline run err : isolated o run ->
  isolated o (finishRun uni block bi seed plan deadline run err).
Proof.
  intros Hi. unfold finishRun, classifyRunOutcome. cbv zeta. destruct err; destruct (run_Success _ && run_Consistent _); exact Hi.
Qed.

Lemma isolatedRuns_spec env o runsDir specs order runs runs' :
  isolatedRuns below uni json_failure json_result generate env o runsDir specs order runs = Ret (Ok runs') ->
  exists new, runs' = runs ++ new /\ map planOf new = map planned specs /\ Forall (isolated o) new.
Proof.
  revert order runs. induction specs as [|spec specs IH]; intros order runs; cbn [isolatedRuns].
  { intros [= <-]. exists []. by rewrite app_nil_r. }
  destruct (runLocalExperiment _ _ _ _ _ _ _ _) as [[run err]| |] eqn:E; cbn [go_bind]; [|discriminate..]. cbv zeta.
  apply runLocalExperiment_fields in E.
  set (kept := finishRun _ _ _ _ _ _ _ _). destruct (ce_record _ kept); [discriminate|].
  intros (new & -> & Hp & HF)%IH. exists (kept :: new). rewrite <- app_assoc. split; [done|]. split.
  - cbn [map]. rewrite Hp. f_equal. unfold planOf, planned.
    destruct (finishRun_fields uni (spec_block spec) (spec_blockIteration spec) (Seed o) (Repetitions o) (Deadline o)
      (withIdentity (sc_ID (spec_scenario spec)) (spec_phase spec) (spec_iteration spec) (order + 1) run) err)
      as (Hid & Hb & Hbi & _). fold kept in Hid, Hb, Hbi. rewrite Hb, Hbi. unfold identityOf in Hid. by injection Hid as _ -> -> -> _ _ _ _.
  - constructor; [|exact HF]. apply finishRun_isolated. exact E.
Qed.
End Isolated.

(** ** Valid suites *)

Lemma try_ok {A B} {m : go (out A)} {k : A -> go (out B)} {b} : try_bind m k = Ret (Ok b) -> exists a, m = Ret (Ok a) /\ k a = Ret (Ok b).
Proof. unfold try_bind. destruct m as [[a|e|]| |]; cbn [go_bind]; try discriminate. by exists a. Qed.

Lemma loaded_options readCorpus o scenarios o' : loadSuiteCorpusProvenance readCorpus o scenarios = Ok o' ->
  exists corpora, o' = set_CorpusByNodes corpora o.
Proof.
  unfold loadSuiteCorpusProvenance. destruct (blank _); [discriminate|].
  destruct (parseCorpusManifestPaths _) as [paths|e|]; cbn [out_bind]; [|discriminate..].
  destruct (loadCorpora _ _ _ _) as [corpora|e|]; cbn [out_bind]; [|discriminate..].
  destruct (each _ _); cbn [out_bind]; [|discriminate..]. intros [= <-]. by exists corpora.
Qed.

Lemma checked_options o : checkSuiteOptions o = Ok tt ->
  0 < RepetitionBlocks o /\ 0 <= Repetitions o /\ Z.rem (Repetitions o) (RepetitionBlocks o) = 0.
Proof.
  unfold checkSuiteOptions. destruct (checkParsedSuite o); cbn [out_bind]; [|discriminate..].
  destruct (Z.ltb_spec (Warmups o) 0); cbn [orb]; [discriminate|]. destruct (Z.ltb_spec (Repetitions o) 1); [discriminate|].
  destruct (Z.ltb_spec (RepetitionBlocks o) 1); cbn [orb]; [discriminate|].
  destruct (Z.eqb_spec (Z.rem (Repetitions o) (RepetitionBlocks o)) 0); cbn [negb]; [|discriminate]. lia.
Qed.

Lemma schemaForRuns_version runs schema : acsTraceSchemaForRuns runs = Ok schema ->
  schema = ""%string \/ schema = ACSTraceSchemaVersion.
Proof.
  unfold acsTraceSchemaForRuns. destruct (fold_out _ _ _) as [s|e|]; cbn [out_bind]; [|discriminate..].
  destruct (String.eqb_spec s ""); [intros [= <-]; by left|].
  destruct (String.eqb_spec s ACSTraceSchemaVersion); [intros [= <-]; by right|discriminate].
Qed.

(** The file that is read back holds the traces of the runs. *)
Definition tracesStored (readFile : bytes -> out bytes) (json_stream : bytes -> list (out acsTraceArtifactRecord))
  (runs : list EvalRun) (schema : string) (path : bytes) : Prop :=
  exists data records, readFile path = Ok data /\ json_stream data = map Ok records /\
    Forall2 (fun r w => ar_Key r = ar_Key w /\ ar_SchemaVersion r = schema /\ ar_Enabled r = true /\ sameTrace r w)
      records (writeACSTraceArtifact runs).

Lemma outputs_stored json_stream env runs schema streamMode path :
  writeSuiteOutputs json_stream env runs schema streamMode path = Ok tt -> acsTraceSchemaForRuns runs = Ok schema ->
  schema = ""%string \/ (schema = ACSTraceSchemaVersion /\ tracesStored (sv_readTrace env) json_stream runs schema path).
Proof.
  unfold writeSuiteOutputs. destruct (validateSuiteStreamMode _ _); cbn [out_bind]; [|discriminate..].
  destruct (sv_writeTables _ _); cbn [out_bind]; [|discriminate..]. destruct (String.eqb_spec schema ""); [by left|].
  destruct (sv_storeTrace _ _); cbn [out_bind]; [|discriminate..].
  intros Hv Hs. right. split; [by destruct (schemaForRuns_version _ _ Hs)|]. by apply artifact_records in Hv.
Qed.

Lemma isolated_retained runs specs : Forall (fun spec => scheduledPhase (spec_phase spec)) specs ->
  map planOf runs = map planned specs -> retained runs = runs.
Proof.
  intros HF. revert runs. induction HF as [|spec specs Hph _ IH]; intros [|run runs] Heq; cbn [map] in Heq; try discriminate; [done|].
  pose proof (f_equal (fun l => (fun p => p.1.1.1.1) <$> head l) Heq) as Hp. cbn in Hp. injection Hp as Hp.
  apply (f_equal tail) in Heq. cbn [tail] in Heq. unfold retained in *. rewrite filter_cons_True by (by rewrite Hp). f_equal. by apply IH.
Qed.

Section Suites.
Context (below : bytes -> bytes -> bytes) (crsPath : bytes -> bytes -> bytes) (uni : bytes -> bytes).
Context (json_fields : bytes -> out (list bytes)) (json_config : bytes -> out (ConfigFile * wireLimits)).
Context (json_network : bytes -> out NetworkConfig).
Context (json_failure : bytes -> out slotFailureResponse) (json_result : bytes -> out evalResult).
Context (json_stream : bytes -> list (out acsTraceArtifactRecord)).
Context (generate : Z -> Z -> Z -> bytes -> Z -> Z -> go (out (bytes * Summary))).
Context {Rng : Type} (NewSource : Z -> Rng) (Shuffle : Rng -> list evalScenario -> list evalScenario * Rng).

Lemma collected env o runsDir scenarios runs startups : shuffles Shuffle -> 0 < RepetitionBlocks o -> 0 <= Repetitions o ->
  Z.rem (Repetitions o) (RepetitionBlocks o) = 0 ->
  collectSuite below crsPath uni json_fields json_config json_network json_failure json_result generate NewSource Shuffle
    env o runsDir scenarios = Ret (Ok (runs, startups, None)) ->
  map planOf (retained runs) ≡ₚ everyScenario (specRounds o) scenarios /\
  Forall (fun run => run_StreamMode run = so_StreamMode o) runs.
Proof.
  intros Hsh Hb Hr Hrem. unfold collectSuite. case_bool_decide as Hmode.
  - destruct (runPersistentSuite _ _ _ _ _ _ _ _ _ _ _ _ _ _ _) as [[st err]| |] eqn:E; cbn [go_bind]; [|discriminate..].
    destruct (sv_writeMeasurements _ _); cbn [out_bind]; [|discriminate..]. intros [= <- <- ->].
    apply runPersistentSuite_planned in E as [Hp HF]; [|lia|done]. split; [|exact HF].
    rewrite Hp. apply schedule_every; [done|]. pose proof (groupScenarios_grouped scenarios) as Hg.
    destruct (groupScenarios scenarios) as [groups counts]. by apply grouped_sorted.
  - intros (runs' & E & [= <- <-])%try_ok. apply isolatedRuns_spec in E as (new & -> & Hp & HF). cbn [app].
    rewrite isolatedRounds_specRounds in Hp by done.
    rewrite (isolated_retained _ _ (shuffleRounds_phase Shuffle scenarios _ (NewSource (Seed o)) (specRounds_phase o)) Hp), Hp.
    split; [by apply shuffleRounds_every|]. eapply Forall_impl; [exact HF|]. by intros run [? _].
Qed.

(** C17. A suite that ends without an error is complete: in either mode of
    execution it has kept one run of every scenario for every round of its
    plan, all of them in the manifest's stream mode, its manifest lists the
    runs in their order, and its trace artifact, if there is one, holds
    exactly the traces of the runs. *)
Theorem suite_valid env readCorpus stamp runsDir tracePath o manifest runs : shuffles Shuffle ->
  evalSuite below crsPath uni json_fields json_config json_network json_failure json_result json_stream generate NewSource
    Shuffle env readCorpus stamp runsDir tracePath o = Ret (Ok (manifest, runs)) ->
  mf_Valid manifest = true /\ mf_Status manifest = str "complete" /\ mf_RunOrder manifest = map runOrderEntry runs /\
  map planOf (retained runs) ≡ₚ everyScenario (specRounds o) (mf_Scenarios manifest) /\
  Forall (fun run => run_StreamMode run = mf_StreamMode manifest) runs /\
  (mf_ACSTraceSchema manifest = ""%string \/
   (mf_ACSTraceSchema manifest = ACSTraceSchemaVersion /\
    tracesStored (sv_readTrace env) json_stream runs ACSTraceSchemaVersion tracePath)).
Proof.
  intros Hsh. unfold evalSuite.
  intros ([] & [= Hc] & (counts & [= Hn] & (sizes & [= Hs] & (scenarios & [= Hsc] & (o' & [= Ho] & Hrest)%try_ok)%try_ok)%try_ok)%try_ok)%try_ok.
  apply checked_options in Hc as (Hb & Hr & Hrem).
  assert (exists corpora, o' = set_CorpusByNodes corpora o \/ o' = o) as (corpora & Ho')
    by (destruct (bool_decide (so_TxSource o = mockEncryptedCorpus)); [apply loaded_options in Ho as [corpora ->]; exists corpora; by left|];
        injection Ho as <-; exists ∅; by right).
  cbv zeta in Hrest. set (o2 := if bool_decide (so_ExperimentID o' = []) then _ else o') in Hrest.
  assert (RepetitionBlocks o2 = RepetitionBlocks o /\ Repetitions o2 = Repetitions o /\ Warmups o2 = Warmups o) as (Eb & Er & Ew)
    by (unfold o2; destruct Ho' as [->| ->]; match goal with |- context [if ?b then _ else _] => destruct b end; split_and!; reflexivity).
  assert (specRounds o2 = specRounds o) as Esr by (unfold specRounds, perBlock; by rewrite Eb, Er, Ew).
  apply try_ok in Hrest as ([] & _ & Hrest). apply try_ok in Hrest as ([] & _ & Hrest). apply try_ok in Hrest as ([] & _ & Hrest).
  apply try_ok in Hrest as ([[runs' startups] err] & Hcol & Hrest). apply try_ok in Hrest as ([] & _ & Hrest).
  apply try_ok in Hrest as (schema & [= Hschema] & Hrest). apply try_ok in Hrest as ([] & [= Hout] & Hrest).
  apply try_ok in Hrest as ([] & _ & Hrest). unfold collectionFault in Hrest. destruct err as [err|]; [discriminate|].
  destruct (suiteCollectionComplete _ runs') eqn:Ecomp; [|discriminate]. injection Hrest as <- <-.
  apply collected in Hcol as [Hplan Hmode]; [|done|by rewrite Eb|by rewrite Er|by rewrite Eb, Er].
  rewrite Esr in Hplan. split; [done|]. split; [done|]. split; [done|]. split; [exact Hplan|]. split; [exact Hmode|].
  cbn [concluded mf_ACSTraceSchema]. destruct (outputs_stored _ _ _ _ _ _ Hout Hschema) as [->|[-> Hst]]; [by left|by right].
Qed.

(** Isolated execution never uses the chosen source of transactions: every
    run is synthetic and has no corpus, whatever the suite was asked for and
    its manifest says. *)
Lemma isolated_runs_synthetic env readCorpus stamp runsDir tracePath o manifest runs :
  ExecutionMode o = str "isolated" ->
  evalSuite below crsPath uni json_fields json_config json_network json_failure json_result json_stream generate NewSource
    Shuffle env readCorpus stamp runsDir tracePath o = Ret (Ok (manifest, runs)) ->
  Forall (fun run => run_TxSource run = [] /\ run_Corpus run = None) runs.
Proof.
  intros Hmode. unfold evalSuite.
  intros ([] & _ & (counts & _ & (sizes & _ & (scenarios & _ & (o' & [= Ho] & Hrest)%try_ok)%try_ok)%try_ok)%try_ok)%try_ok.
  cbv zeta in Hrest. set (o2 := if bool_decide (so_ExperimentID o' = []) then _ else o') in Hrest.
  assert (ExecutionMode o2 = str "isolated") as Em.
  { rewrite <- Hmode. destruct (bool_decide (so_TxSource o = mockEncryptedCorpus)).
    - apply loaded_options in Ho as [corpora ->]. unfold o2. match goal with |- context [if ?b then _ else _] => by destruct b end.
    - injection Ho as <-. unfold o2. match goal with |- context [if ?b then _ else _] => by destruct b end. }
  apply try_ok in Hrest as ([] & _ & Hrest). apply try_ok in Hrest as ([] & _ & Hrest). apply try_ok in Hrest as ([] & _ & Hrest).
  apply try_ok in Hrest as ([[runs' startups] err] & Hcol & Hrest). apply try_ok in Hrest as ([] & _ & Hrest).
  apply try_ok in Hrest as (schema & _ & Hrest). apply try_ok in Hrest as ([] & _ & Hrest). apply try_ok in Hrest as ([] & _ & Hrest).
  destruct (collectionFault _ _ _ _); [discriminate|]. injection Hrest as <- <-.
  unfold collectSuite in Hcol. rewrite Em, bool_decide_false in Hcol by done. apply try_ok in Hcol as (runs2 & Hrun & [= <- _ _]).
  apply isolatedRuns_spec in Hrun as (new & -> & _ & HF). eapply Forall_impl; [exact HF|]. by intros run (_ & ? & ?).
Qed.
End Suites.
