(* ===== verification/EvalDemo.v ===== *)
(** * EvalDemo: concrete evaluations

    Witnesses for the theorems on the evaluators: a campaign of one scenario on
    four nodes whose second slot breaks its cluster, the same suite in isolated
    execution, and a toy signing scheme for the demo's transactions. *)

From S2P Require Import Prelude Order GoStrings Trace NodeState Node Config Deploy EvalData Artifact ArtifactLaws EvalSuite EvalSuiteLaws EvalSuiteProtocol EvalDrivers EvalDriverLaws.

(** ** Transactions *)

Module TxDemo.
(** A transaction is written out field by field. *)
Definition sign (tx : dynamicFeeTx) (key : unit) : out bytes :=
  Ok (dt_ChainID tx :: dt_Nonce tx :: dt_GasFeeCap tx :: dt_Gas tx :: dt_Data tx).

Definition decode (raw : bytes) : option ethTx :=
  match raw with
  | chain :: nonce :: fee :: gas :: _ => Some (mkEthTx (Some chain) (Some (str "0xaa")) None nonce gas DynamicFeeTxType fee 0 [])
  | _ => None
  end.

Definition keyOf (seed : bytes) : option unit := Some tt.
Definition generate := Generate keyOf sign decode.

Lemma sign_signs : signs sign decode (fun _ => str "0xaa").
Proof.
  split.
  - intros tx key. by eexists.
  - intros tx key raw [= <-]. by eexists.
  - intros tx key raw [= <-]. cbn. lia.
Qed.

Example generated_example :
  exists raw summary, generate 3 80 0 (str "1000") 2 7 = Ret (Ok (raw, summary)) /\ 80 <= zlen raw /\ sum_Nonce summary = 7.
Proof.
  destruct (generated_transaction keyOf sign decode (fun _ => str "0xaa") 3 80 0 (str "1000") 2 7 tt sign_signs ltac:(lia)
    ltac:(reflexivity)) as (raw & summary & Hg & Hlen & _ & Hn & _).
  exists raw, summary. split; [exact Hg|]. split; [exact Hlen|exact Hn].
Qed.
End TxDemo.

(** ** A campaign *)

Module CampaignDemo.
Definition below (dir name : bytes) : bytes := dir ++ str "/" ++ name.
Definition uni (s : bytes) : bytes := s.
Definition json_fields (data : bytes) : out (list bytes) := Err "json".
Definition json_config (data : bytes) : out (ConfigFile * wireLimits) := Err "json".
Definition json_network (data : bytes) : out NetworkConfig := Ok (mkNetwork (str "libp2p") (str "fresh")).
Definition json_failure (data : bytes) : out slotFailureResponse := Err "json".
Definition readCorpus (path : bytes) : out corpusProvenance := Err "corpus".

Definition at0 : TracePoint := mkPoint true 0.

Definition demoTrace : ACSTrace :=
  mkTrace ACSTraceSchemaV3 true (mkTransport true true)
    (mkAggregate at0 at0 at0 at0 at0 noPoint at0 at0 at0) (mkWait 0 0 0) (mkAdapter at0 at0 at0)
    (list_to_map (map (fun p => (p, noRBCTrace)) [0; 1; 2; 3])) (list_to_map (map (fun p => (p, noBBATrace)) [0; 1; 2; 3]))
    (list_to_map (map (fun s => (s, noMessageTrace)) orderedACSMessageSubtypes)).

(** The body of a result is its slot and its node. *)
Definition json_result (body : bytes) : out evalResult :=
  match body with
  | [slot; id] =>
      Ok (mkEvalResult (mkResult slot id (str "batch") 8 [] noMaterial) (mkEvalMetrics 0 (5 + id) 0 8 true) demoTrace)
  | _ => Err "json"
  end.

Definition nodes : list Z := [0; 1; 2; 3].
Definition ok200 : list httpReply := map (fun _ => Reply 200 []) nodes.

(** The nodes refuse to start the second slot. *)
Definition slotOn (slot : Z) : slotEnv :=
  mkSlotEnv nodes (fun _ _ => None) nodes (fun _ _ => None) nodes
    (fun id => if slot =? 2 then Some (str "connection refused") else None) (map (fun id => Reply 200 [slot; id]) nodes) [].

Definition startOn : startEnv :=
  mkStartEnv (Ok tt) NotExist (fun _ => Ok tt) (fun _ => Ok []) (Ok tt) (fun _ => Ok tt) (fun _ => Ok tt) ok200 [].

Definition campaign : campaignEnv := mkCampaignEnv (fun _ _ => startOn) slotOn (fun _ => None).

Definition local : localEnv :=
  mkLocalEnv (Ok tt) (Ok (str "/tmp/c")) (fun _ => Ok tt) (fun _ => Ok tt) (fun _ => Ok tt) ok200 [] (fun _ _ => Ok tt)
    (fun _ => None) (map (fun id => Reply 200 [0; id]) nodes) [].

Definition optionsOf (warmups repetitions : Z) (mode : bytes) : suiteOptions :=
  mkSuiteOptions (str "4") (str "8") 8 256 21000 mockPlaceholder (str "http://pool") (str "/cfg") [] ∅ false 1000 1 warmups
    repetitions repetitions 7 24000 12000000000 (str "demo") mode (str "fresh") 3 true.

Definition options : bytes -> suiteOptions := optionsOf 1 2.

Definition NewSource (seed : Z) : unit := tt.
Definition Shuffle (rng : unit) (l : list evalScenario) : list evalScenario * unit := (l, rng).

Lemma Shuffle_shuffles : shuffles Shuffle.
Proof. intros rng l. done. Qed.

(** Not called: the transactions come from the pool. *)
Definition generate (index size gas : Z) (fee : bytes) (sender nonce : Z) : go (out (bytes * Summary)) := Ret (Ok ([], noSummary)).

Definition scenario : evalScenario := scenarioOf 4 3 8.

Abbreviation persistent :=
  (runPersistentSuite below below uni json_fields json_config json_network json_failure json_result generate NewSource Shuffle
    campaign (Ok []) (options (str "persistent")) [scenario]).

Definition kept : suiteState := match persistent with Ret (st, _) => st | _ => initialSuite end.

Lemma persistent_runs : persistent = Ret (kept, None).
Proof. vm_compute. reflexivity. Qed.

Example kept_phases : map run_Phase (allRuns kept) = [str "warmup"; str "measured"; str "recovery"; str "measured"].
Proof. vm_compute. reflexivity. Qed.

Lemma campaign_protocol_witness :
  exists logs, ss_log kept = concat logs /\ Forall2 (fun nodes log => protocol uni [scenario] log) (take (length logs) [4]) logs.
Proof.
  destruct (campaign_protocol below below uni json_fields json_config json_network json_failure json_result generate NewSource
    Shuffle campaign (Ok []) (options (str "persistent")) [scenario] kept None persistent_runs) as (logs & Hl & HF).
  exists logs. split; [exact Hl|]. destruct logs as [|log [|log' logs]]; [constructor| |].
  - inversion HF as [|n l ns ls Hp _]. subst. repeat constructor. exact Hp.
  - inversion HF as [|n l ns ls _ HF']. inversion HF'.
Defined.

Lemma generate_generates : generates generate.
Proof. intros index size gas fee sender nonce _. by eexists. Qed.

Lemma campaign_keeps_schedule_witness :
  map planOf (retained (allRuns kept)) = [(str "warmup", 1, sc_ID scenario, 0, 1); (str "measured", 1, sc_ID scenario, 1, 1);
    (str "measured", 2, sc_ID scenario, 2, 1)] /\ suiteCollectionComplete 3 (allRuns kept) = true.
Proof.
  destruct (campaign_keeps_schedule below below uni json_fields json_config json_network json_failure json_result generate
    NewSource Shuffle campaign (Ok []) (options (str "persistent")) [scenario] Shuffle_shuffles generate_generates
    ltac:(discriminate) ltac:(reflexivity) ltac:(repeat constructor; discriminate) ltac:(discriminate) ltac:(reflexivity)
    ltac:(discriminate) ltac:(reflexivity)) as (st & err & Hrun & done & missing & Hs & Hplan & Hend).
  rewrite persistent_runs in Hrun. apply ret_pair in Hrun as [<- <-].
  destruct (Hend eq_refl) as [-> Hc]. split; [|exact Hc]. rewrite Hplan. rewrite app_nil_r in Hs. rewrite <- Hs. reflexivity.
Defined.

(** ** The suite *)

(** One run, which the nodes do not refuse. *)
Definition short : bytes -> suiteOptions := optionsOf 0 1.

Definition suiteEnvOf (mode : bytes) : suiteEnv :=
  mkSuiteEnv campaign (Ok []) (fun _ => local) NoDir (Ok tt) (fun _ => Ok tt) (Ok tt) (Ok tt) (fun _ => Ok tt) (fun _ => Ok tt)
    (fun _ => Ok tt) (fun _ => Ok []).

Definition runsOf (mode : bytes) : list EvalRun :=
  match collectSuite below below uni json_fields json_config json_network json_failure json_result generate NewSource Shuffle
    (suiteEnvOf mode) (short mode) [] [scenario] with
  | Ret (Ok (runs, _, _)) => runs
  | _ => []
  end.

(** The file is read as it was written. *)
Definition json_stream (mode : bytes) (data : bytes) : list (out acsTraceArtifactRecord) :=
  map Ok (writeACSTraceArtifact (runsOf mode)).

Abbreviation suite mode :=
  (evalSuite below below uni json_fields json_config json_network json_failure json_result (json_stream mode) generate NewSource
    Shuffle (suiteEnvOf mode) readCorpus [] [] [] (short mode)).

Definition demoManifest (mode : bytes) : suiteManifest :=
  match suite mode with
  | Ret (Ok (manifest, _)) => manifest
  | _ => mkManifest "" [] [] false [] 0 ∅ ∅ [] [] 0 0
  end.

Lemma suite_persistent : suite (str "persistent") = Ret (Ok (demoManifest (str "persistent"), runsOf (str "persistent"))).
Proof. vm_compute. reflexivity. Qed.

Lemma suite_isolated : suite (str "isolated") = Ret (Ok (demoManifest (str "isolated"), runsOf (str "isolated"))).
Proof. vm_compute. reflexivity. Qed.

Lemma suite_valid_witness :
  mf_Valid (demoManifest (str "persistent")) = true /\
  (mf_ACSTraceSchema (demoManifest (str "persistent")) = ""%string \/
   mf_ACSTraceSchema (demoManifest (str "persistent")) = ACSTraceSchemaVersion).
Proof.
  destruct (suite_valid below below uni json_fields json_config json_network json_failure json_result
    (json_stream (str "persistent")) generate NewSource Shuffle (suiteEnvOf (str "persistent")) readCorpus [] [] []
    (short (str "persistent")) (demoManifest (str "persistent")) (runsOf (str "persistent")) Shuffle_shuffles
    suite_persistent) as (Hv & _ & _ & _ & _ & Ht).
  split; [exact Hv|]. destruct Ht as [Ht|[Ht _]]; [by left|by right].
Defined.

(** The artifact of the kept run. *)
Lemma stored_accepted :
  validateACSTraceArtifact (fun _ => Ok []) (json_stream (str "persistent")) ACSTraceSchemaV3 (runsOf (str "persistent")) [] = Ok tt.
Proof. vm_compute. reflexivity. Qed.

Lemma one_run : exists run, runsOf (str "persistent") = [run].
Proof. eexists. vm_compute. reflexivity. Qed.

Lemma written_accepted_witness :
  supportedACSTraceSchema ACSTraceSchemaV3 = true /\
  forall run result, run ∈ runsOf (str "persistent") -> result ∈ run_Results run ->
    traced ACSTraceSchemaV3 result /\ selfValid run result.
Proof.
  assert (sameMembers (runsOf (str "persistent"))) as Hsame.
  { destruct one_run as [run ->]. by intros r r' ->%list_elem_of_singleton ->%list_elem_of_singleton. }
  destruct (proj1 (written_accepted (fun _ => Ok []) (json_stream (str "persistent")) ACSTraceSchemaV3 (runsOf (str "persistent"))
    [] [] ltac:(discriminate) Hsame eq_refl eq_refl) stored_accepted) as (Hs & _ & Hall).
  split; [exact Hs|exact Hall].
Defined.

(** The first slot of a fresh cluster. *)
Definition firstSlot : EvalRun * option bytes :=
  slotOf uni json_failure json_result campaign (short (str "persistent")) ∅ (mkCluster 4 3 24000 1 []) (str "r") (str "measured")
    1 scenario 1 1 initialSuite.


End CampaignDemo.
